(* ===== verification/_CoqProject ===== *)
-Q . S2P
Prelude.v
Bitops.v
Cpuset.v
Cstring.v
Dynset.v
State.v
Group.v
Placement.v
Accounting.v
Members.v
Threads.v
Lifecycle.v
Documented.v
Affinity.v
Threadpool.v
Queue.v
Irq.v
Log.v
Cpulist.v
TopoState.v
Topo.v
TopoDev.v
TopoInit.v
TopoQuery.v
TopoMachine.v
TopoFrame.v
TopoViews.v
TopoNodes.v
TopoFaults.v
TopoClusters.v
TopoInterface.v
TopoDevices.v
TopoRelease.v
TopoMemory.v
TopoPrint.v
TopoCwd.v
Mem.v
Managed.v
Library.v
Config.v
Deployd.v
Daemon.v
Deployer.v
Rendezvous.v
InfoXml.v
InfoTree.v
InfoValid.v
InfoOutput.v
InfoCheck.v
InfoPrint.v
InfoDelete.v
InfoBuilt.v
InfoMain.v
InfoComplete.v
InfoDoc.v
InfoMachine.v
Spread.v
Perf.v
Migration.v
Tools.v
BenchBuffer.v
Bench.v
BenchProtocol.v
BenchLiveness.v
BenchMain.v
BenchPipes.v
