(* ===== verification/Prelude.v ===== *)
(** * wayca-scheduler: a verification of the scheduling library

    wayca-scheduler is a C library that places threads on the CPUs of a large
    machine. A process creates threads (or attaches existing tasks) and puts
    them into groups; a group owns a set of CPUs and decides, from its
    attribute, on which CPU or region of CPUs each member runs. The library
    keeps the load of every CPU, asks the kernel for affinities, and offers
    thread pools, memory policies and interrupt bindings on top. A daemon and its
    client use the library to deploy whole programs from descriptions in files.

    ** Parts, files and correspondence

    - [Prelude] (this file): outcomes with faults ([outcome]), the state and
      error monad [M], C integers at their width ([to_ulong], [to_int],
      [lnot64], [shl64]), hint databases [bits], [wayca] and the tactics of the
      development.
    - [Bitops]: lib/bitops.h and the macros of lib/common.h. A bitmap is a list
      of 64-bit words; a read outside of it is the fault [OutOfBounds]. Every
      search is modelled with its path for small constant sizes.
    - [Cpuset]: [cpu_set_t] (glibc) as 16 words, the [CPU_*] macros, and the
      four searches [cpuset_find_*] of lib/bitops.h.
    - [Cstring]: C strings, [strtoul] with its range error, printing.
    - [State]: the structures of lib/wayca_thread.h as records, the global
      variables of lib/threads.c as the record [sched]. Objects live in heaps
      (finite maps from pointers), so that sharing and use after free are
      visible. The kernel and the allocator are the class [System], the
      topology is the class [Topology].
    - [Group]: all of lib/group.c, function by function.
    - [Placement]: what the searches of lib/group.c compute on a well-formed
      group ([group_ok]); [Accounting]: placement, release and their histories;
      [Members]: the linked lists of members.
    - [Threads]: the interface of lib/threads.c for threads and groups;
      [Lifecycle]: its invariant [state_ok] (identifier tables agree with the
      live objects, the load of a CPU is the sum over the live threads) and the
      theorems of its operations; [Documented]: the placement table of
      include/wayca-scheduler.h.
    - [Affinity]: CPU lists and bindings of lib/threads.c.
    - [Threadpool]: the pools of lib/threads.c; [Queue]: the queue refines a
      list, and pools with their workers as a step relation.
    - [Irq]: lib/irq.c.
    - [Dynset]: sets of any number of words ([CPU_ALLOC]); [Cpulist]: the
      parser of the kernel's lists of CPUs, [cpulist_parse] of lib/topo.c.
    - [TopoState]: the structures of lib/topo.h, the static variables of
      lib/topo.c as the record [world], the files as the class [Sysfs] (which may
      answer differently every time), and the functions that read one file;
      [Topo]: the construction of the topology; [TopoDev]: the walk over the I/O
      devices, with the working directory that it changes; [TopoInit]: [topo_init]
      and [wayca_sc_is_cpu_online], which may start it again; [TopoQuery]: the
      queries.
    - [TopoFrame]: which steps leave which part of the topology alone ([keeps]);
      [TopoViews]: the parts that the invariants are about; [TopoNodes],
      [TopoClusters]: the invariants of nodes and clusters, and what the queries
      return; [TopoFaults]: topologies that end in a NULL pointer;
      [TopoMachine]: the files of a small machine; [TopoInterface]: the counting
      queries discharge what the scheduler assumes of the topology
      ([topology_of_ok]); [TopoDevices]: the arrays of devices are complete, and
      the queries for devices agree; [TopoCwd]: the working directory.
    - [TopoRelease]: [topo_free] with the functions that it calls, on the blocks of
      memory that the pointers of the topology own; [TopoMemory]: the counts of the
      arrays are right after [topo_init], so that all of them are given back;
      [TopoPrint]: the printing of a debug build, with the pointers that it follows.
    - [Log]: lib/log.h and lib/log.c.
    - [Mem]: lib/mem.c over the queries of the topology; the system calls are the
      class [MemKernel], the promises of their manual pages [MemKernelOk].
    - [Managed]: lib/managed_threads.c, with the static array of mappings and the
      calls to create and bind threads as the state.
    - [Config]: common.h and the part of deployer.c that reads a description;
      [Deployer]: the rest of deployer.c; [Deployd]: deployd.c, its static
      variables as the record [deployd]; [Daemon]: the event loop of deployd.c as
      steps over what [select], [accept], [read] and [write] give; a write to a client
      that has hung up is the fault [Killed] (SIGPIPE); [Rendezvous]: the command
      lines and sockets of both, over the system calls of the class [Sockets] and the
      promises of their manual pages, [SocketsOk].
    - [Library]: the constructors and destructors of the library, in the order of their
      priorities: the topology, the scheduler and the managed threads put together.
    - [Tools]: irqdump.c, irqdeploy.c and taskdeploy.c; [Perf]: perf.c over the output
      of the tool perf; [Spread]: tools/functions.c with its arithmetic on [double]s;
      [Migration]: the kernel module, over what its thread sees in each turn.
    - tools/wayca-sc-info: [InfoXml]: the building of the document from the queries,
      with libxml2 as the class [LibXml] and the queries as [TopoInfo]; [InfoValid]:
      the declarations and the checks of the values; [InfoOutput]: import, export,
      printing, options and [main]. [InfoTree]: the laws of libxml2 ([LibXmlOk],
      [XmlMemory]) and the tree that the queries describe ([expected]), which the
      building refines; [InfoCheck]: what the checks accept; [InfoPrint]: the text that
      is printed for a tree; [InfoDelete]: the removal of nodes ([LibXmlUnlink]);
      [InfoBuilt]: the document that was built passes the checks; [InfoMain]: the
      theorems of the whole command; [InfoComplete]: the tree in closed form, with every
      CPU once; [InfoDoc]: documents as lists of nodes, which have all of these laws;
      [InfoMachine]: the queries of the small machine, through [TopoQuery].
    - tools/wayca-memory-bench: [BenchBuffer]: the circular list and the streams,
      with the static variables as the record [bench]; [Bench]: the threads, each at
      a place of [bench_thread] or [do_bench], and the bytes in the three pipes, as
      steps of one thread at a time; [BenchProtocol]: the invariant of the steps;
      [BenchLiveness]: their progress; [BenchMain]: the options and the results;
      [BenchPipes]: the descriptors of the pipes, the transfers of a signal and the time
      of a run.

    ** What the theorems show

    Bit searches equal bit-by-bit scans. Placement on a well-formed group always
    succeeds, picks a least loaded free CPU, fills open regions first in compact
    groups, and keeps the group well formed; a detach undoes an attach (for every
    policy but scattered per-CPU); over any history in which threads are bound one
    CPU each, the CPUs of a group carry the same number of threads up to one. The
    operations of the interface do what their names say to the whole state and
    keep its invariant. The documented placement table holds. The workers of a
    thread pool take tasks from the queue in the order in which they were queued under
    every interleaving, call each once, and never get stuck. CPU lists and interrupt
    masks are read back as
    they were printed. The NUMA nodes that a reading of the topology that comes to its
    end builds partition the CPUs, and the queries about nodes, clusters and devices
    agree with each other, whatever the files contain; such a reading
    brings the process back to its working directory, and freeing the topology gives
    every block of its memory back once, when memory was available and nodes are
    numbered without a gap. A memory policy that was set
    is the one that is reported. A description of a program is read as it was
    written, and the bindings of its threads arrive at the threads, through the
    daemon's client, the environment and the library. Loading the library gives the
    scheduler the topology that its theorems assume. A daemon that is started at the default path, again
    included, is found by its clients; its event loop keeps its tables consistent and
    serves every ready client, as long as the calls for them come back. The list that the
    latency benchmark walks is one cycle inside its memory; the threads of the
    benchmark never touch a freed buffer, and every schedule of them comes to the
    result when no call fails, and to a deadlock when the memory cannot be
    allocated. The information tool builds the document that the queries describe, with
    every CPU once, accepts what it builds, and prints every document that it accepts
    without a fault; importing removes exactly what the options exclude. Jobs are spread
    over nodes evenly. The counters of perf are read as they were printed; the module
    reports the average of the migrations that it counts. Where the code does something else, a theorem states what it does:
    loads that drift, sets that leak,
    a search that reads before an array, a lock taken twice, a loop that does not
    end, a topology that cannot be read twice, an array that is overrun, threads that
    wait for each other.

    ** Bounds and fuel

    Loops over a bitmap take as fuel its number of words; loops over the CPUs of
    a set take [CPU_SETSIZE + 2] turns, and each turn advances by at least one
    CPU; loops over a list of objects take one turn more than there are live
    objects, which is enough because a chain visits no object twice
    ([chain_length]); the readers of strings take the length of the string; the
    search for a free cell of the benchmark takes the number of cells; the document of
    the information tool has six levels ([build_fuel] is one more), and the walks over a
    document take its height, which the checks bound; a turn of the reader of perf
    consumes a character. The
    theorems state that a result is returned, so none of them holds for want of
    fuel. The fault [OutOfFuel] is reached by the loops that do not end in the
    code either ([zero_stride_diverges], [short_buffer_diverges]), by a range of [cpulist_parse] that wraps
    around, and where the environment decides how long a loop takes: more than
    1024 cache directories of a CPU, directories nested deeper than a path can be
    long ([io_fuel]), a benchmark that takes no time ([measure_ends] needs a
    nanosecond for each run), and the reading of the topology that is started again and
    again ([topo_init fuel] allows [fuel] of these; the theorems
    about it take 0, a reading during which no CPU goes on- or offline).

    ** What is not modelled

    The mutexes of the tables and of the load array are taken and released inside
    single functions and are left out; mutexes of groups and pools are modelled
    because calls nest. The assertions of the code are compiled out in a release
    build and are left out. Pthread attributes and the values returned by joined
    threads are not represented. [topo_free] inside of [topo_init] is clearing the
    structure; its accesses to memory are the subject of [TopoRelease]. The group,
    thread and deployment components use the topology through the classes
    [Topology], [TopoMasks] and [NodesTotal]. A pipe of the benchmark is taken to have
    room for a byte of each thread, its reads and writes not to fail, and cancellation
    to act at [read] and [write] on the pipes only. The scanning of command lines by getopt, the calls of the log inside
    of other functions, the texts that the usage functions print (but for deployer.c), the
    constant tables of measured bandwidths in lib/topo.c (nothing reads them), and the
    examples and tests are not modelled: the tables and texts have no behaviour, and the
    examples only call the library. The
    parser and printer of XML, the tool perf and the scheduler of the kernel are
    parameters. *)
From stdpp Require Export base list list_numbers numbers option gmap.
From Stdlib Require Export ZArith Lia Sorted.

#[global] Open Scope Z_scope.

(** ** Automation *)

(** [bits] holds the rewriting rules that push [Z.testbit] through the
    bitwise operations; [wayca] holds the facts every component proves on the
    way to its theorems. *)
Create Rewrite HintDb bits.
Create HintDb wayca.
Create Rewrite HintDb wayca.

#[export] Hint Rewrite Z.land_spec Z.lor_spec Z.lxor_spec Z.ldiff_spec : bits.
#[export] Hint Rewrite andb_false_r andb_true_r orb_false_r orb_true_r
  xorb_false_r xorb_true_r andb_false_l andb_true_l orb_false_l orb_true_l
  : bits.

(** Turn every boolean comparison of the context and the goal into the
    proposition it decides. *)
Ltac zbool :=
  repeat match goal with
  | H : (_ && _)%bool = true |- _ => apply andb_true_iff in H as [? ?]
  | H : (_ || _)%bool = false |- _ => apply orb_false_iff in H as [? ?]
  | H : negb _ = true |- _ => apply negb_true_iff in H
  | H : negb _ = false |- _ => apply negb_false_iff in H
  | H : (_ <? _) = true |- _ => apply Z.ltb_lt in H
  | H : (_ <? _) = false |- _ => apply Z.ltb_ge in H
  | H : (_ <=? _) = true |- _ => apply Z.leb_le in H
  | H : (_ <=? _) = false |- _ => apply Z.leb_gt in H
  | H : (_ =? _) = true |- _ => apply Z.eqb_eq in H
  | H : (_ =? _) = false |- _ => apply Z.eqb_neq in H
  end.

(** Case split on the boolean test of the first conditional. *)
Ltac case_if E :=
  match goal with
  | |- context [if ?b then _ else _] => destruct b eqn:E; zbool
  | H : context [if ?b then _ else _] |- _ => destruct b eqn:E; zbool
  end.

(** [zdm] gives [lia] the division equations of every [/] and [mod]. *)
Ltac zdm := Z.div_mod_to_equations; lia.

(** ** Results of C code *)

(** What a C expression can do besides returning a value: dereference NULL or
    an object that was freed, read or write outside an object, divide by zero,
    count an [int] past its largest value, lock a mutex it already holds, read an
    uninitialised object, or (in a loop modelled with fuel) not come to an end
    within the fuel. *)
Inductive fault :=
  | NullDeref
  | UseAfterFree
  | OutOfBounds
  | DivByZero
  | SignedOverflow
  | Deadlock
  | Uninitialised
  | Killed  (** by a signal *)
  | OutOfFuel.

#[export] Instance fault_eq_dec : EqDecision fault.
Proof. solve_decision. Defined.

Inductive outcome (A : Type) :=
  | Ok (a : A)
  | Fault (f : fault).
Arguments Ok {A} a.
Arguments Fault {A} f.

#[export] Instance outcome_eq_dec `{EqDecision A} : EqDecision (outcome A).
Proof. solve_decision. Defined.

#[export] Instance outcome_ret : MRet outcome := fun A a => Ok a.
#[export] Instance outcome_bind : MBind outcome := fun A B f m =>
  match m with Ok a => f a | Fault e => Fault e end.
#[export] Instance outcome_fmap : FMap outcome := fun A B f m =>
  match m with Ok a => Ok (f a) | Fault e => Fault e end.

(** Binding a value. Rewriting with the equation, unlike reducing, leaves the
    loops of the continuation alone. *)
Lemma bind_Ok {A B} (f : A -> outcome B) (a : A) : (Ok a ≫= f) = f a.
Proof. reflexivity. Qed.

Ltac obind := repeat (rewrite bind_Ok; cbv beta).

Definition is_ok {A} (o : outcome A) : bool :=
  match o with Ok _ => true | Fault _ => false end.

(** State passing with faults: the effect of a C function on the objects of
    a state of type [S]. *)
Definition M (S A : Type) : Type := S -> outcome (A * S).

#[export] Instance M_ret {S} : MRet (M S) := fun A a s => Ok (a, s).
#[export] Instance M_bind {S} : MBind (M S) := fun A B f m s =>
  match m s with Ok (a, s') => f a s' | Fault e => Fault e end.

Definition get {S} : M S S := fun s => Ok (s, s).
Definition gets {S A} (f : S -> A) : M S A := fun s => Ok (f s, s).
Definition modify {S} (f : S -> S) : M S unit := fun s => Ok (tt, f s).
Definition throw {S A} (f : fault) : M S A := fun _ => Fault f.
Definition lift {S A} (o : outcome A) : M S A := fun s =>
  match o with Ok a => Ok (a, s) | Fault e => Fault e end.

(** [if (b) m;] *)
Definition when {S} (b : bool) (m : M S unit) : M S unit := if b then m else mret tt.

(** Dereferencing a pointer that may be NULL. *)
Definition deref {S A} (p : option A) : M S A :=
  match p with Some a => mret a | None => throw NullDeref end.

Lemma M_bind_ok {S A B} (m : M S A) (f : A -> M S B) s a s' :
  m s = Ok (a, s') -> (mbind f m) s = f a s'.
Proof. intros H. unfold mbind, M_bind. by rewrite H. Qed.

Lemma M_bind_inv {S A B} (m : M S A) (f : A -> M S B) s b s'' :
  (mbind f m) s = Ok (b, s'') ->
  exists a s', m s = Ok (a, s') /\ f a s' = Ok (b, s'').
Proof.
  unfold mbind, M_bind. destruct (m s) as [[a s']|e]; [|done]. eauto.
Qed.

Lemma M_bind_assoc {S A B C} (m : M S A) (f : A -> M S B) (g : B -> M S C) s :
  mbind g (mbind f m) s = mbind (fun a => mbind g (f a)) m s.
Proof. unfold mbind, M_bind. by destruct (m s) as [[a s']|e]. Qed.

(** ** Error numbers *)

Definition ENOENT : Z := 2.
Definition EIO : Z := 5.
Definition EAGAIN : Z := 11.
Definition ENOMEM : Z := 12.
Definition EBUSY : Z := 16.
Definition EINVAL : Z := 22.
Definition ERANGE : Z := 34.
Definition ENODATA : Z := 61.

(** ** Machine integers *)

Declare Scope c_scope.
Delimit Scope c_scope with c.

Definition BITS_PER_LONG : Z := 64.
Definition ULONG_MAX : Z := 2 ^ 64 - 1.
Definition INT_MAX : Z := 2 ^ 31 - 1.

(** Conversion to [unsigned long] (also [size_t] and [unsigned long long]),
    to [unsigned int] and to [int] on an LP64 machine. *)
Definition to_ulong (x : Z) : Z := x mod 2 ^ 64.
Definition to_uint (x : Z) : Z := x mod 2 ^ 32.
Definition to_int (x : Z) : Z :=
  let y := x mod 2 ^ 32 in if y <? 2 ^ 31 then y else y - 2 ^ 32.

(** Conversion of an [unsigned long] to [long]. *)
Definition to_long (x : Z) : Z := if x <? 2 ^ 63 then x else x - 2 ^ 64.

(** [~x], [x << n] and [x >> n] on [unsigned long]. *)
Definition lnot64 (x : Z) : Z := to_ulong (Z.lnot x).
Definition shl64 (x n : Z) : Z := to_ulong (Z.shiftl x n).
Definition shr64 (x n : Z) : Z := Z.shiftr x n.

Notation "~64 x" := (lnot64 x) (at level 35, right associativity) : c_scope.
Notation "x <<64 n" := (shl64 x n) (at level 50, left associativity) : c_scope.
Notation "x >>64 n" := (shr64 x n) (at level 50, left associativity) : c_scope.

(** An [unsigned long] value. *)
Definition is_word (w : Z) : Prop := 0 <= w < 2 ^ 64.

#[export] Instance is_word_dec w : Decision (is_word w).
Proof. unfold is_word. apply _. Defined.

Lemma to_ulong_word x : is_word (to_ulong x).
Proof. unfold is_word, to_ulong. apply Z.mod_pos_bound. lia. Qed.

Lemma to_ulong_id x : is_word x -> to_ulong x = x.
Proof. apply Z.mod_small. Qed.

Lemma to_int_id x : 0 <= x < 2 ^ 31 -> to_int x = x.
Proof.
  intros Hx. unfold to_int. rewrite Z.mod_small by lia. by destruct (Z.ltb_spec x (2 ^ 31)); [|lia].
Qed.

Lemma to_ulong_testbit x i :
  0 <= i -> Z.testbit (to_ulong x) i = (i <? 64) && Z.testbit x i.
Proof.
  intros Hi. unfold to_ulong. destruct (Z.ltb_spec i 64).
  - by rewrite Z.mod_pow2_bits_low.
  - by rewrite Z.mod_pow2_bits_high by lia.
Qed.

Lemma lnot64_testbit x i :
  0 <= i -> Z.testbit (lnot64 x) i = (i <? 64) && negb (Z.testbit x i).
Proof. intros. unfold lnot64. by rewrite to_ulong_testbit, Z.lnot_spec. Qed.

Lemma word_testbit_high w i : is_word w -> 64 <= i -> Z.testbit w i = false.
Proof.
  intros Hw Hi. rewrite <- (to_ulong_id w Hw), to_ulong_testbit by lia.
  by destruct (Z.ltb_spec i 64); [lia|].
Qed.

(** Two words are equal when their 64 bits agree. *)
Lemma word_ext v w :
  is_word v -> is_word w ->
  (forall i, 0 <= i < 64 -> Z.testbit v i = Z.testbit w i) -> v = w.
Proof.
  intros Hv Hw H. apply Z.bits_inj'. intros i Hi.
  destruct (decide (i < 64)); [by apply H|].
  by rewrite !word_testbit_high by (done || lia).
Qed.

(** A word is any number that has no bit at or above 64. *)
Lemma word_intro w :
  0 <= w -> (forall i, 64 <= i -> Z.testbit w i = false) -> is_word w.
Proof.
  intros H0 Hb. split; [done|].
  destruct (decide (w = 0)) as [->|Hne]; [lia|].
  apply Z.log2_lt_pow2; [lia|].
  destruct (decide (Z.log2 w < 64)); [done|exfalso].
  specialize (Hb (Z.log2 w) ltac:(lia)).
  rewrite Z.bit_log2 in Hb; [done|lia].
Qed.

Lemma land_word v w : is_word v -> is_word w -> is_word (Z.land v w).
Proof.
  intros Hv Hw. apply word_intro; [apply Z.land_nonneg; unfold is_word in *; lia|].
  intros i Hi. by rewrite Z.land_spec, (word_testbit_high v) by done.
Qed.

Lemma lor_word v w : is_word v -> is_word w -> is_word (Z.lor v w).
Proof.
  intros Hv Hw. apply word_intro; [apply Z.lor_nonneg; unfold is_word in *; lia|].
  intros i Hi. by rewrite Z.lor_spec, !word_testbit_high by done.
Qed.

Lemma lxor_word v w : is_word v -> is_word w -> is_word (Z.lxor v w).
Proof.
  intros Hv Hw. apply word_intro; [apply Z.lxor_nonneg; unfold is_word in *; lia|].
  intros i Hi. by rewrite Z.lxor_spec, !word_testbit_high by done.
Qed.

#[export] Hint Resolve to_ulong_word land_word lor_word lxor_word : wayca.

(** A word is zero exactly when it has no bit. *)
Lemma word_zero_iff w :
  is_word w -> w = 0 <-> (forall i, 0 <= i < 64 -> Z.testbit w i = false).
Proof.
  intros Hw. split; [intros -> i _; apply Z.bits_0|].
  intros H. apply word_ext; [done|by vm_compute|].
  intros i Hi. by rewrite H, Z.bits_0.
Qed.

(** ** Lists *)

Lemma find_app {A} (f : A -> bool) l l' :
  List.find f (l ++ l') = match List.find f l with Some a => Some a | None => List.find f l' end.
Proof. induction l as [|a l IH]; [done|]. simpl. by destruct (f a). Qed.

Lemma seqZ_snoc m n : 0 <= n -> seqZ m (n + 1) = seqZ m n ++ [m + n].
Proof.
  intros. rewrite seqZ_app by lia. by rewrite (seqZ_cons (m + n)) by lia.
Qed.

Lemma Forall_insert {A} (P : A -> Prop) (l : list A) i x :
  Forall P l -> P x -> Forall P (<[i:=x]> l).
Proof. intros. by apply Forall_insert. Qed.

(** A list splits in one way around an element that occurs once. *)
Lemma app_cons_inj {A} (l1 l2 k1 k2 : list A) x :
  l1 ++ x :: l2 = k1 ++ x :: k2 -> x ∉ l1 -> x ∉ k1 -> l1 = k1 /\ l2 = k2.
Proof.
  revert k1. induction l1 as [|y l1 IH]; intros [|z k1] E Hl Hk; simplify_eq/=.
  - done.
  - set_solver.
  - set_solver.
  - destruct (IH k1) as [-> ->]; set_solver.
Qed.

(** Summation of a list of integers. *)
Fixpoint sumZ (l : list Z) : Z :=
  match l with [] => 0 | x :: l => x + sumZ l end.

Lemma sumZ_app l k : sumZ (l ++ k) = sumZ l + sumZ k.
Proof. induction l; simpl; lia. Qed.

#[export] Hint Rewrite sumZ_app : wayca.
