(* ===== verification/Bitops.v ===== *)
(** * Bit operations on arrays of [unsigned long]

    [lib/bitops.h] and the arithmetic macros of [lib/common.h]. A bitmap is
    the list of its words; reading past its end is the fault [OutOfBounds].
    The inline functions branch on [small_const_nbits], that is on whether the
    compiler knows the bitmap's size: that knowledge is the argument [const_p],
    and the theorems hold for both of its values. *)

From S2P Require Import Prelude.

(** ** lib/common.h *)
Module Common.

Definition min (x y : Z) : Z := if y <? x then y else x.
Definition max (x y : Z) : Z := if y <? x then x else y.
Definition div_round_up (x y : Z) : Z := Z.quot (x + y - 1) y.
Definition __round_mask (x y : Z) : Z := y - 1.
Definition round_up (x y : Z) : Z := Z.lor (x - 1) (__round_mask x y) + 1.
Definition round_down (x y : Z) : Z := Z.land x (Z.lnot (__round_mask x y)).

Lemma min_spec x y : min x y = Z.min x y.
Proof. unfold min. destruct (Z.ltb_spec y x); lia. Qed.

Lemma max_spec x y : max x y = Z.max x y.
Proof. unfold max. destruct (Z.ltb_spec y x); lia. Qed.

Lemma round_down_64 x : 0 <= x -> round_down x 64 = 64 * (x / 64).
Proof.
  intros Hx. unfold round_down, __round_mask. change (64 - 1) with (Z.ones 6).
  rewrite <- Z.ldiff_land, Z.ldiff_ones_r by lia.
  rewrite Z.shiftl_mul_pow2, Z.shiftr_div_pow2 by lia.
  change (2 ^ 6) with 64. lia.
Qed.

(** [div_round_up] is the ceiling of the division of two positive [int]s. *)
Lemma div_round_up_bounds x y :
  0 < x -> 0 < y ->
  y * (div_round_up x y - 1) < x <= y * div_round_up x y.
Proof.
  intros. unfold div_round_up. rewrite Z.quot_div_nonneg by lia. zdm.
Qed.

Lemma div_round_up_pos x y : 0 < x -> 0 < y -> 0 < div_round_up x y.
Proof. intros. pose proof (div_round_up_bounds x y). nia. Qed.

End Common.

(** ** lib/bitops.h *)

(** [addr[idx]] *)
Definition rd (addr : list Z) (idx : Z) : outcome Z :=
  match addr !! Z.to_nat idx with
  | Some w => Ok w
  | None => Fault OutOfBounds
  end.

Definition ALIGN (x a : Z) : Z :=
  Z.land (to_ulong (x + a - 1)) (lnot64 (a - 1)).

Definition small_const_nbits (const_p : bool) (nbits : Z) : bool :=
  const_p && (nbits <=? BITS_PER_LONG) && (0 <? nbits).

Definition GENMASK (h l : Z) : Z :=
  (Z.land (to_ulong (~64 0 - (1 <<64 l) + 1))
          (~64 0 >>64 (BITS_PER_LONG - 1 - h)))%c.

(** [tolower] of the C locale. *)
Definition tolower (ch : Z) : Z :=
  if (65 <=? ch) && (ch <=? 90) then ch + 32 else ch.

Definition hex_to_bin (ch : Z) : Z :=
  if (48 <=? ch) && (ch <=? 57) then ch - 48
  else let ch := tolower ch in
    if (97 <=? ch) && (ch <=? 102) then ch - 97 + 10 else -1.

(** [__builtin_ffsl] and [__builtin_clzl]: one plus the index of the least
    significant set bit, and the number of leading zero bits. *)
Fixpoint pos_ctz (p : positive) : Z :=
  match p with
  | xO q => 1 + pos_ctz q
  | _ => 0
  end.

Definition builtin_ffsl (w : Z) : Z :=
  match w with Zpos p => pos_ctz p + 1 | _ => 0 end.

Definition builtin_clzl (w : Z) : Z := BITS_PER_LONG - 1 - Z.log2 w.

Definition __ffs (word : Z) : Z :=
  if word =? 0 then BITS_PER_LONG else builtin_ffsl word - 1.

Definition __ffz (x : Z) : Z := __ffs (lnot64 x).

Definition __fls (word : Z) : Z :=
  if word =? 0 then BITS_PER_LONG else BITS_PER_LONG - builtin_clzl word - 1.

(** The [while (!tmp)] loop of [_find_next_bit]. Every turn reads the next
    word, so [S (length addr)] turns are enough. *)
Fixpoint _find_next_bit_loop (fuel : nat) (addr : list Z)
    (nbits start invert tmp : Z) : outcome Z :=
  match fuel with
  | O => Fault OutOfFuel
  | S fuel =>
    if tmp =? 0 then
      let start := to_ulong (start + BITS_PER_LONG) in
      if nbits <=? start then Ok nbits
      else
        w ← rd addr (start / BITS_PER_LONG);
        _find_next_bit_loop fuel addr nbits start invert (Z.lxor w invert)
    else
      let ffs := to_ulong (start + __ffs tmp) in
      Ok (Common.min ffs nbits)
  end.

Definition _find_next_bit (addr : list Z) (nbits start invert : Z)
    : outcome Z :=
  w ← rd addr (start / BITS_PER_LONG);
  let tmp := Z.lxor w invert in
  let mask := (~64 0 <<64 (Z.land start (BITS_PER_LONG - 1)))%c in
  let tmp := Z.land tmp mask in
  let start := Common.round_down start BITS_PER_LONG in
  _find_next_bit_loop (S (length addr)) addr nbits start invert tmp.

Definition find_next_bit (const_p : bool) (addr : list Z) (size offset : Z)
    : outcome Z :=
  if size <=? offset then Ok size
  else if small_const_nbits const_p size then
    w ← rd addr 0;
    let val := Z.land w (GENMASK (size - 1) offset) in
    Ok (if val =? 0 then size else __ffs val)
  else _find_next_bit addr size offset 0.

Definition find_next_zero_bit (const_p : bool) (addr : list Z)
    (size offset : Z) : outcome Z :=
  if size <=? offset then Ok size
  else if small_const_nbits const_p size then
    w ← rd addr 0;
    let val := Z.lor w (lnot64 (GENMASK (size - 1) offset)) in
    Ok (if val =? lnot64 0 then size else __ffz val)
  else _find_next_bit addr size offset (lnot64 0).

Fixpoint find_first_bit_loop (fuel : nat) (addr : list Z) (size idx : Z)
    : outcome Z :=
  match fuel with
  | O => Fault OutOfFuel
  | S fuel =>
    if idx * BITS_PER_LONG <? size then
      w ← rd addr idx;
      if negb (w =? 0) then
        let ffs := idx * BITS_PER_LONG + __ffs w in
        Ok (Common.min ffs size)
      else find_first_bit_loop fuel addr size (idx + 1)
    else Ok size
  end.

Definition find_first_bit (const_p : bool) (addr : list Z) (size : Z)
    : outcome Z :=
  if small_const_nbits const_p size then
    w ← rd addr 0;
    let val := Z.land w (GENMASK (size - 1) 0) in
    Ok (if val =? 0 then size else __ffs val)
  else find_first_bit_loop (S (length addr)) addr size 0.

(** The [do ... while (idx--)] loop of [find_last_bit]: [idx] strictly
    decreases, so it is the recursion argument. *)
Fixpoint find_last_bit_loop (addr : list Z) (size : Z) (idx : nat) (val : Z)
    : outcome Z :=
  w ← rd addr (Z.of_nat idx);
  let val := Z.land val w in
  if negb (val =? 0) then Ok (Z.of_nat idx * BITS_PER_LONG + __fls val)
  else match idx with
    | O => Ok size
    | S idx => find_last_bit_loop addr size idx (lnot64 0)
    end.

Definition find_last_bit (const_p : bool) (addr : list Z) (size : Z)
    : outcome Z :=
  if small_const_nbits const_p size then
    w ← rd addr 0;
    let val := Z.land w (GENMASK (size - 1) 0) in
    Ok (if val =? 0 then size else __fls val)
  else
    let val := (~64 0 >>64 (Z.land (to_ulong (- size)) (BITS_PER_LONG - 1)))%c in
    let idx := to_ulong (size - 1) / BITS_PER_LONG in
    find_last_bit_loop addr size (Z.to_nat idx) val.

Fixpoint find_first_zero_bit_loop (fuel : nat) (addr : list Z) (size idx : Z)
    : outcome Z :=
  match fuel with
  | O => Fault OutOfFuel
  | S fuel =>
    if idx * BITS_PER_LONG <? size then
      w ← rd addr idx;
      if negb (w =? lnot64 0) then
        let ffz := idx * BITS_PER_LONG + __ffz w in
        Ok (Common.min ffz size)
      else find_first_zero_bit_loop fuel addr size (idx + 1)
    else Ok size
  end.

Definition find_first_zero_bit (const_p : bool) (addr : list Z) (size : Z)
    : outcome Z :=
  if small_const_nbits const_p size then
    w ← rd addr 0;
    let val := Z.lor w (lnot64 (GENMASK (size - 1) 0)) in
    Ok (if val =? lnot64 0 then size else __ffz val)
  else find_first_zero_bit_loop (S (length addr)) addr size 0.

(** ** Specification *)

(** Bit [i] of the bitmap. *)
Definition wbit (addr : list Z) (i : Z) : bool :=
  Z.testbit (default 0 (addr !! Z.to_nat (i / 64))) (i mod 64).

(** A bitmap all of whose words are [unsigned long]s, long enough for [size]
    bits. *)
Definition bitmap_ok (addr : list Z) (size : Z) : Prop :=
  Forall is_word addr /\ 0 <= size <= 64 * Z.of_nat (length addr) /\ size < 2 ^ 63.

#[export] Instance bitmap_ok_dec addr size : Decision (bitmap_ok addr size).
Proof. unfold bitmap_ok. apply _. Defined.

(** [r] is the first position of [[lo, hi)] where [b] holds, [hi] if there is
    none. *)
Definition first_in (b : Z -> bool) (lo hi r : Z) : Prop :=
  lo <= r <= hi /\
  (forall i, lo <= i < r -> b i = false) /\
  (r < hi -> b r = true).

(** [r] is the last position of [[0, hi)] where [b] holds, [hi] if there is
    none. *)
Definition last_in (b : Z -> bool) (hi r : Z) : Prop :=
  (r = hi /\ forall i, 0 <= i < hi -> b i = false) \/
  (0 <= r < hi /\ b r = true /\ forall i, r < i < hi -> b i = false).

Lemma first_in_unique b lo hi r r' :
  first_in b lo hi r -> first_in b lo hi r' -> r = r'.
Proof.
  intros (? & Hn & Ht) (? & Hn' & Ht').
  destruct (Z.lt_trichotomy r r') as [Hlt|[?|Hlt]]; [|done|].
  - specialize (Hn' r ltac:(lia)). rewrite Ht in Hn'; [done|lia].
  - specialize (Hn r' ltac:(lia)). rewrite Ht' in Hn; [done|lia].
Qed.

Lemma last_in_unique b hi r r' : last_in b hi r -> last_in b hi r' -> r = r'.
Proof.
  intros [[-> Hn]|(? & Ht & Hn)] [[-> Hn']|(? & Ht' & Hn')]; [done| | |].
  - rewrite Hn in Ht'; [done|lia].
  - rewrite Hn' in Ht; [done|lia].
  - destruct (Z.lt_trichotomy r r') as [?|[?|?]]; [|done|].
    + rewrite Hn in Ht'; [done|lia].
    + rewrite Hn' in Ht; [done|lia].
Qed.

Lemma first_in_ext b b' lo hi r :
  (forall i, lo <= i < hi -> b i = b' i) -> first_in b lo hi r -> first_in b' lo hi r.
Proof.
  intros E (? & Hn & Ht). repeat split; try lia.
  - intros i Hi. rewrite <- E by lia. by apply Hn.
  - intros. rewrite <- E by lia. by apply Ht.
Qed.

(** ** Words *)

Lemma rd_wbit addr size k :
  bitmap_ok addr size -> 0 <= k -> 64 * k < size ->
  exists w, rd addr k = Ok w /\ is_word w /\
    (forall j, 0 <= j < 64 -> Z.testbit w j = wbit addr (64 * k + j)).
Proof.
  intros (Hw & Hs & _) Hk Hlt.
  destruct (lookup_lt_is_Some_2 addr (Z.to_nat k)) as [w E]; [lia|].
  exists w. unfold rd. rewrite E. split_and!; [done| |].
  - by eapply Forall_lookup_1.
  - intros j Hj. unfold wbit.
    replace ((64 * k + j) / 64) with k by zdm.
    replace ((64 * k + j) mod 64) with j by zdm. by rewrite E.
Qed.

Lemma pos_ctz_spec p :
  0 <= pos_ctz p /\ Z.testbit (Zpos p) (pos_ctz p) = true /\
  (forall i, 0 <= i < pos_ctz p -> Z.testbit (Zpos p) i = false).
Proof.
  induction p as [p _|p (IH0 & IHt & IHf)|]; simpl pos_ctz.
  1, 3: split_and!; [lia|done|lia].
  rewrite Pos2Z.inj_xO. split_and!; [lia| |].
  - replace (1 + pos_ctz p) with (Z.succ (pos_ctz p)) by lia.
    by rewrite Z.double_bits_succ.
  - intros i Hi. destruct (decide (i = 0)) as [->|].
    + apply Z.testbit_even_0.
    + replace i with (Z.succ (i - 1)) by lia.
      rewrite Z.double_bits_succ. apply IHf. lia.
Qed.

(** [__ffs] is the index of the lowest set bit, 64 for the word zero. *)
Lemma __ffs_first w : is_word w -> first_in (Z.testbit w) 0 64 (__ffs w).
Proof.
  intros Hw. unfold __ffs, BITS_PER_LONG. destruct (Z.eqb_spec w 0) as [->|Hne].
  - split; [lia|]. split; [intros; apply Z.bits_0|lia].
  - destruct w as [|p|p]; [done| |unfold is_word in Hw; lia]. simpl.
    replace (pos_ctz p + 1 - 1) with (pos_ctz p) by lia.
    destruct (pos_ctz_spec p) as (? & Ht & Hf).
    assert (pos_ctz p < 64).
    { destruct (decide (pos_ctz p < 64)); [done|].
      by rewrite word_testbit_high in Ht by (done || lia). }
    split; [lia|]. split; [by apply Hf|done].
Qed.

(** [__fls] is the index of the highest set bit, 64 for the word zero. *)
Lemma __fls_last w : is_word w -> last_in (Z.testbit w) 64 (__fls w).
Proof.
  intros Hw. unfold __fls, builtin_clzl, BITS_PER_LONG.
  destruct (Z.eqb_spec w 0) as [->|Hne].
  - left. split; [done|]. intros; apply Z.bits_0.
  - right. replace (64 - (64 - 1 - Z.log2 w) - 1) with (Z.log2 w) by lia.
    unfold is_word in Hw. pose proof (Z.log2_nonneg w).
    assert (Z.log2 w < 64) by (apply Z.log2_lt_pow2; lia).
    split; [lia|]. split; [apply Z.bit_log2; lia|].
    intros i Hi. apply Z.bits_above_log2; lia.
Qed.

Lemma __ffz_first w :
  is_word w -> first_in (fun i => negb (Z.testbit w i)) 0 64 (__ffz w).
Proof.
  intros Hw. eapply first_in_ext, __ffs_first; [|apply to_ulong_word].
  intros i Hi. simpl. rewrite lnot64_testbit by lia.
  by destruct (Z.ltb_spec i 64); [|lia].
Qed.

Lemma ulong_max_testbit i : 0 <= i -> Z.testbit (lnot64 0) i = (i <? 64).
Proof. intros. by rewrite lnot64_testbit, Z.bits_0, andb_true_r by lia. Qed.

Lemma lnot64_word x : is_word (lnot64 x).
Proof. apply to_ulong_word. Qed.

#[export] Hint Resolve lnot64_word : wayca.

Lemma shr_ulong_max_testbit n i :
  0 <= n -> 0 <= i -> Z.testbit (shr64 (lnot64 0) n) i = (i + n <? 64).
Proof.
  intros. unfold shr64. by rewrite Z.shiftr_spec, ulong_max_testbit by lia.
Qed.

Lemma shl_ulong_max_testbit n i :
  0 <= n -> 0 <= i -> Z.testbit (shl64 (lnot64 0) n) i = (n <=? i) && (i <? 64).
Proof.
  intros. unfold shl64. rewrite to_ulong_testbit, Z.shiftl_spec by lia.
  destruct (Z.leb_spec n i), (Z.ltb_spec i 64); simpl; try done.
  - rewrite ulong_max_testbit by lia. destruct (Z.ltb_spec (i - n) 64); [done|lia].
  - rewrite Z.testbit_neg_r; [done|lia].
Qed.

Lemma GENMASK_testbit h l i :
  0 <= l <= h -> h < 64 -> 0 <= i ->
  Z.testbit (GENMASK h l) i = (l <=? i) && (i <=? h).
Proof.
  intros Hl Hh Hi. unfold GENMASK, BITS_PER_LONG.
  rewrite Z.land_spec, shr_ulong_max_testbit by lia.
  assert (E : to_ulong (lnot64 0 - shl64 1 l + 1) = shl64 (lnot64 0) l).
  { unfold shl64. rewrite !Z.shiftl_mul_pow2, Z.mul_1_l by lia.
    unfold lnot64. change (to_ulong (Z.lnot 0)) with (2 ^ 64 - 1).
    unfold to_ulong. rewrite (Z.mod_small (2 ^ l)).
    2:{ split; [lia|]. apply Z.pow_lt_mono_r; lia. }
    rewrite Z.mul_sub_distr_r, Z.mul_1_l.
    replace (2 ^ 64 - 1 - 2 ^ l + 1) with (- 2 ^ l + 1 * 2 ^ 64) by lia.
    replace (2 ^ 64 * 2 ^ l - 2 ^ l) with (- 2 ^ l + 2 ^ l * 2 ^ 64) by lia.
    by rewrite !Z.mod_add by lia. }
  rewrite E, shl_ulong_max_testbit by lia.
  destruct (Z.leb_spec l i), (Z.ltb_spec i 64), (Z.leb_spec i h),
    (Z.ltb_spec (i + (64 - 1 - h)) 64); simpl; try done; lia.
Qed.

Lemma GENMASK_word h l : is_word (GENMASK h l).
Proof.
  unfold GENMASK. apply word_intro.
  - apply Z.land_nonneg. left. apply to_ulong_word.
  - intros i Hi. rewrite Z.land_spec, (word_testbit_high (to_ulong _)); eauto with wayca.
Qed.

#[export] Hint Resolve GENMASK_word : wayca.

(** ** Searching upwards *)

(** The word that [invert] is exclusive-ored with: 0 to look for a set bit,
    [~0UL] to look for a clear one. *)
Definition inv_word (inv : bool) : Z := if inv then lnot64 0 else 0.

Lemma inv_word_word inv : is_word (inv_word inv).
Proof. destruct inv; [apply lnot64_word|by vm_compute]. Qed.

Lemma inv_word_testbit inv j :
  0 <= j < 64 -> Z.testbit (inv_word inv) j = inv.
Proof.
  intros. destruct inv; [|apply Z.bits_0].
  simpl. rewrite ulong_max_testbit by lia. apply Z.ltb_lt. lia.
Qed.

#[export] Hint Resolve inv_word_word : wayca.

Section find_next.
Context (addr : list Z) (nbits : Z) (inv : bool).
Context (Hok : bitmap_ok addr nbits).

(** The bits the search looks at. *)
Let b (i : Z) : bool := xorb (wbit addr i) inv.

(** [tmp] is what is left to look at of word [k]. *)
Definition scan_state (lo k tmp : Z) : Prop :=
  is_word tmp /\
  (forall j, 0 <= j < 64 -> Z.testbit tmp j = (lo <=? 64 * k + j) && b (64 * k + j)) /\
  (forall i, lo <= i < 64 * k -> b i = false).

Lemma scan_done lo k tmp :
  scan_state lo k tmp -> tmp <> 0 -> 0 <= k -> 64 * k < nbits ->
  lo < 64 * k + 64 -> lo <= nbits ->
  first_in b lo nbits (Common.min (to_ulong (64 * k + __ffs tmp)) nbits).
Proof.
  intros (Hw & Ht & Hf) Hne Hk Hkn Hlo Hln.
  destruct (__ffs_first tmp Hw) as (Hr & Hn & Hs).
  assert (__ffs tmp < 64).
  { destruct (decide (__ffs tmp < 64)); [done|]. destruct Hne.
    apply word_zero_iff; [done|]. intros. apply Hn. lia. }
  destruct Hok as (_ & _ & Hb).
  rewrite to_ulong_id, Common.min_spec by (unfold is_word; lia).
  pose proof (Hs ltac:(lia)) as Hbit. rewrite Ht in Hbit by lia. zbool.
  split; [lia|]. split.
  - intros i Hi. destruct (decide (i < 64 * k)); [apply Hf; lia|].
    specialize (Hn (i - 64 * k) ltac:(lia)). rewrite Ht in Hn by lia.
    replace (64 * k + (i - 64 * k)) with i in Hn by lia.
    destruct (Z.leb_spec lo i); [done|lia].
  - intros. by rewrite Z.min_l by lia.
Qed.

Lemma scan_next lo k tmp w :
  scan_state lo k tmp -> tmp = 0 -> lo < 64 * k + 64 -> 0 <= k -> is_word w ->
  (forall j, 0 <= j < 64 -> Z.testbit w j = wbit addr (64 * (k + 1) + j)) ->
  scan_state lo (k + 1) (Z.lxor w (inv_word inv)).
Proof.
  intros (_ & Ht & Hf) -> Hlo Hk Hw Hb.
  split; [auto with wayca|split].
  - intros j Hj. rewrite Z.lxor_spec, Hb, inv_word_testbit by lia.
    destruct (Z.leb_spec lo (64 * (k + 1) + j)); [done|lia].
  - intros i Hi. destruct (decide (i < 64 * k)); [apply Hf; lia|].
    specialize (Ht (i - 64 * k) ltac:(lia)). rewrite Z.bits_0 in Ht.
    replace (64 * k + (i - 64 * k)) with i in Ht by lia.
    destruct (Z.leb_spec lo i); [done|lia].
Qed.

Lemma _find_next_bit_loop_first fuel lo k tmp :
  scan_state lo k tmp -> 0 <= k -> 64 * k < nbits -> lo < 64 * k + 64 ->
  lo <= nbits -> Z.of_nat (length addr) - k < Z.of_nat fuel ->
  exists r, _find_next_bit_loop fuel addr nbits (64 * k) (inv_word inv) tmp = Ok r /\
    first_in b lo nbits r.
Proof.
  revert k tmp. induction fuel as [|fuel IH]; intros k tmp Hs Hk Hkn Hlo Hln Hf.
  { destruct Hok as (_ & ? & _). lia. }
  simpl. destruct (Z.eqb_spec tmp 0) as [Hz|Hnz].
  2:{ eexists. split; [done|]. by apply scan_done. }
  destruct Hok as (_ & ? & ?). unfold BITS_PER_LONG.
  rewrite to_ulong_id by (unfold is_word; lia).
  replace (64 * k + 64) with (64 * (k + 1)) in * by lia.
  destruct (Z.leb_spec nbits (64 * (k + 1))).
  - exists nbits. split; [done|]. split; [lia|]. split; [|lia].
    intros i Hi. destruct Hs as (Hw & Ht & Hff).
    destruct (decide (i < 64 * k)); [apply Hff; lia|].
    specialize (Ht (i - 64 * k) ltac:(lia)). rewrite Hz, Z.bits_0 in Ht.
    replace (64 * k + (i - 64 * k)) with i in Ht by lia.
    destruct (Z.leb_spec lo i); [done|lia].
  - replace (64 * (k + 1) / 64) with (k + 1) by zdm.
    destruct (rd_wbit addr nbits (k + 1)) as (w & -> & Hw & Hb); [done|lia|lia|].
    simpl. apply IH; try lia.
    eapply scan_next; eauto; lia.
Qed.

Lemma _find_next_bit_first start :
  0 <= start < nbits ->
  exists r, _find_next_bit addr nbits start (inv_word inv) = Ok r /\
    first_in b start nbits r.
Proof.
  intros Hs. unfold _find_next_bit, BITS_PER_LONG.
  destruct (rd_wbit addr nbits (start / 64)) as (w & -> & Hw & Hb); [done|zdm|zdm|].
  obind. rewrite Common.round_down_64 by lia.
  apply _find_next_bit_loop_first; try zdm.
  change (64 - 1) with (Z.ones 6). rewrite Z.land_ones by lia. change (2 ^ 6) with 64.
  split; [apply land_word; [auto with wayca|apply to_ulong_word]|split; [|zdm]].
  intros j Hj.
  rewrite Z.land_spec, shl_ulong_max_testbit, Z.lxor_spec, Hb, inv_word_testbit
    by zdm.
  rewrite andb_comm. f_equal.
  destruct (Z.leb_spec (start mod 64) j), (Z.leb_spec start (64 * (start / 64) + j)),
    (Z.ltb_spec j 64); simpl; try done; zdm.
Qed.
End find_next.

(** A word masked to the positions [[lo, hi)] of the first word. *)
Lemma small_first addr size offset w inv :
  bitmap_ok addr size -> 0 <= offset < size -> size <= 64 -> rd addr 0 = Ok w ->
  is_word w -> (forall j, 0 <= j < 64 -> Z.testbit w j = wbit addr (64 * 0 + j)) ->
  let val := Z.land (Z.lxor w (inv_word inv)) (GENMASK (size - 1) offset) in
  first_in (fun i => xorb (wbit addr i) inv) offset size
    (if val =? 0 then size else __ffs val).
Proof.
  intros Hok Ho Hs _ Hw Hb val.
  assert (Hvw : is_word val) by (unfold val; eauto with wayca).
  assert (Hv : forall j, 0 <= j < 64 -> Z.testbit val j =
            xorb (wbit addr j) inv && ((offset <=? j) && (j <? size))).
  { intros j Hj. unfold val.
    rewrite Z.land_spec, Z.lxor_spec, Hb, inv_word_testbit, GENMASK_testbit by lia.
    replace (64 * 0 + j) with j by lia. f_equal. f_equal.
    destruct (Z.leb_spec j (size - 1)), (Z.ltb_spec j size); lia. }
  assert (Hin : forall i, offset <= i < size ->
            Z.testbit val i = xorb (wbit addr i) inv).
  { intros i Hi. rewrite Hv by lia.
    destruct (Z.leb_spec offset i), (Z.ltb_spec i size); try lia. by rewrite andb_true_r. }
  destruct (Z.eqb_spec val 0) as [Hz|Hnz].
  - split; [lia|split; [|lia]]. intros i Hi.
    by rewrite <- Hin, Hz, Z.bits_0.
  - destruct (__ffs_first val Hvw) as (Hr & Hn & Ht).
    assert (Hlt : __ffs val < 64).
    { destruct (decide (__ffs val < 64)); [done|]. destruct Hnz.
      apply word_zero_iff; [done|]. intros. apply Hn. lia. }
    pose proof (Ht Hlt) as Hbit. rewrite Hv in Hbit by lia. zbool.
    split; [lia|split].
    + intros i Hi. rewrite <- Hin by lia. apply Hn. lia.
    + intros. by rewrite <- Hin by lia; apply Ht.
Qed.

Lemma small_const_nbits_spec c size :
  small_const_nbits c size = true -> 0 < size <= 64.
Proof. unfold small_const_nbits, BITS_PER_LONG. intros. zbool. lia. Qed.

(** On a bitmap long enough for [size] bits, [find_next_bit] comes back
    with the first set bit at or after [offset], or with [size] when there is
    none; neither reads outside the bitmap nor depends on whether the compiler
    knows [size]. *)
Lemma find_next_bit_correct const_p addr size offset :
  bitmap_ok addr size -> 0 <= offset <= size ->
  exists r, find_next_bit const_p addr size offset = Ok r /\
    first_in (wbit addr) offset size r.
Proof.
  intros Hok Ho. unfold find_next_bit.
  assert (E : forall r, first_in (fun i => xorb (wbit addr i) false) offset size r ->
            first_in (wbit addr) offset size r).
  { intros r. apply first_in_ext. intros. apply xorb_false_r. }
  destruct (Z.leb_spec size offset).
  { exists size. split; [done|]. split; [lia|split; lia]. }
  destruct (small_const_nbits const_p size) eqn:Hc.
  - apply small_const_nbits_spec in Hc.
    destruct (rd_wbit addr size 0) as (w & Hrd & Hw & Hb); [done|lia|lia|].
    rewrite Hrd. simpl. eexists. split; [done|]. apply E.
    pose proof (small_first addr size offset w false) as Hs. simpl in Hs.
    rewrite Z.lxor_0_r in Hs. apply Hs; (done || lia).
  - destruct (_find_next_bit_first addr size false Hok offset) as (r & Hr & Hf); [lia|].
    exists r. split; [done|]. by apply E.
Qed.

(** ** Searching for a clear bit *)

Lemma lnot64_lor_mask w g :
  is_word w -> is_word g ->
  lnot64 (Z.lor w (lnot64 g)) = Z.land (Z.lxor w (lnot64 0)) g.
Proof.
  intros Hw Hg. apply word_ext; [auto with wayca|auto 6 with wayca|].
  intros i Hi. rewrite lnot64_testbit, Z.land_spec, Z.lxor_spec, Z.lor_spec,
    lnot64_testbit, ulong_max_testbit by lia.
  destruct (Z.ltb_spec i 64); [|lia].
  by destruct (Z.testbit w i), (Z.testbit g i).
Qed.

Lemma lnot64_involutive w : is_word w -> lnot64 (lnot64 w) = w.
Proof.
  intros. apply word_ext; [auto with wayca|done|].
  intros i Hi. rewrite !lnot64_testbit by lia.
  destruct (Z.ltb_spec i 64); [|lia]. apply negb_involutive.
Qed.

Lemma eqb_ulong_max w : is_word w -> (w =? lnot64 0) = (lnot64 w =? 0).
Proof.
  intros Hw. destruct (Z.eqb_spec w (lnot64 0)) as [E|Hne];
    destruct (Z.eqb_spec (lnot64 w) 0) as [E'|Hne']; try done.
  - by rewrite E in Hne'.
  - by destruct Hne; rewrite <- (lnot64_involutive w), E'.
Qed.

(** [find_next_zero_bit] comes back with the first clear bit at or after
    [offset], or with [size] when there is none, whether or not the compiler
    knows [size]. *)
Lemma find_next_zero_bit_correct const_p addr size offset :
  bitmap_ok addr size -> 0 <= offset <= size ->
  exists r, find_next_zero_bit const_p addr size offset = Ok r /\
    first_in (fun i => negb (wbit addr i)) offset size r.
Proof.
  intros Hok Ho. unfold find_next_zero_bit.
  assert (E : forall r, first_in (fun i => xorb (wbit addr i) true) offset size r ->
            first_in (fun i => negb (wbit addr i)) offset size r).
  { intros r. apply first_in_ext. intros. apply xorb_true_r. }
  destruct (Z.leb_spec size offset).
  { exists size. split; [done|]. split; [lia|split; lia]. }
  destruct (small_const_nbits const_p size) eqn:Hc.
  - apply small_const_nbits_spec in Hc.
    destruct (rd_wbit addr size 0) as (w & Hrd & Hw & Hb); [done|lia|lia|].
    rewrite Hrd. obind. eexists. split; [done|]. apply E.
    pose proof (small_first addr size offset w true) as Hs. simpl in Hs.
    rewrite eqb_ulong_max by auto with wayca. unfold __ffz.
    rewrite lnot64_lor_mask by auto with wayca. apply Hs; (done || lia).
  - destruct (_find_next_bit_first addr size true Hok offset) as (r & Hr & Hf); [lia|].
    exists r. split; [done|]. by apply E.
Qed.

Lemma find_first_bit_loop_first fuel addr size idx :
  bitmap_ok addr size -> 0 <= idx ->
  (forall i, 0 <= i < 64 * idx -> i < size -> wbit addr i = false) ->
  Z.of_nat (length addr) - idx < Z.of_nat fuel -> 0 < Z.of_nat fuel ->
  exists r, find_first_bit_loop fuel addr size idx = Ok r /\
    first_in (wbit addr) 0 size r.
Proof.
  intros Hok. revert idx. induction fuel as [|fuel IH]; intros idx Hi Hf Hl Hp; [lia|].
  pose proof Hok as (Hws & Hs & Hb'). simpl. unfold BITS_PER_LONG.
  destruct (Z.ltb_spec (idx * 64) size).
  2:{ exists size. split; [done|]. split; [lia|split; [|lia]]. intros; apply Hf; lia. }
  destruct (rd_wbit addr size idx) as (w & -> & Hw & Hb); [done|lia|lia|]. obind.
  destruct (__ffs_first w Hw) as (Hr & Hn & Ht).
  destruct (Z.eqb_spec w 0) as [->|Hne]; simpl.
  - apply IH; try lia. intros i Hi' ?.
    destruct (decide (i < 64 * idx)); [apply Hf; lia|].
    replace i with (64 * idx + (i - 64 * idx)) by lia.
    rewrite <- Hb by lia. apply Z.bits_0.
  - eexists. split; [done|]. rewrite Common.min_spec.
    assert (Hlt : __ffs w < 64).
    { destruct (decide (__ffs w < 64)); [done|]. destruct Hne.
      apply word_zero_iff; [done|]. intros. apply Hn. lia. }
    split; [lia|split].
    + intros i Hi'. destruct (decide (i < 64 * idx)); [apply Hf; lia|].
      replace i with (64 * idx + (i - 64 * idx)) by lia.
      rewrite <- Hb by lia. apply Hn. lia.
    + intros. rewrite Z.min_l by lia. replace (idx * 64) with (64 * idx) by lia.
      rewrite <- Hb by lia. by apply Ht.
Qed.

(** [find_first_bit] is [find_next_bit] from position 0. *)
Lemma find_first_bit_correct const_p addr size :
  bitmap_ok addr size ->
  exists r, find_first_bit const_p addr size = Ok r /\
    first_in (wbit addr) 0 size r.
Proof.
  intros Hok. unfold find_first_bit. destruct (small_const_nbits const_p size) eqn:Hc.
  - destruct (find_next_bit_correct const_p addr size 0) as (r & Hr & Hf); [done| |].
    { apply small_const_nbits_spec in Hc. lia. }
    exists r. split; [|done]. unfold find_next_bit in Hr. rewrite Hc in Hr.
    apply small_const_nbits_spec in Hc. destruct (Z.leb_spec size 0); [lia|done].
  - apply find_first_bit_loop_first; try done; lia.
Qed.

Lemma wbit_lnot addr size i :
  bitmap_ok addr size -> 0 <= i < size ->
  wbit (map lnot64 addr) i = negb (wbit addr i).
Proof.
  intros (Hw & Hs & _) Hi. unfold wbit. rewrite list_lookup_fmap.
  destruct (lookup_lt_is_Some_2 addr (Z.to_nat (i / 64))) as [w E]; [zdm|].
  rewrite E. simpl. pose proof (Z.mod_pos_bound i 64).
  rewrite lnot64_testbit by lia. by destruct (Z.ltb_spec (i mod 64) 64); [|lia].
Qed.

Lemma bitmap_ok_lnot addr size : bitmap_ok addr size -> bitmap_ok (map lnot64 addr) size.
Proof.
  intros (? & ? & ?). split_and!; [|lia|rewrite length_map; lia|done].
  apply Forall_map, Forall_true. intros. apply lnot64_word.
Qed.

Lemma find_first_zero_bit_loop_lnot fuel addr size idx :
  Forall is_word addr ->
  find_first_zero_bit_loop fuel addr size idx =
  find_first_bit_loop fuel (map lnot64 addr) size idx.
Proof.
  intros Hw. revert idx. induction fuel as [|fuel IH]; intros idx; [done|].
  simpl. unfold rd. rewrite list_lookup_fmap.
  destruct (addr !! Z.to_nat idx) as [w|] eqn:E; simpl; [|done].
  rewrite eqb_ulong_max by (by eapply Forall_lookup_1). by rewrite IH.
Qed.

Lemma find_first_zero_bit_correct const_p addr size :
  bitmap_ok addr size ->
  exists r, find_first_zero_bit const_p addr size = Ok r /\
    first_in (fun i => negb (wbit addr i)) 0 size r.
Proof.
  intros Hok. unfold find_first_zero_bit.
  destruct (small_const_nbits const_p size) eqn:Hc.
  - destruct (find_next_zero_bit_correct const_p addr size 0) as (r & Hr & Hf); [done| |].
    { apply small_const_nbits_spec in Hc. lia. }
    exists r. split; [|done]. unfold find_next_zero_bit in Hr. rewrite Hc in Hr.
    apply small_const_nbits_spec in Hc. destruct (Z.leb_spec size 0); [lia|done].
  - rewrite find_first_zero_bit_loop_lnot by apply Hok.
    destruct (find_first_bit_loop_first (S (length addr)) (map lnot64 addr) size 0)
      as (r & Hr & Hf); try (by apply bitmap_ok_lnot); rewrite ?length_map; try lia.
    exists r. split; [done|]. eapply first_in_ext, Hf.
    intros. by eapply wbit_lnot.
Qed.

(** ** Searching downwards *)

Section find_last.
Context (addr : list Z) (size : Z).
Context (Hok : bitmap_ok addr size).

(** [val] masks word [idx] to the positions below [size]. *)
Definition last_mask (idx val : Z) : Prop :=
  is_word val /\
  forall j, 0 <= j < 64 -> Z.testbit val j = (64 * idx + j <? size).

Lemma last_word k val w :
  0 <= k -> 64 * k < size -> last_mask k val -> is_word w ->
  (forall j, 0 <= j < 64 -> Z.testbit w j = wbit addr (64 * k + j)) ->
  (forall i, 64 * (k + 1) <= i < size -> wbit addr i = false) ->
  if Z.land val w =? 0
  then forall i, 64 * k <= i < size -> wbit addr i = false
  else last_in (wbit addr) size (64 * k + __fls (Z.land val w)).
Proof.
  intros Hk Hlt [Hv Hm] Hw Hb Hf.
  assert (Hbit : forall j, 0 <= j < 64 -> Z.testbit (Z.land val w) j =
            (64 * k + j <? size) && wbit addr (64 * k + j)).
  { intros j Hj. by rewrite Z.land_spec, Hm, Hb by lia. }
  assert (Hin : forall i, 64 * k <= i < 64 * k + 64 -> i < size ->
            Z.testbit (Z.land val w) (i - 64 * k) = wbit addr i).
  { intros i Hi ?. rewrite Hbit by lia.
    replace (64 * k + (i - 64 * k)) with i by lia.
    by destruct (Z.ltb_spec i size); [|lia]. }
  destruct (Z.eqb_spec (Z.land val w) 0) as [Hz|Hnz].
  - intros i Hi. destruct (decide (64 * (k + 1) <= i)); [by apply Hf; lia|].
    rewrite <- Hin, Hz by lia. apply Z.bits_0.
  - destruct (__fls_last (Z.land val w)) as [[E Hn]|(Hr & Ht & Hn)]; [auto with wayca| |].
    + destruct Hnz. apply word_zero_iff; auto with wayca.
    + rewrite Hbit in Ht by lia. zbool. right. split; [lia|split; [done|]].
      intros i Hi. destruct (decide (64 * (k + 1) <= i)); [by apply Hf; lia|].
      rewrite <- Hin by lia. apply Hn. lia.
Qed.

Lemma find_last_bit_loop_last idx val :
  last_mask (Z.of_nat idx) val -> 64 * Z.of_nat idx < size ->
  (forall i, 64 * (Z.of_nat idx + 1) <= i < size -> wbit addr i = false) ->
  exists r, find_last_bit_loop addr size idx val = Ok r /\ last_in (wbit addr) size r.
Proof.
  revert val. induction idx as [|idx IH]; intros val Hm Hlt Hf.
  all: match goal with |- context [find_last_bit_loop _ _ ?k] =>
         destruct (rd_wbit addr size (Z.of_nat k)) as (w & Hrd & Hw & Hb); [done|lia|lia|];
         pose proof (last_word (Z.of_nat k) val w) as Hl end.
  all: cbn [find_last_bit_loop]; rewrite Hrd; obind.
  all: destruct (Z.land val w =? 0); cbn [negb].
  2, 4: eexists; split; [done|]; unfold BITS_PER_LONG; rewrite Z.mul_comm;
    apply Hl; (done || lia).
  - exists size. split; [done|]. left. split; [done|]. apply Hl; (done || lia).
  - apply IH; [|lia|].
    + split; [auto with wayca|]. intros j Hj. rewrite ulong_max_testbit by lia.
      destruct (Z.ltb_spec j 64), (Z.ltb_spec (64 * Z.of_nat idx + j) size); lia.
    + intros i Hi. apply Hl; (done || lia).
Qed.
End find_last.

Lemma find_last_bit_start size :
  0 < size < 2 ^ 63 ->
  last_mask size (to_ulong (size - 1) / 64)
    (shr64 (lnot64 0) (Z.land (to_ulong (- size)) (64 - 1))).
Proof.
  intros Hs. change (64 - 1) with (Z.ones 6). rewrite Z.land_ones by lia.
  change (2 ^ 6) with 64. rewrite (to_ulong_id (size - 1)) by (unfold is_word; lia).
  assert (E : to_ulong (- size) mod 64 = (- size) mod 64).
  { unfold to_ulong. apply Z.mod_mod_divide. exists (2 ^ 58). lia. }
  rewrite E. split.
  - apply word_intro; [apply Z.shiftr_nonneg, lnot64_word|].
    intros i Hi. rewrite shr_ulong_max_testbit by zdm. apply Z.ltb_ge. zdm.
  - intros j Hj. rewrite shr_ulong_max_testbit by zdm.
    destruct (Z.ltb_spec (j + (- size) mod 64) 64),
      (Z.ltb_spec (64 * ((size - 1) / 64) + j) size); try done; zdm.
Qed.

(** On a non-empty bitmap [find_last_bit] comes back with the last set bit
    below [size], or with [size] when there is none: the partial last word is
    masked and the scan goes down to word 0 without reading outside the
    bitmap. *)
Lemma find_last_bit_correct const_p addr size :
  bitmap_ok addr size -> 0 < size ->
  exists r, find_last_bit const_p addr size = Ok r /\ last_in (wbit addr) size r.
Proof.
  intros Hok Hs. unfold find_last_bit, BITS_PER_LONG.
  pose proof Hok as (Hws & Hlen & Hb63).
  destruct (small_const_nbits const_p size) eqn:Hc.
  - apply small_const_nbits_spec in Hc.
    destruct (rd_wbit addr size 0) as (w & Hrd & Hw & Hb); [done|lia|lia|].
    rewrite Hrd. obind. eexists. split; [done|].
    pose proof (last_word addr size 0 (GENMASK (size - 1) 0) w) as Hl.
    rewrite Z.land_comm in Hl.
    assert (last_mask size 0 (GENMASK (size - 1) 0)).
    { split; [auto with wayca|]. intros j Hj. rewrite GENMASK_testbit by lia.
      destruct (Z.leb_spec 0 j), (Z.leb_spec j (size - 1)),
        (Z.ltb_spec (64 * 0 + j) size); simpl; lia. }
    destruct (Z.land w _ =? 0).
    + left. split; [done|]. intros. apply Hl; (done || lia).
    + apply Hl; (done || lia).
  - apply find_last_bit_loop_last; [done| | |].
    + rewrite Z2Nat.id by (apply Z.div_pos; [apply to_ulong_word|lia]).
      apply find_last_bit_start. lia.
    + rewrite (to_ulong_id (size - 1)) by (unfold is_word; lia). zdm.
    + rewrite (to_ulong_id (size - 1)) by (unfold is_word; lia). intros i Hi. exfalso.
      rewrite Z2Nat.id in Hi by zdm. zdm.
Qed.

(** ** Equivalence with a scan bit by bit *)

(** The reference definitions: try [n] positions upwards from [lo], resp.
    downwards from [n - 1]. *)
Fixpoint scan_up (b : Z -> bool) (lo : Z) (n : nat) : Z :=
  match n with
  | O => lo
  | S n => if b lo then lo else scan_up b (lo + 1) n
  end.

Fixpoint scan_down (b : Z -> bool) (hi : Z) (n : nat) : Z :=
  match n with
  | O => hi
  | S n => if b (Z.of_nat n) then Z.of_nat n else scan_down b hi n
  end.

Lemma scan_up_first b lo n : first_in b lo (lo + Z.of_nat n) (scan_up b lo n).
Proof.
  revert lo. induction n as [|n IH]; intros lo; cbn [scan_up].
  { split; [lia|]. split; [lia|lia]. }
  destruct (b lo) eqn:E.
  - split; [lia|]. split; [lia|done].
  - destruct (IH (lo + 1)) as (Hr & Hn & Ht). split; [lia|]. split.
    + intros i Hi. destruct (decide (i = lo)) as [->|]; [done|]. apply Hn. lia.
    + intros Hlt. apply Ht. lia.
Qed.

Lemma scan_down_last b n m :
  (m <= n)%nat -> (forall i, Z.of_nat m <= i < Z.of_nat n -> b i = false) ->
  last_in b (Z.of_nat n) (scan_down b (Z.of_nat n) m).
Proof.
  induction m as [|m IH]; intros Hm Hf; cbn [scan_down].
  - left. split; [done|]. intros i Hi. apply Hf. lia.
  - destruct (b (Z.of_nat m)) eqn:E.
    + right. split; [lia|]. split; [done|]. intros i Hi. apply Hf. lia.
    + apply IH; [lia|]. intros i Hi. destruct (decide (i = Z.of_nat m)) as [->|]; [done|].
      apply Hf. lia.
Qed.

(** C20. [find_next_bit] on a bitmap long enough for [size] bits is the scan bit by
    bit for the first set bit at or after [offset] ([size] when there is none),
    whether or not the compiler knows [size]; it never reads outside the
    bitmap. *)
Theorem find_next_bit_scan const_p addr size offset :
  bitmap_ok addr size -> 0 <= offset <= size ->
  find_next_bit const_p addr size offset =
  Ok (scan_up (wbit addr) offset (Z.to_nat (size - offset))).
Proof.
  intros Hok Ho. destruct (find_next_bit_correct const_p addr size offset Hok Ho) as (r & -> & Hr).
  f_equal. apply (first_in_unique _ _ _ _ _ Hr).
  pose proof (scan_up_first (wbit addr) offset (Z.to_nat (size - offset))) as H.
  by rewrite Z2Nat.id, Zplus_minus in H by lia.
Qed.

(** [find_next_zero_bit] is the scan bit by bit for the first clear bit. *)
Theorem find_next_zero_bit_scan const_p addr size offset :
  bitmap_ok addr size -> 0 <= offset <= size ->
  find_next_zero_bit const_p addr size offset =
  Ok (scan_up (fun i => negb (wbit addr i)) offset (Z.to_nat (size - offset))).
Proof.
  intros Hok Ho. destruct (find_next_zero_bit_correct const_p addr size offset Hok Ho) as (r & -> & Hr).
  f_equal. apply (first_in_unique _ _ _ _ _ Hr).
  pose proof (scan_up_first (fun i => negb (wbit addr i)) offset (Z.to_nat (size - offset))) as H.
  by rewrite Z2Nat.id, Zplus_minus in H by lia.
Qed.

(** [find_last_bit] on a non-empty bitmap is the scan downwards for the last
    set bit below [size] ([size] when there is none): the partial last word is
    masked and word 0 is the last one that is read. *)
Theorem find_last_bit_scan const_p addr size :
  bitmap_ok addr size -> 0 < size ->
  find_last_bit const_p addr size = Ok (scan_down (wbit addr) size (Z.to_nat size)).
Proof.
  intros Hok Hs. destruct (find_last_bit_correct const_p addr size Hok Hs) as (r & -> & Hr).
  f_equal. apply (last_in_unique _ _ _ _ Hr).
  pose proof (scan_down_last (wbit addr) (Z.to_nat size) (Z.to_nat size) (Nat.le_refl _)) as H.
  rewrite Z2Nat.id in H by lia. apply H. lia.
Qed.

Lemma find_next_bit_scan_witness :
  find_next_bit false [0; 12] 100 3 = Ok (scan_up (wbit [0; 12]) 3 97).
Proof.
  apply (find_next_bit_scan false [0; 12] 100 3); [|lia].
  split; [repeat constructor; lia|]. split; cbn; lia.
Defined.

Lemma find_next_zero_bit_scan_witness :
  find_next_zero_bit false [ULONG_MAX; 12] 100 3 =
  Ok (scan_up (fun i => negb (wbit [ULONG_MAX; 12] i)) 3 97).
Proof.
  apply (find_next_zero_bit_scan false [ULONG_MAX; 12] 100 3); [|lia].
  split; [repeat constructor; unfold ULONG_MAX; lia|]. split; cbn; lia.
Defined.

Lemma find_last_bit_scan_witness :
  find_last_bit false [5; 2 ^ 40] 100 = Ok (scan_down (wbit [5; 2 ^ 40]) 100 100).
Proof.
  apply (find_last_bit_scan false [5; 2 ^ 40] 100); [|lia].
  split; [repeat constructor; lia|]. split; cbn; lia.
Defined.
