(* ===== verification/Cpuset.v ===== *)
(** * CPU sets

    [cpu_set_t] and the [CPU_*] macros of the C library that the scheduler
    uses, and the searches [cpuset_find_*] of [lib/bitops.h]. A set is its
    array of words (16 of them for the fixed-size type). The searches are
    related to [cpus s], the increasing list of the CPUs of [s]; the loops of
    the other components run over that list. *)

From S2P Require Import Prelude Bitops.

(** ** The C library's macros *)

Definition CPU_SETSIZE : Z := 1024.

(** [cpu_set_t] (and [node_set_t], [task_set_t], which are other names of it). *)
Abbreviation cpu_set_t := (list Z).

(** [sizeof(cpu_set_t)], in bytes. *)
Definition sizeof_cpu_set_t : Z := 128.

Definition CPU_ALLOC_SIZE (count : Z) : Z := (count + 63) / 64 * 8.

(** The words that the first [setsize] bytes of a set span. *)
Definition set_words (setsize : Z) : nat := Z.to_nat (setsize / 8).

Definition CPU_ZERO_S (setsize : Z) (s : cpu_set_t) : cpu_set_t :=
  replicate (set_words setsize) 0 ++ drop (set_words setsize) s.

(** The CPU number is converted to [size_t]; numbers that do not fit into the
    set are ignored. *)
Definition CPU_SET_S (cpu setsize : Z) (s : cpu_set_t) : cpu_set_t :=
  let cpu := to_ulong cpu in
  if cpu / 8 <? setsize
  then alter (fun w => Z.lor w (Z.shiftl 1 (cpu mod 64))) (Z.to_nat (cpu / 64)) s
  else s.

Definition CPU_CLR_S (cpu setsize : Z) (s : cpu_set_t) : cpu_set_t :=
  let cpu := to_ulong cpu in
  if cpu / 8 <? setsize
  then alter (fun w => Z.ldiff w (Z.shiftl 1 (cpu mod 64))) (Z.to_nat (cpu / 64)) s
  else s.

Definition CPU_ISSET_S (cpu setsize : Z) (s : cpu_set_t) : bool :=
  let cpu := to_ulong cpu in
  if cpu / 8 <? setsize then wbit s cpu else false.

(** [__builtin_popcountl] and the sum of it over the words. *)
Definition popcountl (w : Z) : Z :=
  Z.of_nat (length (List.filter (Z.testbit w) (seqZ 0 64))).

Definition CPU_COUNT_S (setsize : Z) (s : cpu_set_t) : Z :=
  sumZ (map popcountl (take (set_words setsize) s)).

(** [CPU_OP_S(setsize, dest, a, b)]: the first words of [dest] are replaced. *)
Definition CPU_OP_S (op : Z -> Z -> Z) (setsize : Z) (dest a b : cpu_set_t)
    : cpu_set_t :=
  zip_with op (take (set_words setsize) a) (take (set_words setsize) b)
    ++ drop (set_words setsize) dest.

Definition CPU_AND_S := CPU_OP_S Z.land.
Definition CPU_OR_S := CPU_OP_S Z.lor.
Definition CPU_XOR_S := CPU_OP_S Z.lxor.

Definition CPU_EQUAL_S (setsize : Z) (a b : cpu_set_t) : bool :=
  bool_decide (take (set_words setsize) a = take (set_words setsize) b).

(** The fixed-size macros. The destination of the binary ones is overwritten
    completely. *)
Definition CPU_EMPTY : cpu_set_t := replicate 16 0.
Definition CPU_ZERO (s : cpu_set_t) : cpu_set_t := CPU_ZERO_S sizeof_cpu_set_t s.
Definition CPU_SET (cpu : Z) (s : cpu_set_t) : cpu_set_t :=
  CPU_SET_S cpu sizeof_cpu_set_t s.
Definition CPU_CLR (cpu : Z) (s : cpu_set_t) : cpu_set_t :=
  CPU_CLR_S cpu sizeof_cpu_set_t s.
Definition CPU_ISSET (cpu : Z) (s : cpu_set_t) : bool :=
  CPU_ISSET_S cpu sizeof_cpu_set_t s.
Definition CPU_COUNT (s : cpu_set_t) : Z := CPU_COUNT_S sizeof_cpu_set_t s.
Definition CPU_AND (a b : cpu_set_t) : cpu_set_t := CPU_AND_S sizeof_cpu_set_t a a b.
Definition CPU_OR (a b : cpu_set_t) : cpu_set_t := CPU_OR_S sizeof_cpu_set_t a a b.
Definition CPU_XOR (a b : cpu_set_t) : cpu_set_t := CPU_XOR_S sizeof_cpu_set_t a a b.
Definition CPU_EQUAL (a b : cpu_set_t) : bool := CPU_EQUAL_S sizeof_cpu_set_t a b.

(** [memset(&s, -1, sizeof(cpu_set_t))] *)
Definition cpu_set_full : cpu_set_t := replicate 16 (lnot64 0).

(** ** lib/bitops.h, the searches on a [cpu_set_t] *)

Definition cpuset_find_first_unset (s : cpu_set_t) : outcome Z :=
  pos ← find_first_zero_bit true s CPU_SETSIZE;
  Ok (if pos =? CPU_SETSIZE then -1 else pos).

Definition cpuset_find_first_set (s : cpu_set_t) : outcome Z :=
  pos ← find_first_bit true s CPU_SETSIZE;
  Ok (if pos =? CPU_SETSIZE then -1 else pos).

Definition cpuset_find_last_set (s : cpu_set_t) : outcome Z :=
  pos ← find_last_bit true s CPU_SETSIZE;
  Ok (if pos =? CPU_SETSIZE then -1 else pos).

Definition cpuset_find_next_set (s : cpu_set_t) (begin : Z) : outcome Z :=
  pos ← find_next_bit true s CPU_SETSIZE (to_ulong (begin + 1));
  Ok (if pos =? CPU_SETSIZE then -1 else pos).

(** ** Well-formed sets and their members *)

Definition cpuset_wf (s : cpu_set_t) : Prop := length s = 16%nat /\ Forall is_word s.

#[export] Instance cpuset_wf_dec s : Decision (cpuset_wf s).
Proof. unfold cpuset_wf. apply _. Defined.

(** The members of a set, in increasing order. *)
Definition cpus (s : cpu_set_t) : list Z :=
  List.filter (fun i => CPU_ISSET i s) (seqZ 0 CPU_SETSIZE).

Definition first_set (s : cpu_set_t) : Z := default (-1) (head (cpus s)).
Definition last_set (s : cpu_set_t) : Z := default (-1) (last (cpus s)).

Lemma cpuset_bitmap_ok s : cpuset_wf s -> bitmap_ok s CPU_SETSIZE.
Proof. intros [Hl Hw]. split_and!; [done|by unfold CPU_SETSIZE|rewrite Hl; done|done]. Qed.

Lemma CPU_ISSET_wbit i s :
  0 <= i < CPU_SETSIZE -> CPU_ISSET i s = wbit s i.
Proof.
  unfold CPU_SETSIZE, CPU_ISSET, CPU_ISSET_S, sizeof_cpu_set_t. intros Hi.
  rewrite to_ulong_id by (unfold is_word; lia).
  destruct (Z.ltb_spec (i / 8) 128); [done|zdm].
Qed.

Lemma CPU_ISSET_range i s :
  - 2 ^ 63 <= i < 2 ^ 63 -> CPU_ISSET i s = true -> 0 <= i < CPU_SETSIZE.
Proof.
  unfold CPU_SETSIZE, CPU_ISSET, CPU_ISSET_S, sizeof_cpu_set_t. intros Hi.
  destruct (Z.ltb_spec (to_ulong i / 8) 128) as [H|]; [intros _|done].
  unfold to_ulong in H. destruct (decide (0 <= i)).
  - rewrite Z.mod_small in H by lia. zdm.
  - assert (E : i mod 2 ^ 64 = i + 2 ^ 64).
    { rewrite <- (Z.mod_add i 1) by lia. rewrite Z.mod_small; lia. }
    rewrite E in H. zdm.
Qed.

Lemma cpu_set_ext s s' :
  cpuset_wf s -> cpuset_wf s' ->
  (forall i, 0 <= i < CPU_SETSIZE -> CPU_ISSET i s = CPU_ISSET i s') -> s = s'.
Proof.
  intros [Hl Hw] [Hl' Hw'] H. apply list_eq_same_length with 16%nat; [done|done|].
  intros k w w' Hk E E'. apply word_ext;
    [by apply (Forall_lookup_1 _ s k)|by apply (Forall_lookup_1 _ s' k)|].
  intros j Hj. specialize (H (64 * Z.of_nat k + j)).
  unfold CPU_SETSIZE in *. rewrite !CPU_ISSET_wbit in H by (unfold CPU_SETSIZE; lia).
  unfold wbit in H. replace ((64 * Z.of_nat k + j) / 64) with (Z.of_nat k) in H by zdm.
  replace ((64 * Z.of_nat k + j) mod 64) with j in H by zdm.
  rewrite Nat2Z.id, E, E' in H. apply H. lia.
Qed.

(** ** Membership after each operation *)

Lemma lookup_word s i :
  cpuset_wf s -> 0 <= i < CPU_SETSIZE ->
  exists w, s !! Z.to_nat (i / 64) = Some w /\ is_word w /\
    CPU_ISSET i s = Z.testbit w (i mod 64).
Proof.
  intros [Hl Hw] Hi. unfold CPU_SETSIZE in *.
  destruct (lookup_lt_is_Some_2 s (Z.to_nat (i / 64))) as [w E]; [rewrite Hl; zdm|].
  exists w. split_and!; [done|by eapply Forall_lookup_1|].
  rewrite CPU_ISSET_wbit by (unfold CPU_SETSIZE; lia). unfold wbit. by rewrite E.
Qed.

Lemma CPU_EMPTY_wf : cpuset_wf CPU_EMPTY.
Proof. split; [done|]. apply Forall_replicate. unfold is_word. lia. Qed.

Lemma cpu_set_full_wf : cpuset_wf cpu_set_full.
Proof. split; [done|]. apply Forall_replicate, lnot64_word. Qed.

Lemma CPU_ZERO_eq s : cpuset_wf s -> CPU_ZERO s = CPU_EMPTY.
Proof.
  intros [Hl _]. unfold CPU_ZERO, CPU_ZERO_S, CPU_EMPTY.
  change (set_words sizeof_cpu_set_t) with 16%nat.
  rewrite drop_ge by lia. apply app_nil_r.
Qed.

Lemma alter_wf (f : Z -> Z) k s :
  cpuset_wf s -> (forall w, is_word w -> is_word (f w)) -> cpuset_wf (alter f k s).
Proof.
  intros [Hl Hw] Hf. split; [by rewrite length_alter|].
  apply Forall_lookup_2. intros j w Hj. rewrite list_lookup_alter in Hj.
  case_decide; [|by eapply Forall_lookup_1].
  apply fmap_Some in Hj as (w' & Hj & ->). apply Hf. by eapply Forall_lookup_1.
Qed.

Lemma bit_word k : 0 <= k < 64 -> is_word (Z.shiftl 1 k).
Proof.
  intros. rewrite Z.shiftl_1_l. split; [lia|]. apply Z.pow_lt_mono_r; lia.
Qed.

Lemma CPU_SET_wf j s : cpuset_wf s -> cpuset_wf (CPU_SET j s).
Proof.
  intros. unfold CPU_SET, CPU_SET_S. case_match; [|done].
  apply alter_wf; [done|]. intros. apply lor_word; [done|]. apply bit_word. zdm.
Qed.

Lemma CPU_CLR_wf j s : cpuset_wf s -> cpuset_wf (CPU_CLR j s).
Proof.
  intros. unfold CPU_CLR, CPU_CLR_S. case_match; [|done].
  apply alter_wf; [done|]. intros w Hw. apply word_intro.
  - apply Z.ldiff_nonneg. left. apply Hw.
  - intros i Hi. by rewrite Z.ldiff_spec, word_testbit_high.
Qed.

(** What updating the word of CPU [j] does to the membership of [i]. *)
Lemma CPU_ISSET_alter (f : Z -> Z) i j s :
  cpuset_wf s -> 0 <= i < CPU_SETSIZE -> 0 <= j < CPU_SETSIZE ->
  (forall w k, 0 <= k < 64 -> k <> j mod 64 -> Z.testbit (f w) k = Z.testbit w k) ->
  CPU_ISSET i (alter f (Z.to_nat (j / 64)) s) =
  if i =? j then Z.testbit (f (default 0 (s !! Z.to_nat (j / 64)))) (j mod 64)
  else CPU_ISSET i s.
Proof.
  intros Hwf Hi Hj Hf. rewrite !CPU_ISSET_wbit by done. unfold wbit.
  destruct (lookup_word s j Hwf Hj) as (w & E & _ & _).
  rewrite list_lookup_alter. destruct (Z.eqb_spec i j) as [->|Hne].
  { rewrite decide_True by done. by rewrite E. }
  case_decide as Hd; [|done]. rewrite <- Hd, E. simpl.
  assert (j / 64 = i / 64) by (apply Z2Nat.inj; [zdm|zdm|done]).
  rewrite Hf; [done|zdm|zdm].
Qed.

Lemma CPU_SET_in_range j :
  0 <= j < CPU_SETSIZE ->
  to_ulong j = j /\ (j / 8 <? sizeof_cpu_set_t) = true.
Proof.
  unfold CPU_SETSIZE, sizeof_cpu_set_t. intros. split.
  - apply to_ulong_id. unfold is_word. lia.
  - apply Z.ltb_lt. zdm.
Qed.

Lemma CPU_ISSET_SET i j s :
  cpuset_wf s -> 0 <= i < CPU_SETSIZE -> 0 <= j < CPU_SETSIZE ->
  CPU_ISSET i (CPU_SET j s) = (i =? j) || CPU_ISSET i s.
Proof.
  intros Hwf Hi Hj. unfold CPU_SET, CPU_SET_S.
  destruct (CPU_SET_in_range j Hj) as [-> ->].
  rewrite CPU_ISSET_alter; try done.
  - destruct (Z.eqb_spec i j); [|done]. simpl.
    rewrite Z.lor_spec, Z.shiftl_spec by zdm. rewrite Z.sub_diag. apply orb_true_r.
  - intros w k Hk Hne. rewrite Z.lor_spec, Z.shiftl_spec by lia.
    replace (Z.testbit 1 (k - j mod 64)) with false; [apply orb_false_r|].
    symmetry. destruct (decide (k < j mod 64)); [apply Z.testbit_neg_r; lia|].
    apply (Z.bits_above_log2 1); simpl; lia.
Qed.

Lemma CPU_ISSET_CLR i j s :
  cpuset_wf s -> 0 <= i < CPU_SETSIZE -> 0 <= j < CPU_SETSIZE ->
  CPU_ISSET i (CPU_CLR j s) = negb (i =? j) && CPU_ISSET i s.
Proof.
  intros Hwf Hi Hj. unfold CPU_CLR, CPU_CLR_S.
  destruct (CPU_SET_in_range j Hj) as [-> ->].
  rewrite CPU_ISSET_alter; try done.
  - destruct (Z.eqb_spec i j); [|done]. simpl.
    rewrite Z.ldiff_spec, Z.shiftl_spec by zdm. rewrite Z.sub_diag. apply andb_false_r.
  - intros w k Hk Hne. rewrite Z.ldiff_spec, Z.shiftl_spec by lia.
    replace (Z.testbit 1 (k - j mod 64)) with false; [apply andb_true_r|].
    symmetry. destruct (decide (k < j mod 64)); [apply Z.testbit_neg_r; lia|].
    apply (Z.bits_above_log2 1); simpl; lia.
Qed.

Lemma CPU_OP_eq (op : Z -> Z -> Z) a b :
  cpuset_wf a -> cpuset_wf b ->
  CPU_OP_S op sizeof_cpu_set_t a a b = zip_with op a b.
Proof.
  intros [Ha _] [Hb _]. unfold CPU_OP_S.
  change (set_words sizeof_cpu_set_t) with 16%nat.
  by rewrite drop_ge, !take_ge, app_nil_r by lia.
Qed.

Lemma zip_with_wf (op : Z -> Z -> Z) a b :
  cpuset_wf a -> cpuset_wf b -> (forall v w, is_word v -> is_word w -> is_word (op v w)) ->
  cpuset_wf (zip_with op a b).
Proof.
  intros [Ha Hwa] [Hb Hwb] Hop. split; [rewrite length_zip_with; lia|].
  apply Forall_lookup_2. intros k w Hk.
  apply lookup_zip_with_Some in Hk as (v & v' & -> & E & E').
  apply Hop; [by apply (Forall_lookup_1 _ a k)|by apply (Forall_lookup_1 _ b k)].
Qed.

Lemma CPU_ISSET_zip (op : Z -> Z -> Z) (bop : bool -> bool -> bool) a b i :
  cpuset_wf a -> cpuset_wf b -> 0 <= i < CPU_SETSIZE ->
  (forall v w k, Z.testbit (op v w) k = bop (Z.testbit v k) (Z.testbit w k)) ->
  CPU_ISSET i (zip_with op a b) = bop (CPU_ISSET i a) (CPU_ISSET i b).
Proof.
  intros Ha Hb Hi Hop.
  destruct (lookup_word a i Ha Hi) as (v & E & _ & ->).
  destruct (lookup_word b i Hb Hi) as (w & E' & _ & ->).
  rewrite CPU_ISSET_wbit by done. unfold wbit.
  by rewrite lookup_zip_with, E; simpl; rewrite E'; simpl; rewrite Hop.
Qed.

Lemma CPU_AND_wf a b : cpuset_wf a -> cpuset_wf b -> cpuset_wf (CPU_AND a b).
Proof. intros. unfold CPU_AND, CPU_AND_S. rewrite CPU_OP_eq by done. by apply zip_with_wf; auto with wayca. Qed.

Lemma CPU_OR_wf a b : cpuset_wf a -> cpuset_wf b -> cpuset_wf (CPU_OR a b).
Proof. intros. unfold CPU_OR, CPU_OR_S. rewrite CPU_OP_eq by done. by apply zip_with_wf; auto with wayca. Qed.

Lemma CPU_XOR_wf a b : cpuset_wf a -> cpuset_wf b -> cpuset_wf (CPU_XOR a b).
Proof. intros. unfold CPU_XOR, CPU_XOR_S. rewrite CPU_OP_eq by done. by apply zip_with_wf; auto with wayca. Qed.

Lemma CPU_ISSET_AND i a b :
  cpuset_wf a -> cpuset_wf b -> 0 <= i < CPU_SETSIZE ->
  CPU_ISSET i (CPU_AND a b) = CPU_ISSET i a && CPU_ISSET i b.
Proof.
  intros. unfold CPU_AND, CPU_AND_S. rewrite CPU_OP_eq by done.
  apply CPU_ISSET_zip; try done. intros. apply Z.land_spec.
Qed.

Lemma CPU_ISSET_OR i a b :
  cpuset_wf a -> cpuset_wf b -> 0 <= i < CPU_SETSIZE ->
  CPU_ISSET i (CPU_OR a b) = CPU_ISSET i a || CPU_ISSET i b.
Proof.
  intros. unfold CPU_OR, CPU_OR_S. rewrite CPU_OP_eq by done.
  apply CPU_ISSET_zip; try done. intros. apply Z.lor_spec.
Qed.

Lemma CPU_ISSET_XOR i a b :
  cpuset_wf a -> cpuset_wf b -> 0 <= i < CPU_SETSIZE ->
  CPU_ISSET i (CPU_XOR a b) = xorb (CPU_ISSET i a) (CPU_ISSET i b).
Proof.
  intros. unfold CPU_XOR, CPU_XOR_S. rewrite CPU_OP_eq by done.
  apply CPU_ISSET_zip; try done. intros. apply Z.lxor_spec.
Qed.

Lemma CPU_ISSET_EMPTY i : 0 <= i < CPU_SETSIZE -> CPU_ISSET i CPU_EMPTY = false.
Proof.
  intros Hi. rewrite CPU_ISSET_wbit by done. unfold wbit, CPU_EMPTY, CPU_SETSIZE in *.
  rewrite lookup_replicate_2 by zdm. apply Z.bits_0.
Qed.

Lemma CPU_ISSET_full i : 0 <= i < CPU_SETSIZE -> CPU_ISSET i cpu_set_full = true.
Proof.
  intros Hi. rewrite CPU_ISSET_wbit by done. unfold wbit, cpu_set_full, CPU_SETSIZE in *.
  rewrite lookup_replicate_2 by zdm. cbn [default].
  rewrite ulong_max_testbit by zdm. apply Z.ltb_lt. zdm.
Qed.

Lemma CPU_EQUAL_spec a b :
  cpuset_wf a -> cpuset_wf b -> CPU_EQUAL a b = true <-> a = b.
Proof.
  intros [Ha _] [Hb _]. unfold CPU_EQUAL, CPU_EQUAL_S.
  change (set_words sizeof_cpu_set_t) with 16%nat.
  rewrite !take_ge by lia. apply bool_decide_eq_true.
Qed.

#[export] Hint Resolve CPU_EMPTY_wf cpu_set_full_wf CPU_SET_wf CPU_CLR_wf
  CPU_AND_wf CPU_OR_wf CPU_XOR_wf cpuset_bitmap_ok : wayca.

Create Rewrite HintDb isset.
#[export] Hint Rewrite CPU_ISSET_SET CPU_ISSET_CLR CPU_ISSET_AND CPU_ISSET_OR
  CPU_ISSET_XOR CPU_ISSET_EMPTY CPU_ISSET_full using (auto with wayca; lia) : isset.

(** ** The list of members *)

Lemma elem_of_cpus i s : i ∈ cpus s <-> 0 <= i < CPU_SETSIZE /\ CPU_ISSET i s = true.
Proof.
  unfold cpus. rewrite list_elem_of_In, filter_In, <- list_elem_of_In, elem_of_seqZ.
  unfold CPU_SETSIZE. intuition lia.
Qed.

Lemma seqZ_sorted lo n : StronglySorted Z.lt (seqZ lo n).
Proof.
  unfold seqZ. generalize 0%nat. induction (Z.to_nat n) as [|k IH]; intros j; simpl.
  { constructor. }
  constructor; [apply IH|]. apply Forall_fmap, Forall_seq. simpl. intros. lia.
Qed.

Lemma filter_sorted {A} (R : A -> A -> Prop) (f : A -> bool) l :
  StronglySorted R l -> StronglySorted R (List.filter f l).
Proof.
  induction 1 as [|x l Hs IH Hf]; simpl; [constructor|].
  destruct (f x); [|done]. constructor; [done|].
  apply Forall_forall. intros y Hy. rewrite list_elem_of_In in Hy.
  apply filter_In in Hy as [Hy _]. rewrite <- list_elem_of_In in Hy.
  by eapply Forall_forall in Hf.
Qed.

Lemma cpus_sorted s : StronglySorted Z.lt (cpus s).
Proof. apply filter_sorted, seqZ_sorted. Qed.

Lemma sorted_NoDup l : StronglySorted Z.lt l -> NoDup l.
Proof.
  induction 1 as [|x l Hs IH Hf]; constructor; [|done].
  intros Hin. eapply Forall_forall in Hf; [|done]. lia.
Qed.

Lemma cpus_NoDup s : NoDup (cpus s).
Proof. apply sorted_NoDup, cpus_sorted. Qed.

Lemma filter_seqZ_false (b : Z -> bool) lo n :
  (forall i, lo <= i < lo + n -> b i = false) -> List.filter b (seqZ lo n) = [].
Proof.
  intros H. destruct (List.filter b (seqZ lo n)) as [|x l] eqn:E; [done|exfalso].
  assert (Hx : In x (List.filter b (seqZ lo n))) by (rewrite E; by left).
  apply filter_In in Hx as [Hin Hb]. rewrite <- list_elem_of_In, elem_of_seqZ in Hin.
  rewrite H in Hb; [done|lia].
Qed.

Lemma first_in_filter b lo hi r :
  first_in b lo hi r ->
  head (List.filter b (seqZ lo (hi - lo))) = if r =? hi then None else Some r.
Proof.
  intros (Hr & Hn & Ht). replace (hi - lo) with ((r - lo) + (hi - r)) by lia.
  rewrite seqZ_app, List.filter_app, filter_seqZ_false by (intros; try apply Hn; lia).
  simpl. replace (lo + (r - lo)) with r by lia.
  destruct (Z.eqb_spec r hi) as [->|]; [by rewrite Z.sub_diag|].
  rewrite seqZ_cons by lia. simpl. by rewrite Ht by lia.
Qed.

Lemma last_in_filter b hi r :
  0 <= hi -> last_in b hi r ->
  last (List.filter b (seqZ 0 hi)) = if r =? hi then None else Some r.
Proof.
  intros Hhi [[-> Hn]|(Hr & Ht & Hn)].
  - by rewrite Z.eqb_refl, filter_seqZ_false.
  - replace hi with ((r + 1) + (hi - (r + 1))) at 1 by lia.
    rewrite seqZ_app, List.filter_app, (filter_seqZ_false _ (0 + (r + 1)))
      by (intros; try apply Hn; lia).
    rewrite app_nil_r, seqZ_snoc, List.filter_app by lia.
    cbn [List.filter]. rewrite Z.add_0_l, Ht, last_snoc.
    by destruct (Z.eqb_spec r hi); [lia|].
Qed.

Lemma filter_wbit s lo :
  0 <= lo ->
  List.filter (wbit s) (seqZ lo (CPU_SETSIZE - lo)) =
  List.filter (fun i => CPU_ISSET i s) (seqZ lo (CPU_SETSIZE - lo)).
Proof.
  intros Hlo. apply filter_ext_in. intros i Hi.
  rewrite <- list_elem_of_In, elem_of_seqZ in Hi. rewrite CPU_ISSET_wbit; [done|lia].
Qed.

Lemma cpuset_find_first_set_ok s :
  cpuset_wf s -> cpuset_find_first_set s = Ok (first_set s).
Proof.
  intros Hwf. unfold cpuset_find_first_set, first_set, cpus.
  destruct (find_first_bit_correct true s CPU_SETSIZE) as (r & -> & Hr); [auto with wayca|].
  obind. f_equal. apply first_in_filter in Hr. rewrite filter_wbit in Hr by lia.
  replace (CPU_SETSIZE - 0) with CPU_SETSIZE in Hr by done. rewrite Hr.
  by destruct (r =? CPU_SETSIZE).
Qed.

Lemma cpuset_find_last_set_ok s :
  cpuset_wf s -> cpuset_find_last_set s = Ok (last_set s).
Proof.
  intros Hwf. unfold cpuset_find_last_set, last_set, cpus.
  destruct (find_last_bit_correct true s CPU_SETSIZE) as (r & -> & Hr);
    [auto with wayca|done|].
  obind. f_equal. apply last_in_filter in Hr; [|done].
  pose proof (filter_wbit s 0 ltac:(lia)) as E.
  replace (CPU_SETSIZE - 0) with CPU_SETSIZE in E by done. rewrite <- E, Hr.
  by destruct (r =? CPU_SETSIZE).
Qed.

Lemma cpuset_find_next_set_ok s p :
  cpuset_wf s -> -1 <= p < CPU_SETSIZE ->
  cpuset_find_next_set s p =
  Ok (default (-1) (head (List.filter (fun i => CPU_ISSET i s)
        (seqZ (p + 1) (CPU_SETSIZE - (p + 1)))))).
Proof.
  intros Hwf Hp. unfold cpuset_find_next_set.
  rewrite to_ulong_id by (unfold is_word, CPU_SETSIZE in *; lia).
  destruct (find_next_bit_correct true s CPU_SETSIZE (p + 1)) as (r & -> & Hr);
    [auto with wayca|lia|].
  obind. f_equal. apply first_in_filter in Hr. rewrite filter_wbit in Hr by lia.
  rewrite Hr. by destruct (r =? CPU_SETSIZE).
Qed.

(** The search from a member finds the member that follows it in [cpus s]. *)
Lemma cpuset_find_next_set_cpus s l1 p l2 :
  cpuset_wf s -> cpus s = l1 ++ p :: l2 ->
  cpuset_find_next_set s p = Ok (default (-1) (head l2)).
Proof.
  intros Hwf E.
  assert (Hp : p ∈ cpus s) by (rewrite E; set_solver).
  apply elem_of_cpus in Hp as [Hp Hb].
  rewrite cpuset_find_next_set_ok by (done || lia). do 3 f_equal.
  enough (Hsplit : cpus s = List.filter (fun i => CPU_ISSET i s) (seqZ 0 p) ++
            p :: List.filter (fun i => CPU_ISSET i s) (seqZ (p + 1) (CPU_SETSIZE - (p + 1)))).
  { pose proof (cpus_NoDup s) as Hnd. rewrite E in Hsplit, Hnd.
    apply app_cons_inj in Hsplit as [_ ->]; [done| |].
    - apply NoDup_app in Hnd as (_ & Hd & _). intros Hin. by destruct (Hd p Hin); left.
    - rewrite list_elem_of_In, filter_In, <- list_elem_of_In, elem_of_seqZ. lia. }
  unfold cpus. replace CPU_SETSIZE with (p + (CPU_SETSIZE - p)) at 1 by lia.
  rewrite seqZ_app, List.filter_app by lia. f_equal.
  rewrite Z.add_0_l, seqZ_cons by lia. cbn [List.filter]. rewrite Hb.
  by replace (Z.pred (CPU_SETSIZE - p)) with (CPU_SETSIZE - (p + 1)) by lia.
Qed.

(** ** Counting *)

Lemma popcountl_block w k s :
  s !! k = Some w -> (k < 16)%nat ->
  popcountl w = Z.of_nat (length (List.filter (fun i => CPU_ISSET i s)
                   (seqZ (64 * Z.of_nat k) 64))).
Proof.
  intros E Hk. unfold popcountl. f_equal.
  rewrite <- (length_fmap (fun j => 64 * Z.of_nat k + j) (List.filter _ _)).
  f_equal.
  assert (Hfm : forall (g : Z -> bool) (h : Z -> bool) (a : Z) n,
            (forall j, 0 <= j < Z.of_nat n -> g j = h (a + j)) ->
            (fun j => a + j) <$> List.filter g (seqZ 0 (Z.of_nat n)) =
            List.filter h (seqZ a (Z.of_nat n))).
  { intros g h a n. induction n as [|n IH]; intros Hg; [done|].
    replace (Z.of_nat (S n)) with (Z.of_nat n + 1) by lia.
    rewrite !seqZ_snoc, !List.filter_app, fmap_app by lia.
    rewrite IH by (intros; apply Hg; lia). f_equal. simpl.
    rewrite Z.add_0_l, Hg by lia. by destruct (h (a + Z.of_nat n)). }
  apply (Hfm _ _ _ 64%nat). intros j Hj.
  rewrite CPU_ISSET_wbit by (unfold CPU_SETSIZE; lia). unfold wbit.
  replace ((64 * Z.of_nat k + j) / 64) with (Z.of_nat k) by zdm.
  replace ((64 * Z.of_nat k + j) mod 64) with j by zdm. by rewrite Nat2Z.id, E.
Qed.

Lemma popcount_prefix s n :
  length s = 16%nat -> (n <= 16)%nat ->
  sumZ (map popcountl (take n s)) =
  Z.of_nat (length (List.filter (fun i => CPU_ISSET i s) (seqZ 0 (64 * Z.of_nat n)))).
Proof.
  intros Hl. induction n as [|n IH]; intros Hn; [done|].
  destruct (lookup_lt_is_Some_2 s n) as [w E]; [lia|].
  rewrite (take_S_r _ _ w E), map_app, sumZ_app, IH by lia. simpl.
  rewrite (popcountl_block w n s E) by lia.
  replace (64 * Z.of_nat (S n)) with (64 * Z.of_nat n + 64) by lia.
  rewrite seqZ_app, List.filter_app, length_app by lia. rewrite Z.add_0_l. lia.
Qed.

(** [CPU_COUNT] is the number of members. *)
Lemma CPU_COUNT_cpus s : cpuset_wf s -> CPU_COUNT s = Z.of_nat (length (cpus s)).
Proof.
  intros [Hl _]. unfold CPU_COUNT, CPU_COUNT_S.
  change (set_words sizeof_cpu_set_t) with 16%nat. by apply popcount_prefix.
Qed.

Lemma cpus_EMPTY : cpus CPU_EMPTY = [].
Proof. apply filter_seqZ_false. intros. by apply CPU_ISSET_EMPTY. Qed.

Lemma cpus_nil s : cpuset_wf s -> cpus s = [] <-> s = CPU_EMPTY.
Proof.
  intros Hwf. split; [|intros ->; apply cpus_EMPTY].
  intros E. apply cpu_set_ext; [done|apply CPU_EMPTY_wf|]. intros i Hi.
  rewrite CPU_ISSET_EMPTY by done. destruct (CPU_ISSET i s) eqn:Hb; [|done].
  assert (Hin : i ∈ cpus s) by (by apply elem_of_cpus). rewrite E in Hin. set_solver.
Qed.

Lemma CPU_COUNT_zero s : cpuset_wf s -> CPU_COUNT s = 0 <-> s = CPU_EMPTY.
Proof.
  intros Hwf. rewrite CPU_COUNT_cpus, <- cpus_nil by done.
  destruct (cpus s); simpl; split; (done || lia).
Qed.

(** ** Extremal members *)

Lemma first_set_in s : cpus s <> [] -> first_set s ∈ cpus s.
Proof. unfold first_set. destruct (cpus s); set_solver. Qed.

Lemma first_set_le s i : i ∈ cpus s -> first_set s <= i.
Proof.
  unfold first_set. pose proof (cpus_sorted s) as Hs.
  destruct Hs as [|x l _ Hf]; [set_solver|]. simpl.
  intros [->|Hin]%elem_of_cons; [done|]. eapply Forall_forall in Hf; [|done]. lia.
Qed.

Lemma first_set_empty s : cpus s = [] -> first_set s = -1.
Proof. unfold first_set. by intros ->. Qed.

Lemma last_set_in s : cpus s <> [] -> last_set s ∈ cpus s.
Proof.
  unfold last_set. destruct (cpus s) as [|x l] using rev_ind; [done|].
  rewrite last_snoc. set_solver.
Qed.

Lemma sorted_last_le l x i : StronglySorted Z.lt (l ++ [x]) -> i ∈ l ++ [x] -> i <= x.
Proof.
  induction l as [|y l IH]; simpl; intros Hs Hi.
  - apply list_elem_of_singleton in Hi. lia.
  - apply StronglySorted_inv in Hs as [Hs Hf].
    apply elem_of_cons in Hi as [->|Hi]; [|by apply IH].
    enough (y < x) by lia. eapply Forall_forall in Hf; [done|set_solver].
Qed.

Lemma last_set_ge s i : i ∈ cpus s -> i <= last_set s.
Proof.
  unfold last_set. pose proof (cpus_sorted s) as Hs. revert Hs.
  destruct (cpus s) as [|x l _] using rev_ind; [set_solver|].
  rewrite last_snoc. intros. by eapply sorted_last_le.
Qed.

Lemma last_set_range s : -1 <= last_set s < CPU_SETSIZE.
Proof.
  destruct (decide (cpus s = [])) as [E|Hne].
  - unfold last_set. rewrite E. done.
  - pose proof (last_set_in s Hne) as Hin. apply elem_of_cpus in Hin. lia.
Qed.

Lemma first_set_range s : -1 <= first_set s < CPU_SETSIZE.
Proof.
  destruct (decide (cpus s = [])) as [E|Hne].
  - by rewrite first_set_empty.
  - pose proof (first_set_in s Hne) as Hin. apply elem_of_cpus in Hin. lia.
Qed.

(** ** Setting a range of CPUs *)

(** [for (i = lo; i < lo + n; i++) CPU_SET(i, s)] *)
Definition CPU_SET_range (lo n : Z) (s : cpu_set_t) : cpu_set_t :=
  fold_left (fun s i => CPU_SET i s) (seqZ lo n) s.

Lemma fold_CPU_SET_wf l s :
  cpuset_wf s -> cpuset_wf (fold_left (fun s i => CPU_SET i s) l s).
Proof. revert s. induction l as [|x l IH]; simpl; auto with wayca. Qed.

Lemma CPU_SET_range_wf lo n s : cpuset_wf s -> cpuset_wf (CPU_SET_range lo n s).
Proof. apply fold_CPU_SET_wf. Qed.

#[export] Hint Resolve fold_CPU_SET_wf CPU_SET_range_wf : wayca.

Lemma CPU_ISSET_fold_SET i l s :
  cpuset_wf s -> 0 <= i < CPU_SETSIZE ->
  Forall (fun j => 0 <= j < CPU_SETSIZE) l ->
  CPU_ISSET i (fold_left (fun s i => CPU_SET i s) l s) =
  bool_decide (i ∈ l) || CPU_ISSET i s.
Proof.
  intros Hs Hi Hl. revert s Hs. induction Hl as [|x l Hx Hl IH]; intros s Hs; simpl.
  { done. }
  rewrite IH, CPU_ISSET_SET by auto with wayca.
  destruct (Z.eqb_spec i x) as [->|Hne].
  - rewrite (bool_decide_eq_true_2 (x ∈ x :: l)) by set_solver. apply orb_true_r.
  - simpl. f_equal. apply bool_decide_ext. set_solver.
Qed.

Lemma CPU_ISSET_range_SET i lo n s :
  cpuset_wf s -> 0 <= i < CPU_SETSIZE -> 0 <= lo -> lo + n <= CPU_SETSIZE ->
  CPU_ISSET i (CPU_SET_range lo n s) = ((lo <=? i) && (i <? lo + n)) || CPU_ISSET i s.
Proof.
  intros Hs Hi Hlo Hn. unfold CPU_SET_range. rewrite CPU_ISSET_fold_SET; try done.
  - f_equal. destruct (Z.leb_spec lo i), (Z.ltb_spec i (lo + n)); simpl.
    + apply bool_decide_eq_true. apply elem_of_seqZ. lia.
    + apply bool_decide_eq_false. rewrite elem_of_seqZ. lia.
    + apply bool_decide_eq_false. rewrite elem_of_seqZ. lia.
    + apply bool_decide_eq_false. rewrite elem_of_seqZ. lia.
  - apply Forall_forall. intros j Hj. apply elem_of_seqZ in Hj. lia.
Qed.

#[export] Hint Rewrite CPU_ISSET_range_SET using (auto with wayca; lia) : isset.

Lemma cpus_range lo n :
  0 <= lo -> 0 <= n -> lo + n <= CPU_SETSIZE ->
  cpus (CPU_SET_range lo n CPU_EMPTY) = seqZ lo n.
Proof.
  intros Hlo Hn0 Hn. unfold cpus.
  replace CPU_SETSIZE with (lo + (n + (CPU_SETSIZE - lo - n))) at 1 by lia.
  rewrite !seqZ_app, !List.filter_app by lia. rewrite Z.add_0_l.
  rewrite (filter_seqZ_false _ 0), (filter_seqZ_false _ (lo + n)).
  - rewrite app_nil_r. simpl. apply forallb_filter_id, forallb_forall.
    intros i Hi. rewrite <- list_elem_of_In, elem_of_seqZ in Hi.
    autorewrite with isset. destruct (Z.leb_spec lo i), (Z.ltb_spec i (lo + n)); lia.
  - intros i Hi. autorewrite with isset.
    destruct (Z.leb_spec lo i), (Z.ltb_spec i (lo + n)); simpl; lia.
  - intros i Hi. autorewrite with isset.
    destruct (Z.leb_spec lo i), (Z.ltb_spec i (lo + n)); simpl; lia.
Qed.

Lemma length_cpus_le s : Z.of_nat (length (cpus s)) <= CPU_SETSIZE.
Proof.
  unfold cpus. pose proof (filter_length_le (fun i => CPU_ISSET i s) (seqZ 0 CPU_SETSIZE)) as H.
  rewrite length_seqZ in H. unfold CPU_SETSIZE in *. lia.
Qed.

Lemma cpus_eq s : cpus s = List.filter (fun i => CPU_ISSET i s) (seqZ 0 CPU_SETSIZE).
Proof. done. Qed.

Lemma first_set_head s : first_set s = default (-1) (head (cpus s)).
Proof. done. Qed.

Lemma last_set_last s : last_set s = default (-1) (last (cpus s)).
Proof. done. Qed.

(** From here on the members are reasoned about through the lemmas above. *)
#[global] Opaque cpus first_set last_set.
