(* ===== verification/Cstring.v ===== *)
(** * C strings and numbers in them

    NUL-terminated strings as lists of characters (without the NUL), and the
    conversions of the C library that the scheduler uses: [strtoul] (and
    [strtoull], the same on an LP64 machine) and the printing of an unsigned
    number. The two are inverse to each other. *)

From Stdlib Require Import Ascii String.
From S2P Require Import Prelude.

Abbreviation cstring := (list ascii).

(** Literals. *)
Definition s2l (s : string) : cstring := list_ascii_of_string s.
Arguments s2l s%_string.

#[export] Instance ascii_eq_decision : EqDecision ascii := ascii_dec.

(** Directory entries that the readers skip. *)
Definition dot : cstring := s2l ".".
Definition dotdot : cstring := s2l "..".

Definition code (c : ascii) : Z := Z.of_nat (nat_of_ascii c).

Definition in_codes (lo hi : Z) (c : ascii) : bool := (lo <=? code c) && (code c <=? hi).

(** [isspace] in the C locale. *)
Definition isspace (c : ascii) : bool := (code c =? 32) || in_codes 9 13 c.
Definition isdigit (c : ascii) : bool := in_codes 48 57 c.

(** The value of a digit or letter in a base of at most 36. *)
Definition digit_val (base : Z) (c : ascii) : option Z :=
  let v :=
    if in_codes 48 57 c then code c - 48
    else if in_codes 97 122 c then code c - 87
    else if in_codes 65 90 c then code c - 55
    else base in
  if v <? base then Some v else None.

(** The value of the longest run of digits and what follows it. *)
Fixpoint digits (base acc : Z) (s : cstring) : Z * cstring :=
  match s with
  | [] => (acc, [])
  | c :: s' =>
    match digit_val base c with
    | Some d => digits base (acc * base + d) s'
    | None => (acc, s)
    end
  end.

Definition starts_digit (base : Z) (s : cstring) : bool :=
  match s with
  | [] => false
  | c :: _ => match digit_val base c with Some _ => true | None => false end
  end.

Fixpoint skip_space (s : cstring) : cstring :=
  match s with
  | c :: s' => if isspace c then skip_space s' else s
  | [] => []
  end.

(** [strtoul(s, &end, base)]: the value, whether [errno] becomes [ERANGE], and
    the end pointer (the argument itself when there is no number). The [0x]
    prefix of base 16 is not skipped: the scheduler's inputs have none. *)
Definition strtoul (base : Z) (s : cstring) : Z * bool * cstring :=
  let s1 := skip_space s in
  let '(neg, s2) :=
    match s1 with
    | c :: s' => if code c =? 45 then (true, s') else if code c =? 43 then (false, s') else (false, s1)
    | [] => (false, s1)
    end in
  if starts_digit base s2 then
    let '(v, rest) := digits base 0 s2 in
    if ULONG_MAX <? v then (ULONG_MAX, true, rest)
    else (if neg then to_ulong (- v) else v, false, rest)
  else (0, false, s).

Lemma digit_val_nonneg base c d : 0 <= base -> digit_val base c = Some d -> 0 <= d.
Proof.
  unfold digit_val, in_codes. intros Hb.
  destruct (Z.leb_spec 48 (code c)), (Z.leb_spec (code c) 57), (Z.leb_spec 97 (code c)),
    (Z.leb_spec (code c) 122), (Z.leb_spec 65 (code c)), (Z.leb_spec (code c) 90); cbn [andb];
    match goal with |- context [?v <? base] => destruct (v <? base) end; intros [= <-]; lia.
Qed.

Lemma digits_nonneg base acc s : 0 <= base -> 0 <= acc -> 0 <= (digits base acc s).1.
Proof.
  intros Hb. revert acc. induction s as [|c s IH]; intros acc Ha; [done|]. cbn [digits].
  destruct (digit_val base c) as [d|] eqn:E; [|done]. apply IH.
  apply digit_val_nonneg in E; [nia|done].
Qed.

Lemma strtoul_nonneg base s : 0 <= base -> 0 <= (strtoul base s).1.1.
Proof.
  intros Hb. unfold strtoul.
  destruct (match skip_space s with
            | c :: s' => if code c =? 45 then (true, s') else if code c =? 43 then (false, s')
                         else (false, skip_space s)
            | [] => (false, skip_space s) end) as [neg s2].
  destruct (starts_digit base s2); [|done].
  pose proof (digits_nonneg base 0 s2 Hb (Z.le_refl 0)) as Hd.
  destruct (digits base 0 s2) as [v rest]. cbn [fst] in Hd.
  destruct (ULONG_MAX <? v); [done|]. destruct neg; [|done]. apply to_ulong_word.
Qed.

(** ** Printing *)

Definition digit_char (d : Z) : ascii :=
  ascii_of_nat (Z.to_nat (if d <? 10 then 48 + d else 87 + d)).

(** The digits of [n], most significant first. *)
Fixpoint udigits (fuel : nat) (base n : Z) : list Z :=
  match fuel with
  | O => []
  | S fuel => if n <? base then [n] else udigits fuel base (n / base) ++ [n mod base]
  end.

(** [%lu] and [%lx]: 64 digits are enough for a 64-bit number in any base. *)
Definition print_num (base n : Z) : cstring := map digit_char (udigits 64 base n).

Lemma code_ascii n : 0 <= n < 256 -> code (ascii_of_nat (Z.to_nat n)) = n.
Proof. intros. unfold code. rewrite nat_ascii_embedding; lia. Qed.

Lemma digit_val_char base d :
  0 <= d < base -> base <= 36 -> digit_val base (digit_char d) = Some d.
Proof.
  intros Hd Hb. unfold digit_val, digit_char, in_codes.
  destruct (Z.ltb_spec d 10); rewrite !code_ascii by lia.
  - destruct (Z.leb_spec 48 (48 + d)), (Z.leb_spec (48 + d) 57); try lia. simpl.
    replace (48 + d - 48) with d by lia. by destruct (Z.ltb_spec d base); [|lia].
  - destruct (Z.leb_spec 48 (87 + d)), (Z.leb_spec (87 + d) 57); try lia. simpl.
    destruct (Z.leb_spec 97 (87 + d)), (Z.leb_spec (87 + d) 122); try lia. simpl.
    replace (87 + d - 87) with d by lia. by destruct (Z.ltb_spec d base); [|lia].
Qed.

(** The characters that end a number. *)
Definition ends_number (base : Z) (rest : cstring) : Prop := starts_digit base rest = false.

Lemma digits_print base ds rest acc :
  base <= 36 -> Forall (fun d => 0 <= d < base) ds -> ends_number base rest ->
  digits base acc (map digit_char ds ++ rest) = (fold_left (fun a d => a * base + d) ds acc, rest).
Proof.
  intros Hb Hds Hr. revert acc. induction Hds as [|d ds Hd _ IH]; intros acc; simpl.
  - destruct rest as [|c rest]; [done|]. unfold ends_number, starts_digit in Hr. simpl.
    by destruct (digit_val base c).
  - by rewrite digit_val_char, IH by done.
Qed.

Lemma udigits_range fuel base n :
  1 < base -> 0 <= n -> Forall (fun d => 0 <= d < base) (udigits fuel base n).
Proof.
  intros Hb. revert n. induction fuel as [|fuel IH]; intros n Hn; simpl; [constructor|].
  destruct (Z.ltb_spec n base); [by repeat constructor|].
  apply Forall_app. split; [apply IH, Z.div_pos; lia|].
  constructor; [|constructor]. apply Z.mod_pos_bound. lia.
Qed.

Lemma udigits_value fuel base n :
  1 < base -> 0 <= n < base ^ Z.of_nat fuel -> (0 < fuel)%nat ->
  fold_left (fun a d => a * base + d) (udigits fuel base n) 0 = n.
Proof.
  intros Hb. revert n. induction fuel as [|fuel IH]; intros n Hn Hf; [lia|]. cbn [udigits].
  destruct (Z.ltb_spec n base); [simpl; lia|].
  destruct fuel as [|fuel]; [simpl in Hn; lia|].
  rewrite fold_left_app, IH; cbn [fold_left].
  - pose proof (Z.div_mod n base). lia.
  - split; [apply Z.div_pos; lia|]. apply Z.div_lt_upper_bound; [lia|].
    replace (Z.of_nat (S (S fuel))) with (Z.succ (Z.of_nat (S fuel))) in Hn by lia.
    rewrite Z.pow_succ_r in Hn by lia. lia.
  - lia.
Qed.

Lemma udigits_ne fuel base n : (0 < fuel)%nat -> udigits fuel base n <> [].
Proof.
  destruct fuel; [lia|]. simpl. intros _. destruct (n <? base); [done|].
  by intros [_ ?]%app_eq_nil.
Qed.

Lemma print_num_ne base n : print_num base n <> [].
Proof.
  unfold print_num. pose proof (udigits_ne 64 base n ltac:(lia)).
  destruct (udigits 64 base n); done.
Qed.

(** The first character of a printed number is a digit of the base. *)
Lemma print_num_head base n :
  1 < base <= 36 -> 0 <= n ->
  exists c s, print_num base n = c :: s /\ exists d, digit_val base c = Some d /\ c = digit_char d /\ 0 <= d < base.
Proof.
  intros Hb Hn. unfold print_num. pose proof (udigits_range 64 base n ltac:(lia) Hn) as Hr.
  pose proof (udigits_ne 64 base n ltac:(lia)) as Hne.
  destruct Hr as [|d ds Hd _]; [done|]. simpl. eexists _, _. split; [done|].
  exists d. split; [by apply digit_val_char; lia|done].
Qed.

Lemma digit_char_code d : 0 <= d < 36 -> code (digit_char d) = if d <? 10 then 48 + d else 87 + d.
Proof. intros. unfold digit_char. destruct (Z.ltb_spec d 10); rewrite code_ascii; lia. Qed.

Lemma digit_char_plain d :
  0 <= d < 36 -> isspace (digit_char d) = false /\ (code (digit_char d) =? 45) = false /\
    (code (digit_char d) =? 43) = false.
Proof.
  intros Hd. unfold isspace, in_codes. rewrite !digit_char_code by done.
  destruct (Z.ltb_spec d 10);
    (split; [apply orb_false_iff; split; [apply Z.eqb_neq; lia|];
             apply andb_false_iff; right; apply Z.leb_gt; lia
            |split; apply Z.eqb_neq; lia]).
Qed.

(** [strtoul] reads back what was printed, and stops where the number ends. *)
Lemma strtoul_print base n rest :
  1 < base <= 36 -> is_word n -> ends_number base rest ->
  strtoul base (print_num base n ++ rest) = (n, false, rest).
Proof.
  intros Hb Hn Hr. destruct (print_num_head base n) as (c & s & E & d & Hd & -> & Hdr);
    [done|unfold is_word in Hn; lia|].
  unfold strtoul. rewrite E. cbn [app skip_space].
  destruct (digit_char_plain d) as (-> & -> & ->); [lia|].
  cbn [starts_digit]. rewrite Hd.
  change (digit_char d :: s ++ rest) with ((digit_char d :: s) ++ rest). rewrite <- E.
  unfold print_num. rewrite digits_print; [|lia| |done].
  2:{ apply udigits_range; unfold is_word in Hn; lia. }
  rewrite udigits_value; [|lia| |lia].
  - destruct (Z.ltb_spec ULONG_MAX n); [unfold is_word, ULONG_MAX in *; lia|done].
  - unfold is_word in Hn. split; [lia|]. apply Z.lt_le_trans with (2 ^ 64); [lia|].
    apply Z.pow_le_mono_l. lia.
Qed.

(** The string comparisons and searches that the parsers use. *)
Definition char_at (s : cstring) : Z := match s with [] => 0 | c :: _ => code c end.
Definition advance (s : cstring) : cstring := match s with [] => [] | _ :: s' => s' end.

(** [strchr(s, c)] *)
Fixpoint strchr (s : cstring) (c : Z) : option cstring :=
  match s with
  | [] => None
  | x :: s' => if code x =? c then Some s else strchr s' c
  end.
