(* ===== verification/Dynset.v ===== *)
(** * CPU sets of any size

    The topology allocates its sets with [CPU_ALLOC] for the number of CPUs that
    the kernel supports. A set of [k] words is well formed when it has that many
    words; [CPU_ALLOC_SIZE] of its number of CPUs is [8 * k] bytes. *)

From S2P Require Import Prelude Bitops Cpuset.

Definition dset_wf (k : nat) (s : cpu_set_t) : Prop := length s = k /\ Forall is_word s.

#[export] Instance dset_wf_dec k s : Decision (dset_wf k s).
Proof. unfold dset_wf. apply _. Defined.

(** The bytes of [k] words. *)
Abbreviation bytes k := (8 * Z.of_nat k) (only parsing).

(** The number of CPUs that a set of [k] words can hold. *)
Definition dset_bits (k : nat) : Z := 64 * Z.of_nat k.

(** The members of a set below [hi], in increasing order. *)
Definition members_below (hi : Z) (s : cpu_set_t) : list Z :=
  List.filter (wbit s) (seqZ 0 hi).

Section dset.
Context (k : nat) (Hk : dset_bits k <= 2 ^ 63).

Lemma set_words_bytes : set_words (bytes k) = k.
Proof using. unfold set_words. replace (8 * Z.of_nat k / 8) with (Z.of_nat k) by zdm. lia. Qed.

Lemma ISSET_S_wbit i s : 0 <= i < dset_bits k -> CPU_ISSET_S i (bytes k) s = wbit s i.
Proof using Hk.
  intros Hi. unfold CPU_ISSET_S, dset_bits in *.
  rewrite to_ulong_id by (unfold is_word; lia).
  destruct (Z.ltb_spec (i / 8) (8 * Z.of_nat k)); [done|zdm].
Qed.

Lemma ISSET_S_high i s : dset_bits k <= i < 2 ^ 64 -> CPU_ISSET_S i (bytes k) s = false.
Proof using.
  intros Hi. unfold CPU_ISSET_S, dset_bits in *.
  rewrite to_ulong_id by (unfold is_word; lia).
  destruct (Z.ltb_spec (i / 8) (8 * Z.of_nat k)); [zdm|done].
Qed.

Lemma dset_ext s s' :
  dset_wf k s -> dset_wf k s' ->
  (forall i, 0 <= i < dset_bits k -> wbit s i = wbit s' i) -> s = s'.
Proof using.
  intros [Hl Hw] [Hl' Hw'] H. apply list_eq_same_length with k; [done|done|].
  intros j w w' Hj E E'. apply word_ext;
    [by apply (Forall_lookup_1 _ s j)|by apply (Forall_lookup_1 _ s' j)|].
  intros b Hb. specialize (H (64 * Z.of_nat j + b)). unfold wbit, dset_bits in H.
  replace ((64 * Z.of_nat j + b) / 64) with (Z.of_nat j) in H by zdm.
  replace ((64 * Z.of_nat j + b) mod 64) with b in H by zdm.
  rewrite Nat2Z.id, E, E' in H. apply H. lia.
Qed.

Lemma ZERO_S_eq s : dset_wf k s -> CPU_ZERO_S (bytes k) s = replicate k 0.
Proof using.
  intros [Hl _]. unfold CPU_ZERO_S. rewrite set_words_bytes, drop_ge by lia. apply app_nil_r.
Qed.

Lemma zero_set_wf : dset_wf k (replicate k 0).
Proof using.
  split; [apply length_replicate|]. apply Forall_replicate. unfold is_word. lia.
Qed.

Lemma wbit_zero_set i : wbit (replicate k 0) i = false.
Proof using.
  unfold wbit. destruct (replicate k 0 !! Z.to_nat (i / 64)) as [w|] eqn:E; [|apply Z.bits_0].
  apply lookup_replicate in E as [-> _]. apply Z.bits_0.
Qed.

Lemma alter_dset_wf (f : Z -> Z) j s :
  dset_wf k s -> (forall w, is_word w -> is_word (f w)) -> dset_wf k (alter f j s).
Proof using.
  intros [Hl Hw] Hf. split; [by rewrite length_alter|].
  apply Forall_lookup_2. intros i w Hi. rewrite list_lookup_alter in Hi.
  case_decide; [|by eapply Forall_lookup_1].
  apply fmap_Some in Hi as (w' & Hi & ->). apply Hf. by eapply Forall_lookup_1.
Qed.

Lemma SET_S_wf j s : dset_wf k s -> dset_wf k (CPU_SET_S j (bytes k) s).
Proof using.
  intros Hs. unfold CPU_SET_S. case_match; [|done].
  apply alter_dset_wf; [done|]. intros. apply lor_word; [done|]. apply bit_word. zdm.
Qed.

Lemma SET_S_high j s : dset_bits k <= j < 2 ^ 64 -> CPU_SET_S j (bytes k) s = s.
Proof using.
  intros Hj. unfold CPU_SET_S, dset_bits in *. rewrite to_ulong_id by (unfold is_word; lia).
  destruct (Z.ltb_spec (j / 8) (8 * Z.of_nat k)); [zdm|done].
Qed.

Lemma wbit_SET_S i j s :
  dset_wf k s -> 0 <= i < dset_bits k -> 0 <= j < dset_bits k ->
  wbit (CPU_SET_S j (bytes k) s) i = (i =? j) || wbit s i.
Proof using Hk.
  intros [Hl Hw] Hi Hj. unfold CPU_SET_S, dset_bits in *.
  rewrite to_ulong_id by (unfold is_word; lia).
  destruct (Z.ltb_spec (j / 8) (8 * Z.of_nat k)); [|zdm].
  destruct (lookup_lt_is_Some_2 s (Z.to_nat (j / 64))) as [w E]; [rewrite Hl; zdm|].
  unfold wbit. rewrite list_lookup_alter. destruct (Z.eqb_spec i j) as [->|Hne].
  { rewrite decide_True, E by done. cbn. rewrite Z.lor_spec, Z.shiftl_spec by zdm.
    rewrite Z.sub_diag. apply orb_true_r. }
  case_decide as Hd; [|done]. rewrite <- Hd, E. cbn.
  assert (j / 64 = i / 64) by (apply Z2Nat.inj; [zdm|zdm|done]).
  rewrite Z.lor_spec, Z.shiftl_spec by zdm.
  replace (Z.testbit 1 (i mod 64 - j mod 64)) with false; [apply orb_false_r|].
  symmetry. destruct (decide (i mod 64 < j mod 64)); [apply Z.testbit_neg_r; lia|].
  apply (Z.bits_above_log2 1); [lia|]. simpl. zdm.
Qed.

Lemma OP_S_eq (op : Z -> Z -> Z) d a b :
  dset_wf k d -> dset_wf k a -> dset_wf k b -> CPU_OP_S op (bytes k) d a b = zip_with op a b.
Proof using.
  intros [Hd _] [Ha _] [Hb _]. unfold CPU_OP_S. rewrite set_words_bytes.
  by rewrite drop_ge, !take_ge, app_nil_r by lia.
Qed.

Lemma zip_dset_wf (op : Z -> Z -> Z) a b :
  dset_wf k a -> dset_wf k b -> (forall v w, is_word v -> is_word w -> is_word (op v w)) ->
  dset_wf k (zip_with op a b).
Proof using.
  intros [Ha Hwa] [Hb Hwb] Hop. split; [rewrite length_zip_with; lia|].
  apply Forall_lookup_2. intros j w Hj.
  apply lookup_zip_with_Some in Hj as (v & v' & -> & E & E').
  apply Hop; [by apply (Forall_lookup_1 _ a j)|by apply (Forall_lookup_1 _ b j)].
Qed.

Lemma wbit_zip (op : Z -> Z -> Z) (bop : bool -> bool -> bool) a b i :
  dset_wf k a -> dset_wf k b -> 0 <= i < dset_bits k ->
  (forall v w j, Z.testbit (op v w) j = bop (Z.testbit v j) (Z.testbit w j)) ->
  wbit (zip_with op a b) i = bop (wbit a i) (wbit b i).
Proof using.
  intros [Ha _] [Hb _] Hi Hop. unfold dset_bits in Hi. unfold wbit.
  destruct (lookup_lt_is_Some_2 a (Z.to_nat (i / 64))) as [v E]; [rewrite Ha; zdm|].
  destruct (lookup_lt_is_Some_2 b (Z.to_nat (i / 64))) as [w E']; [rewrite Hb; zdm|].
  by rewrite lookup_zip_with, E; simpl; rewrite E'; simpl; rewrite Hop.
Qed.

(** [CPU_COUNT_S] is the number of members. *)
Lemma popcountl_wbit w j s :
  s !! j = Some w ->
  popcountl w = Z.of_nat (length (List.filter (wbit s) (seqZ (64 * Z.of_nat j) 64))).
Proof using.
  intros E. unfold popcountl. f_equal.
  enough (Hm : forall n, 0 <= n <= 64 -> length (List.filter (Z.testbit w) (seqZ 0 n)) =
                length (List.filter (wbit s) (seqZ (64 * Z.of_nat j) n))) by (by apply Hm).
  intros n Hn. replace n with (Z.of_nat (Z.to_nat n)) by lia.
  assert (Z.to_nat n <= 64)%nat by lia. clear Hn.
  induction (Z.to_nat n) as [|m IH]; [done|].
  replace (Z.of_nat (S m)) with (Z.of_nat m + 1) by lia.
  rewrite !seqZ_snoc, !List.filter_app, !length_app, IH by lia. f_equal. cbn [List.filter].
  assert (Hb : wbit s (64 * Z.of_nat j + Z.of_nat m) = Z.testbit w (Z.of_nat m)).
  { unfold wbit. replace ((64 * Z.of_nat j + Z.of_nat m) / 64) with (Z.of_nat j) by zdm.
    replace ((64 * Z.of_nat j + Z.of_nat m) mod 64) with (Z.of_nat m) by zdm.
    by rewrite Nat2Z.id, E. }
  rewrite Z.add_0_l, Hb. by destruct (Z.testbit w (Z.of_nat m)).
Qed.

Lemma COUNT_S_members s :
  dset_wf k s -> CPU_COUNT_S (bytes k) s = Z.of_nat (length (members_below (dset_bits k) s)).
Proof using.
  intros [Hl _]. unfold CPU_COUNT_S, members_below, dset_bits. rewrite set_words_bytes.
  enough (H : forall n, (n <= k)%nat -> sumZ (map popcountl (take n s)) =
            Z.of_nat (length (List.filter (wbit s) (seqZ 0 (64 * Z.of_nat n))))) by (by apply H).
  induction n as [|n IH]; intros Hn; [done|].
  destruct (lookup_lt_is_Some_2 s n) as [w E]; [lia|].
  rewrite (take_S_r _ _ w E), map_app, sumZ_app, IH by lia. simpl.
  rewrite (popcountl_wbit w n s E).
  replace (64 * Z.of_nat (S n)) with (64 * Z.of_nat n + 64) by lia.
  rewrite seqZ_app, List.filter_app, length_app by lia. rewrite Z.add_0_l. lia.
Qed.
End dset.

Lemma elem_of_members_below i hi s : i ∈ members_below hi s <-> 0 <= i < hi /\ wbit s i = true.
Proof.
  unfold members_below. rewrite list_elem_of_In, filter_In, <- list_elem_of_In, elem_of_seqZ.
  intuition lia.
Qed.

(** A set holds no more CPUs than it has bits. *)
Lemma popcountl_bounds w : 0 <= popcountl w <= 64.
Proof.
  unfold popcountl. pose proof (List.filter_length_le (Z.testbit w) (seqZ 0 64)) as H.
  rewrite length_seqZ in H. lia.
Qed.

Lemma COUNT_S_bounds k s : 0 <= CPU_COUNT_S (bytes k) s <= dset_bits k.
Proof.
  unfold CPU_COUNT_S, dset_bits. rewrite set_words_bytes.
  enough (H : forall l, 0 <= sumZ (map popcountl l) <= 64 * Z.of_nat (length l)).
  { specialize (H (take k s)). rewrite length_take in H. lia. }
  induction l as [|x l IH]; simpl; [lia|]. pose proof (popcountl_bounds x). lia.
Qed.

(** [CPU_ALLOC_SIZE] is a whole number of words. *)
Lemma CPU_ALLOC_SIZE_words n :
  0 <= n -> CPU_ALLOC_SIZE n = bytes (set_words (CPU_ALLOC_SIZE n)) /\
  n <= dset_bits (set_words (CPU_ALLOC_SIZE n)).
Proof.
  intros Hn. unfold CPU_ALLOC_SIZE, dset_bits, set_words.
  assert (E : (n + 63) / 64 * 8 / 8 = (n + 63) / 64) by zdm. rewrite E.
  assert (0 <= (n + 63) / 64) by zdm. rewrite !Z2Nat.id by done. split; [lia|zdm].
Qed.

#[export] Hint Resolve zero_set_wf SET_S_wf : wayca.
