(* ===== verification/State.v ===== *)
(** * Threads, groups and the scheduler's state

    The structures of [lib/wayca_thread.h] and the global variables of
    [lib/threads.c]. Objects live in two heaps, one for threads and one for
    groups; a pointer is a key of its heap and NULL is [None]. The operating
    system is a parameter: what it answers depends on the calls made so far. *)

From S2P Require Import Prelude Bitops Cpuset Cstring.

Abbreviation tptr := nat.
Abbreviation gptr := nat.

(** ** Group attributes (include/wayca-scheduler.h) *)

Definition WT_GF_CPU : Z := 0x00000001.
Definition WT_GF_CCL : Z := 0x00000004.
Definition WT_GF_NUMA : Z := 0x00000020.
Definition WT_GF_PACKAGE : Z := 0x00000040.
Definition WT_GF_ALL : Z := 0x00000400.
Definition WT_GF_PERCPU : Z := 0x00010000.
Definition WT_GF_COMPACT : Z := 0x00100000.

(** [attr & flag], as a condition. *)
Definition has_flag (attr flag : Z) : bool := negb (Z.land attr flag =? 0).

(** ** struct wayca_thread *)

Record wayca_thread := mk_wayca_thread {
  t_id : Z;  (** wayca_sc_thread_t id *)
  t_pid : Z;  (** pid *)
  t_attribute : Z;  (** attribute *)
  t_target_pos : Z;  (** size_t target_pos *)
  t_cur_set : cpu_set_t;  (** cur_set *)
  t_allowed_set : cpu_set_t;  (** allowed_set *)
  t_siblings : option tptr;  (** next thread of the group, NULL terminated *)
  t_group : option gptr;  (** group the thread directly belongs to *)
  t_thread : Z;  (** pthread_t thread *)
  t_start_routine : option Z;  (** start_routine, NULL for an attached PID *)
  t_arg : Z;  (** arg *)
  t_start : bool;  (** start *)
}.

Definition set_t_id (v : Z) (x : wayca_thread) : wayca_thread :=
  mk_wayca_thread v (t_pid x) (t_attribute x) (t_target_pos x) (t_cur_set x)
    (t_allowed_set x) (t_siblings x) (t_group x) (t_thread x)
    (t_start_routine x) (t_arg x) (t_start x).
Definition set_t_pid (v : Z) (x : wayca_thread) : wayca_thread :=
  mk_wayca_thread (t_id x) v (t_attribute x) (t_target_pos x) (t_cur_set x)
    (t_allowed_set x) (t_siblings x) (t_group x) (t_thread x)
    (t_start_routine x) (t_arg x) (t_start x).
Definition set_t_attribute (v : Z) (x : wayca_thread) : wayca_thread :=
  mk_wayca_thread (t_id x) (t_pid x) v (t_target_pos x) (t_cur_set x)
    (t_allowed_set x) (t_siblings x) (t_group x) (t_thread x)
    (t_start_routine x) (t_arg x) (t_start x).
Definition set_t_target_pos (v : Z) (x : wayca_thread) : wayca_thread :=
  mk_wayca_thread (t_id x) (t_pid x) (t_attribute x) v (t_cur_set x)
    (t_allowed_set x) (t_siblings x) (t_group x) (t_thread x)
    (t_start_routine x) (t_arg x) (t_start x).
Definition set_t_cur_set (v : cpu_set_t) (x : wayca_thread) : wayca_thread :=
  mk_wayca_thread (t_id x) (t_pid x) (t_attribute x) (t_target_pos x) v
    (t_allowed_set x) (t_siblings x) (t_group x) (t_thread x)
    (t_start_routine x) (t_arg x) (t_start x).
Definition set_t_allowed_set (v : cpu_set_t) (x : wayca_thread) : wayca_thread :=
  mk_wayca_thread (t_id x) (t_pid x) (t_attribute x) (t_target_pos x)
    (t_cur_set x) v (t_siblings x) (t_group x) (t_thread x) (t_start_routine
    x) (t_arg x) (t_start x).
Definition set_t_siblings (v : option tptr) (x : wayca_thread) : wayca_thread :=
  mk_wayca_thread (t_id x) (t_pid x) (t_attribute x) (t_target_pos x)
    (t_cur_set x) (t_allowed_set x) v (t_group x) (t_thread x)
    (t_start_routine x) (t_arg x) (t_start x).
Definition set_t_group (v : option gptr) (x : wayca_thread) : wayca_thread :=
  mk_wayca_thread (t_id x) (t_pid x) (t_attribute x) (t_target_pos x)
    (t_cur_set x) (t_allowed_set x) (t_siblings x) v (t_thread x)
    (t_start_routine x) (t_arg x) (t_start x).
Definition set_t_thread (v : Z) (x : wayca_thread) : wayca_thread :=
  mk_wayca_thread (t_id x) (t_pid x) (t_attribute x) (t_target_pos x)
    (t_cur_set x) (t_allowed_set x) (t_siblings x) (t_group x) v
    (t_start_routine x) (t_arg x) (t_start x).
Definition set_t_start_routine (v : option Z) (x : wayca_thread) : wayca_thread :=
  mk_wayca_thread (t_id x) (t_pid x) (t_attribute x) (t_target_pos x)
    (t_cur_set x) (t_allowed_set x) (t_siblings x) (t_group x) (t_thread x)
    v (t_arg x) (t_start x).
Definition set_t_arg (v : Z) (x : wayca_thread) : wayca_thread :=
  mk_wayca_thread (t_id x) (t_pid x) (t_attribute x) (t_target_pos x)
    (t_cur_set x) (t_allowed_set x) (t_siblings x) (t_group x) (t_thread x)
    (t_start_routine x) v (t_start x).
Definition set_t_start (v : bool) (x : wayca_thread) : wayca_thread :=
  mk_wayca_thread (t_id x) (t_pid x) (t_attribute x) (t_target_pos x)
    (t_cur_set x) (t_allowed_set x) (t_siblings x) (t_group x) (t_thread x)
    (t_start_routine x) (t_arg x) v.

(** ** struct wayca_sc_group *)

Record wayca_sc_group := mk_wayca_sc_group {
  g_id : Z;  (** wayca_sc_group_t id *)
  g_threads : option tptr;  (** first thread *)
  g_nr_threads : Z;  (** nr_threads *)
  g_siblings : option gptr;  (** next group of the same father *)
  g_father : option gptr;  (** father, NULL at the top *)
  g_groups : option gptr;  (** first child group *)
  g_nr_groups : Z;  (** nr_groups *)
  g_used : cpu_set_t;  (** CPUs that have a thread *)
  g_total : cpu_set_t;  (** CPUs the group owns *)
  g_attribute : Z;  (** attribute *)
  g_mutex : bool;  (** mutex: is it locked *)
  g_stride : Z;  (** stride *)
  g_nr_cpus_per_topo : Z;  (** nr_cpus_per_topo *)
  g_topo_hint : Z;  (** topo_hint *)
  g_roll_over_cnts : Z;  (** roll_over_cnts *)
}.

Definition set_g_id (v : Z) (x : wayca_sc_group) : wayca_sc_group :=
  mk_wayca_sc_group v (g_threads x) (g_nr_threads x) (g_siblings x)
    (g_father x) (g_groups x) (g_nr_groups x) (g_used x) (g_total x)
    (g_attribute x) (g_mutex x) (g_stride x) (g_nr_cpus_per_topo x)
    (g_topo_hint x) (g_roll_over_cnts x).
Definition set_g_threads (v : option tptr) (x : wayca_sc_group) : wayca_sc_group :=
  mk_wayca_sc_group (g_id x) v (g_nr_threads x) (g_siblings x) (g_father x)
    (g_groups x) (g_nr_groups x) (g_used x) (g_total x) (g_attribute x)
    (g_mutex x) (g_stride x) (g_nr_cpus_per_topo x) (g_topo_hint x)
    (g_roll_over_cnts x).
Definition set_g_nr_threads (v : Z) (x : wayca_sc_group) : wayca_sc_group :=
  mk_wayca_sc_group (g_id x) (g_threads x) v (g_siblings x) (g_father x)
    (g_groups x) (g_nr_groups x) (g_used x) (g_total x) (g_attribute x)
    (g_mutex x) (g_stride x) (g_nr_cpus_per_topo x) (g_topo_hint x)
    (g_roll_over_cnts x).
Definition set_g_siblings (v : option gptr) (x : wayca_sc_group) : wayca_sc_group :=
  mk_wayca_sc_group (g_id x) (g_threads x) (g_nr_threads x) v (g_father x)
    (g_groups x) (g_nr_groups x) (g_used x) (g_total x) (g_attribute x)
    (g_mutex x) (g_stride x) (g_nr_cpus_per_topo x) (g_topo_hint x)
    (g_roll_over_cnts x).
Definition set_g_father (v : option gptr) (x : wayca_sc_group) : wayca_sc_group :=
  mk_wayca_sc_group (g_id x) (g_threads x) (g_nr_threads x) (g_siblings x) v
    (g_groups x) (g_nr_groups x) (g_used x) (g_total x) (g_attribute x)
    (g_mutex x) (g_stride x) (g_nr_cpus_per_topo x) (g_topo_hint x)
    (g_roll_over_cnts x).
Definition set_g_groups (v : option gptr) (x : wayca_sc_group) : wayca_sc_group :=
  mk_wayca_sc_group (g_id x) (g_threads x) (g_nr_threads x) (g_siblings x)
    (g_father x) v (g_nr_groups x) (g_used x) (g_total x) (g_attribute x)
    (g_mutex x) (g_stride x) (g_nr_cpus_per_topo x) (g_topo_hint x)
    (g_roll_over_cnts x).
Definition set_g_nr_groups (v : Z) (x : wayca_sc_group) : wayca_sc_group :=
  mk_wayca_sc_group (g_id x) (g_threads x) (g_nr_threads x) (g_siblings x)
    (g_father x) (g_groups x) v (g_used x) (g_total x) (g_attribute x)
    (g_mutex x) (g_stride x) (g_nr_cpus_per_topo x) (g_topo_hint x)
    (g_roll_over_cnts x).
Definition set_g_used (v : cpu_set_t) (x : wayca_sc_group) : wayca_sc_group :=
  mk_wayca_sc_group (g_id x) (g_threads x) (g_nr_threads x) (g_siblings x)
    (g_father x) (g_groups x) (g_nr_groups x) v (g_total x) (g_attribute x)
    (g_mutex x) (g_stride x) (g_nr_cpus_per_topo x) (g_topo_hint x)
    (g_roll_over_cnts x).
Definition set_g_total (v : cpu_set_t) (x : wayca_sc_group) : wayca_sc_group :=
  mk_wayca_sc_group (g_id x) (g_threads x) (g_nr_threads x) (g_siblings x)
    (g_father x) (g_groups x) (g_nr_groups x) (g_used x) v (g_attribute x)
    (g_mutex x) (g_stride x) (g_nr_cpus_per_topo x) (g_topo_hint x)
    (g_roll_over_cnts x).
Definition set_g_attribute (v : Z) (x : wayca_sc_group) : wayca_sc_group :=
  mk_wayca_sc_group (g_id x) (g_threads x) (g_nr_threads x) (g_siblings x)
    (g_father x) (g_groups x) (g_nr_groups x) (g_used x) (g_total x) v
    (g_mutex x) (g_stride x) (g_nr_cpus_per_topo x) (g_topo_hint x)
    (g_roll_over_cnts x).
Definition set_g_mutex (v : bool) (x : wayca_sc_group) : wayca_sc_group :=
  mk_wayca_sc_group (g_id x) (g_threads x) (g_nr_threads x) (g_siblings x)
    (g_father x) (g_groups x) (g_nr_groups x) (g_used x) (g_total x)
    (g_attribute x) v (g_stride x) (g_nr_cpus_per_topo x) (g_topo_hint x)
    (g_roll_over_cnts x).
Definition set_g_stride (v : Z) (x : wayca_sc_group) : wayca_sc_group :=
  mk_wayca_sc_group (g_id x) (g_threads x) (g_nr_threads x) (g_siblings x)
    (g_father x) (g_groups x) (g_nr_groups x) (g_used x) (g_total x)
    (g_attribute x) (g_mutex x) v (g_nr_cpus_per_topo x) (g_topo_hint x)
    (g_roll_over_cnts x).
Definition set_g_nr_cpus_per_topo (v : Z) (x : wayca_sc_group) : wayca_sc_group :=
  mk_wayca_sc_group (g_id x) (g_threads x) (g_nr_threads x) (g_siblings x)
    (g_father x) (g_groups x) (g_nr_groups x) (g_used x) (g_total x)
    (g_attribute x) (g_mutex x) (g_stride x) v (g_topo_hint x)
    (g_roll_over_cnts x).
Definition set_g_topo_hint (v : Z) (x : wayca_sc_group) : wayca_sc_group :=
  mk_wayca_sc_group (g_id x) (g_threads x) (g_nr_threads x) (g_siblings x)
    (g_father x) (g_groups x) (g_nr_groups x) (g_used x) (g_total x)
    (g_attribute x) (g_mutex x) (g_stride x) (g_nr_cpus_per_topo x) v
    (g_roll_over_cnts x).
Definition set_g_roll_over_cnts (v : Z) (x : wayca_sc_group) : wayca_sc_group :=
  mk_wayca_sc_group (g_id x) (g_threads x) (g_nr_threads x) (g_siblings x)
    (g_father x) (g_groups x) (g_nr_groups x) (g_used x) (g_total x)
    (g_attribute x) (g_mutex x) (g_stride x) (g_nr_cpus_per_topo x)
    (g_topo_hint x) v.

(** ** struct wayca_threadpool_task and struct wayca_threadpool *)

Record wayca_threadpool_task := mk_wayca_threadpool_task {
  k_pool : nat;  (** pool *)
  k_task : Z;  (** task function *)
  k_arg : Z;  (** argument of the task function *)
  k_next : option nat;  (** next task of the queue *)
  k_prev : option nat;  (** previous task of the queue *)
}.

Definition set_k_pool (v : nat) (x : wayca_threadpool_task) : wayca_threadpool_task :=
  mk_wayca_threadpool_task v (k_task x) (k_arg x) (k_next x) (k_prev x).
Definition set_k_task (v : Z) (x : wayca_threadpool_task) : wayca_threadpool_task :=
  mk_wayca_threadpool_task (k_pool x) v (k_arg x) (k_next x) (k_prev x).
Definition set_k_arg (v : Z) (x : wayca_threadpool_task) : wayca_threadpool_task :=
  mk_wayca_threadpool_task (k_pool x) (k_task x) v (k_next x) (k_prev x).
Definition set_k_next (v : option nat) (x : wayca_threadpool_task) : wayca_threadpool_task :=
  mk_wayca_threadpool_task (k_pool x) (k_task x) (k_arg x) v (k_prev x).
Definition set_k_prev (v : option nat) (x : wayca_threadpool_task) : wayca_threadpool_task :=
  mk_wayca_threadpool_task (k_pool x) (k_task x) (k_arg x) (k_next x) v.

Record wayca_threadpool := mk_wayca_threadpool {
  p_id : Z;  (** wayca_sc_threadpool_t id *)
  p_workers : list (option tptr);  (** workers *)
  p_total_worker_num : Z;  (** size_t total_worker_num *)
  p_idle_num : Z;  (** size_t idle_num *)
  p_task_head : option nat;  (** head of the queue *)
  p_task_num : Z;  (** size_t task_num *)
  p_group : option gptr;  (** group of the workers *)
  p_mutex : bool;  (** mutex: is it locked *)
  p_stop : bool;  (** stop *)
}.

Definition set_p_id (v : Z) (x : wayca_threadpool) : wayca_threadpool :=
  mk_wayca_threadpool v (p_workers x) (p_total_worker_num x) (p_idle_num x)
    (p_task_head x) (p_task_num x) (p_group x) (p_mutex x) (p_stop x).
Definition set_p_workers (v : list (option tptr)) (x : wayca_threadpool) : wayca_threadpool :=
  mk_wayca_threadpool (p_id x) v (p_total_worker_num x) (p_idle_num x)
    (p_task_head x) (p_task_num x) (p_group x) (p_mutex x) (p_stop x).
Definition set_p_total_worker_num (v : Z) (x : wayca_threadpool) : wayca_threadpool :=
  mk_wayca_threadpool (p_id x) (p_workers x) v (p_idle_num x) (p_task_head
    x) (p_task_num x) (p_group x) (p_mutex x) (p_stop x).
Definition set_p_idle_num (v : Z) (x : wayca_threadpool) : wayca_threadpool :=
  mk_wayca_threadpool (p_id x) (p_workers x) (p_total_worker_num x) v
    (p_task_head x) (p_task_num x) (p_group x) (p_mutex x) (p_stop x).
Definition set_p_task_head (v : option nat) (x : wayca_threadpool) : wayca_threadpool :=
  mk_wayca_threadpool (p_id x) (p_workers x) (p_total_worker_num x)
    (p_idle_num x) v (p_task_num x) (p_group x) (p_mutex x) (p_stop x).
Definition set_p_task_num (v : Z) (x : wayca_threadpool) : wayca_threadpool :=
  mk_wayca_threadpool (p_id x) (p_workers x) (p_total_worker_num x)
    (p_idle_num x) (p_task_head x) v (p_group x) (p_mutex x) (p_stop x).
Definition set_p_group (v : option gptr) (x : wayca_threadpool) : wayca_threadpool :=
  mk_wayca_threadpool (p_id x) (p_workers x) (p_total_worker_num x)
    (p_idle_num x) (p_task_head x) (p_task_num x) v (p_mutex x) (p_stop x).
Definition set_p_mutex (v : bool) (x : wayca_threadpool) : wayca_threadpool :=
  mk_wayca_threadpool (p_id x) (p_workers x) (p_total_worker_num x)
    (p_idle_num x) (p_task_head x) (p_task_num x) (p_group x) v (p_stop x).
Definition set_p_stop (v : bool) (x : wayca_threadpool) : wayca_threadpool :=
  mk_wayca_threadpool (p_id x) (p_workers x) (p_total_worker_num x)
    (p_idle_num x) (p_task_head x) (p_task_num x) (p_group x) (p_mutex x) v.

(** ** The operating system *)

(** What [malloc] is asked for. *)
Inductive alloc :=
  | ALoads (n : Z)  (** the load array *)
  | ATable (n : Z)  (** a table of identifiers *)
  | AThread
  | AGroup
  | APool
  | AWorkers (n : Z)  (** the workers of a thread pool *)
  | ATask.

(** The calls whose effect is outside the process. *)
Inductive sys_event :=
  | EvSetaffinity (pid size : Z) (set : cpu_set_t)
  | EvGetaffinity (pid : Z)
  | EvMalloc (what : alloc)
  | EvPthreadCreate
  | EvPthreadJoin (thread : Z)
  | EvPthreadKill (thread sig : Z)
  | EvTkill (pid sig : Z)
  | EvGettid
  | EvOpendir (pid : Z).

(** What the system answers to a call, given the calls made before it. The
    calls that return -1 and set [errno] answer the negated error number. *)
Class System := {
  sys_setaffinity : list sys_event -> Z -> Z -> cpu_set_t -> Z;
  sys_getaffinity : list sys_event -> Z -> Z + cpu_set_t;
  sys_malloc : list sys_event -> alloc -> bool;
  sys_pthread_create : list sys_event -> Z + Z;
  sys_pthread_join : list sys_event -> Z -> Z;
  sys_pthread_kill : list sys_event -> Z -> Z -> Z;
  sys_tkill : list sys_event -> Z -> Z -> Z;
  sys_gettid : list sys_event -> Z;
  sys_task_dir : list sys_event -> Z -> Z + list cstring;
}.

(** What the topology component promises to the others: how many CPUs each
    level of the machine has, [-ENODATA] for a level it does not know. *)
Class Topology := {
  wayca_sc_cpus_in_ccl : Z;
  wayca_sc_cpus_in_node : Z;
  wayca_sc_cpus_in_package : Z;
  wayca_sc_cpus_in_total : Z;
}.

(** A regular machine: every known level divides the number of CPUs. *)
Definition level_ok (total k : Z) : Prop := k < 0 \/ (0 < k /\ (k | total)).

Class TopologyOk (T : Topology) : Prop := {
  total_range : 0 < wayca_sc_cpus_in_total <= CPU_SETSIZE;
  ccl_ok : level_ok wayca_sc_cpus_in_total wayca_sc_cpus_in_ccl;
  node_ok : level_ok wayca_sc_cpus_in_total wayca_sc_cpus_in_node;
  package_ok : level_ok wayca_sc_cpus_in_total wayca_sc_cpus_in_package;
}.

(** ** The state *)

Record sched := mk_sched {
  threads : gmap tptr wayca_thread;  (** live struct wayca_thread objects *)
  groups : gmap gptr wayca_sc_group;  (** live struct wayca_sc_group objects *)
  pools : gmap nat wayca_threadpool;  (** live struct wayca_threadpool objects *)
  tasks : gmap nat wayca_threadpool_task;  (** live struct wayca_threadpool_task objects *)
  wayca_cpu_loads : list Z;  (** load of each CPU *)
  total_cpu_set : cpu_set_t;  (** all the CPUs of the system *)
  wayca_threads_array : list (option tptr);  (** thread identifiers *)
  wayca_groups_array : list (option gptr);  (** group identifiers *)
  wayca_threadpools_array : list (option nat);  (** thread pool identifiers *)
  trace : list sys_event;  (** calls of the operating system, latest first *)
}.

Definition set_threads (v : gmap tptr wayca_thread) (x : sched) : sched :=
  mk_sched v (groups x) (pools x) (tasks x) (wayca_cpu_loads x)
    (total_cpu_set x) (wayca_threads_array x) (wayca_groups_array x)
    (wayca_threadpools_array x) (trace x).
Definition set_groups (v : gmap gptr wayca_sc_group) (x : sched) : sched :=
  mk_sched (threads x) v (pools x) (tasks x) (wayca_cpu_loads x)
    (total_cpu_set x) (wayca_threads_array x) (wayca_groups_array x)
    (wayca_threadpools_array x) (trace x).
Definition set_pools (v : gmap nat wayca_threadpool) (x : sched) : sched :=
  mk_sched (threads x) (groups x) v (tasks x) (wayca_cpu_loads x)
    (total_cpu_set x) (wayca_threads_array x) (wayca_groups_array x)
    (wayca_threadpools_array x) (trace x).
Definition set_tasks (v : gmap nat wayca_threadpool_task) (x : sched) : sched :=
  mk_sched (threads x) (groups x) (pools x) v (wayca_cpu_loads x)
    (total_cpu_set x) (wayca_threads_array x) (wayca_groups_array x)
    (wayca_threadpools_array x) (trace x).
Definition set_wayca_cpu_loads (v : list Z) (x : sched) : sched :=
  mk_sched (threads x) (groups x) (pools x) (tasks x) v (total_cpu_set x)
    (wayca_threads_array x) (wayca_groups_array x) (wayca_threadpools_array
    x) (trace x).
Definition set_total_cpu_set (v : cpu_set_t) (x : sched) : sched :=
  mk_sched (threads x) (groups x) (pools x) (tasks x) (wayca_cpu_loads x) v
    (wayca_threads_array x) (wayca_groups_array x) (wayca_threadpools_array
    x) (trace x).
Definition set_wayca_threads_array (v : list (option tptr)) (x : sched) : sched :=
  mk_sched (threads x) (groups x) (pools x) (tasks x) (wayca_cpu_loads x)
    (total_cpu_set x) v (wayca_groups_array x) (wayca_threadpools_array x)
    (trace x).
Definition set_wayca_groups_array (v : list (option gptr)) (x : sched) : sched :=
  mk_sched (threads x) (groups x) (pools x) (tasks x) (wayca_cpu_loads x)
    (total_cpu_set x) (wayca_threads_array x) v (wayca_threadpools_array x)
    (trace x).
Definition set_wayca_threadpools_array (v : list (option nat)) (x : sched) : sched :=
  mk_sched (threads x) (groups x) (pools x) (tasks x) (wayca_cpu_loads x)
    (total_cpu_set x) (wayca_threads_array x) (wayca_groups_array x) v
    (trace x).
Definition set_trace (v : list sys_event) (x : sched) : sched :=
  mk_sched (threads x) (groups x) (pools x) (tasks x) (wayca_cpu_loads x)
    (total_cpu_set x) (wayca_threads_array x) (wayca_groups_array x)
    (wayca_threadpools_array x) v.

(** Reading and writing objects through pointers. *)
Definition get_thread (p : tptr) : M sched wayca_thread := fun s =>
  match threads s !! p with
  | Some t => Ok (t, s)
  | None => Fault UseAfterFree
  end.

Definition get_group (p : gptr) : M sched wayca_sc_group := fun s =>
  match groups s !! p with
  | Some g => Ok (g, s)
  | None => Fault UseAfterFree
  end.

Definition put_thread (p : tptr) (t : wayca_thread) : M sched unit :=
  modify (fun s => set_threads (<[p := t]> (threads s)) s).

Definition put_group (p : gptr) (g : wayca_sc_group) : M sched unit :=
  modify (fun s => set_groups (<[p := g]> (groups s)) s).

(** [p->field = ...] *)
Definition upd_thread (p : tptr) (f : wayca_thread -> wayca_thread) : M sched unit :=
  t ← get_thread p; put_thread p (f t).

Definition upd_group (p : gptr) (f : wayca_sc_group -> wayca_sc_group) : M sched unit :=
  g ← get_group p; put_group p (f g).

Definition get_pool (p : nat) : M sched wayca_threadpool := fun s =>
  match pools s !! p with
  | Some x => Ok (x, s)
  | None => Fault UseAfterFree
  end.

Definition get_task (p : nat) : M sched wayca_threadpool_task := fun s =>
  match tasks s !! p with
  | Some x => Ok (x, s)
  | None => Fault UseAfterFree
  end.

Definition put_pool (p : nat) (x : wayca_threadpool) : M sched unit :=
  modify (fun s => set_pools (<[p := x]> (pools s)) s).

Definition put_task (p : nat) (x : wayca_threadpool_task) : M sched unit :=
  modify (fun s => set_tasks (<[p := x]> (tasks s)) s).

Definition upd_pool (p : nat) (f : wayca_threadpool -> wayca_threadpool) : M sched unit :=
  x ← get_pool p; put_pool p (f x).

Definition upd_task (p : nat) (f : wayca_threadpool_task -> wayca_threadpool_task) : M sched unit :=
  x ← get_task p; put_task p (f x).

Definition emit (e : sys_event) : M sched unit :=
  modify (fun s => set_trace (e :: trace s) s).

(** [loads[i]] and [loads[i] += d] with a signed index. *)
Definition load_at (loads : list Z) (i : Z) : outcome Z :=
  if i <? 0 then Fault OutOfBounds
  else match loads !! Z.to_nat i with
    | Some x => Ok x
    | None => Fault OutOfBounds
    end.

Definition load_add (loads : list Z) (i d : Z) : outcome (list Z) :=
  x ← load_at loads i;
  Ok (<[Z.to_nat i := x + d]> loads).

(** Reduce projections of updated records, and nothing else. *)
Ltac fsimpl :=
  cbn [t_id set_t_id t_pid set_t_pid t_attribute set_t_attribute t_target_pos
    set_t_target_pos t_cur_set set_t_cur_set t_allowed_set set_t_allowed_set
    t_siblings set_t_siblings t_group set_t_group t_thread set_t_thread
    t_start_routine set_t_start_routine t_arg set_t_arg t_start set_t_start
    g_id set_g_id g_threads set_g_threads g_nr_threads set_g_nr_threads
    g_siblings set_g_siblings g_father set_g_father g_groups set_g_groups
    g_nr_groups set_g_nr_groups g_used set_g_used g_total set_g_total
    g_attribute set_g_attribute g_mutex set_g_mutex g_stride set_g_stride
    g_nr_cpus_per_topo set_g_nr_cpus_per_topo g_topo_hint set_g_topo_hint
    g_roll_over_cnts set_g_roll_over_cnts k_pool set_k_pool k_task
    set_k_task k_arg set_k_arg k_next set_k_next k_prev set_k_prev p_id
    set_p_id p_workers set_p_workers p_total_worker_num
    set_p_total_worker_num p_idle_num set_p_idle_num p_task_head
    set_p_task_head p_task_num set_p_task_num p_group set_p_group p_mutex
    set_p_mutex p_stop set_p_stop threads set_threads groups set_groups
    pools set_pools tasks set_tasks wayca_cpu_loads set_wayca_cpu_loads
    total_cpu_set set_total_cpu_set wayca_threads_array
    set_wayca_threads_array wayca_groups_array set_wayca_groups_array
    wayca_threadpools_array set_wayca_threadpools_array trace set_trace].
Ltac fsimpl_all :=
  cbn [t_id set_t_id t_pid set_t_pid t_attribute set_t_attribute t_target_pos
    set_t_target_pos t_cur_set set_t_cur_set t_allowed_set set_t_allowed_set
    t_siblings set_t_siblings t_group set_t_group t_thread set_t_thread
    t_start_routine set_t_start_routine t_arg set_t_arg t_start set_t_start
    g_id set_g_id g_threads set_g_threads g_nr_threads set_g_nr_threads
    g_siblings set_g_siblings g_father set_g_father g_groups set_g_groups
    g_nr_groups set_g_nr_groups g_used set_g_used g_total set_g_total
    g_attribute set_g_attribute g_mutex set_g_mutex g_stride set_g_stride
    g_nr_cpus_per_topo set_g_nr_cpus_per_topo g_topo_hint set_g_topo_hint
    g_roll_over_cnts set_g_roll_over_cnts k_pool set_k_pool k_task
    set_k_task k_arg set_k_arg k_next set_k_next k_prev set_k_prev p_id
    set_p_id p_workers set_p_workers p_total_worker_num
    set_p_total_worker_num p_idle_num set_p_idle_num p_task_head
    set_p_task_head p_task_num set_p_task_num p_group set_p_group p_mutex
    set_p_mutex p_stop set_p_stop threads set_threads groups set_groups
    pools set_pools tasks set_tasks wayca_cpu_loads set_wayca_cpu_loads
    total_cpu_set set_total_cpu_set wayca_threads_array
    set_wayca_threads_array wayca_groups_array set_wayca_groups_array
    wayca_threadpools_array set_wayca_threadpools_array trace set_trace] in *.
