(* ===== verification/Group.v ===== *)
(** * Groups: placing threads on CPUs

    [lib/group.c], function by function. The functions that only read the load
    array and a group's fields are pure ([find_idlest_core],
    [find_idlest_set], [find_incomplete_set], [assign_thread_resource]); the
    others act on the heaps of threads and groups. [WAYCA_SC_ASSERT] is the
    empty statement of a release build. The mutex of the load array is not
    modelled: it is taken and released inside single functions, and the model
    runs one call at a time. *)

From S2P Require Import Prelude Bitops Cpuset State.

(** Turns of a loop whose CPU number grows at every turn. *)
Definition cpu_fuel : nat := Z.to_nat (CPU_SETSIZE + 2).

Lemma cpu_fuel_val : Z.of_nat cpu_fuel = CPU_SETSIZE + 2.
Proof. unfold cpu_fuel. rewrite Z2Nat.id; unfold CPU_SETSIZE; lia. Qed.

#[global] Opaque cpu_fuel.

(** ** Loads *)

(** The loop of [wayca_thread_update_load]: add [load] to every CPU of [set]
    from [pos] on. *)
Fixpoint update_load_loop (fuel : nat) (set : cpu_set_t) (load pos : Z)
    (loads : list Z) : outcome (list Z) :=
  match fuel with
  | O => Fault OutOfFuel
  | S fuel =>
    if 0 <=? pos then
      loads ← load_add loads pos load;
      pos ← cpuset_find_next_set set pos;
      update_load_loop fuel set load pos loads
    else Ok loads
  end.

Definition update_load (total : Z) (set : cpu_set_t) (add : bool)
    (loads : list Z) : outcome (list Z) :=
  let cnt := CPU_COUNT set in
  if cnt =? 0 then Ok loads
  else
    let load := Common.div_round_up total cnt in
    let load := if negb add then - load else load in
    pos ← cpuset_find_first_set set;
    update_load_loop cpu_fuel set load pos loads.

(** The [while] loop of [find_idlest_core]. *)
Fixpoint find_idlest_core_loop (fuel : nat) (loads : list Z)
    (cpuset : cpu_set_t) (pos idlest_core load : Z) : outcome Z :=
  match fuel with
  | O => Fault OutOfFuel
  | S fuel =>
    last ← cpuset_find_last_set cpuset;
    if (pos <=? last) && (0 <=? pos) then
      x ← load_at loads pos;
      let '(idlest_core, load) := if x <? load then (pos, x) else (idlest_core, load) in
      pos ← cpuset_find_next_set cpuset pos;
      find_idlest_core_loop fuel loads cpuset pos idlest_core load
    else Ok idlest_core
  end.

Definition find_idlest_core (loads : list Z) (cpuset : cpu_set_t) : outcome Z :=
  pos ← cpuset_find_first_set cpuset;
  load ← load_at loads pos;
  find_idlest_core_loop cpu_fuel loads cpuset pos pos load.

(** [for (i = 0; i < stride; i++) tload += wayca_cpu_loads[pos + i];] *)
Fixpoint sum_loads (loads : list Z) (ixs : list Z) (tload : Z) : outcome Z :=
  match ixs with
  | [] => Ok tload
  | i :: ixs => x ← load_at loads i; sum_loads loads ixs (tload + x)
  end.

(** The [while] loop of [find_idlest_set]. *)
Fixpoint find_idlest_set_loop (fuel : nat) (loads : list Z) (stride : Z)
    (cpuset : cpu_set_t) (pos idlest_pos load : Z) : outcome Z :=
  match fuel with
  | O => Fault OutOfFuel
  | S fuel =>
    last ← cpuset_find_last_set cpuset;
    if pos <=? last then
      if negb (CPU_ISSET pos cpuset) then
        find_idlest_set_loop fuel loads stride cpuset (pos + stride) idlest_pos load
      else
        tload ← sum_loads loads (seqZ pos stride) 0;
        let '(idlest_pos, load) :=
          if tload <? load then (pos, tload) else (idlest_pos, load) in
        find_idlest_set_loop fuel loads stride cpuset (pos + stride) idlest_pos load
    else Ok idlest_pos
  end.

Definition find_idlest_set (loads : list Z) (group : wayca_sc_group)
    (cpuset : cpu_set_t) : outcome cpu_set_t :=
  let stride := g_nr_cpus_per_topo group in
  pos ← cpuset_find_first_set cpuset;
  if stride =? 0 then Fault DivByZero else
  let pos := pos - Z.rem pos stride in
  idlest_pos ← find_idlest_set_loop cpu_fuel loads stride cpuset pos pos INT_MAX;
  Ok (CPU_SET_range idlest_pos stride (CPU_ZERO cpuset)).

(** The [while] loop of [find_incomplete_set]. *)
Fixpoint find_incomplete_set_loop (fuel : nat) (stride : Z)
    (total cpuset : cpu_set_t) (pos : Z) : outcome Z :=
  match fuel with
  | O => Fault OutOfFuel
  | S fuel =>
    last ← cpuset_find_last_set total;
    if pos <=? last then
      let tset := CPU_SET_range pos stride CPU_EMPTY in
      let tset := CPU_AND tset cpuset in
      if negb (CPU_COUNT tset =? stride) && negb (CPU_COUNT tset =? 0) then Ok pos
      else find_incomplete_set_loop fuel stride total cpuset (pos + stride)
    else Ok (- ENODATA)
  end.

Definition find_incomplete_set (group : wayca_sc_group) (cpuset : cpu_set_t)
    : outcome Z :=
  let stride := g_nr_cpus_per_topo group in
  pos ← cpuset_find_first_set (g_total group);
  find_incomplete_set_loop cpu_fuel stride (g_total group) cpuset pos.

(** ** Assigning CPUs to a thread *)

(** [while (target_pos < anchor + nr && !CPU_ISSET(target_pos, set))
    target_pos += 1;] with [n] CPUs left before [anchor + nr]. *)
Fixpoint next_available (n : nat) (set : cpu_set_t) (target_pos : Z) : Z :=
  match n with
  | O => target_pos
  | S n => if negb (CPU_ISSET target_pos set)
           then next_available n set (target_pos + 1) else target_pos
  end.

(** [memset(&available_set, -1, ...); CPU_XOR(used); CPU_AND(total);] *)
Definition available (group : wayca_sc_group) : cpu_set_t :=
  CPU_AND (CPU_XOR cpu_set_full (g_used group)) (g_total group).

(** The CPU the thread is placed on. *)
Definition choose_target (loads : list Z) (group : wayca_sc_group) : outcome Z :=
  let nr := g_nr_cpus_per_topo group in
  let available_set := available group in
  if nr =? 0 then Fault DivByZero else
  if negb (Z.rem (CPU_COUNT available_set) nr =? 0)
     && has_flag (g_attribute group) WT_GF_COMPACT then
    anchor ← find_incomplete_set group available_set;
    Ok (next_available (Z.to_nat nr) available_set anchor)
  else
    available_set ← find_idlest_set loads group available_set;
    find_idlest_core loads available_set.

(** The CPUs the thread may run on. *)
Definition thread_set (group : wayca_sc_group) (target_pos : Z) : cpu_set_t :=
  let nr := g_nr_cpus_per_topo group in
  if has_flag (g_attribute group) WT_GF_PERCPU then CPU_SET target_pos CPU_EMPTY
  else
    let anchor := target_pos - Z.rem target_pos nr in
    CPU_SET_range anchor nr CPU_EMPTY.

(** The CPUs the group marks as used by the thread. *)
Definition mark_used (group : wayca_sc_group) (target_pos : Z)
    (allowed_set : cpu_set_t) : cpu_set_t :=
  let nr := g_nr_cpus_per_topo group in
  if has_flag (g_attribute group) WT_GF_COMPACT then CPU_SET target_pos (g_used group)
  else if has_flag (g_attribute group) WT_GF_PERCPU then
    let anchor := target_pos - Z.rem target_pos nr in
    CPU_SET_range anchor nr (g_used group)
  else CPU_OR (g_used group) allowed_set.

Definition assign_thread_resource (loads : list Z) (group : wayca_sc_group)
    (thread : wayca_thread) : outcome (wayca_sc_group * wayca_thread) :=
  target_pos ← choose_target loads group;
  let set := thread_set group target_pos in
  let thread :=
    set_t_cur_set set (set_t_allowed_set set
      (set_t_target_pos (to_ulong target_pos) thread)) in
  let group := set_g_used (mark_used group target_pos (t_allowed_set thread)) group in
  let group :=
    if CPU_EQUAL (g_used group) (g_total group) then
      set_g_roll_over_cnts (g_roll_over_cnts group + 1)
        (set_g_used (CPU_ZERO (g_used group)) group)
    else group in
  Ok (group, thread).

(** ** Functions on the heaps *)
Section heap.
Context `{T : Topology} `{Sys : System}.

Definition thread_sched_setaffinity (pid size : Z) (set : cpu_set_t) : M sched Z :=
  s ← get;
  let ret := sys_setaffinity (trace s) pid size set in
  emit (EvSetaffinity pid size set);;
  mret ret.

Definition wayca_thread_update_load (thread : tptr) (add : bool) : M sched unit :=
  t ← get_thread thread;
  s ← get;
  loads ← lift (update_load wayca_sc_cpus_in_total (t_cur_set t) add (wayca_cpu_loads s));
  modify (set_wayca_cpu_loads loads).

(** Following [siblings] from [member]; a NULL-terminated list has at most
    as many members as there are live objects. *)
Fixpoint thread_in_list (fuel : nat) (member : option tptr) (thread : tptr)
    : M sched bool :=
  match fuel with
  | O => throw OutOfFuel
  | S fuel =>
    match member with
    | None => mret false
    | Some m =>
      if decide (m = thread) then mret true
      else t ← get_thread m; thread_in_list fuel (t_siblings t) thread
    end
  end.

Definition thread_fuel (s : sched) : nat := S (size (threads s)).
Definition group_fuel (s : sched) : nat := S (size (groups s)).

Definition is_thread_in_group (group : option gptr) (thread : option tptr)
    : M sched bool :=
  match group, thread with
  | Some group, Some thread =>
    g ← get_group group;
    fuel ← gets thread_fuel;
    thread_in_list fuel (g_threads g) thread
  | _, _ => mret false
  end.

Fixpoint max_topo_cpus_loop (fuel : nat) (child : option gptr)
    (max_topo_cpus : Z) : M sched Z :=
  match fuel with
  | O => throw OutOfFuel
  | S fuel =>
    match child with
    | None => mret max_topo_cpus
    | Some c =>
      g ← get_group c;
      max_topo_cpus_loop fuel (g_siblings g)
        (Common.max max_topo_cpus (g_nr_cpus_per_topo g))
    end
  end.

Definition max_topo_cpus_in_child_groups (group : option gptr) : M sched Z :=
  match group with
  | None => mret (- EINVAL)
  | Some group =>
    g ← get_group group;
    if g_nr_groups g =? 0 then mret 0
    else fuel ← gets group_fuel; max_topo_cpus_loop fuel (g_groups g) 0
  end.

Fixpoint group_in_list (fuel : nat) (member : option gptr) (group : gptr)
    : M sched bool :=
  match fuel with
  | O => throw OutOfFuel
  | S fuel =>
    match member with
    | None => mret false
    | Some m =>
      if decide (m = group) then mret true
      else g ← get_group m; group_in_list fuel (g_siblings g) group
    end
  end.

Definition is_group_in_father (group father : gptr) : M sched bool :=
  f ← get_group father;
  fuel ← gets group_fuel;
  group_in_list fuel (g_groups f) group.

(** [while (tail->siblings) tail = tail->siblings;] *)
Fixpoint thread_list_tail (fuel : nat) (tail : tptr) : M sched tptr :=
  match fuel with
  | O => throw OutOfFuel
  | S fuel =>
    t ← get_thread tail;
    match t_siblings t with
    | None => mret tail
    | Some next => thread_list_tail fuel next
    end
  end.

Definition group_thread_add_to_tail (group : gptr) (thread : tptr) : M sched unit :=
  g ← get_group group;
  match g_threads g with
  | None => upd_group group (set_g_threads (Some thread))
  | Some tail =>
    fuel ← gets thread_fuel;
    tail ← thread_list_tail fuel tail;
    upd_thread tail (set_t_siblings (Some thread))
  end.

Fixpoint group_list_tail (fuel : nat) (tail : gptr) : M sched gptr :=
  match fuel with
  | O => throw OutOfFuel
  | S fuel =>
    g ← get_group tail;
    match g_siblings g with
    | None => mret tail
    | Some next => group_list_tail fuel next
    end
  end.

Definition group_group_add_to_tail (group father : gptr) : M sched unit :=
  f ← get_group father;
  match g_groups f with
  | None => upd_group father (set_g_groups (Some group))
  | Some tail =>
    fuel ← gets group_fuel;
    tail ← group_list_tail fuel tail;
    upd_group tail (set_g_siblings (Some group))
  end.

(** The [while (member)] loop of [group_thread_delete_thread]. *)
Fixpoint thread_list_unlink (fuel : nat) (member : option tptr) (thread : tptr)
    : M sched unit :=
  match fuel with
  | O => throw OutOfFuel
  | S fuel =>
    match member with
    | None => mret tt
    | Some m =>
      t ← get_thread m;
      let next := t_siblings t in
      if decide (next = Some thread) then
        n ← get_thread thread;
        upd_thread m (set_t_siblings (t_siblings n));;
        upd_thread thread (set_t_siblings None)
      else thread_list_unlink fuel next thread
    end
  end.

Definition group_thread_delete_thread (group : gptr) (thread : tptr) : M sched unit :=
  g ← get_group group;
  let member := g_threads g in
  if decide (member = Some thread) then
    t ← get_thread thread;
    upd_group group (set_g_threads (t_siblings t));;
    upd_thread thread (set_t_siblings None)
  else
    fuel ← gets thread_fuel;
    thread_list_unlink fuel member thread.

Fixpoint group_list_unlink (fuel : nat) (member : option gptr) (group : gptr)
    : M sched unit :=
  match fuel with
  | O => throw OutOfFuel
  | S fuel =>
    match member with
    | None => mret tt
    | Some m =>
      g ← get_group m;
      let next := g_siblings g in
      if decide (next = Some group) then
        n ← get_group group;
        upd_group m (set_g_siblings (g_siblings n));;
        upd_group group (set_g_siblings None)
      else group_list_unlink fuel next group
    end
  end.

Definition group_group_delete_group (group father : gptr) : M sched unit :=
  f ← get_group father;
  let member := g_groups f in
  if decide (member = Some group) then
    g ← get_group group;
    upd_group father (set_g_groups (g_siblings g));;
    upd_group group (set_g_siblings None)
  else
    fuel ← gets group_fuel;
    group_list_unlink fuel member group.

(** ** Requesting CPUs from the father *)

(** [cpuset] is only counted; the CPUs handed out are the idlest region of the
    father. *)
Definition wayca_group_request_resource_from_father (group : gptr)
    (cpuset : cpu_set_t) : M sched cpu_set_t :=
  let cnts := CPU_COUNT cpuset in
  g ← get_group group;
  father ← deref (g_father g);
  f ← get_group father;
  if g_nr_cpus_per_topo f =? 0 then throw DivByZero else
  let cnts := Common.div_round_up cnts (g_nr_cpus_per_topo f) in
  let cpuset := CPU_ZERO cpuset in
  s ← get;
  available_set ← lift (find_idlest_set (wayca_cpu_loads s) f (available f));
  upd_group father (fun f => set_g_used (CPU_OR (g_used f) available_set) f);;
  let cpuset := CPU_OR cpuset available_set in
  f ← get_group father;
  when (CPU_EQUAL (g_used f) (g_total f))
    (upd_group father (fun f =>
       set_g_used (CPU_ZERO (g_used f))
         (set_g_roll_over_cnts (g_roll_over_cnts f + 1) f)));;
  mret cpuset.

Definition wayca_group_request_resource (group : gptr) : M sched Z :=
  g ← get_group group;
  let nr_threads := if g_nr_threads g =? 0 then 4 else g_nr_threads g in
  match g_father g with
  | None =>
    s ← get;
    upd_group group (set_g_total (total_cpu_set s));;
    mret 0
  | Some _ =>
    let required_cpuset :=
      fold_left (fun set pos => CPU_SET (pos * g_stride g) set)
        (seqZ 0 nr_threads) CPU_EMPTY in
    required_cpuset ← wayca_group_request_resource_from_father group required_cpuset;
    upd_group group (set_g_total required_cpuset);;
    mret 0
  end.

(** The [switch] of [wayca_group_arrange]: the CPUs of a region of the
    attribute's topology level, [None] for an invalid level. *)
Definition arrange_level (attribute : Z) : option Z :=
  let level := Z.land attribute 0xffff in
  if level =? WT_GF_CPU then Some 1
  else if level =? WT_GF_CCL then Some wayca_sc_cpus_in_ccl
  else if level =? WT_GF_NUMA then Some wayca_sc_cpus_in_node
  else if level =? WT_GF_PACKAGE then Some wayca_sc_cpus_in_package
  else if level =? WT_GF_ALL then Some wayca_sc_cpus_in_total
  else None.

(** The fields that [wayca_group_arrange] computes from the attribute. *)
Definition arrange_fields (nr : Z) (g : wayca_sc_group) : wayca_sc_group :=
  let g := set_g_nr_cpus_per_topo nr g in
  let g :=
    if g_nr_cpus_per_topo g <? 0 then
      set_g_attribute (Z.lor (Z.land (g_attribute g) (lnot64 0xffff)) WT_GF_CPU)
        (set_g_nr_cpus_per_topo 1 g)
    else g in
  if has_flag (g_attribute g) WT_GF_COMPACT then set_g_stride 1 g
  else set_g_stride (g_nr_cpus_per_topo g) g.

Definition wayca_group_arrange (group : gptr) : M sched Z :=
  g ← get_group group;
  match arrange_level (g_attribute g) with
  | None => mret (- EINVAL)
  | Some nr =>
    put_group group (arrange_fields nr g);;
    wayca_group_request_resource group
  end.

Definition init_fields (g : wayca_sc_group) : wayca_sc_group :=
  set_g_attribute (Z.lor (Z.lor WT_GF_CPU WT_GF_COMPACT) WT_GF_PERCPU)
    (set_g_mutex false
      (set_g_used (CPU_ZERO (g_used g))
        (set_g_roll_over_cnts 0
          (set_g_topo_hint (-1)
            (set_g_father None
              (set_g_siblings None
                (set_g_nr_threads 0
                  (set_g_threads None g)))))))).

Definition wayca_group_init (group : option gptr) : M sched Z :=
  match group with
  | None => mret (- EINVAL)
  | Some group =>
    upd_group group init_fields;;
    wayca_group_arrange group
  end.

(** ** Members *)

Definition wayca_group_assign_thread_resource (group : gptr) (thread : tptr)
    : M sched unit :=
  g ← get_group group;
  t ← get_thread thread;
  s ← get;
  gt ← lift (assign_thread_resource (wayca_cpu_loads s) g t);
  put_group group gt.1;;
  put_thread thread gt.2.

Definition wayca_group_add_thread (group : gptr) (thread : tptr) : M sched Z :=
  is_in ← is_thread_in_group (Some group) (Some thread);
  if is_in : bool then mret (- EINVAL) else
  g ← get_group group;
  if negb (g_nr_groups g =? 0) then mret (- EINVAL) else
  upd_group group (fun g => set_g_nr_threads (g_nr_threads g + 1) g);;
  group_thread_add_to_tail group thread;;
  upd_thread thread (set_t_group (Some group));;
  wayca_group_assign_thread_resource group thread;;
  mret 0.

(** What [wayca_group_delete_thread] does to the accounting of the group. *)
Definition release_thread (g : wayca_sc_group) (t : wayca_thread) : wayca_sc_group :=
  let g :=
    if CPU_COUNT (g_used g) =? 0 then
      set_g_used (CPU_OR (g_used g) (g_total g))
        (set_g_roll_over_cnts (g_roll_over_cnts g - 1) g)
    else g in
  if has_flag (g_attribute g) WT_GF_COMPACT && negb (has_flag (g_attribute g) WT_GF_PERCPU)
  then set_g_used (CPU_CLR (t_target_pos t) (g_used g)) g
  else set_g_used (CPU_XOR (g_used g) (t_allowed_set t)) g.

Definition wayca_group_delete_thread (group : gptr) (thread : tptr) : M sched Z :=
  is_in ← is_thread_in_group (Some group) (Some thread);
  if negb is_in then mret (- EINVAL) else
  t ← get_thread thread;
  upd_group group (fun g => release_thread g t);;
  group_thread_delete_thread group thread;;
  upd_thread thread (set_t_group None);;
  upd_group group (fun g => set_g_nr_threads (g_nr_threads g - 1) g);;
  mret 0.

Definition wayca_group_rearrange_thread (thread : tptr) : M sched Z :=
  t ← get_thread thread;
  thread_sched_setaffinity (t_pid t) sizeof_cpu_set_t (t_cur_set t);;
  wayca_thread_update_load thread true;;
  mret 0.

(** [group_for_each_threads] and [group_for_each_groups]: the next pointer is
    read after the body ran. *)
Fixpoint for_each_thread (fuel : nat) (body : tptr -> M sched unit)
    (thread : option tptr) : M sched unit :=
  match fuel with
  | O => throw OutOfFuel
  | S fuel =>
    match thread with
    | None => mret tt
    | Some p =>
      body p;;
      t ← get_thread p;
      for_each_thread fuel body (t_siblings t)
    end
  end.

Fixpoint for_each_group (fuel : nat) (body : gptr -> M sched unit)
    (child : option gptr) : M sched unit :=
  match fuel with
  | O => throw OutOfFuel
  | S fuel =>
    match child with
    | None => mret tt
    | Some p =>
      body p;;
      g ← get_group p;
      for_each_group fuel body (g_siblings g)
    end
  end.

(** One level of [wayca_group_rearrange_group]; [rearrange_child] is the
    recursive call on a child. *)
Definition rearrange_group_body (rearrange_child : gptr -> M sched Z)
    (group : gptr) : M sched Z :=
  g ← get_group group;
  too_big ← match g_father g with
    | None => mret false
    | Some father =>
      f ← get_group father;
      mret (g_nr_cpus_per_topo f <=? g_nr_cpus_per_topo g)
    end;
  if too_big : bool then mret (- ERANGE) else
  max_child ← max_topo_cpus_in_child_groups (Some group);
  if g_nr_cpus_per_topo g <=? max_child then mret (- ERANGE) else
  ret ← wayca_group_arrange group;
  if negb (ret =? 0) then mret ret else
  upd_group group (fun g => set_g_roll_over_cnts 0 (set_g_used (CPU_ZERO (g_used g)) g));;
  g ← get_group group;
  (if negb (g_nr_threads g =? 0) then
    fuel ← gets thread_fuel;
    for_each_thread fuel (fun thread =>
      wayca_thread_update_load thread false;;
      wayca_group_assign_thread_resource group thread;;
      wayca_group_rearrange_thread thread;;
      mret tt) (g_threads g)
  else when (negb (g_nr_groups g =? 0))
    (fuel ← gets group_fuel;
     for_each_group fuel (fun child => rearrange_child child;; mret tt) (g_groups g)));;
  mret 0.

(** Recursion down the hierarchy: its depth is at most the number of groups
    when the hierarchy is a forest. *)
Fixpoint rearrange_group_fuel (fuel : nat) (group : gptr) : M sched Z :=
  match fuel with
  | O => throw OutOfFuel
  | S fuel => rearrange_group_body (rearrange_group_fuel fuel) group
  end.

Definition wayca_group_rearrange_group (group : gptr) : M sched Z :=
  fuel ← gets group_fuel;
  rearrange_group_fuel fuel group.

Definition wayca_group_add_group (group father : gptr) : M sched Z :=
  is_in ← is_group_in_father group father;
  if is_in : bool then mret (- EINVAL) else
  f ← get_group father;
  if negb (g_nr_threads f =? 0) then mret (- EINVAL) else
  upd_group father (fun f => set_g_nr_groups (g_nr_groups f + 1) f);;
  group_group_add_to_tail group father;;
  upd_group group (set_g_father (Some father));;
  ret ← wayca_group_rearrange_group group;
  if ret <? 0 then
    group_group_delete_group group father;;
    upd_group father (fun f => set_g_nr_groups (g_nr_groups f - 1) f);;
    upd_group group (set_g_father None);;
    mret ret
  else mret 0.

(** What [wayca_group_delete_group] does to the accounting of the father. *)
Definition release_group (f g : wayca_sc_group) : wayca_sc_group :=
  let f :=
    if CPU_COUNT (g_used f) =? 0 then
      set_g_used (CPU_OR (g_used f) (g_total f))
        (set_g_roll_over_cnts (g_roll_over_cnts f - 1) f)
    else f in
  set_g_used (CPU_XOR (g_used f) (g_total g)) f.

Definition wayca_group_delete_group (group father : gptr) : M sched Z :=
  is_in ← is_group_in_father group father;
  if negb is_in then mret (- EINVAL) else
  g ← get_group group;
  upd_group father (fun f => release_group f g);;
  group_group_delete_group group father;;
  upd_group father (fun f => set_g_nr_groups (g_nr_groups f - 1) f);;
  upd_group group (set_g_father None);;
  mret 0.

End heap.
