(* ===== verification/Placement.v ===== *)
(** * Where threads are placed

    Specification and correctness of the searches and of
    [assign_thread_resource] of [Group]: which CPU a thread gets, what the
    group's accounting becomes, and the balance that the accounting keeps. *)

From S2P Require Import Prelude Bitops Cpuset State Group.

(** ** Loads *)

(** The load of a CPU, and of the CPUs of a list. *)
Definition load_of (loads : list Z) (i : Z) : Z := default 0 (loads !! Z.to_nat i).
Definition region_load (loads : list Z) (stride p : Z) : Z :=
  sumZ (map (load_of loads) (seqZ p stride)).

Lemma load_at_ok loads i :
  0 <= i < Z.of_nat (length loads) -> load_at loads i = Ok (load_of loads i).
Proof.
  intros Hi. unfold load_at, load_of. destruct (Z.ltb_spec i 0); [lia|].
  destruct (lookup_lt_is_Some_2 loads (Z.to_nat i)) as [x ->]; [lia|done].
Qed.

Lemma sum_loads_ok loads ixs acc :
  Forall (fun i => 0 <= i < Z.of_nat (length loads)) ixs ->
  sum_loads loads ixs acc = Ok (acc + sumZ (map (load_of loads) ixs)).
Proof.
  intros H. revert acc. induction H as [|i ixs Hi _ IH]; intros acc; simpl.
  - f_equal. lia.
  - rewrite load_at_ok by done. obind. rewrite IH. f_equal. lia.
Qed.

Lemma cpu_fuel_cpus s : (length (cpus s) < cpu_fuel)%nat.
Proof.
  pose proof cpu_fuel_val. pose proof (length_cpus_le s). lia.
Qed.

(** [update_load] adds the same amount to every CPU of the set. *)
Definition loads_plus (l : list Z) (d : Z) (loads : list Z) : list Z :=
  fold_left (fun loads i => <[Z.to_nat i := load_of loads i + d]> loads) l loads.

Lemma length_loads_plus l d loads : length (loads_plus l d loads) = length loads.
Proof.
  unfold loads_plus. revert loads. induction l as [|i l IH]; intros loads; simpl; [done|].
  by rewrite IH, length_insert.
Qed.

Lemma load_of_loads_plus l d loads i :
  NoDup l -> Forall (fun j => 0 <= j < Z.of_nat (length loads)) l -> 0 <= i ->
  load_of (loads_plus l d loads) i = load_of loads i + (if bool_decide (i ∈ l) then d else 0).
Proof.
  intros Hnd. revert loads. induction Hnd as [|j l Hj Hnd IH]; intros loads Hf Hi.
  { simpl. unfold loads_plus. simpl. lia. }
  apply Forall_cons in Hf as [Hj' Hf].
  unfold loads_plus in *. simpl. rewrite IH; [|by rewrite length_insert|done].
  unfold load_of at 1. rewrite list_lookup_insert. destruct (decide (i = j)) as [->|Hne].
  - rewrite decide_True by (split; [done|lia]). rewrite bool_decide_eq_false_2 by done.
    rewrite bool_decide_eq_true_2 by set_solver. simpl. lia.
  - rewrite decide_False by lia. fold (load_of loads i). f_equal.
    by rewrite (bool_decide_ext (i ∈ l) (i ∈ j :: l)) by set_solver.
Qed.

Section loads.
Context (loads : list Z) (s : cpu_set_t).
Context (Hwf : cpuset_wf s).
Context (Hin : Forall (fun i => 0 <= i < Z.of_nat (length loads)) (cpus s)).

Lemma update_load_loop_ok fuel l1 l2 d loads' :
  cpus s = l1 ++ l2 -> length loads' = length loads -> (length l2 < fuel)%nat ->
  update_load_loop fuel s d (default (-1) (head l2)) loads' = Ok (loads_plus l2 d loads').
Proof using Hwf Hin.
  revert l1 l2 loads'. induction fuel as [|fuel IH]; intros l1 l2 loads' E Hlen Hf; [lia|].
  destruct l2 as [|p l2]; simpl; [done|].
  assert (Hp : 0 <= p < Z.of_nat (length loads')).
  { rewrite Hlen. rewrite E in Hin. apply Forall_app in Hin as [_ Hin'].
    by apply Forall_cons in Hin' as [? _]. }
  destruct (Z.leb_spec 0 p); [|lia].
  unfold load_add. rewrite load_at_ok by done. obind.
  rewrite (cpuset_find_next_set_cpus s l1 p l2) by done. obind.
  rewrite (IH (l1 ++ [p])); [done|by rewrite <- app_assoc| |simpl in Hf; lia].
  by rewrite length_insert.
Qed.

Lemma find_idlest_core_loop_ok fuel l1 l2 idlest :
  cpus s = l1 ++ l2 -> (length l2 < fuel)%nat -> idlest ∈ cpus s ->
  (forall i, i ∈ l1 -> load_of loads idlest <= load_of loads i) ->
  exists c, find_idlest_core_loop fuel loads s (default (-1) (head l2)) idlest
              (load_of loads idlest) = Ok c /\
    c ∈ cpus s /\ forall i, i ∈ cpus s -> load_of loads c <= load_of loads i.
Proof using Hwf Hin.
  revert l1 l2 idlest. induction fuel as [|fuel IH]; intros l1 l2 idlest E Hf Hid Hmin.
  { lia. }
  simpl. rewrite cpuset_find_last_set_ok by done. obind.
  destruct l2 as [|p l2]; simpl.
  { rewrite andb_false_r. rewrite app_nil_r in E. exists idlest. by rewrite E in *. }
  assert (Hp : p ∈ cpus s) by (rewrite E; set_solver).
  pose proof (proj1 (Forall_forall _ _) Hin p Hp) as Hpr. cbv beta in Hpr.
  pose proof (last_set_ge s p Hp).
  destruct (Z.leb_spec p (last_set s)), (Z.leb_spec 0 p); try lia. simpl.
  rewrite load_at_ok by done. obind.
  rewrite (cpuset_find_next_set_cpus s l1 p l2) by done.
  assert (E' : cpus s = (l1 ++ [p]) ++ l2) by (by rewrite <- app_assoc).
  simpl in Hf.
  destruct (Z.ltb_spec (load_of loads p) (load_of loads idlest)); obind.
  - apply (IH (l1 ++ [p])); [done|lia|done|].
    intros i [Hi|Hi]%elem_of_app; [specialize (Hmin i Hi); lia|].
    apply list_elem_of_singleton in Hi as ->. lia.
  - apply (IH (l1 ++ [p])); [done|lia|done|].
    intros i [Hi|Hi]%elem_of_app; [by apply Hmin|].
    by apply list_elem_of_singleton in Hi as ->.
Qed.

Lemma find_idlest_core_ok :
  cpus s <> [] ->
  exists c, find_idlest_core loads s = Ok c /\
    c ∈ cpus s /\ forall i, i ∈ cpus s -> load_of loads c <= load_of loads i.
Proof using Hwf Hin.
  intros Hne. unfold find_idlest_core. rewrite cpuset_find_first_set_ok by done. obind.
  pose proof (first_set_in s Hne) as Hf.
  rewrite load_at_ok by (by eapply Forall_forall in Hin). obind.
  pose proof (find_idlest_core_loop_ok cpu_fuel [] (cpus s) (first_set s)) as H.
  rewrite <- first_set_head in H. apply H; [reflexivity|apply cpu_fuel_cpus|exact Hf|].
  intros i Hi. by apply not_elem_of_nil in Hi.
Qed.
End loads.

(** The whole effect of [update_load] on the load array. *)
Lemma update_load_ok loads s total add :
  cpuset_wf s -> Forall (fun i => 0 <= i < Z.of_nat (length loads)) (cpus s) ->
  update_load total s add loads =
  Ok (if CPU_COUNT s =? 0 then loads
      else loads_plus (cpus s)
        (if add then Common.div_round_up total (CPU_COUNT s)
         else - Common.div_round_up total (CPU_COUNT s)) loads).
Proof.
  intros Hwf Hin. unfold update_load. destruct (CPU_COUNT s =? 0); [done|].
  rewrite cpuset_find_first_set_ok by done. obind.
  rewrite first_set_head.
  rewrite (update_load_loop_ok loads s Hwf Hin cpu_fuel [] (cpus s)); [|done|done|].
  - by destruct add.
  - apply cpu_fuel_cpus.
Qed.

(** ** The idlest region *)

(** A candidate of [find_idlest_set]: the first CPU of a region, available. *)
Definition candidate (stride : Z) (s : cpu_set_t) (p : Z) : Prop :=
  p ∈ cpus s /\ (stride | p).

Section idlest_set.
Context (loads : list Z) (stride : Z) (s : cpu_set_t).
Context (Hwf : cpuset_wf s) (Hstride : 0 < stride).
Context (Hin : forall p, candidate stride s p ->
           p + stride <= Z.of_nat (length loads)).

(** What the loop knows once it looked at the candidates below [pos]. *)
Definition idlest_below (p0 pos idlest load : Z) : Prop :=
  (idlest = p0 /\ load = INT_MAX /\
     forall p, candidate stride s p -> p < pos -> INT_MAX <= region_load loads stride p) \/
  (candidate stride s idlest /\ load = region_load loads stride idlest /\ load < INT_MAX /\
     forall p, candidate stride s p -> p < pos -> load <= region_load loads stride p).

Lemma idlest_below_weaken p0 pos pos' idlest load :
  idlest_below p0 pos idlest load ->
  (forall p, candidate stride s p -> p < pos' -> p < pos) ->
  idlest_below p0 pos' idlest load.
Proof. unfold idlest_below. naive_solver. Qed.

(** Between two multiples of the stride there is no candidate. *)
Lemma candidate_step pos p :
  (stride | pos) -> candidate stride s p -> p < pos + stride -> p = pos \/ p < pos.
Proof.
  intros [a ->] [_ [b ->]] H. destruct (Z.lt_trichotomy a b) as [?|[->|?]]; [nia|lia|nia].
Qed.

Lemma find_idlest_set_loop_ok fuel p0 pos idlest load :
  (stride | pos) -> 0 <= pos -> last_set s - pos + 1 < Z.of_nat fuel -> (0 < fuel)%nat ->
  idlest_below p0 pos idlest load ->
  exists r load', find_idlest_set_loop fuel loads stride s pos idlest load = Ok r /\
    idlest_below p0 (last_set s + 1) r load'.
Proof using Hwf Hstride Hin.
  revert pos idlest load. induction fuel as [|fuel IH]; intros pos idlest load Hd H0 Hf Hf0 Hi.
  { lia. }
  simpl. rewrite cpuset_find_last_set_ok by done. obind.
  destruct (Z.leb_spec pos (last_set s)).
  2:{ exists idlest, load. split; [done|]. eapply idlest_below_weaken; [done|]. lia. }
  pose proof (last_set_range s) as Hl.
  assert (Hd' : (stride | pos + stride)) by (apply Z.divide_add_r; [done|apply Z.divide_refl]).
  destruct (CPU_ISSET pos s) eqn:Hb; simpl.
  - assert (Hc : candidate stride s pos) by (split; [apply elem_of_cpus; split; [lia|done]|done]).
    pose proof (Hin pos Hc).
    rewrite sum_loads_ok by (apply Forall_seqZ; intros; lia). obind.
    fold (region_load loads stride pos). rewrite Z.add_0_l.
    destruct (Z.ltb_spec (region_load loads stride pos) load).
    + apply IH; [done|lia|lia|lia|]. right. split_and!; [done|done| |].
      * destruct Hi as [(-> & -> & _)|(_ & _ & ? & _)]; lia.
      * intros p Hp Hlt. destruct (candidate_step pos p Hd Hp Hlt) as [->|Hlt']; [lia|].
        destruct Hi as [(_ & -> & Hi)|(_ & -> & _ & Hi)]; specialize (Hi p Hp Hlt'); lia.
    + apply IH; [done|lia|lia|lia|].
      destruct Hi as [(-> & -> & Hi)|(Hci & -> & Hm & Hi)]; [left|right]; split_and!; try done.
      * intros p Hp Hlt. destruct (candidate_step pos p Hd Hp Hlt) as [->|]; [lia|by apply Hi].
      * intros p Hp Hlt. destruct (candidate_step pos p Hd Hp Hlt) as [->|]; [lia|by apply Hi].
  - apply IH; [done|lia|lia|lia|]. eapply idlest_below_weaken; [done|].
    intros p Hp Hlt. destruct (candidate_step pos p Hd Hp Hlt) as [->|]; [|done].
    destruct Hp as [[_ Hp]%elem_of_cpus _]. congruence.
Qed.

(** The region that is found: the candidate with the least load. *)
Lemma find_idlest_set_ok g p1 :
  g_nr_cpus_per_topo g = stride -> candidate stride s p1 ->
  (forall p, candidate stride s p -> region_load loads stride p < INT_MAX) ->
  exists p, find_idlest_set loads g s = Ok (CPU_SET_range p stride CPU_EMPTY) /\
    candidate stride s p /\
    forall q, candidate stride s q -> region_load loads stride p <= region_load loads stride q.
Proof using Hwf Hstride Hin.
  intros Hg Hc1 Hmax. unfold find_idlest_set. rewrite Hg.
  rewrite cpuset_find_first_set_ok by done. obind.
  destruct (Z.eqb_spec stride 0); [lia|].
  assert (Hne : cpus s <> []).
  { destruct Hc1 as [Hc1 _]. intros E. rewrite E in Hc1. by apply not_elem_of_nil in Hc1. }
  pose proof (first_set_in s Hne) as Hfi. apply elem_of_cpus in Hfi as [Hfr _].
  rewrite Z.rem_mod_nonneg by lia.
  set (p0 := first_set s - first_set s mod stride).
  assert (Hp0 : p0 = stride * (first_set s / stride)).
  { unfold p0. pose proof (Z.div_mod (first_set s) stride). lia. }
  assert (0 <= p0) by (rewrite Hp0; apply Z.mul_nonneg_nonneg; [lia|apply Z.div_pos; lia]).
  assert (Hall : forall p, candidate stride s p -> p < last_set s + 1).
  { intros p [Hp _]. pose proof (last_set_ge s p Hp). lia. }
  destruct (find_idlest_set_loop_ok cpu_fuel p0 p0 p0 INT_MAX) as (r & load' & -> & Hi).
  - rewrite Hp0. apply Z.divide_factor_l.
  - done.
  - pose proof (last_set_range s). pose proof cpu_fuel_val. lia.
  - pose proof cpu_fuel_val. unfold CPU_SETSIZE in *. lia.
  - left. split_and!; [done|done|]. intros p [Hp [q ->]] Hlt. exfalso.
    pose proof (first_set_le s _ Hp).
    assert (q < first_set s / stride) by nia.
    assert (stride * (first_set s / stride) <= first_set s) by (apply Z.mul_div_le; lia). nia.
  - obind. rewrite CPU_ZERO_eq by done. exists r. split; [done|].
    destruct Hi as [(_ & _ & Hi)|(Hc & -> & _ & Hi)].
    + specialize (Hi p1 Hc1 (Hall p1 Hc1)). specialize (Hmax p1 Hc1). lia.
    + split; [done|]. intros q Hq. apply Hi; [done|by apply Hall].
Qed.
End idlest_set.

(** ** Regions

    A region is a run of [nr] CPUs that starts at a multiple of [nr]: a CPU, a
    cluster, a NUMA node, a package or the machine, by the group's attribute. *)

Definition bcount (nr : Z) (s : cpu_set_t) (k : Z) : Z :=
  Z.of_nat (length (List.filter (fun i => CPU_ISSET i s) (seqZ (nr * k) nr))).

(** Region [k] has some but not all of its CPUs in [s]. *)
Definition partial (nr : Z) (s : cpu_set_t) (k : Z) : Prop := 0 < bcount nr s k < nr.

Lemma filter_length_full {A} (f : A -> bool) l :
  length (List.filter f l) = length l -> forall x, x ∈ l -> f x = true.
Proof.
  induction l as [|y l IH]; simpl; intros H x Hx; [by apply not_elem_of_nil in Hx|].
  pose proof (filter_length_le f l). destruct (f y) eqn:E; simpl in H; [|lia].
  apply elem_of_cons in Hx as [->|Hx]; [done|]. apply IH; [lia|done].
Qed.

Lemma filter_length_empty {A} (f : A -> bool) l :
  length (List.filter f l) = 0%nat -> forall x, x ∈ l -> f x = false.
Proof.
  induction l as [|y l IH]; simpl; intros H x Hx; [by apply not_elem_of_nil in Hx|].
  destruct (f y) eqn:E; simpl in H; [lia|].
  apply elem_of_cons in Hx as [->|Hx]; [done|]. by apply IH.
Qed.

Lemma bcount_range nr s k : 0 <= nr -> 0 <= bcount nr s k <= nr.
Proof.
  intros. unfold bcount. pose proof (filter_length_le (fun i => CPU_ISSET i s) (seqZ (nr * k) nr)) as H'.
  rewrite length_seqZ in H'. lia.
Qed.

Lemma bcount_full nr s k i :
  bcount nr s k = nr -> nr * k <= i < nr * k + nr -> CPU_ISSET i s = true.
Proof.
  unfold bcount. intros E Hi.
  eapply (filter_length_full (fun i => CPU_ISSET i s)); [|by apply elem_of_seqZ].
  rewrite length_seqZ. lia.
Qed.

Lemma bcount_empty nr s k i :
  bcount nr s k = 0 -> nr * k <= i < nr * k + nr -> CPU_ISSET i s = false.
Proof.
  unfold bcount. intros E Hi.
  eapply (filter_length_empty (fun i => CPU_ISSET i s)); [|by apply elem_of_seqZ]. lia.
Qed.

Lemma bcount_ext nr s s' k :
  (forall i, nr * k <= i < nr * k + nr -> CPU_ISSET i s = CPU_ISSET i s') ->
  bcount nr s k = bcount nr s' k.
Proof.
  intros H. unfold bcount. do 2 f_equal. apply filter_ext_in. intros i Hi.
  rewrite <- list_elem_of_In, elem_of_seqZ in Hi. apply H. lia.
Qed.

(** Every CPU of a region set, resp. clear. *)
Lemma bcount_all nr s k :
  0 <= nr -> (forall i, nr * k <= i < nr * k + nr -> CPU_ISSET i s = true) -> bcount nr s k = nr.
Proof.
  intros H0 H. unfold bcount. rewrite forallb_filter_id.
  - rewrite length_seqZ. lia.
  - apply forallb_forall. intros i Hi. rewrite <- list_elem_of_In, elem_of_seqZ in Hi.
    apply H. lia.
Qed.

Lemma bcount_none nr s k :
  (forall i, nr * k <= i < nr * k + nr -> CPU_ISSET i s = false) -> bcount nr s k = 0.
Proof. intros H. unfold bcount. by rewrite filter_seqZ_false. Qed.

(** A clear and a set CPU make a region partial. *)
Lemma partial_intro nr s k i j :
  0 < nr -> nr * k <= i < nr * k + nr -> nr * k <= j < nr * k + nr ->
  CPU_ISSET i s = true -> CPU_ISSET j s = false -> partial nr s k.
Proof.
  intros Hnr Hi Hj Ei Ej. pose proof (bcount_range nr s k ltac:(lia)). split.
  - destruct (decide (bcount nr s k = 0)) as [E|]; [|lia].
    rewrite (bcount_empty nr s k i) in Ei; done.
  - destruct (decide (bcount nr s k = nr)) as [E|]; [|lia].
    rewrite (bcount_full nr s k j) in Ej; done.
Qed.

(** The count that [find_incomplete_set] takes of a region. *)
Lemma count_region nr s k :
  cpuset_wf s -> 0 <= nr -> 0 <= nr * k -> nr * k + nr <= CPU_SETSIZE ->
  CPU_COUNT (CPU_AND (CPU_SET_range (nr * k) nr CPU_EMPTY) s) = bcount nr s k.
Proof.
  intros Hwf H0 Hk Hn. rewrite CPU_COUNT_cpus by auto with wayca.
  unfold bcount. f_equal. f_equal. rewrite cpus_eq.
  replace CPU_SETSIZE with (nr * k + (nr + (CPU_SETSIZE - nr * k - nr))) by lia.
  rewrite !seqZ_app, !List.filter_app by lia. rewrite Z.add_0_l.
  assert (E : forall i, 0 <= i < CPU_SETSIZE ->
    CPU_ISSET i (CPU_AND (CPU_SET_range (nr * k) nr CPU_EMPTY) s) =
    (nr * k <=? i) && (i <? nr * k + nr) && CPU_ISSET i s).
  { intros i Hi. autorewrite with isset. by rewrite orb_false_r. }
  rewrite (filter_seqZ_false _ 0), (filter_seqZ_false _ (nr * k + nr)).
  - rewrite app_nil_r. apply filter_ext_in. intros i Hi.
    rewrite <- list_elem_of_In, elem_of_seqZ in Hi. rewrite E by lia.
    destruct (Z.leb_spec (nr * k) i), (Z.ltb_spec i (nr * k + nr)); try lia. done.
  - intros i Hi. rewrite E by lia. destruct (Z.ltb_spec i (nr * k + nr)); [lia|].
    by rewrite andb_false_r.
  - intros i Hi. rewrite E by lia. by destruct (Z.leb_spec (nr * k) i); [lia|].
Qed.

(** A set that lives in the first [m] regions is counted region by region. *)
Lemma count_regions nr m s :
  cpuset_wf s -> 0 < nr -> 0 <= m -> nr * m <= CPU_SETSIZE ->
  (forall i, i ∈ cpus s -> i < nr * m) ->
  CPU_COUNT s = sumZ (map (bcount nr s) (seqZ 0 m)).
Proof.
  intros Hwf Hnr Hm Hn Hin. rewrite CPU_COUNT_cpus, cpus_eq by done.
  replace CPU_SETSIZE with (nr * m + (CPU_SETSIZE - nr * m)) by lia.
  rewrite seqZ_app, List.filter_app by lia.
  rewrite (filter_seqZ_false _ (0 + nr * m)).
  2:{ intros i Hi. destruct (CPU_ISSET i s) eqn:E; [|done].
      pose proof (Hin i) as H. rewrite elem_of_cpus in H. specialize (H ltac:(split; [lia|done])). lia. }
  rewrite app_nil_r. clear Hn Hin. revert m Hm. apply natlike_ind; [by rewrite Z.mul_0_r|].
  intros m Hm IH. rewrite <- Z.add_1_r, seqZ_snoc, map_app, sumZ_app, <- IH by lia.
  rewrite Z.mul_add_distr_l, Z.mul_1_r, seqZ_app, List.filter_app, length_app by nia.
  unfold bcount. cbn [map sumZ]. rewrite !Z.add_0_l. lia.
Qed.

Lemma sum_mod_zero nr (f : Z -> Z) l :
  0 < nr -> (forall k, k ∈ l -> f k mod nr = 0) -> sumZ (map f l) mod nr = 0.
Proof.
  intros Hnr. induction l as [|x l IH]; intros H; [by rewrite Z.mod_0_l by lia|].
  simpl. rewrite Z.add_mod, H, IH by (set_solver || lia). by rewrite Z.mod_0_l by lia.
Qed.

Lemma sum_mod_one nr (f : Z -> Z) l k0 :
  0 < nr -> NoDup l -> k0 ∈ l ->
  (forall k, k ∈ l -> k <> k0 -> f k mod nr = 0) ->
  sumZ (map f l) mod nr = f k0 mod nr.
Proof.
  intros Hnr Hnd. induction Hnd as [|x l Hx Hnd IH]; intros Hk H; [by apply not_elem_of_nil in Hk|].
  simpl. rewrite Z.add_mod by lia. apply elem_of_cons in Hk as [->|Hk].
  - rewrite sum_mod_zero by (lia || (intros; apply H; set_solver)).
    by rewrite Z.add_0_r, Z.mod_mod by lia.
  - rewrite IH by set_solver. rewrite (H x) by set_solver.
    by rewrite Z.add_0_l, Z.mod_mod by lia.
Qed.

(** With at most one partial region, the count tells whether there is one. *)
Lemma count_partial nr m s :
  cpuset_wf s -> 0 < nr -> 0 <= m -> nr * m <= CPU_SETSIZE ->
  (forall i, i ∈ cpus s -> i < nr * m) ->
  (forall k k', 0 <= k < m -> 0 <= k' < m -> partial nr s k -> partial nr s k' -> k = k') ->
  Z.rem (CPU_COUNT s) nr <> 0 <-> exists k, 0 <= k < m /\ partial nr s k.
Proof.
  intros Hwf Hnr Hm Hn Hin Huniq.
  assert (Hmod : forall k, ~ partial nr s k -> bcount nr s k mod nr = 0).
  { intros k Hk. pose proof (bcount_range nr s k ltac:(lia)). unfold partial in Hk.
    assert (bcount nr s k = 0 \/ bcount nr s k = nr) as [-> | ->] by lia;
      [by rewrite Z.mod_0_l by lia|by apply Z.mod_same; lia]. }
  rewrite Z.rem_mod_nonneg by (lia || (rewrite CPU_COUNT_cpus by done; lia)).
  rewrite (count_regions nr m s) by done. split.
  - intros Hne. destruct (decide (Exists (fun k => 0 < bcount nr s k < nr) (seqZ 0 m))) as [He|He].
    + apply Exists_exists in He as (k & Hk & Hp). apply elem_of_seqZ in Hk.
      exists k. split; [lia|done].
    + destruct Hne. apply sum_mod_zero; [done|]. intros k Hk. apply Hmod. intros Hp.
      apply He, Exists_exists. eauto.
  - intros (k & Hk & Hp). rewrite (sum_mod_one nr _ _ k); try done.
    + rewrite Z.mod_small by (unfold partial in Hp; lia). unfold partial in Hp. lia.
    + apply NoDup_seqZ.
    + apply elem_of_seqZ. lia.
    + intros k' Hk' Hne. apply Hmod. intros Hp'. apply elem_of_seqZ in Hk'.
      apply Hne. by apply Huniq; (lia || done).
Qed.

(** [find_incomplete_set] finds the partial region. *)
Lemma find_incomplete_set_loop_ok nr m total s k0 fuel k :
  cpuset_wf total -> cpuset_wf s -> 0 < nr -> nr * m <= CPU_SETSIZE ->
  last_set total < nr * m -> 0 <= k <= k0 -> nr * k0 <= last_set total ->
  partial nr s k0 -> (forall k', 0 <= k' < m -> partial nr s k' -> k' = k0) ->
  last_set total - nr * k + 1 < Z.of_nat fuel ->
  find_incomplete_set_loop fuel nr total s (nr * k) = Ok (nr * k0).
Proof.
  intros Ht Hs Hnr Hm Hlast Hk Hk0 Hp Hu. revert k Hk.
  induction fuel as [|fuel IH]; intros k Hk Hf; [nia|].
  simpl. rewrite cpuset_find_last_set_ok by done. obind.
  destruct (Z.leb_spec (nr * k) (last_set total)); [|nia].
  assert (k < m) by nia. rewrite count_region by (done || nia).
  destruct (decide (k = k0)) as [->|Hne].
  - destruct (Z.eqb_spec (bcount nr s k0) nr), (Z.eqb_spec (bcount nr s k0) 0);
      simpl; unfold partial in Hp; (done || lia).
  - assert (Hn : ~ partial nr s k) by (intros Hp'; apply Hne, Hu; [lia|done]).
    pose proof (bcount_range nr s k ltac:(lia)). unfold partial in Hn.
    replace (negb (bcount nr s k =? nr) && negb (bcount nr s k =? 0)) with false.
    2:{ destruct (Z.eqb_spec (bcount nr s k) nr), (Z.eqb_spec (bcount nr s k) 0); simpl; lia. }
    replace (nr * k + nr) with (nr * (k + 1)) by lia. apply IH; [lia|nia].
Qed.

Lemma next_available_ok n s p :
  (exists i, p <= i < p + Z.of_nat n /\ CPU_ISSET i s = true) ->
  let r := next_available n s p in
  p <= r < p + Z.of_nat n /\ CPU_ISSET r s = true /\
  (forall i, p <= i < r -> CPU_ISSET i s = false).
Proof.
  revert p. induction n as [|n IH]; intros p (i & Hi & Hb); [lia|]. simpl.
  destruct (CPU_ISSET p s) eqn:E; simpl.
  - split; [lia|]. split; [done|lia].
  - destruct (IH (p + 1)) as (Hr & Hbr & Hmin).
    { exists i. split; [|done]. destruct (decide (i = p)); [congruence|lia]. }
    split; [lia|]. split; [done|]. intros j Hj.
    destruct (decide (j = p)) as [->|]; [done|]. apply Hmin. lia.
Qed.

(** ** Well-formed groups *)

Definition compact (g : wayca_sc_group) : bool := has_flag (g_attribute g) WT_GF_COMPACT.
Definition percpu (g : wayca_sc_group) : bool := has_flag (g_attribute g) WT_GF_PERCPU.

(** [i] is in the region of [p]. *)
Definition in_region (nr p i : Z) : bool := i / nr =? p / nr.

(** The CPUs that a thread placed on [p] is bound to, and those it marks. *)
Definition binds (g : wayca_sc_group) (p i : Z) : bool :=
  if percpu g then i =? p else in_region (g_nr_cpus_per_topo g) p i.
Definition marks (g : wayca_sc_group) (p i : Z) : bool :=
  if compact g then i =? p else in_region (g_nr_cpus_per_topo g) p i.

(** The accounting of a group on a machine of [n] CPUs: the group owns whole
    regions, some of its CPUs are free, and the free CPUs of all regions but one
    (none in a group that is not compact) form whole regions. *)
Record group_ok (n : Z) (g : wayca_sc_group) : Prop := {
  go_nr : 0 < g_nr_cpus_per_topo g;
  go_div : (g_nr_cpus_per_topo g | n);
  go_n : 0 < n <= CPU_SETSIZE;
  go_total_wf : cpuset_wf (g_total g);
  go_used_wf : cpuset_wf (g_used g);
  go_total_n : forall i, 0 <= i < CPU_SETSIZE -> CPU_ISSET i (g_total g) = true -> i < n;
  go_total_regions : forall i j, 0 <= i < CPU_SETSIZE -> 0 <= j < CPU_SETSIZE ->
    in_region (g_nr_cpus_per_topo g) i j = true ->
    CPU_ISSET i (g_total g) = true -> CPU_ISSET j (g_total g) = true;
  go_used_total : forall i, 0 <= i < CPU_SETSIZE ->
    CPU_ISSET i (g_used g) = true -> CPU_ISSET i (g_total g) = true;
  go_free : g_used g <> g_total g;
  go_partial : forall k k', 0 <= k < n / g_nr_cpus_per_topo g -> 0 <= k' < n / g_nr_cpus_per_topo g ->
    partial (g_nr_cpus_per_topo g) (available g) k ->
    partial (g_nr_cpus_per_topo g) (available g) k' -> k = k';
  go_scatter : compact g = false ->
    forall k, 0 <= k < n / g_nr_cpus_per_topo g -> ~ partial (g_nr_cpus_per_topo g) (available g) k;
}.

(** The load array covers the machine and no region is overloaded: the search
    starts from [INT_MAX]. *)
Definition loads_ok (n : Z) (g : wayca_sc_group) (loads : list Z) : Prop :=
  Z.of_nat (length loads) = n /\
  forall k, 0 <= k -> region_load loads (g_nr_cpus_per_topo g) (g_nr_cpus_per_topo g * k) < INT_MAX.

Lemma available_wf g :
  cpuset_wf (g_total g) -> cpuset_wf (g_used g) -> cpuset_wf (available g).
Proof. unfold available. auto with wayca. Qed.

Lemma CPU_ISSET_available g i :
  cpuset_wf (g_total g) -> cpuset_wf (g_used g) -> 0 <= i < CPU_SETSIZE ->
  CPU_ISSET i (available g) = negb (CPU_ISSET i (g_used g)) && CPU_ISSET i (g_total g).
Proof.
  intros. unfold available. autorewrite with isset. by rewrite xorb_true_l.
Qed.

#[export] Hint Resolve available_wf : wayca.

Lemma in_region_iff nr p i :
  0 < nr -> in_region nr p i = true <-> nr * (p / nr) <= i < nr * (p / nr) + nr.
Proof.
  intros. unfold in_region. rewrite Z.eqb_eq. split; [intros <-; zdm|intros].
  symmetry. apply (Z.div_unique_pos _ _ _ (i - nr * (p / nr))); lia.
Qed.

Section group_ok.
Context (n : Z) (g : wayca_sc_group) (Hok : group_ok n g).
Abbreviation nr := (g_nr_cpus_per_topo g).

Lemma region_bound p : 0 <= p < n -> 0 <= nr * (p / nr) /\ nr * (p / nr) + nr <= n.
Proof using Hok.
  intros Hp. pose proof (go_nr _ _ Hok). destruct (go_div _ _ Hok) as [m Hm].
  assert (0 <= p / nr) by (apply Z.div_pos; lia).
  assert (p / nr < m) by (apply Z.div_lt_upper_bound; lia). nia.
Qed.

(** Some CPU is free. *)
Lemma available_ne : exists i, 0 <= i < n /\ CPU_ISSET i (available g) = true.
Proof using Hok.
  destruct Hok as [? ? ? Ht Hu Hn _ Hut Hfree _ _].
  destruct (decide (cpus (available g) = [])) as [E|Hne].
  - destruct Hfree. apply cpu_set_ext; [done|done|]. intros i Hi.
    assert (Ha : CPU_ISSET i (available g) = false).
    { apply (cpus_nil _ (available_wf g Ht Hu)) in E. rewrite E. by apply CPU_ISSET_EMPTY. }
    rewrite CPU_ISSET_available in Ha by done.
    pose proof (Hut i Hi). destruct (CPU_ISSET i (g_used g)), (CPU_ISSET i (g_total g));
      try done. symmetry; auto.
  - pose proof (first_set_in _ Hne) as Hin. apply elem_of_cpus in Hin as [Hr Hb].
    exists (first_set (available g)). split; [|done].
    rewrite CPU_ISSET_available in Hb by done. zbool. split; [lia|]. by apply Hn.
Qed.

Lemma available_lt i : 0 <= i < CPU_SETSIZE -> CPU_ISSET i (available g) = true -> i < n.
Proof using Hok.
  intros Hi Hb. destruct Hok as [? ? ? Ht Hu Hn _ _ _ _ _].
  rewrite CPU_ISSET_available in Hb by done. zbool. by apply Hn.
Qed.

(** A region that is not partial and has a free CPU is free. *)
Lemma free_region p :
  0 <= p < n -> CPU_ISSET p (available g) = true -> ~ partial nr (available g) (p / nr) ->
  forall i, in_region nr p i = true -> CPU_ISSET i (available g) = true.
Proof using Hok.
  intros Hp Hb Hnp i Hi. pose proof (go_nr _ _ Hok). rewrite in_region_iff in Hi by done.
  destruct (CPU_ISSET i (available g)) eqn:E; [done|]. destruct Hnp.
  eapply (partial_intro nr _ _ p i); try done. zdm.
Qed.

(** ** The choice of the CPU *)

Lemma region_range p : 0 <= p < n -> 0 <= p / nr < n / nr.
Proof using Hok.
  intros Hp. pose proof (go_nr _ _ Hok). destruct (go_div _ _ Hok) as [m Hm].
  rewrite Hm, Z.div_mul by lia. split; [apply Z.div_pos; lia|].
  apply Z.div_lt_upper_bound; lia.
Qed.

Lemma partial_member k :
  0 < nr -> partial nr (available g) k ->
  exists i, nr * k <= i < nr * k + nr /\ CPU_ISSET i (available g) = true.
Proof using.
  intros Hnr Hp.
  destruct (decide (Exists (fun i => CPU_ISSET i (available g) = true) (seqZ (nr * k) nr)))
    as [He|He].
  - apply Exists_exists in He as (i & Hi & Hb). apply elem_of_seqZ in Hi. eauto.
  - exfalso. unfold partial in Hp. rewrite (bcount_none nr _ k) in Hp; [lia|].
    intros i Hi. destruct (CPU_ISSET i (available g)) eqn:E; [|done].
    destruct He. apply Exists_exists. exists i. split; [apply elem_of_seqZ; lia|done].
Qed.

(** The region of a CPU of the group belongs to the group. *)
Lemma total_region i j :
  0 <= i < n -> in_region nr i j = true -> i ∈ cpus (g_total g) -> j ∈ cpus (g_total g).
Proof using Hok.
  intros Hi Hr [Hi' Hb]%elem_of_cpus. apply elem_of_cpus.
  pose proof (go_nr _ _ Hok) as Hnr. pose proof (go_n _ _ Hok).
  pose proof (region_bound i Hi). pose proof Hr as Hr'. rewrite in_region_iff in Hr' by done.
  split; [lia|]. apply (go_total_regions _ _ Hok i j); (lia || done).
Qed.

Lemma first_total :
  cpus (g_total g) <> [] ->
  first_set (g_total g) = nr * (first_set (g_total g) / nr).
Proof using Hok.
  intros Hne. pose proof (go_nr _ _ Hok) as Hnr. pose proof (first_set_in _ Hne) as Hf.
  pose proof Hf as Hf'. apply elem_of_cpus in Hf' as [Hr Hb].
  pose proof (go_total_n _ _ Hok _ Hr Hb).
  set (f := first_set (g_total g)) in *.
  assert (Hin : nr * (f / nr) ∈ cpus (g_total g)).
  { apply (total_region f); [lia| |done]. rewrite in_region_iff by done. lia. }
  pose proof (first_set_le _ _ Hin) as Hle. fold f in Hle. zdm.
Qed.

Lemma available_total i : 0 <= i < n -> CPU_ISSET i (available g) = true -> i ∈ cpus (g_total g).
Proof using Hok.
  intros Hi Hb. pose proof (go_n _ _ Hok). apply elem_of_cpus. split; [lia|].
  rewrite CPU_ISSET_available in Hb by (apply Hok || lia). by zbool.
Qed.

(** The test that decides how the CPU is looked for. *)
Lemma incomplete_test :
  Z.rem (CPU_COUNT (available g)) nr <> 0 <->
  exists k, 0 <= k < n / nr /\ partial nr (available g) k.
Proof using Hok.
  pose proof Hok as [Hnr [m Hm] Hn Ht Hu _ _ _ _ Hpart _].
  assert (E : n / nr = m) by (rewrite Hm; apply Z.div_mul; lia).
  assert (0 <= m) by (rewrite <- E; apply Z.div_pos; lia). rewrite E in *.
  apply count_partial; try done; try lia; auto with wayca.
  - intros j [Hj1 Hj2]%elem_of_cpus. pose proof (available_lt j Hj1 Hj2). lia.
Qed.

Lemma choose_target_incomplete loads k0 :
  compact g = true -> 0 <= k0 < n / nr -> partial nr (available g) k0 ->
  exists p, choose_target loads g = Ok p /\ 0 <= p < n /\ p / nr = k0 /\
    CPU_ISSET p (available g) = true /\
    forall i, nr * k0 <= i < p -> CPU_ISSET i (available g) = false.
Proof using Hok.
  intros Hc Hk0 Hp. pose proof Hok as [Hnr [m Hm] Hn Ht Hu Htn _ _ _ Hpart _].
  assert (E : n / nr = m) by (rewrite Hm; apply Z.div_mul; lia).
  destruct (partial_member k0 Hnr Hp) as (i & Hi & Hb).
  assert (Hin : 0 <= i < n) by nia.
  pose proof (available_total i Hin Hb) as Hit.
  assert (Hne : cpus (g_total g) <> []) by (intros E'; rewrite E' in Hit; set_solver).
  assert (Hik : i / nr = k0) by (symmetry; apply (Z.div_unique_pos _ _ _ (i - nr * k0)); lia).
  assert (Hk0t : nr * k0 ∈ cpus (g_total g)).
  { apply (total_region i); [done| |done]. rewrite in_region_iff, Hik by done. lia. }
  pose proof (last_set_ge _ _ Hk0t). pose proof (first_set_le _ _ Hit).
  pose proof (first_set_in _ Hne) as Hf. apply elem_of_cpus in Hf as [Hf _].
  pose proof (last_set_in _ Hne) as Hl. apply elem_of_cpus in Hl as [Hl1 Hl2].
  pose proof (Htn _ Hl1 Hl2).
  assert (Htest : Z.rem (CPU_COUNT (available g)) nr <> 0) by (apply incomplete_test; eauto).
  unfold choose_target. destruct (Z.eqb_spec nr 0); [lia|].
  destruct (Z.eqb_spec (Z.rem (CPU_COUNT (available g)) nr) 0); [done|].
  fold (compact g). rewrite Hc. cbn [andb negb].
  unfold find_incomplete_set. rewrite cpuset_find_first_set_ok by done. obind.
  rewrite (first_total Hne).
  rewrite (find_incomplete_set_loop_ok nr m _ _ k0); try done; auto with wayca.
  - obind. destruct (next_available_ok (Z.to_nat nr) (available g) (nr * k0)) as (Hr & Hrb & Hlow).
    { exists i. split; [lia|done]. }
    set (r := next_available _ _ _) in *. exists r. split; [done|].
    split; [nia|]. split; [|by split].
    symmetry; apply (Z.div_unique_pos _ _ _ (r - nr * k0)); lia.
  - nia.
  - nia.
  - split; [apply Z.div_pos; lia|]. rewrite <- Hik. apply Z.div_le_mono; lia.
  - intros k' Hk' Hp'. apply Hpart; (lia || done).
  - pose proof cpu_fuel_val. rewrite <- (first_total Hne). lia.
Qed.

(** No region is partly free: the idlest free region is searched, and the
    idlest CPU of it. *)
Lemma choose_target_idlest loads :
  loads_ok n g loads ->
  (forall k, 0 <= k < n / nr -> ~ partial nr (available g) k) ->
  exists p, choose_target loads g = Ok p /\ 0 <= p < n /\
    CPU_ISSET p (available g) = true /\
    (forall i, in_region nr p i = true -> load_of loads p <= load_of loads i) /\
    (forall i, 0 <= i < n -> CPU_ISSET i (available g) = true ->
       region_load loads nr (nr * (p / nr)) <= region_load loads nr (nr * (i / nr))).
Proof using Hok.
  intros [Hlen Hmax] Hnp. pose proof Hok as [Hnr Hdiv Hn Ht Hu Htn _ _ _ _ _].
  assert (Hwa : cpuset_wf (available g)) by auto with wayca.
  assert (Hcand : forall p, candidate nr (available g) p ->
            0 <= p < n /\ p = nr * (p / nr) /\ p + nr <= n).
  { intros p [[Hp Hb]%elem_of_cpus [q ->]]. pose proof (available_lt _ Hp Hb).
    pose proof (region_bound (q * nr)). rewrite Z.div_mul in * by lia. lia. }
  assert (Hreg : forall i, 0 <= i < n -> CPU_ISSET i (available g) = true ->
            candidate nr (available g) (nr * (i / nr))).
  { intros i Hi Hb. split; [|apply Z.divide_factor_l]. pose proof (region_bound i Hi).
    apply elem_of_cpus. split; [lia|].
    apply (free_region i); try done; [apply Hnp, region_range; lia|].
    rewrite in_region_iff by done. lia. }
  destruct available_ne as (a & Ha & Hab).
  destruct (find_idlest_set_ok loads nr (available g) Hwa Hnr) with (g := g) (p1 := nr * (a / nr))
    as (q & Hq & Hqc & Hqmin); try done; auto.
  { intros p Hp. destruct (Hcand p Hp) as (_ & _ & ?). lia. }
  { intros p Hp. destruct (Hcand p Hp) as (? & -> & _). apply Hmax. apply Z.div_pos; lia. }
  destruct (Hcand q Hqc) as (Hq0 & Hqe & Hqn).
  assert (Hcq : cpus (CPU_SET_range q nr CPU_EMPTY) = seqZ q nr) by (apply cpus_range; lia).
  destruct (find_idlest_core_ok loads (CPU_SET_range q nr CPU_EMPTY)) as (p & Hp & Hpin & Hpmin);
    auto with wayca.
  { rewrite Hcq. apply Forall_seqZ. intros; lia. }
  { rewrite Hcq. rewrite seqZ_cons by lia. done. }
  rewrite Hcq in Hpin, Hpmin. apply elem_of_seqZ in Hpin.
  assert (Hpq : p / nr = q / nr) by (symmetry; apply (Z.div_unique_pos _ _ _ (p - q)); lia).
  exists p. split; [|split; [lia|split; [|split]]].
  - unfold choose_target. destruct (Z.eqb_spec nr 0); [lia|].
    destruct (Z.eqb_spec (Z.rem (CPU_COUNT (available g)) nr) 0) as [|Hne].
    + cbn [negb andb]. rewrite Hq. by obind.
    + apply incomplete_test in Hne as (k & Hk & Hkp). by destruct (Hnp k Hk).
  - destruct Hqc as [[? Hqb]%elem_of_cpus _].
    apply (free_region q); try done; [apply Hnp, region_range; lia|].
    rewrite in_region_iff by done. lia.
  - intros i Hi. rewrite in_region_iff, Hpq in Hi by done. apply Hpmin, elem_of_seqZ. lia.
  - intros i Hi Hb. rewrite Hpq, <- Hqe. by apply Hqmin, Hreg.
Qed.

Lemma partial_dec :
  {forall k, 0 <= k < n / nr -> ~ partial nr (available g) k} +
  {exists k, 0 <= k < n / nr /\ partial nr (available g) k}.
Proof using.
  destruct (decide (Exists (fun k => 0 < bcount nr (available g) k < nr) (seqZ 0 (n / nr))))
    as [He|He].
  - right. apply Exists_exists in He as (k & Hk & Hp). apply elem_of_seqZ in Hk.
    exists k. split; [lia|done].
  - left. intros k Hk Hp. apply He, Exists_exists. exists k.
    split; [apply elem_of_seqZ; lia|done].
Qed.

(** The CPU chosen is free, and so is its whole region unless the group is
    compact and had a partly used region. *)
Lemma choose_target_ok loads :
  loads_ok n g loads ->
  exists p, choose_target loads g = Ok p /\ 0 <= p < n /\
    CPU_ISSET p (available g) = true /\
    (forall k, 0 <= k < n / nr -> partial nr (available g) k -> k = p / nr).
Proof using Hok.
  intros Hl. destruct partial_dec as [Hnp|(k & Hk & Hp)].
  - destruct (choose_target_idlest loads Hl Hnp) as (p & ? & ? & ? & _).
    exists p. split; [done|]. split; [done|]. split; [done|].
    intros k Hk Hp. by destruct (Hnp k Hk).
  - destruct (compact g) eqn:Hc; [|by destruct (go_scatter _ _ Hok Hc k Hk)].
    destruct (choose_target_incomplete loads k Hc Hk Hp) as (p & ? & ? & Hpk & ? & _).
    exists p. split; [done|]. split; [done|]. split; [done|].
    intros k' Hk' Hp'. rewrite Hpk. by apply (go_partial _ _ Hok).
Qed.
End group_ok.
