(* ===== verification/Accounting.v ===== *)
(** * The accounting of a group

    What [assign_thread_resource] and [release_thread] do to a group, stated on
    the occupancy of its CPUs: the number of threads that mark a CPU. A group
    stores the occupancies as a round number ([roll_over_cnts]) and the set of
    the CPUs that are one ahead ([used]). *)

From S2P Require Import Prelude Bitops Cpuset State Group Placement.

Definition occupancy (g : wayca_sc_group) (c : Z) : Z :=
  g_roll_over_cnts g + Z.b2z (CPU_ISSET c (g_used g)).

(** The group after its accounting changed and nothing else. *)
Definition with_account (g : wayca_sc_group) (used : cpu_set_t) (rounds : Z)
    : wayca_sc_group :=
  set_g_roll_over_cnts rounds (set_g_used used g).

Lemma marks_self g p : 0 < g_nr_cpus_per_topo g -> marks g p p = true.
Proof.
  intros. unfold marks, in_region. destruct (compact g); apply Z.eqb_refl.
Qed.

Section assign.
Context (n : Z) (g : wayca_sc_group) (Hok : group_ok n g).
Abbreviation nr := (g_nr_cpus_per_topo g).

Lemma anchor_eq p : 0 <= p < n -> p - Z.rem p nr = nr * (p / nr).
Proof using Hok.
  intros. pose proof (go_nr _ _ Hok). rewrite Z.rem_mod_nonneg by lia. zdm.
Qed.

Lemma region_bits p i s :
  0 <= p < n -> 0 <= i < CPU_SETSIZE -> cpuset_wf s ->
  CPU_ISSET i (CPU_SET_range (p - Z.rem p nr) nr s) = in_region nr p i || CPU_ISSET i s.
Proof using Hok.
  intros Hp Hi Hs. rewrite anchor_eq by done. pose proof (region_bound n g Hok p Hp).
  pose proof (go_nr _ _ Hok). pose proof (go_n _ _ Hok).
  rewrite CPU_ISSET_range_SET by (done || lia). f_equal.
  apply Bool.eq_iff_eq_true. rewrite in_region_iff, andb_true_iff by done. lia.
Qed.

Lemma thread_set_wf p : cpuset_wf (thread_set g p).
Proof using. unfold thread_set. destruct (has_flag _ _); auto with wayca. Qed.

Lemma thread_set_bits p i :
  0 <= p < n -> 0 <= i < CPU_SETSIZE -> CPU_ISSET i (thread_set g p) = binds g p i.
Proof using Hok.
  intros Hp Hi. pose proof (go_n _ _ Hok). unfold thread_set, binds, percpu.
  destruct (has_flag _ _).
  - autorewrite with isset. apply orb_false_r.
  - rewrite region_bits by auto with wayca. autorewrite with isset. apply orb_false_r.
Qed.

Lemma mark_used_wf p s : cpuset_wf s -> cpuset_wf (mark_used g p s).
Proof using Hok.
  intros. pose proof (go_used_wf _ _ Hok). unfold mark_used.
  destruct (has_flag _ _); [|destruct (has_flag _ _)]; auto with wayca.
Qed.

Lemma mark_used_bits p i :
  0 <= p < n -> 0 <= i < CPU_SETSIZE ->
  CPU_ISSET i (mark_used g p (thread_set g p)) = marks g p i || CPU_ISSET i (g_used g).
Proof using Hok.
  intros Hp Hi. pose proof (go_n _ _ Hok). pose proof (go_used_wf _ _ Hok).
  pose proof (thread_set_wf p).
  unfold mark_used, marks, compact. destruct (has_flag _ WT_GF_COMPACT).
  - by autorewrite with isset.
  - destruct (has_flag _ WT_GF_PERCPU) eqn:E.
    + by rewrite region_bits.
    + rewrite CPU_ISSET_OR, thread_set_bits by done. unfold binds, percpu. rewrite E.
      apply orb_comm.
Qed.

(** Every CPU that a placement on [p] marks is a free CPU of the group. *)
Lemma marks_free p :
  0 <= p < n -> CPU_ISSET p (available g) = true ->
  forall i, marks g p i = true -> 0 <= i < n /\ CPU_ISSET i (available g) = true.
Proof using Hok.
  intros Hp Hb i. unfold marks. destruct (compact g) eqn:Hc.
  - intros ->%Z.eqb_eq. done.
  - intros Hi. pose proof Hi as Hi'. rewrite in_region_iff in Hi' by apply Hok.
    pose proof (region_bound n g Hok p Hp). split; [lia|].
    apply (free_region n g Hok p); try done.
    apply (go_scatter _ _ Hok Hc), (region_range n g Hok). done.
Qed.

(** The set of used CPUs once the placement is recorded. *)
Abbreviation used' p := (mark_used g p (thread_set g p)).

Lemma available_after p rounds i :
  0 <= p < n -> 0 <= i < CPU_SETSIZE ->
  CPU_ISSET i (available (with_account g (used' p) rounds)) =
  negb (marks g p i) && CPU_ISSET i (available g).
Proof using Hok.
  intros Hp Hi. pose proof (thread_set_wf p). pose proof (mark_used_wf p (thread_set g p)).
  pose proof (go_used_wf _ _ Hok). pose proof (go_total_wf _ _ Hok).
  rewrite !CPU_ISSET_available by auto.
  unfold with_account; cbn [g_used g_total set_g_used set_g_roll_over_cnts].
  rewrite mark_used_bits, negb_orb by done. by rewrite andb_assoc.
Qed.

(** Outside the region of [p] nothing changes. *)
Lemma bcount_after p rounds k :
  0 <= p < n -> 0 <= k < n / nr -> k <> p / nr ->
  bcount nr (available (with_account g (used' p) rounds)) k = bcount nr (available g) k.
Proof using Hok.
  intros Hp Hk Hne. apply bcount_ext. intros i Hi.
  pose proof Hok as [Hnr [m Hm] Hn _ _ _ _ _ _ _ _].
  assert (n / nr = m) by (rewrite Hm; apply Z.div_mul; lia).
  rewrite available_after by (done || nia).
  assert (Hik : i / nr = k) by (symmetry; apply (Z.div_unique_pos _ _ _ (i - nr * k)); lia).
  assert (Hf : marks g p i = false).
  { unfold marks, in_region. destruct (compact g); apply Z.eqb_neq; [intros ->|]; lia. }
  by rewrite Hf.
Qed.

(** The accounting stays well formed when a free CPU is left... *)
Lemma group_ok_mark p :
  0 <= p < n -> CPU_ISSET p (available g) = true ->
  (forall k, 0 <= k < n / nr -> partial nr (available g) k -> k = p / nr) ->
  used' p <> g_total g -> group_ok n (with_account g (used' p) (g_roll_over_cnts g)).
Proof using Hok.
  intros Hp Hb Hpart Hne.
  set (g' := with_account g (used' p) (g_roll_over_cnts g)).
  assert (Hother : forall k, 0 <= k < n / nr -> partial nr (available g') k -> k = p / nr).
  { intros k Hk Hkp. destruct (decide (k = p / nr)) as [|Hne']; [done|].
    apply Hpart; [done|]. unfold partial in *. by rewrite <- (bcount_after p (g_roll_over_cnts g)). }
  pose proof Hok as [? ? ? ? ? ? ? Hut ? ? ?].
  constructor; try done.
  - by apply mark_used_wf, thread_set_wf.
  - intros i Hi. unfold g'; cbn. rewrite mark_used_bits by done.
    intros [Hm|Hu]%orb_true_iff; [|by apply Hut].
    destruct (marks_free p Hp Hb i Hm) as [_ Ha].
    rewrite CPU_ISSET_available in Ha by done. by zbool.
  - intros k k' Hk Hk' Hkp Hkp'. rewrite (Hother k), (Hother k') by done. done.
  - intros Hc k Hk Hkp. change (compact g = false) in Hc. change (0 <= k < n / nr) in Hk.
    change (partial nr (available g') k) in Hkp. pose proof (Hother k Hk Hkp) as ->.
    unfold partial in Hkp. rewrite bcount_none in Hkp; [lia|].
    intros i Hi. pose proof (region_bound n g Hok p Hp). unfold g'.
    rewrite available_after by lia. replace (marks g p i) with true; [done|].
    symmetry. unfold marks. rewrite Hc. rewrite in_region_iff by done. lia.
Qed.

(** ...and when the last one was taken and a new round starts. *)
Lemma group_ok_round rounds :
  (exists i, 0 <= i < CPU_SETSIZE /\ CPU_ISSET i (g_total g) = true) ->
  group_ok n (with_account g CPU_EMPTY rounds).
Proof using Hok.
  intros (j & Hj & Hjb). pose proof Hok as [Hnr [m Hm] Hn Ht ? Htn Hreg Hut ? ? ?].
  assert (E : n / nr = m) by (rewrite Hm; apply Z.div_mul; lia).
  assert (Hnp : forall k, 0 <= k < n / nr ->
            ~ partial nr (available (with_account g CPU_EMPTY rounds)) k).
  { intros k Hk Hp. unfold partial in Hp.
    assert (Hav : forall i, nr * k <= i < nr * k + nr ->
      CPU_ISSET i (available (with_account g CPU_EMPTY rounds)) = CPU_ISSET (nr * k) (g_total g)).
    { intros i Hi. rewrite CPU_ISSET_available by (auto with wayca; cbn; auto with wayca; nia).
      cbn. rewrite CPU_ISSET_EMPTY by nia. cbn.
      assert (Hik : i / nr = k) by (symmetry; apply (Z.div_unique_pos _ _ _ (i - nr * k)); lia).
      apply Bool.eq_iff_eq_true. split; apply Hreg; try nia; unfold in_region;
        rewrite Hik, Z.mul_comm, Z.div_mul by lia; apply Z.eqb_refl. }
    destruct (CPU_ISSET (nr * k) (g_total g)) eqn:Eb;
      [rewrite bcount_all in Hp by (lia || done)|rewrite bcount_none in Hp by done]; lia. }
  constructor; try done.
  - by exists m.
  - apply CPU_EMPTY_wf.
  - intros i Hi. cbn. rewrite CPU_ISSET_EMPTY by done. done.
  - cbn. intros Ee. rewrite <- Ee, CPU_ISSET_EMPTY in Hjb by done. done.
  - intros k k' Hk _ Hkp. by destruct (Hnp k Hk).
Qed.
End assign.

(** ** Placing a thread *)

(** The outcome of a placement of [t] on CPU [p]. *)
Record placed (n : Z) (g : wayca_sc_group) (t : wayca_thread) (p : Z)
    (g' : wayca_sc_group) (t' : wayca_thread) : Prop := {
  pl_target : 0 <= p < n;
  pl_thread : t' = set_t_cur_set (thread_set g p)
                     (set_t_allowed_set (thread_set g p) (set_t_target_pos p t));
  pl_binds : forall i, 0 <= i < CPU_SETSIZE -> CPU_ISSET i (t_cur_set t') = binds g p i;
  pl_free : forall i, marks g p i = true ->
    0 <= i < n /\ CPU_ISSET i (g_total g) = true /\ CPU_ISSET i (g_used g) = false;
  pl_group : g' = with_account g (g_used g') (g_roll_over_cnts g');
  pl_occupancy : forall i, 0 <= i < CPU_SETSIZE -> CPU_ISSET i (g_total g) = true ->
    occupancy g' i = occupancy g i + Z.b2z (marks g p i);
  pl_ok : group_ok n g';
  pl_used : g_used g' = CPU_EMPTY /\ g_roll_over_cnts g' = g_roll_over_cnts g + 1 /\
              mark_used g p (thread_set g p) = g_total g \/
            g_used g' = mark_used g p (thread_set g p) /\
              g_roll_over_cnts g' = g_roll_over_cnts g;
}.

Lemma assign_placed n g loads t p :
  group_ok n g -> choose_target loads g = Ok p -> 0 <= p < n ->
  CPU_ISSET p (available g) = true ->
  (forall k, 0 <= k < n / g_nr_cpus_per_topo g ->
     partial (g_nr_cpus_per_topo g) (available g) k -> k = p / g_nr_cpus_per_topo g) ->
  exists g' t', assign_thread_resource loads g t = Ok (g', t') /\ placed n g t p g' t'.
Proof.
  intros Hok Hc Hp Hb Hpart. unfold assign_thread_resource. rewrite Hc. obind.
  pose proof (go_n _ _ Hok). pose proof (go_used_wf _ _ Hok) as Hu. pose proof (go_total_wf _ _ Hok) as Ht.
  rewrite to_ulong_id by (unfold is_word, CPU_SETSIZE in *; lia).
  change (t_allowed_set _) with (thread_set g p). cbn [g_used set_g_used g_total].
  set (t' := set_t_cur_set _ _).
  assert (Hmw : cpuset_wf (mark_used g p (thread_set g p)))
    by (by apply (mark_used_wf n), thread_set_wf).
  assert (Hbinds : forall i, 0 <= i < CPU_SETSIZE -> CPU_ISSET i (t_cur_set t') = binds g p i)
    by (intros; by apply (thread_set_bits n)).
  assert (Hfree : forall i, marks g p i = true -> 0 <= i < n /\ CPU_ISSET i (g_total g) = true /\
            CPU_ISSET i (g_used g) = false).
  { intros i Hi. destruct (marks_free n g Hok p Hp Hb i Hi) as [Hin Hia].
    rewrite CPU_ISSET_available in Hia by (done || lia). by zbool. }
  assert (Hbits : forall i, 0 <= i < CPU_SETSIZE ->
            CPU_ISSET i (mark_used g p (thread_set g p)) = marks g p i || CPU_ISSET i (g_used g))
    by (intros; by apply (mark_used_bits n)).
  assert (Hsum : forall i, 0 <= i < CPU_SETSIZE ->
            Z.b2z (CPU_ISSET i (mark_used g p (thread_set g p))) =
            Z.b2z (CPU_ISSET i (g_used g)) + Z.b2z (marks g p i)).
  { intros i Hi. rewrite Hbits by done. destruct (marks g p i) eqn:E; [|simpl; lia].
    destruct (Hfree i E) as (_ & _ & ->). done. }
  destruct (CPU_EQUAL _ _) eqn:Eq.
  - apply CPU_EQUAL_spec in Eq; [|done|done]. rewrite CPU_ZERO_eq by done.
    eexists _, t'. split; [reflexivity|]. constructor; try done.
    + intros i Hi Hti. unfold occupancy; cbn. rewrite CPU_ISSET_EMPTY by done.
      specialize (Hsum i Hi). rewrite Eq, Hti in Hsum. simpl in *. lia.
    + apply (group_ok_round n g Hok). exists p. split; [lia|].
      apply Hfree, marks_self, Hok.
    + left. split; [done|]. split; done.
  - eexists _, t'. split; [reflexivity|]. constructor; try done.
    + intros i Hi _. unfold occupancy; cbn. rewrite Hsum by done. lia.
    + replace (set_g_used _ g) with
        (with_account g (mark_used g p (thread_set g p)) (g_roll_over_cnts g)) by (by destruct g).
      apply group_ok_mark; try done. intros E.
      rewrite (proj2 (CPU_EQUAL_spec _ _ Hmw Ht) E) in Eq. done.
    + by right.
Qed.

Lemma assign_placed_ok n g loads t :
  group_ok n g -> loads_ok n g loads ->
  exists p g' t', choose_target loads g = Ok p /\
    assign_thread_resource loads g t = Ok (g', t') /\ placed n g t p g' t'.
Proof.
  intros Hok Hl. destruct (choose_target_ok n g Hok loads Hl) as (p & Hc & Hp & Hb & Hpart).
  destruct (assign_placed n g loads t p) as (g' & t' & ? & ?); try done. eauto 10.
Qed.

(** ** Releasing a thread *)

(** What is released: by the thread's own CPU in a compact group of threads
    that share their region, by its allowed set otherwise. *)
Definition releases (g : wayca_sc_group) (p i : Z) : bool :=
  if compact g && negb (percpu g) then i =? p else binds g p i.

(** A thread that was placed on [p] in a group with the attribute of [g]. *)
Record placed_on (g : wayca_sc_group) (p : Z) (t : wayca_thread) : Prop := {
  po_target : t_target_pos t = p;
  po_range : 0 <= p < CPU_SETSIZE;
  po_wf : cpuset_wf (t_allowed_set t);
  po_allowed : forall i, 0 <= i < CPU_SETSIZE -> CPU_ISSET i (t_allowed_set t) = binds g p i;
}.

Lemma placed_placed_on n g t p g' t' : placed n g t p g' t' -> placed_on g' p t'.
Proof.
  intros [Hp -> Hb _ Hg _ Hok _]. pose proof (go_n _ _ Hok). rewrite Hg.
  constructor; cbn; [done|lia|apply thread_set_wf|done].
Qed.

(** The occupancy after a release: right as long as every released CPU is in
    the current round, or the round is complete. *)
Lemma release_occupancy g p t :
  cpuset_wf (g_used g) -> cpuset_wf (g_total g) -> placed_on g p t ->
  (forall i, 0 <= i < CPU_SETSIZE -> releases g p i = true -> CPU_ISSET i (g_total g) = true) ->
  (g_used g = CPU_EMPTY \/
   forall i, 0 <= i < CPU_SETSIZE -> releases g p i = true -> CPU_ISSET i (g_used g) = true) ->
  forall i, 0 <= i < CPU_SETSIZE -> CPU_ISSET i (g_total g) = true ->
    occupancy (release_thread g t) i = occupancy g i - Z.b2z (releases g p i).
Proof.
  intros Hu Ht [Hpt Hp Hpw Hpa] Hrt Hcase i Hi Hti. unfold release_thread, occupancy.
  set (g1 := if CPU_COUNT (g_used g) =? 0 then _ else g).
  assert (Ha : g_attribute g1 = g_attribute g) by (unfold g1; by destruct (_ =? 0)).
  assert (Hw1 : cpuset_wf (g_used g1))
    by (unfold g1; destruct (_ =? 0); cbn; auto with wayca).
  assert (H1 : g_roll_over_cnts g1 + Z.b2z (CPU_ISSET i (g_used g1)) = occupancy g i).
  { unfold g1, occupancy. destruct (Z.eqb_spec (CPU_COUNT (g_used g)) 0) as [E|]; [|done].
    apply CPU_COUNT_zero in E; [|done]. cbn. rewrite CPU_ISSET_OR, Hti, E, CPU_ISSET_EMPTY by done.
    simpl. lia. }
  assert (Hin : releases g p i = true -> CPU_ISSET i (g_used g1) = true).
  { intros Hr. unfold g1. destruct (Z.eqb_spec (CPU_COUNT (g_used g)) 0) as [E|E]; cbn.
    - rewrite CPU_ISSET_OR, Hti by done. apply orb_true_r.
    - destruct Hcase as [He|Hc]; [|by apply Hc]. by apply CPU_COUNT_zero in He. }
  unfold occupancy in H1 |- *. rewrite Ha. rewrite <- H1.
  unfold releases, compact, percpu in *. destruct (_ && _).
  - cbn. rewrite Hpt, CPU_ISSET_CLR by done. destruct (Z.eqb_spec i p); simpl; [|lia].
    rewrite Hin by done. simpl. lia.
  - cbn. rewrite CPU_ISSET_XOR, Hpa by done. destruct (binds g p i); simpl.
    + rewrite Hin by done. simpl. lia.
    + rewrite xorb_false_r. lia.
Qed.

(** In which groups a release gives back what a placement marked. *)
Lemma releases_marks g p i :
  compact g || negb (percpu g) = true -> releases g p i = marks g p i.
Proof.
  unfold releases, marks, binds. destruct (compact g), (percpu g); done.
Qed.

(** The first step of a release undoes the roll-over of the placement. *)
Lemma release_reopens n g t p g' t' :
  group_ok n g -> placed n g t p g' t' ->
  release_thread g' t' =
  with_account g
    (if compact g && negb (percpu g) then CPU_CLR p (mark_used g p (thread_set g p))
     else CPU_XOR (mark_used g p (thread_set g p)) (thread_set g p))
    (g_roll_over_cnts g).
Proof.
  intros Hok [Hp -> _ Hfree Hg _ _ Hcase]. pose proof (go_n _ _ Hok).
  pose proof (go_total_wf _ _ Hok) as Ht. pose proof (thread_set_wf g p) as Htw.
  assert (Hmw : cpuset_wf (mark_used g p (thread_set g p))) by (by apply (mark_used_wf n)).
  unfold release_thread. rewrite Hg. destruct Hcase as [(-> & -> & E)|(-> & ->)].
  - cbn [g_used with_account set_g_used set_g_roll_over_cnts].
    rewrite (proj2 (CPU_COUNT_zero CPU_EMPTY CPU_EMPTY_wf) eq_refl).
    change (0 =? 0) with true. cbv iota. unfold with_account. fsimpl.
    assert (E' : CPU_OR CPU_EMPTY (g_total g) = g_total g).
    { apply cpu_set_ext; auto with wayca. intros i Hi. by autorewrite with isset. }
    rewrite E', <- E. fold (compact g) (percpu g).
    destruct (_ && _); unfold with_account, set_g_used, set_g_roll_over_cnts; cbn; f_equal; lia.
  - cbn [g_used with_account set_g_used set_g_roll_over_cnts].
    destruct (Z.eqb_spec (CPU_COUNT (mark_used g p (thread_set g p))) 0) as [E|_].
    + exfalso. apply CPU_COUNT_zero in E; [|done].
      pose proof (mark_used_bits n g Hok p p Hp ltac:(lia)) as Hb.
      rewrite E, CPU_ISSET_EMPTY, marks_self in Hb by (apply Hok || lia). done.
    + unfold with_account. fsimpl. fold (compact g) (percpu g). by destruct (_ && _).
Qed.

(** What is marked after the release of the thread placed last. *)
Lemma release_bits n g t p g' t' i :
  group_ok n g -> placed n g t p g' t' -> 0 <= i < CPU_SETSIZE ->
  CPU_ISSET i (g_used (release_thread g' t')) =
  (marks g p i && negb (releases g p i)) || CPU_ISSET i (g_used g).
Proof.
  intros Hok Hpl Hi. rewrite (release_reopens n g t p g' t') by done.
  destruct Hpl as [Hp _ _ Hfree _ _ _ _]. pose proof (go_n _ _ Hok).
  pose proof (thread_set_wf g p) as Htw.
  assert (Hmw : cpuset_wf (mark_used g p (thread_set g p))) by (by apply (mark_used_wf n)).
  assert (Hbm : binds g p i = true -> marks g p i = false -> compact g && negb (percpu g) = true).
  { unfold binds, marks. destruct (compact g), (percpu g); try done; try congruence.
    intros ->%Z.eqb_eq. unfold in_region. by rewrite Z.eqb_refl. }
  cbn [g_used with_account set_g_used set_g_roll_over_cnts]. unfold releases.
  destruct (compact g && negb (percpu g)) eqn:E.
  - rewrite CPU_ISSET_CLR, (mark_used_bits n) by (done || lia).
    specialize (Hfree i). unfold marks in *. apply andb_true_iff in E as [E _].
    rewrite E in *. destruct (i =? p); simpl; [|done]. by destruct Hfree as (_ & _ & ->).
  - rewrite CPU_ISSET_XOR, (mark_used_bits n), (thread_set_bits n) by done.
    specialize (Hfree i). destruct (marks g p i) eqn:Em.
    + destruct Hfree as (_ & _ & ->); [done|]. by destruct (binds g p i).
    + destruct (binds g p i) eqn:Eb; [by specialize (Hbm eq_refl eq_refl)|].
      simpl. apply xorb_false_r.
Qed.

(** C6. Attaching a thread and detaching it again leaves the group as it was,
    also when the attachment started a new round, in every group whose threads
    release what they mark (compact, or not one CPU per thread). *)
Theorem attach_detach_roundtrip n g loads t g' t' :
  group_ok n g -> loads_ok n g loads -> compact g || negb (percpu g) = true ->
  assign_thread_resource loads g t = Ok (g', t') ->
  release_thread g' t' = g.
Proof.
  intros Hok Hl Hc Ha.
  destruct (assign_placed_ok n g loads t Hok Hl) as (p & g1 & t1 & _ & Ha' & Hpl).
  rewrite Ha' in Ha. simplify_eq.
  assert (Hu : g_used (release_thread g' t') = g_used g).
  { apply cpu_set_ext; [|apply Hok|].
    - rewrite (release_reopens n g t p g' t') by done. pose proof (thread_set_wf g p).
      assert (cpuset_wf (mark_used g p (thread_set g p))) by (by apply (mark_used_wf n)).
      cbn. destruct (_ && _); auto with wayca.
    - intros i Hi. rewrite (release_bits n g t p) by done.
      rewrite releases_marks by done. by destruct (marks g p i). }
  pose proof (release_reopens n g t p g' t' Hok Hpl) as Hr. rewrite Hr in Hu |- *.
  cbn in Hu. rewrite Hu. by destruct g.
Qed.

(** In a group with one CPU per thread that is not compact, a placement
    marks the whole region but a release gives back one CPU: the other CPUs of
    the region stay marked. *)
Theorem percpu_scatter_leaks n g loads t g' t' :
  group_ok n g -> loads_ok n g loads -> compact g = false -> percpu g = true ->
  1 < g_nr_cpus_per_topo g ->
  assign_thread_resource loads g t = Ok (g', t') ->
  exists i, CPU_ISSET i (g_used g) = false /\ CPU_ISSET i (g_used (release_thread g' t')) = true.
Proof.
  intros Hok Hl Hc Hpc Hnr Ha.
  destruct (assign_placed_ok n g loads t Hok Hl) as (p & g1 & t1 & _ & Ha' & Hpl).
  rewrite Ha' in Ha. simplify_eq. pose proof Hpl as [Hp _ _ Hfree _ _ _ _].
  pose proof (go_n _ _ Hok).
  assert (Hex : exists i, i <> p /\ in_region (g_nr_cpus_per_topo g) p i = true).
  { set (q := g_nr_cpus_per_topo g * (p / g_nr_cpus_per_topo g)).
    destruct (decide (q = p)); [exists (q + 1)|exists q]; (split; [lia|]);
      rewrite in_region_iff by lia; lia. }
  destruct Hex as (i & Hne & Hi).
  assert (Hm : marks g p i = true) by (unfold marks; by rewrite Hc).
  destruct (Hfree i Hm) as (Hin & _ & Hfu). exists i. split; [done|].
  rewrite (release_bits n g t p) by (done || lia). rewrite Hm, Hfu. simpl.
  rewrite orb_false_r. unfold releases, binds. rewrite Hc, Hpc. simpl.
  destruct (Z.eqb_spec i p); done.
Qed.

(** ** Histories of a group

    The threads of a group with the CPU each was placed on, and the two
    operations that change them. A thread may leave when its CPUs are in the
    current round or the round is complete, from a group whose regions are
    single CPUs (the default attribute). *)

Definition members : Type := list (Z * wayca_thread).

Inductive history (n : Z) : wayca_sc_group * members -> wayca_sc_group * members -> Prop :=
  | h_attach g live loads t p g' t' :
      loads_ok n g loads ->
      choose_target loads g = Ok p ->
      assign_thread_resource loads g t = Ok (g', t') ->
      history n (g, live) (g', (p, t') :: live)
  | h_detach g l1 p t l2 :
      g_nr_cpus_per_topo g = 1 ->
      g_used g = CPU_EMPTY \/ CPU_ISSET p (g_used g) = true ->
      history n (g, l1 ++ (p, t) :: l2) (release_thread g t, l1 ++ l2).

(** The threads that mark CPU [c]. *)
Definition nr_on (g : wayca_sc_group) (live : members) (c : Z) : Z :=
  sumZ (map (fun m => Z.b2z (marks g m.1 c)) live).

(** The invariant of a history: the accounting counts the threads. *)
Record accounts (n : Z) (s : wayca_sc_group * members) : Prop := {
  ac_ok : group_ok n s.1;
  ac_live : Forall (fun m => CPU_ISSET m.1 (g_total s.1) = true /\ placed_on s.1 m.1 m.2) s.2;
  ac_count : forall c, 0 <= c < CPU_SETSIZE -> CPU_ISSET c (g_total s.1) = true ->
    occupancy s.1 c = nr_on s.1 s.2 c;
}.

Lemma nr_on_with_account g used rounds live c :
  nr_on (with_account g used rounds) live c = nr_on g live c.
Proof. done. Qed.

Lemma nr_on_nonneg g live c : 0 <= nr_on g live c.
Proof.
  induction live as [|m live IH]; [done|]. unfold nr_on in *. simpl.
  destruct (marks g m.1 c); simpl; lia.
Qed.

(** With regions of one CPU there is nothing to be partial. *)
Lemma group_ok_one n g used rounds :
  group_ok n g -> g_nr_cpus_per_topo g = 1 -> cpuset_wf used -> used <> g_total g ->
  (forall i, 0 <= i < CPU_SETSIZE -> CPU_ISSET i used = true -> CPU_ISSET i (g_total g) = true) ->
  group_ok n (with_account g used rounds).
Proof.
  intros [] Hnr Hw Hne Hsub.
  constructor; try done; unfold with_account; fsimpl; rewrite Hnr; unfold partial; lia.
Qed.

Lemma release_with_account g t :
  release_thread g t =
  with_account g (g_used (release_thread g t)) (g_roll_over_cnts (release_thread g t)).
Proof. unfold release_thread. destruct (_ =? 0), (_ && _); by destruct g. Qed.

Lemma binds_one g p i : g_nr_cpus_per_topo g = 1 -> binds g p i = (i =? p).
Proof. intros E. unfold binds, in_region. rewrite E, !Z.div_1_r. by destruct (percpu g). Qed.

Lemma marks_one g p i : g_nr_cpus_per_topo g = 1 -> marks g p i = (i =? p).
Proof. intros E. unfold marks, in_region. rewrite E, !Z.div_1_r. by destruct (compact g). Qed.

Lemma releases_one g p i : g_nr_cpus_per_topo g = 1 -> releases g p i = (i =? p).
Proof. intros E. unfold releases. rewrite binds_one by done. by destruct (_ && _). Qed.

(** The CPUs that are marked after a release. *)
Lemma release_used_one g p t :
  cpuset_wf (g_used g) -> cpuset_wf (g_total g) -> placed_on g p t ->
  g_nr_cpus_per_topo g = 1 ->
  cpuset_wf (g_used (release_thread g t)) /\
  forall i, 0 <= i < CPU_SETSIZE ->
    CPU_ISSET i (g_used (release_thread g t)) =
    (if i =? p then negb (compact g && negb (percpu g)) &&
                    negb (CPU_ISSET i (if CPU_COUNT (g_used g) =? 0 then g_total g else g_used g))
     else CPU_ISSET i (if CPU_COUNT (g_used g) =? 0 then g_total g else g_used g)).
Proof.
  intros Hu Ht [Hpt Hp Hw Ha] Hnr. unfold release_thread.
  destruct (Z.eqb_spec (CPU_COUNT (g_used g)) 0) as [E|_].
  - apply CPU_COUNT_zero in E; [|done]. fsimpl. fold (compact g) (percpu g).
    assert (Ew : cpuset_wf (CPU_OR (g_used g) (g_total g))) by auto with wayca.
    destruct (compact g && negb (percpu g)); fsimpl; (split; [auto with wayca|intros i Hi]).
    + rewrite Hpt, CPU_ISSET_CLR, CPU_ISSET_OR, E, CPU_ISSET_EMPTY by done.
      by destruct (i =? p).
    + rewrite CPU_ISSET_XOR, CPU_ISSET_OR, E, CPU_ISSET_EMPTY, Ha, binds_one by done.
      destruct (i =? p); simpl; [apply xorb_true_r|apply xorb_false_r].
  - fold (compact g) (percpu g).
    destruct (compact g && negb (percpu g)); fsimpl; (split; [auto with wayca|intros i Hi]).
    + rewrite Hpt, CPU_ISSET_CLR by done. by destruct (i =? p).
    + rewrite CPU_ISSET_XOR, Ha, binds_one by done.
      destruct (i =? p); simpl; [apply xorb_true_r|apply xorb_false_r].
Qed.

Lemma attach_accounts n g live loads t p g' t' :
  accounts n (g, live) -> loads_ok n g loads -> choose_target loads g = Ok p ->
  assign_thread_resource loads g t = Ok (g', t') -> accounts n (g', (p, t') :: live).
Proof.
  intros [Hok Hlive Hcnt] Hl Hc Ha. simpl in *.
  destruct (assign_placed_ok n g loads t Hok Hl) as (p' & g1 & t1 & Hc' & Ha' & Hpl).
  rewrite Hc in Hc'. rewrite Ha in Ha'. simplify_eq.
  pose proof (placed_placed_on _ _ _ _ _ _ Hpl) as Hon.
  destruct Hpl as [Hp _ _ Hfree Hg Hocc Hok' _].
  constructor; cbn [fst snd]; [done| |].
  - rewrite Hg. constructor; cbn [fst snd].
    + split; [|by rewrite <- Hg]. apply Hfree, marks_self, Hok.
    + eapply Forall_impl; [exact Hlive|]. intros m [? []]. split; [done|]. by constructor.
  - intros c Hcr Hct. rewrite Hg in Hct. rewrite Hocc, Hcnt by done.
    rewrite Hg, nr_on_with_account. unfold nr_on. simpl. lia.
Qed.

Lemma detach_accounts n g l1 p t l2 :
  accounts n (g, l1 ++ (p, t) :: l2) -> g_nr_cpus_per_topo g = 1 ->
  g_used g = CPU_EMPTY \/ CPU_ISSET p (g_used g) = true ->
  accounts n (release_thread g t, l1 ++ l2).
Proof.
  intros [Hok Hlive Hcnt] Hnr Hu. simpl in *.
  apply Forall_app in Hlive as [Hl1 Hl2]. apply Forall_cons in Hl2 as [[Hpt Hon] Hl2].
  cbn [fst snd] in Hpt, Hon. pose proof (po_range _ _ _ Hon) as Hp.
  pose proof Hok as [_ _ _ Ht Huw _ _ Hsub _ _ _].
  destruct (release_used_one g p t) as [Hw' Hbits]; try done.
  set (base := if CPU_COUNT (g_used g) =? 0 then g_total g else g_used g) in *.
  assert (Hbt : forall i, 0 <= i < CPU_SETSIZE -> CPU_ISSET i base = true ->
            CPU_ISSET i (g_total g) = true).
  { intros i Hi. unfold base. destruct (_ =? 0); auto. }
  assert (Hbp : CPU_ISSET p base = true).
  { unfold base. destruct Hu as [->|Hup].
    - by rewrite (proj2 (CPU_COUNT_zero _ CPU_EMPTY_wf) eq_refl).
    - destruct (Z.eqb_spec (CPU_COUNT (g_used g)) 0); done. }
  rewrite release_with_account. constructor; cbn [fst snd].
  - apply group_ok_one; try done.
    + intros E. pose proof (Hbits p Hp) as Hb. rewrite E, Hpt, Z.eqb_refl, Hbp in Hb.
      by rewrite andb_false_r in Hb.
    + intros i Hi. rewrite Hbits by done. destruct (Z.eqb_spec i p) as [->|]; [done|]. by apply Hbt.
  - apply Forall_app. split; (eapply Forall_impl; [eassumption|]); intros m [? []];
      (split; [done|by constructor]).
  - intros c Hc Hct. rewrite nr_on_with_account, <- release_with_account.
    rewrite (release_occupancy g p t); try done.
    + rewrite Hcnt by done. unfold nr_on. rewrite !map_app, !sumZ_app. simpl.
      rewrite releases_one, marks_one by done. lia.
    + intros i Hi. rewrite releases_one by done. by intros ->%Z.eqb_eq.
    + destruct Hu as [|Hup]; [by left|right]. intros i Hi. rewrite releases_one by done.
      by intros ->%Z.eqb_eq.
Qed.

Lemma history_accounts n s s' : rtc (history n) s s' -> accounts n s -> accounts n s'.
Proof.
  induction 1 as [|? ? ? Hstep _ IH]; [done|]. intros Hacc. apply IH.
  destruct Hstep; [by eapply attach_accounts|by eapply detach_accounts].
Qed.

(** C1. Balance: whatever the history of a group, the numbers of threads that
    mark any two of its CPUs differ by at most one. *)
Theorem history_balanced n g g' live c c' :
  group_ok n g -> g_used g = CPU_EMPTY -> g_roll_over_cnts g = 0 ->
  rtc (history n) (g, []) (g', live) ->
  0 <= c < CPU_SETSIZE -> 0 <= c' < CPU_SETSIZE ->
  CPU_ISSET c (g_total g') = true -> CPU_ISSET c' (g_total g') = true ->
  Z.abs (nr_on g' live c - nr_on g' live c') <= 1.
Proof.
  intros Hok Hu Hr Hh Hc Hc' Ht Ht'.
  destruct (history_accounts n _ _ Hh) as [_ _ Hcnt].
  { constructor; [done|constructor|]. intros i Hi _. simpl. unfold occupancy.
    by rewrite Hu, Hr, CPU_ISSET_EMPTY. }
  simpl in Hcnt. rewrite <- !Hcnt by done. unfold occupancy.
  destruct (CPU_ISSET c (g_used g')), (CPU_ISSET c' (g_used g')); simpl; lia.
Qed.

(** C4. Placement is total and right on a well-formed group: a CPU is found, it
    is a free CPU of the group, the thread is bound to it (or to its region),
    exactly the CPUs it marks gain one occupant, the round is closed when the
    last free CPU is taken, and the group stays well formed. *)
Theorem assign_thread_resource_correct n g loads t :
  group_ok n g -> loads_ok n g loads ->
  exists p g' t', choose_target loads g = Ok p /\
    assign_thread_resource loads g t = Ok (g', t') /\ placed n g t p g' t'.
Proof. apply assign_placed_ok. Qed.

(** C5. Which CPU of a well-formed group a thread is placed on. While a region is
    partly used, which happens in compact groups only, it is the first free CPU of
    that region. When no region is partly used it is a CPU of a free region such
    that no CPU of this region has a smaller load, and no free region as a whole has
    a smaller load. *)
Theorem choose_target_policy n g loads :
  group_ok n g -> loads_ok n g loads ->
  let nr := g_nr_cpus_per_topo g in
  exists p, choose_target loads g = Ok p /\ 0 <= p < n /\ CPU_ISSET p (available g) = true /\
    (forall k, 0 <= k < n / nr -> partial nr (available g) k ->
       compact g = true /\ p / nr = k /\
       forall i, nr * k <= i < p -> CPU_ISSET i (available g) = false) /\
    ((forall k, 0 <= k < n / nr -> ~ partial nr (available g) k) ->
       (forall i, in_region nr p i = true -> load_of loads p <= load_of loads i) /\
       (forall i, 0 <= i < n -> CPU_ISSET i (available g) = true ->
          region_load loads nr (nr * (p / nr)) <= region_load loads nr (nr * (i / nr)))).
Proof.
  intros Hok Hl nr. destruct (partial_dec n g) as [Hnp|(k & Hk & Hp)].
  - destruct (choose_target_idlest n g Hok loads Hl Hnp) as (p & ? & ? & ? & H1 & H2).
    exists p. split; [done|]. split; [done|]. split; [done|]. split; [|by split].
    intros k Hk Hp. by destruct (Hnp k Hk).
  - destruct (compact g) eqn:Hc; [|by destruct (go_scatter _ _ Hok Hc k Hk)].
    destruct (choose_target_incomplete n g Hok loads k Hc Hk Hp) as (p & ? & ? & Hpk & ? & Hlow).
    exists p. split; [done|]. split; [done|]. split; [done|]. split.
    + intros k' Hk' Hp'. assert (k' = k) as -> by (by apply (go_partial _ _ Hok)). by split_and!.
    + intros Hnp. by destruct (Hnp k Hk).
Qed.

(** A compact group fills a region before it opens the next one: while a
    region is partly used, the next thread goes to that region. *)
Theorem compact_fills_region n g loads k p :
  group_ok n g -> loads_ok n g loads -> compact g = true ->
  0 <= k < n / g_nr_cpus_per_topo g -> partial (g_nr_cpus_per_topo g) (available g) k ->
  choose_target loads g = Ok p -> p / g_nr_cpus_per_topo g = k.
Proof.
  intros Hok Hl Hc Hk Hp Hch.
  destruct (choose_target_incomplete n g Hok loads k Hc Hk Hp) as (p' & Hch' & _ & Hpk & _).
  rewrite Hch in Hch'. by simplify_eq.
Qed.

(** C35. After any history a further thread can be placed, and no release of
    that history has driven the accounting below the number of threads. *)
Theorem history_progress n g g' live loads t :
  group_ok n g -> g_used g = CPU_EMPTY -> g_roll_over_cnts g = 0 ->
  rtc (history n) (g, []) (g', live) -> loads_ok n g' loads ->
  0 <= g_roll_over_cnts g' /\
  exists p g2 t2, history n (g', live) (g2, (p, t2) :: live) /\
    assign_thread_resource loads g' t = Ok (g2, t2).
Proof.
  intros Hok Hu Hr Hh Hl. destruct (history_accounts n _ _ Hh) as [Hok' _ Hcnt].
  { constructor; [done|constructor|]. intros i Hi _. simpl. unfold occupancy.
    by rewrite Hu, Hr, CPU_ISSET_EMPTY. }
  simpl in *. split.
  - destruct (available_ne n g' Hok') as (i & Hi & Hb).
    pose proof (go_n _ _ Hok') as Hn.
    rewrite CPU_ISSET_available in Hb by (apply Hok' || lia). zbool.
    pose proof (Hcnt i ltac:(lia) ltac:(done)) as Hc. pose proof (nr_on_nonneg g' live i).
    unfold occupancy in Hc. destruct (CPU_ISSET i (g_used g')); simpl in Hc; [done|lia].
  - destruct (assign_placed_ok n g' loads t Hok' Hl) as (p & g2 & t2 & Hc & Ha & _).
    exists p, g2, t2. split; [by econstructor|done].
Qed.

(** A group of single CPUs that has no free CPU: the search for the idlest CPU
    starts at position -1 and reads the load array there. *)
Lemma choose_target_none loads g :
  g_nr_cpus_per_topo g = 1 -> available g = CPU_EMPTY ->
  choose_target loads g = Fault OutOfBounds.
Proof.
  intros Hnr Ha. unfold choose_target, find_idlest_set. rewrite Hnr, Ha. by vm_compute.
Qed.

(** A thread of an earlier round that leaves while the current round has
    begun is marked instead of cleared: when its CPU was the last free one, the
    group believes that no CPU is free, and placing the next thread reads
    outside the load array. *)
Theorem stale_release_faults n g p t t' loads :
  group_ok n g -> g_nr_cpus_per_topo g = 1 -> compact g = true -> percpu g = true ->
  placed_on g p t -> CPU_ISSET p (g_total g) = true ->
  g_used g <> CPU_EMPTY -> CPU_ISSET p (g_used g) = false ->
  (forall i, 0 <= i < CPU_SETSIZE -> i <> p ->
     CPU_ISSET i (g_total g) = true -> CPU_ISSET i (g_used g) = true) ->
  assign_thread_resource loads (release_thread g t) t' = Fault OutOfBounds.
Proof.
  intros Hok Hnr Hcp Hpc Hon Hpt Hne Hpu Hall.
  pose proof Hok as [_ _ _ Ht Huw _ _ Hsub _ _ _].
  destruct (release_used_one g p t) as [Hw' Hbits]; try done.
  unfold assign_thread_resource. rewrite choose_target_none; [done| |].
  { rewrite release_with_account. done. }
  rewrite release_with_account. apply cpu_set_ext.
  - apply available_wf; done.
  - apply CPU_EMPTY_wf.
  - intros i Hi. rewrite CPU_ISSET_EMPTY, CPU_ISSET_available by done.
    unfold with_account; fsimpl. rewrite Hbits, Hcp, Hpc by done.
    destruct (Z.eqb_spec (CPU_COUNT (g_used g)) 0) as [E|_].
    { by apply CPU_COUNT_zero in E. }
    destruct (Z.eqb_spec i p) as [->|Hip]; [by rewrite Hpu|].
    specialize (Hall i Hi Hip). destruct (CPU_ISSET i (g_total g)); [|apply andb_false_r].
    by rewrite Hall.
Qed.

(** ** Fresh groups *)

(** A group that owns the regions [a] to [a + b - 1] and has no thread. *)
Lemma fresh_group_ok n g a b :
  0 < g_nr_cpus_per_topo g -> (g_nr_cpus_per_topo g | n) -> 0 < n <= CPU_SETSIZE ->
  0 <= a -> 0 < b -> g_nr_cpus_per_topo g * (a + b) <= n ->
  g_total g = CPU_SET_range (g_nr_cpus_per_topo g * a) (g_nr_cpus_per_topo g * b) CPU_EMPTY ->
  g_used g = CPU_EMPTY -> group_ok n g.
Proof.
  intros Hnr [m Hm] Hn Ha Hb Hab Ht Hu. set (nr := g_nr_cpus_per_topo g) in *.
  assert (E : n / nr = m) by (rewrite Hm; apply Z.div_mul; lia).
  assert (Hbits : forall i, 0 <= i < CPU_SETSIZE ->
            CPU_ISSET i (g_total g) = (a <=? i / nr) && (i / nr <? a + b)).
  { intros i Hi. rewrite Ht, CPU_ISSET_range_SET by (auto with wayca; nia).
    rewrite CPU_ISSET_EMPTY, orb_false_r by done.
    apply Bool.eq_iff_eq_true. rewrite !andb_true_iff.
    pose proof (Z.div_mod i nr). pose proof (Z.mod_pos_bound i nr). split; intros; nia. }
  assert (Htw : cpuset_wf (g_total g)) by (rewrite Ht; auto with wayca).
  assert (Hnp : forall k, 0 <= k < n / nr -> ~ partial nr (available g) k).
  { intros k Hk Hp. unfold partial in Hp.
    assert (Hav : forall i, nr * k <= i < nr * k + nr ->
              CPU_ISSET i (available g) = (a <=? k) && (k <? a + b)).
    { intros i Hi. rewrite CPU_ISSET_available by (rewrite ?Hu; auto with wayca; nia).
      rewrite Hu, CPU_ISSET_EMPTY, Hbits by nia.
      by replace (i / nr) with k by (apply (Z.div_unique_pos _ _ _ (i - nr * k)); lia). }
    destruct ((a <=? k) && (k <? a + b));
      [rewrite bcount_all in Hp by (lia || done)|rewrite bcount_none in Hp by done]; lia. }
  constructor; fold nr; try done.
  - by exists m.
  - rewrite Hu. auto with wayca.
  - intros i Hi. rewrite Hbits by done. intros. zbool.
    assert (i / nr < m) by nia. pose proof (Z.div_mod i nr). pose proof (Z.mod_pos_bound i nr). nia.
  - intros i j Hi Hj Hr. rewrite !Hbits by done. unfold in_region in Hr. zbool. by rewrite Hr.
  - intros i Hi. rewrite Hu, CPU_ISSET_EMPTY by done. done.
  - intros Eq. assert (Hi : 0 <= nr * a < CPU_SETSIZE) by nia.
    pose proof (Hbits (nr * a) Hi) as Hb'. rewrite <- Eq, Hu, CPU_ISSET_EMPTY in Hb' by done.
    rewrite Z.mul_comm, Z.div_mul in Hb' by lia. symmetry in Hb'.
    destruct (Z.leb_spec a a), (Z.ltb_spec a (a + b)); lia.
  - intros k k' Hk _ Hp. by destruct (Hnp k Hk).
Qed.

(** Idle CPUs. *)
Lemma loads_ok_zero n g :
  0 <= n -> loads_ok n g (replicate (Z.to_nat n) 0).
Proof.
  intros Hn. split; [rewrite length_replicate; lia|]. intros k _. unfold region_load.
  assert (E : forall l, sumZ (map (load_of (replicate (Z.to_nat n) 0)) l) = 0).
  { induction l as [|i l IH]; [done|]. simpl. rewrite IH. unfold load_of.
    destruct (_ !! _) eqn:El; [|done]. by apply lookup_replicate in El as [-> _]. }
  rewrite E. by unfold INT_MAX.
Qed.

(** ** Loads *)

Lemma load_of_ext l1 l2 :
  length l1 = length l2 -> (forall i, 0 <= i -> load_of l1 i = load_of l2 i) -> l1 = l2.
Proof.
  intros Hl H. apply list_eq_same_length with (length l2); [done|done|].
  intros k x y Hk E1 E2. specialize (H (Z.of_nat k) ltac:(lia)).
  unfold load_of in H. rewrite Nat2Z.id, E1, E2 in H. done.
Qed.

(** [update_load] spreads the load of a thread over its CPUs: every CPU of
    the set gets [ceil(total / count)], no other CPU changes, and removing the
    thread with the same set gives the load array back. *)
Theorem update_load_correct loads s total :
  cpuset_wf s -> Forall (fun i => 0 <= i < Z.of_nat (length loads)) (cpus s) ->
  exists loads',
    update_load total s true loads = Ok loads' /\
    length loads' = length loads /\
    (forall i, 0 <= i -> load_of loads' i = load_of loads i +
       if bool_decide (i ∈ cpus s) then Common.div_round_up total (CPU_COUNT s) else 0) /\
    update_load total s false loads' = Ok loads.
Proof.
  intros Hwf Hin. rewrite update_load_ok by done.
  destruct (Z.eqb_spec (CPU_COUNT s) 0) as [E|Hne].
  - exists loads. split; [done|]. split; [done|]. split.
    + intros i _. apply CPU_COUNT_zero in E as ->; [|done]. rewrite cpus_EMPTY.
      rewrite bool_decide_eq_false_2 by set_solver. lia.
    + rewrite update_load_ok by done. by rewrite (proj2 (Z.eqb_eq _ _) E).
  - set (d := Common.div_round_up total (CPU_COUNT s)).
    eexists. split; [done|]. split; [apply length_loads_plus|]. split.
    + intros i Hi. apply load_of_loads_plus; [apply cpus_NoDup|done|done].
    + rewrite update_load_ok by (rewrite ?length_loads_plus; done).
      destruct (Z.eqb_spec (CPU_COUNT s) 0); [done|]. f_equal. fold d.
      apply load_of_ext; [by rewrite !length_loads_plus|]. intros i Hi.
      rewrite !load_of_loads_plus by (rewrite ?length_loads_plus; (done || apply cpus_NoDup)).
      destruct (bool_decide _); lia.
Qed.

(** ** Witnesses, on a machine of four CPUs *)
Module Machine4.
(** [group attr nr]: a fresh group of the whole machine. *)
Definition group (attr nr : Z) : wayca_sc_group :=
  mk_wayca_sc_group 0 None 0 None None None 0 CPU_EMPTY
    (CPU_SET_range 0 4 CPU_EMPTY) attr false nr nr (-1) 0.
Definition thread : wayca_thread :=
  mk_wayca_thread 0 0 0 0 CPU_EMPTY CPU_EMPTY None None 0 None 0 false.
Definition idle : list Z := replicate (Z.to_nat 4) 0.
Definition busy : list Z := [7; 3; 5; 1].

Definition default_attr : Z := Z.lor (Z.lor WT_GF_CPU WT_GF_COMPACT) WT_GF_PERCPU.
Definition compact_ccl : Z := Z.lor WT_GF_CCL WT_GF_COMPACT.
Definition percpu_ccl : Z := Z.lor WT_GF_CCL WT_GF_PERCPU.

Definition get_ok {A} (d : A) (o : outcome A) : A :=
  match o with Ok a => a | Fault _ => d end.
Definition attach (g : wayca_sc_group) : wayca_sc_group * wayca_thread :=
  get_ok (g, thread) (assign_thread_resource idle g thread).

Lemma group_default_ok : group_ok 4 (group default_attr 1).
Proof. apply (fresh_group_ok 4 _ 0 4); try done. by exists 4. Qed.

Lemma group_two_ok attr : group_ok 4 (group attr 2).
Proof. apply (fresh_group_ok 4 _ 0 2); try done. by exists 2. Qed.

Lemma idle_ok g : loads_ok 4 g idle.
Proof. by apply loads_ok_zero. Qed.

Lemma attach_detach_roundtrip_witness :
  release_thread (attach (group compact_ccl 2)).1 (attach (group compact_ccl 2)).2
  = group compact_ccl 2.
Proof.
  apply (attach_detach_roundtrip 4 _ idle thread);
    [apply group_two_ok|apply idle_ok|reflexivity|vm_compute; reflexivity].
Defined.

Lemma percpu_scatter_leaks_witness :
  exists i, CPU_ISSET i (g_used (group percpu_ccl 2)) = false /\
    CPU_ISSET i (g_used (release_thread (attach (group percpu_ccl 2)).1
                           (attach (group percpu_ccl 2)).2)) = true.
Proof.
  apply (percpu_scatter_leaks 4 _ idle thread);
    [apply group_two_ok|apply idle_ok|reflexivity|reflexivity|reflexivity|vm_compute; reflexivity].
Defined.

Lemma assign_thread_resource_correct_witness :
  exists p g' t', choose_target idle (group compact_ccl 2) = Ok p /\
    assign_thread_resource idle (group compact_ccl 2) thread = Ok (g', t') /\
    placed 4 (group compact_ccl 2) thread p g' t'.
Proof.
  apply assign_thread_resource_correct; [apply group_two_ok|apply idle_ok].
Defined.

Lemma update_load_correct_witness :
  exists loads',
    update_load 4 (CPU_SET_range 2 2 CPU_EMPTY) true busy = Ok loads' /\
    length loads' = length busy /\
    (forall i, 0 <= i -> load_of loads' i = load_of busy i +
       if bool_decide (i ∈ cpus (CPU_SET_range 2 2 CPU_EMPTY))
       then Common.div_round_up 4 (CPU_COUNT (CPU_SET_range 2 2 CPU_EMPTY)) else 0) /\
    update_load 4 (CPU_SET_range 2 2 CPU_EMPTY) false loads' = Ok busy.
Proof.
  apply update_load_correct; [apply CPU_SET_range_wf, CPU_EMPTY_wf|].
  rewrite cpus_range by (unfold CPU_SETSIZE; lia).
  repeat (constructor; [split; [lia|vm_compute; reflexivity]|]). constructor.
Defined.

(** A fresh group has no partly used region. *)
Lemma group_two_whole attr :
  forall k, 0 <= k < 4 / 2 -> ~ partial 2 (available (group attr 2)) k.
Proof.
  intros k Hk. change (4 / 2) with 2 in Hk. assert (k = 0 \/ k = 1) as [-> | ->] by lia;
    vm_compute; intros [? ?]; done.
Qed.

Lemma busy_ok attr : loads_ok 4 (group attr 2) busy.
Proof.
  split; [done|]. intros k Hk. change (g_nr_cpus_per_topo (group attr 2)) with 2.
  unfold region_load. change (seqZ (2 * k) 2) with [0 + 2 * k; 1 + 2 * k].
  cbn [map sumZ]. unfold load_of.
  assert (H : forall i, default 0 (busy !! i) <= 7).
  { intros [|[|[|[|[]]]]]; cbn; lia. }
  pose proof (H (Z.to_nat (0 + 2 * k))). pose proof (H (Z.to_nat (1 + 2 * k))).
  unfold INT_MAX. lia.
Qed.

(** No region is partly used: the second CPU of the less loaded region. *)
Lemma choose_target_policy_witness :
  load_of busy 3 <= load_of busy 2 /\ region_load busy 2 2 <= region_load busy 2 0.
Proof.
  destruct (choose_target_policy 4 (group compact_ccl 2) busy (group_two_ok _) (busy_ok _))
    as (p & Hp & _ & _ & _ & Hmin).
  assert (p = 3) as -> by (vm_compute in Hp; by simplify_eq).
  destruct (Hmin (group_two_whole _)) as [H1 H2].
  split; [apply (H1 2); reflexivity|apply (H2 0); [lia|reflexivity]].
Defined.

Lemma attach_group_ok attr : group_ok 4 (attach (group attr 2)).1.
Proof.
  destruct (assign_placed_ok 4 (group attr 2) idle thread) as (p & g' & t' & _ & Ha & Hpl);
    [apply group_two_ok|apply idle_ok|].
  unfold attach. rewrite Ha. apply Hpl.
Qed.

Lemma compact_fills_region_witness : 1 / 2 = 0.
Proof.
  apply (compact_fills_region 4 (attach (group compact_ccl 2)).1 idle 0 1);
    [apply attach_group_ok|apply idle_ok|reflexivity|vm_compute; split; [discriminate|reflexivity]
    |vm_compute; split; reflexivity|vm_compute; reflexivity].
Defined.

Lemma attach_default_history live :
  rtc (history 4) (group default_attr 1, live)
    ((attach (group default_attr 1)).1, (0, (attach (group default_attr 1)).2) :: live).
Proof.
  apply rtc_once. apply (h_attach 4 _ _ idle thread);
    [apply idle_ok|vm_compute; reflexivity|vm_compute; reflexivity].
Qed.

Lemma history_balanced_witness :
  Z.abs (nr_on (attach (group default_attr 1)).1 [(0, (attach (group default_attr 1)).2)] 0
       - nr_on (attach (group default_attr 1)).1 [(0, (attach (group default_attr 1)).2)] 1) <= 1.
Proof.
  apply (history_balanced 4 (group default_attr 1));
    [apply group_default_ok|reflexivity|reflexivity|apply attach_default_history
    |unfold CPU_SETSIZE; lia|unfold CPU_SETSIZE; lia|vm_compute; reflexivity|vm_compute; reflexivity].
Defined.

Lemma history_progress_witness :
  0 <= g_roll_over_cnts (attach (group default_attr 1)).1 /\
  exists p g2 t2,
    history 4 ((attach (group default_attr 1)).1, [(0, (attach (group default_attr 1)).2)])
      (g2, (p, t2) :: [(0, (attach (group default_attr 1)).2)]) /\
    assign_thread_resource idle (attach (group default_attr 1)).1 thread = Ok (g2, t2).
Proof.
  apply (history_progress 4 (group default_attr 1));
    [apply group_default_ok|reflexivity|reflexivity|apply attach_default_history|apply idle_ok].
Defined.

(** The second round has begun: CPUs 0, 1 and 2 are taken again, and a thread
    of the first round leaves CPU 3. *)
Definition second_round : wayca_sc_group :=
  with_account (group default_attr 1) (CPU_SET_range 0 3 CPU_EMPTY) 1.
Definition leaving : wayca_thread :=
  mk_wayca_thread 0 0 0 3 (CPU_SET 3 CPU_EMPTY) (CPU_SET 3 CPU_EMPTY) None None 0 None 0 false.

Lemma second_round_ok : group_ok 4 second_round.
Proof.
  apply group_ok_one; [apply group_default_ok|done|auto with wayca|by vm_compute|].
  intros i Hi. cbn [g_total group]. rewrite !CPU_ISSET_range_SET by (auto with wayca; unfold CPU_SETSIZE; lia).
  rewrite CPU_ISSET_EMPTY, !orb_false_r by done. intros. zbool.
  destruct (Z.leb_spec 0 i), (Z.ltb_spec i (0 + 4)); lia.
Qed.

Lemma stale_release_faults_witness :
  assign_thread_resource idle (release_thread second_round leaving) thread = Fault OutOfBounds.
Proof.
  apply (stale_release_faults 4 second_round 3);
    [apply second_round_ok|reflexivity|reflexivity|reflexivity| |reflexivity
    |vm_compute; discriminate|reflexivity|].
  - constructor; [reflexivity|unfold CPU_SETSIZE; lia|apply CPU_SET_wf, CPU_EMPTY_wf|].
    intros i Hi. cbn [t_allowed_set leaving].
    rewrite CPU_ISSET_SET, CPU_ISSET_EMPTY by (apply CPU_EMPTY_wf || done || (unfold CPU_SETSIZE; lia)).
    apply orb_false_r.
  - intros i Hi Hne. cbn [g_total g_used second_round with_account group set_g_used set_g_roll_over_cnts].
    rewrite !CPU_ISSET_range_SET by (apply CPU_EMPTY_wf || done || (unfold CPU_SETSIZE; lia)).
    rewrite CPU_ISSET_EMPTY, !orb_false_r by done. intros H. zbool.
    destruct (Z.leb_spec 0 i), (Z.ltb_spec i (0 + 3)); lia.
Defined.
End Machine4.
