(* ===== verification/Members.v ===== *)
(** * The members of a group

    The [threads] and [groups] lists of a group are NULL-terminated chains
    through the [siblings] pointers. This file relates the chain operations of
    [Group] to lists of pointers, and proves what [wayca_group_add_thread] and
    [wayca_group_delete_thread] do to the whole state, errors included. *)

From S2P Require Import Prelude Bitops Cpuset State Group Placement Accounting.

(** ** Chains *)

Section chain.
Context {A : Type} (next : A -> option nat).

(** [chain m h l]: following [next] from [h] in the heap [m] visits [l]. *)
Inductive chain (m : gmap nat A) : option nat -> list nat -> Prop :=
  | chain_nil : chain m None []
  | chain_cons p x l : m !! p = Some x -> chain m (next x) l -> chain m (Some p) (p :: l).

Lemma chain_fun m h l l' : chain m h l -> chain m h l' -> l = l'.
Proof using.
  intros H. revert l'. induction H as [|p x l Hp _ IH]; intros l' H'; inversion H'; subst; [done|].
  f_equal. apply IH. congruence.
Qed.

Lemma chain_head m h l : chain m h l -> h = head l.
Proof using. by destruct 1. Qed.

(** The rest of the chain after a member. *)
Lemma chain_suffix m h l1 p l2 :
  chain m h (l1 ++ p :: l2) -> exists x, m !! p = Some x /\ chain m (next x) l2.
Proof using.
  revert h. induction l1 as [|q l1 IH]; intros h H; inversion H; subst; [eauto|].
  by eapply IH.
Qed.

Lemma chain_NoDup m h l : chain m h l -> NoDup l.
Proof using.
  induction 1 as [|p x l Hp Hc IH]; constructor; [|done].
  intros Hin. apply list_elem_of_split in Hin as (l1 & l2 & ->).
  destruct (chain_suffix _ _ _ _ _ Hc) as (y & Hy & Hc'). simplify_eq.
  pose proof (chain_fun _ _ _ _ Hc Hc') as E. apply (f_equal length) in E.
  rewrite length_app in E. simpl in E. lia.
Qed.

Lemma chain_dom m h l p : chain m h l -> p ∈ l -> is_Some (m !! p).
Proof using.
  induction 1 as [|q x l Hq Hc IH]; intros Hin; [set_solver|].
  apply elem_of_cons in Hin as [->|Hin]; [eauto|by apply IH].
Qed.

(** A chain is not longer than the heap: the fuel of the loops is enough. *)
Lemma chain_length m h l : chain m h l -> (length l <= size m)%nat.
Proof using.
  intros H. pose proof (chain_NoDup _ _ _ H) as Hnd.
  rewrite <- (size_list_to_set (C := gset nat)) by done.
  rewrite <- size_dom. apply subseteq_size. intros p Hp.
  apply elem_of_list_to_set in Hp. apply elem_of_dom. by eapply chain_dom.
Qed.

(** Updates outside the chain, and updates that keep the pointer. *)
Lemma chain_insert m h l p x :
  (p ∈ l -> exists y, m !! p = Some y /\ next x = next y) ->
  chain m h l -> chain (<[p := x]> m) h l.
Proof using.
  intros Hp H. induction H as [|q y l Hq Hc IH]; [constructor|].
  destruct (decide (q = p)) as [->|Hne].
  - destruct (Hp ltac:(set_solver)) as (y' & Hy' & E). simplify_eq.
    econstructor; [by rewrite lookup_insert_eq|]. rewrite E. apply IH. naive_solver.
  - econstructor; [by rewrite lookup_insert_ne|]. apply IH. intros. apply Hp. set_solver.
Qed.

Lemma chain_insert_notin m h l p x : p ∉ l -> chain m h l -> chain (<[p := x]> m) h l.
Proof using. intros. by apply chain_insert. Qed.

Lemma chain_app m h l1 l2 :
  chain m h (l1 ++ l2) -> l1 <> [] ->
  exists p x, last l1 = Some p /\ m !! p = Some x /\ chain m (next x) l2.
Proof using.
  intros H Hne. destruct l1 as [|p l1 _] using rev_ind; [done|].
  rewrite <- app_assoc in H. destruct (chain_suffix _ _ _ _ _ H) as (x & ? & ?).
  exists p, x. by rewrite last_snoc.
Qed.

(** Redirecting the last pointer of a chain replaces what follows. *)
Lemma chain_redirect m h l1 q x x' l2 l3 :
  chain m h (l1 ++ q :: l2) -> m !! q = Some x -> q ∉ l3 ->
  chain m (next x') l3 -> chain (<[q := x']> m) h (l1 ++ q :: l3).
Proof using.
  revert h. induction l1 as [|p l1 IH]; intros h H Hq Hn Hc; inversion H as [|? y ? Hy Hc']; subst.
  - econstructor; [by rewrite lookup_insert_eq|]. by apply chain_insert_notin.
  - assert (p <> q).
    { intros ->. apply chain_NoDup in H. simpl in H. apply NoDup_cons in H as [H _]. set_solver. }
    econstructor; [by rewrite lookup_insert_ne|]. by apply IH.
Qed.
End chain.

Abbreviation tchain := (chain t_siblings).
Abbreviation gchain := (chain g_siblings).

(** ** Running the state monad *)

Lemma get_thread_ok p t s : threads s !! p = Some t -> get_thread p s = Ok (t, s).
Proof. unfold get_thread. by intros ->. Qed.

Lemma get_group_ok p g s : groups s !! p = Some g -> get_group p s = Ok (g, s).
Proof. unfold get_group. by intros ->. Qed.

Lemma upd_thread_ok p t f s :
  threads s !! p = Some t ->
  upd_thread p f s = Ok (tt, set_threads (<[p := f t]> (threads s)) s).
Proof. intros H. unfold upd_thread, mbind, M_bind. by rewrite (get_thread_ok p t s H). Qed.

Lemma upd_group_ok p g f s :
  groups s !! p = Some g ->
  upd_group p f s = Ok (tt, set_groups (<[p := f g]> (groups s)) s).
Proof. intros H. unfold upd_group, mbind, M_bind. by rewrite (get_group_ok p g s H). Qed.

Lemma bind_gets {S A B} (f : S -> A) (k : A -> M S B) s : mbind k (gets f) s = k (f s) s.
Proof. done. Qed.

Lemma bind_get {S B} (k : S -> M S B) s : mbind k get s = k s s.
Proof. done. Qed.

Lemma bind_mret {S A B} (a : A) (k : A -> M S B) s : mbind k (mret a) s = k a s.
Proof. done. Qed.

Lemma bind_modify {S B} (f : S -> S) (k : unit -> M S B) s : mbind k (modify f) s = k tt (f s).
Proof. done. Qed.

Lemma bind_lift {S A B} (o : outcome A) a (k : A -> M S B) s :
  o = Ok a -> mbind k (lift o) s = k a s.
Proof. by intros ->. Qed.

(** One step of a monadic program: read or write an object whose contents are
    known (or found by the tactic [tac]). *)
Ltac mread tac :=
  first
    [ rewrite bind_gets | rewrite bind_get | rewrite bind_mret | rewrite bind_modify
    | erewrite (M_bind_ok (get_thread _)) by (apply get_thread_ok; tac)
    | erewrite (M_bind_ok (get_group _)) by (apply get_group_ok; tac)
    | erewrite (M_bind_ok (upd_thread _ _)) by (apply upd_thread_ok; tac)
    | erewrite (M_bind_ok (upd_group _ _)) by (apply upd_group_ok; tac)
    | erewrite (M_bind_ok (put_thread _ _)) by reflexivity
    | erewrite (M_bind_ok (put_group _ _)) by reflexivity ]; cbv beta; fsimpl.

Ltac mlook := fsimpl; (eassumption || (rewrite lookup_insert_eq; reflexivity)
  || (rewrite lookup_insert_ne by done; eassumption)).

Ltac msteps := repeat mread mlook.

(** ** Walking the chain of threads *)

Lemma thread_in_list_ok fuel s h l thread :
  tchain (threads s) h l -> (length l < fuel)%nat ->
  thread_in_list fuel h thread s = Ok (bool_decide (thread ∈ l), s).
Proof.
  intros H. revert fuel. induction H as [|p t l Hp Hc IH]; intros [|fuel] Hf; simpl in *; try lia.
  { done. }
  destruct (decide (p = thread)) as [->|Hd].
  - rewrite bool_decide_eq_true_2; [done|set_solver].
  - rewrite (M_bind_ok _ _ _ _ _ (get_thread_ok p t s Hp)), IH by lia.
    do 2 f_equal. apply bool_decide_ext. set_solver.
Qed.

Lemma is_thread_in_group_ok s gp g l thread :
  groups s !! gp = Some g -> tchain (threads s) (g_threads g) l ->
  is_thread_in_group (Some gp) (Some thread) s = Ok (bool_decide (thread ∈ l), s).
Proof.
  intros Hg Hc. unfold is_thread_in_group. msteps.
  apply thread_in_list_ok; [done|]. unfold thread_fuel.
  pose proof (chain_length _ _ _ _ Hc). lia.
Qed.

Lemma thread_list_tail_ok fuel s p l q :
  tchain (threads s) (Some p) l -> last l = Some q -> (length l <= fuel)%nat ->
  thread_list_tail fuel p s = Ok (q, s).
Proof.
  revert p l. induction fuel as [|fuel IH]; intros p l H Hl Hf.
  { inversion H; subst. simpl in *. lia. }
  inversion H as [|? t l' Ht Hc]; subst. simpl in *.
  rewrite (M_bind_ok _ _ _ _ _ (get_thread_ok p t s Ht)).
  destruct (t_siblings t) as [n|] eqn:E; inversion Hc; subst.
  - eapply IH; [done| |simpl in *; lia]. by simpl in *.
  - simpl in Hl. by simplify_eq.
Qed.

(** The heap once [thread] hangs behind the chain [l]. *)
Definition link_tail (l : list tptr) (thread : tptr) (m : gmap tptr wayca_thread)
    : gmap tptr wayca_thread :=
  match last l with
  | None => m
  | Some q => alter (set_t_siblings (Some thread)) q m
  end.

Definition link_head (l : list tptr) (thread : tptr) (g : wayca_sc_group) : wayca_sc_group :=
  match l with [] => set_g_threads (Some thread) g | _ => g end.

Lemma group_thread_add_to_tail_ok s gp g l thread :
  groups s !! gp = Some g -> tchain (threads s) (g_threads g) l ->
  group_thread_add_to_tail gp thread s =
  Ok (tt, set_threads (link_tail l thread (threads s))
            (set_groups (<[gp := link_head l thread g]> (groups s)) s)).
Proof.
  intros Hg Hc. unfold group_thread_add_to_tail, link_tail, link_head. msteps.
  destruct Hc as [|p t l Hp Hc].
  - rewrite (upd_group_ok gp g) by done. by destruct s.
  - msteps. assert (Hc' : tchain (threads s) (Some p) (p :: l)) by (by econstructor).
    destruct (last (p :: l)) as [q|] eqn:Hl; [|by apply last_None in Hl].
    pose proof (chain_length _ _ _ _ Hc') as Hlen.
    rewrite (M_bind_ok _ _ _ q s) by (eapply thread_list_tail_ok; eauto; unfold thread_fuel; lia).
    destruct (chain_dom _ _ _ _ q Hc') as [x Hx]; [by apply last_Some_elem_of|].
    rewrite (upd_thread_ok q x) by done. rewrite (insert_id (groups s)) by done.
    f_equal. f_equal. destruct s; unfold set_threads, set_groups; simpl in *. f_equal.
    apply map_eq. intros i. destruct (decide (i = q)) as [->|].
    + by rewrite lookup_insert_eq, lookup_alter_eq, Hx.
    + by rewrite lookup_insert_ne, lookup_alter_ne.
Qed.

Lemma chain_link_tail m h l thread t :
  tchain m h l -> thread ∉ l -> m !! thread = Some t -> t_siblings t = None ->
  tchain (link_tail l thread m) (match l with [] => Some thread | _ => h end) (l ++ [thread]).
Proof.
  intros Hc Hn Ht Hs. unfold link_tail.
  destruct l as [|p l0 _] using rev_ind.
  - simpl. econstructor; [done|]. rewrite Hs. constructor.
  - rewrite last_snoc. destruct (chain_suffix _ _ _ _ _ _ Hc) as (x & Hx & _).
    replace (match l0 ++ [p] with [] => Some thread | _ => h end) with h by (by destruct l0).
    replace (alter (set_t_siblings (Some thread)) p m) with (<[p := set_t_siblings (Some thread) x]> m).
    + rewrite <- app_assoc. simpl. eapply chain_redirect; [done|done|set_solver|].
      cbn. econstructor; [done|]. rewrite Hs. constructor.
    + apply map_eq. intros i. destruct (decide (i = p)) as [->|].
      * by rewrite lookup_insert_eq, lookup_alter_eq, Hx.
      * by rewrite lookup_insert_ne, lookup_alter_ne.
Qed.

Lemma alter_insert_lookup {A} (f : A -> A) (m : gmap nat A) p x :
  m !! p = Some x -> alter f p m = <[p := f x]> m.
Proof.
  intros H. apply map_eq. intros i. destruct (decide (i = p)) as [->|].
  - by rewrite lookup_insert_eq, lookup_alter_eq, H.
  - by rewrite lookup_insert_ne, lookup_alter_ne.
Qed.

(** The heap once [thread], which follows [l1], is taken out of its chain. *)
Definition unlink (l1 : list tptr) (thread : tptr) (t : wayca_thread)
    (m : gmap tptr wayca_thread) : gmap tptr wayca_thread :=
  <[thread := set_t_siblings None t]>
    (match last l1 with
     | None => m
     | Some q => alter (set_t_siblings (t_siblings t)) q m
     end).

Definition unlink_head (l1 : list tptr) (t : wayca_thread) (g : wayca_sc_group)
    : wayca_sc_group :=
  match l1 with [] => set_g_threads (t_siblings t) g | _ => g end.

Lemma thread_list_unlink_ok fuel s h l1 thread l2 t :
  tchain (threads s) h (l1 ++ thread :: l2) -> l1 <> [] -> threads s !! thread = Some t ->
  (length l1 <= fuel)%nat ->
  thread_list_unlink fuel h thread s = Ok (tt, set_threads (unlink l1 thread t (threads s)) s).
Proof.
  revert h l1. induction fuel as [|fuel IH]; intros h l1 Hc Hne Ht Hf.
  { destruct l1; simpl in *; [done|lia]. }
  pose proof (chain_NoDup _ _ _ _ Hc) as Hnd.
  destruct l1 as [|p l1]; [done|]. inversion Hc as [|? x ? Hx Hc']; subst. simpl.
  rewrite (M_bind_ok _ _ _ _ _ (get_thread_ok p x s Hx)). cbv beta.
  pose proof (chain_head _ _ _ _ Hc') as Hh. rewrite Hh.
  simpl in Hnd. apply NoDup_cons in Hnd as [Hp Hnd].
  destruct l1 as [|p' l1]; cbn [head app].
  - rewrite decide_True by done. msteps.
    rewrite (upd_thread_ok thread t) by (fsimpl; rewrite lookup_insert_ne by set_solver; done).
    unfold unlink. simpl. by rewrite (alter_insert_lookup _ _ p x) by done.
  - rewrite decide_False.
    2:{ intros E. simplify_eq/=. apply NoDup_cons in Hnd as [Hnd _]. set_solver. }
    assert (E : unlink (p :: p' :: l1) thread t (threads s) = unlink (p' :: l1) thread t (threads s))
      by done.
    rewrite E. cbn [head app] in Hh. rewrite <- Hh. apply (IH _ (p' :: l1)); try done. simpl in *. lia.
Qed.

Lemma group_thread_delete_thread_ok s gp g l1 thread l2 t :
  groups s !! gp = Some g -> tchain (threads s) (g_threads g) (l1 ++ thread :: l2) ->
  threads s !! thread = Some t ->
  group_thread_delete_thread gp thread s =
  Ok (tt, set_threads (unlink l1 thread t (threads s))
            (set_groups (<[gp := unlink_head l1 t g]> (groups s)) s)).
Proof.
  intros Hg Hc Ht. unfold group_thread_delete_thread. msteps.
  pose proof (chain_head _ _ _ _ Hc) as Hh. pose proof (chain_NoDup _ _ _ _ Hc) as Hnd.
  destruct l1 as [|p l1].
  - rewrite decide_True by (by rewrite Hh). msteps.
    rewrite (upd_thread_ok thread t) by done. done.
  - rewrite decide_False.
    2:{ rewrite Hh. simpl in *. apply NoDup_cons in Hnd as [Hnd _]. intros ?. simplify_eq. set_solver. }
    msteps. pose proof (chain_length _ _ _ _ Hc) as Hlen. rewrite length_app in Hlen.
    rewrite (thread_list_unlink_ok _ s _ (p :: l1) thread l2 t); try done.
    + simpl. rewrite (insert_id (groups s)) by done. by destruct s.
    + unfold thread_fuel. simpl in *. lia.
Qed.

Lemma chain_unlink m h l1 thread l2 t :
  tchain m h (l1 ++ thread :: l2) -> m !! thread = Some t ->
  tchain (unlink l1 thread t m) (match l1 with [] => t_siblings t | _ => h end) (l1 ++ l2).
Proof.
  intros Hc Ht. pose proof (chain_NoDup _ _ _ _ Hc) as Hnd.
  destruct (chain_suffix _ _ _ _ _ _ Hc) as (t' & Ht' & Hc2). simplify_eq.
  apply NoDup_app in Hnd as (Hnd1 & Hdisj & Hnd2). apply NoDup_cons in Hnd2 as [Hn2 _].
  unfold unlink. apply chain_insert_notin.
  { rewrite elem_of_app. intros [H|H]; [|done]. apply (Hdisj _ H). set_solver. }
  destruct l1 as [|q l1 _] using rev_ind; [done|].
  rewrite last_snoc. replace (match l1 ++ [q] with [] => t_siblings t | _ => h end) with h
    by (by destruct l1).
  rewrite <- app_assoc in Hc |- *. simpl in *.
  destruct (chain_suffix _ _ _ _ _ _ Hc) as (x & Hx & _).
  rewrite (alter_insert_lookup _ _ q x) by done.
  eapply chain_redirect; [done|done| |done].
  intros H. apply (Hdisj q); set_solver.
Qed.

(** ** Attaching a thread to a group *)

Section members.
Context `{T : Topology} `{Sys : System}.

(** What the two lists of a group hold, and that its counter agrees. *)
Record group_list (s : sched) (gp : gptr) (g : wayca_sc_group) (l : list tptr) : Prop := {
  gl_group : groups s !! gp = Some g;
  gl_chain : tchain (threads s) (g_threads g) l;
  gl_count : g_nr_threads g = Z.of_nat (length l);
  gl_owner : forall p t, p ∈ l -> threads s !! p = Some t -> t_group t = Some gp;
}.

Lemma link_tail_lookup_ne l thread m p :
  p ∉ l -> link_tail l thread m !! p = m !! p.
Proof using.
  intros Hp. unfold link_tail. destruct (last l) as [q|] eqn:E; [|done].
  apply lookup_alter_ne. intros ->. apply Hp. by apply last_Some_elem_of.
Qed.

Lemma link_tail_lookup l thread m p t :
  link_tail l thread m !! p = Some t ->
  exists t0, m !! p = Some t0 /\ t_group t = t_group t0.
Proof using.
  unfold link_tail. destruct (last l) as [q|]; [|eauto].
  rewrite lookup_alter_Some. naive_solver.
Qed.

(** The state after [thread] joined the group [gp] and was placed: [g'] and
    [t'] are what [assign_thread_resource] made of the group and the thread. *)
Definition joined (s : sched) (l : list tptr) (gp : gptr) (thread : tptr)
    (g' : wayca_sc_group) (t' : wayca_thread) : sched :=
  set_threads (<[thread := t']> (link_tail l thread (threads s)))
    (set_groups (<[gp := g']> (groups s)) s).

Lemma wayca_group_add_thread_ok n s gp g l thread t :
  group_list s gp g l -> g_nr_groups g = 0 ->
  thread ∉ l -> threads s !! thread = Some t ->
  group_ok n g -> loads_ok n g (wayca_cpu_loads s) ->
  let g1 := link_head l thread (set_g_nr_threads (g_nr_threads g + 1) g) in
  let t1 := set_t_group (Some gp) t in
  exists p g' t', placed n g1 t1 p g' t' /\
    wayca_group_add_thread gp thread s = Ok (0, joined s l gp thread g' t').
Proof using.
  intros [Hg Hc _ _] Hng Hn Ht Hok Hl g1 t1.
  assert (Hg1 : group_ok n g1 /\ loads_ok n g1 (wayca_cpu_loads s)).
  { unfold g1, link_head. split; [destruct Hok; by destruct l; constructor|].
    unfold loads_ok in *. by destruct l. }
  destruct Hg1 as [Hok1 Hl1].
  destruct (assign_placed_ok n g1 _ t1 Hok1 Hl1) as (p & g' & t' & _ & Ha & Hpl).
  exists p, g', t'. split; [done|].
  unfold wayca_group_add_thread.
  rewrite (M_bind_ok _ _ _ _ _ (is_thread_in_group_ok s gp g l thread Hg Hc)).
  rewrite bool_decide_eq_false_2 by done. msteps. rewrite Hng. cbn [Z.eqb negb].
  msteps.
  erewrite (M_bind_ok (group_thread_add_to_tail _ _)) by
    (eapply (group_thread_add_to_tail_ok _ gp _ l); fsimpl; [apply lookup_insert_eq|exact Hc]).
  cbv beta. fold g1. fsimpl. rewrite insert_insert_eq.
  assert (Htl : link_tail l thread (threads s) !! thread = Some t)
    by (by rewrite link_tail_lookup_ne).
  erewrite (M_bind_ok (upd_thread _ _)) by (apply upd_thread_ok; fsimpl; exact Htl). cbv beta. fsimpl.
  unfold wayca_group_assign_thread_resource. rewrite M_bind_assoc.
  mread ltac:(fsimpl; apply lookup_insert_eq). rewrite M_bind_assoc.
  mread ltac:(fsimpl; apply lookup_insert_eq). rewrite M_bind_assoc.
  rewrite bind_get, M_bind_assoc. fsimpl. rewrite (bind_lift _ _ _ _ Ha), M_bind_assoc.
  msteps. rewrite !insert_insert_eq. done.
Qed.

Lemma joined_group_list n s gp g l thread t p g' t' :
  group_list s gp g l -> thread ∉ l -> threads s !! thread = Some t -> t_siblings t = None ->
  placed n (link_head l thread (set_g_nr_threads (g_nr_threads g + 1) g))
    (set_t_group (Some gp) t) p g' t' ->
  group_list (joined s l gp thread g' t') gp g' (l ++ [thread]).
Proof using.
  intros [Hg Hc Hcnt Hown] Hn Ht Hs [_ Ht' _ _ Hg' _ _ _].
  assert (Hc' : tchain (link_tail l thread (threads s))
                  (match l with [] => Some thread | _ => g_threads g end) (l ++ [thread]))
    by (by eapply chain_link_tail).
  constructor; unfold joined; fsimpl.
  - apply lookup_insert_eq.
  - rewrite Hg'. unfold with_account, link_head. fsimpl.
    replace (g_threads _) with (match l with [] => Some thread | _ => g_threads g end)
      by (by destruct l).
    apply chain_insert; [|done]. intros _. exists t. rewrite link_tail_lookup_ne by done.
    split; [done|]. by rewrite Ht'.
  - rewrite Hg'. unfold with_account, link_head. rewrite length_app. simpl.
    destruct l; simpl in *; lia.
  - intros q x Hq. rewrite lookup_insert. case_decide as Hd.
    + intros E. injection E as <-. by rewrite Ht'.
    + intros (x0 & Hx0 & ->)%link_tail_lookup. apply (Hown q); [|done]. set_solver.
Qed.

(** The other members keep their placement. *)
Lemma joined_others s l gp thread g' t' q x :
  q <> thread -> threads s !! q = Some x ->
  exists x', threads (joined s l gp thread g' t') !! q = Some x' /\
    x' = set_t_siblings (t_siblings x') x.
Proof using.
  intros Hne Hx. unfold joined; fsimpl. rewrite lookup_insert_ne by done. unfold link_tail.
  destruct (last l) as [r|]; [|exists x; split; [done|by destruct x]].
  destruct (decide (r = q)) as [->|].
  - rewrite lookup_alter_eq, Hx. eexists. split; [reflexivity|done].
  - rewrite lookup_alter_ne by done. exists x. split; [done|by destruct x].
Qed.

(** [wayca_group_add_thread] on a thread that is in no list: it becomes the
    last member, the counter follows, the thread is placed on a free CPU of the
    group, every other thread and group keeps its contents, and the operating
    system is not called. *)
Theorem wayca_group_add_thread_correct n s gp g l thread t :
  group_list s gp g l -> g_nr_groups g = 0 ->
  thread ∉ l -> threads s !! thread = Some t -> t_siblings t = None ->
  group_ok n g -> loads_ok n g (wayca_cpu_loads s) ->
  exists p g' t' s',
    wayca_group_add_thread gp thread s = Ok (0, s') /\
    placed n (link_head l thread (set_g_nr_threads (g_nr_threads g + 1) g))
      (set_t_group (Some gp) t) p g' t' /\
    group_list s' gp g' (l ++ [thread]) /\ threads s' !! thread = Some t' /\
    (forall q, q <> gp -> groups s' !! q = groups s !! q) /\
    (forall q x, q <> thread -> threads s !! q = Some x ->
       exists x', threads s' !! q = Some x' /\ x' = set_t_siblings (t_siblings x') x) /\
    wayca_cpu_loads s' = wayca_cpu_loads s /\ trace s' = trace s.
Proof using.
  intros Hgl Hng Hn Ht Hs Hok Hl.
  destruct (wayca_group_add_thread_ok n s gp g l thread t) as (p & g' & t' & Hpl & Hrun); try done.
  exists p, g', t', (joined s l gp thread g' t').
  split; [done|]. split; [done|]. split; [by eapply joined_group_list|].
  split; [by apply lookup_insert_eq|]. split; [intros; by apply lookup_insert_ne|].
  split; [intros; by eapply joined_others|done].
Qed.

(** A thread that is already a member is rejected, and so is a thread for a
    group of groups; nothing changes. *)
Theorem wayca_group_add_thread_rejects s gp g l thread :
  groups s !! gp = Some g -> tchain (threads s) (g_threads g) l ->
  thread ∈ l \/ g_nr_groups g <> 0 ->
  wayca_group_add_thread gp thread s = Ok (- EINVAL, s).
Proof using.
  intros Hg Hc Hcase. unfold wayca_group_add_thread.
  rewrite (M_bind_ok _ _ _ _ _ (is_thread_in_group_ok s gp g l thread Hg Hc)).
  destruct (bool_decide_reflect (thread ∈ l)) as [Hin|Hn]; [done|].
  destruct Hcase as [|Hng]; [done|]. msteps.
  destruct (Z.eqb_spec (g_nr_groups g) 0); done.
Qed.

(** ** Detaching a thread *)

(** The state after [thread] left the group. *)
Definition parted (s : sched) (l1 : list tptr) (gp : gptr) (thread : tptr)
    (g : wayca_sc_group) (t : wayca_thread) : sched :=
  let g' := unlink_head l1 t (release_thread g t) in
  set_threads (<[thread := set_t_group None (set_t_siblings None t)]>
                 (unlink l1 thread t (threads s)))
    (set_groups (<[gp := set_g_nr_threads (g_nr_threads g' - 1) g']> (groups s)) s).

Lemma release_thread_list g t :
  g_threads (release_thread g t) = g_threads g /\
  g_nr_threads (release_thread g t) = g_nr_threads g.
Proof using. by rewrite release_with_account. Qed.

Lemma wayca_group_delete_thread_ok s gp g l1 thread l2 t :
  groups s !! gp = Some g -> tchain (threads s) (g_threads g) (l1 ++ thread :: l2) ->
  threads s !! thread = Some t ->
  wayca_group_delete_thread gp thread s = Ok (0, parted s l1 gp thread g t).
Proof using.
  intros Hg Hc Ht. unfold wayca_group_delete_thread.
  rewrite (M_bind_ok _ _ _ _ _ (is_thread_in_group_ok s gp g _ thread Hg Hc)).
  rewrite bool_decide_eq_true_2 by set_solver. cbn [negb]. msteps.
  erewrite (M_bind_ok (group_thread_delete_thread _ _)) by
    (eapply (group_thread_delete_thread_ok _ gp _ l1 thread l2 t); fsimpl;
      [apply lookup_insert_eq|rewrite (proj1 (release_thread_list g t)); exact Hc|exact Ht]).
  cbv beta. fsimpl. rewrite insert_insert_eq.
  erewrite (M_bind_ok (upd_thread _ _)) by (apply upd_thread_ok; fsimpl; apply lookup_insert_eq).
  cbv beta. fsimpl.
  erewrite (M_bind_ok (upd_group _ _)) by (apply upd_group_ok; fsimpl; apply lookup_insert_eq).
  cbv beta. fsimpl. by rewrite insert_insert_eq.
Qed.

Lemma unlink_lookup l1 thread t m q x :
  unlink l1 thread t m !! q = Some x -> q <> thread ->
  exists x0, m !! q = Some x0 /\ t_group x = t_group x0.
Proof using.
  unfold unlink. intros H Hne. rewrite lookup_insert_ne in H by done.
  destruct (last l1) as [r|]; [|eauto]. rewrite lookup_alter_Some in H. naive_solver.
Qed.

Lemma parted_group_list s gp g l1 thread l2 t :
  group_list s gp g (l1 ++ thread :: l2) -> threads s !! thread = Some t ->
  let g' := unlink_head l1 t (release_thread g t) in
  group_list (parted s l1 gp thread g t) gp (set_g_nr_threads (g_nr_threads g' - 1) g') (l1 ++ l2).
Proof using.
  intros [Hg Hc Hcnt Hown] Ht g'. pose proof (chain_NoDup _ _ _ _ Hc) as Hnd.
  pose proof (chain_unlink _ _ _ _ _ _ Hc Ht) as Hc'.
  destruct (release_thread_list g t) as [E1 E2].
  assert (Hn : thread ∉ l1 ++ l2).
  { apply NoDup_app in Hnd as (_ & Hd & [Hn2 _]%NoDup_cons).
    rewrite elem_of_app. intros [H|H]; [|done]. apply (Hd _ H). set_solver. }
  constructor; unfold parted; fsimpl.
  - apply lookup_insert_eq.
  - apply chain_insert_notin; [done|]. unfold g', unlink_head.
    destruct l1; fsimpl; [done|by rewrite E1].
  - unfold g', unlink_head. rewrite length_app in *. simpl in Hcnt.
    destruct l1; fsimpl; rewrite E2; simpl in *; lia.
  - intros q x Hq. rewrite lookup_insert_ne by (intros ->; done).
    intros H. destruct (unlink_lookup _ _ _ _ _ _ H) as (x0 & Hx0 & ->); [by intros ->|].
    apply (Hown q); [set_solver|done].
Qed.

(** [wayca_group_delete_thread] takes a member out of the list wherever it
    stands, keeps the order of the others, decrements the counter, returns the
    thread's CPUs to the accounting and clears the thread's links. *)
Theorem wayca_group_delete_thread_correct s gp g l1 thread l2 t :
  group_list s gp g (l1 ++ thread :: l2) -> threads s !! thread = Some t ->
  exists g' s',
    wayca_group_delete_thread gp thread s = Ok (0, s') /\
    group_list s' gp g' (l1 ++ l2) /\
    g_used g' = g_used (release_thread g t) /\
    g_roll_over_cnts g' = g_roll_over_cnts (release_thread g t) /\
    g_total g' = g_total g /\ g_attribute g' = g_attribute g /\
    threads s' !! thread = Some (set_t_group None (set_t_siblings None t)) /\
    wayca_cpu_loads s' = wayca_cpu_loads s /\ trace s' = trace s.
Proof using.
  intros Hgl Ht. pose proof (parted_group_list s gp g l1 thread l2 t Hgl Ht) as Hgl'.
  eexists _, (parted s l1 gp thread g t). split.
  { destruct Hgl. by apply (wayca_group_delete_thread_ok s gp g l1 thread l2 t). }
  split; [exact Hgl'|]. unfold unlink_head. fsimpl.
  repeat split; try (by destruct l1); try (rewrite release_with_account; by destruct l1).
  apply lookup_insert_eq.
Qed.

(** A thread that is not a member cannot be detached; nothing changes. *)
Theorem wayca_group_delete_thread_rejects s gp g l thread :
  groups s !! gp = Some g -> tchain (threads s) (g_threads g) l -> thread ∉ l ->
  wayca_group_delete_thread gp thread s = Ok (- EINVAL, s).
Proof using.
  intros Hg Hc Hn. unfold wayca_group_delete_thread.
  rewrite (M_bind_ok _ _ _ _ _ (is_thread_in_group_ok s gp g l thread Hg Hc)).
  by rewrite bool_decide_eq_false_2 by done.
Qed.
End members.

(** ** A group of two threads *)

Module TwoThreads.
Import Machine4.

Definition member (pos : Z) (next : option tptr) : wayca_thread :=
  mk_wayca_thread pos 0 0 pos (CPU_SET pos CPU_EMPTY) (CPU_SET pos CPU_EMPTY) next
    (Some 0%nat) 0 None 0 true.
Definition two : wayca_sc_group :=
  set_g_used (CPU_SET_range 0 2 CPU_EMPTY)
    (set_g_nr_threads 2 (set_g_threads (Some 0%nat) (group default_attr 1))).

(** Group 0 has the members 0 and 1; thread 2 and the group 1 are on their own. *)
Definition st : sched :=
  mk_sched {[ 0%nat := member 0 (Some 1%nat); 1%nat := member 1 None; 2%nat := thread ]}
    {[ 0%nat := two; 1%nat := group default_attr 1 ]} ∅ ∅ idle
    (CPU_SET_range 0 4 CPU_EMPTY) [] [] [] [].

Lemma two_chain : tchain (threads st) (g_threads two) [0%nat; 1%nat].
Proof. repeat (econstructor; [reflexivity|]). constructor. Qed.

Lemma two_list : group_list st 0 two [0%nat; 1%nat].
Proof.
  constructor; [reflexivity|apply two_chain|reflexivity|].
  intros p t Hp. assert (p = 0%nat \/ p = 1%nat) as [-> | ->] by set_solver;
    intros E; injection E as <-; reflexivity.
Qed.

Lemma alone_list : group_list st 1 (group default_attr 1) [].
Proof.
  constructor; [reflexivity|constructor|reflexivity|]. intros p t Hp. by apply elem_of_nil in Hp.
Qed.

Lemma wayca_group_add_thread_correct_witness :
  exists p g' t' s', wayca_group_add_thread 1 2 st = Ok (0, s') /\
    group_list s' 1 g' [2%nat] /\ threads s' !! 2%nat = Some t' /\ 0 <= p.
Proof.
  destruct (wayca_group_add_thread_correct 4 st 1 (group default_attr 1) [] 2 thread)
    as (p & g' & t' & s' & Hrun & Hpl & Hgl & Ht & _);
    [apply alone_list|reflexivity|apply not_elem_of_nil|reflexivity|reflexivity
    |apply group_default_ok|apply idle_ok|].
  exists p, g', t', s'. split; [exact Hrun|]. split; [exact Hgl|]. split; [exact Ht|apply Hpl].
Defined.

Lemma wayca_group_add_thread_rejects_witness :
  wayca_group_add_thread 0 1 st = Ok (- EINVAL, st).
Proof.
  apply (wayca_group_add_thread_rejects st 0 two [0%nat; 1%nat]);
    [reflexivity|apply two_chain|left; set_solver].
Defined.

Lemma wayca_group_delete_thread_correct_witness :
  exists g' s', wayca_group_delete_thread 0 0 st = Ok (0, s') /\ group_list s' 0 g' [1%nat].
Proof.
  destruct (wayca_group_delete_thread_correct st 0 two [] 0 [1%nat] (member 0 (Some 1%nat)))
    as (g' & s' & Hrun & Hgl & _); [apply two_list|reflexivity|].
  exists g', s'. split; [exact Hrun|exact Hgl].
Defined.

Lemma wayca_group_delete_thread_rejects_witness :
  wayca_group_delete_thread 0 2 st = Ok (- EINVAL, st).
Proof.
  apply (wayca_group_delete_thread_rejects st 0 two [0%nat; 1%nat]);
    [reflexivity|apply two_chain|set_solver].
Defined.
End TwoThreads.
