(* ===== verification/Threads.v ===== *)
(** * Threads and groups: the library's interface

    [lib/threads.c] without the CPU lists and bindings ([Affinity]) and the
    thread pools ([Threadpool]): the start-up of the library, the tables of
    identifiers, the life of threads and groups, and the operations that attach
    and detach them. The mutexes of the tables and of the load array are taken
    and released inside single functions and are not modelled; the mutex of a
    group is, because calls nest. The start of a new thread up to its user
    routine belongs to [wayca_sc_thread_create], which waits for it. *)

From S2P Require Import Prelude Bitops Cpuset Cstring State Group.

Definition DEFAULT_WAYCA_SC_THREADS_NUM : Z := 32760.
Definition DEFAULT_WAYCA_SC_GROUPS_NUM : Z := 256.
Definition DEFAULT_WAYCA_SC_THREADPOOLS_NUM : Z := 256.

(** ** Start-up *)

(** [!num || num >= ULLONG_MAX / sizeof(a pointer)] *)
Definition is_env_invalid (num : Z) : bool := (num =? 0) || (ULONG_MAX / 8 <=? num).

(** [p] is what [secure_getenv] returned. *)
Definition wayca_thread_init_from_envs (p : option cstring) (def : Z) : Z :=
  match p with
  | None => def
  | Some p =>
    let '(num, erange, _) := strtoul 10 p in
    if erange || is_env_invalid num then def else num
  end.

Section threads.
Context `{T : Topology} `{Sys : System}.

Definition malloc (what : alloc) : M sched bool :=
  s ← get;
  emit (EvMalloc what);;
  mret (sys_malloc (trace s) what).

(** The sizes of the tables are the lengths of the lists. *)
Definition wayca_thread_init (env_threads env_groups env_pools : option cstring) : M sched unit :=
  modify (set_total_cpu_set CPU_EMPTY);;
  let total_cpu_cnt := wayca_sc_cpus_in_total in
  if total_cpu_cnt <? 0 then mret tt else
  modify (fun s => set_total_cpu_set (CPU_SET_range 0 total_cpu_cnt (total_cpu_set s)) s);;
  ok ← malloc (ALoads total_cpu_cnt);
  if negb ok then mret tt else
  modify (set_wayca_cpu_loads (replicate (Z.to_nat total_cpu_cnt) 0));;
  let num := wayca_thread_init_from_envs env_threads DEFAULT_WAYCA_SC_THREADS_NUM in
  ok ← malloc (ATable num);
  if negb ok then mret tt else
  modify (set_wayca_threads_array (replicate (Z.to_nat num) None));;
  let num := wayca_thread_init_from_envs env_groups DEFAULT_WAYCA_SC_GROUPS_NUM in
  ok ← malloc (ATable num);
  if negb ok then modify (set_wayca_threads_array []) else
  modify (set_wayca_groups_array (replicate (Z.to_nat num) None));;
  let num := wayca_thread_init_from_envs env_pools DEFAULT_WAYCA_SC_THREADPOOLS_NUM in
  ok ← malloc (ATable num);
  if negb ok then mret tt else
  modify (set_wayca_threadpools_array (replicate (Z.to_nat num) None)).

(** The destructor of the library. The variables that hold the sizes of the
    tables keep their values; no function of the library runs after it. *)
Definition wayca_thread_exit : M sched unit :=
  modify (set_wayca_cpu_loads []);;
  modify (set_wayca_threads_array []);;
  modify (set_wayca_groups_array []);;
  modify (set_wayca_threadpools_array []).

(** ** Identifiers *)

(** The lowest free index of a table from [i] on. *)
Fixpoint find_free_id (i : Z) (array : list (option nat)) : option Z :=
  match array with
  | [] => None
  | None :: _ => Some i
  | Some _ :: array => find_free_id (i + 1) array
  end.

Definition find_free_thread_id_locked : M sched (option Z) :=
  gets (fun s => find_free_id 0 (wayca_threads_array s)).
Definition find_free_group_id_locked : M sched (option Z) :=
  gets (fun s => find_free_id 0 (wayca_groups_array s)).
Definition find_free_threadpool_id_locked : M sched (option Z) :=
  gets (fun s => find_free_id 0 (wayca_threadpools_array s)).

(** [array[id]] of an [id] that is compared with the size of the table first. *)
Definition is_id_valid (array : list (option nat)) (id : Z) : bool :=
  if Z.of_nat (length array) <=? id then false
  else match array !! Z.to_nat id with Some (Some _) => true | _ => false end.

Definition id_to_ptr (array : list (option nat)) (id : Z) : option nat :=
  if is_id_valid array id then mjoin (array !! Z.to_nat id) else None.

Definition id_to_wayca_thread (id : Z) : M sched (option tptr) :=
  gets (fun s => id_to_ptr (wayca_threads_array s) id).
Definition id_to_wayca_group (id : Z) : M sched (option gptr) :=
  gets (fun s => id_to_ptr (wayca_groups_array s) id).
Definition id_to_wayca_threadpool (id : Z) : M sched (option nat) :=
  gets (fun s => id_to_ptr (wayca_threadpools_array s) id).

(** An object after [memset] with 0. *)
Definition zero_thread : wayca_thread :=
  mk_wayca_thread 0 0 0 0 CPU_EMPTY CPU_EMPTY None None 0 None 0 false.
Definition zero_group : wayca_sc_group :=
  mk_wayca_sc_group 0 None 0 None None None 0 CPU_EMPTY CPU_EMPTY 0 false 0 0 0 0.

Definition wayca_thread_alloc : M sched (option tptr) :=
  id ← find_free_thread_id_locked;
  match id with
  | None => mret None
  | Some id =>
    ok ← malloc AThread;
    if negb ok then mret None else
    p ← gets (fun s => fresh (dom (threads s)));
    modify (fun s => set_wayca_threads_array
                       (<[Z.to_nat id := Some p]> (wayca_threads_array s)) s);;
    put_thread p (set_t_id id zero_thread);;
    mret (Some p)
  end.

(** [wayca_threads_array[thread->id] = NULL; free(thread);] *)
Definition free_thread (thread : tptr) : M sched unit :=
  t ← get_thread thread;
  modify (fun s => set_wayca_threads_array
                     (<[Z.to_nat (t_id t) := None]> (wayca_threads_array s)) s);;
  modify (fun s => set_threads (delete thread (threads s)) s).

Definition wayca_thread_free (thread : tptr) : M sched unit :=
  wayca_thread_update_load thread false;;
  free_thread thread.

Definition wayca_group_alloc : M sched (option gptr) :=
  id ← find_free_group_id_locked;
  match id with
  | None => mret None
  | Some id =>
    ok ← malloc AGroup;
    if negb ok then mret None else
    p ← gets (fun s => fresh (dom (groups s)));
    modify (fun s => set_wayca_groups_array
                       (<[Z.to_nat id := Some p]> (wayca_groups_array s)) s);;
    put_group p (set_g_id id zero_group);;
    mret (Some p)
  end.

Definition wayca_group_free (group : gptr) : M sched unit :=
  g ← get_group group;
  modify (fun s => set_wayca_groups_array
                     (<[Z.to_nat (g_id g) := None]> (wayca_groups_array s)) s);;
  modify (fun s => set_groups (delete group (groups s)) s).

(** ** Locks *)

(** A second lock by the thread that holds the mutex never returns. *)
Definition lock_group (group : gptr) : M sched unit :=
  g ← get_group group;
  if g_mutex g then throw Deadlock else put_group group (set_g_mutex true g).
Definition unlock_group (group : gptr) : M sched unit :=
  upd_group group (set_g_mutex false).

(** ** Threads *)

(** [ret < 0 ? -errno : ret] of the system call, which is what [sys_gettid]
    answers. *)
Definition thread_sched_gettid : M sched Z :=
  s ← get;
  emit EvGettid;;
  mret (sys_gettid (trace s)).

(** [CPU_ZERO(&cpuset); ret = sched_getaffinity(pid, ..., &cpuset);] *)
Definition sched_getaffinity (pid : Z) : M sched (Z * cpu_set_t) :=
  s ← get;
  emit (EvGetaffinity pid);;
  mret (match sys_getaffinity (trace s) pid with
        | inl err => (err, CPU_EMPTY)
        | inr set => (0, set)
        end).

(** [CPU_ZERO] of both sets of the thread and [CPU_OR] with [cpuset]. *)
Definition set_thread_sets (cpuset : cpu_set_t) (t : wayca_thread) : wayca_thread :=
  set_t_allowed_set (CPU_OR (CPU_ZERO (t_allowed_set t)) cpuset)
    (set_t_cur_set (CPU_OR (CPU_ZERO (t_cur_set t)) cpuset) t).

(** The start of the new thread, up to the call of the user's routine. *)
Definition wayca_thread_start_routine (thread : tptr) : M sched unit :=
  pid ← thread_sched_gettid;
  upd_thread thread (set_t_pid pid);;
  r ← sched_getaffinity pid;
  upd_thread thread (set_thread_sets r.2);;
  wayca_thread_update_load thread true;;
  upd_thread thread (set_t_start true).

(** [attr] is the pointer argument: the value it points to, or NULL. *)
Definition wayca_sc_thread_set_attr (wthread : Z) (attr : option Z) : M sched Z :=
  wt_p ← id_to_wayca_thread wthread;
  match wt_p, attr with
  | Some wt_p, Some attr =>
    upd_thread wt_p (set_t_attribute attr);;
    t ← get_thread wt_p;
    when (if t_group t then true else false) (wayca_group_rearrange_thread wt_p;; mret tt);;
    t ← get_thread wt_p;
    thread_sched_setaffinity (t_pid t) sizeof_cpu_set_t (t_cur_set t)
  | _, _ => mret (- EINVAL)
  end.

(** The result and, when it is 0, the attribute. [attr] tells whether the
    pointer is not NULL. *)
Definition wayca_sc_thread_get_attr (wthread : Z) (attr : bool) : M sched (Z * option Z) :=
  wt_p ← id_to_wayca_thread wthread;
  match wt_p with
  | Some wt_p =>
    if negb attr then mret (- EINVAL, None) else
    t ← get_thread wt_p;
    mret (0, Some (t_attribute t))
  | None => mret (- EINVAL, None)
  end.

(** [wthread] tells whether the pointer is not NULL; the identifier is the
    second component of the result. *)
Definition wayca_sc_thread_create (wthread : bool) (start_routine : option Z) (arg : Z)
    : M sched (Z * option Z) :=
  match wthread, start_routine with
  | true, Some start_routine =>
    wt_p ← wayca_thread_alloc;
    match wt_p with
    | None => mret (- ENOMEM, None)
    | Some wt_p =>
      upd_thread wt_p (fun t =>
        set_t_start false (set_t_arg arg (set_t_start_routine (Some start_routine)
          (set_t_group None (set_t_siblings None t)))));;
      s ← get;
      emit EvPthreadCreate;;
      match sys_pthread_create (trace s) with
      | inl retval =>
        wayca_thread_free wt_p;;
        mret (- retval, None)
      | inr thread =>
        upd_thread wt_p (set_t_thread thread);;
        wayca_thread_start_routine wt_p;;
        t ← get_thread wt_p;
        mret (0, Some (t_id t))
      end
    end
  | _, _ => mret (- EINVAL, None)
  end.

Definition wayca_sc_thread_detach_group (wthread group : Z) : M sched Z :=
  wt_p ← id_to_wayca_thread wthread;
  wg_p ← id_to_wayca_group group;
  match wt_p, wg_p with
  | Some wt_p, Some wg_p =>
    lock_group wg_p;;
    ret ← wayca_group_delete_thread wg_p wt_p;
    unlock_group wg_p;;
    mret ret
  | _, _ => mret (- EINVAL)
  end.

(** [if (thread->group) wayca_sc_thread_detach_group(wthread, thread->group->id);] *)
Definition leave_group (wthread : Z) (thread : tptr) : M sched unit :=
  t ← get_thread thread;
  match t_group t with
  | None => mret tt
  | Some group =>
    g ← get_group group;
    wayca_sc_thread_detach_group wthread (g_id g);;
    mret tt
  end.

Definition wayca_sc_thread_join (wthread : Z) : M sched Z :=
  thread ← id_to_wayca_thread wthread;
  match thread with
  | None => mret (- EINVAL)
  | Some thread =>
    t ← get_thread thread;
    match t_start_routine t with
    | None => mret (- EINVAL)
    | Some _ =>
      s ← get;
      emit (EvPthreadJoin (t_thread t));;
      let ret := - sys_pthread_join (trace s) (t_thread t) in
      leave_group wthread thread;;
      wayca_thread_free thread;;
      mret ret
    end
  end.

(** [sys_tkill] answers 0 or the negated error number. *)
Definition wayca_sc_thread_kill (wthread sig : Z) : M sched Z :=
  thread ← id_to_wayca_thread wthread;
  match thread with
  | None => mret (- EINVAL)
  | Some thread =>
    t ← get_thread thread;
    s ← get;
    match t_start_routine t with
    | Some _ =>
      emit (EvPthreadKill (t_thread t) sig);;
      mret (- sys_pthread_kill (trace s) (t_thread t) sig)
    | None =>
      emit (EvTkill (t_pid t) sig);;
      mret (sys_tkill (trace s) (t_pid t) sig)
    end
  end.

Definition wayca_sc_pid_attach_thread (wthread : bool) (pid : Z) : M sched (Z * option Z) :=
  if negb wthread || (pid <? 0) then mret (- EINVAL, None) else
  wt_p ← wayca_thread_alloc;
  match wt_p with
  | None => mret (- ENOMEM, None)
  | Some wt_p =>
    upd_thread wt_p (fun t =>
      set_t_arg 0 (set_t_start_routine None (set_t_group None (set_t_siblings None t))));;
    pid ← (if pid =? 0 then thread_sched_gettid else mret pid);
    upd_thread wt_p (set_t_pid pid);;
    r ← sched_getaffinity pid;
    if r.1 <? 0 then
      wayca_thread_free wt_p;;
      mret (r.1, None)
    else
      upd_thread wt_p (set_thread_sets r.2);;
      wayca_thread_update_load wt_p true;;
      upd_thread wt_p (set_t_start true);;
      t ← get_thread wt_p;
      mret (0, Some (t_id t))
  end.

Definition wayca_sc_pid_detach_thread (wthread : Z) : M sched Z :=
  thread ← id_to_wayca_thread wthread;
  match thread with
  | None => mret (- EINVAL)
  | Some thread =>
    t ← get_thread thread;
    match t_start_routine t with
    | Some _ => mret (- EINVAL)
    | None =>
      leave_group wthread thread;;
      wayca_thread_update_load thread false;;
      wayca_thread_free thread;;
      mret 0
    end
  end.

(** ** Groups *)

(** The result and what [*attr] holds afterwards. *)
Definition wayca_sc_group_set_attr (group : Z) (attr : option Z) : M sched (Z * option Z) :=
  match attr with
  | None => mret (- EINVAL, None)
  | Some new_attr =>
    wg_p ← id_to_wayca_group group;
    match wg_p with
    | None => mret (- EINVAL, attr)
    | Some wg_p =>
      lock_group wg_p;;
      g ← get_group wg_p;
      let old_attr := g_attribute g in
      upd_group wg_p (set_g_attribute new_attr);;
      ret ← wayca_group_rearrange_group wg_p;
      when (ret <? 0) (upd_group wg_p (set_g_attribute old_attr));;
      g ← get_group wg_p;
      unlock_group wg_p;;
      mret (ret, Some (g_attribute g))
    end
  end.

Definition wayca_sc_group_get_attr (group : Z) (attr : bool) : M sched (Z * option Z) :=
  if negb attr then mret (- EINVAL, None) else
  wg_p ← id_to_wayca_group group;
  match wg_p with
  | None => mret (- EINVAL, None)
  | Some wg_p =>
    lock_group wg_p;;
    g ← get_group wg_p;
    unlock_group wg_p;;
    mret (0, Some (g_attribute g))
  end.

Definition wayca_sc_group_create (group : bool) : M sched (Z * option Z) :=
  if negb group then mret (- EINVAL, None) else
  wg_p ← wayca_group_alloc;
  match wg_p with
  | None => mret (- ENOMEM, None)
  | Some wg_p =>
    ret ← wayca_group_init (Some wg_p);
    if ret <? 0 then wayca_group_free wg_p;; mret (ret, None)
    else g ← get_group wg_p; mret (0, Some (g_id g))
  end.

Definition wayca_sc_group_attach_group (group father : Z) : M sched Z :=
  wg_p ← id_to_wayca_group group;
  father_p ← id_to_wayca_group father;
  match wg_p, father_p with
  | Some wg_p, Some father_p =>
    g ← get_group wg_p;
    match g_father g with
    | Some _ => mret (- EINVAL)
    | None =>
      lock_group wg_p;;
      lock_group father_p;;
      ret ← wayca_group_add_group wg_p father_p;
      unlock_group father_p;;
      unlock_group wg_p;;
      mret ret
    end
  | _, _ => mret (- EINVAL)
  end.

Definition wayca_sc_group_detach_group (group father : Z) : M sched Z :=
  wg_p ← id_to_wayca_group group;
  father_p ← id_to_wayca_group father;
  match wg_p, father_p with
  | Some wg_p, Some father_p =>
    lock_group wg_p;;
    lock_group father_p;;
    ret ← wayca_group_delete_group wg_p father_p;
    unlock_group father_p;;
    unlock_group wg_p;;
    mret ret
  | _, _ => mret (- EINVAL)
  end.

Definition wayca_sc_group_destroy (group : Z) : M sched Z :=
  wg_p ← id_to_wayca_group group;
  match wg_p with
  | None => mret (- EINVAL)
  | Some wg_p =>
    lock_group wg_p;;
    g ← get_group wg_p;
    unlock_group wg_p;;
    if negb (g_nr_threads g =? 0) || negb (g_nr_groups g =? 0) then mret (- EBUSY) else
    g ← get_group wg_p;
    match g_father g with
    | None => mret tt
    | Some father =>
      f ← get_group father;
      wayca_sc_group_detach_group group (g_id f);;
      mret tt
    end;;
    wayca_group_free wg_p;;
    mret 0
  end.

Definition wayca_sc_thread_attach_group (wthread group : Z) : M sched Z :=
  wt_p ← id_to_wayca_thread wthread;
  wg_p ← id_to_wayca_group group;
  match wt_p, wg_p with
  | Some wt_p, Some wg_p =>
    t ← get_thread wt_p;
    match t_group t with
    | Some _ => mret (- EINVAL)
    | None =>
      wayca_thread_update_load wt_p false;;
      lock_group wg_p;;
      ret ← wayca_group_add_thread wg_p wt_p;
      ret ← (if negb (ret =? 0) then
               wayca_thread_update_load wt_p true;; mret ret
             else wayca_group_rearrange_thread wt_p);
      unlock_group wg_p;;
      mret ret
    end
  | _, _ => mret (- EINVAL)
  end.

Definition wayca_sc_is_thread_in_group (thread group : Z) : M sched Z :=
  wt_p ← id_to_wayca_thread thread;
  wg_p ← id_to_wayca_group group;
  match wt_p, wg_p with
  | Some _, Some _ =>
    b ← is_thread_in_group wg_p wt_p;
    mret (Z.b2z b)
  | _, _ => mret (- EINVAL)
  end.

Definition wayca_sc_is_group_in_group (target group : Z) : M sched Z :=
  wg_p ← id_to_wayca_group target;
  father_p ← id_to_wayca_group group;
  match wg_p, father_p with
  | Some wg_p, Some father_p =>
    b ← is_group_in_father wg_p father_p;
    mret (Z.b2z b)
  | _, _ => mret (- EINVAL)
  end.

(** [cpuset] tells whether the pointer is not NULL. *)
Definition wayca_sc_thread_get_cpuset (wthread cpusetsize : Z) (cpuset : bool)
    : M sched (Z * option cpu_set_t) :=
  if negb cpuset then mret (- EINVAL, None) else
  wt_p ← id_to_wayca_thread wthread;
  match wt_p with
  | None => mret (- EINVAL, None)
  | Some wt_p =>
    let valid_cpu_setsize := CPU_ALLOC_SIZE wayca_sc_cpus_in_total in
    if cpusetsize <? valid_cpu_setsize then mret (- EINVAL, None) else
    t ← get_thread wt_p;
    mret (0, Some (CPU_OR CPU_EMPTY (t_cur_set t)))
  end.

Definition wayca_sc_group_get_cpuset (group cpusetsize : Z) (cpuset : bool)
    : M sched (Z * option cpu_set_t) :=
  if negb cpuset then mret (- EINVAL, None) else
  wg_p ← id_to_wayca_group group;
  match wg_p with
  | None => mret (- EINVAL, None)
  | Some wg_p =>
    let valid_cpu_setsize := CPU_ALLOC_SIZE wayca_sc_cpus_in_total in
    if cpusetsize <? valid_cpu_setsize then mret (- EINVAL, None) else
    g ← get_group wg_p;
    mret (0, Some (CPU_OR CPU_EMPTY (g_total g)))
  end.

End threads.
