(* ===== verification/Lifecycle.v ===== *)
(** * The life of threads: identifiers and loads

    Invariants of the state behind the interface of [Threads]: the tables of
    identifiers agree with the live objects, and the load of a CPU is the sum
    over the live threads of what each contributes to it. *)

From S2P Require Import Prelude Bitops Cpuset Cstring State Group Placement Accounting Members.
From S2P Require Import Threads.

(** ** Identifiers *)

Lemma find_free_id_spec i array :
  match find_free_id i array with
  | Some id => i <= id < i + Z.of_nat (length array) /\
      array !! Z.to_nat (id - i) = Some None /\
      forall j, (j < Z.to_nat (id - i))%nat -> exists p, array !! j = Some (Some p)
  | None => forall j x, array !! j = Some x -> exists p, x = Some p
  end.
Proof.
  revert i. induction array as [|[p|] array IH]; intros i; cbn [find_free_id].
  - intros j x Hj. by rewrite lookup_nil in Hj.
  - specialize (IH (i + 1)). destruct (find_free_id (i + 1) array) as [id|].
    + destruct IH as (Hr & Hn & Hl). cbn [length]. split; [lia|].
      replace (Z.to_nat (id - i)) with (S (Z.to_nat (id - (i + 1)))) by lia.
      split; [done|]. intros [|j] Hj; [by exists p|]. apply Hl. lia.
    + intros [|j] x Hj; [|by apply (IH j)]. injection Hj as <-. by exists p.
  - cbn [length]. rewrite Z.sub_diag. split; [lia|]. split; [done|]. simpl. lia.
Qed.

Lemma id_to_ptr_Some array id p :
  0 <= id -> id_to_ptr array id = Some p <-> array !! Z.to_nat id = Some (Some p).
Proof.
  intros Hid. unfold id_to_ptr, is_id_valid.
  destruct (Z.leb_spec (Z.of_nat (length array)) id).
  - rewrite lookup_ge_None_2 by lia. done.
  - destruct (array !! Z.to_nat id) as [[q|]|]; simpl; naive_solver.
Qed.

(** A table of identifiers and the heap it points into. *)
Record table_ok {A} (get_id : A -> Z) (array : list (option nat)) (m : gmap nat A) : Prop := {
  tb_live : forall i p, array !! i = Some (Some p) ->
    exists x, m !! p = Some x /\ get_id x = Z.of_nat i;
  tb_id : forall p x, m !! p = Some x -> 0 <= get_id x /\
    array !! Z.to_nat (get_id x) = Some (Some p);
}.

Lemma table_lookup {A} (get_id : A -> Z) array m p x :
  table_ok get_id array m -> m !! p = Some x -> id_to_ptr array (get_id x) = Some p.
Proof. intros [_ H] Hx. destruct (H p x Hx). by apply id_to_ptr_Some. Qed.

(** An object keeps its identifier. *)
Lemma table_update {A} (get_id : A -> Z) array m p x x' :
  table_ok get_id array m -> m !! p = Some x -> get_id x' = get_id x ->
  table_ok get_id array (<[p := x']> m).
Proof.
  intros [Hl Hi] Hx E. constructor.
  - intros i q Hq. destruct (Hl i q Hq) as (y & Hy & Hyi).
    destruct (decide (q = p)) as [->|]; [|exists y; by rewrite lookup_insert_ne].
    exists x'. rewrite lookup_insert_eq. simplify_eq. by rewrite E.
  - intros q y. destruct (decide (q = p)) as [->|].
    + rewrite lookup_insert_eq. intros [= <-]. rewrite E. by apply Hi.
    + rewrite lookup_insert_ne by done. by apply Hi.
Qed.

Lemma table_alloc {A} (get_id : A -> Z) array m p x id :
  table_ok get_id array m -> array !! Z.to_nat id = Some None -> 0 <= id ->
  m !! p = None -> get_id x = id ->
  table_ok get_id (<[Z.to_nat id := Some p]> array) (<[p := x]> m).
Proof.
  intros [Hl Hi] Hf Hid Hp Hx. pose proof (lookup_lt_Some _ _ _ Hf) as Hlt. constructor.
  - intros i q. rewrite list_lookup_insert. case_decide as Hd.
    + intros [= <-]. exists x. rewrite lookup_insert_eq. split; [done|lia].
    + intros Hq. destruct (Hl i q Hq) as (y & Hy & Hyi). exists y.
      rewrite lookup_insert_ne by (intros ->; simplify_eq). done.
  - intros q y. destruct (decide (q = p)) as [->|].
    + rewrite lookup_insert_eq. intros [= <-]. rewrite Hx. split; [done|].
      by rewrite list_lookup_insert, decide_True by done.
    + rewrite lookup_insert_ne by done. intros Hy. destruct (Hi q y Hy) as [H0 Hq].
      split; [done|]. rewrite list_lookup_insert, decide_False; [done|].
      intros [E _]. rewrite <- E in Hq. simplify_eq.
Qed.

Lemma table_free {A} (get_id : A -> Z) array m p x :
  table_ok get_id array m -> m !! p = Some x ->
  table_ok get_id (<[Z.to_nat (get_id x) := None]> array) (delete p m).
Proof.
  intros [Hl Hi] Hx. destruct (Hi p x Hx) as [H0 Hp]. constructor.
  - intros i q. rewrite list_lookup_insert. case_decide as Hd; [done|].
    intros Hq. destruct (Hl i q Hq) as (y & Hy & Hyi). exists y.
    rewrite lookup_delete_ne; [done|]. intros ->. simplify_eq.
    apply Hd. split; [lia|]. by eapply lookup_lt_Some.
  - intros q y. destruct (decide (q = p)) as [->|]; [by rewrite lookup_delete_eq|].
    rewrite lookup_delete_ne by done. intros Hy. destruct (Hi q y Hy) as [H0' Hq].
    split; [done|]. rewrite list_lookup_insert, decide_False; [done|].
    intros [E _]. assert (get_id x = get_id y) by lia. naive_solver congruence.
Qed.

(** ** Loads *)

(** What a thread bound to [set] contributes to CPU [c] of [total]. *)
Definition set_load (total : Z) (set : cpu_set_t) (c : Z) : Z :=
  if bool_decide (c ∈ cpus set) then Common.div_round_up total (CPU_COUNT set) else 0.

Definition total_load (total : Z) (sets : gmap nat cpu_set_t) (c : Z) : Z :=
  map_fold (fun _ set acc => set_load total set c + acc) 0 sets.

Lemma total_load_insert total sets p set c :
  sets !! p = None ->
  total_load total (<[p := set]> sets) c = set_load total set c + total_load total sets c.
Proof.
  intros H. unfold total_load. rewrite map_fold_insert_L; [done| |done].
  intros. lia.
Qed.

Lemma total_load_delete total sets p set c :
  sets !! p = Some set ->
  total_load total sets c = set_load total set c + total_load total (delete p sets) c.
Proof.
  intros H. rewrite <- (insert_delete_id sets p set) at 1 by done.
  apply total_load_insert. apply lookup_delete_eq.
Qed.

(** The affinity sets of the live threads. *)
Definition sets_of (m : gmap tptr wayca_thread) : gmap nat cpu_set_t := t_cur_set <$> m.

(** The loads account for the sets [sets] on a machine of [n] CPUs. *)
Record loads_for (n : Z) (loads : list Z) (sets : gmap nat cpu_set_t) : Prop := {
  lf_length : Z.of_nat (length loads) = n;
  lf_sets : forall p set, sets !! p = Some set ->
    cpuset_wf set /\ forall i, i ∈ cpus set -> i < n;
  lf_load : forall c, 0 <= c -> load_of loads c = total_load n sets c;
}.

Lemma set_load_zero n c : set_load n CPU_EMPTY c = 0.
Proof.
  unfold set_load. rewrite cpus_EMPTY. by rewrite bool_decide_eq_false_2 by set_solver.
Qed.

Lemma set_in_loads n (loads : list Z) set :
  Z.of_nat (length loads) = n -> (forall i, i ∈ cpus set -> i < n) ->
  Forall (fun i => 0 <= i < Z.of_nat (length loads)) (cpus set).
Proof.
  intros Hl H. apply Forall_forall. intros i Hi. specialize (H i Hi).
  apply elem_of_cpus in Hi. lia.
Qed.

(** The change that [update_load] makes, for both directions. *)
Lemma update_load_change n loads set add :
  cpuset_wf set -> Z.of_nat (length loads) = n -> (forall i, i ∈ cpus set -> i < n) ->
  exists loads', update_load n set add loads = Ok loads' /\ length loads' = length loads /\
    forall c, 0 <= c -> load_of loads' c = load_of loads c +
      if add then set_load n set c else - set_load n set c.
Proof.
  intros Hw Hl Hn. pose proof (set_in_loads n loads set Hl Hn) as Hin.
  rewrite update_load_ok by done. eexists. split; [done|].
  destruct (Z.eqb_spec (CPU_COUNT set) 0) as [E|Hne].
  - split; [done|]. intros c Hc. apply CPU_COUNT_zero in E as ->; [|done].
    rewrite set_load_zero. destruct add; lia.
  - split; [apply length_loads_plus|]. intros c Hc.
    rewrite load_of_loads_plus by (done || apply cpus_NoDup).
    unfold set_load. destruct (bool_decide _), add; lia.
Qed.

(** Adding and removing the contribution of one thread. *)
Lemma loads_for_add n loads sets p set :
  loads_for n loads sets -> sets !! p = None ->
  cpuset_wf set -> (forall i, i ∈ cpus set -> i < n) ->
  exists loads', update_load n set true loads = Ok loads' /\ loads_for n loads' (<[p := set]> sets).
Proof.
  intros [Hl Hs Hc] Hp Hw Hn. destruct (update_load_change n loads set true) as (l' & E & Hl' & Hc'); try done.
  exists l'. split; [done|]. constructor; [lia| |].
  - intros q x. destruct (decide (q = p)) as [->|].
    + rewrite lookup_insert_eq. by intros [= <-].
    + rewrite lookup_insert_ne by done. apply Hs.
  - intros c H0. rewrite total_load_insert, Hc', Hc by done. lia.
Qed.

Lemma loads_for_remove n loads sets p set :
  loads_for n loads sets -> sets !! p = Some set ->
  exists loads', update_load n set false loads = Ok loads' /\ loads_for n loads' (delete p sets) /\
    forall c, 0 <= c -> load_of loads' c = load_of loads c - set_load n set c.
Proof.
  intros [Hl Hs Hc] Hp. destruct (Hs p set Hp) as [Hw Hn].
  destruct (update_load_change n loads set false) as (l' & E & Hl' & Hc'); try done.
  exists l'. split; [done|]. split; [|intros; rewrite Hc' by done; lia]. constructor; [lia| |].
  - intros q x [_ Hx]%lookup_delete_Some. by apply (Hs q).
  - intros c H0. rewrite Hc', Hc by done. rewrite (total_load_delete n sets p set) by done. lia.
Qed.

(** A thread that is bound to nothing contributes nothing. *)
Lemma loads_for_empty n loads sets p :
  loads_for n loads sets -> sets !! p = None -> loads_for n loads (<[p := CPU_EMPTY]> sets).
Proof.
  intros [Hl Hs Hc] Hp. constructor; [done| |].
  - intros q x. destruct (decide (q = p)) as [->|].
    + rewrite lookup_insert_eq. intros [= <-]. split; [apply CPU_EMPTY_wf|].
      rewrite cpus_EMPTY. set_solver.
    + rewrite lookup_insert_ne by done. apply Hs.
  - intros c H0. by rewrite total_load_insert, set_load_zero, Hc.
Qed.

(** Less load on every CPU does no harm to a search. *)
Lemma loads_ok_le n g loads loads' :
  loads_ok n g loads -> length loads' = length loads ->
  (forall c, 0 <= c -> load_of loads' c <= load_of loads c) ->
  0 <= g_nr_cpus_per_topo g -> loads_ok n g loads'.
Proof.
  intros [Hl Hm] Hl' Hle Hnr. split; [lia|]. intros k Hk. specialize (Hm k Hk).
  enough (region_load loads' (g_nr_cpus_per_topo g) (g_nr_cpus_per_topo g * k) <=
          region_load loads (g_nr_cpus_per_topo g) (g_nr_cpus_per_topo g * k)) by lia.
  unfold region_load.
  assert (H : Forall (fun i => 0 <= i) (seqZ (g_nr_cpus_per_topo g * k) (g_nr_cpus_per_topo g))).
  { apply Forall_seqZ. intros i Hi. nia. }
  induction H as [|i l Hi _ IH]; simpl; [lia|]. specialize (Hle i Hi). lia.
Qed.

Lemma set_load_nonneg n set c : cpuset_wf set -> 0 <= n -> 0 <= set_load n set c.
Proof.
  intros Hw Hn. unfold set_load. case_bool_decide as Hc; [|lia].
  unfold Common.div_round_up. assert (0 < CPU_COUNT set).
  { rewrite CPU_COUNT_cpus by done. destruct (cpus set); [set_solver|simpl; lia]. }
  apply Z.quot_pos; lia.
Qed.

(** ** The interface *)

Section interface.
Context `{T : Topology} `{Sys : System}.
Abbreviation n := wayca_sc_cpus_in_total.

Record state_ok (s : sched) : Prop := {
  so_threads : table_ok t_id (wayca_threads_array s) (threads s);
  so_groups : table_ok g_id (wayca_groups_array s) (groups s);
  so_loads : loads_for n (wayca_cpu_loads s) (sets_of (threads s));
}.

Lemma update_load_run s p t add loads' :
  threads s !! p = Some t ->
  update_load n (t_cur_set t) add (wayca_cpu_loads s) = Ok loads' ->
  wayca_thread_update_load p add s = Ok (tt, set_wayca_cpu_loads loads' s).
Proof using.
  intros Ht Hu. unfold wayca_thread_update_load. msteps. by rewrite (bind_lift _ _ _ _ Hu).
Qed.

Lemma lock_group_run s p g :
  groups s !! p = Some g -> g_mutex g = false ->
  lock_group p s = Ok (tt, set_groups (<[p := set_g_mutex true g]> (groups s)) s).
Proof using. intros Hg Hm. unfold lock_group. msteps. by rewrite Hm. Qed.

Lemma id_to_thread_run s p t id :
  table_ok t_id (wayca_threads_array s) (threads s) -> threads s !! p = Some t -> t_id t = id ->
  id_to_wayca_thread id s = Ok (Some p, s).
Proof using. intros Htb Ht <-. unfold id_to_wayca_thread, gets. by rewrite (table_lookup t_id _ (threads s) p t). Qed.

Lemma id_to_group_run s p g id :
  table_ok g_id (wayca_groups_array s) (groups s) -> groups s !! p = Some g -> g_id g = id ->
  id_to_wayca_group id s = Ok (Some p, s).
Proof using. intros Htb Ht <-. unfold id_to_wayca_group, gets. by rewrite (table_lookup g_id _ (groups s) p g). Qed.

Lemma rearrange_thread_run s p t loads' :
  threads s !! p = Some t ->
  update_load n (t_cur_set t) true (wayca_cpu_loads s) = Ok loads' ->
  wayca_group_rearrange_thread p s =
  Ok (0, set_wayca_cpu_loads loads'
           (set_trace (EvSetaffinity (t_pid t) sizeof_cpu_set_t (t_cur_set t) :: trace s) s)).
Proof using.
  intros Ht Hu. unfold wayca_group_rearrange_thread, thread_sched_setaffinity, emit. msteps.
  rewrite M_bind_assoc. msteps. rewrite M_bind_assoc. msteps.
  by erewrite M_bind_ok by (eapply update_load_run; fsimpl; eassumption).
Qed.

(** Linking changes no affinity set and no identifier. *)
Lemma sets_of_link_tail l p m : sets_of (link_tail l p m) = sets_of m.
Proof using.
  unfold link_tail. destruct (last l) as [q|]; [|done]. apply map_eq. intros i.
  unfold sets_of. rewrite !lookup_fmap. destruct (decide (i = q)) as [->|].
  - rewrite lookup_alter_eq. by destruct (m !! q).
  - by rewrite lookup_alter_ne.
Qed.

Lemma sets_of_unlink l p t m : m !! p = Some t -> sets_of (unlink l p t m) = sets_of m.
Proof using.
  intros Hp. unfold unlink. apply map_eq. intros i. unfold sets_of. rewrite !lookup_fmap.
  destruct (decide (i = p)) as [->|].
  - by rewrite lookup_insert_eq, Hp.
  - rewrite lookup_insert_ne by done. destruct (last l) as [q|]; [|done].
    destruct (decide (i = q)) as [->|]; [|by rewrite lookup_alter_ne].
    rewrite lookup_alter_eq. by destruct (m !! q).
Qed.

Lemma table_alter_sibling array (m : gmap tptr wayca_thread) q h :
  table_ok t_id array m -> table_ok t_id array (alter (set_t_siblings h) q m).
Proof using.
  intros Ht. destruct (m !! q) as [x|] eqn:E.
  - rewrite (alter_insert_lookup _ m q x) by done. by apply (table_update _ _ _ _ x).
  - by rewrite alter_id by (intros; congruence).
Qed.

Lemma table_link_tail array m l p :
  table_ok t_id array m -> table_ok t_id array (link_tail l p m).
Proof using. unfold link_tail. destruct (last l); [apply table_alter_sibling|done]. Qed.

Lemma table_unlink array m l p t :
  m !! p = Some t -> table_ok t_id array m -> table_ok t_id array (unlink l p t m).
Proof using.
  intros Hp Ht. unfold unlink.
  destruct (last l) as [q|]; [|by apply (table_update _ _ _ _ t)].
  destruct (decide (q = p)) as [->|].
  - apply (table_update _ _ _ _ (set_t_siblings (t_siblings t) t)); [by apply table_alter_sibling| |done].
    by rewrite lookup_alter_eq, Hp.
  - apply (table_update _ _ _ _ t); [by apply table_alter_sibling| |done].
    by rewrite lookup_alter_ne.
Qed.

Lemma sets_of_insert p t m : sets_of (<[p := t]> m) = <[p := t_cur_set t]> (sets_of m).
Proof using. apply fmap_insert. Qed.

(** The group as it is while its mutex is held. *)
Lemma group_ok_mutex m g b : group_ok m g -> group_ok m (set_g_mutex b g).
Proof using. intros []. by constructor. Qed.

(** Taking a thread's load away keeps the loads fit for a search. *)
Lemma loads_ok_released m g loads sets p set loads' :
  group_ok m g -> loads_ok m g loads -> loads_for m loads sets -> sets !! p = Some set ->
  loads_for m loads' (delete p sets) ->
  (forall c, 0 <= c -> load_of loads' c = load_of loads c - set_load m set c) ->
  loads_ok m g loads'.
Proof using.
  intros Hok Hl Hlf Hset Hlf' Hc. pose proof (go_n _ _ Hok) as Hn. pose proof (go_nr _ _ Hok) as Hnr.
  apply (loads_ok_le m g loads); [done| | |lia].
  - pose proof (lf_length _ _ _ Hlf). pose proof (lf_length _ _ _ Hlf'). lia.
  - intros c H0. rewrite Hc by done. destruct (lf_sets _ _ _ Hlf _ _ Hset) as [Hw _].
    assert (0 <= set_load m set c) by (apply set_load_nonneg; [done|lia]). lia.
Qed.

(** A placed thread is bound to CPUs of the machine. *)
Lemma placed_set m g t p g' t' :
  placed m g t p g' t' -> group_ok m g ->
  cpuset_wf (t_cur_set t') /\ forall i, i ∈ cpus (t_cur_set t') -> i < m.
Proof using.
  intros [Hp Ht' Hb _ _ _ _ _] Hok. split; [rewrite Ht'; apply thread_set_wf|].
  intros i [Hi Hbi]%elem_of_cpus. rewrite Hb in Hbi by done. unfold binds in Hbi.
  destruct (percpu _); [zbool; lia|]. pose proof (region_bound m g Hok p Hp) as Hrb.
  pose proof (go_nr _ _ Hok). rewrite in_region_iff in Hbi by done. lia.
Qed.

(** The calls of [wayca_sc_thread_attach_group]: the loads are [l1] without the
    thread and [l4] with its new placement. *)
Lemma attach_group_run s wp t gp g l1 s3 t' g' l4 :
  table_ok t_id (wayca_threads_array s) (threads s) -> threads s !! wp = Some t ->
  table_ok g_id (wayca_groups_array s) (groups s) -> groups s !! gp = Some g ->
  t_group t = None -> g_mutex g = false ->
  update_load n (t_cur_set t) false (wayca_cpu_loads s) = Ok l1 ->
  wayca_group_add_thread gp wp
    (set_groups (<[gp := set_g_mutex true g]> (groups s)) (set_wayca_cpu_loads l1 s)) = Ok (0, s3) ->
  threads s3 !! wp = Some t' -> groups s3 !! gp = Some g' ->
  update_load n (t_cur_set t') true (wayca_cpu_loads s3) = Ok l4 ->
  wayca_sc_thread_attach_group (t_id t) (g_id g) s =
    Ok (0, set_groups (<[gp := set_g_mutex false g']> (groups s3)) (set_wayca_cpu_loads l4
      (set_trace (EvSetaffinity (t_pid t') sizeof_cpu_set_t (t_cur_set t') :: trace s3) s3))).
Proof using.
  intros Htt Ht Htg Hg Hgr Hmx Hu1 Hadd Ht3 Hg3 Hu4. unfold wayca_sc_thread_attach_group.
  rewrite (M_bind_ok _ _ _ _ _ (id_to_thread_run s wp t _ Htt Ht eq_refl)).
  rewrite (M_bind_ok _ _ _ _ _ (id_to_group_run s gp g _ Htg Hg eq_refl)).
  msteps. rewrite Hgr. rewrite (M_bind_ok _ _ _ _ _ (update_load_run s wp t false l1 Ht Hu1)).
  erewrite M_bind_ok by (apply lock_group_run; fsimpl; eassumption).
  rewrite (M_bind_ok _ _ _ _ _ Hadd). change (negb (0 =? 0)) with false. cbv iota.
  erewrite M_bind_ok by (by eapply (rearrange_thread_run s3 wp t' l4)).
  unfold unlock_group. by erewrite M_bind_ok by (apply upd_group_ok; fsimpl; eassumption).
Qed.

(** C2. [wayca_sc_thread_attach_group]: the thread joins the group at the end of
    its list, is placed on a free CPU of it, the operating system is asked for
    exactly the new affinity, the loads account for the new placement, and the
    mutex of the group is free again. *)
Theorem wayca_sc_thread_attach_group_correct s wp t gp g l :
  state_ok s -> threads s !! wp = Some t -> t_group t = None -> t_siblings t = None ->
  group_list s gp g l -> wp ∉ l -> g_nr_groups g = 0 -> g_mutex g = false ->
  group_ok n g -> loads_ok n g (wayca_cpu_loads s) ->
  exists p g' t' s',
    wayca_sc_thread_attach_group (t_id t) (g_id g) s = Ok (0, s') /\
    state_ok s' /\ group_list s' gp g' (l ++ [wp]) /\ g_mutex g' = false /\ group_ok n g' /\
    threads s' !! wp = Some t' /\ 0 <= p < n /\
    CPU_ISSET p (g_total g) = true /\ CPU_ISSET p (g_used g) = false /\
    (forall i, 0 <= i < CPU_SETSIZE -> CPU_ISSET i (t_cur_set t') = binds g p i) /\
    trace s' = EvSetaffinity (t_pid t) sizeof_cpu_set_t (t_cur_set t') :: trace s.
Proof using.
  intros [Htt Htg Hlf] Ht Hgr Hsib Hgl Hn Hng Hmx Hok Hl. pose proof Hgl as [Hg Hc Hcnt Hown].
  pose proof (go_n _ _ Hok) as Hnn. pose proof (go_nr _ _ Hok) as Hnr.
  assert (Hset : sets_of (threads s) !! wp = Some (t_cur_set t))
    by (unfold sets_of; by rewrite lookup_fmap, Ht).
  destruct (loads_for_remove n _ _ wp _ Hlf Hset) as (l1 & Hu1 & Hlf1 & Hle).
  set (gm := set_g_mutex true g).
  set (s2 := set_groups (<[gp := gm]> (groups s)) (set_wayca_cpu_loads l1 s)).
  assert (Hl2 : loads_ok n gm l1)
    by (apply (loads_ok_released n gm _ _ wp _ l1 (group_ok_mutex _ _ _ Hok) Hl Hlf Hset Hlf1 Hle)).
  assert (Hgl2 : group_list s2 gp gm l).
  { constructor; try done. unfold s2. fsimpl. apply lookup_insert_eq. }
  destruct (wayca_group_add_thread_ok n s2 gp gm l wp t) as (p & g' & t' & Hpl & Hadd);
    try done; [by apply group_ok_mutex|].
  pose proof (joined_group_list n s2 gp gm l wp t p g' t' Hgl2 Hn Ht Hsib Hpl) as Hgl3.
  set (s3 := joined s2 l gp wp g' t') in *.
  destruct (placed_set n _ _ _ _ _ Hpl) as [Hw' Hcpu]; [destruct Hok; by destruct l; constructor|].
  destruct Hpl as [Hp Ht' Hb Hfree Hg' _ Hok' _].
  assert (Hs3 : sets_of (threads s3) = <[wp := t_cur_set t']> (delete wp (sets_of (threads s)))).
  { unfold s3, joined. fsimpl. rewrite sets_of_insert, sets_of_link_tail. by rewrite insert_delete_eq. }
  destruct (loads_for_add n l1 _ wp (t_cur_set t') Hlf1) as (l4 & Hu4 & Hlf4); try done.
  { apply lookup_delete_eq. }
  assert (Ht3 : threads s3 !! wp = Some t') by apply lookup_insert_eq.
  assert (Hpid : t_pid t' = t_pid t) by (by rewrite Ht').
  set (g5 := set_g_mutex false g').
  assert (Hgid : g_id g' = g_id g) by (rewrite Hg'; by destruct l).
  assert (Hgs3 : groups s3 = <[gp := g']> (groups s)).
  { unfold s3, joined, s2. fsimpl. apply insert_insert_eq. }
  eexists p, g5, t', _. split.
  { eapply (attach_group_run s wp t gp g l1 s3 t' g' l4); try done. rewrite Hgs3. apply lookup_insert_eq. }
  fsimpl. rewrite Hgs3, insert_insert_eq. fold g5.
  split; [|split; [|split; [done|split; [by apply group_ok_mutex|split; [done|]]]]].
  - constructor; fsimpl.
    + unfold s3, joined. fsimpl. apply (table_update _ _ _ _ t); [by apply table_link_tail| |by rewrite Ht'].
      by rewrite link_tail_lookup_ne.
    + by apply (table_update _ _ _ _ g).
    + rewrite Hs3. done.
  - destruct Hgl3 as [_ Hc3 Hcnt3 Hown3]. constructor; fsimpl; try done. apply lookup_insert_eq.
  - split; [done|].
    assert (Hm : marks (link_head l wp (set_g_nr_threads (g_nr_threads gm + 1) gm)) p p = true)
      by (apply marks_self; by destruct l).
    destruct (Hfree p Hm) as (_ & Hpt & Hpu).
    split; [by destruct l|]. split; [by destruct l|].
    split; [|by rewrite Hpid]. intros i Hi. rewrite Hb by done. by destruct l.
Qed.

(** C36. [wayca_sc_thread_detach_group] of a member: the thread leaves the list;
    it keeps its affinity and so the loads do not change; the mutex is free again.
    Its CPUs are given back: in a group whose releases match its marks (compact, or
    not one CPU per thread), a thread that was placed on CPU [c] in the current
    round takes one from the occupancy of exactly the CPUs that it marked. (For a
    thread of an earlier round and for other groups, see [stale_release_faults] and
    [percpu_scatter_leaks].) *)
Theorem wayca_sc_thread_detach_group_correct s wp t gp g l1 l2 :
  state_ok s -> threads s !! wp = Some t ->
  group_list s gp g (l1 ++ wp :: l2) -> g_mutex g = false ->
  exists g' s',
    wayca_sc_thread_detach_group (t_id t) (g_id g) s = Ok (0, s') /\
    state_ok s' /\ group_list s' gp g' (l1 ++ l2) /\ g_mutex g' = false /\
    threads s' !! wp = Some (set_t_group None (set_t_siblings None t)) /\
    wayca_cpu_loads s' = wayca_cpu_loads s /\ trace s' = trace s /\
    (forall m c, group_ok m g -> placed_on g c t -> compact g || negb (percpu g) = true ->
       (forall i, marks g c i = true -> 0 <= i < CPU_SETSIZE /\ CPU_ISSET i (g_total g) = true) ->
       (g_used g = CPU_EMPTY \/ forall i, marks g c i = true -> CPU_ISSET i (g_used g) = true) ->
       forall i, 0 <= i < CPU_SETSIZE -> CPU_ISSET i (g_total g) = true ->
         occupancy g' i = occupancy g i - Z.b2z (marks g c i)).
Proof using.
  intros [Htt Htg Hlf] Ht Hgl Hmx. pose proof Hgl as [Hg Hc Hcnt Hown].
  set (gm := set_g_mutex true g). set (s2 := set_groups (<[gp := gm]> (groups s)) s).
  assert (Hgl2 : group_list s2 gp gm (l1 ++ wp :: l2)).
  { constructor; try done. apply lookup_insert_eq. }
  pose proof (parted_group_list s2 gp gm l1 wp l2 t Hgl2 Ht) as Hgl3. cbv zeta in Hgl3.
  set (g3 := set_g_nr_threads _ _) in Hgl3.
  assert (Hrel : release_thread gm t = set_g_mutex true (release_thread g t)).
  { unfold release_thread, gm. destruct g; fsimpl. by destruct (_ =? 0), (_ && _). }
  assert (Hg3 : g_used g3 = g_used (release_thread g t) /\
            g_roll_over_cnts g3 = g_roll_over_cnts (release_thread g t) /\ g_id g3 = g_id g).
  { unfold g3, unlink_head. rewrite Hrel. split; [by destruct l1|]. split; [by destruct l1|].
    rewrite release_with_account. by destruct l1. }
  destruct Hg3 as (Hused & Hroll & Hid). set (s3 := parted s2 l1 gp wp gm t) in *.
  assert (Hgs3 : groups s3 = <[gp := g3]> (groups s)).
  { unfold s3, parted, s2. fsimpl. apply insert_insert_eq. }
  exists (set_g_mutex false g3), (set_groups (<[gp := set_g_mutex false g3]> (groups s)) s3).
  split.
  { unfold wayca_sc_thread_detach_group.
    rewrite (M_bind_ok _ _ _ _ _ (id_to_thread_run s wp t _ Htt Ht eq_refl)).
    rewrite (M_bind_ok _ _ _ _ _ (id_to_group_run s gp g _ Htg Hg eq_refl)).
    rewrite (M_bind_ok _ _ _ _ _ (lock_group_run s gp g Hg Hmx)).
    erewrite M_bind_ok by (apply (wayca_group_delete_thread_ok s2 gp gm l1 wp l2 t);
      [apply lookup_insert_eq|exact Hc|exact Ht]).
    fold s3. unfold unlock_group.
    erewrite M_bind_ok by (apply upd_group_ok; rewrite Hgs3; apply lookup_insert_eq).
    rewrite Hgs3, insert_insert_eq. reflexivity. }
  assert (Hts3 : threads s3 = <[wp := set_t_group None (set_t_siblings None t)]>
                   (unlink l1 wp t (threads s))) by done.
  split; [|split].
  - constructor; fsimpl.
    + rewrite Hts3. apply (table_update _ _ _ _ (set_t_siblings None t));
        [by apply table_unlink|apply lookup_insert_eq|done].
    + by apply (table_update _ _ _ _ g).
    + rewrite Hts3, sets_of_insert, sets_of_unlink by done. fsimpl. rewrite insert_id; [done|].
      unfold sets_of. by rewrite lookup_fmap, Ht.
  - destruct Hgl3 as [_ Hc3 Hcnt3 Hown3]. constructor; fsimpl; try done. apply lookup_insert_eq.
  - fsimpl. split; [done|]. split; [rewrite Hts3; apply lookup_insert_eq|].
    split; [done|]. split; [done|]. intros m c Hok Hon Hsame Hmt Hcur i Hi Hti.
    assert (Hrm : forall i, releases g c i = marks g c i) by (intros; by apply releases_marks).
    change (occupancy (set_g_mutex false g3) i) with (g_roll_over_cnts g3 + Z.b2z (CPU_ISSET i (g_used g3))).
    rewrite Hused, Hroll, <- Hrm. apply (release_occupancy g c t); try done; [apply Hok|apply Hok|..].
    + intros j _. rewrite Hrm. apply Hmt.
    + destruct Hcur as [|Hcur]; [by left|right]. intros j _. rewrite Hrm. apply Hcur.
Qed.

Lemma free_thread_run s p t :
  threads s !! p = Some t ->
  free_thread p s =
  Ok (tt, set_threads (delete p (threads s))
            (set_wayca_threads_array (<[Z.to_nat (t_id t) := None]> (wayca_threads_array s)) s)).
Proof using. intros Ht. unfold free_thread. by msteps. Qed.

(** Freeing a thread takes its load away and makes its identifier free. *)
Lemma wayca_thread_free_ok s p t :
  state_ok s -> threads s !! p = Some t ->
  exists s', wayca_thread_free p s = Ok (tt, s') /\ state_ok s' /\
    threads s' = delete p (threads s) /\
    wayca_threads_array s' = <[Z.to_nat (t_id t) := None]> (wayca_threads_array s) /\
    trace s' = trace s.
Proof using.
  intros [Htt Htg Hlf] Ht.
  assert (Hset : sets_of (threads s) !! p = Some (t_cur_set t))
    by (unfold sets_of; by rewrite lookup_fmap, Ht).
  destruct (loads_for_remove n _ _ p _ Hlf Hset) as (l1 & Hu1 & Hlf1 & _).
  eexists. split.
  { unfold wayca_thread_free. rewrite (M_bind_ok _ _ _ _ _ (update_load_run s p t false l1 Ht Hu1)).
    apply (free_thread_run _ p t). exact Ht. }
  fsimpl. split; [|done]. constructor; fsimpl; [by apply table_free|done|].
  unfold sets_of. by rewrite fmap_delete.
Qed.

(** [wayca_sc_thread_join] on a thread that is in no group: the thread is
    waited for, its load is taken away, its identifier becomes free and the
    result is the negated error number of [pthread_join]. *)
Theorem wayca_sc_thread_join_correct s p t routine :
  state_ok s -> threads s !! p = Some t -> t_start_routine t = Some routine -> t_group t = None ->
  exists s',
    wayca_sc_thread_join (t_id t) s = Ok (- sys_pthread_join (trace s) (t_thread t), s') /\
    state_ok s' /\ threads s' = delete p (threads s) /\
    id_to_wayca_thread (t_id t) s' = Ok (None, s') /\
    trace s' = EvPthreadJoin (t_thread t) :: trace s.
Proof using.
  intros Hok Ht Hsr Hgr. pose proof Hok as [Htt Htg Hlf].
  set (s1 := set_trace (EvPthreadJoin (t_thread t) :: trace s) s).
  assert (Hok1 : state_ok s1) by (by constructor).
  destruct (wayca_thread_free_ok s1 p t Hok1 Ht) as (s' & Hrun & Hok' & Hth & Harr & Htr).
  exists s'. split.
  { unfold wayca_sc_thread_join.
    rewrite (M_bind_ok _ _ _ _ _ (id_to_thread_run s p t _ Htt Ht eq_refl)).
    msteps. rewrite Hsr. unfold emit, leave_group. msteps. fold s1. rewrite M_bind_assoc. msteps.
    rewrite Hgr. msteps. by rewrite (M_bind_ok _ _ _ _ _ Hrun). }
  split; [done|]. split; [done|]. split; [|done].
  unfold id_to_wayca_thread, gets. f_equal. f_equal.
  destruct (id_to_ptr (wayca_threads_array s') (t_id t)) as [q|] eqn:E; [|done].
  exfalso. destruct (tb_id _ _ _ Htt p t Ht) as [H0 Hp].
  apply id_to_ptr_Some in E; [|done]. rewrite Harr in E. unfold s1 in E. revert E. fsimpl.
  rewrite list_lookup_insert, decide_True; [done|]. split; [done|]. by eapply lookup_lt_Some.
Qed.

(** ** Allocation *)

Lemma thread_alloc_ok s id :
  state_ok s -> find_free_id 0 (wayca_threads_array s) = Some id ->
  sys_malloc (trace s) AThread = true ->
  let p := fresh (dom (threads s)) in
  wayca_thread_alloc s =
    Ok (Some p, set_threads (<[p := set_t_id id zero_thread]> (threads s))
                  (set_wayca_threads_array (<[Z.to_nat id := Some p]> (wayca_threads_array s))
                     (set_trace (EvMalloc AThread :: trace s) s))) /\
  threads s !! p = None /\ 0 <= id /\
  state_ok (set_threads (<[p := set_t_id id zero_thread]> (threads s))
              (set_wayca_threads_array (<[Z.to_nat id := Some p]> (wayca_threads_array s))
                 (set_trace (EvMalloc AThread :: trace s) s))).
Proof using.
  intros [Htt Htg Hlf] Hid Hm p. pose proof (find_free_id_spec 0 (wayca_threads_array s)) as Hsp.
  rewrite Hid in Hsp. destruct Hsp as (Hr & Hfree & _). rewrite Z.sub_0_r in Hfree.
  assert (Hp : threads s !! p = None).
  { apply not_elem_of_dom. unfold p. apply is_fresh. }
  split; [|split; [done|split; [lia|]]].
  - unfold wayca_thread_alloc, find_free_thread_id_locked, malloc, emit. msteps. rewrite Hid.
    rewrite !M_bind_assoc. msteps. rewrite M_bind_assoc. msteps. rewrite Hm. cbn [negb]. by msteps.
  - constructor; fsimpl; [|done|].
    + apply table_alloc; try done. lia.
    + rewrite sets_of_insert. apply loads_for_empty; [done|]. unfold sets_of. by rewrite lookup_fmap, Hp.
Qed.

Lemma CPU_OR_EMPTY set : cpuset_wf set -> CPU_OR CPU_EMPTY set = set.
Proof using.
  intros. apply cpu_set_ext; auto with wayca. intros i Hi. by autorewrite with isset.
Qed.

Lemma thread_sets_eq set t :
  cpuset_wf set -> cpuset_wf (t_cur_set t) -> cpuset_wf (t_allowed_set t) ->
  set_thread_sets set t = set_t_allowed_set set (set_t_cur_set set t).
Proof using. intros. unfold set_thread_sets. by rewrite !CPU_ZERO_eq, !CPU_OR_EMPTY by done. Qed.

(** [wayca_sc_pid_attach_thread] of a task that exists: it gets the lowest
    free identifier, its affinity is what the system reports, and its load is
    accounted for. *)
Theorem wayca_sc_pid_attach_thread_correct s id pid set :
  state_ok s -> find_free_id 0 (wayca_threads_array s) = Some id -> 0 < pid ->
  sys_malloc (trace s) AThread = true ->
  sys_getaffinity (EvMalloc AThread :: trace s) pid = inr set ->
  cpuset_wf set -> (forall i, i ∈ cpus set -> i < n) ->
  exists p t s',
    wayca_sc_pid_attach_thread true pid s = Ok ((0, Some id), s') /\ state_ok s' /\
    threads s !! p = None /\ threads s' = <[p := t]> (threads s) /\
    id_to_wayca_thread id s' = Ok (Some p, s') /\
    t_pid t = pid /\ t_cur_set t = set /\ t_allowed_set t = set /\
    t_group t = None /\ t_siblings t = None /\ t_start_routine t = None.
Proof using.
  intros Hok Hid Hpid Hm Hget Hw Hn.
  destruct (thread_alloc_ok s id Hok Hid Hm) as (Hal & Hp & H0 & Hok1).
  set (p := fresh (dom (threads s))) in *. set (s1 := set_threads _ _) in *.
  destruct Hok as [Htt Htg Hlf].
  assert (Hfr : sets_of (threads s) !! p = None) by (unfold sets_of; by rewrite lookup_fmap, Hp).
  destruct (loads_for_add n _ _ p set Hlf Hfr Hw Hn) as (l' & Hu & Hlf').
  set (t := mk_wayca_thread id pid 0 0 set set None None 0 None 0 true).
  set (s' := set_wayca_cpu_loads l' (set_threads (<[p := t]> (threads s))
               (set_trace (EvGetaffinity pid :: trace s1) s1))).
  assert (Hok' : state_ok s').
  { constructor; unfold s'; fsimpl.
    - destruct Hok1 as [Htt1 _ _]. unfold s1 in *. fsimpl_all.
      rewrite <- (insert_insert_eq (threads s) p t (set_t_id id zero_thread)).
      apply (table_update _ _ _ _ (set_t_id id zero_thread)); [done|apply lookup_insert_eq|done].
    - done.
    - by rewrite sets_of_insert. }
  exists p, t, s'. split; [|split; [done|split; [done|split; [done|split; [|done]]]]].
  - unfold wayca_sc_pid_attach_thread. destruct (Z.ltb_spec pid 0); [lia|]. cbn [negb orb].
    rewrite (M_bind_ok _ _ _ _ _ Hal). fold s1.
    destruct (Z.eqb_spec pid 0); [lia|].
    unfold s1, sched_getaffinity, emit. msteps. rewrite M_bind_assoc. msteps.
    rewrite M_bind_assoc. msteps. rewrite Hget. cbn [fst snd].
    cbn [Z.ltb Z.compare]. msteps.
    rewrite thread_sets_eq by (done || apply CPU_EMPTY_wf). rewrite !insert_insert_eq.
    erewrite M_bind_ok by (eapply update_load_run; fsimpl; [apply lookup_insert_eq|exact Hu]).
    mread ltac:(fsimpl; apply lookup_insert_eq). rewrite insert_insert_eq.
    mread ltac:(fsimpl; apply lookup_insert_eq). reflexivity.
  - apply (id_to_thread_run s' p t); [apply Hok'|apply lookup_insert_eq|done].
Qed.

(** [wayca_sc_pid_detach_thread] takes the load of the thread away twice:
    afterwards every CPU of its affinity set carries less than the live threads
    contribute to it. *)
Theorem wayca_sc_pid_detach_thread_loads s p t :
  state_ok s -> threads s !! p = Some t -> t_start_routine t = None -> t_group t = None ->
  exists s', wayca_sc_pid_detach_thread (t_id t) s = Ok (0, s') /\
    threads s' = delete p (threads s) /\
    forall c, 0 <= c -> load_of (wayca_cpu_loads s') c =
      total_load n (sets_of (threads s')) c - set_load n (t_cur_set t) c.
Proof using.
  intros [Htt Htg Hlf] Ht Hsr Hgr.
  assert (Hset : sets_of (threads s) !! p = Some (t_cur_set t))
    by (unfold sets_of; by rewrite lookup_fmap, Ht).
  destruct (loads_for_remove n _ _ p _ Hlf Hset) as (l1 & Hu1 & Hlf1 & _).
  destruct (lf_sets _ _ _ Hlf _ _ Hset) as [Hw Hn].
  destruct (update_load_change n l1 (t_cur_set t) false) as (l2 & Hu2 & Hl2 & Hc2);
    [done|apply Hlf1|done|].
  eexists. split.
  { unfold wayca_sc_pid_detach_thread.
    rewrite (M_bind_ok _ _ _ _ _ (id_to_thread_run s p t _ Htt Ht eq_refl)).
    msteps. rewrite Hsr. unfold leave_group. rewrite M_bind_assoc. msteps. rewrite Hgr. msteps.
    rewrite (M_bind_ok _ _ _ _ _ (update_load_run s p t false l1 Ht Hu1)).
    unfold wayca_thread_free. rewrite M_bind_assoc.
    erewrite M_bind_ok by (eapply (update_load_run _ p t false l2); fsimpl; [exact Ht|exact Hu2]).
    erewrite M_bind_ok by (apply (free_thread_run _ p t); fsimpl; exact Ht). reflexivity. }
  fsimpl. split; [done|]. intros c H0. rewrite Hc2 by done.
  rewrite (lf_load _ _ _ Hlf1) by done. unfold sets_of. rewrite fmap_delete. lia.
Qed.

(** [wayca_sc_thread_set_attr] on a thread of a group adds the load of the
    thread once more, although its placement does not change. *)
Theorem wayca_sc_thread_set_attr_loads s p t gp attr :
  state_ok s -> threads s !! p = Some t -> t_group t = Some gp ->
  exists ret s', wayca_sc_thread_set_attr (t_id t) (Some attr) s = Ok (ret, s') /\
    threads s' = <[p := set_t_attribute attr t]> (threads s) /\
    forall c, 0 <= c -> load_of (wayca_cpu_loads s') c =
      total_load n (sets_of (threads s')) c + set_load n (t_cur_set t) c.
Proof using.
  intros [Htt Htg Hlf] Ht Hgr.
  assert (Hset : sets_of (threads s) !! p = Some (t_cur_set t))
    by (unfold sets_of; by rewrite lookup_fmap, Ht).
  destruct (lf_sets _ _ _ Hlf _ _ Hset) as [Hw Hn].
  destruct (update_load_change n (wayca_cpu_loads s) (t_cur_set t) true) as (l2 & Hu2 & Hl2 & Hc2);
    [done|apply Hlf|done|].
  eexists _, _. split.
  { unfold wayca_sc_thread_set_attr.
    rewrite (M_bind_ok _ _ _ _ _ (id_to_thread_run s p t _ Htt Ht eq_refl)).
    msteps. rewrite Hgr. unfold when. rewrite M_bind_assoc.
    erewrite M_bind_ok by (eapply (rearrange_thread_run _ p (set_t_attribute attr t) l2);
      fsimpl; [apply lookup_insert_eq|exact Hu2]).
    msteps. unfold thread_sched_setaffinity, emit. msteps. reflexivity. }
  fsimpl. split; [done|]. intros c H0. rewrite Hc2 by done.
  rewrite (lf_load _ _ _ Hlf) by done. rewrite sets_of_insert. fsimpl. by rewrite insert_id by done.
Qed.

(** Attaching a group to itself locks its mutex twice and does not return. *)
Theorem wayca_sc_group_attach_self_deadlocks s gp g :
  state_ok s -> groups s !! gp = Some g -> g_father g = None -> g_mutex g = false ->
  wayca_sc_group_attach_group (g_id g) (g_id g) s = Fault Deadlock.
Proof using.
  intros [_ Htg _] Hg Hf Hm. unfold wayca_sc_group_attach_group.
  rewrite !(M_bind_ok _ _ _ _ _ (id_to_group_run s gp g _ Htg Hg eq_refl)).
  msteps. rewrite Hf. rewrite (M_bind_ok _ _ _ _ _ (lock_group_run s gp g Hg Hm)).
  unfold lock_group. rewrite M_bind_assoc. by mread ltac:(fsimpl; apply lookup_insert_eq).
Qed.

(** ** Start-up and groups *)

(** The state before the constructor of the library runs. *)
Definition start_state : sched := mk_sched ∅ ∅ ∅ ∅ [] CPU_EMPTY [] [] [] [].

Lemma malloc_run what s :
  malloc what s = Ok (sys_malloc (trace s) what, set_trace (EvMalloc what :: trace s) s).
Proof using. done. Qed.

Lemma empty_table {A} (get_id : A -> Z) k : table_ok get_id (replicate k None) ∅.
Proof using.
  constructor.
  - intros i p [? _]%lookup_replicate. done.
  - intros p x. by rewrite lookup_empty.
Qed.

Lemma load_of_replicate_zero k c : load_of (replicate k 0) c = 0.
Proof using.
  unfold load_of. destruct (replicate k 0 !! Z.to_nat c) eqn:E; [|done].
  by apply lookup_replicate in E as [-> _].
Qed.

(** Start-up on a machine of [n] CPUs, when memory is available: no CPU has
    a load, all CPUs are known, and the tables have the sizes that the
    environment asks for (or the defaults). *)
Theorem wayca_thread_init_correct e1 e2 e3 :
  0 <= n -> (forall tr what, sys_malloc tr what = true) ->
  exists s, wayca_thread_init e1 e2 e3 start_state = Ok (tt, s) /\ state_ok s /\
    total_cpu_set s = CPU_SET_range 0 n CPU_EMPTY /\
    wayca_cpu_loads s = replicate (Z.to_nat n) 0 /\
    length (wayca_threads_array s) =
      Z.to_nat (wayca_thread_init_from_envs e1 DEFAULT_WAYCA_SC_THREADS_NUM) /\
    length (wayca_groups_array s) =
      Z.to_nat (wayca_thread_init_from_envs e2 DEFAULT_WAYCA_SC_GROUPS_NUM) /\
    length (wayca_threadpools_array s) =
      Z.to_nat (wayca_thread_init_from_envs e3 DEFAULT_WAYCA_SC_THREADPOOLS_NUM) /\
    groups s = ∅.
Proof using.
  intros Hn Hm. eexists. split.
  { unfold wayca_thread_init. msteps. destruct (Z.ltb_spec n 0); [lia|]. msteps.
    rewrite (M_bind_ok _ _ _ _ _ (malloc_run _ _)), Hm. cbn [negb]. msteps.
    rewrite (M_bind_ok _ _ _ _ _ (malloc_run _ _)), Hm. cbn [negb]. msteps.
    rewrite (M_bind_ok _ _ _ _ _ (malloc_run _ _)), Hm. cbn [negb]. msteps.
    rewrite (M_bind_ok _ _ _ _ _ (malloc_run _ _)), Hm. cbn [negb]. reflexivity. }
  fsimpl. rewrite !length_replicate. split; [|done].
  constructor; fsimpl; [apply empty_table|apply empty_table|].
  constructor; [rewrite length_replicate; lia| |].
  - intros p set. unfold sets_of, start_state. fsimpl. by rewrite fmap_empty, lookup_empty.
  - intros c _. rewrite load_of_replicate_zero. reflexivity.
Qed.

(** A new group gets the lowest free identifier and the default attribute,
    owns every CPU of the machine, has no member, and is well formed. *)
Theorem wayca_sc_group_create_correct s id :
  state_ok s -> 0 < n <= CPU_SETSIZE -> total_cpu_set s = CPU_SET_range 0 n CPU_EMPTY ->
  find_free_id 0 (wayca_groups_array s) = Some id -> sys_malloc (trace s) AGroup = true ->
  exists p g s',
    wayca_sc_group_create true s = Ok ((0, Some id), s') /\ state_ok s' /\
    groups s !! p = None /\ groups s' = <[p := g]> (groups s) /\ threads s' = threads s /\
    g_attribute g = Z.lor (Z.lor WT_GF_CPU WT_GF_COMPACT) WT_GF_PERCPU /\
    g_total g = total_cpu_set s /\ g_father g = None /\ g_mutex g = false /\
    g_nr_groups g = 0 /\ group_list s' p g [] /\ group_ok n g.
Proof using.
  intros [Htt Htg Hlf] Hn Htot Hid Hm.
  pose proof (find_free_id_spec 0 (wayca_groups_array s)) as Hsp.
  rewrite Hid in Hsp. destruct Hsp as (Hr & Hfree & _). rewrite Z.sub_0_r in Hfree.
  set (p := fresh (dom (groups s))).
  assert (Hp : groups s !! p = None) by (apply not_elem_of_dom; unfold p; apply is_fresh).
  set (attr := Z.lor (Z.lor WT_GF_CPU WT_GF_COMPACT) WT_GF_PERCPU).
  set (g := mk_wayca_sc_group id None 0 None None None 0 CPU_EMPTY (total_cpu_set s) attr
              false 1 1 (-1) 0).
  set (s' := set_groups (<[p := g]> (groups s))
    (set_wayca_groups_array (<[Z.to_nat id := Some p]> (wayca_groups_array s))
       (set_trace (EvMalloc AGroup :: trace s) s))).
  exists p, g, s'. split.
  { unfold wayca_sc_group_create, wayca_group_alloc, find_free_group_id_locked. cbn [negb].
    rewrite M_bind_assoc. msteps. rewrite Hid, M_bind_assoc.
    rewrite (M_bind_ok _ _ _ _ _ (malloc_run _ _)), Hm. cbn [negb].
    rewrite !M_bind_assoc. msteps. rewrite M_bind_assoc. msteps. rewrite M_bind_assoc. msteps.
    unfold wayca_group_init. rewrite M_bind_assoc. msteps. rewrite insert_insert_eq. fold p.
    unfold wayca_group_arrange. rewrite M_bind_assoc. mread ltac:(fsimpl; apply lookup_insert_eq).
    change (arrange_level _) with (Some 1). cbv iota. rewrite M_bind_assoc. msteps.
    rewrite insert_insert_eq. unfold wayca_group_request_resource. rewrite M_bind_assoc.
    mread ltac:(fsimpl; apply lookup_insert_eq).
    change (g_father _) with (@None gptr). cbv iota. rewrite M_bind_assoc. msteps.
    rewrite M_bind_assoc. mread ltac:(fsimpl; apply lookup_insert_eq). msteps.
    rewrite insert_insert_eq. change (0 <? 0) with false. cbv iota.
    mread ltac:(fsimpl; apply lookup_insert_eq). reflexivity. }
  split; [|split; [done|split; [done|split; [done|]]]].
  - constructor; unfold s'; fsimpl; [done| |done]. apply table_alloc; try done. lia.
  - split; [done|]. split; [done|]. split; [done|]. split; [done|]. split; [done|].
    split; [constructor|].
    + apply lookup_insert_eq.
    + constructor.
    + done.
    + intros q t Hq. by apply not_elem_of_nil in Hq.
    + apply (fresh_group_ok n g 0 n); try done; try (unfold g; fsimpl; lia).
      * exists n. unfold g; fsimpl; lia.
      * unfold g; fsimpl. by rewrite Htot, Z.mul_0_r, Z.mul_1_l.
Qed.
End interface.

(** ** A machine of four CPUs at work *)

Module AtWork.
Import Machine4.

#[local] Instance topology4 : Topology := {|
  wayca_sc_cpus_in_ccl := 2; wayca_sc_cpus_in_node := 4;
  wayca_sc_cpus_in_package := 4; wayca_sc_cpus_in_total := 4 |}.

Definition all_cpus : cpu_set_t := CPU_SET_range 0 4 CPU_EMPTY.

(** Every call succeeds. *)
#[local] Instance system4 : System := {|
  sys_setaffinity _ _ _ _ := 0; sys_getaffinity _ _ := inr all_cpus; sys_malloc _ _ := true;
  sys_pthread_create _ := inr 1; sys_pthread_join _ _ := 0; sys_pthread_kill _ _ _ := 0;
  sys_tkill _ _ _ := 0; sys_gettid _ := 100; sys_task_dir _ _ := inr [] |}.

(** Threads 0 and 1 are the members of group 0; thread 2 was created and thread
    3 attached, and they are in no group. Group 1 is empty. *)
Definition created : wayca_thread :=
  mk_wayca_thread 2 102 0 0 all_cpus all_cpus None None 9 (Some 7) 0 true.
Definition attached : wayca_thread :=
  mk_wayca_thread 3 103 0 0 all_cpus all_cpus None None 0 None 0 true.
Definition empty_group : wayca_sc_group := set_g_id 1 (group default_attr 1).
Definition the_threads : gmap tptr wayca_thread :=
  {[ 0%nat := TwoThreads.member 0 (Some 1%nat); 1%nat := TwoThreads.member 1 None;
     2%nat := created; 3%nat := attached ]}.
Definition the_loads : list Z := [6; 6; 2; 2].
Definition st : sched :=
  mk_sched the_threads {[ 0%nat := TwoThreads.two; 1%nat := empty_group ]} ∅ ∅ the_loads all_cpus
    [Some 0%nat; Some 1%nat; Some 2%nat; Some 3%nat; None] [Some 0%nat; Some 1%nat; None] [] [].

Lemma all_cpus_ok : cpuset_wf all_cpus /\ forall i, i ∈ cpus all_cpus -> i < 4.
Proof.
  split; [apply CPU_SET_range_wf, CPU_EMPTY_wf|]. intros i Hi. unfold all_cpus in Hi.
  rewrite cpus_range in Hi by (unfold CPU_SETSIZE; lia). set_solver by lia.
Qed.

Lemma one_cpu_ok i : 0 <= i < 4 ->
  cpuset_wf (CPU_SET i CPU_EMPTY) /\ forall j, j ∈ cpus (CPU_SET i CPU_EMPTY) -> j < 4.
Proof.
  intros Hi. split; [apply CPU_SET_wf, CPU_EMPTY_wf|]. intros j [Hj H]%elem_of_cpus.
  rewrite CPU_ISSET_SET, CPU_ISSET_EMPTY in H by (apply CPU_EMPTY_wf || done || (unfold CPU_SETSIZE; lia)).
  zbool. lia.
Qed.

Lemma loads_for_add' loads loads' sets p set :
  loads_for 4 loads sets -> sets !! p = None ->
  cpuset_wf set /\ (forall i, i ∈ cpus set -> i < 4) ->
  update_load 4 set true loads = Ok loads' -> loads_for 4 loads' (<[p := set]> sets).
Proof.
  intros Hl Hp [Hw Hi] Hu. destruct (loads_for_add 4 loads sets p set) as (l & Hu' & H); try done.
  rewrite Hu in Hu'. by injection Hu' as ->.
Qed.

Lemma the_loads_ok : loads_for 4 the_loads (sets_of the_threads).
Proof.
  unfold the_threads. rewrite !sets_of_insert. unfold sets_of. rewrite map_fmap_singleton.
  apply (loads_for_add' [2; 6; 2; 2]); [|reflexivity|by apply one_cpu_ok|vm_compute; reflexivity].
  apply (loads_for_add' [2; 2; 2; 2]); [|reflexivity|by apply one_cpu_ok|vm_compute; reflexivity].
  apply (loads_for_add' [1; 1; 1; 1]); [|reflexivity|apply all_cpus_ok|vm_compute; reflexivity].
  apply (loads_for_add' [0; 0; 0; 0]); [|reflexivity|apply all_cpus_ok|vm_compute; reflexivity].
  constructor; [done|done|]. intros c Hc. apply (load_of_replicate_zero 4).
Qed.

Lemma st_ok : state_ok st.
Proof.
  constructor; [| |apply the_loads_ok]; cbn [st threads groups wayca_threads_array wayca_groups_array];
    constructor.
  - intros [|[|[|[|[|i]]]]] p E; inversion E; eexists; split; reflexivity.
  - intros p x Hx. unfold the_threads in Hx.
    repeat (apply lookup_insert_Some in Hx as [[<- <-]|[_ Hx]]; [split; [done|reflexivity]|]).
    apply lookup_singleton_Some in Hx as [<- <-]. split; [done|reflexivity].
  - intros [|[|[|i]]] p E; inversion E; eexists; split; reflexivity.
  - intros p x Hx. apply lookup_insert_Some in Hx as [[<- <-]|[_ Hx]]; [split; [done|reflexivity]|].
    apply lookup_singleton_Some in Hx as [<- <-]. split; [done|reflexivity].
Qed.

Lemma st_two_list : group_list st 0 TwoThreads.two [0%nat; 1%nat].
Proof.
  constructor; [reflexivity|repeat (econstructor; [reflexivity|]); constructor|reflexivity|].
  intros p t Hp. assert (p = 0%nat \/ p = 1%nat) as [-> | ->] by set_solver;
    intros E; injection E as <-; reflexivity.
Qed.

Lemma st_empty_list : group_list st 1 empty_group [].
Proof.
  constructor; [reflexivity|constructor|reflexivity|]. intros p t Hp. by apply elem_of_nil in Hp.
Qed.

Lemma empty_group_ok : group_ok 4 empty_group.
Proof. apply (fresh_group_ok 4 _ 0 4); try done. by exists 4. Qed.

Lemma st_loads_ok : loads_ok 4 empty_group the_loads.
Proof.
  split; [done|]. intros k Hk. change (g_nr_cpus_per_topo empty_group) with 1.
  unfold region_load. change (seqZ (1 * k) 1) with [0 + 1 * k]. cbn [map sumZ]. unfold load_of.
  assert (H : forall i, default 0 (the_loads !! i) <= 6).
  { intros [|[|[|[|[]]]]]; cbn; lia. }
  pose proof (H (Z.to_nat (0 + 1 * k))). unfold INT_MAX. lia.
Qed.

Lemma wayca_sc_thread_attach_group_correct_witness :
  exists g' s', wayca_sc_thread_attach_group 2 1 st = Ok (0, s') /\ state_ok s' /\
    group_list s' 1 g' [2%nat].
Proof.
  destruct (wayca_sc_thread_attach_group_correct st 2 created 1 empty_group [])
    as (p & g' & t' & s' & Hrun & Hok & Hgl & _);
    [apply st_ok|reflexivity|reflexivity|reflexivity|apply st_empty_list|apply not_elem_of_nil
    |reflexivity|reflexivity|apply empty_group_ok|apply st_loads_ok|].
  exists g', s'. split; [exact Hrun|]. split; [exact Hok|exact Hgl].
Defined.

Lemma group_ok_members m g k h :
  group_ok m g -> group_ok m (set_g_nr_threads k (set_g_threads h g)).
Proof. intros []. by constructor. Qed.

Lemma two_ok : group_ok 4 TwoThreads.two.
Proof.
  change TwoThreads.two with (set_g_nr_threads 2 (set_g_threads (Some 0%nat)
    (with_account (group default_attr 1) (CPU_SET_range 0 2 CPU_EMPTY) 0))).
  apply group_ok_members, group_ok_one; [apply group_default_ok|done|auto with wayca|by vm_compute|].
  intros i Hi. cbn [g_total group]. rewrite !CPU_ISSET_range_SET by (auto with wayca; unfold CPU_SETSIZE; lia).
  rewrite CPU_ISSET_EMPTY, !orb_false_r by done. intros. zbool.
  destruct (Z.leb_spec 0 i), (Z.ltb_spec i (0 + 4)); lia.
Qed.

Lemma two_placed : placed_on TwoThreads.two 1 (TwoThreads.member 1 None).
Proof.
  constructor; [reflexivity|unfold CPU_SETSIZE; lia|apply CPU_SET_wf, CPU_EMPTY_wf|]. intros i Hi.
  rewrite (binds_one TwoThreads.two 1 i eq_refl).
  change (t_allowed_set (TwoThreads.member 1 None)) with (CPU_SET 1 CPU_EMPTY).
  rewrite (CPU_ISSET_SET i 1 CPU_EMPTY CPU_EMPTY_wf Hi ltac:(unfold CPU_SETSIZE; lia)).
  by rewrite (CPU_ISSET_EMPTY i Hi), orb_false_r.
Qed.

Lemma wayca_sc_thread_detach_group_correct_witness :
  exists g' s', wayca_sc_thread_detach_group 1 0 st = Ok (0, s') /\ state_ok s' /\
    group_list s' 0 g' [0%nat] /\ occupancy TwoThreads.two 1 = 1 /\ occupancy g' 1 = 0.
Proof.
  destruct (wayca_sc_thread_detach_group_correct st 1 (TwoThreads.member 1 None) 0 TwoThreads.two
    [0%nat] []) as (g' & s' & Hrun & Hok & Hgl & _ & _ & _ & _ & Hocc);
    [apply st_ok|reflexivity|apply st_two_list|reflexivity|].
  exists g', s'. split; [exact Hrun|]. split; [exact Hok|]. split; [exact Hgl|].
  assert (Hm : forall i, marks TwoThreads.two 1 i = (i =? 1)) by (intros i; by apply marks_one).
  split; [by vm_compute|]. rewrite (Hocc 4 1); [by vm_compute|apply two_ok|..|by vm_compute].
  - apply two_placed.
  - reflexivity.
  - intros i. rewrite Hm. intros ->%Z.eqb_eq. by vm_compute.
  - right. intros i. rewrite Hm. intros ->%Z.eqb_eq. by vm_compute.
  - unfold CPU_SETSIZE. lia.
Defined.

Lemma wayca_sc_thread_join_correct_witness :
  exists s', wayca_sc_thread_join 2 st = Ok (0, s') /\ state_ok s' /\
    threads s' = delete 2%nat the_threads.
Proof.
  destruct (wayca_sc_thread_join_correct st 2 created 7) as (s' & Hrun & Hok & Hth & _);
    [apply st_ok|reflexivity|reflexivity|reflexivity|].
  exists s'. split; [exact Hrun|]. split; [exact Hok|exact Hth].
Defined.

Lemma wayca_sc_pid_attach_thread_correct_witness :
  exists s', wayca_sc_pid_attach_thread true 104 st = Ok ((0, Some 4), s') /\ state_ok s'.
Proof.
  destruct (wayca_sc_pid_attach_thread_correct st 4 104 all_cpus)
    as (p & t & s' & Hrun & Hok & _);
    [apply st_ok|reflexivity|lia|reflexivity|reflexivity|apply all_cpus_ok|apply all_cpus_ok|].
  exists s'. split; [exact Hrun|exact Hok].
Defined.

Lemma wayca_sc_pid_detach_thread_loads_witness :
  exists s', wayca_sc_pid_detach_thread 3 st = Ok (0, s') /\
    load_of (wayca_cpu_loads s') 3 = total_load 4 (sets_of (threads s')) 3 - 1.
Proof.
  destruct (wayca_sc_pid_detach_thread_loads st 3 attached) as (s' & Hrun & _ & Hl);
    [apply st_ok|reflexivity|reflexivity|reflexivity|].
  exists s'. split; [exact Hrun|]. rewrite (Hl 3) by lia. f_equal.
Defined.

Lemma wayca_sc_thread_set_attr_loads_witness :
  exists ret s', wayca_sc_thread_set_attr 0 (Some 0) st = Ok (ret, s') /\
    load_of (wayca_cpu_loads s') 0 = total_load 4 (sets_of (threads s')) 0 + 4.
Proof.
  destruct (wayca_sc_thread_set_attr_loads st 0 (TwoThreads.member 0 (Some 1%nat)) 0 0)
    as (ret & s' & Hrun & _ & Hl); [apply st_ok|reflexivity|reflexivity|].
  exists ret, s'. split; [exact Hrun|]. rewrite (Hl 0) by lia. f_equal.
Defined.

Lemma wayca_sc_group_attach_self_deadlocks_witness :
  wayca_sc_group_attach_group 1 1 st = Fault Deadlock.
Proof.
  apply (wayca_sc_group_attach_self_deadlocks st 1 empty_group);
    [apply st_ok|reflexivity|reflexivity|reflexivity].
Defined.

Lemma wayca_thread_init_correct_witness :
  exists s, wayca_thread_init None None None start_state = Ok (tt, s) /\ state_ok s /\
    wayca_cpu_loads s = [0; 0; 0; 0].
Proof.
  destruct (wayca_thread_init_correct None None None) as (s & Hrun & Hok & _ & Hl & _);
    [cbn; lia|reflexivity|].
  exists s. split; [exact Hrun|]. split; [exact Hok|exact Hl].
Defined.

Lemma wayca_sc_group_create_correct_witness :
  exists s', wayca_sc_group_create true st = Ok ((0, Some 2), s') /\ state_ok s'.
Proof.
  destruct (wayca_sc_group_create_correct st 2) as (p & g & s' & Hrun & Hok & _);
    [apply st_ok|cbn; unfold CPU_SETSIZE; lia|reflexivity|reflexivity|reflexivity|].
  exists s'. split; [exact Hrun|exact Hok].
Defined.
End AtWork.
