(* ===== verification/Documented.v ===== *)
(** * The documented placement

    [include/wayca-scheduler.h] documents where five members of a group are
    placed, on a NUMA node of four clusters of four CPUs. Here the whole interface
    is run on that machine, from the start of the library on. *)

From S2P Require Import Prelude Bitops Cpuset Cstring State Group Placement Accounting Members.
From S2P Require Import Threads Lifecycle.

Section documented.

(** One NUMA node: clusters of four CPUs, sixteen CPUs. *)
#[local] Instance numa16 : Topology := {|
  wayca_sc_cpus_in_ccl := 4; wayca_sc_cpus_in_node := 16;
  wayca_sc_cpus_in_package := 16; wayca_sc_cpus_in_total := 16 |}.

(** Every call succeeds, and a new thread may run on every CPU. *)
#[local] Instance willing : System := {|
  sys_setaffinity _ _ _ _ := 0; sys_getaffinity _ _ := inr (CPU_SET_range 0 16 CPU_EMPTY);
  sys_malloc _ _ := true; sys_pthread_create _ := inr 1; sys_pthread_join _ _ := 0;
  sys_pthread_kill _ _ _ := 0; sys_tkill _ _ _ := 0; sys_gettid _ := 100;
  sys_task_dir _ _ := inr [] |}.

Fixpoint all {A} (l : list Z) (f : Z -> M sched A) : M sched (list A) :=
  match l with
  | [] => mret []
  | x :: l => a ← f x; r ← all l f; mret (a :: r)
  end.

Definition five : list Z := [0; 1; 2; 3; 4].
Definition cpus_of (o : option cpu_set_t) : list Z :=
  match o with Some s => cpus s | None => [] end.
Definition result {A} (o : outcome (A * sched)) : option A :=
  match o with Ok (a, _) => Some a | Fault _ => None end.

(** The library is started, group 0 gets the attribute [attr]. *)
Definition father (attr : Z) : M sched unit :=
  wayca_thread_init (Some (print_num 10 8)) (Some (print_num 10 8)) None;;
  wayca_sc_group_create true;;
  wayca_sc_group_set_attr 0 (Some attr);;
  mret tt.

(** Five threads are created, then attached: the affinity of each. *)
Definition five_threads (attr : Z) : M sched (list (list Z)) :=
  father attr;;
  all five (fun _ => wayca_sc_thread_create true (Some 1) 0);;
  all five (fun i => wayca_sc_thread_attach_group i 0);;
  all five (fun i => r ← wayca_sc_thread_get_cpuset i sizeof_cpu_set_t true; mret (cpus_of r.2)).

(** Five groups are created, then attached: the range of each. *)
Definition five_groups (attr : Z) : M sched (list (list Z)) :=
  father attr;;
  all five (fun _ => wayca_sc_group_create true);;
  all five (fun i => wayca_sc_group_attach_group (i + 1) 0);;
  all five (fun i => r ← wayca_sc_group_get_cpuset (i + 1) sizeof_cpu_set_t true;
                     mret (cpus_of r.2)).

Definition ccl0 : list Z := [0; 1; 2; 3].
Definition ccl1 : list Z := [4; 5; 6; 7].
Definition ccl2 : list Z := [8; 9; 10; 11].
Definition ccl3 : list Z := [12; 13; 14; 15].

(** The table of the header, row by row: the ranges of five groups, and the
    affinities of five threads for the four combinations of the per-CPU and the
    compact flag. *)
Theorem documented_placement :
  result (five_groups WT_GF_CCL start_state) = Some [ccl0; ccl1; ccl2; ccl3; ccl0] /\
  result (five_threads WT_GF_CCL start_state) = Some [ccl0; ccl1; ccl2; ccl3; ccl0] /\
  result (five_threads (Z.lor WT_GF_CCL WT_GF_PERCPU) start_state)
    = Some [[0]; [4]; [8]; [12]; [1]] /\
  result (five_threads (Z.lor WT_GF_CCL WT_GF_COMPACT) start_state)
    = Some [ccl0; ccl0; ccl0; ccl0; ccl1] /\
  result (five_threads (Z.lor (Z.lor WT_GF_CCL WT_GF_PERCPU) WT_GF_COMPACT) start_state)
    = Some [[0]; [1]; [2]; [3]; [4]].
Proof using. split; [|split; [|split; [|split]]]; vm_compute; reflexivity. Qed.
End documented.
