(* ===== verification/Affinity.v ===== *)
(** * CPU lists and bindings

    The first part of [lib/threads.c]: [list_to_mask], which reads a list such
    as [0-3,8-14:2] into a CPU mask, and the functions that bind a thread or all
    the threads of a process to a part of the machine. *)

From Stdlib Require Import Ascii.
From S2P Require Import Prelude Bitops Cpuset Cstring State Group.

(** What the topology component answers to a request for the CPUs of a part of
    the machine, for a set of [sizeof(cpu_set_t)] bytes: a negative error number
    or the mask. *)
Class TopoMasks := {
  wayca_sc_ccl_cpu_mask : Z -> Z + cpu_set_t;
  wayca_sc_node_cpu_mask : Z -> Z + cpu_set_t;
  wayca_sc_package_cpu_mask : Z -> Z + cpu_set_t;
  wayca_sc_total_cpu_mask : Z + cpu_set_t;
}.

(** ** Lists of CPUs *)

(** [for (int i = start; i <= end; i += stride) CPU_SET_S(i, cpusetsize, mask);]
    with [i] an [int] and [end], [stride] of type [unsigned long]. *)
Fixpoint set_stride_loop (fuel : nat) (i end_ stride cpusetsize : Z) (mask : cpu_set_t)
    : outcome cpu_set_t :=
  match fuel with
  | O => Fault OutOfFuel
  | S fuel =>
    if to_ulong i <=? end_ then
      set_stride_loop fuel (to_int (i + stride)) end_ stride cpusetsize
        (CPU_SET_S i cpusetsize mask)
    else Ok mask
  end.

(** One element of the list: start, end, stride, whether a number was out of
    range, and the rest of the string. *)
Definition read_element (s : cstring) : Z * Z * Z * bool * cstring :=
  let '(start, e1, s) := strtoul 10 s in
  if char_at s =? 45 (* '-' *) then
    let '(end_, e2, s) := strtoul 10 (advance s) in
    if char_at s =? 58 (* ':' *) then
      let '(stride, e3, s) := strtoul 10 (advance s) in
      (start, end_, stride, e1 || e2 || e3, s)
    else (start, end_, 1, e1 || e2, s)
  else (start, start, 1, e1, s).

(** The test after which the list is called bad. [cr_in_total] is an [int]
    compared with [unsigned long]s. *)
Definition bad_element (cr_in_total end_ stride : Z) (erange : bool) (s : cstring) : bool :=
  negb (char_at s =? 44) && negb (char_at s =? 0)
  || (to_ulong (Z.quot cr_in_total 2) <=? stride)
  || erange
  || (to_ulong cr_in_total <=? end_).

(** The turns that the inner loop can take: at most one for every number up to
    [end], and the last test. *)
Definition stride_fuel (end_ : Z) : nat := Z.to_nat (end_ + 2).

Fixpoint list_to_mask_loop (fuel : nat) (cr_in_total : Z) (s : cstring) (cpusetsize : Z)
    (mask : cpu_set_t) : outcome (Z * cpu_set_t) :=
  match fuel with
  | O => Fault OutOfFuel
  | S fuel =>
    let '(start, end_, stride, erange, s) := read_element s in
    if bad_element cr_in_total end_ stride erange s then
      Ok (if erange then - ERANGE else 0, mask)
    else
      mask ← set_stride_loop (stride_fuel end_) (to_int start) end_ stride cpusetsize mask;
      if char_at s =? 0 then Ok (0, mask)
      else list_to_mask_loop fuel cr_in_total (advance s) cpusetsize mask
  end.

Definition list_to_mask (cr_in_total : Z) (s : cstring) (cpusetsize : Z) (mask : cpu_set_t)
    : outcome (Z * cpu_set_t) :=
  list_to_mask_loop (S (length s)) cr_in_total s cpusetsize (CPU_ZERO_S cpusetsize mask).

(** ** Bindings *)

Section bind.
Context `{T : Topology} `{Sys : System} `{TM : TopoMasks}.

(** An error of the topology is returned; otherwise the mask is used. *)
Definition with_mask (r : Z + cpu_set_t) (k : cpu_set_t -> M sched Z) : M sched Z :=
  match r with inl ret => mret ret | inr mask => k mask end.

Definition thread_bind_cpu (pid cpu : Z) : M sched Z :=
  thread_sched_setaffinity pid sizeof_cpu_set_t (CPU_SET cpu CPU_EMPTY).
Definition thread_bind_ccl (pid ccl : Z) : M sched Z :=
  with_mask (wayca_sc_ccl_cpu_mask ccl) (thread_sched_setaffinity pid sizeof_cpu_set_t).
Definition thread_bind_node (pid node : Z) : M sched Z :=
  with_mask (wayca_sc_node_cpu_mask node) (thread_sched_setaffinity pid sizeof_cpu_set_t).
Definition thread_bind_package (pid package : Z) : M sched Z :=
  with_mask (wayca_sc_package_cpu_mask package) (thread_sched_setaffinity pid sizeof_cpu_set_t).
Definition thread_unbind (pid : Z) : M sched Z :=
  with_mask wayca_sc_total_cpu_mask (thread_sched_setaffinity pid sizeof_cpu_set_t).

(** [mask] is the uninitialised local variable. *)
Definition thread_bind_cpulist (mask : cpu_set_t) (pid : Z) (s : cstring) : M sched Z :=
  r ← lift (list_to_mask wayca_sc_cpus_in_total s sizeof_cpu_set_t mask);
  if negb (r.1 =? 0) then mret (- EINVAL)
  else thread_sched_setaffinity pid sizeof_cpu_set_t r.2.

(** Binds the task [pid] only, although it is named after the process. *)
Definition process_bind_cpulist (mask : cpu_set_t) (pid : Z) (s : cstring) : M sched Z :=
  r ← lift (list_to_mask wayca_sc_cpus_in_total s sizeof_cpu_set_t mask);
  if negb (r.1 =? 0) then mret (- EINVAL)
  else thread_sched_setaffinity pid sizeof_cpu_set_t r.2.

(** The [while (readdir)] loop over the task directory. *)
Fixpoint setaffinity_tasks (names : list cstring) (size : Z) (mask : cpu_set_t) (ret : Z)
    : M sched Z :=
  match names with
  | [] => mret ret
  | name :: names =>
    if decide (name = dot) then setaffinity_tasks names size mask ret
    else if decide (name = dotdot) then setaffinity_tasks names size mask ret
    else
      let tid := to_int (strtoul 10 name).1.1 in
      ret ← thread_sched_setaffinity tid size mask;
      if ret <? 0 then mret ret else setaffinity_tasks names size mask ret
  end.

Definition process_sched_setaffinity (pid size : Z) (mask : cpu_set_t) : M sched Z :=
  s ← get;
  emit (EvOpendir pid);;
  match sys_task_dir (trace s) pid with
  | inl err => mret err
  | inr names => setaffinity_tasks names size mask (- ENOENT)
  end.

Definition process_bind_cpu (pid cpu : Z) : M sched Z :=
  process_sched_setaffinity pid sizeof_cpu_set_t (CPU_SET cpu CPU_EMPTY).
Definition process_bind_ccl (pid ccl : Z) : M sched Z :=
  with_mask (wayca_sc_ccl_cpu_mask ccl) (process_sched_setaffinity pid sizeof_cpu_set_t).
Definition process_bind_node (pid node : Z) : M sched Z :=
  with_mask (wayca_sc_node_cpu_mask node) (process_sched_setaffinity pid sizeof_cpu_set_t).
Definition process_bind_package (pid package : Z) : M sched Z :=
  with_mask (wayca_sc_package_cpu_mask package) (process_sched_setaffinity pid sizeof_cpu_set_t).
Definition process_unbind (pid : Z) : M sched Z :=
  with_mask wayca_sc_total_cpu_mask (process_sched_setaffinity pid sizeof_cpu_set_t).
Definition process_bind_cpumask (pid : Z) (cpumask : cpu_set_t) (cpusetsize : Z) : M sched Z :=
  process_sched_setaffinity pid cpusetsize cpumask.
Definition thread_bind_cpumask (pid : Z) (cpumask : cpu_set_t) (cpusetsize : Z) : M sched Z :=
  thread_sched_setaffinity pid cpusetsize cpumask.
End bind.

(** ** What a list denotes *)

Inductive item :=
  | One (a : Z)
  | Range (a b : Z)
  | Stride (a b k : Z).

Definition item_start (it : item) : Z :=
  match it with One a | Range a _ | Stride a _ _ => a end.
Definition item_end (it : item) : Z :=
  match it with One a => a | Range _ b | Stride _ b _ => b end.
Definition item_stride (it : item) : Z := match it with Stride _ _ k => k | _ => 1 end.

Definition covers (c : Z) (it : item) : bool :=
  (item_start it <=? c) && (c <=? item_end it) && ((c - item_start it) mod item_stride it =? 0).

Definition comma : ascii := ascii_of_nat 44.
Definition dash : ascii := ascii_of_nat 45.
Definition colon : ascii := ascii_of_nat 58.

Definition print_item (it : item) : cstring :=
  match it with
  | One a => print_num 10 a
  | Range a b => print_num 10 a ++ dash :: print_num 10 b
  | Stride a b k => print_num 10 a ++ dash :: print_num 10 b ++ colon :: print_num 10 k
  end.

Fixpoint print_list (l : list item) : cstring :=
  match l with
  | [] => []
  | [it] => print_item it
  | it :: l => print_item it ++ comma :: print_list l
  end.

Record item_ok (total : Z) (it : item) : Prop := {
  io_start : 0 <= item_start it <= item_end it;
  io_end : item_end it < total;
  io_stride : 1 <= item_stride it < Z.quot total 2;
}.

(** What follows an element: the end of the string or a comma. *)
Definition ends_element (rest : cstring) : Prop :=
  rest = [] \/ exists s, rest = comma :: s.

Lemma ends_number_sep rest (c : ascii) s :
  rest = [] \/ rest = c :: s -> digit_val 10 c = None -> ends_number 10 rest.
Proof. intros [-> | ->] H; [done|]. unfold ends_number, starts_digit. by rewrite H. Qed.

Lemma small_word n : 0 <= n < 2 ^ 31 -> is_word n.
Proof. unfold is_word. lia. Qed.

Lemma read_element_print it rest :
  0 <= item_start it < 2 ^ 31 -> 0 <= item_end it < 2 ^ 31 -> 0 <= item_stride it < 2 ^ 31 ->
  ends_element rest ->
  read_element (print_item it ++ rest) =
  (item_start it, item_end it, item_stride it, false, rest).
Proof.
  intros Ha Hb Hk Hr.
  assert (He : ends_number 10 rest).
  { destruct Hr as [->|[s ->]]; [done|]. by apply (ends_number_sep _ comma s); [right|]. }
  assert (Hc : char_at rest =? 45 = false /\ char_at rest =? 58 = false)
    by (destruct Hr as [->|[s ->]]; done).
  destruct Hc as [Hc1 Hc2]. unfold read_element.
  destruct it as [a|a b|a b k]; cbn [print_item item_start item_end item_stride] in *.
  - rewrite strtoul_print by (lia || by apply small_word || done). by rewrite Hc1.
  - rewrite <- app_assoc. cbn [app].
    rewrite strtoul_print by (lia || (by apply small_word) || done).
    change (char_at (dash :: _) =? 45) with true. cbn [advance].
    rewrite strtoul_print by (lia || (by apply small_word) || done). by rewrite Hc2.
  - rewrite <- !app_assoc. cbn [app]. rewrite <- app_assoc. cbn [app].
    rewrite strtoul_print by (lia || (by apply small_word) || done).
    change (char_at (dash :: _) =? 45) with true. cbn [advance].
    rewrite strtoul_print by (lia || (by apply small_word) || done).
    change (char_at (colon :: _) =? 58) with true. cbn [advance].
    by rewrite strtoul_print by (lia || (by apply small_word) || done).
Qed.

(** ** The inner loop *)

(** The first number of a stride, and the numbers from the second on. *)
Lemma stride_step i e k c :
  1 <= k -> i <= e ->
  (i + k <=? c) && (c <=? e) && ((c - (i + k)) mod k =? 0) || (c =? i) =
  (i <=? c) && (c <=? e) && ((c - i) mod k =? 0).
Proof.
  intros Hk Hie. apply Bool.eq_iff_eq_true.
  rewrite orb_true_iff, !andb_true_iff, !Z.leb_le, !Z.eqb_eq. split.
  - intros [[[? ?] Hm]| ->].
    + split; [lia|]. replace (c - i) with (c - (i + k) + 1 * k) by lia. by rewrite Z.mod_add by lia.
    + split; [lia|]. by rewrite Z.sub_diag.
  - intros [[? ?] Hm]. destruct (decide (c = i)) as [->|]; [by right|left].
    assert (Hd : (c - i) = k * ((c - i) / k)) by (pose proof (Z.div_mod (c - i) k); lia).
    assert (0 < (c - i) / k) by nia.
    replace (c - (i + k)) with (c - i + (-1) * k) by lia. rewrite Z.mod_add by lia.
    split; [nia|done].
Qed.

Lemma set_stride_loop_ok fuel i e k mask :
  0 <= i -> e < CPU_SETSIZE -> 1 <= k < 2 ^ 30 -> i < 2 ^ 30 + CPU_SETSIZE -> cpuset_wf mask ->
  e - i + 1 < Z.of_nat fuel -> (0 < fuel)%nat ->
  exists mask', set_stride_loop fuel i e k sizeof_cpu_set_t mask = Ok mask' /\ cpuset_wf mask' /\
    forall c, 0 <= c < CPU_SETSIZE ->
      CPU_ISSET c mask' = ((i <=? c) && (c <=? e) && ((c - i) mod k =? 0)) || CPU_ISSET c mask.
Proof.
  revert i mask. induction fuel as [|fuel IH]; intros i mask Hi He Hk Hi2 Hw Hf Hf0; [lia|].
  cbn [set_stride_loop]. unfold CPU_SETSIZE in *. rewrite to_ulong_id by (unfold is_word; lia).
  destruct (Z.leb_spec i e) as [Hle|Hgt].
  - rewrite to_int_id by lia. fold (CPU_SET i mask).
    destruct (IH (i + k) (CPU_SET i mask)) as (m' & -> & Hw' & Hb);
      [lia|lia|lia|lia|auto with wayca|lia|lia|].
    exists m'. split; [done|]. split; [done|]. intros c Hc. rewrite Hb by done.
    rewrite CPU_ISSET_SET by (unfold CPU_SETSIZE; done || lia).
    rewrite orb_assoc. f_equal. apply stride_step; lia.
  - exists mask. split; [done|]. split; [done|]. intros c Hc.
    destruct (Z.leb_spec i c), (Z.leb_spec c e); try lia; done.
Qed.

(** Without progress the loop never ends, whatever the number of turns. *)
Lemma stride_zero_runs fuel i e cpusetsize mask :
  0 <= i <= e -> e < 2 ^ 31 -> set_stride_loop fuel i e 0 cpusetsize mask = Fault OutOfFuel.
Proof.
  intros Hi He. revert mask. induction fuel as [|fuel IH]; intros mask; [done|].
  cbn [set_stride_loop]. rewrite to_ulong_id by (unfold is_word; lia).
  destruct (Z.leb_spec i e); [|lia]. rewrite Z.add_0_r, to_int_id by lia. apply IH.
Qed.

(** ** The list *)

Lemma good_element total it rest :
  0 < total <= CPU_SETSIZE -> item_ok total it -> ends_element rest ->
  bad_element total (item_end it) (item_stride it) false rest = false.
Proof.
  intros Ht [Hs He Hk] Hr. unfold bad_element, CPU_SETSIZE in *.
  assert (Z.quot total 2 = total / 2) as Hq by (apply Z.quot_div_nonneg; lia).
  rewrite !to_ulong_id by (unfold is_word; rewrite ?Hq; zdm).
  replace (negb (char_at rest =? 44) && negb (char_at rest =? 0)) with false
    by (destruct Hr as [->|[s ->]]; done).
  destruct (Z.leb_spec (Z.quot total 2) (item_stride it)); [lia|].
  destruct (Z.leb_spec total (item_end it)); [lia|done].
Qed.

Lemma list_to_mask_loop_print fuel total l mask :
  0 < total <= CPU_SETSIZE -> l <> [] -> Forall (item_ok total) l -> cpuset_wf mask ->
  (length l <= fuel)%nat ->
  exists mask', list_to_mask_loop fuel total (print_list l) sizeof_cpu_set_t mask = Ok (0, mask') /\
    cpuset_wf mask' /\
    forall c, 0 <= c < CPU_SETSIZE -> CPU_ISSET c mask' = existsb (covers c) l || CPU_ISSET c mask.
Proof.
  intros Ht Hne Hl. revert fuel mask.
  induction Hl as [|it l Hit Hl IH]; intros fuel mask Hw Hf; [done|].
  destruct fuel as [|fuel]; [simpl in Hf; lia|].
  pose proof Hit as [Hs He Hk]. unfold CPU_SETSIZE in *.
  assert (Hq : Z.quot total 2 = total / 2) by (apply Z.quot_div_nonneg; lia).
  assert (total / 2 <= 512) by zdm.
  destruct (set_stride_loop_ok (stride_fuel (item_end it)) (item_start it) (item_end it)
              (item_stride it) mask) as (m1 & Hrun & Hw1 & Hb1);
    [lia|unfold CPU_SETSIZE; lia|lia|unfold CPU_SETSIZE; lia|done
    |unfold stride_fuel; lia|unfold stride_fuel; lia|].
  assert (Hrest : exists rest, print_list (it :: l) = print_item it ++ rest /\
            ends_element rest /\ (rest = [] /\ l = [] \/ l <> [] /\ rest = comma :: print_list l)).
  { destruct l as [|it' l].
    - exists []. rewrite app_nil_r. split; [done|]. split; [by left|by left].
    - exists (comma :: print_list (it' :: l)). split; [done|]. split; [right; eauto|by right]. }
  destruct Hrest as (rest & -> & Hend & Hcase). cbn [list_to_mask_loop].
  rewrite read_element_print by (done || lia).
  rewrite good_element by (done || unfold CPU_SETSIZE; done || lia).
  rewrite to_int_id by lia. rewrite Hrun. obind.
  destruct Hcase as [[-> ->]|[Hl0 ->]].
  - exists m1. split; [done|]. split; [done|]. intros c Hc. rewrite Hb1 by done.
    cbn [existsb]. by rewrite orb_false_r.
  - change (char_at (comma :: _) =? 0) with false. cbn [advance].
    destruct (IH Hl0 fuel m1) as (m2 & -> & Hw2 & Hb2); [done|simpl in Hf; lia|].
    exists m2. split; [done|]. split; [done|]. intros c Hc. rewrite Hb2, Hb1 by done.
    cbn [existsb]. unfold covers at 2.
    by destruct (existsb (covers c) l), ((item_start it <=? c) && _ && _), (CPU_ISSET c mask).
Qed.

Lemma length_print_list l : (length l <= S (length (print_list l)))%nat.
Proof.
  induction l as [|it [|it' l] IH]; [simpl; lia|simpl; lia|].
  change (print_list (it :: it' :: l)) with (print_item it ++ comma :: print_list (it' :: l)).
  rewrite length_app. cbn [length] in *. lia.
Qed.

(** A stride of zero passes the checks of [list_to_mask], and then the loop
    over the range never ends: whatever the number of turns it is given, it is
    still running. *)
Theorem zero_stride_diverges total a b fuel cpusetsize mask :
  2 <= total <= CPU_SETSIZE -> 0 <= a <= b -> b < total ->
  (exists rest, read_element (print_list [Stride a b 0]) = (a, b, 0, false, rest) /\
     bad_element total b 0 false rest = false) /\
  set_stride_loop fuel a b 0 cpusetsize mask = Fault OutOfFuel /\
  list_to_mask total (print_list [Stride a b 0]) cpusetsize mask = Fault OutOfFuel.
Proof.
  intros Ht Hab Hb. unfold CPU_SETSIZE in *.
  assert (Hrd : read_element (print_list [Stride a b 0]) = (a, b, 0, false, [])).
  { cbn [print_list]. rewrite <- (app_nil_r (print_item _)).
    by rewrite read_element_print by (cbn; lia || by left). }
  assert (Hgood : bad_element total b 0 false [] = false).
  { unfold bad_element. assert (Z.quot total 2 = total / 2) as Hq by (apply Z.quot_div_nonneg; lia).
    rewrite !to_ulong_id by (unfold is_word; rewrite ?Hq; zdm). cbn [char_at]. rewrite Hq.
    destruct (Z.leb_spec (total / 2) 0); [zdm|]. by destruct (Z.leb_spec total b); [lia|]. }
  split; [by exists []|]. split; [by apply stride_zero_runs; lia|].
  unfold list_to_mask. cbn [list_to_mask_loop]. rewrite Hrd, Hgood.
  rewrite to_int_id by lia. by rewrite stride_zero_runs by lia.
Qed.

(** A list that was printed is read as the CPUs that it covers. *)
Lemma list_to_mask_reads total l mask :
  0 < total <= CPU_SETSIZE -> l <> [] -> Forall (item_ok total) l -> cpuset_wf mask ->
  exists mask', list_to_mask total (print_list l) sizeof_cpu_set_t mask = Ok (0, mask') /\
    cpuset_wf mask' /\
    forall c, 0 <= c < CPU_SETSIZE -> CPU_ISSET c mask' = existsb (covers c) l.
Proof.
  intros Ht Hne Hl Hw. unfold list_to_mask. fold (CPU_ZERO mask). rewrite CPU_ZERO_eq by done.
  destruct (list_to_mask_loop_print (S (length (print_list l))) total l CPU_EMPTY) as (m & H1 & H2 & H3);
    try done; [apply CPU_EMPTY_wf|apply length_print_list|].
  exists m. split; [done|]. split; [done|]. intros c Hc.
  by rewrite H3, CPU_ISSET_EMPTY, orb_false_r.
Qed.

(** C27. [list_to_mask] reads a list that was printed in the documented syntax
    back: it succeeds and the mask holds exactly the CPUs that some element covers,
    for numbers below the number of CPUs and strides below half of it (so for four
    CPUs at least; on a machine with two or three see [list_to_mask_small_machine]). *)
Theorem list_to_mask_print total l mask :
  0 < total <= CPU_SETSIZE -> l <> [] -> Forall (item_ok total) l -> cpuset_wf mask ->
  exists mask', list_to_mask total (print_list l) sizeof_cpu_set_t mask = Ok (0, mask') /\
    cpuset_wf mask' /\
    forall c, 0 <= c < CPU_SETSIZE -> CPU_ISSET c mask' = existsb (covers c) l.
Proof. apply list_to_mask_reads. Qed.

(** On a machine of two or three CPUs every list without strides is called
    bad, yet the result is 0 (success) and the mask is empty: the error return is
    [-errno] and no conversion set [errno]. *)
Theorem list_to_mask_small_machine total it l mask :
  2 <= total < 4 -> item_stride it = 1 -> 0 <= item_start it <= item_end it -> item_end it < total ->
  cpuset_wf mask ->
  list_to_mask total (print_list (it :: l)) sizeof_cpu_set_t mask = Ok (0, CPU_EMPTY).
Proof.
  intros Ht Hk Hs He Hw. unfold list_to_mask. fold (CPU_ZERO mask). rewrite CPU_ZERO_eq by done.
  assert (Hrest : exists rest, print_list (it :: l) = print_item it ++ rest /\ ends_element rest).
  { destruct l as [|it' l]; [exists []; rewrite app_nil_r; split; [done|by left]|].
    eexists. split; [reflexivity|right; eauto]. }
  destruct Hrest as (rest & -> & Hend). cbn [list_to_mask_loop].
  rewrite read_element_print by (done || lia). rewrite Hk.
  assert (Hq : Z.quot total 2 = 1) by (assert (total = 2 \/ total = 3) as [-> | ->] by lia; done).
  unfold bad_element. rewrite Hq. change (to_ulong 1 <=? 1) with true.
  by rewrite orb_true_r.
Qed.

(** ** Whole processes *)

Section process.
Context `{T : Topology} `{Sys : System} `{TM : TopoMasks}.

Lemma print_num_not_dots n : 0 <= n -> print_num 10 n <> dot /\ print_num 10 n <> dotdot.
Proof using.
  intros Hn. destruct (print_num_head 10 n) as (c & s & -> & d & Hd & _ & _); [lia|done|].
  split; intros [= -> _]; by vm_compute in Hd.
Qed.

Lemma tid_of_name n : 0 <= n < 2 ^ 31 -> to_int (strtoul 10 (print_num 10 n)).1.1 = n.
Proof using.
  intros Hn. rewrite <- (app_nil_r (print_num 10 n)).
  rewrite strtoul_print by (lia || (by apply small_word) || done). by apply to_int_id.
Qed.

Lemma setaffinity_tasks_ok tids size mask ret s :
  Forall (fun tid => 0 <= tid < 2 ^ 31) tids -> 0 <= ret \/ tids <> [] ->
  (forall tr tid, tid ∈ tids -> 0 <= sys_setaffinity tr tid size mask) ->
  exists ret', 0 <= ret' /\
    setaffinity_tasks (map (print_num 10) tids) size mask ret s =
    Ok (ret', set_trace (rev (map (fun tid => EvSetaffinity tid size mask) tids) ++ trace s) s).
Proof using.
  intros Hr. revert ret s. induction Hr as [|tid tids Ht _ IH]; intros ret s Hc Hok.
  - exists ret. split; [by destruct Hc|]. cbn. by destruct s.
  - cbn [map setaffinity_tasks]. destruct (print_num_not_dots tid) as [Hd1 Hd2]; [lia|].
    rewrite !decide_False by done. rewrite tid_of_name by done.
    unfold thread_sched_setaffinity, emit. rewrite !M_bind_assoc.
    unfold mbind, M_bind, get, modify, mret, M_ret. cbv beta iota.
    assert (H0 : 0 <= sys_setaffinity (trace s) tid size mask) by (apply Hok; set_solver).
    destruct (Z.ltb_spec (sys_setaffinity (trace s) tid size mask) 0); [lia|].
    destruct (IH (sys_setaffinity (trace s) tid size mask)
                (set_trace (EvSetaffinity tid size mask :: trace s) s)) as (ret' & Hr' & ->);
      [by left|intros; apply Hok; set_solver|].
    exists ret'. split; [done|]. fsimpl. cbn [rev]. by rewrite <- app_assoc.
Qed.

(** [process_sched_setaffinity] sets the affinity of every task of the
    process, in the order of the directory, skipping the two dot entries. *)
Theorem process_sched_setaffinity_all s pid tids size mask :
  sys_task_dir (trace s) pid = inr (dot :: dotdot :: map (print_num 10) tids) ->
  tids <> [] -> Forall (fun tid => 0 <= tid < 2 ^ 31) tids ->
  (forall tr tid, tid ∈ tids -> 0 <= sys_setaffinity tr tid size mask) ->
  exists ret, 0 <= ret /\
    process_sched_setaffinity pid size mask s =
    Ok (ret, set_trace (rev (map (fun tid => EvSetaffinity tid size mask) tids)
                          ++ EvOpendir pid :: trace s) s).
Proof using.
  intros Hd Hne Hr Hok.
  destruct (setaffinity_tasks_ok tids size mask (- ENOENT) (set_trace (EvOpendir pid :: trace s) s))
    as (ret & H0 & Hrun); [done|by right|done|].
  exists ret. split; [done|]. unfold process_sched_setaffinity, emit, mbind, M_bind, get, modify.
  cbv beta iota. rewrite Hd. cbn [setaffinity_tasks]. rewrite decide_True by done.
  rewrite decide_False by done. by rewrite decide_True by done.
Qed.
End process.

(** ** Examples *)

Module Lists.
(** "0,2-3,4-7:2" on a machine of eight CPUs *)
Definition l : list item := [One 0; Range 2 3; Stride 4 7 2].

Lemma zero_stride_diverges_witness :
  list_to_mask 8 (print_list [Stride 1 3 0]) sizeof_cpu_set_t CPU_EMPTY = Fault OutOfFuel.
Proof.
  apply (zero_stride_diverges 8 1 3 0 sizeof_cpu_set_t CPU_EMPTY); unfold CPU_SETSIZE; lia.
Defined.

Lemma list_to_mask_print_witness :
  exists mask', list_to_mask 8 (print_list l) sizeof_cpu_set_t CPU_EMPTY = Ok (0, mask') /\
    CPU_ISSET 3 mask' = true /\ CPU_ISSET 5 mask' = false.
Proof.
  destruct (list_to_mask_print 8 l CPU_EMPTY) as (mask' & Hrun & _ & Hc);
    [unfold CPU_SETSIZE; lia|discriminate| |apply CPU_EMPTY_wf|].
  - unfold l. repeat (apply List.Forall_cons; [constructor; [cbn; lia|cbn; lia|change (Z.quot 8 2) with 4; cbn; lia]|]). apply List.Forall_nil.
  - exists mask'. split; [exact Hrun|]. split; (rewrite Hc; [reflexivity|unfold CPU_SETSIZE; lia]).
Defined.

Lemma list_to_mask_small_machine_witness :
  list_to_mask 2 (print_list [One 1]) sizeof_cpu_set_t CPU_EMPTY = Ok (0, CPU_EMPTY).
Proof.
  apply (list_to_mask_small_machine 2 (One 1) [] CPU_EMPTY);
    [lia|reflexivity|cbn; lia|cbn; lia|apply CPU_EMPTY_wf].
Defined.

(** A process of the three tasks 10, 11 and 12. *)
#[local] Instance system3 : System := {|
  sys_setaffinity _ _ _ _ := 0; sys_getaffinity _ _ := inr CPU_EMPTY; sys_malloc _ _ := true;
  sys_pthread_create _ := inr 1; sys_pthread_join _ _ := 0; sys_pthread_kill _ _ _ := 0;
  sys_tkill _ _ _ := 0; sys_gettid _ := 10;
  sys_task_dir _ _ := inr (dot :: dotdot :: map (print_num 10) [10; 11; 12]) |}.

Definition idle_state : sched := mk_sched ∅ ∅ ∅ ∅ [] CPU_EMPTY [] [] [] [].

Lemma process_sched_setaffinity_all_witness :
  exists ret, 0 <= ret /\
    process_sched_setaffinity 10 sizeof_cpu_set_t CPU_EMPTY idle_state =
    Ok (ret, set_trace [EvSetaffinity 12 sizeof_cpu_set_t CPU_EMPTY;
                        EvSetaffinity 11 sizeof_cpu_set_t CPU_EMPTY;
                        EvSetaffinity 10 sizeof_cpu_set_t CPU_EMPTY; EvOpendir 10] idle_state).
Proof.
  apply (process_sched_setaffinity_all idle_state 10 [10; 11; 12]);
    [reflexivity|discriminate|repeat (constructor; [lia|]); constructor|intros; cbn; lia].
Defined.
End Lists.
