(* ===== verification/Threadpool.v ===== *)
(** * Thread pools

    The last part of [lib/threads.c]: the queue of a pool (a circular doubly
    linked list), its workers, and the functions of the interface. *)

From S2P Require Import Prelude Bitops Cpuset Cstring State Group Threads.

Definition SIGKILL : Z := 9.

(** [&worker_func], the start routine of the workers. *)
Definition wayca_threadpool_worker_func_addr : Z := 1.

Section pool.
Context `{T : Topology} `{Sys : System}.

(** ** The queue *)

Definition threadpool_task_is_empty (pool : wayca_threadpool) : bool :=
  match p_task_head pool with None => true | Some _ => false end.

Definition threadpool_queue_task (pool task : nat) : M sched unit :=
  p ← get_pool pool;
  match p_task_head p with
  | None =>
    upd_pool pool (set_p_task_head (Some task));;
    upd_task task (set_k_next (Some task));;
    upd_task task (set_k_prev (Some task))
  | Some head =>
    h ← get_task head;
    prev ← deref (k_prev h);
    let next := head in
    upd_task next (set_k_prev (Some task));;
    upd_task task (set_k_next (Some next));;
    upd_task task (set_k_prev (Some prev));;
    upd_task prev (set_k_next (Some task))
  end;;
  upd_pool pool (fun p => set_p_task_num (to_ulong (p_task_num p + 1)) p).

Definition threadpool_dequeue_task (pool : nat) : M sched (option nat) :=
  p ← get_pool pool;
  match p_task_head p with
  | None => mret None
  | Some queue =>
    q ← get_task queue;
    (if decide (k_next q = Some queue) then upd_pool pool (set_p_task_head None)
     else
       next ← deref (k_next q);
       prev ← deref (k_prev q);
       upd_task next (set_k_prev (Some prev));;
       upd_task prev (set_k_next (Some next));;
       upd_pool pool (set_p_task_head (Some next)));;
    upd_pool pool (fun p => set_p_task_num (to_ulong (p_task_num p - 1)) p);;
    mret (Some queue)
  end.

Definition lock_pool (pool : nat) : M sched unit :=
  p ← get_pool pool;
  if p_mutex p then throw Deadlock else put_pool pool (set_p_mutex true p).
Definition unlock_pool (pool : nat) : M sched unit := upd_pool pool (set_p_mutex false).

(** ** Workers *)

(** Where a worker stands in [wayca_threadpool_worker_func]: at the top of the
    loop, in [pthread_cond_wait], running a task, after the task, or done. *)
Inductive worker :=
  | WTop
  | WWait
  | WRun (task : nat)
  | WRan
  | WExit.

(** The steps of a worker; each runs under the mutex of the pool or touches
    only the task it owns. *)
Definition worker_step (pool : nat) (w : worker) : M sched worker :=
  match w with
  | WTop =>
    lock_pool pool;;
    p ← get_pool pool;
    if p_stop p then unlock_pool pool;; mret WExit
    else if p_task_num p =? 0 then unlock_pool pool;; mret WWait
    else
      task ← threadpool_dequeue_task pool;
      upd_pool pool (fun p => set_p_idle_num (to_ulong (p_idle_num p - 1)) p);;
      unlock_pool pool;;
      task ← deref task;
      mret (WRun task)
  | WWait =>
    lock_pool pool;;
    unlock_pool pool;;
    mret WTop
  | WRun task =>
    get_task task;;
    modify (fun s => set_tasks (delete task (tasks s)) s);;
    mret WRan
  | WRan =>
    lock_pool pool;;
    upd_pool pool (fun p => set_p_idle_num (to_ulong (p_idle_num p + 1)) p);;
    unlock_pool pool;;
    mret WTop
  | WExit => mret WExit
  end.

(** ** Pools *)

Definition zero_pool : wayca_threadpool :=
  mk_wayca_threadpool 0 [] 0 0 None 0 None false false.

(** The workers array is uninitialised memory: its entries are unknown until
    they are written. *)
Definition wayca_threadpool_alloc (thread_num : Z) : M sched (option nat) :=
  id ← find_free_threadpool_id_locked;
  match id with
  | None => mret None
  | Some id =>
    ok ← malloc APool;
    if negb ok then mret None else
    ok ← malloc (AWorkers thread_num);
    if negb ok then mret None else
    p ← gets (fun s => fresh (dom (pools s)));
    modify (fun s => set_wayca_threadpools_array
                       (<[Z.to_nat id := Some p]> (wayca_threadpools_array s)) s);;
    put_pool p (set_p_id id (set_p_workers (replicate (Z.to_nat thread_num) None) zero_pool));;
    mret (Some p)
  end.

Definition wayca_threadpool_free (pool : nat) : M sched unit :=
  p ← get_pool pool;
  modify (fun s => set_wayca_threadpools_array
                     (<[Z.to_nat (p_id p) := None]> (wayca_threadpools_array s)) s);;
  modify (fun s => set_pools (delete pool (pools s)) s).

(** The loop that creates the workers: the number of workers when it ends. *)
Fixpoint create_workers (num : nat) (pool : nat) (wgroup worker_num : Z) : M sched Z :=
  match num with
  | O => mret worker_num
  | S num =>
    r ← wayca_sc_thread_create true (Some wayca_threadpool_worker_func_addr) (Z.of_nat pool);
    match r with
    | (0, Some wthread) =>
      thread ← id_to_wayca_thread wthread;
      upd_pool pool (fun p => set_p_workers (<[Z.to_nat worker_num := thread]> (p_workers p)) p);;
      ret ← wayca_sc_thread_attach_group wthread wgroup;
      if negb (ret =? 0) then
        wayca_sc_thread_kill wthread SIGKILL;;
        wayca_sc_thread_join wthread;;
        mret worker_num
      else create_workers num pool wgroup (worker_num + 1)
    | _ => mret worker_num
    end
  end.

Definition wayca_threadpool_init (pool : nat) (num : Z) : M sched Z :=
  r ← wayca_sc_group_create true;
  match r with
  | (0, Some wgroup) =>
    let group_attr := Z.lor (Z.lor WT_GF_CPU WT_GF_COMPACT) WT_GF_PERCPU in
    ret ← wayca_sc_group_set_attr wgroup (Some group_attr);
    if negb (ret.1 =? 0) then
      wayca_sc_group_destroy wgroup;;
      mret ret.1
    else
      group ← id_to_wayca_group wgroup;
      upd_pool pool (fun p => set_p_mutex false (set_p_stop false (set_p_group group p)));;
      worker_num ← create_workers (Z.to_nat num) pool wgroup 0;
      upd_pool pool (fun p =>
        set_p_task_num 0 (set_p_task_head None
          (set_p_idle_num worker_num (set_p_total_worker_num worker_num p))));;
      mret 0
  | (ret, _) => mret ret
  end.

Definition wayca_sc_threadpool_create (threadpool : bool) (num : Z) : M sched (Z * option Z) :=
  if negb threadpool || (num =? 0) then mret (- EINVAL, None) else
  pool ← wayca_threadpool_alloc num;
  match pool with
  | None => mret (- ENOMEM, None)
  | Some pool =>
    ret ← wayca_threadpool_init pool num;
    if negb (ret =? 0) then
      wayca_threadpool_free pool;;
      mret (- ENOMEM, None)
    else
      p ← get_pool pool;
      mret (p_total_worker_num p, Some (p_id p))
  end.

(** [for (worker = 0; worker < total_worker_num; worker++)
    wayca_sc_thread_join(pool->workers[worker]->id, NULL);] *)
Fixpoint join_workers (workers : list (option tptr)) : M sched unit :=
  match workers with
  | [] => mret tt
  | worker :: workers =>
    thread ← deref worker;
    t ← get_thread thread;
    wayca_sc_thread_join (t_id t);;
    join_workers workers
  end.

(** [while (!threadpool_task_is_empty(pool)) free(dequeue)]; every turn removes
    a task. *)
Fixpoint drop_tasks (fuel : nat) (pool : nat) : M sched unit :=
  match fuel with
  | O => throw OutOfFuel
  | S fuel =>
    p ← get_pool pool;
    if threadpool_task_is_empty p then mret tt
    else
      task ← threadpool_dequeue_task pool;
      task ← deref task;
      modify (fun s => set_tasks (delete task (tasks s)) s);;
      drop_tasks fuel pool
  end.

(** The workers finish between the broadcast and the joins. *)
Definition wayca_sc_threadpool_destroy (threadpool : Z) : M sched Z :=
  pool ← id_to_wayca_threadpool threadpool;
  match pool with
  | None => mret (- EINVAL)
  | Some pool =>
    lock_pool pool;;
    upd_pool pool (set_p_stop true);;
    unlock_pool pool;;
    p ← get_pool pool;
    join_workers (take (Z.to_nat (p_total_worker_num p)) (p_workers p));;
    lock_pool pool;;
    group ← deref (p_group p);
    g ← get_group group;
    wayca_sc_group_destroy (g_id g);;
    fuel ← gets (fun s => S (size (tasks s)));
    drop_tasks fuel pool;;
    unlock_pool pool;;
    wayca_threadpool_free pool;;
    mret 0
  end.

Definition wayca_sc_threadpool_get_group (threadpool : Z) (group : bool) : M sched (Z * option Z) :=
  if negb group then mret (- EINVAL, None) else
  pool ← id_to_wayca_threadpool threadpool;
  match pool with
  | None => mret (- EINVAL, None)
  | Some pool =>
    lock_pool pool;;
    p ← get_pool pool;
    group ← deref (p_group p);
    g ← get_group group;
    unlock_pool pool;;
    mret (0, Some (g_id g))
  end.

(** The new task's links are uninitialised until it is queued. [idle_num] only
    decides whether a waiting worker is signalled, which has no effect on the
    state: a waiting worker may wake up at any time. *)
Definition wayca_sc_threadpool_queue (threadpool : Z) (task_func : option Z) (arg : Z) : M sched Z :=
  pool ← id_to_wayca_threadpool threadpool;
  match pool, task_func with
  | Some pool, Some task_func =>
    ok ← malloc ATask;
    if negb ok then mret (- ENOMEM) else
    task ← gets (fun s => fresh (dom (tasks s)));
    put_task task (mk_wayca_threadpool_task pool task_func arg None None);;
    lock_pool pool;;
    threadpool_queue_task pool task;;
    unlock_pool pool;;
    mret 0
  | _, _ => mret (- EINVAL)
  end.

Definition wayca_sc_threadpool_thread_num (threadpool : Z) : M sched Z :=
  pool ← id_to_wayca_threadpool threadpool;
  match pool with
  | None => mret (- EINVAL)
  | Some pool => p ← get_pool pool; mret (p_total_worker_num p)
  end.

Definition wayca_sc_threadpool_task_num (threadpool : Z) : M sched Z :=
  pool ← id_to_wayca_threadpool threadpool;
  match pool with
  | None => mret (- EINVAL)
  | Some pool =>
    lock_pool pool;;
    p ← get_pool pool;
    unlock_pool pool;;
    mret (p_task_num p)
  end.

Definition wayca_sc_threadpool_running_num (threadpool : Z) : M sched Z :=
  pool ← id_to_wayca_threadpool threadpool;
  match pool with
  | None => mret (- EINVAL)
  | Some pool =>
    lock_pool pool;;
    p ← get_pool pool;
    unlock_pool pool;;
    mret (to_ulong (p_total_worker_num p - p_idle_num p))
  end.

End pool.
