(* ===== verification/Queue.v ===== *)
(** * The queue of a thread pool and its workers

    The circular list of [Threadpool] implements a first-in first-out queue of
    tasks, and the pool's counters follow it under every interleaving of
    clients and workers. *)

From S2P Require Import Prelude Bitops Cpuset Cstring State Group Placement Accounting Members.
From S2P Require Import Threads Threadpool.

(** ** Circular lists *)

Abbreviation tmap := (gmap nat wayca_threadpool_task).

Definition nx (m : tmap) (p : nat) : option nat := m !! p ≫= k_next.
Definition pv (m : tmap) (p : nat) : option nat := m !! p ≫= k_prev.

(** What the client asked for. *)
Definition payload (m : tmap) (p : nat) : option (Z * Z) :=
  (fun k => (k_task k, k_arg k)) <$> m !! p.

(** Neighbours of [l] point to each other. *)
Fixpoint linked (m : tmap) (l : list nat) : Prop :=
  match l with
  | x :: (y :: _) as l' => nx m x = Some y /\ pv m y = Some x /\ linked m l'
  | _ => True
  end.

Lemma linked_cons m x y l :
  linked m (x :: y :: l) <-> nx m x = Some y /\ pv m y = Some x /\ linked m (y :: l).
Proof. done. Qed.

Lemma linked_snoc m l x y :
  linked m (l ++ [x; y]) <-> linked m (l ++ [x]) /\ nx m x = Some y /\ pv m y = Some x.
Proof.
  induction l as [|a [|b l] IH]; cbn [app].
  - simpl. tauto.
  - rewrite !linked_cons. simpl. tauto.
  - cbn [app] in IH. rewrite !linked_cons, IH. tauto.
Qed.

(** Only the successors of all but the last and the predecessors of all but the
    first element matter. *)
Lemma linked_ext m m' l :
  (forall x l1, l = l1 ++ [x] -> forall q, q ∈ l1 -> nx m' q = nx m q) ->
  (forall x l1, l = x :: l1 -> forall q, q ∈ l1 -> pv m' q = pv m q) ->
  linked m l -> linked m' l.
Proof.
  induction l as [|a [|b l] IH]; intros Hn Hp Hl; [done|done|].
  rewrite linked_cons in Hl |- *. destruct Hl as (H1 & H2 & H3).
  destruct (exists_last (l := b :: l)) as (l1 & z & Ez); [done|].
  split; [|split].
  - rewrite (Hn z (a :: l1)); [done|by rewrite Ez|set_solver].
  - rewrite (Hp a (b :: l)); [done|done|set_solver].
  - apply IH; [| |done].
    + intros x l2 E q Hq. apply (Hn x (a :: l2)); [by rewrite E|set_solver].
    + intros x l2 E q Hq. apply (Hp a (b :: l)); [done|]. rewrite E. set_solver.
Qed.

(** The queue as a list. *)
Definition queue_ok (m : tmap) (head : option nat) (l : list nat) : Prop :=
  NoDup l /\ (forall p, p ∈ l -> is_Some (m !! p)) /\
  match l with
  | [] => head = None
  | h :: l' => head = Some h /\ linked m (h :: l' ++ [h])
  end.

(** ** Writing one link *)

Section links.
Context (m : tmap) (p : nat) (k : wayca_threadpool_task) (Hk : m !! p = Some k).

Lemma nx_set_next v q :
  nx (<[p := set_k_next v k]> m) q = if decide (q = p) then v else nx m q.
Proof using.
  unfold nx. destruct (decide (q = p)) as [->|]; [by rewrite lookup_insert_eq|].
  by rewrite lookup_insert_ne.
Qed.

Lemma pv_set_prev v q :
  pv (<[p := set_k_prev v k]> m) q = if decide (q = p) then v else pv m q.
Proof using.
  unfold pv. destruct (decide (q = p)) as [->|]; [by rewrite lookup_insert_eq|].
  by rewrite lookup_insert_ne.
Qed.

Lemma nx_set_prev v q : nx (<[p := set_k_prev v k]> m) q = nx m q.
Proof using Hk.
  unfold nx. destruct (decide (q = p)) as [->|]; [by rewrite lookup_insert_eq, Hk|].
  by rewrite lookup_insert_ne.
Qed.

Lemma pv_set_next v q : pv (<[p := set_k_next v k]> m) q = pv m q.
Proof using Hk.
  unfold pv. destruct (decide (q = p)) as [->|]; [by rewrite lookup_insert_eq, Hk|].
  by rewrite lookup_insert_ne.
Qed.

Lemma payload_set f q :
  k_task (f k) = k_task k -> k_arg (f k) = k_arg k ->
  payload (<[p := f k]> m) q = payload m q.
Proof using Hk.
  intros E1 E2. unfold payload. destruct (decide (q = p)) as [->|].
  - rewrite lookup_insert_eq, Hk. simpl. by rewrite E1, E2.
  - by rewrite lookup_insert_ne.
Qed.
End links.

Lemma payload_is_Some m m' p :
  (forall q, payload m' q = payload m q) -> is_Some (m !! p) -> is_Some (m' !! p).
Proof.
  intros H [k Hk]. specialize (H p). unfold payload in H. rewrite Hk in H. simpl in H.
  destruct (m' !! p); [eauto|done].
Qed.

Lemma get_pool_ok p x s : pools s !! p = Some x -> get_pool p s = Ok (x, s).
Proof. unfold get_pool. by intros ->. Qed.

Lemma get_task_ok p x s : tasks s !! p = Some x -> get_task p s = Ok (x, s).
Proof. unfold get_task. by intros ->. Qed.

Lemma upd_pool_ok p x f s :
  pools s !! p = Some x -> upd_pool p f s = Ok (tt, set_pools (<[p := f x]> (pools s)) s).
Proof. intros H. unfold upd_pool, mbind, M_bind. by rewrite (get_pool_ok p x s H). Qed.

Lemma upd_task_ok p x f s :
  tasks s !! p = Some x -> upd_task p f s = Ok (tt, set_tasks (<[p := f x]> (tasks s)) s).
Proof. intros H. unfold upd_task, mbind, M_bind. by rewrite (get_task_ok p x s H). Qed.

(** Write the link [f] of task [p] of the heap [m]. *)
Definition write (p : nat) (f : wayca_threadpool_task -> wayca_threadpool_task) (m : tmap) : tmap :=
  alter f p m.

Lemma write_eq p f (m : tmap) k : m !! p = Some k -> write p f m = <[p := f k]> m.
Proof. apply alter_insert_lookup. Qed.

Lemma upd_task_write p f s :
  is_Some (tasks s !! p) -> upd_task p f s = Ok (tt, set_tasks (write p f (tasks s)) s).
Proof. intros [k Hk]. by rewrite (upd_task_ok p k), (write_eq p f _ k). Qed.

Lemma write_links p v (m : tmap) :
  is_Some (m !! p) ->
  (forall q, nx (write p (set_k_next v) m) q = if decide (q = p) then v else nx m q) /\
  (forall q, pv (write p (set_k_next v) m) q = pv m q) /\
  (forall q, nx (write p (set_k_prev v) m) q = nx m q) /\
  (forall q, pv (write p (set_k_prev v) m) q = if decide (q = p) then v else pv m q) /\
  (forall q, payload (write p (set_k_next v) m) q = payload m q) /\
  (forall q, payload (write p (set_k_prev v) m) q = payload m q).
Proof.
  intros [k Hk]. rewrite !(write_eq p _ m k) by done.
  split; [intros; by apply nx_set_next|]. split; [intros; by apply pv_set_next|].
  split; [intros; by apply nx_set_prev|]. split; [intros; by apply pv_set_prev|].
  split; intros; by apply payload_set.
Qed.

Lemma write_is_Some p f (m : tmap) q : is_Some (m !! q) -> is_Some (write p f m !! q).
Proof.
  intros [k Hk]. unfold write. destruct (decide (q = p)) as [->|].
  - rewrite lookup_alter_eq, Hk. by eexists.
  - rewrite lookup_alter_ne by done. by eexists.
Qed.

(** ** Queueing *)

(** The four writes of the queue operation on a queue that is not empty. *)
Definition ring_insert (h lst t : nat) (m : tmap) : tmap :=
  write lst (set_k_next (Some t)) (write t (set_k_prev (Some lst))
    (write t (set_k_next (Some h)) (write h (set_k_prev (Some t)) m))).

(** The writes of the dequeue operation. *)
Definition ring_remove (nxt lst : nat) (m : tmap) : tmap :=
  write lst (set_k_next (Some nxt)) (write nxt (set_k_prev (Some lst)) m).

Lemma ring_insert_links h lst t m :
  is_Some (m !! h) -> is_Some (m !! lst) -> is_Some (m !! t) -> t <> h -> t <> lst ->
  (forall q, nx (ring_insert h lst t m) q =
     if decide (q = lst) then Some t else if decide (q = t) then Some h else nx m q) /\
  (forall q, pv (ring_insert h lst t m) q =
     if decide (q = h) then Some t else if decide (q = t) then Some lst else pv m q) /\
  (forall q, payload (ring_insert h lst t m) q = payload m q).
Proof.
  intros Hh Hl Ht Hth Htl. unfold ring_insert.
  set (m1 := write h (set_k_prev (Some t)) m). set (m2 := write t (set_k_next (Some h)) m1).
  set (m3 := write t (set_k_prev (Some lst)) m2).
  assert (H1 : forall q, is_Some (m !! q) -> is_Some (m1 !! q)) by (intros; by apply write_is_Some).
  assert (H2 : forall q, is_Some (m1 !! q) -> is_Some (m2 !! q)) by (intros; by apply write_is_Some).
  assert (H3 : forall q, is_Some (m2 !! q) -> is_Some (m3 !! q)) by (intros; by apply write_is_Some).
  destruct (write_links h (Some t) m Hh) as (_ & _ & A3 & A4 & _ & A6).
  destruct (write_links t (Some h) m1 (H1 _ Ht)) as (B1 & B2 & _ & _ & B5 & _).
  destruct (write_links t (Some lst) m2 (H2 _ (H1 _ Ht))) as (_ & _ & C3 & C4 & _ & C6).
  destruct (write_links lst (Some t) m3 (H3 _ (H2 _ (H1 _ Hl)))) as (D1 & D2 & _ & _ & D5 & _).
  split; [|split]; intros q.
  - rewrite D1. unfold m3. rewrite C3. unfold m2. rewrite B1. unfold m1. by rewrite A3.
  - rewrite D2. unfold m3. rewrite C4. unfold m2. rewrite B2. unfold m1. rewrite A4.
    destruct (decide (q = t)) as [->|]; [by rewrite decide_False|done].
  - rewrite D5. unfold m3. rewrite C6. unfold m2. rewrite B5. unfold m1. by rewrite A6.
Qed.

Lemma ring_remove_links nxt lst m :
  is_Some (m !! nxt) -> is_Some (m !! lst) ->
  (forall q, nx (ring_remove nxt lst m) q = if decide (q = lst) then Some nxt else nx m q) /\
  (forall q, pv (ring_remove nxt lst m) q = if decide (q = nxt) then Some lst else pv m q) /\
  (forall q, payload (ring_remove nxt lst m) q = payload m q).
Proof.
  intros Hn Hl. unfold ring_remove.
  destruct (write_links nxt (Some lst) m Hn) as (_ & _ & A3 & A4 & _ & A6).
  destruct (write_links lst (Some nxt) (write nxt (set_k_prev (Some lst)) m)) as (D1 & D2 & _ & _ & D5 & _).
  { by apply write_is_Some. }
  split; [|split]; intros q.
  - by rewrite D1, A3.
  - by rewrite D2, A4.
  - by rewrite D5, A6.
Qed.

(** The last element of a queue that is not empty. *)
Lemma queue_last m h l :
  linked m (h :: l ++ [h]) ->
  exists l0 lst, h :: l = l0 ++ [lst] /\ pv m h = Some lst /\ nx m lst = Some h /\
    linked m (l0 ++ [lst]).
Proof.
  intros H. destruct (exists_last (l := h :: l)) as (l0 & lst & E); [done|].
  exists l0, lst. change (h :: l ++ [h]) with ((h :: l) ++ [h]) in H.
  rewrite E, <- app_assoc in H. cbn [app] in H.
  apply linked_snoc in H as (? & ? & ?). done.
Qed.

Lemma ring_insert_ok m h l t :
  queue_ok m (Some h) (h :: l) -> t ∉ h :: l -> is_Some (m !! t) ->
  exists lst, pv m h = Some lst /\ lst ∈ h :: l /\ queue_ok (ring_insert h lst t m) (Some h) (h :: l ++ [t]).
Proof.
  intros (Hnd & Hd & _ & Hl) Hn Ht.
  destruct (queue_last m h l Hl) as (l0 & lst & E & Hpv & Hnx & Hl0).
  assert (Hlst : lst ∈ h :: l) by (rewrite E; set_solver).
  assert (Hth : t <> h) by set_solver. assert (Htl : t <> lst) by (by intros ->).
  exists lst. split; [done|]. split; [done|].
  destruct (ring_insert_links h lst t m) as (Hnx' & Hpv' & Hpay);
    [apply Hd; set_solver|by apply Hd|done|done|done|].
  split; [|split].
  - change (h :: l ++ [t]) with ((h :: l) ++ [t]). apply NoDup_app. split; [done|].
    split; [set_solver|apply NoDup_singleton].
  - intros q Hq. apply (payload_is_Some m); [done|].
    change (h :: l ++ [t]) with ((h :: l) ++ [t]) in Hq.
    apply elem_of_app in Hq as [Hq|Hq]; [by apply Hd|].
    apply list_elem_of_singleton in Hq as ->. done.
  - split; [done|]. change (h :: (l ++ [t]) ++ [h]) with (((h :: l) ++ [t]) ++ [h]).
    rewrite E, <- !app_assoc. cbn [app].
    change (l0 ++ [lst; t; h]) with (l0 ++ [lst] ++ [t; h]).
    rewrite app_assoc, linked_snoc, <- app_assoc. cbn [app]. rewrite linked_snoc.
    rewrite E in Hnd, Hn. split; [split|].
    + revert Hl0. apply linked_ext.
      * intros x l1 Ex q Hq. apply app_inj_tail in Ex as [<- <-]. rewrite Hnx'.
        rewrite !decide_False; [done| |].
        -- intros ->. apply Hn. set_solver.
        -- intros ->. apply NoDup_app in Hnd as (_ & Hx & _). by apply (Hx lst); set_solver.
      * intros x l1 Ex q Hq. rewrite <- E in Ex. injection Ex as <- <-. rewrite Hpv'.
        rewrite <- E in Hnd. apply NoDup_cons in Hnd as [Hh _].
        rewrite !decide_False; [done| |]; intros ->; [|done].
        apply Hn. rewrite <- E. set_solver.
    + split; [rewrite Hnx', decide_True by done; done|].
      by rewrite Hpv', decide_False, decide_True by done.
    + split; [|by rewrite Hpv', decide_True].
      by rewrite Hnx', decide_False, decide_True by done.
Qed.

Lemma ring_remove_ok m h h2 l :
  queue_ok m (Some h) (h :: h2 :: l) ->
  exists lst, pv m h = Some lst /\ nx m h = Some h2 /\ is_Some (m !! lst) /\ is_Some (m !! h2) /\
    queue_ok (ring_remove h2 lst m) (Some h2) (h2 :: l).
Proof.
  intros (Hnd & Hd & _ & Hl).
  destruct (queue_last m h (h2 :: l) Hl) as (l0 & lst & E & Hpv & Hnx & Hl0).
  cbn [app] in Hl. rewrite linked_cons in Hl. destruct Hl as (Hnh & Hph & Hl).
  assert (Hlst : lst ∈ h2 :: l).
  { destruct l0 as [|x l0]; [done|]. injection E as -> E. rewrite E. set_solver. }
  exists lst. split; [done|]. split; [done|]. split; [apply Hd; set_solver|].
  split; [apply Hd; set_solver|].
  destruct (ring_remove_links h2 lst m) as (Hnx' & Hpv' & Hpay); [apply Hd; set_solver..|].
  apply NoDup_cons in Hnd as [Hh Hnd]. split; [done|]. split.
  - intros q Hq. apply (payload_is_Some m); [done|]. apply Hd. set_solver.
  - split; [done|]. destruct (exists_last (l := h2 :: l)) as (l1 & z & Ez); [done|].
    assert (z = lst).
    { assert (Hz : h :: h2 :: l = (h :: l1) ++ [z]) by (by rewrite Ez).
      rewrite Hz in E. by apply app_inj_tail in E as [_ ->]. }
    subst z. change (h2 :: l ++ [h2]) with ((h2 :: l) ++ [h2]).
    change (h2 :: l ++ [h]) with ((h2 :: l) ++ [h]) in Hl.
    rewrite Ez in Hl |- *. rewrite <- app_assoc in Hl |- *. cbn [app] in *.
    rewrite linked_snoc in Hl |- *. destruct Hl as (Hl & _ & _). split.
    + revert Hl. apply linked_ext.
      * intros x l2 Ex q Hq. apply app_inj_tail in Ex as [<- <-]. rewrite Hnx', decide_False; [done|].
        intros ->. rewrite Ez in Hnd. apply NoDup_app in Hnd as (_ & Hx & _). apply (Hx lst); set_solver.
      * intros x l2 Ex q Hq. rewrite <- Ez in Ex. injection Ex as <- <-. rewrite Hpv', decide_False; [done|].
        intros ->. by apply NoDup_cons in Hnd as [? _].
    + by rewrite Hnx', Hpv', !decide_True.
Qed.

(** ** The operations of the pool *)

Ltac pread tac :=
  first
    [ rewrite bind_gets | rewrite bind_get | rewrite bind_mret | rewrite bind_modify
    | erewrite (M_bind_ok (get_pool _)) by (apply get_pool_ok; tac)
    | erewrite (M_bind_ok (get_task _)) by (apply get_task_ok; tac)
    | erewrite (M_bind_ok (upd_pool _ _)) by (apply upd_pool_ok; tac)
    | erewrite (M_bind_ok (put_pool _ _)) by reflexivity
    | erewrite (M_bind_ok (put_task _ _)) by reflexivity ]; cbv beta; fsimpl.

Ltac psteps := repeat pread ltac:(fsimpl; (eassumption || (rewrite lookup_insert_eq; reflexivity))).

Section operations.
Context `{T : Topology} `{Sys : System}.

(** The pool once its queue changed. *)
Definition requeued (s : sched) (pool : nat) (p : wayca_threadpool) (m : tmap)
    (head : option nat) (num : Z) : sched :=
  set_tasks m (set_pools (<[pool := set_p_task_num num (set_p_task_head head p)]> (pools s)) s).

(** A pool whose queue is the list [l]. *)
Record pool_queue (s : sched) (pool : nat) (p : wayca_threadpool) (l : list nat) : Prop := {
  pq_pool : pools s !! pool = Some p;
  pq_queue : queue_ok (tasks s) (p_task_head p) l;
  pq_num : p_task_num p = Z.of_nat (length l);
}.

Lemma pool_queue_length s pool p l :
  pool_queue s pool p l -> (length l <= size (tasks s))%nat.
Proof using.
  intros [_ (Hnd & Hd & _) _]. rewrite <- (size_list_to_set (C := gset nat)) by done.
  rewrite <- size_dom. apply subseteq_size. intros q Hq.
  apply elem_of_list_to_set in Hq. apply elem_of_dom. by apply Hd.
Qed.

(** Queueing appends. *)
Lemma threadpool_queue_task_ok s pool p l t :
  pool_queue s pool p l -> t ∉ l -> is_Some (tasks s !! t) ->
  Z.of_nat (length l) + 1 < 2 ^ 64 ->
  exists m head,
    threadpool_queue_task pool t s =
      Ok (tt, requeued s pool p m head (Z.of_nat (length (l ++ [t])))) /\
    queue_ok m head (l ++ [t]) /\ forall q, payload m q = payload (tasks s) q.
Proof using.
  intros [Hp Hq Hnum] Hn Ht Hlen.
  assert (Hw : to_ulong (p_task_num p + 1) = Z.of_nat (length (l ++ [t]))).
  { rewrite Hnum, length_app, to_ulong_id by (unfold is_word; lia). simpl. lia. }
  unfold threadpool_queue_task. psteps. destruct l as [|h l].
  - destruct Hq as (_ & _ & ->). rewrite ?M_bind_assoc. psteps. rewrite ?M_bind_assoc.
    erewrite M_bind_ok by (apply upd_task_write; fsimpl; done).
    erewrite M_bind_ok by (apply upd_task_write; fsimpl; by apply write_is_Some).
    fsimpl. rewrite (upd_pool_ok pool (set_p_task_head (Some t) p)) by apply lookup_insert_eq.
    fsimpl. rewrite insert_insert_eq, Hw.
    eexists _, (Some t). split; [reflexivity|].
    destruct (write_links t (Some t) (tasks s) Ht) as (A1 & A2 & _ & _ & A5 & _).
    destruct (write_links t (Some t) (write t (set_k_next (Some t)) (tasks s))) as (_ & _ & B3 & B4 & _ & B6).
    { by apply write_is_Some. }
    split; [|intros; by rewrite B6, A5].
    split; [apply NoDup_singleton|]. split.
    + intros q Hq. apply list_elem_of_singleton in Hq as ->. by do 2 apply write_is_Some.
    + split; [done|]. simpl. rewrite B3, A1, B4, !decide_True by done. done.
  - destruct (p_task_head p) as [h'|] eqn:Eh; [|by destruct Hq as (_ & _ & ? & _)].
    assert (h' = h) as -> by (destruct Hq as (_ & _ & [= ->] & _); done).
    destruct (ring_insert_ok (tasks s) h l t Hq Hn Ht) as (lst & Hpv & Hin & Hq').
    destruct Hq as (_ & Hd & _).
    destruct (Hd h ltac:(set_solver)) as [kh Hkh]. pose proof (Hd lst Hin) as Hlst.
    destruct (ring_insert_links h lst t (tasks s)) as (_ & _ & Hpay);
      [by eexists|done|done|set_solver|by intros ->|].
    assert (Hkp : k_prev kh = Some lst) by (unfold pv in Hpv; by rewrite Hkh in Hpv).
    rewrite M_bind_assoc. psteps. rewrite Hkp. unfold deref. rewrite M_bind_assoc. psteps.
    rewrite ?M_bind_assoc.
    erewrite M_bind_ok by (apply upd_task_write; fsimpl; by eexists). rewrite ?M_bind_assoc.
    erewrite M_bind_ok by (apply upd_task_write; fsimpl; by apply write_is_Some). rewrite ?M_bind_assoc.
    erewrite M_bind_ok by (apply upd_task_write; fsimpl; by do 2 apply write_is_Some).
    erewrite M_bind_ok by (apply upd_task_write; fsimpl; by do 3 apply write_is_Some).
    fsimpl. rewrite (upd_pool_ok pool p) by done. fsimpl. rewrite Hw.
    fold (ring_insert h lst t (tasks s)).
    exists (ring_insert h lst t (tasks s)), (Some h). split; [|done].
    unfold requeued. do 4 f_equal. destruct p; cbn in *. by subst.
Qed.

(** Dequeueing takes the first task. *)
Lemma threadpool_dequeue_task_ok s pool p h l :
  pool_queue s pool p (h :: l) -> Z.of_nat (length (h :: l)) < 2 ^ 64 ->
  exists m head,
    threadpool_dequeue_task pool s =
      Ok (Some h, requeued s pool p m head (Z.of_nat (length l))) /\
    queue_ok m head l /\ forall q, payload m q = payload (tasks s) q.
Proof using.
  intros [Hp Hq Hnum] Hlen. cbn [length] in *.
  assert (Hw : to_ulong (p_task_num p - 1) = Z.of_nat (length l)).
  { rewrite Hnum, to_ulong_id by (unfold is_word; lia). lia. }
  assert (Eh : p_task_head p = Some h) by (by destruct Hq as (_ & _ & ? & _)).
  unfold threadpool_dequeue_task. psteps. rewrite Eh in *.
  destruct (proj1 (proj2 Hq) h ltac:(set_solver)) as [kh Hkh]. psteps.
  destruct l as [|h2 l].
  - assert (Hnx : k_next kh = Some h).
    { destruct Hq as (_ & _ & _ & Hl). simpl in Hl. destruct Hl as [Hl _].
      unfold nx in Hl. by rewrite Hkh in Hl. }
    rewrite decide_True by done. psteps. rewrite insert_insert_eq, Hw.
    eexists _, None. split; [|split; [|done]].
    + unfold requeued. by destruct s.
    + split; [constructor|]. split; [|done]. intros q Hqq. by apply not_elem_of_nil in Hqq.
  - destruct (ring_remove_ok (tasks s) h h2 l Hq) as (lst & Hpv & Hnx & Hl & Hh2 & Hq').
    destruct (ring_remove_links h2 lst (tasks s) Hh2 Hl) as (_ & _ & Hpay).
    assert (Hkp : k_prev kh = Some lst) by (unfold pv in Hpv; by rewrite Hkh in Hpv).
    assert (Hkn : k_next kh = Some h2) by (unfold nx in Hnx; by rewrite Hkh in Hnx).
    rewrite decide_False.
    2:{ rewrite Hkn. intros [= ->]. destruct Hq as (Hnd & _). apply NoDup_cons in Hnd as [Hnd _]. set_solver. }
    rewrite Hkn, Hkp. unfold deref. rewrite ?M_bind_assoc. psteps. rewrite ?M_bind_assoc. psteps.
    rewrite ?M_bind_assoc.
    erewrite M_bind_ok by (apply upd_task_write; fsimpl; done). rewrite ?M_bind_assoc.
    erewrite M_bind_ok by (apply upd_task_write; fsimpl; by apply write_is_Some).
    psteps. rewrite insert_insert_eq, Hw. fold (ring_remove h2 lst (tasks s)).
    exists (ring_remove h2 lst (tasks s)), (Some h2). by split.
Qed.

(** The queue does not depend on other tasks. *)
Lemma queue_ok_frame m m' head l t :
  t ∉ l -> (forall q, q <> t -> m' !! q = m !! q) -> queue_ok m head l -> queue_ok m' head l.
Proof using.
  intros Hn Hm (Hnd & Hd & Hl). split; [done|].
  assert (Hin : forall q, q ∈ l -> m' !! q = m !! q) by (intros q Hq; apply Hm; by intros ->).
  split; [intros q Hq; rewrite Hin by done; by apply Hd|].
  destruct l as [|h l]; [done|]. destruct Hl as [-> Hl]. split; [done|]. revert Hl.
  assert (Hmem : forall q, q ∈ h :: l ++ [h] -> q ∈ h :: l) by set_solver.
  apply linked_ext.
  - intros x l1 E q Hq. unfold nx. rewrite Hin; [done|]. apply Hmem. rewrite E. set_solver.
  - intros x l1 E q Hq. unfold pv. rewrite Hin; [done|]. apply Hmem. rewrite E. set_solver.
Qed.

(** ** Clients and workers *)

Definition busy (w : worker) : Z := match w with WRun _ | WRan => 1 | _ => 0 end.
Definition nr_busy (ws : list worker) : Z := sumZ (map busy ws).

Lemma nr_busy_insert ws i w w' :
  ws !! i = Some w -> nr_busy (<[i := w']> ws) = nr_busy ws - busy w + busy w'.
Proof using.
  unfold nr_busy. revert i. induction ws as [|x ws IH]; intros [|i] H; simpl in *; simplify_eq.
  - lia.
  - rewrite (IH i) by done. lia.
Qed.

Lemma nr_busy_range ws : 0 <= nr_busy ws <= Z.of_nat (length ws).
Proof using.
  unfold nr_busy. induction ws as [|w ws IH]; simpl; [lia|]. destruct w; simpl; lia.
Qed.

(** A pool at run time: the state, where its workers stand, and the histories
    of what clients queued, of what workers took from the queue, and of the functions
    that they called, oldest first. A task is called in a later step than it is
    taken, so tasks that were taken in order may be called in another one. *)
Record running := mk_running {
  r_state : sched;
  r_workers : list worker;
  r_queued : list (Z * Z);
  r_taken : list (Z * Z);
  r_called : list (Z * Z);
}.

Definition payloads (m : tmap) (p : nat) : list (Z * Z) := option_list (payload m p).

(** What a step of a worker takes from the queue, and what it calls. *)
Definition takes (s : sched) (w w' : worker) : list (Z * Z) :=
  match w, w' with WTop, WRun t => payloads (tasks s) t | _, _ => [] end.
Definition calls (s : sched) (w : worker) : list (Z * Z) :=
  match w with WRun t => payloads (tasks s) t | _ => [] end.

(** The tasks that workers took and have not called yet. *)
Definition in_hand (s : sched) (ws : list worker) : list (Z * Z) := concat (map (calls s) ws).

(** A client queues a task, a worker makes a step, or the pool is told to stop. *)
Inductive pool_step (id : Z) (pool : nat) : running -> running -> Prop :=
  | ps_queue s ws qd tk cl f arg s' :
      Z.of_nat (size (tasks s)) + 1 < 2 ^ 64 ->
      wayca_sc_threadpool_queue id (Some f) arg s = Ok (0, s') ->
      pool_step id pool (mk_running s ws qd tk cl) (mk_running s' ws (qd ++ [(f, arg)]) tk cl)
  | ps_worker s ws qd tk cl i w w' s' :
      ws !! i = Some w -> worker_step pool w s = Ok (w', s') ->
      pool_step id pool (mk_running s ws qd tk cl)
        (mk_running s' (<[i := w']> ws) qd (tk ++ takes s w w') (cl ++ calls s w))
  | ps_stop s ws qd tk cl s' :
      (lock_pool pool;; upd_pool pool (set_p_stop true);; unlock_pool pool) s = Ok (tt, s') ->
      pool_step id pool (mk_running s ws qd tk cl) (mk_running s' ws qd tk cl).

(** The invariant of a running pool. *)
Record pool_inv (id : Z) (pool : nat) (r : running) : Prop := {
  pi_ex : exists p l pending,
    pool_queue (r_state r) pool p l /\ p_mutex p = false /\
    map (payload (tasks (r_state r))) l = map Some pending /\
    r_queued r = r_taken r ++ pending /\
    p_total_worker_num p = Z.of_nat (length (r_workers r)) /\
    p_idle_num p = p_total_worker_num p - nr_busy (r_workers r) /\
    (forall i t, r_workers r !! i = Some (WRun t) -> t ∉ l);
  pi_run : forall i t, r_workers r !! i = Some (WRun t) -> is_Some (tasks (r_state r) !! t);
  pi_distinct : forall i j t, r_workers r !! i = Some (WRun t) ->
    r_workers r !! j = Some (WRun t) -> i = j;
  pi_id : id_to_ptr (wayca_threadpools_array (r_state r)) id = Some pool;
  pi_called : r_taken r ≡ₚ r_called r ++ in_hand (r_state r) (r_workers r);
  pi_size : Z.of_nat (size (tasks (r_state r))) < 2 ^ 64 /\ Z.of_nat (length (r_workers r)) < 2 ^ 64;
}.

Lemma lock_pool_run s pool p :
  pools s !! pool = Some p -> p_mutex p = false ->
  lock_pool pool s = Ok (tt, set_pools (<[pool := set_p_mutex true p]> (pools s)) s).
Proof using. intros Hp Hm. unfold lock_pool. psteps. by rewrite Hm. Qed.

Lemma map_payload_ext m m' l :
  (forall q, q ∈ l -> payload m' q = payload m q) -> map (payload m') l = map (payload m) l.
Proof using.
  intros H. apply map_ext_in. intros q Hq. apply H. by apply list_elem_of_In.
Qed.

(** The size of the heap after a queue operation, from the payloads. *)
Lemma payload_dom m m' : (forall q, payload m' q = payload m q) -> size m' = size m.
Proof using.
  intros H. rewrite <- !size_dom. f_equal. apply set_eq. intros q. rewrite !elem_of_dom.
  split; intros Hq; [by apply (payload_is_Some m')|by apply (payload_is_Some m)].
Qed.

Lemma relock p : p_mutex p = false -> set_p_mutex false (set_p_mutex true p) = p.
Proof using. destruct p; simpl. by intros ->. Qed.

(** Lock and unlock without a change. *)
Lemma lock_unlock_run s pool p (A : Type) (a : A) :
  pools s !! pool = Some p -> p_mutex p = false ->
  (unlock_pool pool;; mret a) (set_pools (<[pool := set_p_mutex true p]> (pools s)) s) = Ok (a, s).
Proof using.
  intros Hp Hm. unfold unlock_pool. pread ltac:(fsimpl; apply lookup_insert_eq).
  rewrite insert_insert_eq, relock, insert_id by done. by destruct s.
Qed.

(** A worker that finds a task. *)
Lemma worker_takes s pool p h l :
  pool_queue s pool p (h :: l) -> p_mutex p = false -> p_stop p = false ->
  Z.of_nat (length (h :: l)) < 2 ^ 64 ->
  exists m p', worker_step pool WTop s =
      Ok (WRun h, set_tasks m (set_pools (<[pool := p']> (pools s)) s)) /\
    pool_queue (set_tasks m (set_pools (<[pool := p']> (pools s)) s)) pool p' l /\
    (forall q, payload m q = payload (tasks s) q) /\ p_mutex p' = false /\
    p_total_worker_num p' = p_total_worker_num p /\
    p_idle_num p' = to_ulong (p_idle_num p - 1).
Proof using.
  intros Hpq Hm Hst Hlen. pose proof Hpq as [Hp Hq Hnum].
  set (pm := set_p_mutex true p). set (s1 := set_pools (<[pool := pm]> (pools s)) s).
  assert (Hpq1 : pool_queue s1 pool pm (h :: l)) by (constructor; [apply lookup_insert_eq|done|done]).
  destruct (threadpool_dequeue_task_ok s1 pool pm h l Hpq1 Hlen) as (m & head & Hdq & Hq' & Hpay).
  exists m. eexists. split.
  { cbn [worker_step]. rewrite (M_bind_ok _ _ _ _ _ (lock_pool_run s pool p Hp Hm)).
    fold pm s1. pread ltac:(apply lookup_insert_eq).
    change (p_stop pm) with (p_stop p). rewrite Hst.
    change (p_task_num pm) with (p_task_num p). rewrite Hnum. cbn [length].
    destruct (Z.eqb_spec (Z.of_nat (S (length l))) 0); [lia|].
    rewrite (M_bind_ok _ _ _ _ _ Hdq). unfold requeued, s1. fsimpl. rewrite insert_insert_eq.
    pread ltac:(fsimpl; apply lookup_insert_eq). rewrite insert_insert_eq. unfold unlock_pool.
    pread ltac:(fsimpl; apply lookup_insert_eq). rewrite insert_insert_eq. unfold deref.
    psteps. reflexivity. }
  split; [|done]. constructor; fsimpl; [apply lookup_insert_eq|done|done].
Qed.

(** The state after worker [i] went from [w] to [w']. *)
Definition moved (r : running) (i : nat) (w w' : worker) (s' : sched) : running :=
  mk_running s' (<[i := w']> (r_workers r)) (r_queued r) (r_taken r ++ takes (r_state r) w w')
    (r_called r ++ calls (r_state r) w).

Lemma in_hand_ext s s' ws :
  (forall j t, ws !! j = Some (WRun t) -> payload (tasks s') t = payload (tasks s) t) ->
  in_hand s' ws = in_hand s ws.
Proof using.
  intros H. unfold in_hand. f_equal. apply map_ext_in. intros x Hx.
  apply list_elem_of_In, list_elem_of_lookup in Hx as [j Hj].
  destruct x; try done. unfold calls, payloads. by rewrite (H _ _ Hj).
Qed.

Section phases.
Context (id : Z) (pool : nat) (s : sched) (ws : list worker) (qd tk cl : list (Z * Z)).
Abbreviation r := (mk_running s ws qd tk cl).
Context (Hinv : pool_inv id pool r).
Context (i : nat).

(** A step keeps the account of the tasks that were taken and called, when the new
    place of the worker holds what it took and the tasks of the others remain. *)
Lemma called_step w w' s' :
  ws !! i = Some w -> calls s' w' = takes s w w' ->
  (forall j t, j <> i -> ws !! j = Some (WRun t) -> payload (tasks s') t = payload (tasks s) t) ->
  tk ++ takes s w w' ≡ₚ (cl ++ calls s w) ++ in_hand s' (<[i := w']> ws).
Proof using Hinv.
  intros Hi Hw Hfr. pose proof (pi_called _ _ _ Hinv) as Hcl. cbn [r_state r_workers r_taken r_called] in Hcl.
  assert (Hrest : forall l (k : nat), (forall j x, l !! j = Some x -> ws !! (k + j)%nat = Some x /\ (k + j)%nat <> i) ->
    in_hand s' l = in_hand s l).
  { intros l k Hl. apply in_hand_ext. intros j t Hj. destruct (Hl j _ Hj) as [Hx Hne]. by apply (Hfr (k + j)%nat). }
  rewrite Hcl, <- (take_drop_middle ws i w Hi) at 1. rewrite insert_take_drop by (by eapply lookup_lt_Some).
  unfold in_hand in *. rewrite !map_app, !concat_app. cbn [map concat]. rewrite Hw.
  rewrite (Hrest (take i ws) O), (Hrest (drop (S i) ws) (S i)).
  - solve_Permutation.
  - intros j x Hj. rewrite lookup_drop in Hj. split; [done|lia].
  - intros j x Hj. pose proof (lookup_lt_Some _ _ _ Hj) as Hlt. rewrite length_take in Hlt.
    rewrite lookup_take_lt in Hj by lia. split; [done|lia].
Qed.

(** A step that leaves the state alone and starts no task. *)
Lemma inv_stay w w' :
  ws !! i = Some w -> busy w' = busy w -> (forall t, w <> WRun t) -> (forall t, w' <> WRun t) ->
  pool_inv id pool (moved r i w w' s).
Proof using Hinv.
  intros Hi Hb Hw Hw'. destruct Hinv as [(p & l & pend & Hpq & Hm & Hpay & Hqd & Htot & Hidle & Hrl)
    Hrun Hdis Hid Hcl Hsz]. cbn [r_state r_workers r_queued r_taken r_called] in *.
  assert (Hs : takes s w w' = []) by (destruct w, w'; try done; by destruct (Hw' task)).
  assert (Hs' : calls s w' = []) by (destruct w'; try done; by destruct (Hw' task)).
  assert (Hc : calls s w = []) by (destruct w; try done; by destruct (Hw task)).
  pose proof (called_step w w' s Hi ltac:(congruence) ltac:(done)) as Hst.
  unfold moved. cbn [r_state r_workers r_queued r_taken r_called]. rewrite Hs, Hc, !app_nil_r in *.
  constructor; cbn [r_state r_workers r_queued r_taken r_called]; try done.
  - exists p, l, pend. rewrite length_insert, (nr_busy_insert ws i w w') by done.
    replace (nr_busy ws - busy w + busy w') with (nr_busy ws) by lia.
    split; [done|]. split; [done|]. split; [done|]. split; [done|]. split; [done|]. split; [done|].
    intros j t. rewrite list_lookup_insert. case_decide; [intros [= ->]; by destruct (Hw' t)|apply Hrl].
  - intros j t. rewrite list_lookup_insert. case_decide; [intros [= ->]; by destruct (Hw' t)|apply Hrun].
  - intros j k t. rewrite !list_lookup_insert.
    case_decide; [intros [= ->]; by destruct (Hw' t)|].
    case_decide; [intros _ [= ->]; by destruct (Hw' t)|apply Hdis].
  - by rewrite length_insert.
Qed.

Lemma inv_top :
  ws !! i = Some WTop ->
  exists w' s', worker_step pool WTop s = Ok (w', s') /\ pool_inv id pool (moved r i WTop w' s').
Proof using Hinv.
  intros Hi. pose proof Hinv as [(p & l & pend & Hpq & Hm & Hpay & Hqd & Htot & Hidle & Hrl)
    Hrun Hdis Hid Hcl [Hsz Hwsz]]. cbn [r_state r_workers r_queued r_taken r_called] in *.
  pose proof Hpq as [Hp Hq Hnum].
  pose proof (lock_pool_run s pool p Hp Hm) as Hlk.
  destruct (p_stop p) eqn:Hst.
  { exists WExit, s. split; [|by apply inv_stay]. cbn [worker_step]. rewrite (M_bind_ok _ _ _ _ _ Hlk).
    pread ltac:(apply lookup_insert_eq). rewrite Hst. by apply lock_unlock_run. }
  destruct l as [|h l].
  { exists WWait, s. split; [|by apply inv_stay]. cbn [worker_step]. rewrite (M_bind_ok _ _ _ _ _ Hlk).
    pread ltac:(apply lookup_insert_eq). rewrite Hst, Hnum. by apply lock_unlock_run. }
  assert (Hlen : Z.of_nat (length (h :: l)) < 2 ^ 64)
    by (pose proof (pool_queue_length s pool p _ Hpq); lia).
  destruct (worker_takes s pool p h l) as (m & p' & Hrn & Hpq' & Hpay' & Hm' & Ht' & Hid'); try done.
  destruct pend as [|x pend]; [done|]. cbn [map] in Hpay. injection Hpay as Hx Hpay.
  assert (Hone : 0 <= nr_busy ws < Z.of_nat (length ws)).
  { pose proof (nr_busy_range ws). pose proof (nr_busy_range (<[i := WRun h]> ws)) as Hr2.
    rewrite (nr_busy_insert ws i WTop), length_insert in Hr2 by done. simpl in Hr2. lia. }
  eexists _, _. split; [exact Hrn|].
  constructor; cbn [moved r_state r_workers r_queued r_taken r_called]; fsimpl; try done.
  - exists p', l, pend. rewrite length_insert, (nr_busy_insert ws i WTop) by done. split; [done|].
    split; [done|]. split; [by rewrite (map_payload_ext (tasks s))|].
    split; [unfold takes, payloads; rewrite Hx, Hqd; cbn [option_list]; by rewrite <- app_assoc|]. split; [lia|]. split.
    + rewrite Hid', Hidle, to_ulong_id by (unfold is_word; lia). simpl. lia.
    + intros j t. rewrite list_lookup_insert. case_decide.
      * intros [= ->]. destruct Hq as (Hnd & _). by apply NoDup_cons in Hnd as [? _].
      * intros Hj. specialize (Hrl j t Hj). set_solver.
  - intros j t. rewrite list_lookup_insert. intros Hj. apply (payload_is_Some (tasks s)); [done|].
    case_decide; [|by apply (Hrun j)]. injection Hj as ->. apply (proj1 (proj2 Hq)). set_solver.
  - intros j k t. rewrite !list_lookup_insert. case_decide as H1; case_decide as H2.
    + intros _ _. destruct H1, H2. congruence.
    + intros [= ->] Hk. destruct (Hrl k t Hk). set_solver.
    + intros Hj [= ->]. destruct (Hrl j t Hj). set_solver.
    + apply Hdis.
  - apply called_step; [done| |intros; apply Hpay'].
    unfold calls, takes, payloads. fsimpl. by rewrite Hpay'.
  - rewrite (payload_dom (tasks s)) by done. by rewrite length_insert.
Qed.

Lemma inv_run t :
  ws !! i = Some (WRun t) ->
  exists w' s', worker_step pool (WRun t) s = Ok (w', s') /\ pool_inv id pool (moved r i (WRun t) w' s').
Proof using Hinv.
  intros Hi. destruct Hinv as [(p & l & pend & Hpq & Hm & Hpay & Hqd & Htot & Hidle & Hrl)
    Hrun Hdis Hid Hcl [Hsz Hwsz]]. cbn [r_state r_workers r_queued r_taken r_called] in *.
  destruct Hpq as [Hp Hq Hnum]. destruct (Hrun i t Hi) as [k Hk]. pose proof (Hrl i t Hi) as Htl.
  exists WRan, (set_tasks (delete t (tasks s)) s). split; [cbn [worker_step]; by psteps|].
  assert (Hfr : forall q, q <> t -> delete t (tasks s) !! q = tasks s !! q)
    by (intros; by rewrite lookup_delete_ne).
  pose proof (fun H => called_step (WRun t) WRan (set_tasks (delete t (tasks s)) s) Hi eq_refl H) as Hst.
  unfold moved. cbn [takes r_state r_workers r_queued r_taken r_called]. rewrite app_nil_r in *.
  constructor; cbn [r_state r_workers r_queued r_taken r_called]; fsimpl; try done.
  - exists p, l, pend. rewrite length_insert, (nr_busy_insert ws i (WRun t)) by done.
    split; [constructor; fsimpl; try done; by apply (queue_ok_frame (tasks s) _ _ _ t)|].
    split; [done|]. split.
    { rewrite <- Hpay. apply map_payload_ext. intros q Hqq. unfold payload. rewrite Hfr; [done|]. by intros ->. }
    split; [done|]. split; [done|]. split; [simpl; lia|].
    intros j u. rewrite list_lookup_insert. case_decide; [done|apply Hrl].
  - intros j u. rewrite list_lookup_insert. case_decide as Hd; [done|]. intros Hj.
    rewrite Hfr; [by apply (Hrun j)|]. intros ->. pose proof (Hdis i j t Hi Hj) as ->.
    apply Hd. split; [done|]. by eapply lookup_lt_Some.
  - intros j j' u. rewrite !list_lookup_insert. case_decide; [done|]. case_decide; [done|]. apply Hdis.
  - apply Hst. intros j u Hne Hj. unfold payload. fsimpl. rewrite Hfr; [done|].
    intros ->. by apply Hne, (Hdis j i t).
  - rewrite length_insert. split; [|done]. rewrite map_size_delete_Some by (by eexists). lia.
Qed.

Lemma inv_ran :
  ws !! i = Some WRan ->
  exists w' s', worker_step pool WRan s = Ok (w', s') /\ pool_inv id pool (moved r i WRan w' s').
Proof using Hinv.
  intros Hi. destruct Hinv as [(p & l & pend & Hpq & Hm & Hpay & Hqd & Htot & Hidle & Hrl)
    Hrun Hdis Hid Hcl [Hsz Hwsz]]. cbn [r_state r_workers r_queued r_taken r_called] in *.
  destruct Hpq as [Hp Hq Hnum]. pose proof (nr_busy_range ws) as Hbr.
  set (p' := set_p_idle_num (to_ulong (p_idle_num p + 1)) p).
  assert (Hb1 : 1 <= nr_busy ws).
  { pose proof (nr_busy_range (<[i := WTop]> ws)) as Hr2.
    rewrite (nr_busy_insert ws i WRan) in Hr2 by done. simpl in Hr2. lia. }
  assert (Hpe : set_p_mutex false (set_p_idle_num (to_ulong (p_idle_num p + 1))
                  (set_p_mutex true p)) = p') by (unfold p'; destruct p; cbn in *; by subst).
  exists WTop, (set_pools (<[pool := p']> (pools s)) s). split.
  { cbn [worker_step]. rewrite (M_bind_ok _ _ _ _ _ (lock_pool_run s pool p Hp Hm)).
    pread ltac:(fsimpl; apply lookup_insert_eq). rewrite insert_insert_eq. unfold unlock_pool.
    pread ltac:(fsimpl; apply lookup_insert_eq). rewrite insert_insert_eq. by rewrite Hpe. }
  pose proof (called_step WRan WTop (set_pools (<[pool := p']> (pools s)) s) Hi eq_refl ltac:(done)) as Hst.
  unfold moved. cbn [takes r_state r_workers r_queued r_taken r_called]. rewrite app_nil_r in *.
  constructor; cbn [r_state r_workers r_queued r_taken r_called]; fsimpl; try done.
  - exists p', l, pend. rewrite length_insert, (nr_busy_insert ws i WRan) by done.
    split; [constructor; fsimpl; [apply lookup_insert_eq|done|done]|].
    split; [done|]. split; [done|]. split; [done|]. split; [done|]. split.
    { unfold p'; fsimpl. rewrite Hidle, to_ulong_id by (unfold is_word; lia). simpl. lia. }
    intros j u. rewrite list_lookup_insert. case_decide; [done|apply Hrl].
  - intros j u. rewrite list_lookup_insert. case_decide; [done|apply Hrun].
  - intros j j' u. rewrite !list_lookup_insert. case_decide; [done|]. case_decide; [done|]. apply Hdis.
  - by rewrite length_insert.
Qed.
End phases.

(** Every step of every worker succeeds and keeps the invariant. *)
Lemma worker_inv id pool r i w :
  pool_inv id pool r -> r_workers r !! i = Some w ->
  exists w' s', worker_step pool w (r_state r) = Ok (w', s') /\ pool_inv id pool (moved r i w w' s').
Proof using.
  destruct r as [s ws qd tk cl]. intros Hinv Hi. cbn [r_state r_workers] in *.
  destruct w as [| |t| |].
  - by apply inv_top.
  - pose proof Hinv as [(p & l & pend & [Hp Hq Hnum] & Hm & _) _ _ _ _ _]. cbn [r_state] in *.
    exists WTop, s. split; [|by apply inv_stay]. cbn [worker_step].
    rewrite (M_bind_ok _ _ _ _ _ (lock_pool_run s pool p Hp Hm)). by apply lock_unlock_run.
  - by apply inv_run.
  - by apply inv_ran.
  - exists WExit, s. split; [done|by apply inv_stay].
Qed.

(** A client's task goes to the end of the queue. *)
Lemma queue_inv id pool s ws qd tk cl f arg s' :
  pool_inv id pool (mk_running s ws qd tk cl) -> Z.of_nat (size (tasks s)) + 1 < 2 ^ 64 ->
  wayca_sc_threadpool_queue id (Some f) arg s = Ok (0, s') ->
  pool_inv id pool (mk_running s' ws (qd ++ [(f, arg)]) tk cl).
Proof using.
  intros [(p & l & pend & Hpq & Hm & Hpay & Hqd & Htot & Hidle & Hrl)
    Hrun Hdis Hid Hcl [Hsz Hwsz]] Hbig Hcall. cbn [r_state r_workers r_queued r_taken r_called] in *.
  pose proof Hpq as [Hp Hq Hnum]. pose proof (pool_queue_length s pool p l Hpq) as Hll.
  unfold wayca_sc_threadpool_queue, id_to_wayca_threadpool in Hcall.
  rewrite bind_gets, Hid in Hcall. unfold malloc, emit in Hcall.
  rewrite M_bind_assoc, bind_get, M_bind_assoc, bind_modify, bind_mret in Hcall.
  destruct (sys_malloc (trace s) ATask); [|done]. cbn [negb] in Hcall.
  rewrite bind_gets in Hcall. revert Hcall. fsimpl.
  set (t := fresh (dom (tasks s))).
  assert (Ht : tasks s !! t = None) by (apply not_elem_of_dom; unfold t; apply is_fresh).
  set (k := mk_wayca_threadpool_task pool f arg None None).
  set (pm := set_p_mutex true p).
  set (s1 := set_pools (<[pool := pm]> (pools s)) (set_tasks (<[t := k]> (tasks s))
               (set_trace (EvMalloc ATask :: trace s) s))).
  assert (Htl : t ∉ l) by (intros Hin; destruct (proj1 (proj2 Hq) t Hin); congruence).
  assert (Hfr : forall q, q <> t -> <[t := k]> (tasks s) !! q = tasks s !! q)
    by (intros; by rewrite lookup_insert_ne).
  assert (Hpq1 : pool_queue s1 pool pm l).
  { constructor; [apply lookup_insert_eq|by apply (queue_ok_frame (tasks s) _ _ _ t)|done]. }
  destruct (threadpool_queue_task_ok s1 pool pm l t Hpq1 Htl) as (m & head & Hrn & Hq' & Hpay');
    [unfold s1; fsimpl; rewrite lookup_insert_eq; by eexists|lia|].
  erewrite (M_bind_ok (put_task _ _)) by reflexivity. cbv beta. fsimpl.
  erewrite M_bind_ok by (apply lock_pool_run; fsimpl; [exact Hp|done]). fold pm s1.
  rewrite (M_bind_ok _ _ _ _ _ Hrn). unfold unlock_pool, requeued. fsimpl.
  pread ltac:(fsimpl; apply lookup_insert_eq). intros [= <-]. unfold s1. fsimpl.
  rewrite !insert_insert_eq.
  assert (Hsome : forall q, is_Some (tasks s !! q) -> is_Some (m !! q)).
  { intros q Hqs. apply (payload_is_Some (tasks s1)); [done|]. unfold s1. fsimpl.
    rewrite Hfr; [done|]. intros ->. rewrite Ht in Hqs. by destruct Hqs. }
  constructor; cbn [r_state r_workers r_queued r_taken r_called]; fsimpl; try done.
  - eexists _, (l ++ [t]), (pend ++ [(f, arg)]). split; [constructor; fsimpl; [apply lookup_insert_eq|done|done]|].
    split; [done|]. split.
    { rewrite !map_app, <- Hpay. f_equal.
      - apply map_payload_ext. intros q Hqq. rewrite Hpay'. unfold s1, payload. fsimpl.
        rewrite Hfr; [done|]. by intros ->.
      - cbn [map]. rewrite Hpay'. unfold s1, payload. fsimpl. by rewrite lookup_insert_eq. }
    split; [by rewrite Hqd, app_assoc|]. split; [done|]. split; [done|].
    intros j u Hj. specialize (Hrl j u Hj). destruct (Hrun j u Hj) as [k' Hk']. 
    intros [Hin|Hin]%elem_of_app; [done|]. apply list_elem_of_singleton in Hin as ->. congruence.
  - intros j u Hj. apply Hsome. by apply (Hrun j).
  - rewrite Hcl. apply Permutation_app_head, reflexive_eq. symmetry. apply in_hand_ext. intros j u Hj.
    fsimpl. rewrite Hpay'. unfold s1, payload. fsimpl. rewrite Hfr; [done|]. intros ->.
    destruct (Hrun j t Hj). congruence.
  - rewrite (payload_dom (tasks s1)) by done. unfold s1. fsimpl.
    rewrite map_size_insert_None by done. split; [lia|done].
Qed.

Lemma stop_inv id pool s ws qd tk cl s' :
  pool_inv id pool (mk_running s ws qd tk cl) ->
  (lock_pool pool;; upd_pool pool (set_p_stop true);; unlock_pool pool) s = Ok (tt, s') ->
  pool_inv id pool (mk_running s' ws qd tk cl).
Proof using.
  intros [(p & l & pend & [Hp Hq Hnum] & Hm & Hpay & Hqd & Htot & Hidle & Hrl)
    Hrun Hdis Hid Hcl Hsz]. cbn [r_state r_workers r_queued r_taken r_called] in *.
  rewrite (M_bind_ok _ _ _ _ _ (lock_pool_run s pool p Hp Hm)).
  pread ltac:(fsimpl; apply lookup_insert_eq). rewrite insert_insert_eq. unfold unlock_pool.
  erewrite upd_pool_ok by (fsimpl; apply lookup_insert_eq). fsimpl. rewrite insert_insert_eq.
  intros [= <-]. constructor; cbn [r_state r_workers r_queued r_taken r_called]; fsimpl; try done.
  eexists _, l, pend. split; [constructor; fsimpl; [apply lookup_insert_eq|done|done]|]. done.
Qed.

Lemma pool_step_inv id pool r r' :
  rtc (pool_step id pool) r r' -> pool_inv id pool r -> pool_inv id pool r'.
Proof using.
  induction 1 as [|? ? ? Hstep _ IH]; [done|]. intros Hinv. apply IH.
  destruct Hstep as [s ws qd tk cl f arg s' Hb Hc|s ws qd tk cl i w w' s' Hi Hw|s ws qd tk cl s' Hs].
  - by eapply queue_inv.
  - destruct (worker_inv id pool _ i w Hinv Hi) as (w2 & s2 & Hw2 & Hinv2).
    cbn [r_state] in Hw2. rewrite Hw in Hw2. by simplify_eq.
  - by eapply stop_inv.
Qed.

(** The pool when its interface starts to be used. *)
Record pool_start (id : Z) (pool : nat) (s : sched) (n : nat) : Prop := {
  pst_pool : exists p, pools s !! pool = Some p /\ p_task_head p = None /\ p_task_num p = 0 /\
    p_mutex p = false /\ p_total_worker_num p = Z.of_nat n /\ p_idle_num p = Z.of_nat n;
  pst_id : id_to_ptr (wayca_threadpools_array s) id = Some pool;
  pst_size : Z.of_nat (size (tasks s)) < 2 ^ 64 /\ Z.of_nat n < 2 ^ 64;
}.

Lemma pool_start_inv id pool s n :
  pool_start id pool s n -> pool_inv id pool (mk_running s (replicate n WTop) [] [] []).
Proof using.
  intros [(p & Hp & Hh & Hn & Hm & Ht & Hi) Hid Hsz].
  assert (Hw : forall j t, replicate n WTop !! j = Some (WRun t) -> False)
    by (intros j t [? _]%lookup_replicate; done).
  constructor; cbn [r_state r_workers r_queued r_taken r_called]; try done.
  - exists p, [], []. rewrite length_replicate.
    assert (Hb : nr_busy (replicate n WTop) = 0).
    { unfold nr_busy. clear. induction n; [done|]. simpl. by rewrite IHn. }
    split; [constructor; [done|split; [constructor|split; [set_solver|done]]|by rewrite Hn]|].
    split; [done|]. split; [done|]. split; [done|]. split; [lia|]. split; [lia|].
    intros j t Hj. by destruct (Hw j t).
  - intros j t Hj. by destruct (Hw j t).
  - intros j k t Hj. by destruct (Hw j t).
  - apply reflexive_eq. unfold in_hand. clear. by induction n.
  - by rewrite length_replicate.
Qed.

(** C3. First in, first out: under every interleaving of clients and workers the
    workers take the tasks from the queue in the order in which they were queued;
    every task that was taken is called once, or is still in the hand of exactly
    one worker; and [wayca_sc_threadpool_task_num] and [..._running_num] report the
    number of tasks that wait and of workers that are not idle. (A task is called
    after the mutex was given back, so the order of the calls is another matter:
    [called_out_of_order].) *)
Theorem threadpool_fifo id pool s n s' ws qd tk cl :
  pool_start id pool s n ->
  rtc (pool_step id pool) (mk_running s (replicate n WTop) [] [] []) (mk_running s' ws qd tk cl) ->
  exists pending, qd = tk ++ pending /\ tk ≡ₚ cl ++ in_hand s' ws /\
    wayca_sc_threadpool_task_num id s' = Ok (Z.of_nat (length pending), s') /\
    wayca_sc_threadpool_running_num id s' = Ok (nr_busy ws, s').
Proof using.
  intros Hst Hsteps. apply pool_start_inv in Hst.
  destruct (pool_step_inv _ _ _ _ Hsteps Hst) as
    [(p & l & pend & [Hp Hq Hnum] & Hm & Hpay & Hqd & Htot & Hidle & _) _ _ Hid Hcl [_ Hwsz]].
  cbn [r_state r_workers r_queued r_taken r_called] in *. exists pend. split; [done|]. split; [done|].
  assert (Hll : length pend = length l).
  { apply (f_equal length) in Hpay. by rewrite !length_map in Hpay. }
  unfold wayca_sc_threadpool_task_num, wayca_sc_threadpool_running_num, id_to_wayca_threadpool.
  rewrite !bind_gets, Hid. rewrite !(M_bind_ok _ _ _ _ _ (lock_pool_run s' pool p Hp Hm)).
  rewrite !(M_bind_ok (get_pool pool) _ _ (set_p_mutex true p) _)
    by (apply get_pool_ok; fsimpl; apply lookup_insert_eq). cbv beta. fsimpl.
  rewrite !lock_unlock_run by done. split; [by rewrite Hnum, Hll|].
  pose proof (nr_busy_range ws). rewrite Hidle, to_ulong_id by (unfold is_word; lia).
  do 2 f_equal. lia.
Qed.

(** C37. No worker ever faults: in every reachable state each worker can make its
    next step (no lock is held across steps, no freed task is used). *)
Theorem threadpool_workers_progress id pool s n r i w :
  pool_start id pool s n ->
  rtc (pool_step id pool) (mk_running s (replicate n WTop) [] [] []) r ->
  r_workers r !! i = Some w ->
  exists w' s', worker_step pool w (r_state r) = Ok (w', s').
Proof using.
  intros Hst Hsteps Hi. apply pool_start_inv in Hst.
  destruct (worker_inv id pool r i w (pool_step_inv _ _ _ _ Hsteps Hst) Hi) as (w' & s' & ? & _).
  eauto.
Qed.
End operations.

(** ** A pool of two workers *)

Module TwoWorkers.
#[local] Instance system2 : System := {|
  sys_setaffinity _ _ _ _ := 0; sys_getaffinity _ _ := inr CPU_EMPTY; sys_malloc _ _ := true;
  sys_pthread_create _ := inr 1; sys_pthread_join _ _ := 0; sys_pthread_kill _ _ _ := 0;
  sys_tkill _ _ _ := 0; sys_gettid _ := 10; sys_task_dir _ _ := inr [] |}.

Definition start : sched :=
  mk_sched ∅ ∅ {[ 0%nat := mk_wayca_threadpool 0 [None; None] 2 2 None 0 None false false ]} ∅
    [] CPU_EMPTY [] [] [Some 0%nat; None] [].

Definition state_after {A} (o : outcome (A * sched)) : sched :=
  match o with Ok (_, s) => s | Fault _ => start end.

(** Two tasks are queued, and the first worker takes one. *)
Definition queued1 : sched := state_after (wayca_sc_threadpool_queue 0 (Some 5) 50 start).
Definition queued2 : sched := state_after (wayca_sc_threadpool_queue 0 (Some 6) 60 queued1).
Definition taken : sched := state_after (worker_step 0 WTop queued2).

Lemma start_ok : pool_start 0 0 start 2.
Proof.
  constructor; [|reflexivity|split; reflexivity]. eexists. split; [reflexivity|].
  repeat split.
Qed.

Lemma run : rtc (pool_step 0 0) (mk_running start [WTop; WTop] [] [] [])
  (mk_running taken [WRun 0; WTop] [(5, 50); (6, 60)] [(5, 50)] []).
Proof.
  eapply rtc_l.
  { apply (ps_queue 0 0 start [WTop; WTop] [] [] [] 5 50 queued1); vm_compute; reflexivity. }
  eapply rtc_l.
  { apply (ps_queue 0 0 queued1 [WTop; WTop] [(5, 50)] [] [] 6 60 queued2); vm_compute; reflexivity. }
  apply rtc_once.
  apply (ps_worker 0 0 queued2 [WTop; WTop] [(5, 50); (6, 60)] [] [] 0 WTop (WRun 0) taken);
    vm_compute; reflexivity.
Qed.

(** The second worker takes the second task, and calls it first. *)
Definition both : sched := state_after (worker_step 0 WTop taken).
Definition second : sched := state_after (worker_step 0 (WRun 1) both).

Lemma called_out_of_order : rtc (pool_step 0 0) (mk_running start [WTop; WTop] [] [] [])
  (mk_running second [WRun 0; WRan] [(5, 50); (6, 60)] [(5, 50); (6, 60)] [(6, 60)]).
Proof.
  etransitivity; [apply run|]. eapply rtc_l.
  { apply (ps_worker 0 0 taken [WRun 0; WTop] [(5, 50); (6, 60)] [(5, 50)] [] 1 WTop (WRun 1) both);
      vm_compute; reflexivity. }
  apply rtc_once.
  apply (ps_worker 0 0 both [WRun 0; WRun 1] [(5, 50); (6, 60)] [(5, 50); (6, 60)] [] 1 (WRun 1) WRan
    second); vm_compute; reflexivity.
Qed.

Lemma threadpool_fifo_witness :
  exists pending, [(5, 50); (6, 60)] = [(5, 50); (6, 60)] ++ pending /\
    [(5, 50); (6, 60)] ≡ₚ [(6, 60)] ++ in_hand second [WRun 0; WRan] /\
    wayca_sc_threadpool_task_num 0 second = Ok (Z.of_nat (length pending), second) /\
    wayca_sc_threadpool_running_num 0 second = Ok (2, second).
Proof.
  apply (threadpool_fifo 0 0 start 2 second [WRun 0; WRan] [(5, 50); (6, 60)] [(5, 50); (6, 60)] [(6, 60)]);
    [apply start_ok|apply called_out_of_order].
Defined.

Lemma threadpool_workers_progress_witness :
  exists w' s', worker_step 0 (WRun 0) taken = Ok (w', s').
Proof.
  apply (threadpool_workers_progress 0 0 start 2
           (mk_running taken [WRun 0; WTop] [(5, 50); (6, 60)] [(5, 50)] []) 0 (WRun 0));
    [apply start_ok|apply run|reflexivity].
Defined.
End TwoWorkers.
