(* ===== verification/Irq.v ===== *)
(** * Interrupt affinity

    [lib/irq.c]: the affinity file of an interrupt holds the CPU mask as groups
    of hexadecimal digits separated by commas. Writing and reading it are
    inverse to each other. *)

From Stdlib Require Import Ascii.
From S2P Require Import Prelude Bitops Cpuset Cstring State.

Definition CHUNKSZ : Z := 32.

Definition comma : ascii := ascii_of_nat 44.
Definition newline : ascii := ascii_of_nat 10.
Definition zero_char : ascii := ascii_of_nat 48.

(** ** Printing *)

(** [%0*lx] with a width. *)
Definition hex_pad (width v : Z) : cstring :=
  let d := print_num 16 v in
  replicate (Z.to_nat width - length d) zero_char ++ d.

(** The loop of [bitmap_scnprintf], from chunk [i / 32] down to chunk 0. [out]
    is what was printed so far, [sep] whether a comma is due. *)
Fixpoint scnprintf_loop (fuel : nat) (maskp : list Z) (i chunksz : Z) (first sep : bool)
    (out : cstring) : outcome cstring :=
  match fuel with
  | O => Fault OutOfFuel
  | S fuel =>
    if i <? 0 then Ok out
    else
      let chunkmask := 2 ^ chunksz - 1 in
      let word := i / BITS_PER_LONG in
      let bit := i mod BITS_PER_LONG in
      w ← rd maskp word;
      let val := Z.land (Z.shiftr w bit) chunkmask in
      if negb (val =? 0) || negb first || (i =? 0) then
        let s := (if sep : bool then [comma] else []) ++ hex_pad ((chunksz + 3) / 4) val in
        scnprintf_loop fuel maskp (i - CHUNKSZ) CHUNKSZ false true (out ++ s)
      else scnprintf_loop fuel maskp (i - CHUNKSZ) CHUNKSZ first sep out
  end.

(** The string that [bitmap_scnprintf] prints; the buffer of [PATH_MAX] bytes
    that its caller gives is always large enough ([scnprintf_length]). *)
Definition bitmap_scnprintf (maskp : list Z) (nmaskbits : Z) : outcome cstring :=
  let chunksz := Z.land (to_uint nmaskbits) (CHUNKSZ - 1) in
  let chunksz := if chunksz =? 0 then CHUNKSZ else chunksz in
  let i := to_int (ALIGN (to_uint nmaskbits) CHUNKSZ - CHUNKSZ) in
  scnprintf_loop (S (2 * length maskp)) maskp i chunksz true false [].

(** ** Reading *)

(** The [while (c != start)] loop, on the reversed text before the newline. The
    set is addressed as 32-bit words: half a word of the set at a time. *)
Fixpoint str_to_cpumask_loop (text : cstring) (pos i : Z) (cpuset : cpu_set_t)
    : outcome (Z * cpu_set_t) :=
  match text with
  | [] => Ok (0, cpuset)
  | tmp :: text =>
    if (code tmp =? 44) || (code tmp =? 10) then str_to_cpumask_loop text pos i cpuset
    else
      let num := hex_to_bin (code tmp) in
      if num <? 0 then Ok (- EINVAL, cpuset)
      else
        match cpuset !! Z.to_nat (pos / 2) with
        | None => Fault OutOfBounds
        | Some w =>
          let cpuset :=
            <[Z.to_nat (pos / 2) := Z.lor w (Z.shiftl num (32 * (pos mod 2) + i))]> cpuset in
          let i := i + 4 in
          if CHUNKSZ <=? i then str_to_cpumask_loop text (pos + 1) 0 cpuset
          else str_to_cpumask_loop text pos i cpuset
        end
  end.

(** The text before the first newline. *)
Fixpoint before_newline (s : cstring) : option cstring :=
  match s with
  | [] => None
  | c :: s => if code c =? 10 then Some [] else cons c <$> before_newline s
  end.

(** [errno] is the value of [errno] at the call. *)
Definition bitmap_str_to_cpumask (errno : Z) (start : cstring) (len : Z) (cpuset : cpu_set_t)
    : outcome (Z * cpu_set_t) :=
  if len <=? 0 then Ok (- errno, cpuset)
  else match before_newline start with
    | None => Ok (- EINVAL, cpuset)
    | Some text => str_to_cpumask_loop (rev text) 0 0 (CPU_ZERO cpuset)
    end.

(** ** The interface *)

(** The affinity files of the kernel: opening answers 0 or a negative error
    number, writing the number of bytes or a negative error number, reading a
    negative error number or the contents. *)
Class IrqFiles := {
  irq_open : Z -> Z;
  irq_write : Z -> cstring -> Z;
  irq_read : Z -> Z + cstring;
}.

Section irq.
Context `{T : Topology} `{F : IrqFiles}.

(** The result and the text that is written (with its terminating NUL). *)
Definition wayca_sc_irq_bind_cpu (irq cpu : Z) : outcome (Z * option cstring) :=
  let mask := CPU_SET cpu CPU_EMPTY in
  let fd := irq_open irq in
  if fd <? 0 then Ok (fd, None) else
  buf ← bitmap_scnprintf mask wayca_sc_cpus_in_total;
  let ret := irq_write irq (buf ++ [zero]) in
  Ok (if ret <? 0 then ret else 0, Some (buf ++ [zero])).

(** [mask] is the uninitialised local variable, [cpuset] the caller's set (or
    NULL). *)
Definition wayca_sc_get_irq_bind_cpu (errno : Z) (mask : cpu_set_t) (irq cpusetsize : Z)
    (cpuset : option cpu_set_t) : outcome (Z * option cpu_set_t) :=
  match cpuset with
  | None => Ok (- EINVAL, None)
  | Some set =>
    let fd := irq_open irq in
    if fd <? 0 then Ok (fd, cpuset) else
    match irq_read irq with
    | inl err => Ok (err, cpuset)
    | inr buf =>
      r ← bitmap_str_to_cpumask errno buf (Z.of_nat (length buf)) mask;
      if negb (r.1 =? 0) then Ok (r.1, cpuset) else
      let valid_cpu_setsize := CPU_ALLOC_SIZE wayca_sc_cpus_in_total in
      if cpusetsize <? valid_cpu_setsize then Ok (- EINVAL, cpuset) else
      let set := CPU_ZERO_S cpusetsize set in
      Ok (0, Some (CPU_OR_S cpusetsize set set r.2))
    end
  end.
End irq.

(** ** Digits *)

(** The [w] lowest hexadecimal digits of [v], least significant first. *)
Fixpoint lsd (w : nat) (v : Z) : list Z :=
  match w with O => [] | S w => v mod 16 :: lsd w (v / 16) end.

Lemma length_lsd w v : length (lsd w v) = w.
Proof. revert v. induction w; intros; simpl; auto. Qed.

Lemma lsd_range w v : Forall (fun d => 0 <= d < 16) (lsd w v).
Proof.
  revert v. induction w as [|w IH]; intros v; simpl; constructor; [|apply IH].
  apply Z.mod_pos_bound. lia.
Qed.

Lemma lsd_testbit w v r d b :
  0 <= v -> lsd w v !! r = Some d -> 0 <= b < 4 ->
  Z.testbit d b = Z.testbit v (4 * Z.of_nat r + b).
Proof.
  revert v r. induction w as [|w IH]; intros v [|r] Hv H Hb; simpl in H; simplify_eq.
  - change 16 with (2 ^ 4). rewrite Z.mod_pow2_bits_low by lia. try (f_equal; lia).
  - rewrite (IH (v / 16) r) by (done || (apply Z.div_pos; lia)).
    change 16 with (2 ^ 4). rewrite Z.div_pow2_bits by lia. f_equal. lia.
Qed.

Lemma lsd_zero w : map digit_char (rev (lsd w 0)) = replicate w zero_char.
Proof.
  induction w as [|w IH]; [done|]. cbn [lsd rev]. change (0 mod 16) with 0. change (0 / 16) with 0.
  rewrite map_app, IH. cbn [map]. change (digit_char 0) with zero_char.
  rewrite <- replicate_cons_app. done.
Qed.

Lemma pad_udigits fuel w v :
  (0 < w <= fuel)%nat -> 0 <= v < 16 ^ Z.of_nat w ->
  (length (udigits fuel 16 v) <= w)%nat /\
  replicate (w - length (udigits fuel 16 v)) zero_char ++ map digit_char (udigits fuel 16 v) =
  map digit_char (rev (lsd w v)).
Proof.
  revert fuel v. induction w as [|w IH]; intros fuel v Hf Hv; [lia|].
  destruct fuel as [|fuel]; [lia|]. cbn [udigits lsd rev].
  rewrite map_app. cbn [map]. destruct (Z.ltb_spec v 16).
  - cbn [length]. split; [lia|]. rewrite Z.mod_small, Z.div_small, lsd_zero by lia.
    cbn [map]. by replace (S w - 1)%nat with w by lia.
  - destruct w as [|w].
    { change (Z.of_nat 1) with 1 in Hv. lia. }
    destruct (IH fuel (v / 16)) as [Hl E]; [lia| |].
    { split; [apply Z.div_pos; lia|]. apply Z.div_lt_upper_bound; [lia|].
      replace (Z.of_nat (S (S w))) with (Z.succ (Z.of_nat (S w))) in Hv by lia.
      rewrite Z.pow_succ_r in Hv by lia. lia. }
    rewrite length_app, map_app. cbn [length map]. split; [lia|].
    replace (S (S w) - (length (udigits fuel 16 (v / 16)) + 1))%nat
      with (S w - length (udigits fuel 16 (v / 16)))%nat by lia.
    by rewrite app_assoc, E.
Qed.

Lemma hex_pad_lsd w v :
  (0 < w <= 64)%nat -> 0 <= v < 16 ^ Z.of_nat w ->
  hex_pad (Z.of_nat w) v = map digit_char (rev (lsd w v)).
Proof.
  intros Hw Hv. unfold hex_pad, print_num. rewrite Nat2Z.id, length_map.
  by destruct (pad_udigits 64 w v Hw Hv) as [_ ->].
Qed.

(** ** Texts as tokens: a digit, or a comma *)

Definition tok_char (t : option Z) : ascii :=
  match t with Some d => digit_char d | None => comma end.

Definition tok_ok (t : option Z) : Prop :=
  match t with Some d => 0 <= d < 16 | None => True end.

(** The digits of a list of tokens. *)
Fixpoint nibs (toks : list (option Z)) : list Z :=
  match toks with
  | [] => []
  | Some d :: toks => d :: nibs toks
  | None :: toks => nibs toks
  end.

Lemma nibs_app t1 t2 : nibs (t1 ++ t2) = nibs t1 ++ nibs t2.
Proof. induction t1 as [|[d|] t1 IH]; simpl; [done|by rewrite IH|done]. Qed.

Lemma nibs_Some ds : nibs (map Some ds) = ds.
Proof. induction ds as [|d ds IH]; simpl; [done|]. by rewrite IH. Qed.

Lemma hex_digit_code d :
  0 <= d < 16 -> hex_to_bin (code (digit_char d)) = d /\
    (code (digit_char d) =? 44) || (code (digit_char d) =? 10) = false.
Proof.
  intros Hd. rewrite digit_char_code by lia. unfold hex_to_bin, tolower.
  destruct (Z.ltb_spec d 10).
  - destruct (Z.leb_spec 48 (48 + d)), (Z.leb_spec (48 + d) 57); try lia. cbn [andb].
    split; [lia|]. apply orb_false_iff. split; apply Z.eqb_neq; lia.
  - destruct (Z.leb_spec 48 (87 + d)), (Z.leb_spec (87 + d) 57); try lia. cbn [andb].
    destruct (Z.leb_spec 65 (87 + d)), (Z.leb_spec (87 + d) 90); try lia. cbn [andb].
    destruct (Z.leb_spec 97 (87 + d)), (Z.leb_spec (87 + d) 102); try lia. cbn [andb].
    split; [lia|]. apply orb_false_iff. split; apply Z.eqb_neq; lia.
Qed.

(** The bits that digit number [j] sets. *)
Lemma set_nibble s j d w :
  cpuset_wf s -> 0 <= j < 256 -> 0 <= d < 16 -> s !! Z.to_nat (j / 8 / 2) = Some w ->
  let s' := <[Z.to_nat (j / 8 / 2) := Z.lor w (Z.shiftl d (32 * (j / 8 mod 2) + 4 * (j mod 8)))]> s in
  cpuset_wf s' /\ forall k, 0 <= k < CPU_SETSIZE ->
    CPU_ISSET k s' = (if k / 4 =? j then Z.testbit d (k mod 4) else false) || CPU_ISSET k s.
Proof.
  intros Hwf Hj Hd Hw s'. pose proof Hwf as [Hl Hws].
  assert (Hww : is_word w) by (by apply (Forall_lookup_1 _ s (Z.to_nat (j / 8 / 2)))).
  set (sh := 32 * (j / 8 mod 2) + 4 * (j mod 8)).
  assert (Hsh : 0 <= sh <= 60 /\ 64 * (j / 8 / 2) + sh = 4 * j) by (unfold sh; zdm).
  assert (Hdb : forall b, 4 <= b -> Z.testbit d b = false).
  { intros b Hb. destruct (decide (d = 0)) as [->|]; [apply Z.bits_0|].
    apply Z.bits_above_log2; [lia|]. apply Z.log2_lt_pow2; [lia|].
    apply Z.lt_le_trans with (2 ^ 4); [lia|]. apply Z.pow_le_mono_r; lia. }
  assert (Hsw : is_word (Z.shiftl d sh)).
  { apply word_intro; [apply Z.shiftl_nonneg; lia|]. intros i Hi.
    rewrite Z.shiftl_spec by lia. apply Hdb. lia. }
  split.
  - split; [unfold s'; by rewrite length_insert|]. apply Forall_insert; [done|auto with wayca].
  - intros k Hk. unfold s'. unfold CPU_SETSIZE in *. rewrite !CPU_ISSET_wbit by (unfold CPU_SETSIZE; lia).
    unfold wbit. rewrite list_lookup_insert. case_decide as E.
    + destruct E as [E _]. assert (j / 8 / 2 = k / 64) as Ek by (apply Z2Nat.inj in E; zdm).
      rewrite <- Ek, Hw. cbn [from_option]; unfold id.
      rewrite Z.lor_spec, Z.shiftl_spec by zdm. rewrite orb_comm. f_equal. fold sh.
      destruct (Z.eqb_spec (k / 4) j) as [<-|Hne].
      * f_equal. zdm.
      * destruct (decide (k mod 64 < sh)); [apply Z.testbit_neg_r; lia|]. apply Hdb. zdm.
    + destruct (Z.eqb_spec (k / 4) j) as [<-|]; [|done]. exfalso. apply E.
      split; [f_equal; zdm|rewrite Hl; zdm].
Qed.

(** Reading tokens from digit [j] on. *)
Lemma str_to_cpumask_loop_ok toks j s :
  Forall tok_ok toks -> cpuset_wf s -> 0 <= j -> j + Z.of_nat (length (nibs toks)) <= 256 ->
  exists s', str_to_cpumask_loop (map tok_char toks) (j / 8) (4 * (j mod 8)) s = Ok (0, s') /\
    cpuset_wf s' /\ forall k, 0 <= k < CPU_SETSIZE ->
      CPU_ISSET k s' =
      (if j <=? k / 4 then default false ((fun d => Z.testbit d (k mod 4)) <$> nibs toks !! Z.to_nat (k / 4 - j))
       else false) || CPU_ISSET k s.
Proof.
  intros Ht. revert j s. induction Ht as [|t toks Ht _ IH]; intros j s Hwf Hj Hlen.
  { exists s. split; [done|]. split; [done|]. intros k Hk. by destruct (j <=? k / 4). }
  destruct t as [d|]; cbn [map tok_char str_to_cpumask_loop].
  2:{ change ((code comma =? 44) || (code comma =? 10)) with true. cbv iota. by apply IH. }
  cbn [nibs length] in Hlen. destruct (hex_digit_code d Ht) as [-> ->].
  destruct (Z.ltb_spec d 0); [cbn in Ht; lia|].
  pose proof Hwf as [Hl _].
  destruct (lookup_lt_is_Some_2 s (Z.to_nat (j / 8 / 2))) as [w Hw]; [rewrite Hl; zdm|].
  rewrite Hw. destruct (set_nibble s j d w Hwf ltac:(lia) Ht Hw) as [Hwf1 Hb1].
  set (s1 := <[Z.to_nat (j / 8 / 2) := _]> s) in *.
  destruct (IH (j + 1) s1 Hwf1 ltac:(lia) ltac:(lia)) as (s' & Hrun & Hwf' & Hb').
  exists s'. split.
  - unfold CHUNKSZ. destruct (Z.leb_spec 32 (4 * (j mod 8) + 4)).
    + replace ((j + 1) / 8) with (j / 8 + 1) in Hrun by zdm.
      replace (4 * ((j + 1) mod 8)) with 0 in Hrun by zdm. done.
    + replace (j / 8) with ((j + 1) / 8) by zdm.
      by replace (4 * (j mod 8) + 4) with (4 * ((j + 1) mod 8)) by zdm.
  - split; [done|]. intros k Hk. rewrite Hb', Hb1 by done. rewrite orb_assoc. f_equal.
    change (nibs (Some d :: toks)) with (d :: nibs toks).
    destruct (Z.eqb_spec (k / 4) j) as [<-|Hne].
    + destruct (Z.leb_spec (k / 4 + 1) (k / 4)), (Z.leb_spec (k / 4) (k / 4)); try lia.
      by rewrite Z.sub_diag.
    + rewrite orb_false_r. destruct (Z.leb_spec (j + 1) (k / 4)), (Z.leb_spec j (k / 4)); try lia.
      by replace (Z.to_nat (k / 4 - j)) with (S (Z.to_nat (k / 4 - (j + 1)))) by lia.
Qed.

(** ** What is printed *)

Section print.
Context (mask : cpu_set_t) (Hwf : cpuset_wf mask).

(** The value of chunk [c]: 32 CPUs. *)
Definition chunk (c bits : Z) : Z :=
  Z.land (Z.shiftr (default 0 (mask !! Z.to_nat (32 * c / 64))) (32 * c mod 64)) (2 ^ bits - 1).

Lemma chunk_testbit c bits x :
  0 <= c < 32 -> 0 <= bits <= 32 -> 0 <= x ->
  Z.testbit (chunk c bits) x = (x <? bits) && CPU_ISSET (32 * c + x) mask.
Proof using Hwf.
  intros Hc Hb Hx. unfold chunk. change (2 ^ bits - 1) with (Z.pred (2 ^ bits)).
  rewrite <- Z.ones_equiv, Z.land_spec, Z.testbit_ones_nonneg, andb_comm by lia.
  destruct (Z.ltb_spec x bits) as [Hlt|]; [|done]. cbn [andb].
  rewrite Z.shiftr_spec, CPU_ISSET_wbit by (unfold CPU_SETSIZE; lia). unfold wbit.
  replace ((32 * c + x) / 64) with (32 * c / 64) by zdm.
  by replace ((32 * c + x) mod 64) with (x + 32 * c mod 64) by zdm.
Qed.

Lemma chunk_range c bits : 0 <= bits -> 0 <= chunk c bits < 2 ^ bits.
Proof using.
  intros Hb. unfold chunk. change (2 ^ bits - 1) with (Z.pred (2 ^ bits)).
  rewrite <- Z.ones_equiv, Z.land_ones by lia. apply Z.mod_pos_bound. lia.
Qed.

Lemma chunk_zero c bits k :
  0 <= c < 32 -> 0 <= bits <= 32 -> chunk c bits = 0 -> 32 * c <= k < 32 * c + bits ->
  CPU_ISSET k mask = false.
Proof using Hwf.
  intros Hc Hb E Hk. pose proof (chunk_testbit c bits (k - 32 * c) Hc Hb ltac:(lia)) as H.
  rewrite E, Z.bits_0 in H. replace (32 * c + (k - 32 * c)) with k in H by lia.
  destruct (Z.ltb_spec (k - 32 * c) bits); [by simpl in H|lia].
Qed.

(** The tokens printed for the chunks below chunk [c], each after a comma. *)
Fixpoint rest_toks (c : nat) : list (option Z) :=
  match c with
  | O => []
  | S c => None :: map Some (rev (lsd 8 (chunk (Z.of_nat c) 32))) ++ rest_toks c
  end.

(** The digits of these chunks, least significant first. *)
Fixpoint low (c : nat) : list Z :=
  match c with O => [] | S c => low c ++ lsd 8 (chunk (Z.of_nat c) 32) end.

Lemma tok_chars ds : map tok_char (map Some ds) = map digit_char ds.
Proof using. rewrite map_map. done. Qed.

Lemma nibs_rest c : nibs (rev (rest_toks c)) = low c.
Proof using.
  induction c as [|c IH]; [done|]. cbn [rest_toks rev low].
  rewrite rev_app_distr, <- app_assoc, !nibs_app, IH. f_equal.
Qed.

Lemma length_low c : length (low c) = (8 * c)%nat.
Proof using. induction c as [|c IH]; [done|]. cbn [low]. rewrite length_app, IH, length_lsd. lia. Qed.

Lemma rest_toks_ok c : Forall tok_ok (rest_toks c).
Proof using.
  induction c as [|c IH]; [constructor|]. cbn [rest_toks]. constructor; [done|].
  apply Forall_app. split; [|done]. apply Forall_map, Forall_rev. apply lsd_range.
Qed.

Lemma low_testbit c j d b :
  (c <= 32)%nat -> low c !! j = Some d -> 0 <= b < 4 ->
  Z.testbit d b = CPU_ISSET (4 * Z.of_nat j + b) mask.
Proof using Hwf.
  intros Hc. induction c as [|c IH]; intros H Hb; [done|]. cbn [low] in H.
  destruct (decide (j < 8 * c)%nat).
  - rewrite lookup_app_l in H by (rewrite length_low; lia). apply IH; [lia|done|done].
  - rewrite lookup_app_r in H by (rewrite length_low; lia). rewrite length_low in H.
    pose proof (lookup_lt_Some _ _ _ H) as Hr. rewrite length_lsd in Hr.
    rewrite (lsd_testbit _ _ _ _ _ (proj1 (chunk_range (Z.of_nat c) 32 ltac:(lia))) H Hb).
    rewrite chunk_testbit by lia.
    destruct (Z.ltb_spec (4 * Z.of_nat (j - 8 * c) + b) 32); [|lia]. cbn [andb].
    f_equal. lia.
Qed.

Lemma rd_mask c :
  0 <= c < 32 -> rd mask (32 * c / BITS_PER_LONG) = Ok (default 0 (mask !! Z.to_nat (32 * c / 64))).
Proof using Hwf.
  intros Hc. unfold rd, BITS_PER_LONG. destruct Hwf as [Hl _].
  destruct (lookup_lt_is_Some_2 mask (Z.to_nat (32 * c / 64))) as [w ->]; [rewrite Hl; zdm|done].
Qed.

(** Once a chunk was printed, the rest follows. *)
Lemma scnprintf_rest fuel c out :
  (c <= 32)%nat -> (c < fuel)%nat ->
  scnprintf_loop fuel mask (32 * Z.of_nat c - 32) CHUNKSZ false true out =
  Ok (out ++ map tok_char (rest_toks c)).
Proof using Hwf.
  revert c out. induction fuel as [|fuel IH]; intros c out Hc Hf; [lia|].
  cbn [scnprintf_loop]. destruct c as [|c].
  { change (32 * Z.of_nat 0 - 32 <? 0) with true. cbn [rest_toks map]. by rewrite app_nil_r. }
  replace (32 * Z.of_nat (S c) - 32) with (32 * Z.of_nat c) by lia.
  destruct (Z.ltb_spec (32 * Z.of_nat c) 0); [lia|].
  rewrite rd_mask by lia. obind. cbn [negb]. rewrite orb_true_r. cbn [orb].
  unfold CHUNKSZ at 1 2. fold (chunk (Z.of_nat c) 32).
  change ((CHUNKSZ + 3) / 4) with (Z.of_nat 8).
  rewrite hex_pad_lsd by (lia || (change (16 ^ Z.of_nat 8) with (2 ^ 32); apply chunk_range; lia)).
  unfold CHUNKSZ at 1. rewrite IH by lia. f_equal. cbn [rest_toks map]. rewrite map_app, tok_chars.
  by rewrite <- !app_assoc.
Qed.

(** What the reader makes of a first chunk [v] of [w] digits and the rest. *)
Lemma read_printed c w v s :
  (c < 32)%nat -> (w <= 8)%nat -> 0 <= v -> cpuset_wf s ->
  (forall x, 0 <= x < 4 * Z.of_nat w -> Z.testbit v x = CPU_ISSET (32 * Z.of_nat c + x) mask) ->
  (forall k, 32 * Z.of_nat c + 4 * Z.of_nat w <= k < CPU_SETSIZE -> CPU_ISSET k mask = false) ->
  str_to_cpumask_loop (rev (map tok_char (map Some (rev (lsd w v)) ++ rest_toks c))) 0 0 CPU_EMPTY
  = Ok (0, mask).
Proof using Hwf.
  intros Hc Hw Hv Hs Hbits Hhigh. set (toks := map Some (rev (lsd w v)) ++ rest_toks c).
  assert (Hn : nibs (rev toks) = low c ++ lsd w v).
  { unfold toks. rewrite rev_app_distr, nibs_app, nibs_rest. f_equal.
    by rewrite <- map_rev, rev_involutive, nibs_Some. }
  assert (Hok : Forall tok_ok (rev toks)).
  { apply Forall_rev, Forall_app. split; [|apply rest_toks_ok].
    apply Forall_map, Forall_rev, lsd_range. }
  rewrite <- map_rev.
  destruct (str_to_cpumask_loop_ok (rev toks) 0 CPU_EMPTY Hok CPU_EMPTY_wf) as (s' & Hrun & Hwf' & Hb);
    [lia|rewrite Hn, length_app, length_low, length_lsd; lia|].
  change (0 / 8) with 0 in Hrun. change (4 * (0 mod 8)) with 0 in Hrun. rewrite Hrun.
  do 2 f_equal. apply cpu_set_ext; [done|done|]. intros k Hk. rewrite Hb, CPU_ISSET_EMPTY, orb_false_r by done.
  destruct (Z.leb_spec 0 (k / 4)); [|zdm]. rewrite Z.sub_0_r, Hn.
  destruct ((low c ++ lsd w v) !! Z.to_nat (k / 4)) as [d|] eqn:E; cbn [fmap option_fmap option_map from_option id].
  - destruct (decide (Z.to_nat (k / 4) < 8 * c)%nat).
    + rewrite lookup_app_l in E by (rewrite length_low; lia). simpl. unfold id.
      rewrite (low_testbit c _ d) by (done || lia || zdm). f_equal. zdm.
    + rewrite lookup_app_r in E by (rewrite length_low; lia). rewrite length_low in E.
      pose proof (lookup_lt_Some _ _ _ E) as Hr. rewrite length_lsd in Hr. simpl. unfold id.
      rewrite (lsd_testbit w v _ d _ Hv E) by zdm. rewrite Hbits by zdm. f_equal. zdm.
  - apply lookup_ge_None in E. rewrite length_app, length_low, length_lsd in E.
    simpl. rewrite Hhigh; [done|]. zdm.
Qed.

Lemma length_rest c : length (rest_toks c) = (9 * c)%nat.
Proof using.
  induction c as [|c IH]; [done|]. cbn [rest_toks length].
  rewrite length_app, length_map, length_rev, length_lsd, IH. lia.
Qed.

(** Leading chunks that are zero are skipped; the first one that is not is
    printed with as many digits as its bits need, and the rest follows. *)
Lemma scnprintf_first fuel c bits :
  (c < 32)%nat -> (S c < fuel)%nat -> 1 <= bits <= 32 ->
  (forall k, 32 * Z.of_nat c + bits <= k < CPU_SETSIZE -> CPU_ISSET k mask = false) ->
  exists toks, scnprintf_loop fuel mask (32 * Z.of_nat c) bits true false [] = Ok (map tok_char toks) /\
    Forall tok_ok toks /\ (length toks <= 9 * S c)%nat /\
    str_to_cpumask_loop (rev (map tok_char toks)) 0 0 CPU_EMPTY = Ok (0, mask).
Proof using Hwf.
  revert c bits. induction fuel as [|fuel IH]; intros c bits Hc Hf Hb Hhigh; [lia|].
  cbn [scnprintf_loop]. destruct (Z.ltb_spec (32 * Z.of_nat c) 0); [lia|].
  rewrite rd_mask by lia. obind. unfold BITS_PER_LONG. fold (chunk (Z.of_nat c) bits).
  set (v := chunk (Z.of_nat c) bits). pose proof (chunk_range (Z.of_nat c) bits ltac:(lia)) as Hv. fold v in Hv.
  cbn [negb]. rewrite orb_false_r. destruct (negb (v =? 0) || (32 * Z.of_nat c =? 0)) eqn:E.
  - set (w := Z.to_nat ((bits + 3) / 4)).
    assert (Hw : (bits + 3) / 4 = Z.of_nat w) by (unfold w; zdm).
    assert (Hw2 : bits <= 4 * Z.of_nat w /\ (0 < w <= 8)%nat) by (rewrite <- ?Hw; split; zdm).
    rewrite Hw, hex_pad_lsd; [|lia|].
    2:{ split; [lia|]. apply Z.lt_le_trans with (2 ^ bits); [lia|].
        change 16 with (2 ^ 4). rewrite <- Z.pow_mul_r by lia. apply Z.pow_le_mono_r; lia. }
    unfold CHUNKSZ at 1. rewrite scnprintf_rest by lia. cbn [app].
    exists (map Some (rev (lsd w v)) ++ rest_toks c). rewrite map_app, tok_chars. split; [done|].
    split; [apply Forall_app; split; [apply Forall_map, Forall_rev, lsd_range|apply rest_toks_ok]|].
    split; [rewrite length_app, length_map, length_rev, length_lsd, length_rest; lia|].
    rewrite <- (tok_chars (rev (lsd w v))), <- map_app.
    apply (read_printed c w v CPU_EMPTY); [lia|lia|lia|apply CPU_EMPTY_wf| |].
    + intros x Hx. unfold v. rewrite chunk_testbit by lia.
      destruct (Z.ltb_spec x bits); [done|]. cbn [andb]. symmetry. apply Hhigh.
      unfold CPU_SETSIZE. lia.
    + intros k Hk. apply Hhigh. lia.
  - apply orb_false_iff in E as [E1%negb_false_iff%Z.eqb_eq E2%Z.eqb_neq].
    destruct c as [|c]; [lia|]. unfold CHUNKSZ at 1.
    replace (32 * Z.of_nat (S c) - 32) with (32 * Z.of_nat c) by lia.
    destruct (IH c CHUNKSZ) as (toks & H1 & H2 & H3 & H4); [lia|lia|unfold CHUNKSZ; lia| |].
    + intros k Hk. unfold CHUNKSZ in Hk. destruct (decide (k < 32 * Z.of_nat (S c) + bits)).
      * apply (chunk_zero (Z.of_nat (S c)) bits k); (done || lia).
      * apply Hhigh. lia.
    + exists toks. split; [done|]. split; [done|]. split; [lia|done].
Qed.

Lemma before_newline_toks toks rest :
  Forall tok_ok toks ->
  before_newline (map tok_char toks ++ newline :: rest) = Some (map tok_char toks).
Proof using.
  induction 1 as [|t toks Ht _ IH]; [done|]. cbn [map app before_newline].
  assert (E : code (tok_char t) =? 10 = false).
  { destruct t as [d|]; [|done]. destruct (hex_digit_code d Ht) as [_ H].
    by apply orb_false_iff in H as [_ H]. }
  by rewrite E, IH.
Qed.

Lemma align_down x : is_word x -> Z.land x (lnot64 (32 - 1)) = 32 * (x / 32).
Proof using.
  intros Hx. change 32 with (2 ^ 5) at 2 3. rewrite Z.mul_comm, <- Z.shiftr_div_pow2, <- Z.shiftl_mul_pow2 by lia.
  apply Z.bits_inj'. intros i Hi. rewrite Z.land_spec, lnot64_testbit by done.
  change (32 - 1) with (Z.ones 5). rewrite Z.testbit_ones_nonneg, Z.shiftl_spec by lia.
  destruct (Z.ltb_spec i 5).
  - rewrite andb_false_r, andb_false_r. symmetry. apply Z.testbit_neg_r. lia.
  - rewrite Z.shiftr_spec by lia. replace (i - 5 + 5) with i by lia. cbn [negb].
    destruct (Z.ltb_spec i 64); [apply andb_true_r|]. by rewrite word_testbit_high.
Qed.

(** The first chunk that is looked at, and its size. *)
Lemma top_chunk n :
  0 < n <= CPU_SETSIZE ->
  let c := (n - 1) / 32 in
  let b := n - 32 * c in
  1 <= b <= 32 /\ 0 <= c < 32 /\
  to_int (ALIGN (to_uint n) CHUNKSZ - CHUNKSZ) = 32 * c /\
  (if Z.land (to_uint n) (CHUNKSZ - 1) =? 0 then CHUNKSZ else Z.land (to_uint n) (CHUNKSZ - 1)) = b.
Proof using.
  intros Hn c b. unfold CPU_SETSIZE, CHUNKSZ in *.
  assert (Hb : 1 <= b <= 32) by (unfold b, c; zdm). assert (Hc : 0 <= c < 32) by (unfold c; zdm).
  assert (Hu : to_uint n = n) by (apply Z.mod_small; lia). rewrite Hu.
  split; [done|]. split; [done|]. split.
  - unfold ALIGN. rewrite to_ulong_id by (unfold is_word; lia).
    replace (Z.land (n + 32 - 1) (lnot64 (32 - 1))) with (32 * (c + 1)).
    + unfold to_int. rewrite Z.mod_small by lia. destruct (Z.ltb_spec (32 * (c + 1) - 32) (2 ^ 31)); lia.
    + replace (n + 32 - 1) with (n + 31) by lia.
      rewrite align_down by (unfold is_word; lia). unfold c. zdm.
  - change (32 - 1) with (Z.ones 5). rewrite Z.land_ones by lia. change (2 ^ 5) with 32.
    destruct (Z.eqb_spec (n mod 32) 0); unfold b, c; zdm.
Qed.
End print.

Definition PATH_MAX : Z := 4096.

(** The text printed for a mask of [n] CPUs fits into the buffer, and the reader
    gets the mask back from it. *)
Lemma scnprintf_text mask n :
  cpuset_wf mask -> 0 < n <= CPU_SETSIZE ->
  (forall k, n <= k < CPU_SETSIZE -> CPU_ISSET k mask = false) ->
  exists text, bitmap_scnprintf mask n = Ok text /\ Z.of_nat (length text) < PATH_MAX /\
    before_newline (text ++ [newline]) = Some text /\
    str_to_cpumask_loop (rev text) 0 0 CPU_EMPTY = Ok (0, mask).
Proof.
  intros Hwf Hn Hhigh. destruct (top_chunk n Hn) as (Hb & Hc & Hi & Hs).
  set (c := (n - 1) / 32) in *.
  destruct (scnprintf_first mask Hwf (S (2 * length mask)) (Z.to_nat c) (n - 32 * c))
    as (toks & H1 & H2 & H3 & H4); [lia|destruct Hwf as [-> _]; lia|lia| |].
  - intros k Hk. apply Hhigh. lia.
  - exists (map tok_char toks). split.
    + unfold bitmap_scnprintf. cbv zeta. rewrite Hi, Hs, <- H1. f_equal. lia.
    + split; [rewrite length_map; unfold PATH_MAX; lia|]. split; [by apply before_newline_toks|done].
Qed.

(** C21. Round trip of an interrupt's affinity mask: what [bitmap_scnprintf]
    prints for a mask of [n] CPUs, read by [bitmap_str_to_cpumask] as the line of
    the file, gives the mask back, whatever the set held before. *)
Theorem irq_mask_roundtrip errno mask n old :
  cpuset_wf mask -> cpuset_wf old -> 0 < n <= CPU_SETSIZE ->
  (forall k, n <= k < CPU_SETSIZE -> CPU_ISSET k mask = false) ->
  exists text, bitmap_scnprintf mask n = Ok text /\
    bitmap_str_to_cpumask errno (text ++ [newline]) (Z.of_nat (length (text ++ [newline]))) old
    = Ok (0, mask).
Proof.
  intros Hwf Ho Hn Hhigh. destruct (scnprintf_text mask n Hwf Hn Hhigh) as (text & Hp & _ & Hnl & Hr).
  exists text. split; [done|]. unfold bitmap_str_to_cpumask. rewrite length_app. cbn [length].
  destruct (Z.leb_spec (Z.of_nat (length text + 1)) 0); [lia|].
  by rewrite Hnl, CPU_ZERO_eq.
Qed.

Section bind.
Context `{T : Topology} `{F : IrqFiles}.

(** Binding an interrupt to a CPU of the machine and reading its affinity
    back gives exactly that CPU, when the kernel stores what is written. *)
Theorem irq_bind_get irq cpu old set :
  0 <= cpu < wayca_sc_cpus_in_total -> wayca_sc_cpus_in_total <= CPU_SETSIZE ->
  cpuset_wf old -> cpuset_wf set -> irq_open irq = 0 ->
  (forall text, 0 <= irq_write irq text) ->
  (forall text, wayca_sc_irq_bind_cpu irq cpu = Ok (0, Some (text ++ [zero])) ->
     irq_read irq = inr (text ++ [newline])) ->
  exists text, wayca_sc_irq_bind_cpu irq cpu = Ok (0, Some (text ++ [zero])) /\
    wayca_sc_get_irq_bind_cpu 0 old irq sizeof_cpu_set_t (Some set) =
    Ok (0, Some (CPU_SET cpu CPU_EMPTY)).
Proof using.
  intros Hcpu Hn Ho Hs Hopen Hwr Hrd.
  assert (Hwf : cpuset_wf (CPU_SET cpu CPU_EMPTY)) by auto with wayca.
  destruct (scnprintf_text (CPU_SET cpu CPU_EMPTY) wayca_sc_cpus_in_total Hwf) as (text & Hp & _ & Hnl & Hr);
    [lia| |].
  { intros k Hk. rewrite CPU_ISSET_SET, CPU_ISSET_EMPTY by (apply CPU_EMPTY_wf || lia).
    destruct (Z.eqb_spec k cpu); [lia|done]. }
  assert (Hbind : wayca_sc_irq_bind_cpu irq cpu = Ok (0, Some (text ++ [zero]))).
  { unfold wayca_sc_irq_bind_cpu. rewrite Hopen. cbn [Z.ltb Z.compare]. rewrite Hp. obind.
    specialize (Hwr (text ++ [zero])). by destruct (Z.ltb_spec (irq_write irq (text ++ [zero])) 0); [lia|]. }
  exists text. split; [done|]. unfold wayca_sc_get_irq_bind_cpu.
  rewrite Hopen, (Hrd text Hbind). cbn [Z.ltb Z.compare]. unfold bitmap_str_to_cpumask.
  rewrite length_app. cbn [length]. destruct (Z.leb_spec (Z.of_nat (length text + 1)) 0); [lia|].
  rewrite Hnl. rewrite (CPU_ZERO_eq old) by done. rewrite Hr. obind. cbn [fst snd]. change (negb (0 =? 0)) with false. cbv iota.
  destruct (Z.ltb_spec sizeof_cpu_set_t (CPU_ALLOC_SIZE wayca_sc_cpus_in_total)) as [Hlt|_].
  { unfold sizeof_cpu_set_t, CPU_ALLOC_SIZE, CPU_SETSIZE in *. zdm. }
  fold (CPU_ZERO set). rewrite CPU_ZERO_eq by done. fold (CPU_OR CPU_EMPTY (CPU_SET cpu CPU_EMPTY)).
  do 3 f_equal. apply cpu_set_ext; auto with wayca. intros i Hi. by autorewrite with isset.
Qed.
End bind.

(** ** Examples *)

Module FourCpus.
#[local] Instance topology4 : Topology := {|
  wayca_sc_cpus_in_ccl := 2; wayca_sc_cpus_in_node := 4;
  wayca_sc_cpus_in_package := 4; wayca_sc_cpus_in_total := 4 |}.

(** Interrupt 7 is bound to CPU 2: its file holds the line "4". *)
#[local] Instance files : IrqFiles := {|
  irq_open _ := 0; irq_write _ text := Z.of_nat (length text);
  irq_read _ := inr ([ascii_of_nat 52] ++ [newline]) |}.

Lemma irq_mask_roundtrip_witness :
  exists text, bitmap_scnprintf (CPU_SET_range 30 40 CPU_EMPTY) 100 = Ok text /\
    bitmap_str_to_cpumask 0 (text ++ [newline]) (Z.of_nat (length (text ++ [newline]))) CPU_EMPTY
    = Ok (0, CPU_SET_range 30 40 CPU_EMPTY).
Proof.
  apply irq_mask_roundtrip;
    [apply CPU_SET_range_wf, CPU_EMPTY_wf|apply CPU_EMPTY_wf|unfold CPU_SETSIZE; lia|].
  intros k Hk. unfold CPU_SETSIZE in Hk.
  rewrite CPU_ISSET_range_SET by (apply CPU_EMPTY_wf || (unfold CPU_SETSIZE; lia)).
  rewrite CPU_ISSET_EMPTY by (unfold CPU_SETSIZE; lia).
  destruct (Z.leb_spec 30 k), (Z.ltb_spec k (30 + 40)); (lia || reflexivity).
Defined.

Lemma irq_bind_get_witness :
  exists text, wayca_sc_irq_bind_cpu 7 2 = Ok (0, Some (text ++ [zero])) /\
    wayca_sc_get_irq_bind_cpu 0 CPU_EMPTY 7 sizeof_cpu_set_t (Some CPU_EMPTY) =
    Ok (0, Some (CPU_SET 2 CPU_EMPTY)).
Proof.
  apply (irq_bind_get 7 2 CPU_EMPTY CPU_EMPTY);
    [cbn; lia|cbn; unfold CPU_SETSIZE; lia|apply CPU_EMPTY_wf|apply CPU_EMPTY_wf|reflexivity
    |intros; cbn; lia|].
  intros text H. assert (E : wayca_sc_irq_bind_cpu 7 2 = Ok (0, Some ([ascii_of_nat 52] ++ [zero])))
    by (vm_compute; reflexivity).
  rewrite E in H. assert (H2 : [ascii_of_nat 52] ++ [zero] = text ++ [zero]) by congruence.
  apply app_inj_2 in H2 as [<- _]; reflexivity.
Defined.
End FourCpus.
