(* ===== verification/Log.v ===== *)
(** * Messages

    [lib/log.h] and [lib/log.c]: the level, the time stamp and the macros. The text
    of a message is given after its conversions were carried out; [gmtime_r] of the
    current time is given with each call, NULL when it fails. *)

From Stdlib Require Import Ascii String.
From S2P Require Import Prelude Cstring.

(** enum WAYCA_SC_LOG_LEVEL, an unsigned integer *)
Definition WAYCA_SC_LOG_LEVEL_DEFAULT : Z := 2.
Definition WAYCA_SC_LOG_LEVEL_ERR : Z := 0.
Definition WAYCA_SC_LOG_LEVEL_WARN : Z := 1.
Definition WAYCA_SC_LOG_LEVEL_INFO : Z := 2.

(** [wayca_sc_log_level] and what was written to [stderr]. *)
Record log := mk_log {
  wayca_sc_log_level : Z;
  stderr : cstring;
}.

(** A static variable without an initializer. *)
Definition log_start : log := mk_log 0 [].

Definition wayca_sc_set_log_level (level : Z) : M log unit :=
  modify (fun l => mk_log (to_uint level) (stderr l)).

Definition put_stderr (s : cstring) : M log unit :=
  modify (fun l => mk_log (wayca_sc_log_level l) (stderr l ++ s)).

(** ** Conversions *)

(** [%d] *)
Definition print_d (n : Z) : cstring :=
  if n <? 0 then s2l "-"%string ++ print_num 10 (- n) else print_num 10 n.

(** [%0<width>d] *)
Definition print_0d (width : nat) (n : Z) : cstring :=
  let digits := print_num 10 (Z.abs n) in
  let sign := if n <? 0 then s2l "-"%string else [] in
  sign ++ replicate (width - length sign - length digits) "0"%char ++ digits.

(** ** The macros *)

Definition esc : ascii := ascii_of_nat 27.
Definition Reset : cstring := esc :: s2l "[0m"%string.
Definition Red (s : cstring) : cstring := esc :: s2l "[31m"%string ++ s ++ Reset.
Definition Yellow (s : cstring) : cstring := esc :: s2l "[33m"%string ++ s ++ Reset.

(** struct tm *)
Record tm := mk_tm {
  tm_year : Z;  (** years since 1900 *)
  tm_mon : Z;  (** 0 to 11 *)
  tm_mday : Z;
  tm_hour : Z;
  tm_min : Z;
  tm_sec : Z;
}.

Definition logTimeStamp (tm_p : option tm) : M log unit :=
  match tm_p with
  | None => mret tt
  | Some tm =>
    put_stderr (s2l "["%string ++ print_0d 4 (tm_year tm + 1900) ++ s2l "-"%string ++
      print_0d 2 (tm_mon tm) ++ s2l "-"%string ++ print_0d 2 (tm_mday tm) ++ s2l " "%string ++
      print_0d 2 (tm_hour tm) ++ s2l ":"%string ++ print_0d 2 (tm_min tm) ++ s2l ":"%string ++
      print_0d 2 (tm_sec tm) ++ s2l "]"%string)
  end.

Definition _log (tm_p : option tm) (conn : bool) (s : cstring) : M log unit :=
  when (negb conn) (logTimeStamp tm_p);;
  put_stderr s.

(** [if (wayca_sc_log_level >= level) ...] *)
Definition at_level (level : Z) (m : M log unit) : M log unit :=
  current ← gets wayca_sc_log_level;
  when (level <=? current) m.

Definition error_banner : cstring := Red (s2l "[Error] "%string).
Definition warning_banner : cstring := Yellow (s2l "[Warning] "%string).

Definition WAYCA_SC_LOG_ERR (now : option tm) (s : cstring) : M log unit :=
  at_level WAYCA_SC_LOG_LEVEL_ERR (_log now false (error_banner ++ s)).
Definition WAYCA_SC_LOG_ERR_CONN (s : cstring) : M log unit :=
  at_level WAYCA_SC_LOG_LEVEL_ERR (_log None true s).
Definition WAYCA_SC_LOG_ERR_NO_TS (s : cstring) : M log unit :=
  at_level WAYCA_SC_LOG_LEVEL_ERR (_log None true (error_banner ++ s)).
Definition WAYCA_SC_LOG_WARN (now : option tm) (s : cstring) : M log unit :=
  at_level WAYCA_SC_LOG_LEVEL_WARN (_log now false (warning_banner ++ s)).
Definition WAYCA_SC_LOG_WARN_CONN (s : cstring) : M log unit :=
  at_level WAYCA_SC_LOG_LEVEL_WARN (_log None true s).
Definition WAYCA_SC_LOG_WARN_NO_TS (s : cstring) : M log unit :=
  at_level WAYCA_SC_LOG_LEVEL_WARN (_log None true (warning_banner ++ s)).
Definition WAYCA_SC_LOG_INFO (now : option tm) (s : cstring) : M log unit :=
  at_level WAYCA_SC_LOG_LEVEL_INFO (_log now false s).
Definition WAYCA_SC_LOG_INFO_CONN (s : cstring) : M log unit :=
  at_level WAYCA_SC_LOG_LEVEL_INFO (_log None true s).
Definition WAYCA_SC_LOG_INFO_NO_TS (s : cstring) : M log unit := WAYCA_SC_LOG_INFO_CONN s.

(** ** A sequence of messages *)

Inductive severity := ERR | WARN | INFO.
Inductive style := FULL (now : option tm) | CONN | NO_TS.

Record message := mk_message {
  m_severity : severity;
  m_style : style;
  m_text : cstring;
}.

Definition log_message (m : message) : M log unit :=
  match m_severity m, m_style m with
  | ERR, FULL now => WAYCA_SC_LOG_ERR now (m_text m)
  | ERR, CONN => WAYCA_SC_LOG_ERR_CONN (m_text m)
  | ERR, NO_TS => WAYCA_SC_LOG_ERR_NO_TS (m_text m)
  | WARN, FULL now => WAYCA_SC_LOG_WARN now (m_text m)
  | WARN, CONN => WAYCA_SC_LOG_WARN_CONN (m_text m)
  | WARN, NO_TS => WAYCA_SC_LOG_WARN_NO_TS (m_text m)
  | INFO, FULL now => WAYCA_SC_LOG_INFO now (m_text m)
  | INFO, CONN => WAYCA_SC_LOG_INFO_CONN (m_text m)
  | INFO, NO_TS => WAYCA_SC_LOG_INFO_NO_TS (m_text m)
  end.

Fixpoint log_all (ms : list message) : M log unit :=
  match ms with
  | [] => mret tt
  | m :: ms => log_message m;; log_all ms
  end.

(** What a message looks like when it is printed, and from which level on it is. *)
Definition level_of (s : severity) : Z :=
  match s with ERR => 0 | WARN => 1 | INFO => 2 end.
Definition banner (s : severity) : cstring :=
  match s with ERR => error_banner | WARN => warning_banner | INFO => [] end.
Definition stamp (now : option tm) : cstring :=
  match logTimeStamp now log_start with Ok (_, l) => stderr l | Fault _ => [] end.
Definition look (m : message) : cstring :=
  match m_style m with
  | FULL now => stamp now ++ banner (m_severity m) ++ m_text m
  | CONN => m_text m
  | NO_TS => banner (m_severity m) ++ m_text m
  end.

Definition shown (level : Z) (m : message) : bool := level_of (m_severity m) <=? level.

(** ** Which messages appear *)

Lemma log_stamp now l : logTimeStamp now l = Ok (tt, mk_log (wayca_sc_log_level l) (stderr l ++ stamp now)).
Proof. destruct l, now; [done|]. unfold stamp. simpl. by rewrite app_nil_r. Qed.

Lemma log_one m l :
  log_message m l = Ok (tt, mk_log (wayca_sc_log_level l)
    (stderr l ++ if shown (wayca_sc_log_level l) m then look m else [])).
Proof.
  destruct m as [s y t], l as [level err].
  destruct s, y; unfold log_message, WAYCA_SC_LOG_INFO_NO_TS, WAYCA_SC_LOG_ERR, WAYCA_SC_LOG_ERR_CONN,
    WAYCA_SC_LOG_ERR_NO_TS, WAYCA_SC_LOG_WARN, WAYCA_SC_LOG_WARN_CONN, WAYCA_SC_LOG_WARN_NO_TS,
    WAYCA_SC_LOG_INFO, WAYCA_SC_LOG_INFO_CONN, at_level, shown, level_of, look, banner;
  cbn [m_severity m_style m_text wayca_sc_log_level stderr];
  erewrite M_bind_ok by reflexivity; cbn [wayca_sc_log_level];
  unfold WAYCA_SC_LOG_LEVEL_ERR, WAYCA_SC_LOG_LEVEL_WARN, WAYCA_SC_LOG_LEVEL_INFO;
  (case_match; [|by rewrite app_nil_r]); unfold when, _log; cbn [negb when];
  try (erewrite M_bind_ok by apply log_stamp); unfold put_stderr, modify;
  cbn [wayca_sc_log_level stderr]; rewrite <- ?app_assoc; done.
Qed.

(** The messages of a program appear in their order, those above the level left out. *)
Theorem log_all_filters ms l :
  log_all ms l = Ok (tt, mk_log (wayca_sc_log_level l)
    (stderr l ++ concat (map look (List.filter (shown (wayca_sc_log_level l)) ms)))).
Proof.
  revert l. induction ms as [|m ms IH]; intros l; cbn [log_all].
  { destruct l. simpl. by rewrite app_nil_r. }
  rewrite (M_bind_ok _ _ _ _ _ (log_one m l)), IH. cbn [wayca_sc_log_level stderr List.filter].
  destruct (shown _ m); cbn [map concat]; by rewrite <- ?app_assoc.
Qed.

(** A higher level shows what a lower one shows. *)
Theorem higher_level_shows_more ms level level' :
  level <= level' -> List.filter (shown level) (List.filter (shown level') ms) = List.filter (shown level) ms.
Proof.
  intros Hl. induction ms as [|m ms IH]; [done|]. cbn [List.filter].
  destruct (shown level' m) eqn:E'; cbn [List.filter]; rewrite IH; [done|].
  destruct (shown level m) eqn:E; [|done]. unfold shown in *. zbool. lia.
Qed.

(** Before any call of [wayca_sc_set_log_level] only errors are shown, although the
    default level is the most verbose one. *)
Theorem initial_level_hides_warnings ms :
  log_all ms log_start = Ok (tt, mk_log 0
    (concat (map look (List.filter (fun m => match m_severity m with ERR => true | _ => false end) ms)))).
Proof.
  rewrite log_all_filters. cbn [wayca_sc_log_level stderr log_start app].
  erewrite filter_ext; [done|]. intros m. unfold shown. by destruct (m_severity m).
Qed.

(** The first of January 2024 is stamped as month 0. *)
Theorem stamp_month_from_zero :
  stamp (Some (mk_tm 124 0 1 8 5 9)) = s2l "[2024-00-01 08:05:09]"%string.
Proof. vm_compute. reflexivity. Qed.
