(* ===== verification/Cpulist.v ===== *)
(** * CPU lists of sysfs

    [nexttoken], [nextnumber] and [cpulist_parse] of [lib/topo.c]: the parser of
    the lists of CPU ranges that the kernel prints. A pointer into the string is
    the rest of the string from there on; NULL is [None]. *)

From S2P Require Import Prelude Bitops Cpuset Cstring Dynset State Group Affinity.

(** ** lib/topo.c *)

Definition nexttoken (q : option cstring) (sep : Z) : option cstring :=
  match q with
  | None => None
  | Some q =>
    match strchr q sep with
    | None => None
    | Some q => Some (advance q)
    end
  end.

(** A negative error number, or the number and the end pointer. *)
Definition nextnumber (str : option cstring) : Z + Z * cstring :=
  match str with
  | None | Some [] => inl (- EINVAL)
  | Some ((c :: _) as s) =>
    if negb (isdigit c) then inl (- EINVAL) else
    let '(v, erange, end_) := strtoul 10 s in
    if erange then inl (- ERANGE)
    else if decide (end_ = s) then inl (- EINVAL)
    else inr (to_uint v, end_)
  end.

(** [c1 < c2] for two pointers into one string. *)
Definition ptr_lt (c1 c2 : cstring) : bool := (length c2 <? length c1)%nat.

(** [c1 != NULL && (c2 == NULL || c1 < c2)] *)
Definition before (c1 c2 : option cstring) : bool :=
  match c1, c2 with
  | None, _ => false
  | Some _, None => true
  | Some c1, Some c2 => ptr_lt c1 c2
  end.

(** [end && *end] *)
Definition more (end_ : option cstring) : bool :=
  match end_ with Some (_ :: _) => true | _ => false end.

(** The range and the stride at [p] and the end pointer; [None] is [return 1]. *)
Definition cpulist_element (p : cstring) : option (Z * Z * Z * cstring) :=
  match nextnumber (Some p) with
  | inl _ => None
  | inr (a, p) =>
    let c1 := nexttoken (Some p) 45 (* '-' *) in
    let c2 := nexttoken (Some p) 44 (* ',' *) in
    if before c1 c2 then
      match nextnumber c1 with
      | inl _ => None
      | inr (b, end_) =>
        let c1 := if more (Some end_) then nexttoken (Some end_) 58 (* ':' *) else None in
        if before c1 c2 then
          match nextnumber c1 with
          | inl _ => None
          | inr (s, end_) => if s =? 0 then None else Some (a, b, s, end_)
          end
        else Some (a, b, 1, end_)
      end
    else Some (a, a, 1, p)
  end.

(** [while (a <= b)] over [unsigned int]s. The first component is false after
    [return 2]. *)
Fixpoint set_cpus_loop (fuel : nat) (a b s max setsize : Z) (fail : bool) (set : cpu_set_t)
    : outcome (bool * cpu_set_t) :=
  match fuel with
  | O => Fault OutOfFuel
  | S fuel =>
    if a <=? b then
      if fail && (max <=? a) then Ok (false, set)
      else set_cpus_loop fuel (to_uint (a + s)) b s max setsize fail (CPU_SET_S a setsize set)
    else Ok (true, set)
  end.

(** The turns that the loop takes when [a] does not wrap around. *)
Definition range_fuel (a b s : Z) : nat := Z.to_nat ((b - a) / s + 2).

Fixpoint cpulist_parse_loop (fuel : nat) (q end_ : option cstring) (setsize : Z) (fail : bool)
    (set : cpu_set_t) : outcome (Z * cpu_set_t) :=
  match fuel with
  | O => Fault OutOfFuel
  | S fuel =>
    match q with
    | None => Ok (if more end_ then 1 else 0, set)
    | Some p =>
      let q := nexttoken q 44 in
      match cpulist_element p with
      | None => Ok (1, set)
      | Some (a, b, s, end_) =>
        if negb (a <=? b) then Ok (1, set) else
        r ← set_cpus_loop (range_fuel a b s) a b s (8 * setsize) setsize fail set;
        if negb r.1 then Ok (2, r.2)
        else cpulist_parse_loop fuel q (Some end_) setsize fail r.2
      end
    end
  end.

(** The result and the set. *)
Definition cpulist_parse (str : cstring) (set : cpu_set_t) (setsize : Z) (fail : bool)
    : outcome (Z * cpu_set_t) :=
  cpulist_parse_loop (S (S (length str))) (Some str) None setsize fail (CPU_ZERO_S setsize set).

(** ** Searching in printed text *)

Lemma strchr_app_notin u r x :
  Forall (fun c => code c <> x) u -> strchr (u ++ r) x = strchr r x.
Proof.
  induction 1 as [|c u Hc _ IH]; [done|]. cbn [app strchr].
  by destruct (Z.eqb_spec (code c) x).
Qed.

Lemma print_num_codes n : 0 <= n -> Forall (fun c => 48 <= code c <= 57) (print_num 10 n).
Proof.
  intros Hn. unfold print_num. apply Forall_fmap.
  eapply Forall_impl; [apply (udigits_range 64 10); lia|]. intros d Hd. cbn in Hd |- *.
  rewrite digit_char_code by lia. destruct (Z.ltb_spec d 10); lia.
Qed.

Lemma strchr_print n r x :
  0 <= n -> ~ (48 <= x <= 57) -> strchr (print_num 10 n ++ r) x = strchr r x.
Proof.
  intros Hn Hx. apply strchr_app_notin.
  eapply Forall_impl; [by apply print_num_codes|]. intros c Hc E. cbn in Hc. lia.
Qed.

Lemma strchr_length s x t : strchr s x = Some t -> (0 < length t <= length s)%nat.
Proof.
  revert t. induction s as [|c s IH]; intros t; cbn [strchr]; [done|].
  destruct (code c =? x); [intros [= <-]; simpl; lia|]. intros H%IH. simpl. lia.
Qed.

Lemma nextnumber_print n r :
  0 <= n < 2 ^ 32 -> ends_number 10 r ->
  nextnumber (Some (print_num 10 n ++ r)) = inr (n, r).
Proof.
  intros Hn Hr. pose proof (strtoul_print 10 n r ltac:(lia)) as Hs.
  destruct (print_num_head 10 n) as (c & s & E & d & Hd & -> & Hdr); [lia|lia|].
  rewrite E in *. unfold nextnumber. cbn [app] in *.
  assert (Hdig : isdigit (digit_char d) = true).
  { unfold isdigit, in_codes. rewrite digit_char_code by lia.
    destruct (Z.ltb_spec d 10); [|lia]. apply andb_true_intro. split; apply Z.leb_le; lia. }
  rewrite Hdig. cbn [negb]. rewrite Hs; [|unfold is_word; lia|done].
  rewrite decide_False.
  - unfold to_uint. by rewrite Z.mod_small.
  - intros H. apply (f_equal length) in H. cbn [length] in H. rewrite length_app in H. lia.
Qed.

(** Behind a comma, a separator that comes later is not before the comma. *)
Lemma not_before_comma s x :
  before (nexttoken (Some (comma :: s)) x) (Some s) = false \/ x = 44.
Proof.
  destruct (decide (x = 44)) as [->|Hx]; [by right|left]. cbn [nexttoken strchr].
  change (code comma) with 44. destruct (Z.eqb_spec 44 x); [lia|].
  destruct (strchr s x) as [t|] eqn:E; [|done]. apply strchr_length in E. cbn.
  unfold ptr_lt. destruct t as [|c t]; [simpl in *; lia|]. cbn [advance length] in *.
  apply Nat.ltb_ge. lia.
Qed.

Lemma ends_rest rest : ends_element rest -> ends_number 10 rest.
Proof. intros [->|[s ->]]; [done|]. by apply (ends_number_sep _ comma s); [right|]. Qed.

Lemma codes_ne u x : Forall (fun c => 48 <= code c <= 57) u -> ~ (48 <= x <= 57) ->
  Forall (fun c => code c <> x) u.
Proof. intros H Hx. eapply Forall_impl; [done|]. intros c Hc E. cbn in Hc. lia. Qed.

(** ** One element *)

(** An element whose numbers fit into an [unsigned int], with room for the last
    step of the loop. *)
Record cpu_item_ok (it : item) : Prop := {
  ci_start : 0 <= item_start it <= item_end it;
  ci_stride : 1 <= item_stride it;
  ci_end : item_end it + item_stride it < 2 ^ 32;
}.

(** Text between the number and the rest, and what the two searches find. *)
Lemma comma_token u rest :
  Forall (fun c => code c <> 44) u -> ends_element rest ->
  nexttoken (Some (u ++ rest)) 44 = match rest with [] => None | _ :: s => Some s end.
Proof.
  intros Hu Hr. unfold nexttoken. rewrite strchr_app_notin by done.
  by destruct Hr as [->|[s ->]].
Qed.

Lemma not_before_rest rest x :
  ends_element rest -> x <> 44 ->
  before (if more (Some rest) then nexttoken (Some rest) x else None)
    (match rest with [] => None | _ :: s => Some s end) = false.
Proof.
  intros [->|[s ->]] Hx; [done|]. cbn [more].
  by destruct (not_before_comma s x) as [|].
Qed.

Lemma before_later u rest :
  before (Some (u ++ rest)) (match rest with [] => None | _ :: s => Some s end) = true.
Proof.
  destruct rest as [|c s]; [done|]. cbn. unfold ptr_lt. apply Nat.ltb_lt.
  rewrite length_app. simpl. lia.
Qed.

Lemma print_item_no_comma it : cpu_item_ok it -> Forall (fun c => code c <> 44) (print_item it).
Proof.
  intros [Hs Hk He].
  assert (H : forall n, 0 <= n -> Forall (fun c => code c <> 44) (print_num 10 n))
    by (intros n Hn; apply codes_ne; [by apply print_num_codes|lia]).
  destruct it as [a|a b|a b k]; cbn [print_item item_start item_end item_stride] in *;
    repeat first [apply H; lia | apply Forall_app; split | constructor; [done|]].
Qed.

Lemma cpulist_element_print it rest :
  cpu_item_ok it -> ends_element rest ->
  cpulist_element (print_item it ++ rest) =
  Some (item_start it, item_end it, item_stride it, rest).
Proof.
  intros [Hs Hk He] Hr. pose proof (ends_rest rest Hr) as Hn. unfold cpulist_element.
  destruct it as [a|a b|a b k]; cbn [print_item item_start item_end item_stride] in *.
  - rewrite nextnumber_print by (done || lia).
    assert (Hc : nexttoken (Some rest) 44 = match rest with [] => None | _ :: s => Some s end)
      by (by apply (comma_token [])).
    assert (Hd : before (nexttoken (Some rest) 45) (nexttoken (Some rest) 44) = false).
    { rewrite Hc. pose proof (not_before_rest rest 45 Hr ltac:(lia)) as H.
      by destruct Hr as [->|[s ->]]. }
    by rewrite Hd.
  - pose proof (codes_ne _ 44 (print_num_codes b ltac:(lia)) ltac:(lia)) as Hb.
    rewrite <- app_assoc. cbn [app]. rewrite nextnumber_print by (done || lia).
    change (nexttoken (Some (dash :: ?x)) 45) with (Some x).
    change (dash :: print_num 10 b ++ rest) with ((dash :: print_num 10 b) ++ rest).
    rewrite comma_token by (done || by constructor).
    rewrite before_later, nextnumber_print by (done || lia).
    by rewrite not_before_rest.
  - pose proof (codes_ne _ 44 (print_num_codes b ltac:(lia)) ltac:(lia)) as Hb.
    pose proof (codes_ne _ 44 (print_num_codes k ltac:(lia)) ltac:(lia)) as Hkc.
    rewrite <- !app_assoc. cbn [app]. rewrite <- app_assoc. cbn [app].
    rewrite nextnumber_print by (done || lia).
    change (nexttoken (Some (dash :: ?x)) 45) with (Some x).
    replace (dash :: print_num 10 b ++ colon :: print_num 10 k ++ rest)
      with ((dash :: print_num 10 b ++ colon :: print_num 10 k) ++ rest)
      by (cbn; by rewrite <- app_assoc).
    rewrite comma_token.
    2:{ constructor; [done|]. apply Forall_app. split; [done|]. by constructor. }
    2:{ done. }
    replace (print_num 10 b ++ colon :: print_num 10 k ++ rest)
      with ((print_num 10 b ++ colon :: print_num 10 k) ++ rest) by (by rewrite <- app_assoc).
    rewrite before_later, <- app_assoc, nextnumber_print by (done || lia).
    change (more (Some ((colon :: print_num 10 k) ++ rest))) with true. cbv iota.
    change (nexttoken (Some ((colon :: print_num 10 k) ++ rest)) 58)
      with (Some (print_num 10 k ++ rest)).
    rewrite before_later, nextnumber_print by (done || lia).
    by destruct (Z.eqb_spec k 0); [lia|].
Qed.

(** ** The loop over a range *)

Section range.
Context (k : nat) (Hk : dset_bits k <= 2 ^ 63).

Lemma set_cpus_loop_ok fuel a b s set :
  0 <= a -> 1 <= s -> b + s < 2 ^ 32 -> dset_wf k set ->
  (Z.to_nat (if a <=? b then (b - a) / s + 2 else 1)%Z <= fuel)%nat ->
  exists set', set_cpus_loop fuel a b s (8 * bytes k) (bytes k) false set = Ok (true, set') /\
    dset_wf k set' /\
    forall c, 0 <= c < dset_bits k -> wbit set' c =
      ((a <=? c) && (c <=? b) && ((c - a) mod s =? 0)) || wbit set c.
Proof using Hk.
  intros Ha Hs Hb. revert a Ha set.
  induction fuel as [|fuel IH]; intros a Ha set Hw Hf.
  { destruct (Z.leb_spec a b); [|simpl in Hf; lia].
    assert (0 <= (b - a) / s) by (apply Z.div_pos; lia). lia. }
  cbn [set_cpus_loop andb]. destruct (Z.leb_spec a b) as [Hab|Hab].
  - assert (E : to_uint (a + s) = a + s) by (unfold to_uint; apply Z.mod_small; lia). rewrite E.
    destruct (IH (a + s) ltac:(lia) (CPU_SET_S a (bytes k) set)) as (set' & Hrun & Hw' & Hc');
      [by apply SET_S_wf| |].
    { destruct (Z.leb_spec (a + s) b).
      - replace (b - a) with ((b - (a + s)) + 1 * s) in Hf by lia.
        rewrite Z.div_add in Hf by lia. assert (0 <= (b - (a + s)) / s) by (apply Z.div_pos; lia). lia.
      - assert (0 <= (b - a) / s) by (apply Z.div_pos; lia). lia. }
    exists set'. split; [done|]. split; [done|]. intros c Hc. rewrite Hc' by done.
    destruct (decide (a < dset_bits k)) as [Hlt|Hge].
    + rewrite (wbit_SET_S k Hk) by (done || lia). rewrite orb_assoc. f_equal. by apply stride_step.
    + rewrite SET_S_high by (unfold dset_bits in *; lia).
      destruct (Z.leb_spec (a + s) c), (Z.leb_spec a c); try lia. done.
  - exists set. split; [done|]. split; [done|]. intros c Hc.
    destruct (Z.leb_spec a c), (Z.leb_spec c b); try lia; done.
Qed.
End range.

(** ** The list *)

Section list.
Context (k : nat) (Hk : dset_bits k <= 2 ^ 63).

Lemma cpulist_parse_loop_print fuel l end_ set :
  l <> [] -> Forall cpu_item_ok l -> dset_wf k set -> (length l < fuel)%nat ->
  exists set',
    cpulist_parse_loop fuel (Some (print_list l)) end_ (bytes k) false set = Ok (0, set') /\
    dset_wf k set' /\
    forall c, 0 <= c < dset_bits k -> wbit set' c = existsb (covers c) l || wbit set c.
Proof using Hk.
  intros Hne Hl. revert fuel end_ set.
  induction Hl as [|it l Hit Hl IH]; intros fuel end_ set Hw Hf; [done|].
  destruct fuel as [|fuel]; [simpl in Hf; lia|].
  set (rest := match l with [] => [] | _ => comma :: print_list l end).
  assert (E : print_list (it :: l) = print_item it ++ rest).
  { unfold rest. destruct l; [by rewrite app_nil_r|done]. }
  assert (Hr : ends_element rest) by (unfold rest; destruct l; [by left|right; eauto]).
  pose proof Hit as [Hs Hst He].
  destruct (set_cpus_loop_ok k Hk (range_fuel (item_start it) (item_end it) (item_stride it))
    (item_start it) (item_end it) (item_stride it) set) as (set1 & Hrun & Hw1 & Hc1);
    [lia|lia|lia|done|unfold range_fuel; by destruct (Z.leb_spec (item_start it) (item_end it)); lia|].
  assert (Hcov : forall c, 0 <= c < dset_bits k -> wbit set1 c = covers c it || wbit set c)
    by (intros; by rewrite Hc1).
  cbn [cpulist_parse_loop]. rewrite E, cpulist_element_print by done.
  destruct (Z.leb_spec (item_start it) (item_end it)); [|lia]. cbn [negb].
  rewrite Hrun. obind. cbn [fst snd negb].
  assert (Hq : nexttoken (Some (print_item it ++ rest)) 44 =
               match l with [] => None | _ => Some (print_list l) end).
  { rewrite comma_token; [unfold rest; by destruct l| |done]. by apply print_item_no_comma. }
  rewrite Hq. destruct l as [|it' l].
  - destruct fuel as [|fuel]; [simpl in Hf; lia|]. exists set1. split; [done|]. split; [done|].
    intros c Hc. cbn [existsb]. by rewrite orb_false_r, Hcov.
  - destruct (IH ltac:(done) fuel (Some rest) set1) as (set2 & Hrun2 & Hw2 & Hc2);
      [done|simpl in *; lia|].
    exists set2. split; [done|]. split; [done|]. intros c Hc. rewrite Hc2, Hcov by done.
    change (existsb (covers c) (it :: it' :: l)) with (covers c it || existsb (covers c) (it' :: l)).
    by destruct (covers c it), (existsb (covers c) (it' :: l)).
Qed.

(** C26. [cpulist_parse] reads a list of ranges as the kernel prints it: it
    succeeds, and the set of [k] words holds exactly the CPUs that the list covers
    and that fit, whatever it held before. *)
Theorem cpulist_parse_print l set :
  l <> [] -> Forall cpu_item_ok l -> dset_wf k set ->
  exists set', cpulist_parse (print_list l) set (bytes k) false = Ok (0, set') /\
    dset_wf k set' /\
    forall c, 0 <= c < dset_bits k -> wbit set' c = existsb (covers c) l.
Proof using Hk.
  intros Hne Hl Hw. unfold cpulist_parse. rewrite (ZERO_S_eq k) by done.
  destruct (cpulist_parse_loop_print (S (S (length (print_list l)))) l None (replicate k 0))
    as (set' & Hrun & Hw' & Hc'); [done|done|apply zero_set_wf|pose proof (length_print_list l); lia|].
  exists set'. split; [done|]. split; [done|]. intros c Hc.
  by rewrite Hc', wbit_zero_set, orb_false_r.
Qed.
End list.

Module Sysfs.
(** "0-3,70,64-68:2" in a set of two words *)
Definition l : list item := [Range 0 3; One 70; Stride 64 68 2].

Lemma cpulist_parse_print_witness :
  exists set', cpulist_parse (print_list l) [1; 2] 16 false = Ok (0, set') /\
    wbit set' 66 = true /\ wbit set' 65 = false.
Proof.
  destruct (cpulist_parse_print 2 ltac:(unfold dset_bits; lia) l [1; 2]) as (set' & Hrun & _ & Hc).
  - discriminate.
  - unfold l. repeat (apply List.Forall_cons; [constructor; cbn; lia|]). apply List.Forall_nil.
  - split; [reflexivity|].
    repeat (apply List.Forall_cons; [unfold is_word; lia|]). apply List.Forall_nil.
  - exists set'. split; [exact Hrun|]. split; (rewrite Hc; [reflexivity|unfold dset_bits; lia]).
Defined.
End Sysfs.
