(* ===== verification/TopoState.v ===== *)
(** * The topology: structures, and the files it is read from

    The structures of [lib/topo.h], the static variables of [lib/topo.c], the
    file system that the topology is read from (a parameter that may answer
    differently every time it is asked), and the functions of [lib/topo.c] that
    read one file.

    An array of pointers is a list of options: NULL entries are [None], and the
    array that is NULL itself is the empty list. A pointer to an element of one
    of the arrays of the topology is its index. A set whose allocation failed is
    the empty list of words; the function that sees the failure returns an error
    at once and the whole topology is dropped. *)

From Stdlib Require Import Ascii String.
From S2P Require Import Prelude Bitops Cpuset Cstring Dynset Cpulist.

(** Absolute paths, as their components. *)
Definition path : Type := list cstring.

(** ** struct wayca_cache *)

Record wayca_cache := mk_wayca_cache {
  ch_id : Z;  (** id *)
  ch_level : Z;  (** level *)
  ch_type : cstring;  (** type *)
  ch_allocation_policy : cstring;  (** allocation_policy *)
  ch_write_policy : cstring;  (** write_policy *)
  ch_cache_size : cstring;  (** cache_size *)
  ch_ways_of_associativity : Z;  (** ways_of_associativity *)
  ch_physical_line_partition : Z;  (** physical_line_partition *)
  ch_number_of_sets : Z;  (** number_of_sets *)
  ch_coherency_line_size : Z;  (** coherency_line_size *)
  ch_shared_cpu_map : cpu_set_t;  (** shared_cpu_map *)
}.

(** ** struct wayca_cpu *)

Record wayca_cpu := mk_wayca_cpu {
  u_cpu_id : Z;  (** cpu_id *)
  u_core_id : Z;  (** core_id, -1 when offline *)
  u_p_cluster : option nat;  (** p_cluster: index in ccls *)
  u_p_numa_node : option nat;  (** p_numa_node: index in nodes *)
  u_p_package : option nat;  (** p_package: index in packages *)
  u_core_cpus_map : option cpu_set_t;  (** core_cpus_map *)
  u_n_caches : Z;  (** size_t n_caches *)
  u_p_caches : list wayca_cache;  (** p_caches *)
}.

Definition set_u_cpu_id (v : Z) (x : wayca_cpu) : wayca_cpu :=
  mk_wayca_cpu v (u_core_id x) (u_p_cluster x) (u_p_numa_node x) (u_p_package x)
    (u_core_cpus_map x) (u_n_caches x) (u_p_caches x).
Definition set_u_core_id (v : Z) (x : wayca_cpu) : wayca_cpu :=
  mk_wayca_cpu (u_cpu_id x) v (u_p_cluster x) (u_p_numa_node x) (u_p_package x)
    (u_core_cpus_map x) (u_n_caches x) (u_p_caches x).
Definition set_u_p_cluster (v : option nat) (x : wayca_cpu) : wayca_cpu :=
  mk_wayca_cpu (u_cpu_id x) (u_core_id x) v (u_p_numa_node x) (u_p_package x)
    (u_core_cpus_map x) (u_n_caches x) (u_p_caches x).
Definition set_u_p_numa_node (v : option nat) (x : wayca_cpu) : wayca_cpu :=
  mk_wayca_cpu (u_cpu_id x) (u_core_id x) (u_p_cluster x) v (u_p_package x)
    (u_core_cpus_map x) (u_n_caches x) (u_p_caches x).
Definition set_u_p_package (v : option nat) (x : wayca_cpu) : wayca_cpu :=
  mk_wayca_cpu (u_cpu_id x) (u_core_id x) (u_p_cluster x) (u_p_numa_node x) v
    (u_core_cpus_map x) (u_n_caches x) (u_p_caches x).
Definition set_u_core_cpus_map (v : option cpu_set_t) (x : wayca_cpu) : wayca_cpu :=
  mk_wayca_cpu (u_cpu_id x) (u_core_id x) (u_p_cluster x) (u_p_numa_node x)
    (u_p_package x) v (u_n_caches x) (u_p_caches x).
Definition set_u_n_caches (v : Z) (x : wayca_cpu) : wayca_cpu :=
  mk_wayca_cpu (u_cpu_id x) (u_core_id x) (u_p_cluster x) (u_p_numa_node x)
    (u_p_package x) (u_core_cpus_map x) v (u_p_caches x).
Definition set_u_p_caches (v : list wayca_cache) (x : wayca_cpu) : wayca_cpu :=
  mk_wayca_cpu (u_cpu_id x) (u_core_id x) (u_p_cluster x) (u_p_numa_node x)
    (u_p_package x) (u_core_cpus_map x) (u_n_caches x) v.

(** ** struct wayca_core *)

Record wayca_core := mk_wayca_core {
  c_core_id : Z;  (** core_id *)
  c_n_cpus : Z;  (** size_t n_cpus *)
  c_core_cpus_map : option cpu_set_t;  (** core_cpus_map *)
  c_p_cluster : option nat;  (** p_cluster *)
  c_p_numa_node : option nat;  (** p_numa_node *)
  c_p_package : option nat;  (** p_package *)
  c_n_caches : Z;  (** size_t n_caches *)
  c_p_caches : list wayca_cache;  (** p_caches *)
}.

(** ** struct wayca_cluster *)

Record wayca_cluster := mk_wayca_cluster {
  l_cluster_id : Z;  (** cluster_id *)
  l_n_cpus : Z;  (** size_t n_cpus *)
  l_cpu_map : cpu_set_t;  (** cpu_map *)
  l_core_map : cpu_set_t;  (** core_map *)
}.

Definition set_l_cluster_id (v : Z) (x : wayca_cluster) : wayca_cluster :=
  mk_wayca_cluster v (l_n_cpus x) (l_cpu_map x) (l_core_map x).
Definition set_l_n_cpus (v : Z) (x : wayca_cluster) : wayca_cluster :=
  mk_wayca_cluster (l_cluster_id x) v (l_cpu_map x) (l_core_map x).
Definition set_l_cpu_map (v : cpu_set_t) (x : wayca_cluster) : wayca_cluster :=
  mk_wayca_cluster (l_cluster_id x) (l_n_cpus x) v (l_core_map x).
Definition set_l_core_map (v : cpu_set_t) (x : wayca_cluster) : wayca_cluster :=
  mk_wayca_cluster (l_cluster_id x) (l_n_cpus x) (l_cpu_map x) v.

(** ** struct wayca_smmu *)

Record wayca_smmu := mk_wayca_smmu {
  sm_smmu_idx : Z;  (** smmu_idx *)
  sm_numa_node : Z;  (** numa_node *)
  sm_base_addr : Z;  (** uint64_t base_addr *)
  sm_name : cstring;  (** name *)
  sm_modalias : cstring;  (** modalias *)
}.

Definition set_sm_smmu_idx (v : Z) (x : wayca_smmu) : wayca_smmu :=
  mk_wayca_smmu v (sm_numa_node x) (sm_base_addr x) (sm_name x) (sm_modalias x).
Definition set_sm_numa_node (v : Z) (x : wayca_smmu) : wayca_smmu :=
  mk_wayca_smmu (sm_smmu_idx x) v (sm_base_addr x) (sm_name x) (sm_modalias x).
Definition set_sm_base_addr (v : Z) (x : wayca_smmu) : wayca_smmu :=
  mk_wayca_smmu (sm_smmu_idx x) (sm_numa_node x) v (sm_name x) (sm_modalias x).
Definition set_sm_name (v : cstring) (x : wayca_smmu) : wayca_smmu :=
  mk_wayca_smmu (sm_smmu_idx x) (sm_numa_node x) (sm_base_addr x) v (sm_modalias x).
Definition set_sm_modalias (v : cstring) (x : wayca_smmu) : wayca_smmu :=
  mk_wayca_smmu (sm_smmu_idx x) (sm_numa_node x) (sm_base_addr x) (sm_name x) v.

(** ** struct wayca_device_irqs *)

Record wayca_device_irqs := mk_wayca_device_irqs {
  di_n_irqs : Z;  (** size_t n_irqs *)
  di_irq_numbers : list Z;  (** uint32_t irq_numbers[] *)
}.

Definition set_di_n_irqs (v : Z) (x : wayca_device_irqs) : wayca_device_irqs :=
  mk_wayca_device_irqs v (di_irq_numbers x).
Definition set_di_irq_numbers (v : list Z) (x : wayca_device_irqs) : wayca_device_irqs :=
  mk_wayca_device_irqs (di_n_irqs x) v.

(** ** struct wayca_pci_device *)

Record wayca_pci_device := mk_wayca_pci_device {
  pd_numa_node : Z;  (** numa_node *)
  pd_smmu_idx : Z;  (** smmu_idx, -1 none *)
  pd_enable : Z;  (** enable *)
  pd_absolute_path : cstring;  (** absolute_path *)
  pd_slot_name : cstring;  (** slot_name *)
  pd_local_cpu_map : option cpu_set_t;  (** local_cpu_map *)
  pd_class : Z;  (** unsigned int class *)
  pd_vendor : Z;  (** unsigned short vendor *)
  pd_device : Z;  (** unsigned short device *)
  pd_irqs : wayca_device_irqs;  (** irqs *)
}.

Definition set_pd_numa_node (v : Z) (x : wayca_pci_device) : wayca_pci_device :=
  mk_wayca_pci_device v (pd_smmu_idx x) (pd_enable x) (pd_absolute_path x)
    (pd_slot_name x) (pd_local_cpu_map x) (pd_class x) (pd_vendor x) (pd_device x)
    (pd_irqs x).
Definition set_pd_smmu_idx (v : Z) (x : wayca_pci_device) : wayca_pci_device :=
  mk_wayca_pci_device (pd_numa_node x) v (pd_enable x) (pd_absolute_path x)
    (pd_slot_name x) (pd_local_cpu_map x) (pd_class x) (pd_vendor x) (pd_device x)
    (pd_irqs x).
Definition set_pd_enable (v : Z) (x : wayca_pci_device) : wayca_pci_device :=
  mk_wayca_pci_device (pd_numa_node x) (pd_smmu_idx x) v (pd_absolute_path x)
    (pd_slot_name x) (pd_local_cpu_map x) (pd_class x) (pd_vendor x) (pd_device x)
    (pd_irqs x).
Definition set_pd_absolute_path (v : cstring) (x : wayca_pci_device) : wayca_pci_device :=
  mk_wayca_pci_device (pd_numa_node x) (pd_smmu_idx x) (pd_enable x) v (pd_slot_name
    x) (pd_local_cpu_map x) (pd_class x) (pd_vendor x) (pd_device x) (pd_irqs x).
Definition set_pd_slot_name (v : cstring) (x : wayca_pci_device) : wayca_pci_device :=
  mk_wayca_pci_device (pd_numa_node x) (pd_smmu_idx x) (pd_enable x) (pd_absolute_path
    x) v (pd_local_cpu_map x) (pd_class x) (pd_vendor x) (pd_device x) (pd_irqs x).
Definition set_pd_local_cpu_map (v : option cpu_set_t) (x : wayca_pci_device) : wayca_pci_device :=
  mk_wayca_pci_device (pd_numa_node x) (pd_smmu_idx x) (pd_enable x) (pd_absolute_path
    x) (pd_slot_name x) v (pd_class x) (pd_vendor x) (pd_device x) (pd_irqs x).
Definition set_pd_class (v : Z) (x : wayca_pci_device) : wayca_pci_device :=
  mk_wayca_pci_device (pd_numa_node x) (pd_smmu_idx x) (pd_enable x) (pd_absolute_path
    x) (pd_slot_name x) (pd_local_cpu_map x) v (pd_vendor x) (pd_device x) (pd_irqs
    x).
Definition set_pd_vendor (v : Z) (x : wayca_pci_device) : wayca_pci_device :=
  mk_wayca_pci_device (pd_numa_node x) (pd_smmu_idx x) (pd_enable x) (pd_absolute_path
    x) (pd_slot_name x) (pd_local_cpu_map x) (pd_class x) v (pd_device x) (pd_irqs x).
Definition set_pd_device (v : Z) (x : wayca_pci_device) : wayca_pci_device :=
  mk_wayca_pci_device (pd_numa_node x) (pd_smmu_idx x) (pd_enable x) (pd_absolute_path
    x) (pd_slot_name x) (pd_local_cpu_map x) (pd_class x) (pd_vendor x) v (pd_irqs x).
Definition set_pd_irqs (v : wayca_device_irqs) (x : wayca_pci_device) : wayca_pci_device :=
  mk_wayca_pci_device (pd_numa_node x) (pd_smmu_idx x) (pd_enable x) (pd_absolute_path
    x) (pd_slot_name x) (pd_local_cpu_map x) (pd_class x) (pd_vendor x) (pd_device x)
    v.

(** ** struct wayca_node *)

Record wayca_node := mk_wayca_node {
  nd_node_idx : Z;  (** node_idx *)
  nd_n_cpus : Z;  (** size_t n_cpus *)
  nd_cpu_map : cpu_set_t;  (** cpu_map *)
  nd_core_map : cpu_set_t;  (** core_map *)
  nd_cluster_map : cpu_set_t;  (** cluster_map *)
  nd_distance : list Z;  (** distance *)
  nd_p_meminfo : option Z;  (** p_meminfo: total_avail_kB *)
  nd_n_pcidevs : Z;  (** size_t n_pcidevs *)
  nd_pcidevs : list (option wayca_pci_device);  (** pcidevs *)
  nd_n_smmus : Z;  (** size_t n_smmus *)
  nd_smmus : list (option wayca_smmu);  (** smmus *)
}.

Definition set_nd_node_idx (v : Z) (x : wayca_node) : wayca_node :=
  mk_wayca_node v (nd_n_cpus x) (nd_cpu_map x) (nd_core_map x) (nd_cluster_map x)
    (nd_distance x) (nd_p_meminfo x) (nd_n_pcidevs x) (nd_pcidevs x) (nd_n_smmus x)
    (nd_smmus x).
Definition set_nd_n_cpus (v : Z) (x : wayca_node) : wayca_node :=
  mk_wayca_node (nd_node_idx x) v (nd_cpu_map x) (nd_core_map x) (nd_cluster_map x)
    (nd_distance x) (nd_p_meminfo x) (nd_n_pcidevs x) (nd_pcidevs x) (nd_n_smmus x)
    (nd_smmus x).
Definition set_nd_cpu_map (v : cpu_set_t) (x : wayca_node) : wayca_node :=
  mk_wayca_node (nd_node_idx x) (nd_n_cpus x) v (nd_core_map x) (nd_cluster_map x)
    (nd_distance x) (nd_p_meminfo x) (nd_n_pcidevs x) (nd_pcidevs x) (nd_n_smmus x)
    (nd_smmus x).
Definition set_nd_core_map (v : cpu_set_t) (x : wayca_node) : wayca_node :=
  mk_wayca_node (nd_node_idx x) (nd_n_cpus x) (nd_cpu_map x) v (nd_cluster_map x)
    (nd_distance x) (nd_p_meminfo x) (nd_n_pcidevs x) (nd_pcidevs x) (nd_n_smmus x)
    (nd_smmus x).
Definition set_nd_cluster_map (v : cpu_set_t) (x : wayca_node) : wayca_node :=
  mk_wayca_node (nd_node_idx x) (nd_n_cpus x) (nd_cpu_map x) (nd_core_map x) v
    (nd_distance x) (nd_p_meminfo x) (nd_n_pcidevs x) (nd_pcidevs x) (nd_n_smmus x)
    (nd_smmus x).
Definition set_nd_distance (v : list Z) (x : wayca_node) : wayca_node :=
  mk_wayca_node (nd_node_idx x) (nd_n_cpus x) (nd_cpu_map x) (nd_core_map x)
    (nd_cluster_map x) v (nd_p_meminfo x) (nd_n_pcidevs x) (nd_pcidevs x) (nd_n_smmus
    x) (nd_smmus x).
Definition set_nd_p_meminfo (v : option Z) (x : wayca_node) : wayca_node :=
  mk_wayca_node (nd_node_idx x) (nd_n_cpus x) (nd_cpu_map x) (nd_core_map x)
    (nd_cluster_map x) (nd_distance x) v (nd_n_pcidevs x) (nd_pcidevs x) (nd_n_smmus
    x) (nd_smmus x).
Definition set_nd_n_pcidevs (v : Z) (x : wayca_node) : wayca_node :=
  mk_wayca_node (nd_node_idx x) (nd_n_cpus x) (nd_cpu_map x) (nd_core_map x)
    (nd_cluster_map x) (nd_distance x) (nd_p_meminfo x) v (nd_pcidevs x) (nd_n_smmus
    x) (nd_smmus x).
Definition set_nd_pcidevs (v : list (option wayca_pci_device)) (x : wayca_node) : wayca_node :=
  mk_wayca_node (nd_node_idx x) (nd_n_cpus x) (nd_cpu_map x) (nd_core_map x)
    (nd_cluster_map x) (nd_distance x) (nd_p_meminfo x) (nd_n_pcidevs x) v (nd_n_smmus
    x) (nd_smmus x).
Definition set_nd_n_smmus (v : Z) (x : wayca_node) : wayca_node :=
  mk_wayca_node (nd_node_idx x) (nd_n_cpus x) (nd_cpu_map x) (nd_core_map x)
    (nd_cluster_map x) (nd_distance x) (nd_p_meminfo x) (nd_n_pcidevs x) (nd_pcidevs
    x) v (nd_smmus x).
Definition set_nd_smmus (v : list (option wayca_smmu)) (x : wayca_node) : wayca_node :=
  mk_wayca_node (nd_node_idx x) (nd_n_cpus x) (nd_cpu_map x) (nd_core_map x)
    (nd_cluster_map x) (nd_distance x) (nd_p_meminfo x) (nd_n_pcidevs x) (nd_pcidevs
    x) (nd_n_smmus x) v.

(** ** struct wayca_package *)

Record wayca_package := mk_wayca_package {
  pk_physical_package_id : Z;  (** physical_package_id *)
  pk_n_cpus : Z;  (** size_t n_cpus *)
  pk_cpu_map : cpu_set_t;  (** cpu_map *)
  pk_numa_map : cpu_set_t;  (** numa_map *)
}.

Definition set_pk_physical_package_id (v : Z) (x : wayca_package) : wayca_package :=
  mk_wayca_package v (pk_n_cpus x) (pk_cpu_map x) (pk_numa_map x).
Definition set_pk_n_cpus (v : Z) (x : wayca_package) : wayca_package :=
  mk_wayca_package (pk_physical_package_id x) v (pk_cpu_map x) (pk_numa_map x).
Definition set_pk_cpu_map (v : cpu_set_t) (x : wayca_package) : wayca_package :=
  mk_wayca_package (pk_physical_package_id x) (pk_n_cpus x) v (pk_numa_map x).
Definition set_pk_numa_map (v : cpu_set_t) (x : wayca_package) : wayca_package :=
  mk_wayca_package (pk_physical_package_id x) (pk_n_cpus x) (pk_cpu_map x) v.

(** ** struct wayca_irq *)

Record wayca_irq := mk_wayca_irq {
  i_irq_number : Z;  (** uint32_t irq_number *)
  i_chip_name : Z;  (** chip_name *)
  i_type : Z;  (** type *)
  i_name : cstring;  (** name *)
}.

(** ** struct wayca_topo *)

Record wayca_topo := mk_wayca_topo {
  tp_kernel_max_cpus : Z;  (** kernel_max_cpus *)
  tp_setsize : Z;  (** size_t setsize *)
  tp_n_cpus : Z;  (** size_t n_cpus *)
  tp_cpu_map : cpu_set_t;  (** cpu_map *)
  tp_online_cpu_map : cpu_set_t;  (** online_cpu_map *)
  tp_cpus : list (option wayca_cpu);  (** cpus *)
  tp_n_cores : Z;  (** size_t n_cores *)
  tp_cores : list (option wayca_core);  (** cores *)
  tp_n_clusters : Z;  (** size_t n_clusters *)
  tp_ccls : list (option wayca_cluster);  (** ccls *)
  tp_n_nodes : Z;  (** size_t n_nodes *)
  tp_node_map : cpu_set_t;  (** node_map *)
  tp_nodes : list (option wayca_node);  (** nodes *)
  tp_n_packages : Z;  (** size_t n_packages *)
  tp_packages : list (option wayca_package);  (** packages *)
  tp_n_irqs : Z;  (** size_t n_irqs *)
  tp_irqs : option (list wayca_irq);  (** irqs, NULL until they are read *)
}.

Definition set_tp_kernel_max_cpus (v : Z) (x : wayca_topo) : wayca_topo :=
  mk_wayca_topo v (tp_setsize x) (tp_n_cpus x) (tp_cpu_map x) (tp_online_cpu_map x)
    (tp_cpus x) (tp_n_cores x) (tp_cores x) (tp_n_clusters x) (tp_ccls x) (tp_n_nodes
    x) (tp_node_map x) (tp_nodes x) (tp_n_packages x) (tp_packages x) (tp_n_irqs x)
    (tp_irqs x).
Definition set_tp_setsize (v : Z) (x : wayca_topo) : wayca_topo :=
  mk_wayca_topo (tp_kernel_max_cpus x) v (tp_n_cpus x) (tp_cpu_map x)
    (tp_online_cpu_map x) (tp_cpus x) (tp_n_cores x) (tp_cores x) (tp_n_clusters x)
    (tp_ccls x) (tp_n_nodes x) (tp_node_map x) (tp_nodes x) (tp_n_packages x)
    (tp_packages x) (tp_n_irqs x) (tp_irqs x).
Definition set_tp_n_cpus (v : Z) (x : wayca_topo) : wayca_topo :=
  mk_wayca_topo (tp_kernel_max_cpus x) (tp_setsize x) v (tp_cpu_map x)
    (tp_online_cpu_map x) (tp_cpus x) (tp_n_cores x) (tp_cores x) (tp_n_clusters x)
    (tp_ccls x) (tp_n_nodes x) (tp_node_map x) (tp_nodes x) (tp_n_packages x)
    (tp_packages x) (tp_n_irqs x) (tp_irqs x).
Definition set_tp_cpu_map (v : cpu_set_t) (x : wayca_topo) : wayca_topo :=
  mk_wayca_topo (tp_kernel_max_cpus x) (tp_setsize x) (tp_n_cpus x) v
    (tp_online_cpu_map x) (tp_cpus x) (tp_n_cores x) (tp_cores x) (tp_n_clusters x)
    (tp_ccls x) (tp_n_nodes x) (tp_node_map x) (tp_nodes x) (tp_n_packages x)
    (tp_packages x) (tp_n_irqs x) (tp_irqs x).
Definition set_tp_online_cpu_map (v : cpu_set_t) (x : wayca_topo) : wayca_topo :=
  mk_wayca_topo (tp_kernel_max_cpus x) (tp_setsize x) (tp_n_cpus x) (tp_cpu_map x) v
    (tp_cpus x) (tp_n_cores x) (tp_cores x) (tp_n_clusters x) (tp_ccls x) (tp_n_nodes
    x) (tp_node_map x) (tp_nodes x) (tp_n_packages x) (tp_packages x) (tp_n_irqs x)
    (tp_irqs x).
Definition set_tp_cpus (v : list (option wayca_cpu)) (x : wayca_topo) : wayca_topo :=
  mk_wayca_topo (tp_kernel_max_cpus x) (tp_setsize x) (tp_n_cpus x) (tp_cpu_map x)
    (tp_online_cpu_map x) v (tp_n_cores x) (tp_cores x) (tp_n_clusters x) (tp_ccls x)
    (tp_n_nodes x) (tp_node_map x) (tp_nodes x) (tp_n_packages x) (tp_packages x)
    (tp_n_irqs x) (tp_irqs x).
Definition set_tp_n_cores (v : Z) (x : wayca_topo) : wayca_topo :=
  mk_wayca_topo (tp_kernel_max_cpus x) (tp_setsize x) (tp_n_cpus x) (tp_cpu_map x)
    (tp_online_cpu_map x) (tp_cpus x) v (tp_cores x) (tp_n_clusters x) (tp_ccls x)
    (tp_n_nodes x) (tp_node_map x) (tp_nodes x) (tp_n_packages x) (tp_packages x)
    (tp_n_irqs x) (tp_irqs x).
Definition set_tp_cores (v : list (option wayca_core)) (x : wayca_topo) : wayca_topo :=
  mk_wayca_topo (tp_kernel_max_cpus x) (tp_setsize x) (tp_n_cpus x) (tp_cpu_map x)
    (tp_online_cpu_map x) (tp_cpus x) (tp_n_cores x) v (tp_n_clusters x) (tp_ccls x)
    (tp_n_nodes x) (tp_node_map x) (tp_nodes x) (tp_n_packages x) (tp_packages x)
    (tp_n_irqs x) (tp_irqs x).
Definition set_tp_n_clusters (v : Z) (x : wayca_topo) : wayca_topo :=
  mk_wayca_topo (tp_kernel_max_cpus x) (tp_setsize x) (tp_n_cpus x) (tp_cpu_map x)
    (tp_online_cpu_map x) (tp_cpus x) (tp_n_cores x) (tp_cores x) v (tp_ccls x)
    (tp_n_nodes x) (tp_node_map x) (tp_nodes x) (tp_n_packages x) (tp_packages x)
    (tp_n_irqs x) (tp_irqs x).
Definition set_tp_ccls (v : list (option wayca_cluster)) (x : wayca_topo) : wayca_topo :=
  mk_wayca_topo (tp_kernel_max_cpus x) (tp_setsize x) (tp_n_cpus x) (tp_cpu_map x)
    (tp_online_cpu_map x) (tp_cpus x) (tp_n_cores x) (tp_cores x) (tp_n_clusters x) v
    (tp_n_nodes x) (tp_node_map x) (tp_nodes x) (tp_n_packages x) (tp_packages x)
    (tp_n_irqs x) (tp_irqs x).
Definition set_tp_n_nodes (v : Z) (x : wayca_topo) : wayca_topo :=
  mk_wayca_topo (tp_kernel_max_cpus x) (tp_setsize x) (tp_n_cpus x) (tp_cpu_map x)
    (tp_online_cpu_map x) (tp_cpus x) (tp_n_cores x) (tp_cores x) (tp_n_clusters x)
    (tp_ccls x) v (tp_node_map x) (tp_nodes x) (tp_n_packages x) (tp_packages x)
    (tp_n_irqs x) (tp_irqs x).
Definition set_tp_node_map (v : cpu_set_t) (x : wayca_topo) : wayca_topo :=
  mk_wayca_topo (tp_kernel_max_cpus x) (tp_setsize x) (tp_n_cpus x) (tp_cpu_map x)
    (tp_online_cpu_map x) (tp_cpus x) (tp_n_cores x) (tp_cores x) (tp_n_clusters x)
    (tp_ccls x) (tp_n_nodes x) v (tp_nodes x) (tp_n_packages x) (tp_packages x)
    (tp_n_irqs x) (tp_irqs x).
Definition set_tp_nodes (v : list (option wayca_node)) (x : wayca_topo) : wayca_topo :=
  mk_wayca_topo (tp_kernel_max_cpus x) (tp_setsize x) (tp_n_cpus x) (tp_cpu_map x)
    (tp_online_cpu_map x) (tp_cpus x) (tp_n_cores x) (tp_cores x) (tp_n_clusters x)
    (tp_ccls x) (tp_n_nodes x) (tp_node_map x) v (tp_n_packages x) (tp_packages x)
    (tp_n_irqs x) (tp_irqs x).
Definition set_tp_n_packages (v : Z) (x : wayca_topo) : wayca_topo :=
  mk_wayca_topo (tp_kernel_max_cpus x) (tp_setsize x) (tp_n_cpus x) (tp_cpu_map x)
    (tp_online_cpu_map x) (tp_cpus x) (tp_n_cores x) (tp_cores x) (tp_n_clusters x)
    (tp_ccls x) (tp_n_nodes x) (tp_node_map x) (tp_nodes x) v (tp_packages x)
    (tp_n_irqs x) (tp_irqs x).
Definition set_tp_packages (v : list (option wayca_package)) (x : wayca_topo) : wayca_topo :=
  mk_wayca_topo (tp_kernel_max_cpus x) (tp_setsize x) (tp_n_cpus x) (tp_cpu_map x)
    (tp_online_cpu_map x) (tp_cpus x) (tp_n_cores x) (tp_cores x) (tp_n_clusters x)
    (tp_ccls x) (tp_n_nodes x) (tp_node_map x) (tp_nodes x) (tp_n_packages x) v
    (tp_n_irqs x) (tp_irqs x).
Definition set_tp_n_irqs (v : Z) (x : wayca_topo) : wayca_topo :=
  mk_wayca_topo (tp_kernel_max_cpus x) (tp_setsize x) (tp_n_cpus x) (tp_cpu_map x)
    (tp_online_cpu_map x) (tp_cpus x) (tp_n_cores x) (tp_cores x) (tp_n_clusters x)
    (tp_ccls x) (tp_n_nodes x) (tp_node_map x) (tp_nodes x) (tp_n_packages x)
    (tp_packages x) v (tp_irqs x).
Definition set_tp_irqs (v : option (list wayca_irq)) (x : wayca_topo) : wayca_topo :=
  mk_wayca_topo (tp_kernel_max_cpus x) (tp_setsize x) (tp_n_cpus x) (tp_cpu_map x)
    (tp_online_cpu_map x) (tp_cpus x) (tp_n_cores x) (tp_cores x) (tp_n_clusters x)
    (tp_ccls x) (tp_n_nodes x) (tp_node_map x) (tp_nodes x) (tp_n_packages x)
    (tp_packages x) (tp_n_irqs x) v.

(** ** The static variables of lib/topo.c, and the time *)

Record world := mk_world {
  w_topo : wayca_topo;  (** topo *)
  w_max_cores : Z;  (** max_cores *)
  w_max_ccls : Z;  (** max_ccls *)
  w_max_node_index : Z;  (** the static variable of topo_parse_cpu_node_info *)
  w_clock : nat;  (** calls of the environment so far *)
  w_cwd : path;  (** working directory of the process *)
}.

Definition set_w_topo (v : wayca_topo) (x : world) : world :=
  mk_world v (w_max_cores x) (w_max_ccls x) (w_max_node_index x) (w_clock x) (w_cwd
    x).
Definition set_w_max_cores (v : Z) (x : world) : world :=
  mk_world (w_topo x) v (w_max_ccls x) (w_max_node_index x) (w_clock x) (w_cwd x).
Definition set_w_max_ccls (v : Z) (x : world) : world :=
  mk_world (w_topo x) (w_max_cores x) v (w_max_node_index x) (w_clock x) (w_cwd x).
Definition set_w_max_node_index (v : Z) (x : world) : world :=
  mk_world (w_topo x) (w_max_cores x) (w_max_ccls x) v (w_clock x) (w_cwd x).
Definition set_w_clock (v : nat) (x : world) : world :=
  mk_world (w_topo x) (w_max_cores x) (w_max_ccls x) (w_max_node_index x) v (w_cwd x).
Definition set_w_cwd (v : path) (x : world) : world :=
  mk_world (w_topo x) (w_max_cores x) (w_max_ccls x) (w_max_node_index x) (w_clock x)
    v.

(** Reduce projections of updated records, and nothing else. *)
Ltac tsimpl :=
  cbn [ch_id ch_level ch_type ch_allocation_policy ch_write_policy ch_cache_size
    ch_ways_of_associativity ch_physical_line_partition ch_number_of_sets
    ch_coherency_line_size ch_shared_cpu_map u_cpu_id set_u_cpu_id u_core_id
    set_u_core_id u_p_cluster set_u_p_cluster u_p_numa_node set_u_p_numa_node
    u_p_package set_u_p_package u_core_cpus_map set_u_core_cpus_map u_n_caches
    set_u_n_caches u_p_caches set_u_p_caches c_core_id c_n_cpus c_core_cpus_map
    c_p_cluster c_p_numa_node c_p_package c_n_caches c_p_caches l_cluster_id
    set_l_cluster_id l_n_cpus set_l_n_cpus l_cpu_map set_l_cpu_map l_core_map
    set_l_core_map sm_smmu_idx set_sm_smmu_idx sm_numa_node set_sm_numa_node
    sm_base_addr set_sm_base_addr sm_name set_sm_name sm_modalias set_sm_modalias
    di_n_irqs set_di_n_irqs di_irq_numbers set_di_irq_numbers pd_numa_node
    set_pd_numa_node pd_smmu_idx set_pd_smmu_idx pd_enable set_pd_enable
    pd_absolute_path set_pd_absolute_path pd_slot_name set_pd_slot_name
    pd_local_cpu_map set_pd_local_cpu_map pd_class set_pd_class pd_vendor
    set_pd_vendor pd_device set_pd_device pd_irqs set_pd_irqs nd_node_idx
    set_nd_node_idx nd_n_cpus set_nd_n_cpus nd_cpu_map set_nd_cpu_map nd_core_map
    set_nd_core_map nd_cluster_map set_nd_cluster_map nd_distance set_nd_distance
    nd_p_meminfo set_nd_p_meminfo nd_n_pcidevs set_nd_n_pcidevs nd_pcidevs
    set_nd_pcidevs nd_n_smmus set_nd_n_smmus nd_smmus set_nd_smmus
    pk_physical_package_id set_pk_physical_package_id pk_n_cpus set_pk_n_cpus
    pk_cpu_map set_pk_cpu_map pk_numa_map set_pk_numa_map i_irq_number i_chip_name
    i_type i_name tp_kernel_max_cpus set_tp_kernel_max_cpus tp_setsize set_tp_setsize
    tp_n_cpus set_tp_n_cpus tp_cpu_map set_tp_cpu_map tp_online_cpu_map
    set_tp_online_cpu_map tp_cpus set_tp_cpus tp_n_cores set_tp_n_cores tp_cores
    set_tp_cores tp_n_clusters set_tp_n_clusters tp_ccls set_tp_ccls tp_n_nodes
    set_tp_n_nodes tp_node_map set_tp_node_map tp_nodes set_tp_nodes tp_n_packages
    set_tp_n_packages tp_packages set_tp_packages tp_n_irqs set_tp_n_irqs tp_irqs
    set_tp_irqs w_topo set_w_topo w_max_cores set_w_max_cores w_max_ccls
    set_w_max_ccls w_max_node_index set_w_max_node_index w_clock set_w_clock w_cwd
    set_w_cwd].
Ltac tsimpl_all :=
  cbn [ch_id ch_level ch_type ch_allocation_policy ch_write_policy ch_cache_size
    ch_ways_of_associativity ch_physical_line_partition ch_number_of_sets
    ch_coherency_line_size ch_shared_cpu_map u_cpu_id set_u_cpu_id u_core_id
    set_u_core_id u_p_cluster set_u_p_cluster u_p_numa_node set_u_p_numa_node
    u_p_package set_u_p_package u_core_cpus_map set_u_core_cpus_map u_n_caches
    set_u_n_caches u_p_caches set_u_p_caches c_core_id c_n_cpus c_core_cpus_map
    c_p_cluster c_p_numa_node c_p_package c_n_caches c_p_caches l_cluster_id
    set_l_cluster_id l_n_cpus set_l_n_cpus l_cpu_map set_l_cpu_map l_core_map
    set_l_core_map sm_smmu_idx set_sm_smmu_idx sm_numa_node set_sm_numa_node
    sm_base_addr set_sm_base_addr sm_name set_sm_name sm_modalias set_sm_modalias
    di_n_irqs set_di_n_irqs di_irq_numbers set_di_irq_numbers pd_numa_node
    set_pd_numa_node pd_smmu_idx set_pd_smmu_idx pd_enable set_pd_enable
    pd_absolute_path set_pd_absolute_path pd_slot_name set_pd_slot_name
    pd_local_cpu_map set_pd_local_cpu_map pd_class set_pd_class pd_vendor
    set_pd_vendor pd_device set_pd_device pd_irqs set_pd_irqs nd_node_idx
    set_nd_node_idx nd_n_cpus set_nd_n_cpus nd_cpu_map set_nd_cpu_map nd_core_map
    set_nd_core_map nd_cluster_map set_nd_cluster_map nd_distance set_nd_distance
    nd_p_meminfo set_nd_p_meminfo nd_n_pcidevs set_nd_n_pcidevs nd_pcidevs
    set_nd_pcidevs nd_n_smmus set_nd_n_smmus nd_smmus set_nd_smmus
    pk_physical_package_id set_pk_physical_package_id pk_n_cpus set_pk_n_cpus
    pk_cpu_map set_pk_cpu_map pk_numa_map set_pk_numa_map i_irq_number i_chip_name
    i_type i_name tp_kernel_max_cpus set_tp_kernel_max_cpus tp_setsize set_tp_setsize
    tp_n_cpus set_tp_n_cpus tp_cpu_map set_tp_cpu_map tp_online_cpu_map
    set_tp_online_cpu_map tp_cpus set_tp_cpus tp_n_cores set_tp_n_cores tp_cores
    set_tp_cores tp_n_clusters set_tp_n_clusters tp_ccls set_tp_ccls tp_n_nodes
    set_tp_n_nodes tp_node_map set_tp_node_map tp_nodes set_tp_nodes tp_n_packages
    set_tp_n_packages tp_packages set_tp_packages tp_n_irqs set_tp_n_irqs tp_irqs
    set_tp_irqs w_topo set_w_topo w_max_cores set_w_max_cores w_max_ccls
    set_w_max_ccls w_max_node_index set_w_max_node_index w_clock set_w_clock w_cwd
    set_w_cwd] in *.

(** [memset] with 0. *)
Definition zero_topo : wayca_topo :=
  mk_wayca_topo 0 0 0 [] [] [] 0 [] 0 [] 0 [] [] 0 [] 0 None.

(** ** The environment *)

(** The directories: WAYCA_SC_CPU_FNAME, its [cpu%d], [cpu%d/topology] and
    [cpu%d/cache/index%d], WAYCA_SC_NODE_FNAME, its [node%d],
    [/sys/kernel/irq/%s], and the directories below WAYCA_SC_SYSDEV_FNAME, which
    are reached by walking. *)
Inductive dir :=
  | DCpus
  | DCpu (i : Z)
  | DTopology (i : Z)
  | DCache (i index : Z)
  | DNodes
  | DNode (i : Z)
  | DIrq (number : cstring)
  | DPath (p : path).

(** The files, by name. *)
Inductive file :=
  | Fkernel_max | Fpossible | Fonline
  | Fcluster_id | Fcluster_cpus_list | Fphysical_package_id | Fpackage_cpus_list
  | Fcore_id | Fcore_cpus_list
  | Fid | Flevel | Ftype | Fallocation_policy | Fwrite_policy | Fways_of_associativity
  | Fphysical_line_partition | Fnumber_of_sets | Fcoherency_line_size | Fsize
  | Fshared_cpu_list
  | Fcpulist | Fdistance | Fmeminfo
  | Factions | Fchip_name
  | Fnuma_node | Fclass | Fvendor | Fdevice | Flocal_cpulist | Firq | Fenable | Fmodalias.

(** What the environment answers at a time. [fs_open] is 0 or a negative error
    number; [fs_text] is what the stream functions read from the open file and
    [fs_reads] what successive calls of [read] give (a positive error number or
    data; end of file when the list ends); [fs_list] is a negative error number
    or the names in a directory; [fs_irqs] the same for [/proc/irq], with whether
    each entry is a directory, and [fs_msi] for the directory [msi_irqs] of a
    device, with whether each entry is a regular file; [fs_lstat] a negative error
    number or whether the file is a directory; [fs_readlink] a negative error
    number or the target of a link; [fs_chdir] and [fs_getcwd] whether the call
    succeeds; [fs_calloc] whether memory is available; [fs_errno] the error number
    that an earlier call left behind; [fs_env] whether the variable
    WAYCA_SC_TOPO_GET_IRQ_INFO is "YES". The texts have no NUL characters, and
    paths are shorter than PATH_MAX. *)
Class Sysfs := {
  fs_open : nat -> dir -> file -> Z;
  fs_text : nat -> dir -> file -> cstring;
  fs_reads : nat -> dir -> file -> list (Z + cstring);
  fs_list : nat -> dir -> Z + list cstring;
  fs_irqs : nat -> Z + list (cstring * bool);
  fs_msi : nat -> path -> Z + list (cstring * bool);
  fs_lstat : nat -> path -> Z + bool;
  fs_readlink : nat -> path -> Z + cstring;
  fs_chdir : nat -> path -> bool;
  fs_getcwd : nat -> bool;
  fs_access : nat -> dir -> bool;
  fs_calloc : nat -> bool;
  fs_errno : nat -> Z;
  fs_env : nat -> bool;
}.

(** ** Text *)

Definition newline : ascii := ascii_of_nat 10.

(** [fgets(buf, n, f)]: the line with its newline, at most [n - 1] characters,
    and the rest; nothing at the end of the file. *)
Fixpoint take_line (n : nat) (s : cstring) : cstring * cstring :=
  match n, s with
  | O, _ | _, [] => ([], s)
  | S n, c :: s =>
    if code c =? 10 then ([c], s)
    else let '(l, rest) := take_line n s in (c :: l, rest)
  end.

Definition fgets (n : Z) (s : cstring) : option (cstring * cstring) :=
  match s with
  | [] => None
  | _ => if n <=? 0 then None else Some (take_line (Z.to_nat (n - 1)) s)
  end.

(** [if (buf[strlen(buf) - 1] == '\n') buf[strlen(buf) - 1] = '\0';] of a string
    that is not empty. *)
Definition strip_newline (s : cstring) : cstring :=
  match last s with
  | Some c => if code c =? 10 then removelast s else s
  | None => s
  end.

(** The conversion [%d] of [scanf]: the number as [strtol] reads it, converted
    to [int], and the rest. *)
Definition scan_d (s : cstring) : option (Z * cstring) :=
  let s1 := skip_space s in
  let '(neg, s2) :=
    match s1 with
    | c :: s' => if code c =? 45 then (true, s') else if code c =? 43 then (false, s') else (false, s1)
    | [] => (false, s1)
    end in
  if starts_digit 10 s2 then
    let '(v, rest) := digits 10 0 s2 in
    let v := if neg then - v else v in
    Some (to_int (Z.max (- 2 ^ 63) (Z.min v (2 ^ 63 - 1))), rest)
  else None.

Fixpoint is_prefix (p s : cstring) : bool :=
  match p, s with
  | [], _ => true
  | _, [] => false
  | a :: p, b :: s => bool_decide (a = b) && is_prefix p s
  end.

Fixpoint strstr (s p : cstring) : option cstring :=
  if is_prefix p s then Some s
  else match s with [] => None | _ :: s => strstr s p end.

(** What follows the first word ([%*s]). *)
Fixpoint skip_word (s : cstring) : cstring :=
  match s with
  | c :: s' => if isspace c then s else skip_word s'
  | [] => []
  end.

(** The sign of a number, and what follows. *)
Definition number_sign (s : cstring) : cstring * cstring :=
  match s with
  | c :: s' => if (code c =? 45) || (code c =? 43) then ([c], s') else ([], s)
  | [] => ([], s)
  end.

(** The base 0 of [strtoul] and [strtol]: the conversion [conv] is called with the
    base that the prefix of the number gives. *)
Definition base0 (conv : Z -> cstring -> Z * bool * cstring) (s : cstring) : Z * bool * cstring :=
  let '(sign, s2) := number_sign (skip_space s) in
  match s2 with
  | a :: s3 =>
    if code a =? 48 then
      match s3 with
      | b :: s4 =>
        if ((code b =? 120) || (code b =? 88)) && starts_digit 16 s4
        then conv 16 (sign ++ s4) else conv 8 s
      | [] => conv 8 s
      end
    else conv 10 s
  | [] => conv 10 s
  end.

(** [strtoul(s, &end, 0)] *)
Definition strtoul0 (s : cstring) : Z * bool * cstring := base0 strtoul s.

(** [strtol(s, &end, base)]: the value, whether [errno] becomes [ERANGE], and the
    end pointer. *)
Definition strtol (base : Z) (s : cstring) : Z * bool * cstring :=
  let s1 := skip_space s in
  let '(neg, s2) :=
    match s1 with
    | c :: s' => if code c =? 45 then (true, s') else if code c =? 43 then (false, s') else (false, s1)
    | [] => (false, s1)
    end in
  if starts_digit base s2 then
    let '(v, rest) := digits base 0 s2 in
    let v := if neg then - v else v in
    if v <? - 2 ^ 63 then (- 2 ^ 63, true, rest)
    else if 2 ^ 63 - 1 <? v then (2 ^ 63 - 1, true, rest)
    else (v, false, rest)
  else (0, false, s).

(** [strtol(s, &end, 0)] *)
Definition strtol0 (s : cstring) : Z * bool * cstring := base0 strtol s.

(** The conversions [%x] and [%hx] of [scanf], before the result is cut to its
    width. *)
Definition scan_x (s : cstring) : option Z :=
  let s1 := skip_space s in
  let '(sign, s2) := number_sign s1 in
  let s3 := match s2 with
            | a :: b :: s' =>
              if (code a =? 48) && ((code b =? 120) || (code b =? 88)) && starts_digit 16 s'
              then s' else s2
            | _ => s2
            end in
  if starts_digit 16 s3 then Some (strtoul 16 (sign ++ s3)).1.1 else None.

Section files.
Context `{F : Sysfs}.

(** A call of the environment takes a tick of the clock. *)
Definition ask {A} (q : nat -> A) : M world A := fun w =>
  Ok (q (w_clock w), set_w_clock (S (w_clock w)) w).

Definition calloc : M world bool := ask fs_calloc.

(** ** One file *)

(** The results of [read], the bytes that are left to be read, the retries, the
    bytes that were read. *)
Fixpoint read_loop (reads : list (Z + cstring)) (count tries c : Z) (buf : cstring)
    : Z * cstring :=
  if count <=? 0 then (c, buf) else
  match reads with
  | [] => (c, buf)
  | inl errno :: reads =>
    if ((errno =? EAGAIN) || (errno =? 4 (* EINTR *))) && (tries <? 5)
    then read_loop reads count (tries + 1) c buf
    else (if c =? 0 then - errno else c, buf)
  | inr data :: reads =>
    let d := take (Z.to_nat count) data in
    match d with
    | [] => (c, buf)
    | _ => let ret := Z.of_nat (length d) in
      read_loop reads (count - ret) 0 (c + ret) (buf ++ d)
    end
  end.

(** The result and the buffer; a buffer that is not touched is [old]. *)
Definition topo_path_read_buffer (base : dir) (filename : file) (old : cstring) (count : Z)
    : M world (Z * cstring) :=
  fd ← ask (fun t => fs_open t base filename);
  if fd <? 0 then mret (fd, old) else
  reads ← ask (fun t => fs_reads t base filename);
  mret (read_loop reads count 0 0 []).

(** A negative error number or the value. *)
Definition topo_path_read_s32 (base : dir) (filename : file) : M world (Z + Z) :=
  fd ← ask (fun t => fs_open t base filename);
  if fd <? 0 then mret (inl fd) else
  text ← ask (fun t => fs_text t base filename);
  mret (match scan_d text with Some (t, _) => inr t | None => inl (- EINVAL) end).

Fixpoint scan_multi (nmemb : nat) (s : cstring) : option (list Z) :=
  match nmemb with
  | O => Some []
  | S nmemb =>
    match scan_d s with
    | None => None
    | Some (t, s) => match scan_multi nmemb s with Some l => Some (t :: l) | None => None end
    end
  end.

Definition topo_path_read_multi_s32 (base : dir) (filename : file) (nmemb : Z)
    : M world (Z + list Z) :=
  fd ← ask (fun t => fs_open t base filename);
  if fd <? 0 then mret (inl fd) else
  text ← ask (fun t => fs_text t base filename);
  mret (match scan_multi (Z.to_nat nmemb) text with Some l => inr l | None => inl (- EINVAL) end).

Definition MemTotal : cstring := s2l "MemTotal:"%string.
Definition BUFSIZ : Z := 8192.

(** The lines of the file, up to the one with the total. *)
Fixpoint meminfo_loop (fuel : nat) (s : cstring) : Z + Z :=
  match fuel with
  | O => inl (-1)
  | S fuel =>
    match fgets BUFSIZ s with
    | None => inl (-1)
    | Some (buf, s) =>
      match strstr buf MemTotal with
      | None => meminfo_loop fuel s
      | Some ptr =>
        let num := skip_space (skip_word ptr) in
        let '(v, _, rest) := strtoul 10 num in
        if decide (rest = num) then inl (-1) else inr v
      end
    end
  end.

Definition topo_path_parse_meminfo (base : dir) (filename : file) : M world (Z + Z) :=
  fd ← ask (fun t => fs_open t base filename);
  if fd <? 0 then mret (inl fd) else
  text ← ask (fun t => fs_text t base filename);
  mret (meminfo_loop (S (length text)) text).

(** The result and the set, which stays uninitialised ([None]) when the file
    cannot be read. *)
Definition topo_path_read_cpulist (base : dir) (filename : file) (maxcpus : Z)
    : M world (Z * option cpu_set_t) :=
  let len := maxcpus * 8 in
  fd ← ask (fun t => fs_open t base filename);
  if fd <? 0 then mret (fd, None) else
  ok ← calloc;
  if negb ok then mret (- ENOMEM, None) else
  text ← ask (fun t => fs_text t base filename);
  errno ← ask fs_errno;
  let '(ret, buf) := match fgets len text with
                     | None => (- errno, [])
                     | Some (buf, _) => (0, buf)
                     end in
  if negb (ret =? 0) then mret (ret, None) else
  match buf with
  | [] => throw OutOfBounds  (* buf[strlen(buf) - 1] *)
  | _ =>
    let size := CPU_ALLOC_SIZE maxcpus in
    r ← lift (cpulist_parse (strip_newline buf) (replicate (set_words size) 0) size false);
    mret (if r.1 =? 0 then 0 else - EINVAL, Some r.2)
  end.
End files.
