(* ===== verification/Topo.v ===== *)
(** * The construction of the topology

    [lib/topo.c]: from the files of every CPU and NUMA node to the structure
    that the queries read. *)

From Stdlib Require Import Ascii String.
From S2P Require Import Prelude Bitops Cpuset Cstring Dynset Cpulist TopoState.

Definition WAYCA_SC_DEFAULT_KERNEL_MAX : Z := 2048.
Definition WAYCA_SC_ATTR_STRING_LEN : Z := 256.
Definition node_name : cstring := s2l "node"%string.

Section topo.
Context `{F : Sysfs}.

(** ** Access to the arrays *)

(** [array[i]], which must not be NULL when it is dereferenced. *)
Definition at_index {A} (l : list (option A)) (i : Z) : M world A :=
  match l with
  | [] => throw NullDeref
  | _ =>
    if i <? 0 then throw OutOfBounds
    else match l !! Z.to_nat i with
         | None => throw OutOfBounds
         | Some None => throw NullDeref
         | Some (Some a) => mret a
         end
  end.

(** [array[i] = v], in range. *)
Definition put_index {A} (l : list (option A)) (i : Z) (v : option A) : M world (list (option A)) :=
  match l with
  | [] => throw NullDeref
  | _ =>
    if (0 <=? i) && (i <? Z.of_nat (length l)) then mret (<[Z.to_nat i := v]> l)
    else throw OutOfBounds
  end.

Definition get_topo : M world wayca_topo := gets w_topo.
Definition upd_topo (f : wayca_topo -> wayca_topo) : M world unit :=
  modify (fun w => set_w_topo (f (w_topo w)) w).

Definition get_cpu (i : Z) : M world wayca_cpu := p ← get_topo; at_index (tp_cpus p) i.
Definition put_cpu (i : Z) (v : option wayca_cpu) : M world unit :=
  p ← get_topo; l ← put_index (tp_cpus p) i v; upd_topo (set_tp_cpus l).
Definition upd_cpu (i : Z) (f : wayca_cpu -> wayca_cpu) : M world unit :=
  c ← get_cpu i; put_cpu i (Some (f c)).

Definition get_node (i : Z) : M world wayca_node := p ← get_topo; at_index (tp_nodes p) i.
Definition put_node (i : Z) (v : option wayca_node) : M world unit :=
  p ← get_topo; l ← put_index (tp_nodes p) i v; upd_topo (set_tp_nodes l).
Definition upd_node (i : Z) (f : wayca_node -> wayca_node) : M world unit :=
  n ← get_node i; put_node i (Some (f n)).

Definition get_ccl (i : Z) : M world wayca_cluster := p ← get_topo; at_index (tp_ccls p) i.
Definition put_ccl (i : Z) (v : option wayca_cluster) : M world unit :=
  p ← get_topo; l ← put_index (tp_ccls p) i v; upd_topo (set_tp_ccls l).
Definition upd_ccl (i : Z) (f : wayca_cluster -> wayca_cluster) : M world unit :=
  c ← get_ccl i; put_ccl i (Some (f c)).

Definition get_package (i : Z) : M world wayca_package := p ← get_topo; at_index (tp_packages p) i.
Definition put_package (i : Z) (v : option wayca_package) : M world unit :=
  p ← get_topo; l ← put_index (tp_packages p) i v; upd_topo (set_tp_packages l).
Definition upd_package (i : Z) (f : wayca_package -> wayca_package) : M world unit :=
  c ← get_package i; put_package i (Some (f c)).

(** [topo_expand_mem] on an array, with its sizes in elements; [zero] is the
    element whose bytes are all zero, and NULL is [None]. *)
Definition expand_array {A} (zero : A) (ptr : list A) (old_size new_size : Z)
    : M world (option (list A)) :=
  if (new_size =? 0) || (new_size <? old_size) then mret None else
  ok ← calloc;
  if negb ok then mret None else
  match ptr with
  | [] => mret (Some (replicate (Z.to_nat new_size) zero))
  | _ =>
    if old_size =? 0 then mret (Some (replicate (Z.to_nat new_size) zero))
    else if Z.of_nat (length ptr) <? old_size then throw OutOfBounds
    else mret (Some (take (Z.to_nat old_size) ptr ++
                     replicate (Z.to_nat (new_size - old_size)) zero))
  end.

(** Arrays of pointers. *)
Definition topo_expand_mem {A} (ptr : list (option A)) (old_size new_size : Z)
    : M world (option (list (option A))) := expand_array None ptr old_size new_size.

(** [CPU_ALLOC(count)] followed by [CPU_ZERO_S] of its size; [None] is NULL. *)
Definition alloc_set (count : Z) : M world (option cpu_set_t) :=
  ok ← calloc;
  mret (if (ok : bool) then Some (replicate (set_words (CPU_ALLOC_SIZE count)) 0) else None).

(** [if (!ptr) return -ENOMEM;] *)
Definition or_nomem {A} (m : M world (option A)) (k : A -> M world Z) : M world Z :=
  o ← m;
  match o with Some a => k a | None => mret (- ENOMEM) end.

(** [if (ret) return ret;] *)
Definition or_return (m : M world Z) (k : M world Z) : M world Z :=
  ret ← m;
  if negb (ret =? 0) then mret ret else k.

(** ** CPUs *)

(** A new node: its object and its three sets. *)
Definition topo_new_node (node_index : Z) : M world Z :=
  ok ← calloc;
  if negb ok then put_node node_index None;; mret (- ENOMEM) else
  put_node node_index (Some (mk_wayca_node node_index 0 [] [] [] [] None 0 [] 0 []));;
  p ← get_topo;
  or_nomem (alloc_set (tp_kernel_max_cpus p)) (fun s =>
    upd_node node_index (set_nd_cluster_map s);;
    or_nomem (alloc_set (tp_kernel_max_cpus p)) (fun s =>
      upd_node node_index (set_nd_core_map s);;
      or_nomem (alloc_set (tp_kernel_max_cpus p)) (fun s =>
        upd_node node_index (set_nd_cpu_map s);;
        upd_topo (fun p => set_tp_node_map
          (CPU_SET_S node_index (CPU_ALLOC_SIZE (tp_n_cpus p)) (tp_node_map p)) p);;
        upd_topo (fun p => set_tp_n_nodes (tp_n_nodes p + 1) p);;
        mret 0))).

(** The body of the loop for an entry that names a node. *)
Definition topo_join_node (cpu_index node_index : Z) : M world Z :=
  max_node_index ← gets w_max_node_index;
  or_return
    (if max_node_index <? node_index then
       modify (set_w_max_node_index (to_int node_index));;
       p ← get_topo;
       nodes ← topo_expand_mem (tp_nodes p) node_index (node_index + 1);
       upd_topo (set_tp_nodes (default [] nodes));;
       mret (match nodes with Some _ => 0 | None => - ENOMEM end)
     else mret 0)
    (p ← get_topo;
     or_return
       (if negb (CPU_ISSET_S node_index (CPU_ALLOC_SIZE (tp_n_cpus p)) (tp_node_map p))
        then topo_new_node node_index else mret 0)
       (p ← get_topo;
        upd_node node_index (fun n =>
          set_nd_n_cpus (nd_n_cpus n + 1)
            (set_nd_cpu_map (CPU_SET_S cpu_index (tp_setsize p) (nd_cpu_map n)) n));;
        upd_cpu cpu_index (set_u_p_numa_node (Some (Z.to_nat node_index)));;
        mret 0)).

(** The node that the name of an entry gives. *)
Definition node_of_entry (d_name : cstring) : option Z :=
  if negb (is_prefix node_name d_name) then None else
  let num := drop 4 d_name in
  let '(node_index, erange, endptr) := strtoul0 num in
  if erange then None
  else if decide (endptr = num) then None
  else Some (to_long node_index).

Fixpoint find_node_entry (names : list cstring) : option Z :=
  match names with
  | [] => None
  | d_name :: names =>
    match node_of_entry d_name with
    | Some node_index => Some node_index
    | None => find_node_entry names
    end
  end.

Definition topo_parse_cpu_node_info (cpu_index : Z) : M world Z :=
  entries ← ask (fun t => fs_list t (DCpu cpu_index));
  match entries with
  | inl err => mret err
  | inr names =>
    match find_node_entry names with
    | None => mret 0
    | Some node_index => topo_join_node cpu_index node_index
    end
  end.

(** The index of the first of [n] elements with a key, or [n]. *)
Fixpoint find_key {A} (key : A -> Z) (k : Z) (l : list (option A)) (n : nat) (i : Z) : M world Z :=
  match n, l with
  | O, _ => mret i
  | S n, [] => throw OutOfBounds
  | S n, None :: _ => throw NullDeref
  | S n, Some a :: l => if key a =? k then mret i else find_key key k l n (i + 1)
  end.

(** The part for a cluster that is not known yet. *)
Definition topo_new_cluster (path : dir) (cpu_index cluster_id i : Z) : M world Z :=
  p ← get_topo;
  ccls ← topo_expand_mem (tp_ccls p) i (i + 1);
  upd_topo (set_tp_ccls (default [] ccls));;
  match ccls with
  | None => mret (- ENOMEM)
  | Some _ =>
    ok ← calloc;
    if negb ok then mret (- ENOMEM) else
    put_ccl i (Some (mk_wayca_cluster 0 0 [] []));;
    upd_topo (fun p => set_tp_n_clusters (tp_n_clusters p + 1) p);;
    ok ← calloc;
    if negb ok then mret (- ENOMEM) else
    r ← topo_path_read_cpulist path Fcluster_cpus_list (tp_kernel_max_cpus p);
    upd_ccl i (set_l_cpu_map (default [] r.2));;
    if negb (r.1 =? 0) then mret r.1 else
    upd_ccl i (fun c => set_l_n_cpus (CPU_COUNT_S (tp_setsize p) (l_cpu_map c))
                          (set_l_cluster_id cluster_id c));;
    or_nomem (alloc_set (tp_kernel_max_cpus p)) (fun s =>
      upd_ccl i (set_l_core_map s);;
      c ← get_cpu cpu_index;
      node ← deref (u_p_numa_node c);
      upd_node (Z.of_nat node) (fun n =>
        set_nd_cluster_map (CPU_SET_S i (tp_setsize p) (nd_cluster_map n)) n);;
      mret 0)
  end.

Definition topo_parse_cpu_cluster_info (path : dir) (cpu_index : Z) : M world Z :=
  r ← topo_path_read_s32 path Fcluster_id;
  match r with
  | inl _ => upd_cpu cpu_index (set_u_p_cluster None);; mret 0
  | inr cluster_id =>
    p ← get_topo;
    i ← find_key l_cluster_id cluster_id (tp_ccls p) (Z.to_nat (tp_n_clusters p)) 0;
    or_return
      (if i =? tp_n_clusters p then topo_new_cluster path cpu_index cluster_id i else mret 0)
      (upd_cpu cpu_index (set_u_p_cluster (Some (Z.to_nat i)));; mret 0)
  end.

(** The part for a package that is not known yet. *)
Definition topo_new_package (path : dir) (ppkg_id i : Z) : M world Z :=
  p ← get_topo;
  packages ← topo_expand_mem (tp_packages p) i (i + 1);
  upd_topo (set_tp_packages (default [] packages));;
  match packages with
  | None => mret (- ENOMEM)
  | Some _ =>
    ok ← calloc;
    if negb ok then mret (- ENOMEM) else
    put_package i (Some (mk_wayca_package 0 0 [] []));;
    upd_topo (fun p => set_tp_n_packages (tp_n_packages p + 1) p);;
    ok ← calloc;
    if negb ok then mret (- ENOMEM) else
    or_nomem (alloc_set (tp_n_cpus p)) (fun s =>
      upd_package i (set_pk_numa_map s);;
      r ← topo_path_read_cpulist path Fpackage_cpus_list (tp_kernel_max_cpus p);
      upd_package i (set_pk_cpu_map (default [] r.2));;
      if negb (r.1 =? 0) then mret r.1 else
      upd_package i (fun k => set_pk_n_cpus (CPU_COUNT_S (tp_setsize p) (pk_cpu_map k))
                                (set_pk_physical_package_id ppkg_id k));;
      mret 0)
  end.

Section online.
(** [wayca_sc_is_cpu_online] *)
Context (is_cpu_online : Z -> M world bool).

Definition topo_parse_cpu_pkg_info (path : dir) (cpu_index : Z) : M world Z :=
  online ← is_cpu_online cpu_index;
  if negb online then upd_cpu cpu_index (set_u_p_package None);; mret 0 else
  r ← topo_path_read_s32 path Fphysical_package_id;
  match r with
  | inl ret => mret ret
  | inr ppkg_id =>
    p ← get_topo;
    i ← find_key pk_physical_package_id ppkg_id (tp_packages p) (Z.to_nat (tp_n_packages p)) 0;
    or_return
      (if i =? tp_n_packages p then topo_new_package path ppkg_id i else mret 0)
      (upd_cpu cpu_index (set_u_p_package (Some (Z.to_nat i)));; mret 0)
  end.

Definition topo_parse_cpu_core_info (path : dir) (cpu_index : Z) : M world Z :=
  online ← is_cpu_online cpu_index;
  if negb online then
    upd_cpu cpu_index (fun c => set_u_core_cpus_map None (set_u_core_id (-1) c));; mret 0
  else
  r ← topo_path_read_s32 path Fcore_id;
  match r with
  | inl ret => mret ret
  | inr core_id =>
    upd_cpu cpu_index (set_u_core_id core_id);;
    p ← get_topo;
    ok ← calloc;
    if negb ok then upd_cpu cpu_index (set_u_core_cpus_map None);; mret (- ENOMEM) else
    r ← topo_path_read_cpulist path Fcore_cpus_list (tp_kernel_max_cpus p);
    upd_cpu cpu_index (set_u_core_cpus_map r.2);;
    mret r.1
  end.

(** The string of an attribute of the cache: "" when it cannot be read. *)
Definition read_string (path : dir) (filename : file) : M world cstring :=
  r ← topo_path_read_buffer path filename [] (WAYCA_SC_ATTR_STRING_LEN - 1);
  mret (if r.1 <=? 0 then [] else strip_newline r.2).

(** A number of the cache: [def] when it cannot be read. *)
Definition read_number (path : dir) (filename : file) (def : Z) : M world Z :=
  r ← topo_path_read_s32 path filename;
  mret (match r with inl _ => def | inr t => t end).

(** The result and the cache. *)
Definition topo_parse_cache_info (path : dir) (max_cpus : Z) : M world (Z * wayca_cache) :=
  id ← read_number path Fid (-1);
  level ← read_number path Flevel (-1);
  type ← read_string path Ftype;
  allocation_policy ← read_string path Fallocation_policy;
  write_policy ← read_string path Fwrite_policy;
  ways_of_associativity ← read_number path Fways_of_associativity 0;
  physical_line_partition ← read_number path Fphysical_line_partition 0;
  number_of_sets ← read_number path Fnumber_of_sets 0;
  coherency_line_size ← read_number path Fcoherency_line_size 0;
  cache_size ← read_string path Fsize;
  let cache := mk_wayca_cache id level type allocation_policy write_policy cache_size
    (to_uint ways_of_associativity) (to_uint physical_line_partition) (to_uint number_of_sets)
    (to_uint coherency_line_size) in
  ok ← calloc;
  if negb ok then mret (- ENOMEM, cache []) else
  r ← topo_path_read_cpulist path Fshared_cpu_list max_cpus;
  mret (r.1, cache (default [] r.2)).

(** [do { ... } while (1)]: the number of cache directories. *)
Fixpoint count_caches (fuel : nat) (cpu_index n_caches : Z) : M world Z :=
  match fuel with
  | O => throw OutOfFuel
  | S fuel =>
    ok ← ask (fun t => fs_access t (DCache cpu_index n_caches));
    if ok : bool then count_caches fuel cpu_index (n_caches + 1) else mret n_caches
  end.

(** More cache directories than any CPU has. *)
Definition cache_fuel : nat := 1024.

(** The caches from [i] on; the caches after one that cannot be read stay zero. *)
Definition zero_cache : wayca_cache := mk_wayca_cache 0 0 [] [] [] [] 0 0 0 0 [].

Fixpoint read_caches (n : nat) (cpu_index i max_cpus : Z) : M world (Z * list wayca_cache) :=
  match n with
  | O => mret (0, [])
  | S n =>
    r ← topo_parse_cache_info (DCache cpu_index i) max_cpus;
    if negb (r.1 =? 0) then mret (r.1, r.2 :: replicate n zero_cache) else
    rs ← read_caches n cpu_index (i + 1) max_cpus;
    mret (rs.1, r.2 :: rs.2)
  end.

Definition topo_parse_cpu_cache_info (cpu_index : Z) : M world Z :=
  online ← is_cpu_online cpu_index;
  if negb online then
    upd_cpu cpu_index (fun c => set_u_p_caches [] (set_u_n_caches 0 c));; mret 0
  else
  n_caches ← count_caches cache_fuel cpu_index 0;
  upd_cpu cpu_index (set_u_n_caches n_caches);;
  if n_caches =? 0 then mret 0 else
  ok ← calloc;
  if negb ok then mret (- ENOMEM) else
  p ← get_topo;
  r ← read_caches (Z.to_nat n_caches) cpu_index 0 (tp_kernel_max_cpus p);
  upd_cpu cpu_index (set_u_p_caches r.2);;
  mret r.1.

Definition topo_read_cpu_topology (cpu_index : Z) : M world Z :=
  ok ← calloc;
  if negb ok then put_cpu cpu_index None;; mret (- ENOMEM) else
  put_cpu cpu_index (Some (mk_wayca_cpu cpu_index 0 None None None None 0 []));;
  or_return (topo_parse_cpu_node_info cpu_index) (
  or_return (topo_parse_cpu_core_info (DTopology cpu_index) cpu_index) (
  or_return (topo_parse_cpu_cluster_info (DTopology cpu_index) cpu_index) (
  or_return (topo_parse_cpu_pkg_info (DTopology cpu_index) cpu_index)
            (topo_parse_cpu_cache_info cpu_index)))).

(** [for (i = ...; i < p_topo->n_cpus; i++)], with the bound read in every turn. *)
Fixpoint read_cpus (fuel : nat) (i : Z) : M world Z :=
  match fuel with
  | O => throw OutOfFuel
  | S fuel =>
    p ← get_topo;
    if i <? tp_n_cpus p then
      or_return (topo_read_cpu_topology i) (read_cpus fuel (i + 1))
    else mret 0
  end.

(** A set has no more CPUs than bits. *)
Definition cpus_fuel (p : wayca_topo) : nat := S (S (Z.to_nat (8 * tp_setsize p))).

Definition topo_construct_cpu_topology : M world Z :=
  p ← get_topo;
  read_cpus (cpus_fuel p) 0.
End online.

(** ** NUMA nodes *)

Definition topo_read_node_topology (node_index : Z) : M world Z :=
  p ← get_topo;
  ok ← calloc;
  if negb ok then mret (- ENOMEM) else
  ok ← calloc;
  if negb ok then mret (- ENOMEM) else
  n ← get_node node_index;
  let size := set_words (tp_setsize p) in
  let online_cpu_map :=
    CPU_AND_S (tp_setsize p) (replicate size 0) (tp_online_cpu_map p) (nd_cpu_map n) in
  r ← topo_path_read_cpulist (DNode node_index) Fcpulist (tp_kernel_max_cpus p);
  if negb (r.1 =? 0) && negb (CPU_COUNT_S (tp_setsize p) online_cpu_map =? 0) then mret r.1 else
  match r.2 with
  | None => throw Uninitialised  (* node_cpu_map was never written *)
  | Some node_cpu_map =>
    if negb (CPU_EQUAL_S (tp_setsize p) node_cpu_map online_cpu_map) then mret (- EINVAL) else
    ok ← calloc;
    if negb ok then mret (- ENOMEM) else
    r ← topo_path_read_multi_s32 (DNode node_index) Fdistance (tp_n_nodes p);
    match r with
    | inl ret => mret ret
    | inr distance_array =>
      upd_node node_index (set_nd_distance distance_array);;
      ok ← calloc;
      if negb ok then mret (- ENOMEM) else
      r ← topo_path_parse_meminfo (DNode node_index) Fmeminfo;
      match r with
      | inl ret => mret ret
      | inr kB => upd_node node_index (set_nd_p_meminfo (Some kB));; mret 0
      end
    end
  end.

(** The packages from [j] on: those that hold all online CPUs of node [i]. *)
Fixpoint build_numa_maps (n : nat) (j i setsize : Z) (online_cpu_map : cpu_set_t) : M world unit :=
  match n with
  | O => mret tt
  | S n =>
    k ← get_package j;
    let bitmask := CPU_AND_S setsize (replicate (set_words setsize) 0) (pk_cpu_map k) online_cpu_map in
    when (CPU_EQUAL_S setsize bitmask online_cpu_map)
      (upd_package j (fun k => set_pk_numa_map (CPU_SET_S i setsize (pk_numa_map k)) k));;
    build_numa_maps n (j + 1) i setsize online_cpu_map
  end.

(** The nodes from [i] on. *)
Fixpoint read_nodes (n : nat) (i setsize : Z) : M world Z :=
  match n with
  | O => mret 0
  | S n =>
    or_return (topo_read_node_topology i)
      (ok ← calloc;
       if negb ok then mret (- ENOMEM) else
       p ← get_topo;
       nd ← get_node i;
       let online_cpu_map := CPU_AND_S (tp_setsize p) (replicate (set_words (tp_setsize p)) 0)
                               (tp_online_cpu_map p) (nd_cpu_map nd) in
       when (negb (CPU_COUNT_S (tp_setsize p) online_cpu_map =? 0))
         (build_numa_maps (Z.to_nat (tp_n_packages p)) 0 i setsize online_cpu_map);;
       read_nodes n (i + 1) setsize)
  end.

(** [ret] is 0 when the nodes do not match, because the list could be read. *)
Definition topo_construct_numa_topology : M world Z :=
  p ← get_topo;
  let setsize := CPU_ALLOC_SIZE (tp_n_cpus p) in
  ok ← calloc;
  if negb ok then mret (- ENOMEM) else
  r ← topo_path_read_cpulist DNodes Fpossible (tp_n_cpus p);
  if negb (r.1 =? 0) then mret r.1 else
  let bitmask := default [] r.2 in
  if negb (CPU_EQUAL_S setsize bitmask (tp_node_map p))
     || negb (CPU_COUNT_S setsize bitmask =? tp_n_nodes p) then mret r.1 else
  read_nodes (Z.to_nat (tp_n_nodes p)) 0 setsize.

(** ** Cores *)

(** The part of the loop for a core that is not known yet: core [j] of CPU [i]. *)
Definition topo_new_core (i j : Z) (c : wayca_cpu) : M world Z :=
  p ← get_topo;
  cores ← topo_expand_mem (tp_cores p) j (j + 1);
  upd_topo (set_tp_cores (default [] cores));;
  match cores with
  | None => mret (- ENOMEM)
  | Some _ =>
    ok ← calloc;
    if negb ok then mret (- ENOMEM) else
    map ← deref (u_core_cpus_map c);
    p ← get_topo;
    cores ← put_index (tp_cores p) j
      (Some (mk_wayca_core (u_core_id c) (CPU_COUNT_S (tp_setsize p) map) (u_core_cpus_map c)
               (u_p_cluster c) (u_p_numa_node c) (u_p_package c) (u_n_caches c) (u_p_caches c)));
    upd_topo (fun p => set_tp_n_cores (tp_n_cores p + 1) (set_tp_cores cores p));;
    when (0 <? tp_n_clusters p)
      (ccl ← deref (u_p_cluster c);
       upd_ccl (Z.of_nat ccl) (fun l =>
         set_l_core_map (CPU_SET_S j (tp_setsize p) (l_core_map l)) l));;
    node ← deref (u_p_numa_node c);
    upd_node (Z.of_nat node) (fun n =>
      set_nd_core_map (CPU_SET_S j (tp_setsize p) (nd_core_map n)) n);;
    mret 0
  end.

(** The CPUs from [i] on. *)
Fixpoint read_cores (n : nat) (i : Z) : M world Z :=
  match n with
  | O => mret 0
  | S n =>
    c ← get_cpu i;
    if u_core_id c =? -1 then read_cores n (i + 1) else
    p ← get_topo;
    j ← find_key c_core_id (u_core_id c) (tp_cores p) (Z.to_nat (tp_n_cores p)) 0;
    if j <? tp_n_cores p then read_cores n (i + 1) else
    or_return (topo_new_core i j c) (read_cores n (i + 1))
  end.

Definition topo_construct_core_topology : M world Z :=
  p ← get_topo;
  match tp_cores p with
  | _ :: _ => mret (-1)
  | [] =>
    if negb (tp_n_cores p =? 0) then mret (-1) else
    read_cores (Z.to_nat (tp_n_cpus p)) 0
  end.

(** ** Start and end *)

Definition topo_alloc_cpu : M world Z :=
  r ← topo_path_read_s32 DCpus Fkernel_max;
  upd_topo (set_tp_kernel_max_cpus
    (match r with inr k => to_int (k + 1) | inl _ => WAYCA_SC_DEFAULT_KERNEL_MAX end));;
  upd_topo (fun p => set_tp_setsize (CPU_ALLOC_SIZE (tp_kernel_max_cpus p)) p);;
  ok ← calloc;
  if negb ok then mret (- ENOMEM) else
  p ← get_topo;
  r ← topo_path_read_cpulist DCpus Fpossible (tp_kernel_max_cpus p);
  if negb (r.1 =? 0) then mret (- EINVAL) else
  let cpuset_possible := default [] r.2 in
  upd_topo (fun p => set_tp_cpu_map cpuset_possible
    (set_tp_n_cpus (CPU_COUNT_S (tp_setsize p) cpuset_possible) p));;
  ok ← calloc;
  if negb ok then mret (- ENOMEM) else
  upd_topo (fun p => set_tp_cpus (replicate (Z.to_nat (tp_n_cpus p)) None) p);;
  ok ← calloc;
  if negb ok then mret (- ENOMEM) else
  r ← topo_path_read_cpulist DCpus Fonline (tp_kernel_max_cpus p);
  if negb (r.1 =? 0) then mret (- EINVAL) else
  upd_topo (set_tp_online_cpu_map (default [] r.2));;
  mret 0.

Definition topo_alloc_node_map : M world Z :=
  p ← get_topo;
  or_nomem (alloc_set (tp_n_cpus p)) (fun s => upd_topo (set_tp_node_map s);; mret 0).

(** The memory is given back and the structure cleared; the static variable of
    [topo_parse_cpu_node_info] keeps its value. *)
Definition topo_free : M world unit := upd_topo (fun _ => zero_topo).

(** ** Interrupts *)

(** enum wayca_sc_irq_chip_name and enum wayca_sc_irq_type *)
Definition irq_chip_name_string : list (Z * cstring) :=
  [(0, []); (1, s2l "mbigen-v2"%string); (2, s2l "ITS-MSI"%string);
   (3, s2l "ITS-pMSI"%string); (4, s2l "GICv3"%string)].
Definition irq_type_string : list (Z * cstring) :=
  [(0, []); (1, s2l "edge"%string); (2, s2l "level"%string)].

Fixpoint str2 (table : list (Z * cstring)) (buf : cstring) : Z :=
  match table with
  | [] => 0
  | (value, name) :: table => if decide (buf = name) then value else str2 table buf
  end.
Definition str2_irq_chip_name (buf : cstring) : Z := str2 irq_chip_name_string buf.
Definition str2_irq_type (buf : cstring) : Z := str2 irq_type_string buf.

(** The result and the interrupt. *)
Definition topo_parse_irq_info (irq_number : cstring) : M world (Z * wayca_irq) :=
  r ← topo_path_read_buffer (DIrq irq_number) Factions [] (WAYCA_SC_ATTR_STRING_LEN - 1);
  let name := if r.1 <=? 0 then [] else strip_newline r.2 in
  r ← topo_path_read_buffer (DIrq irq_number) Fchip_name [] (WAYCA_SC_ATTR_STRING_LEN - 1);
  let chip_name := if r.1 <=? 0 then 0 else str2_irq_chip_name (strip_newline r.2) in
  r ← topo_path_read_buffer (DIrq irq_number) Ftype [] (WAYCA_SC_ATTR_STRING_LEN - 1);
  let type := if r.1 <=? 0 then 0 else str2_irq_type (strip_newline r.2) in
  let '(v, erange, endptr) := strtoul 10 irq_number in
  let irq := mk_wayca_irq (to_uint v) chip_name type name in
  mret (if (erange : bool) then - ERANGE
        else if decide (endptr = irq_number) then - EINVAL else 0, irq).

(** The directories of [/proc/irq] but the two dot entries. *)
Definition irq_entries (entries : list (cstring * bool)) : list cstring :=
  map fst (List.filter (fun e => e.2 && negb (bool_decide (e.1 = dot))
                                  && negb (bool_decide (e.1 = dotdot))) entries).

Fixpoint read_irqs (names : list cstring) : M world (Z + list wayca_irq) :=
  match names with
  | [] => mret (inr [])
  | d_name :: names =>
    ok ← calloc;
    if negb ok then mret (inl (- ENOMEM)) else
    r ← topo_parse_irq_info d_name;
    if negb (r.1 =? 0) then mret (inl r.1) else
    rs ← read_irqs names;
    mret (match rs with inl e => inl e | inr l => inr (r.2 :: l) end)
  end.

Definition topo_get_irq_info : M world Z :=
  p ← get_topo;
  match tp_irqs p with
  | Some _ => mret 0
  | None =>
    entries ← ask fs_irqs;
    match entries with
    | inl err => mret err
    | inr entries =>
      ok ← calloc;
      if negb ok then mret (- ENOMEM) else
      r ← read_irqs (irq_entries entries);
      match r with
      | inl err => mret err
      | inr irqs =>
        upd_topo (fun p => set_tp_n_irqs (Z.of_nat (length irqs)) (set_tp_irqs (Some irqs) p));;
        mret 0
      end
    end
  end.
End topo.
