(* ===== verification/TopoDev.v ===== *)
(** * I/O devices

    The part of [lib/topo.c] that walks over [/sys/devices] and records the PCI
    devices and SMMUs of every NUMA node. The walk changes the working directory of the process, so that directory is part of
    the state. A pointer to a device is the index of its node and its place in
    the array of the node. *)

From Stdlib Require Import Ascii String.
From S2P Require Import Prelude Bitops Cpuset Cstring Dynset Cpulist TopoState Topo.

Definition WAYCA_SC_PCI_SLOT_NAME_LEN_MAX : Z := 24.
Definition PATH_MAX : Z := 4096.

(** WAYCA_SC_SYSDEV_FNAME *)
Definition sysdev : path := [s2l "sys"%string; s2l "devices"%string].

Definition slash : ascii := ascii_of_nat 47.

(** The string of a path. *)
Definition path_string (p : path) : cstring :=
  match p with
  | [] => [slash]
  | _ => concat (map (cons slash) p)
  end.

(** [strncpy] into a buffer of [n] bytes that was zero. *)
Definition strncpy (n : Z) (s : cstring) : cstring := take (Z.to_nat (n - 1)) s.

(** Whether [p] occurs in [s]. *)
Definition contains (s p : cstring) : bool :=
  match strstr s p with Some _ => true | None => false end.

Definition arm_smmu_v3 : cstring := s2l "arm-smmu-v3"%string.
Definition smmu3 : cstring := s2l "smmu3"%string.

(** [p + strlen(word) + 1], where [p] begins with [word] and lies in a buffer that
    is not initialised after the string. *)
Definition after_word (word p : cstring) : outcome cstring :=
  if (length p <=? length word)%nat then Fault Uninitialised
  else Ok (drop (S (length word)) p).

Section dev.
Context `{F : Sysfs}.

(** ** The working directory *)

Definition chdir (p : path) : M world unit :=
  ok ← ask (fun t => fs_chdir t p);
  when ok (modify (set_w_cwd p)).

Definition getcwd : M world (option path) :=
  ok ← ask fs_getcwd;
  cwd ← gets w_cwd;
  mret (if (ok : bool) then Some cwd else None).

Definition lstat (name : cstring) : M world (Z + bool) :=
  cwd ← gets w_cwd;
  ask (fun t => fs_lstat t (cwd ++ [name])).

(** ** Devices of a node *)

Definition upd_pcidev (i k : Z) (f : wayca_pci_device -> wayca_pci_device) : M world unit :=
  n ← get_node i;
  d ← at_index (nd_pcidevs n) k;
  l ← put_index (nd_pcidevs n) k (Some (f d));
  upd_node i (set_nd_pcidevs l).

Definition get_pcidev (i k : Z) : M world wayca_pci_device :=
  n ← get_node i; at_index (nd_pcidevs n) k.

Definition upd_irqs (i k : Z) (f : wayca_device_irqs -> wayca_device_irqs) : M world unit :=
  upd_pcidev i k (fun d => set_pd_irqs (f (pd_irqs d)) d).

Definition upd_smmu (i k : Z) (f : wayca_smmu -> wayca_smmu) : M world unit :=
  n ← get_node i;
  d ← at_index (nd_smmus n) k;
  l ← put_index (nd_smmus n) k (Some (f d));
  upd_node i (set_nd_smmus l).

(** ** Interrupts of a device *)

(** The second loop: the result and the array. *)
Fixpoint fill_irqs (names : list cstring) : Z * list Z :=
  match names with
  | [] => (0, [])
  | d_name :: names =>
    let '(v, erange, endstr) := strtol 10 d_name in
    if erange then (- ERANGE, to_uint v :: map (fun _ => 0) names)
    else if decide (endstr = d_name) then (- EINVAL, to_uint v :: map (fun _ => 0) names)
    else let '(ret, l) := fill_irqs names in (ret, to_uint v :: l)
  end.

Definition topo_parse_msi_irq (i k : Z) (dir : path) : M world Z :=
  entries ← ask (fun t => fs_msi t (dir ++ [s2l "msi_irqs"%string]));
  match entries with
  | inl err => mret err
  | inr entries =>
    let names := map fst (List.filter snd entries) in
    upd_irqs i k (set_di_n_irqs (Z.of_nat (length names)));;
    ok ← calloc;
    if negb ok then mret (- ENOMEM) else
    let '(ret, numbers) := fill_irqs names in
    upd_irqs i k (set_di_irq_numbers numbers);;
    mret ret
  end.

(** The new element of the array stays 0. *)
Definition topo_parse_irq (i k : Z) (dir : path) : M world Z :=
  r ← topo_path_read_s32 (DPath dir) Firq;
  let irq := match r with inl _ => -1 | inr v => v end in
  let irq_number := if irq <? 0 then 0 else irq in
  d ← get_pcidev i k;
  let wirqs := pd_irqs d in
  if Z.of_nat (length (di_irq_numbers wirqs)) <? di_n_irqs wirqs then throw OutOfBounds else
  if existsb (Z.eqb irq_number) (take (Z.to_nat (di_n_irqs wirqs)) (di_irq_numbers wirqs))
  then mret 0 else
  numbers ← expand_array 0 (di_irq_numbers wirqs) (di_n_irqs wirqs) (di_n_irqs wirqs + 1);
  upd_irqs i k (set_di_irq_numbers (default [] numbers));;
  match numbers with
  | None => mret (- ENOMEM)
  | Some _ => upd_irqs i k (fun q => set_di_n_irqs (di_n_irqs q + 1) q);; mret 0
  end.

(** The first loop: whether [msi_irqs] and [irq] exist, and the last result of
    [lstat]. *)
Fixpoint find_irq_files (names : list cstring) (msi irq : bool) (ret : Z) : M world (bool * bool * Z) :=
  match names with
  | [] => mret (msi, irq, ret)
  | d_name :: names =>
    if msi && irq then mret (msi, irq, ret) else
    r ← lstat d_name;
    match r with
    | inl _ => find_irq_files names msi irq (-1)
    | inr isdir =>
      if negb msi && isdir then
        find_irq_files names (bool_decide (d_name = s2l "msi_irqs"%string)) irq 0
      else if negb irq && bool_decide (d_name = s2l "irq"%string) then
        find_irq_files names msi true 0
      else find_irq_files names msi irq 0
    end
  end.

Definition topo_parse_device_irqs (i k : Z) (dir : path) : M world Z :=
  upd_irqs i k (set_di_n_irqs 0);;
  entries ← ask (fun t => fs_list t (DPath dir));
  match entries with
  | inl err => mret err
  | inr names =>
    r ← find_irq_files names false false 0;
    let '(msi, irq, ret) := r in
    ret ← (if (msi : bool) then topo_parse_msi_irq i k dir else mret ret);
    if msi && negb (ret =? 0) then mret ret else
    if (irq : bool) then topo_parse_irq i k dir else mret ret
  end.

(** ** PCI devices *)

Definition topo_parse_pci_smmu (i k : Z) (dir : path) : M world Z :=
  upd_pcidev i k (set_pd_smmu_idx (-1));;
  link ← ask (fun t => fs_readlink t (dir ++ [s2l "iommu"%string]));
  match link with
  | inl err => mret (if err =? - ENOENT then 0 else err)
  | inr buf_link =>
    match strstr buf_link arm_smmu_v3 with
    | None => mret 0
    | Some p_index =>
      upd_pcidev i k (set_pd_smmu_idx (to_int (strtol0 (drop 12 p_index)).1.1));;
      mret 0
    end
  end.

(** A hexadecimal number, 0 when it cannot be read. *)
Definition read_hex (dir : path) (filename : file) (bits : Z) : M world Z :=
  r ← topo_path_read_buffer (DPath dir) filename [] (WAYCA_SC_ATTR_STRING_LEN - 1);
  mret (if r.1 <=? 0 then 0
        else match scan_x r.2 with Some v => v mod 2 ^ bits | None => 0 end).

Definition topo_parse_pci_info (i k : Z) (dir : path) : M world Z :=
  class ← read_hex dir Fclass 32;
  upd_pcidev i k (set_pd_class class);;
  vendor ← read_hex dir Fvendor 16;
  upd_pcidev i k (set_pd_vendor vendor);;
  device ← read_hex dir Fdevice 16;
  upd_pcidev i k (set_pd_device device);;
  ok ← calloc;
  if negb ok then mret (- ENOMEM) else
  p ← get_topo;
  r ← topo_path_read_cpulist (DPath dir) Flocal_cpulist (tp_kernel_max_cpus p);
  upd_pcidev i k (set_pd_local_cpu_map r.2);;
  if negb (r.1 =? 0) && CPU_EQUAL_S (tp_setsize p) (tp_online_cpu_map p) (tp_cpu_map p)
  then mret r.1 else
  ret ← topo_parse_device_irqs i k dir;
  if ret <? 0 then mret ret else
  r ← topo_path_read_s32 (DPath dir) Fenable;
  match r with
  | inl ret => mret ret
  | inr enable => upd_pcidev i k (set_pd_enable enable);; mret 0
  end.

(** The number in [numa_node], 0 when there is none or it is negative. *)
Definition read_numa_node (dir : path) : M world Z :=
  r ← topo_path_read_s32 (DPath dir) Fnuma_node;
  mret (match r with inl _ => 0 | inr v => if v <? 0 then 0 else v end).

(** The number of the node, and its index when there is such a node. *)
Definition topo_parse_pci_numa_node (dir : path) : M world (Z * option Z) :=
  node_nb ← read_numa_node dir;
  p ← get_topo;
  i ← find_key nd_node_idx node_nb (tp_nodes p) (Z.to_nat (tp_n_nodes p)) 0;
  mret (node_nb, if i =? tp_n_nodes p then None else Some i).

Definition topo_parse_pci_device (dir : path) : M world Z :=
  ok ← calloc;
  if negb ok then mret (- ENOMEM) else
  node ← topo_parse_pci_numa_node dir;
  match node with
  | (_, None) => mret (- EINVAL)
  | (node_nb, Some i) =>
  n ← get_node i;
  let k := nd_n_pcidevs n in
  pcidevs ← topo_expand_mem (nd_pcidevs n) k (k + 1);
  upd_node i (set_nd_pcidevs (default [] pcidevs));;
  match pcidevs with
  | None => mret (- ENOMEM)
  | Some pcidevs =>
    l ← put_index pcidevs k
      (Some (mk_wayca_pci_device node_nb 0 0 (strncpy PATH_MAX (path_string dir))
               (strncpy WAYCA_SC_PCI_SLOT_NAME_LEN_MAX (default [] (last dir)))
               None 0 0 0 (mk_wayca_device_irqs 0 [])));
    upd_node i (fun n => set_nd_n_pcidevs (k + 1) (set_nd_pcidevs l n));;
    or_return (topo_parse_pci_info i k dir) (topo_parse_pci_smmu i k dir)
  end
  end.

(** ** SMMUs *)

(** The first entry that contains "smmu3". *)
Fixpoint find_base_addr (names : list cstring) : outcome (option Z) :=
  match names with
  | [] => Ok None
  | d_name :: names =>
    match strstr d_name smmu3 with
    | Some p_index => s ← after_word smmu3 p_index; Ok (Some (strtoul0 s).1.1)
    | None => find_base_addr names
    end
  end.

Definition topo_parse_smmu_info (i k : Z) (dir : path) : M world Z :=
  match strstr (path_string dir) arm_smmu_v3 with
  | None => mret (- EIO)
  | Some p_index =>
    upd_smmu i k (set_sm_name (strncpy WAYCA_SC_ATTR_STRING_LEN p_index));;
    modalias ← read_string (DPath dir) Fmodalias;
    upd_smmu i k (set_sm_modalias modalias);;
    s ← lift (after_word arm_smmu_v3 p_index);
    upd_smmu i k (set_sm_smmu_idx (to_int (strtol0 s).1.1));;
    entries ← ask (fun t => fs_list t (DPath (dir ++ [s2l "iommu"%string])));
    match entries with
    | inl err => mret err
    | inr names =>
      base_addr ← lift (find_base_addr names);
      (match base_addr with
       | Some v => upd_smmu i k (set_sm_base_addr v)
       | None => mret tt
       end);;
      mret 0
    end
  end.

Definition topo_parse_smmu (dir : path) : M world Z :=
  ok ← calloc;
  if negb ok then mret (- ENOMEM) else
  node_nb ← read_numa_node dir;
  p ← get_topo;
  i ← find_key nd_node_idx node_nb (tp_nodes p) (Z.to_nat (tp_n_nodes p)) 0;
  if i =? tp_n_nodes p then mret (- EINVAL) else
  n ← get_node i;
  let k := nd_n_smmus n in
  smmus ← topo_expand_mem (nd_smmus n) k (k + 1);
  upd_node i (set_nd_smmus (default [] smmus));;
  match smmus with
  | None => mret (- ENOMEM)
  | Some smmus =>
    l ← put_index smmus k (Some (mk_wayca_smmu 0 node_nb 0 [] []));
    upd_node i (fun n => set_nd_n_smmus (k + 1) (set_nd_smmus l n));;
    topo_parse_smmu_info i k dir
  end.

(** ** The walk *)

Definition is_pci_device_dir (dir : path) : M world bool :=
  link ← ask (fun t => fs_readlink t (dir ++ [s2l "subsystem"%string]));
  mret (match link with inl _ => false | inr target => contains target (s2l "bus/pci"%string) end).

Definition topo_parse_io_device (dir : option path) : M world Z :=
  match dir with
  | None => mret (- EINVAL)
  | Some dir =>
    pci ← (if contains (path_string dir) (s2l "pci"%string) then is_pci_device_dir dir
           else mret false);
    if (pci : bool) then topo_parse_pci_device dir
    else if contains (path_string dir) (s2l "smmu"%string) then topo_parse_smmu dir
    else mret 0
  end.

(** The loop over the entries of a directory, given the walk over a directory
    below the working directory. *)
Fixpoint io_entries (walk : cstring -> M world Z) (names : list cstring) : M world Z :=
  match names with
  | [] => mret 0
  | d_name :: names =>
    r ← lstat d_name;
    match r with
    | inl err => mret err
    | inr true =>
      if bool_decide (d_name = dot) || bool_decide (d_name = dotdot) then io_entries walk names
      else walk d_name;; io_entries walk names
    | inr false =>
      (if bool_decide (d_name = s2l "numa_node"%string) then
         cwd ← getcwd; topo_parse_io_device cwd;; mret tt
       else mret tt);;
      io_entries walk names
    end
  end.

(** The directory is below the working directory or an absolute path. *)
Fixpoint topo_recursively_read_io_devices (fuel : nat) (rootdir : cstring + path) : M world Z :=
  match fuel with
  | O => throw OutOfFuel
  | S fuel =>
    cwd ← gets w_cwd;
    let root := match rootdir with inl name => cwd ++ [name] | inr p => p end in
    entries ← ask (fun t => fs_list t (DPath root));
    match entries with
    | inl err => mret err
    | inr names =>
      chdir root;;
      ret ← io_entries (fun name => topo_recursively_read_io_devices fuel (inl name)) names;
      cwd ← gets w_cwd;
      chdir (removelast cwd);;
      mret ret
    end
  end.

(** A path shorter than PATH_MAX has fewer components. *)
Definition io_fuel : nat := 2048.
End dev.
