(* ===== verification/TopoInit.v ===== *)
(** * Reading the topology

    [topo_init] and [wayca_sc_is_cpu_online] of [lib/topo.c] call each other (a
    CPU whose state changed makes the topology be read again), so they are tied
    together with fuel. *)

From Stdlib Require Import Ascii String.
From S2P Require Import Prelude Bitops Cpuset Cstring Dynset Cpulist TopoState Topo TopoDev.

Section init.
Context `{F : Sysfs}.

(** [topo_init], given [wayca_sc_is_cpu_online]. *)
Definition topo_init_body (is_cpu_online : Z -> M world bool) : M world unit :=
  saved ← ask fs_getcwd;
  origin_wd ← gets w_cwd;
  upd_topo (fun _ => zero_topo);;
  ret ← or_return topo_alloc_cpu (
        or_return topo_alloc_node_map (
        or_return (topo_construct_cpu_topology is_cpu_online) (
        or_return topo_construct_numa_topology (
        or_return topo_construct_core_topology (
        or_return (topo_recursively_read_io_devices io_fuel (inr sysdev)) (
        env ← ask fs_env;
        if (env : bool) then topo_get_irq_info else mret 0))))));
  if negb (ret =? 0) then topo_free
  else if negb saved then throw Uninitialised  (* origin_wd was never written *)
  else chdir origin_wd.

Definition topo_is_valid_cpu (p : wayca_topo) (cpu_id : Z) : bool :=
  (0 <=? cpu_id) && (cpu_id <? tp_n_cpus p).

(** [wayca_sc_is_cpu_online], given [topo_init]. *)
Definition is_cpu_online_body (topo_init : M world unit) (cpu : Z) : M world bool :=
  p ← get_topo;
  if negb (topo_is_valid_cpu p cpu) then mret false
  else if cpu =? 0 then mret true
  else
  r ← topo_path_read_s32 (DCpu cpu) Fonline;
  match r with
  | inl _ => throw Uninitialised  (* [online] was never written *)
  | inr online =>
    let known := CPU_ISSET_S cpu (tp_setsize p) (tp_online_cpu_map p) in
    if online =? Z.b2z known then mret known
    else
      topo_free;;
      topo_init;;
      p ← get_topo;
      mret (CPU_ISSET_S cpu (tp_setsize p) (tp_online_cpu_map p))
  end.

(** [fuel] bounds how often the topology is read again while it is being read. *)
Fixpoint topo_init (fuel : nat) : M world unit :=
  topo_init_body (is_cpu_online_body (match fuel with
                                      | O => throw OutOfFuel
                                      | S fuel => topo_init fuel
                                      end)).

Definition wayca_sc_is_cpu_online (fuel : nat) (cpu : Z) : M world bool :=
  is_cpu_online_body (topo_init fuel) cpu.
End init.
