(* ===== verification/TopoQuery.v ===== *)
(** * Queries of the topology

    The functions of [lib/topo.c] that the other components and the users of the
    library call: counts, masks, identifiers, sizes of caches, interrupts, devices. *)

From Stdlib Require Import Ascii String.
From S2P Require Import Prelude Bitops Cpuset Cstring Dynset Cpulist TopoState Topo TopoDev.
From S2P Require Import TopoInit.

Section queries.
Context `{F : Sysfs}.

(** How often the topology may be read again inside one query. *)
Context (fuel : nat).

(** ** Counts *)

(** The results are [int]s. *)
Definition count (n : Z) : M world Z := mret (to_int n).

(** The largest of the first [n] elements, from [acc] on. *)
Fixpoint max_cpus {A} (n_cpus : A -> Z) (l : list (option A)) (n : nat) (acc : Z) : M world Z :=
  match n, l with
  | O, _ => mret acc
  | S n, [] => throw OutOfBounds
  | S n, None :: _ => throw NullDeref
  | S n, Some a :: l => max_cpus n_cpus l n (if acc <? n_cpus a then n_cpus a else acc)
  end.

Definition wayca_sc_cores_in_total : M world Z :=
  p ← get_topo;
  if tp_n_cores p <? 1 then mret (- ENODATA) else
  cpu_in_core ← max_cpus c_n_cpus (tp_cores p) (Z.to_nat (tp_n_cores p)) 0;
  if 0 <? cpu_in_core then
    modify (set_w_max_cores (tp_n_cpus p / cpu_in_core));;
    count (tp_n_cpus p / cpu_in_core)
  else mret (- ENODATA).

Definition wayca_sc_ccls_in_total : M world Z :=
  p ← get_topo;
  if tp_n_clusters p <? 1 then mret (- ENODATA) else
  cpu_in_ccl ← max_cpus l_n_cpus (tp_ccls p) (Z.to_nat (tp_n_clusters p)) 0;
  if 0 <? cpu_in_ccl then
    modify (set_w_max_ccls (tp_n_cpus p / cpu_in_ccl));;
    count (tp_n_cpus p / cpu_in_ccl)
  else mret (- ENODATA).

Definition wayca_sc_cpus_in_core : M world Z :=
  p ← get_topo;
  if tp_n_cores p <? 1 then mret (- ENODATA) else
  wayca_sc_cores_in_total;;
  max_cores ← gets w_max_cores;
  if 0 <? max_cores then count (tp_n_cpus p / max_cores) else mret (- ENODATA).

Definition wayca_sc_cpus_in_ccl : M world Z :=
  p ← get_topo;
  if tp_n_clusters p <? 1 then mret (- ENODATA) else
  wayca_sc_ccls_in_total;;
  max_ccls ← gets w_max_ccls;
  if 0 <? max_ccls then count (tp_n_cpus p / max_ccls) else mret (- ENODATA).

Definition wayca_sc_cpus_in_node : M world Z :=
  p ← get_topo;
  if tp_n_nodes p <? 1 then mret (- ENODATA) else count (tp_n_cpus p / tp_n_nodes p).

Definition wayca_sc_cpus_in_package : M world Z :=
  p ← get_topo;
  if tp_n_packages p <? 1 then mret (- ENODATA) else count (tp_n_cpus p / tp_n_packages p).

Definition wayca_sc_cpus_in_total : M world Z :=
  p ← get_topo;
  if tp_n_cpus p <? 1 then mret (- ENODATA) else count (tp_n_cpus p).

Definition wayca_sc_cores_in_ccl : M world Z :=
  p ← get_topo;
  if tp_n_clusters p <? 1 then mret (- ENODATA)
  else if tp_n_cores p <? 1 then mret (- ENODATA) else
  wayca_sc_cores_in_total;;
  wayca_sc_ccls_in_total;;
  max_ccls ← gets w_max_ccls;
  max_cores ← gets w_max_cores;
  if (0 <? max_ccls) && (0 <? max_cores) then count (max_cores / max_ccls)
  else mret (- ENODATA).

Definition wayca_sc_cores_in_node : M world Z :=
  p ← get_topo;
  if (tp_n_cores p <? 1) || (tp_n_nodes p <? 1) then mret (- ENODATA) else
  wayca_sc_cores_in_total;;
  max_cores ← gets w_max_cores;
  if 0 <? max_cores then count (max_cores / tp_n_nodes p) else mret (- ENODATA).

Definition wayca_sc_cores_in_package : M world Z :=
  p ← get_topo;
  if (tp_n_cores p <? 1) || (tp_n_packages p <? 1) then mret (- ENODATA) else
  wayca_sc_cores_in_total;;
  max_cores ← gets w_max_cores;
  if 0 <? max_cores then count (max_cores / tp_n_packages p) else mret (- ENODATA).

Definition wayca_sc_ccls_in_package : M world Z :=
  p ← get_topo;
  if (tp_n_clusters p <? 1) || (tp_n_packages p <? 1) then mret (- ENODATA) else
  wayca_sc_ccls_in_total;;
  max_ccls ← gets w_max_ccls;
  if 0 <? max_ccls then count (max_ccls / tp_n_packages p) else mret (- ENODATA).

Definition wayca_sc_ccls_in_node : M world Z :=
  p ← get_topo;
  if (tp_n_clusters p <? 1) || (tp_n_nodes p <? 1) then mret (- ENODATA) else
  wayca_sc_ccls_in_total;;
  max_ccls ← gets w_max_ccls;
  if 0 <? max_ccls then count (max_ccls / tp_n_nodes p) else mret (- ENODATA).

Definition wayca_sc_nodes_in_package : M world Z :=
  p ← get_topo;
  if tp_n_packages p <? 1 then mret (- ENODATA) else count (tp_n_nodes p / tp_n_packages p).

Definition wayca_sc_nodes_in_total : M world Z :=
  p ← get_topo;
  if tp_n_nodes p <? 1 then mret (- ENODATA) else count (tp_n_nodes p).

Definition wayca_sc_packages_in_total : M world Z :=
  p ← get_topo;
  if tp_n_packages p <? 1 then mret (- ENODATA) else count (tp_n_packages p).

(** ** Identifiers *)

Definition is_valid (n id : Z) : bool := (0 <=? id) && (id <? n).
Definition topo_is_valid_core (p : wayca_topo) (id : Z) : bool := is_valid (tp_n_cores p) id.
Definition topo_is_valid_ccl (p : wayca_topo) (id : Z) : bool := is_valid (tp_n_clusters p) id.
Definition topo_is_valid_node (p : wayca_topo) (id : Z) : bool := is_valid (tp_n_nodes p) id.
Definition topo_is_valid_package (p : wayca_topo) (id : Z) : bool := is_valid (tp_n_packages p) id.

Definition wayca_sc_get_physical_id (elem_name : cstring) (logical_id : Z) : M world Z :=
  p ← get_topo;
  if bool_decide (elem_name = s2l "package"%string) && topo_is_valid_package p logical_id then
    k ← get_package logical_id; mret (pk_physical_package_id k)
  else if bool_decide (elem_name = s2l "cluster"%string) && topo_is_valid_ccl p logical_id then
    c ← get_ccl logical_id; mret (l_cluster_id c)
  else if bool_decide (elem_name = s2l "core"%string) && topo_is_valid_core p logical_id then
    c ← at_index (tp_cores p) logical_id; mret (c_core_id c)
  else mret (- ENODATA).

(** [for (i = 0; i < num_cpu; i++) wayca_sc_is_cpu_online(i);] *)
Fixpoint check_cpus (n : nat) (i : Z) : M world unit :=
  match n with
  | O => mret tt
  | S n => wayca_sc_is_cpu_online fuel i;; check_cpus n (i + 1)
  end.

Definition check_and_update_cpu_status : M world unit :=
  num_cpu ← wayca_sc_cpus_in_total;
  check_cpus (Z.to_nat num_cpu) 0.

(** ** Masks *)

(** The last part of the functions: the size check, and the copy. [mask] is what
    the pointer points to. *)
Definition copy_mask (valid_setsize setsize : Z) (mask src : cpu_set_t) : Z * option cpu_set_t :=
  if setsize <? valid_setsize then (- EINVAL, Some mask)
  else let mask := CPU_ZERO_S setsize mask in
       (0, Some (CPU_OR_S valid_setsize mask mask src)).

Definition wayca_sc_core_cpu_mask (core_id cpusetsize : Z) (mask : option cpu_set_t)
    : M world (Z * option cpu_set_t) :=
  p ← get_topo;
  match mask with
  | Some m =>
    if negb (topo_is_valid_core p core_id) then mret (- EINVAL, mask) else
    check_and_update_cpu_status;;
    p ← get_topo;
    if cpusetsize <? CPU_ALLOC_SIZE (tp_n_cpus p) then mret (- EINVAL, mask) else
    c ← at_index (tp_cores p) core_id;
    map ← deref (c_core_cpus_map c);
    mret (copy_mask (CPU_ALLOC_SIZE (tp_n_cpus p)) cpusetsize m map)
  | None => mret (- EINVAL, None)
  end.

Definition wayca_sc_ccl_cpu_mask (ccl_id cpusetsize : Z) (mask : option cpu_set_t)
    : M world (Z * option cpu_set_t) :=
  p ← get_topo;
  match mask with
  | Some m =>
    if negb (topo_is_valid_ccl p ccl_id) then mret (- EINVAL, mask) else
    check_and_update_cpu_status;;
    p ← get_topo;
    if cpusetsize <? CPU_ALLOC_SIZE (tp_n_cpus p) then mret (- EINVAL, mask) else
    c ← get_ccl ccl_id;
    mret (copy_mask (CPU_ALLOC_SIZE (tp_n_cpus p)) cpusetsize m (l_cpu_map c))
  | None => mret (- EINVAL, None)
  end.

Definition wayca_sc_ccl_core_mask (ccl_id setsize : Z) (mask : option cpu_set_t)
    : M world (Z * option cpu_set_t) :=
  p ← get_topo;
  match mask with
  | Some m =>
    if negb (topo_is_valid_ccl p ccl_id) then mret (- EINVAL, mask) else
    check_and_update_cpu_status;;
    p ← get_topo;
    if setsize <? CPU_ALLOC_SIZE (tp_n_cores p) then mret (- EINVAL, mask) else
    c ← get_ccl ccl_id;
    mret (copy_mask (CPU_ALLOC_SIZE (tp_n_cores p)) setsize m (l_core_map c))
  | None => mret (- EINVAL, None)
  end.

Definition wayca_sc_node_cpu_mask (node_id cpusetsize : Z) (mask : option cpu_set_t)
    : M world (Z * option cpu_set_t) :=
  p ← get_topo;
  match mask with
  | Some m =>
    if negb (topo_is_valid_node p node_id) then mret (- EINVAL, mask) else
    check_and_update_cpu_status;;
    p ← get_topo;
    if cpusetsize <? CPU_ALLOC_SIZE (tp_n_cpus p) then mret (- EINVAL, mask) else
    n ← get_node node_id;
    mret (copy_mask (CPU_ALLOC_SIZE (tp_n_cpus p)) cpusetsize m (nd_cpu_map n))
  | None => mret (- EINVAL, None)
  end.

Definition wayca_sc_node_core_mask (node_id setsize : Z) (mask : option cpu_set_t)
    : M world (Z * option cpu_set_t) :=
  p ← get_topo;
  match mask with
  | Some m =>
    if negb (topo_is_valid_node p node_id) then mret (- EINVAL, mask) else
    check_and_update_cpu_status;;
    p ← get_topo;
    if setsize <? CPU_ALLOC_SIZE (tp_n_cores p) then mret (- EINVAL, mask) else
    n ← get_node node_id;
    mret (copy_mask (CPU_ALLOC_SIZE (tp_n_cores p)) setsize m (nd_core_map n))
  | None => mret (- EINVAL, None)
  end.

Definition wayca_sc_node_ccl_mask (node_id setsize : Z) (mask : option cpu_set_t)
    : M world (Z * option cpu_set_t) :=
  p ← get_topo;
  match mask with
  | Some m =>
    if negb (topo_is_valid_node p node_id) then mret (- EINVAL, mask) else
    check_and_update_cpu_status;;
    p ← get_topo;
    if setsize <? CPU_ALLOC_SIZE (tp_n_clusters p) then mret (- EINVAL, mask) else
    n ← get_node node_id;
    mret (copy_mask (CPU_ALLOC_SIZE (tp_n_clusters p)) setsize m (nd_cluster_map n))
  | None => mret (- EINVAL, None)
  end.

Definition wayca_sc_package_cpu_mask (package_id cpusetsize : Z) (mask : option cpu_set_t)
    : M world (Z * option cpu_set_t) :=
  p ← get_topo;
  match mask with
  | Some m =>
    if negb (topo_is_valid_package p package_id) then mret (- EINVAL, mask) else
    check_and_update_cpu_status;;
    p ← get_topo;
    if cpusetsize <? CPU_ALLOC_SIZE (tp_n_cpus p) then mret (- EINVAL, mask) else
    k ← get_package package_id;
    mret (copy_mask (CPU_ALLOC_SIZE (tp_n_cpus p)) cpusetsize m (pk_cpu_map k))
  | None => mret (- EINVAL, None)
  end.

Definition wayca_sc_total_cpu_mask (cpusetsize : Z) (mask : option cpu_set_t)
    : M world (Z * option cpu_set_t) :=
  match mask with
  | Some m =>
    check_and_update_cpu_status;;
    p ← get_topo;
    mret (copy_mask (CPU_ALLOC_SIZE (tp_n_cpus p)) cpusetsize m (tp_cpu_map p))
  | None => mret (- EINVAL, None)
  end.

Definition wayca_sc_total_online_cpu_mask (cpusetsize : Z) (mask : option cpu_set_t)
    : M world (Z * option cpu_set_t) :=
  match mask with
  | Some m =>
    check_and_update_cpu_status;;
    p ← get_topo;
    mret (copy_mask (CPU_ALLOC_SIZE (tp_n_cpus p)) cpusetsize m (tp_online_cpu_map p))
  | None => mret (- EINVAL, None)
  end.

Definition wayca_sc_package_node_mask (package_id setsize : Z) (mask : option cpu_set_t)
    : M world (Z * option cpu_set_t) :=
  p ← get_topo;
  match mask with
  | Some m =>
    if negb (topo_is_valid_package p package_id) then mret (- EINVAL, mask) else
    check_and_update_cpu_status;;
    p ← get_topo;
    if setsize <? CPU_ALLOC_SIZE (tp_n_nodes p) then mret (- EINVAL, mask) else
    k ← get_package package_id;
    mret (copy_mask (CPU_ALLOC_SIZE (tp_n_nodes p)) setsize m (pk_numa_map k))
  | None => mret (- EINVAL, None)
  end.

Definition wayca_sc_total_node_mask (setsize : Z) (mask : option cpu_set_t)
    : M world (Z * option cpu_set_t) :=
  match mask with
  | Some m =>
    check_and_update_cpu_status;;
    p ← get_topo;
    mret (copy_mask (CPU_ALLOC_SIZE (tp_n_nodes p)) setsize m (tp_node_map p))
  | None => mret (- EINVAL, None)
  end.

(** ** From CPUs to the parts they belong to *)

(** [find_key] over [n] elements; [-EINVAL] when there is none. *)
Definition index_of {A} (key : A -> Z) (k : Z) (l : list (option A)) (n : Z) : M world Z :=
  i ← find_key key k l (Z.to_nat n) 0;
  mret (if i <? n then i else - EINVAL).

Definition wayca_sc_get_core_id (cpu_id : Z) : M world Z :=
  p ← get_topo;
  if negb (topo_is_valid_cpu p cpu_id) then mret (- EINVAL) else
  online ← wayca_sc_is_cpu_online fuel cpu_id;
  if negb online then mret (- ENOENT) else
  c ← get_cpu cpu_id;
  p ← get_topo;
  index_of c_core_id (u_core_id c) (tp_cores p) (tp_n_cores p).

Definition wayca_sc_get_ccl_id (cpu_id : Z) : M world Z :=
  p ← get_topo;
  if negb (topo_is_valid_cpu p cpu_id) then mret (- EINVAL) else
  n ← wayca_sc_cpus_in_ccl;
  if n <? 0 then mret (- EINVAL) else
  online ← wayca_sc_is_cpu_online fuel cpu_id;
  if negb online then mret (- ENOENT) else
  c ← get_cpu cpu_id;
  ccl ← deref (u_p_cluster c);
  l ← get_ccl (Z.of_nat ccl);
  p ← get_topo;
  index_of l_cluster_id (l_cluster_id l) (tp_ccls p) (tp_n_clusters p).

Definition wayca_sc_get_node_id (cpu_id : Z) : M world Z :=
  p ← get_topo;
  if negb (topo_is_valid_cpu p cpu_id) then mret (- EINVAL) else
  c ← get_cpu cpu_id;
  node ← deref (u_p_numa_node c);
  n ← get_node (Z.of_nat node);
  mret (nd_node_idx n).

Definition wayca_sc_get_package_id (cpu_id : Z) : M world Z :=
  p ← get_topo;
  if negb (topo_is_valid_cpu p cpu_id) then mret (- EINVAL) else
  online ← wayca_sc_is_cpu_online fuel cpu_id;
  if negb online then mret (- ENOENT) else
  c ← get_cpu cpu_id;
  pkg ← deref (u_p_package c);
  k ← get_package (Z.of_nat pkg);
  p ← get_topo;
  index_of pk_physical_package_id (pk_physical_package_id k) (tp_packages p) (tp_n_packages p).

(** The result and, when it is 0, the size. [size] tells whether the pointer is
    not NULL. *)
Definition wayca_sc_get_node_mem_size (node_id : Z) (size : bool) : M world (Z * option Z) :=
  p ← get_topo;
  if negb size || negb (topo_is_valid_node p node_id) then mret (- EINVAL, None) else
  n ← get_node node_id;
  kB ← deref (nd_p_meminfo n);
  mret (0, Some kB).

(** ** Caches *)

Definition parse_cache_size (size : cstring) : Z :=
  let '(v, _, endstr) := strtol 10 size in
  let cache_size := to_int v in
  if (cache_size <? 0) || negb (char_at endstr =? 75 (* 'K' *)) then - EINVAL else cache_size.

(** The loop of the four functions: the first cache of a level and a type. *)
Fixpoint find_cache (level : Z) (type : cstring) (caches : list wayca_cache) : Z :=
  match caches with
  | [] => - ENODATA
  | c :: caches =>
    if (ch_level c =? level) && bool_decide (ch_type c = type)
    then parse_cache_size (ch_cache_size c)
    else find_cache level type caches
  end.

Definition get_cache_size (level : Z) (type : cstring) (cpu_id : Z) : M world Z :=
  p ← get_topo;
  if negb (topo_is_valid_cpu p cpu_id) then mret (- EINVAL) else
  online ← wayca_sc_is_cpu_online fuel cpu_id;
  if negb online then mret 0 else
  c ← get_cpu cpu_id;
  mret (find_cache level type (take (Z.to_nat (u_n_caches c)) (u_p_caches c))).

Definition wayca_sc_get_l1i_size : Z -> M world Z := get_cache_size 1 (s2l "Instruction"%string).
Definition wayca_sc_get_l1d_size : Z -> M world Z := get_cache_size 1 (s2l "Data"%string).
Definition wayca_sc_get_l2_size : Z -> M world Z := get_cache_size 2 (s2l "Unified"%string).
Definition wayca_sc_get_l3_size : Z -> M world Z := get_cache_size 3 (s2l "Unified"%string).

(** ** Interrupts *)

(** The result, the number and the list. [num] and [irq] tell whether the
    pointers are not NULL. *)
Definition wayca_sc_get_irq_list (num irq : bool) : M world (Z * option Z * option (list Z)) :=
  if negb num then mret (- EINVAL, None, None) else
  p ← get_topo;
  ret ← match tp_irqs p with None => topo_get_irq_info | Some _ => mret 0 end;
  if negb (ret =? 0) then mret (ret, None, None) else
  p ← get_topo;
  irqs ← deref (tp_irqs p);
  mret (0, Some (tp_n_irqs p), if irq then Some (map i_irq_number irqs) else None).

Fixpoint find_irq (irq_num : Z) (irqs : list wayca_irq) : option wayca_irq :=
  match irqs with
  | [] => None
  | i :: irqs => if i_irq_number i =? irq_num then Some i else find_irq irq_num irqs
  end.

Definition wayca_sc_get_irq_info (irq_num : Z) (irq_info : bool) : M world (Z * option wayca_irq) :=
  if negb irq_info then mret (- EINVAL, None) else
  p ← get_topo;
  ret ← match tp_irqs p with None => topo_get_irq_info | Some _ => mret 0 end;
  if negb (ret =? 0) then mret (ret, None) else
  p ← get_topo;
  irqs ← deref (tp_irqs p);
  mret (match find_irq irq_num irqs with
        | Some i => (0, Some i)
        | None => (- ENOENT, None)
        end).

(** ** Devices *)

(** The loop over the [n] elements of an array from [k] on. *)
Fixpoint array_names {A} (name : A -> cstring) (l : list (option A)) (n : nat) (k : Z)
    : M world (list cstring) :=
  match n with
  | O => mret []
  | S n =>
    a ← at_index l k;
    rest ← array_names name l n (k + 1);
    mret (name a :: rest)
  end.

(** The loops over the [n] nodes from [i] on: the number of devices, and their
    names. *)
Fixpoint count_devices (n : nat) (i : Z) : M world Z :=
  match n with
  | O => mret 0
  | S n =>
    nd ← get_node i;
    rest ← count_devices n (i + 1);
    mret (nd_n_pcidevs nd + nd_n_smmus nd + rest)
  end.

Fixpoint device_names (n : nat) (i : Z) : M world (list cstring) :=
  match n with
  | O => mret []
  | S n =>
    nd ← get_node i;
    smmus ← array_names sm_name (nd_smmus nd) (Z.to_nat (nd_n_smmus nd)) 0;
    pcidevs ← array_names pd_slot_name (nd_pcidevs nd) (Z.to_nat (nd_n_pcidevs nd)) 0;
    rest ← device_names n (i + 1);
    mret (smmus ++ pcidevs ++ rest)
  end.

(** The result, the number and the names. [num] and [name] tell whether the
    pointers are not NULL. *)
Definition wayca_sc_get_device_list (numa_node : Z) (num name : bool)
    : M world (Z * option Z * option (list cstring)) :=
  total ← wayca_sc_nodes_in_total;
  if (total <=? numa_node) || negb num then mret (- EINVAL, None, None) else
  p ← get_topo;
  let '(start_node, end_node) :=
    if numa_node <? 0 then (0, to_int (tp_n_nodes p) - 1) else (numa_node, numa_node) in
  let n := Z.to_nat (end_node + 1 - start_node) in
  count ← count_devices n start_node;
  if negb name then mret (0, Some count, None) else
  names ← device_names n start_node;
  mret (0, Some count, Some names).

(** struct wayca_sc_device_info: the union, and the structure. *)
Inductive device_detail :=
  | NoDetail
  | SmmuDetail (base_addr : Z) (modalias : cstring)
  | PciDetail (device vendor class : Z) (irq_numbers : list Z) (nb_irq : Z).

Record wayca_sc_device_info := mk_device_info {
  dv_name : option cstring;
  dv_dev_type : Z;  (** enum wayca_sc_device_type *)
  dv_smmu_idx : Z;
  dv_numa_node : Z;
  dv_detail : device_detail;
}.

Definition zero_device_info : wayca_sc_device_info := mk_device_info None 0 0 0 NoDetail.
Definition WAYCA_SC_TOPO_DEV_TYPE_PCI : Z := 1.
Definition WAYCA_SC_TOPO_DEV_TYPE_SMMU : Z := 2.

Definition topo_copy_smmu_info (dev_type : Z) (smmu : wayca_smmu) : wayca_sc_device_info :=
  mk_device_info (Some (sm_name smmu)) dev_type (sm_smmu_idx smmu) (sm_numa_node smmu)
    (SmmuDetail (sm_base_addr smmu) (sm_modalias smmu)).

Definition topo_copy_pcidev_info (dev_type : Z) (pcidev : wayca_pci_device) : wayca_sc_device_info :=
  mk_device_info (Some (pd_slot_name pcidev)) dev_type (pd_smmu_idx pcidev) (pd_numa_node pcidev)
    (PciDetail (pd_device pcidev) (pd_vendor pcidev) (pd_class pcidev)
       (di_irq_numbers (pd_irqs pcidev)) (to_int (di_n_irqs (pd_irqs pcidev)))).

(** The first of the [n] elements from [k] on with a name. *)
Fixpoint find_named {A} (name_of : A -> cstring) (name : cstring) (l : list (option A))
    (n : nat) (k : Z) : M world (option A) :=
  match n with
  | O => mret None
  | S n =>
    a ← at_index l k;
    if decide (name_of a = name) then mret (Some a) else find_named name_of name l n (k + 1)
  end.

Fixpoint find_device (name : cstring) (n : nat) (j : Z) : M world (option wayca_sc_device_info) :=
  match n with
  | O => mret None
  | S n =>
    nd ← get_node j;
    smmu ← find_named sm_name name (nd_smmus nd) (Z.to_nat (nd_n_smmus nd)) 0;
    match smmu with
    | Some smmu => mret (Some (topo_copy_smmu_info WAYCA_SC_TOPO_DEV_TYPE_SMMU smmu))
    | None =>
      pcidev ← find_named pd_slot_name name (nd_pcidevs nd) (Z.to_nat (nd_n_pcidevs nd)) 0;
      match pcidev with
      | Some pcidev => mret (Some (topo_copy_pcidev_info WAYCA_SC_TOPO_DEV_TYPE_PCI pcidev))
      | None => find_device name n (j + 1)
      end
    end
  end.

(** The result and what [dev_info] points to; [dev_info] tells whether the pointer
    is not NULL. *)
Definition wayca_sc_get_device_info (name : option cstring) (dev_info : bool)
    : M world (Z * option wayca_sc_device_info) :=
  match name with
  | Some name =>
    if negb dev_info then mret (- EINVAL, None) else
    p ← get_topo;
    r ← find_device name (Z.to_nat (tp_n_nodes p)) 0;
    mret (match r with
          | Some info => (0, Some info)
          | None => (- ENOENT, Some zero_device_info)
          end)
  | None => mret (- EINVAL, None)
  end.
End queries.
