(* ===== verification/TopoMachine.v ===== *)
(** * A machine

    The files of a machine with four CPUs, one per core, in two clusters and two
    NUMA nodes of one package, with a PCI device and an SMMU: an instance of the
    environment on which the functions of the topology run. *)

From Stdlib Require Import Ascii String.
From S2P Require Import Prelude Bitops Cpuset Cstring Dynset Cpulist TopoState Topo TopoDev.
From S2P Require Import TopoInit TopoQuery.

Module SmallMachine.

Definition line (s : string) : cstring := s2l s ++ [newline].
Definition num (n : Z) : cstring := print_num 10 n ++ [newline].

Definition pair (i : Z) : cstring :=
  if i =? 0 then line "0-1"%string else line "2-3"%string.

(** The directories below [/sys/devices]. *)
Definition bridge : cstring := s2l "0000:00:01.0"%string.
Definition smmu : cstring := s2l "arm-smmu-v3.2.auto"%string.
Definition iommu : cstring := s2l "iommu"%string.

Definition tree (p : path) : option (list cstring) :=
  match p with
  | [_; _] => Some [dot; dotdot; s2l "pci0000:00"%string; s2l "platform"%string]
  | [_; _; b] =>
    if decide (b = s2l "pci0000:00"%string) then Some [bridge]
    else if decide (b = s2l "platform"%string) then Some [smmu] else None
  | [_; _; _; d] =>
    if decide (d = bridge) then Some (map s2l ["irq"%string; "msi_irqs"%string; "numa_node"%string])
    else if decide (d = smmu) then Some [s2l "numa_node"%string; iommu] else None
  | [_; _; _; d; e] =>
    if decide (e = iommu) then Some [s2l "smmu3.0x0000000140000000"%string]
    else if decide (e = s2l "msi_irqs"%string) then Some (map s2l ["40"%string; "41"%string])
    else None
  | _ => None
  end.

Definition is_bridge (p : path) : bool := bool_decide (last p = Some bridge).

(** The files that are read as text. *)
Definition text (d : dir) (f : file) : option cstring :=
  match d, f with
  | DCpus, Fkernel_max => Some (line "127"%string)
  | DCpus, Fpossible | DCpus, Fonline => Some (line "0-3"%string)
  | DCpu _, Fonline => Some (line "1"%string)
  | DTopology i, Fcluster_id => Some (num (50 + i / 2))
  | DTopology i, Fcluster_cpus_list => Some (pair (i / 2))
  | DTopology i, Fphysical_package_id => Some (num 7)
  | DTopology i, Fpackage_cpus_list => Some (line "0-3"%string)
  | DTopology i, Fcore_id => Some (num (100 + i))
  | DTopology i, Fcore_cpus_list => Some (num i)
  | DCache _ 0, Flevel => Some (line "1"%string)
  | DCache _ 0, Ftype | DCache _ 0, Fsize => Some []
  | DCache _ 0, Fshared_cpu_list => Some (line "0"%string)
  | DNodes, Fpossible => Some (line "0-1"%string)
  | DNode i, Fcpulist => Some (pair i)
  | DNode _, Fdistance => Some (line "10 20"%string)
  | DNode _, Fmeminfo => Some (line "Node 0 MemTotal:   8192 kB"%string)
  | DPath p, Fnuma_node => Some (if is_bridge p then line "1"%string else line "-1"%string)
  | DPath p, Flocal_cpulist => Some (line "2-3"%string)
  | DPath p, Firq => Some (line "17"%string)
  | DPath p, Fenable => Some (line "1"%string)
  | DPath p, Fclass | DPath p, Fvendor | DPath p, Fdevice | DPath p, Fmodalias => Some []
  | _, _ => None
  end.

(** The files that are read as bytes. *)
Definition bytes_of (d : dir) (f : file) : list (Z + cstring) :=
  match d, f with
  | DCache _ _, Ftype => [inr (line "Data"%string)]
  | DCache _ _, Fsize => [inr (line "64K"%string)]
  | DPath _, Fclass => [inr (line "0x060400"%string)]
  | DPath _, Fvendor => [inr (line "0x19e5"%string)]
  | DPath _, Fdevice => [inr (line "0xa120"%string)]
  | DPath _, Fmodalias => [inr (line "acpi:arm-smmu-v3"%string)]
  | _, _ => []
  end.

Definition entries_of (d : dir) : Z + list cstring :=
  match d with
  | DCpu i =>
    if (0 <=? i) && (i <? 4)
    then inr [s2l "topology"%string; s2l "node"%string ++ print_num 10 (i / 2)]
    else inl (-2)
  | DPath p => match tree p with Some names => inr names | None => inl (-2) end
  | _ => inl (-2)
  end.

Definition link_of (p : path) : Z + cstring :=
  if decide (last p = Some (s2l "subsystem"%string)) then inr (s2l "../../bus/pci"%string)
  else if decide (last p = Some iommu) then
    inr (s2l "../platform/arm-smmu-v3.2.auto/iommu/smmu3.0x0000000140000000"%string)
  else inl (-2).

#[export] Instance files : Sysfs := {|
  fs_open _ d f := match text d f with Some _ => 0 | None => -2 end;
  fs_text _ d f := default [] (text d f);
  fs_reads _ d f := bytes_of d f;
  fs_list _ d := entries_of d;
  fs_irqs _ := inr [];
  fs_msi _ p := match tree p with Some names => inr (map (fun n => (n, true)) names) | None => inl (-2) end;
  fs_lstat _ p := inr (match tree p with Some _ => true | None => false end);
  fs_readlink _ p := link_of p;
  fs_chdir _ _ := true;
  fs_getcwd _ := true;
  fs_access _ d := match d with DCache _ k => k <? 1 | _ => false end;
  fs_calloc _ := true;
  fs_errno _ := 0;
  fs_env _ := false
|}.

(** The state in which the process starts, and the one after [topo_init]. *)
Definition start : world := mk_world zero_topo 0 0 (-1) 0 [s2l "root"%string].
Definition after {A} (o : outcome (A * world)) : world :=
  match o with Ok (_, w) => w | Fault _ => start end.
Definition ready : world := Eval vm_compute in after (topo_init 0 start).

Lemma ready_eq : topo_init 0 start = Ok (tt, ready).
Proof. vm_compute. reflexivity. Qed.

Lemma nodes_small t c names j :
  fs_list t (DCpu c) = inr names -> find_node_entry names = Some j -> 0 <= j < 64.
Proof.
  change (fs_list t (DCpu c)) with (entries_of (DCpu c)). unfold entries_of.
  destruct ((0 <=? c) && (c <? 4)) eqn:E; [|done]. zbool. intros [= <-] Hj.
  assert (c = 0 \/ c = 1 \/ c = 2 \/ c = 3) as [-> | [-> | [-> | ->]]] by lia;
    vm_compute in Hj; injection Hj as <-; lia.
Qed.
End SmallMachine.
