(* ===== verification/TopoFrame.v ===== *)
(** * What the steps of the construction leave alone

    [keeps V m]: the program [m], when it ends, leaves the view [V] of the state
    as it was. The tactic [keeps] decides this for straight-line programs from
    the lemmas of its primitive steps. *)

From Stdlib Require Import Ascii String.
From S2P Require Import Prelude Bitops Cpuset Cstring Dynset Cpulist TopoState Topo TopoDev.
From S2P Require Import TopoInit.

Section keeps.
Context {X : Type} (V : world -> X).

Definition keeps {A} (m : M world A) : Prop :=
  forall w a w', m w = Ok (a, w') -> V w' = V w.

Lemma keeps_ret {A} (a : A) : keeps (mret a).
Proof using. by intros w a' w' [= <- <-]. Qed.

Lemma keeps_throw {A} f : keeps (throw f : M world A).
Proof using. by intros w a' w' [=]. Qed.

Lemma keeps_gets {A} (f : world -> A) : keeps (gets f).
Proof using. by intros w a' w' [= <- <-]. Qed.

Lemma keeps_get_topo : keeps get_topo.
Proof using. apply keeps_gets. Qed.

Lemma keeps_lift {A} (o : outcome A) : keeps (lift o).
Proof using. intros w a w'. unfold lift. destruct o; [|done]. by intros [= <- <-]. Qed.

Lemma keeps_deref {A} (o : option A) : keeps (deref o).
Proof using. destruct o; [apply keeps_ret|apply keeps_throw]. Qed.

Lemma keeps_at_index {A} (l : list (option A)) i : keeps (at_index l i).
Proof using.
  unfold at_index. destruct l as [|x l]; [apply keeps_throw|].
  destruct (i <? 0); [apply keeps_throw|].
  destruct (_ !! _) as [[a|]|]; [apply keeps_ret|apply keeps_throw|apply keeps_throw].
Qed.

Lemma keeps_put_index {A} (l : list (option A)) i v : keeps (put_index l i v).
Proof using.
  unfold put_index. destruct l as [|x l]; [apply keeps_throw|].
  case_match; [apply keeps_ret|apply keeps_throw].
Qed.

Lemma keeps_find_key {A} (key : A -> Z) k l n i : keeps (find_key key k l n i).
Proof using.
  revert l i. induction n as [|n IH]; intros l i; cbn [find_key].
  { destruct l; apply keeps_ret. }
  destruct l as [|[a|] l]; [apply keeps_throw| |apply keeps_throw].
  cbn [find_key]. destruct (Z.eqb (key a) k); [apply keeps_ret|apply IH].
Qed.

Lemma keeps_bind {A B} (m : M world A) (f : A -> M world B) :
  keeps m -> (forall a, keeps (f a)) -> keeps (mbind f m).
Proof using.
  intros Hm Hf w b w' H. apply M_bind_inv in H as (a & w1 & H1 & H2).
  rewrite (Hf a w1 b w' H2). by apply (Hm w a w1).
Qed.

Lemma keeps_modify f : (forall w, V (f w) = V w) -> keeps (modify f).
Proof using. intros H w a w' [= <- <-]. apply H. Qed.

Lemma keeps_when b m : keeps m -> keeps (when b m).
Proof using. destruct b; [done|intros; apply keeps_ret]. Qed.

Lemma keeps_or_return m k : keeps m -> keeps k -> keeps (or_return m k).
Proof using.
  intros Hm Hk. apply keeps_bind; [done|]. intros ret. destruct (negb _); [apply keeps_ret|done].
Qed.

Lemma keeps_or_nomem {A} (m : M world (option A)) k :
  keeps m -> (forall a, keeps (k a)) -> keeps (or_nomem m k).
Proof using.
  intros Hm Hk. apply keeps_bind; [done|]. intros [a|]; [apply Hk|apply keeps_ret].
Qed.
End keeps.

(** ** Views that the clock does not change *)

Class Timeless {X} (V : world -> X) : Prop :=
  timeless w t : V (set_w_clock t w) = V w.

#[export] Instance topo_timeless : Timeless w_topo.
Proof. done. Qed.
(** Views that the working directory does not change. *)
Class Placeless {X} (V : world -> X) : Prop :=
  placeless w p : V (set_w_cwd p w) = V w.

#[export] Instance topo_placeless : Placeless w_topo.
Proof. done. Qed.
#[export] Instance max_node_placeless : Placeless w_max_node_index.
Proof. done. Qed.
#[export] Instance max_node_timeless : Timeless w_max_node_index.
Proof. done. Qed.

Section timeless.
Context `{F : Sysfs}.
Context {X : Type} (V : world -> X) `{!Timeless V}.

Lemma keeps_ask {A} (q : nat -> A) : keeps V (ask q).
Proof using All. intros w a w' [= <- <-]. apply timeless. Qed.

Lemma keeps_calloc : keeps V calloc.
Proof using All. apply keeps_ask. Qed.
End timeless.

Ltac keeps_step :=
  match goal with
  | |- keeps _ (mbind _ _) => apply keeps_bind; [|intros ?]
  | |- keeps _ (mret _) => apply keeps_ret
  | |- keeps _ (throw _) => apply keeps_throw
  | |- keeps _ (gets _) => apply keeps_gets
  | |- keeps _ get_topo => apply keeps_get_topo
  | |- keeps _ (lift _) => apply keeps_lift
  | |- keeps _ (deref _) => apply keeps_deref
  | |- keeps _ (at_index _ _) => apply keeps_at_index
  | |- keeps _ (put_index _ _ _) => apply keeps_put_index
  | |- keeps _ (find_key _ _ _ _ _) => apply keeps_find_key
  | |- keeps _ (when _ _) => apply keeps_when
  | |- keeps _ (or_return _ _) => apply keeps_or_return
  | |- keeps _ (or_nomem _ _) => apply keeps_or_nomem; [|intros ?]
  | |- keeps _ calloc => apply keeps_calloc, _
  | |- keeps _ (ask _) => apply keeps_ask, _
  | |- keeps _ (match ?x with _ => _ end) => destruct x
  end.

Create HintDb keeps.
Ltac keeps := repeat first [keeps_step | solve [eauto with keeps typeclass_instances]].

(** ** The readers of files *)

Section readers.
Context `{F : Sysfs}.
Context {X : Type} (V : world -> X) `{!Timeless V}.

Lemma keeps_read_buffer d f old n : keeps V (topo_path_read_buffer d f old n).
Proof using All. unfold topo_path_read_buffer. keeps. Qed.
Lemma keeps_read_s32 d f : keeps V (topo_path_read_s32 d f).
Proof using All. unfold topo_path_read_s32. keeps. Qed.
Lemma keeps_read_multi d f n : keeps V (topo_path_read_multi_s32 d f n).
Proof using All. unfold topo_path_read_multi_s32. keeps. Qed.
Lemma keeps_parse_meminfo d f : keeps V (topo_path_parse_meminfo d f).
Proof using All. unfold topo_path_parse_meminfo. keeps. Qed.
Lemma keeps_read_cpulist d f n : keeps V (topo_path_read_cpulist d f n).
Proof using All. unfold topo_path_read_cpulist. keeps. Qed.
Lemma keeps_alloc_set n : keeps V (alloc_set n).
Proof using All. unfold alloc_set. keeps. Qed.
Lemma keeps_expand_array {A} (z : A) l o n : keeps V (expand_array z l o n).
Proof using All. unfold expand_array. keeps. Qed.
Lemma keeps_expand {A} (l : list (option A)) o n : keeps V (topo_expand_mem l o n).
Proof using All. unfold topo_expand_mem. apply keeps_expand_array. Qed.

Lemma keeps_getcwd : keeps V getcwd.
Proof using All. unfold getcwd. keeps. Qed.
Lemma keeps_lstat n : keeps V (lstat n).
Proof using All. unfold lstat. keeps. Qed.
Lemma keeps_chdir `{!Placeless V} p : keeps V (chdir p).
Proof using All.
  unfold chdir. keeps. apply keeps_modify. intros w. apply placeless.
Qed.

Lemma keeps_read_string d f : keeps V (read_string d f).
Proof using All. unfold read_string. apply keeps_bind; [apply keeps_read_buffer|intros; keeps]. Qed.
Lemma keeps_read_number d f n : keeps V (read_number d f n).
Proof using All. unfold read_number. apply keeps_bind; [apply keeps_read_s32|intros; keeps]. Qed.

Lemma keeps_cache_info d n : keeps V (topo_parse_cache_info d n).
Proof using All.
  unfold topo_parse_cache_info.
  repeat first [apply keeps_read_string | apply keeps_read_number | apply keeps_read_cpulist
               | keeps_step].
Qed.

Lemma keeps_read_caches n c i k : keeps V (read_caches n c i k).
Proof using All.
  revert i. induction n as [|n IH]; intros i; [apply keeps_ret|]. cbn [read_caches].
  apply keeps_bind; [apply keeps_cache_info|]. intros r. keeps_step; [apply keeps_ret|].
  apply keeps_bind; [apply IH|intros; keeps].
Qed.

Lemma keeps_count_caches fuel c n : keeps V (count_caches fuel c n).
Proof using All.
  revert n. induction fuel as [|fuel IH]; intros n; [apply keeps_throw|]. cbn [count_caches].
  apply keeps_bind; [apply keeps_ask, _|]. intros []; [apply IH|apply keeps_ret].
Qed.
End readers.

#[export] Hint Resolve keeps_read_buffer keeps_read_s32 keeps_read_multi keeps_parse_meminfo
  keeps_read_cpulist keeps_alloc_set keeps_expand keeps_expand_array keeps_getcwd keeps_lstat keeps_chdir keeps_read_string keeps_read_caches keeps_count_caches : keeps.

(** ** Reading and writing the arrays *)

Lemma at_index_inv {A} (l : list (option A)) i w a w' :
  at_index l i w = Ok (a, w') -> w' = w /\ 0 <= i /\ l !! Z.to_nat i = Some (Some a).
Proof.
  unfold at_index. destruct l as [|x l]; [done|]. destruct (Z.ltb_spec i 0); [done|].
  destruct ((x :: l) !! Z.to_nat i) as [[b|]|] eqn:E; [|done|done]. by intros [= <- <-].
Qed.

Lemma at_index_ok {A} (l : list (option A)) i a w :
  0 <= i -> l !! Z.to_nat i = Some (Some a) -> at_index l i w = Ok (a, w).
Proof.
  intros Hi E. unfold at_index. destruct l as [|x l]; [done|]. destruct (Z.ltb_spec i 0); [lia|].
  by rewrite E.
Qed.

Lemma put_index_inv {A} (l : list (option A)) i v w l' w' :
  put_index l i v w = Ok (l', w') ->
  w' = w /\ 0 <= i < Z.of_nat (length l) /\ l' = <[Z.to_nat i := v]> l.
Proof.
  unfold put_index. destruct l as [|x l]; [done|]. case_match eqn:E; [|done]. zbool.
  intros [= <- <-]. done.
Qed.

Lemma put_cpu_inv i v w u w' : put_cpu i v w = Ok (u, w') ->
  0 <= i < Z.of_nat (length (tp_cpus (w_topo w))) /\
  w' = set_w_topo (set_tp_cpus (<[Z.to_nat i := v]> (tp_cpus (w_topo w))) (w_topo w)) w.
Proof.
  unfold put_cpu. intros H. apply M_bind_inv in H as (p & w1 & [= <- <-] & H).
  apply M_bind_inv in H as (l & w1 & (-> & Hi & ->)%put_index_inv & [= _ <-]). done.
Qed.

Lemma upd_cpu_inv i f w u w' : upd_cpu i f w = Ok (u, w') ->
  exists c, 0 <= i /\ tp_cpus (w_topo w) !! Z.to_nat i = Some (Some c) /\
  w' = set_w_topo (set_tp_cpus (<[Z.to_nat i := Some (f c)]> (tp_cpus (w_topo w))) (w_topo w)) w.
Proof.
  unfold upd_cpu, get_cpu. intros H. apply M_bind_inv in H as (c & w1 & H1 & H2).
  apply M_bind_inv in H1 as (p & w2 & [= <- <-] & (-> & Hi & E)%at_index_inv).
  apply put_cpu_inv in H2 as [_ ->]. eauto.
Qed.

Lemma put_node_inv i v w u w' : put_node i v w = Ok (u, w') ->
  0 <= i < Z.of_nat (length (tp_nodes (w_topo w))) /\
  w' = set_w_topo (set_tp_nodes (<[Z.to_nat i := v]> (tp_nodes (w_topo w))) (w_topo w)) w.
Proof.
  unfold put_node. intros H. apply M_bind_inv in H as (p & w1 & [= <- <-] & H).
  apply M_bind_inv in H as (l & w1 & (-> & Hi & ->)%put_index_inv & [= _ <-]). done.
Qed.

Lemma upd_node_inv i f w u w' : upd_node i f w = Ok (u, w') ->
  exists n, 0 <= i /\ tp_nodes (w_topo w) !! Z.to_nat i = Some (Some n) /\
  w' = set_w_topo (set_tp_nodes (<[Z.to_nat i := Some (f n)]> (tp_nodes (w_topo w))) (w_topo w)) w.
Proof.
  unfold upd_node, get_node. intros H. apply M_bind_inv in H as (c & w1 & H1 & H2).
  apply M_bind_inv in H1 as (p & w2 & [= <- <-] & (-> & Hi & E)%at_index_inv).
  apply put_node_inv in H2 as [_ ->]. eauto.
Qed.

Lemma put_ccl_inv i v w u w' : put_ccl i v w = Ok (u, w') ->
  0 <= i < Z.of_nat (length (tp_ccls (w_topo w))) /\
  w' = set_w_topo (set_tp_ccls (<[Z.to_nat i := v]> (tp_ccls (w_topo w))) (w_topo w)) w.
Proof.
  unfold put_ccl. intros H. apply M_bind_inv in H as (p & w1 & [= <- <-] & H).
  apply M_bind_inv in H as (l & w1 & (-> & Hi & ->)%put_index_inv & [= _ <-]). done.
Qed.

Lemma upd_ccl_inv i f w u w' : upd_ccl i f w = Ok (u, w') ->
  exists n, 0 <= i /\ tp_ccls (w_topo w) !! Z.to_nat i = Some (Some n) /\
  w' = set_w_topo (set_tp_ccls (<[Z.to_nat i := Some (f n)]> (tp_ccls (w_topo w))) (w_topo w)) w.
Proof.
  unfold upd_ccl, get_ccl. intros H. apply M_bind_inv in H as (c & w1 & H1 & H2).
  apply M_bind_inv in H1 as (p & w2 & [= <- <-] & (-> & Hi & E)%at_index_inv).
  apply put_ccl_inv in H2 as [_ ->]. eauto.
Qed.

Lemma put_package_inv i v w u w' : put_package i v w = Ok (u, w') ->
  0 <= i < Z.of_nat (length (tp_packages (w_topo w))) /\
  w' = set_w_topo (set_tp_packages (<[Z.to_nat i := v]> (tp_packages (w_topo w))) (w_topo w)) w.
Proof.
  unfold put_package. intros H. apply M_bind_inv in H as (p & w1 & [= <- <-] & H).
  apply M_bind_inv in H as (l & w1 & (-> & Hi & ->)%put_index_inv & [= _ <-]). done.
Qed.

Lemma upd_package_inv i f w u w' : upd_package i f w = Ok (u, w') ->
  exists n, 0 <= i /\ tp_packages (w_topo w) !! Z.to_nat i = Some (Some n) /\
  w' = set_w_topo
         (set_tp_packages (<[Z.to_nat i := Some (f n)]> (tp_packages (w_topo w))) (w_topo w)) w.
Proof.
  unfold upd_package, get_package. intros H. apply M_bind_inv in H as (c & w1 & H1 & H2).
  apply M_bind_inv in H1 as (p & w2 & [= <- <-] & (-> & Hi & E)%at_index_inv).
  apply put_package_inv in H2 as [_ ->]. eauto.
Qed.

(** A projection of the elements, and a change that it does not see. *)
Definition projects {A B} (g : A -> B) (l : list (option A)) : list (option B) :=
  fmap (M := option) g <$> l.

Lemma length_projects {A B} (g : A -> B) l : length (projects g l) = length l.
Proof. apply length_fmap. Qed.

Lemma projects_lookup {A B} (g : A -> B) l j : projects g l !! j = fmap (M := option) g <$> l !! j.
Proof. apply list_lookup_fmap. Qed.

Lemma projects_insert {A B} (g : A -> B) l j v :
  projects g (<[j := v]> l) = <[j := fmap (M := option) g v]> (projects g l).
Proof. apply list_fmap_insert. Qed.

Lemma projects_update {A B} (g : A -> B) (f : A -> A) (l : list (option A)) j a :
  l !! j = Some (Some a) -> g (f a) = g a ->
  projects g (<[j := Some (f a)]> l) = projects g l.
Proof.
  intros E Hg. rewrite projects_insert. apply list_insert_id. rewrite projects_lookup, E.
  simpl. by rewrite Hg.
Qed.

(** ** The returns *)

Lemma or_return_inv m k w r w' :
  or_return m k w = Ok (r, w') ->
  (exists w1, m w = Ok (0, w1) /\ k w1 = Ok (r, w')) \/ (m w = Ok (r, w') /\ r <> 0).
Proof.
  unfold or_return. intros H. apply M_bind_inv in H as (ret & w1 & H1 & H2).
  destruct (Z.eqb_spec ret 0) as [->|]; simpl in H2; [left; eauto|].
  injection H2 as <- <-. by right.
Qed.

Lemma or_return_0 m k w w' :
  or_return m k w = Ok (0, w') -> exists w1, m w = Ok (0, w1) /\ k w1 = Ok (0, w').
Proof. intros H. by apply or_return_inv in H as [?|[_ ?]]. Qed.

Lemma or_nomem_0 {A} (m : M world (option A)) k w w' :
  or_nomem m k w = Ok (0, w') -> exists a w1, m w = Ok (Some a, w1) /\ k a w1 = Ok (0, w').
Proof.
  unfold or_nomem. intros H. apply M_bind_inv in H as ([a|] & w1 & H1 & H2); [eauto|done].
Qed.

Lemma calloc_inv `{F : Sysfs} w ok w' : calloc w = Ok (ok, w') -> w' = set_w_clock (S (w_clock w)) w.
Proof. by intros [= _ <-]. Qed.
