(* ===== verification/TopoViews.v ===== *)
(** * Views of the topology

    The parts of the topology that the invariants are about, and the steps of the
    construction that leave them alone. *)

From Stdlib Require Import Ascii String.
From S2P Require Import Prelude Bitops Cpuset Cstring Dynset Cpulist TopoState Topo TopoDev.
From S2P Require Import TopoInit TopoFrame.

(** ** Nodes and the CPUs that belong to them *)

Definition membership (n : wayca_node) : Z * Z * cpu_set_t :=
  (nd_node_idx n, nd_n_cpus n, nd_cpu_map n).

Record links := mk_links {
  lk_n_cpus : Z;
  lk_setsize : Z;
  lk_cpus : list (option (option nat));
  lk_nodes : list (option (Z * Z * cpu_set_t));
  lk_map : cpu_set_t;
  lk_n_nodes : Z;
  lk_kernel_max : Z;
  lk_max : Z;
}.

Ltac links_simpl :=
  cbn [lk_n_cpus lk_setsize lk_cpus lk_nodes lk_map lk_n_nodes lk_kernel_max lk_max] in *.

Definition links_of (w : world) : links :=
  let p := w_topo w in
  mk_links (tp_n_cpus p) (tp_setsize p) (projects u_p_numa_node (tp_cpus p))
    (projects membership (tp_nodes p)) (tp_node_map p) (tp_n_nodes p) (tp_kernel_max_cpus p)
    (w_max_node_index w).

#[export] Instance links_timeless : Timeless links_of.
Proof. done. Qed.
#[export] Instance links_placeless : Placeless links_of.
Proof. done. Qed.

Lemma keeps_links_topo f :
  (forall p m, links_of (mk_world (f p) 0 0 m 0 []) = links_of (mk_world p 0 0 m 0 [])) ->
  keeps links_of (upd_topo f).
Proof. intros H w a w' [= <- <-]. apply (H (w_topo w) (w_max_node_index w)). Qed.

Lemma keeps_links_cpu i f :
  (forall c, u_p_numa_node (f c) = u_p_numa_node c) -> keeps links_of (upd_cpu i f).
Proof.
  intros H w a w' (c & _ & E & ->)%upd_cpu_inv. unfold links_of. tsimpl.
  by rewrite (projects_update u_p_numa_node f _ _ _ E).
Qed.

Lemma keeps_links_node i f :
  (forall n, membership (f n) = membership n) -> keeps links_of (upd_node i f).
Proof.
  intros H w a w' (c & _ & E & ->)%upd_node_inv. unfold links_of. tsimpl.
  by rewrite (projects_update membership f _ _ _ E).
Qed.

Lemma keeps_links_ccl i f : keeps links_of (upd_ccl i f).
Proof. by intros w a w' (c & _ & E & ->)%upd_ccl_inv. Qed.
Lemma keeps_links_put_ccl i v : keeps links_of (put_ccl i v).
Proof. by intros w a w' (_ & ->)%put_ccl_inv. Qed.
Lemma keeps_links_package i f : keeps links_of (upd_package i f).
Proof. by intros w a w' (c & _ & E & ->)%upd_package_inv. Qed.
Lemma keeps_links_put_package i v : keeps links_of (put_package i v).
Proof. by intros w a w' (_ & ->)%put_package_inv. Qed.
Lemma keeps_get_cpu {X} (V : world -> X) i : keeps V (get_cpu i).
Proof. unfold get_cpu. keeps. Qed.
Lemma keeps_get_node {X} (V : world -> X) i : keeps V (get_node i).
Proof. unfold get_node. keeps. Qed.
Lemma keeps_get_package {X} (V : world -> X) i : keeps V (get_package i).
Proof. unfold get_package. keeps. Qed.

#[export] Hint Resolve keeps_links_ccl keeps_links_put_ccl keeps_links_package
  keeps_links_put_package keeps_get_cpu keeps_get_node keeps_get_package : keeps.
#[export] Hint Extern 1 (keeps _ (upd_topo _)) => by apply keeps_links_topo : keeps.
#[export] Hint Extern 1 (keeps _ (upd_cpu _ _)) => by apply keeps_links_cpu : keeps.
#[export] Hint Extern 1 (keeps _ (upd_node _ _)) => by apply keeps_links_node : keeps.


(** ** Clusters and the CPUs that belong to them *)
Definition clusters_of (w : world) : Z * list (option Z) * list (option (option nat)) :=
  let p := w_topo w in
  (tp_n_clusters p, projects l_cluster_id (tp_ccls p), projects u_p_cluster (tp_cpus p)).

#[export] Instance clusters_timeless : Timeless clusters_of.
Proof. done. Qed.
#[export] Instance clusters_placeless : Placeless clusters_of.
Proof. done. Qed.

Lemma keeps_clusters_topo f :
  (forall p, clusters_of (mk_world (f p) 0 0 0 0 []) = clusters_of (mk_world p 0 0 0 0 [])) ->
  keeps clusters_of (upd_topo f).
Proof. intros H w a w' [= <- <-]. apply (H (w_topo w)). Qed.

Lemma keeps_clusters_cpu i f :
  (forall c, u_p_cluster (f c) = u_p_cluster c) -> keeps clusters_of (upd_cpu i f).
Proof.
  intros H w a w' (c & _ & E & ->)%upd_cpu_inv. unfold clusters_of. tsimpl.
  by rewrite (projects_update u_p_cluster f _ _ _ E).
Qed.

Lemma keeps_clusters_ccl i f :
  (forall c, l_cluster_id (f c) = l_cluster_id c) -> keeps clusters_of (upd_ccl i f).
Proof.
  intros H w a w' (c & _ & E & ->)%upd_ccl_inv. unfold clusters_of. tsimpl.
  by rewrite (projects_update l_cluster_id f _ _ _ E).
Qed.

Lemma keeps_clusters_node i f : keeps clusters_of (upd_node i f).
Proof. by intros w a w' (c & _ & E & ->)%upd_node_inv. Qed.
Lemma keeps_clusters_put_node i v : keeps clusters_of (put_node i v).
Proof. by intros w a w' (_ & ->)%put_node_inv. Qed.
Lemma keeps_clusters_package i f : keeps clusters_of (upd_package i f).
Proof. by intros w a w' (c & _ & E & ->)%upd_package_inv. Qed.
Lemma keeps_clusters_put_package i v : keeps clusters_of (put_package i v).
Proof. by intros w a w' (_ & ->)%put_package_inv. Qed.
Lemma keeps_clusters_max v : keeps clusters_of (modify (set_w_max_node_index v)).
Proof. by apply keeps_modify. Qed.

#[export] Hint Resolve keeps_clusters_node keeps_clusters_put_node keeps_clusters_package
  keeps_clusters_put_package keeps_clusters_max : keeps.
#[export] Hint Extern 1 (keeps _ (upd_topo _)) => by apply keeps_clusters_topo : keeps.
#[export] Hint Extern 1 (keeps _ (upd_cpu _ _)) => by apply keeps_clusters_cpu : keeps.
#[export] Hint Extern 1 (keeps _ (upd_ccl _ _)) => by apply keeps_clusters_ccl : keeps.

(** ** Devices of the nodes *)

Definition node_devices (n : wayca_node)
    : Z * list (option wayca_pci_device) * Z * list (option wayca_smmu) :=
  (nd_n_pcidevs n, nd_pcidevs n, nd_n_smmus n, nd_smmus n).

Definition devices_of (w : world)
    : list (option (Z * list (option wayca_pci_device) * Z * list (option wayca_smmu))) :=
  projects node_devices (tp_nodes (w_topo w)).

#[export] Instance devices_timeless : Timeless devices_of.
Proof. done. Qed.
#[export] Instance devices_placeless : Placeless devices_of.
Proof. done. Qed.

Lemma keeps_devices_topo f :
  (forall p, tp_nodes (f p) = tp_nodes p) -> keeps devices_of (upd_topo f).
Proof. intros H w a w' [= <- <-]. unfold devices_of. tsimpl. by rewrite H. Qed.

Lemma keeps_devices_node i f :
  (forall n, node_devices (f n) = node_devices n) -> keeps devices_of (upd_node i f).
Proof.
  intros H w a w' (c & _ & E & ->)%upd_node_inv. unfold devices_of. tsimpl.
  by rewrite (projects_update node_devices f _ _ _ E).
Qed.

Lemma keeps_devices_cpu i f : keeps devices_of (upd_cpu i f).
Proof. by intros w a w' (c & _ & E & ->)%upd_cpu_inv. Qed.
Lemma keeps_devices_ccl i f : keeps devices_of (upd_ccl i f).
Proof. by intros w a w' (c & _ & E & ->)%upd_ccl_inv. Qed.
Lemma keeps_devices_put_cpu i v : keeps devices_of (put_cpu i v).
Proof. by intros w a w' (_ & ->)%put_cpu_inv. Qed.
Lemma keeps_devices_put_ccl i v : keeps devices_of (put_ccl i v).
Proof. by intros w a w' (_ & ->)%put_ccl_inv. Qed.
Lemma keeps_devices_package i f : keeps devices_of (upd_package i f).
Proof. by intros w a w' (c & _ & E & ->)%upd_package_inv. Qed.
Lemma keeps_devices_put_package i v : keeps devices_of (put_package i v).
Proof. by intros w a w' (_ & ->)%put_package_inv. Qed.
Lemma keeps_devices_max v : keeps devices_of (modify (set_w_max_node_index v)).
Proof. by apply keeps_modify. Qed.

#[export] Hint Resolve keeps_devices_max keeps_devices_cpu keeps_devices_ccl keeps_devices_put_cpu
  keeps_devices_put_ccl keeps_devices_package keeps_devices_put_package : keeps.
#[export] Hint Extern 1 (keeps _ (upd_topo _)) => by apply keeps_devices_topo : keeps.
#[export] Hint Extern 1 (keeps _ (upd_node _ _)) => by apply keeps_devices_node : keeps.

(** ** Several views *)

Definition both (w : world) : links * (Z * list (option Z) * list (option (option nat))) :=
  (links_of w, clusters_of w).

#[export] Instance both_timeless : Timeless both.
Proof. done. Qed.
#[export] Instance both_placeless : Placeless both.
Proof. done. Qed.

Lemma keeps_both {A} (m : M world A) :
  keeps links_of m -> keeps clusters_of m -> keeps both m.
Proof. intros H1 H2 w a w' H. unfold both. by rewrite (H1 w a w' H), (H2 w a w' H). Qed.

Lemma both_links {A} (m : M world A) : keeps both m -> keeps links_of m.
Proof. intros H w a w' E. exact (f_equal fst (H w a w' E)). Qed.
Lemma both_clusters {A} (m : M world A) : keeps both m -> keeps clusters_of m.
Proof. intros H w a w' E. exact (f_equal snd (H w a w' E)). Qed.

#[export] Hint Extern 2 (keeps both (upd_topo _)) => apply keeps_both : keeps.
#[export] Hint Extern 2 (keeps both (upd_cpu _ _)) => apply keeps_both : keeps.
#[export] Hint Extern 2 (keeps both (upd_node _ _)) => apply keeps_both : keeps.
#[export] Hint Extern 2 (keeps both (upd_ccl _ _)) => apply keeps_both : keeps.
#[export] Hint Extern 2 (keeps both (upd_package _ _)) => apply keeps_both : keeps.
#[export] Hint Extern 2 (keeps both (put_package _ _)) => apply keeps_both : keeps.

(** All of them. *)
Definition views (w : world) := (both w, devices_of w).

#[export] Instance views_timeless : Timeless views.
Proof. done. Qed.

Lemma keeps_views {A} (m : M world A) : keeps both m -> keeps devices_of m -> keeps views m.
Proof. intros H1 H2 w a w' H. unfold views. by rewrite (H1 w a w' H), (H2 w a w' H). Qed.

Lemma views_both {A} (m : M world A) : keeps views m -> keeps both m.
Proof. intros H w a w' E. exact (f_equal fst (H w a w' E)). Qed.
Lemma views_devices {A} (m : M world A) : keeps views m -> keeps devices_of m.
Proof. intros H w a w' E. exact (f_equal snd (H w a w' E)). Qed.

#[export] Hint Extern 3 (keeps views (upd_topo _)) => apply keeps_views : keeps.
#[export] Hint Extern 3 (keeps views (upd_cpu _ _)) => apply keeps_views : keeps.
#[export] Hint Extern 3 (keeps views (upd_node _ _)) => apply keeps_views : keeps.
#[export] Hint Extern 3 (keeps views (upd_ccl _ _)) => apply keeps_views : keeps.
#[export] Hint Extern 3 (keeps views (upd_package _ _)) => apply keeps_views : keeps.
#[export] Hint Extern 3 (keeps views (put_package _ _)) => apply keeps_views : keeps.

(** ** Steps that change one view only *)

Section steps.
Context `{F : Sysfs}.

Lemma keeps_new_cluster d c i k : keeps links_of (topo_new_cluster d c i k).
Proof using. unfold topo_new_cluster. keeps. Qed.
Hint Resolve keeps_new_cluster : keeps.
Lemma keeps_cluster_info d c : keeps links_of (topo_parse_cpu_cluster_info d c).
Proof using. unfold topo_parse_cpu_cluster_info. keeps. Qed.

Lemma keeps_new_node i : keeps clusters_of (topo_new_node i).
Proof using. unfold topo_new_node. keeps. Qed.
Hint Resolve keeps_new_node : keeps.
Lemma keeps_join_node c j : keeps clusters_of (topo_join_node c j).
Proof using. unfold topo_join_node. keeps. Qed.
Hint Resolve keeps_join_node : keeps.
Lemma keeps_node_info c : keeps clusters_of (topo_parse_cpu_node_info c).
Proof using. unfold topo_parse_cpu_node_info. keeps. Qed.

Lemma devices_new_cluster d c i k : keeps devices_of (topo_new_cluster d c i k).
Proof using. unfold topo_new_cluster. keeps. Qed.
Hint Resolve devices_new_cluster : keeps.
Lemma devices_cluster_info d c : keeps devices_of (topo_parse_cpu_cluster_info d c).
Proof using. unfold topo_parse_cpu_cluster_info. keeps. Qed.

(** ** Steps that change none *)

Lemma keeps_new_package d i k : keeps views (topo_new_package d i k).
Proof using. unfold topo_new_package. keeps. Qed.
Hint Resolve keeps_new_package : keeps.

Section online.
Context (online : Z -> M world bool) (Hquiet : forall c, keeps views (online c)).
Hint Resolve Hquiet : keeps.

Lemma keeps_core_info d c : keeps views (topo_parse_cpu_core_info online d c).
Proof using Hquiet. unfold topo_parse_cpu_core_info. keeps. Qed.
Lemma keeps_pkg_info d c : keeps views (topo_parse_cpu_pkg_info online d c).
Proof using Hquiet. unfold topo_parse_cpu_pkg_info. keeps. Qed.
Lemma keeps_cpu_cache_info c : keeps views (topo_parse_cpu_cache_info online c).
Proof using Hquiet. unfold topo_parse_cpu_cache_info. keeps. Qed.
End online.

Lemma keeps_read_node i : keeps views (topo_read_node_topology i).
Proof using. unfold topo_read_node_topology. keeps. Qed.

Lemma keeps_numa_maps n j i z s : keeps views (build_numa_maps n j i z s).
Proof using.
  revert j. induction n as [|n IH]; intros j; cbn [build_numa_maps]; [apply keeps_ret|]. keeps.
Qed.

Lemma keeps_read_nodes n i z : keeps views (read_nodes n i z).
Proof using.
  revert i. induction n as [|n IH]; intros i; cbn [read_nodes]; [apply keeps_ret|].
  apply keeps_or_return; [apply keeps_read_node|]. keeps; apply keeps_numa_maps.
Qed.

Lemma keeps_numa : keeps views topo_construct_numa_topology.
Proof using. unfold topo_construct_numa_topology. keeps; apply keeps_read_nodes. Qed.

Lemma keeps_new_core i j c : keeps views (topo_new_core i j c).
Proof using. unfold topo_new_core. keeps. Qed.

Lemma keeps_read_cores n i : keeps views (read_cores n i).
Proof using.
  revert i. induction n as [|n IH]; intros i; cbn [read_cores]; [apply keeps_ret|].
  keeps; apply keeps_new_core.
Qed.

Lemma keeps_cores : keeps views topo_construct_core_topology.
Proof using. unfold topo_construct_core_topology. keeps; apply keeps_read_cores. Qed.

Lemma keeps_irq n : keeps views (topo_parse_irq_info n).
Proof using. unfold topo_parse_irq_info. keeps. Qed.

Lemma keeps_read_irqs l : keeps views (read_irqs l).
Proof using.
  induction l as [|n l IH]; cbn [read_irqs]; [apply keeps_ret|]. keeps; apply keeps_irq.
Qed.

Lemma keeps_irqs : keeps views topo_get_irq_info.
Proof using. unfold topo_get_irq_info. keeps; apply keeps_read_irqs. Qed.

(** ** Devices *)

(** The walk changes nothing but the devices of the nodes. *)
Section walk.
Context {X : Type} (V : world -> X) `{!Timeless V} `{!Placeless V}.
Context (Hnode : forall i f, (forall n, membership (f n) = membership n) -> keeps V (upd_node i f)).
Hint Extern 1 (keeps V (upd_node _ _)) => by apply Hnode : keeps.

Lemma keeps_upd_pcidev i k f : keeps V (upd_pcidev i k f).
Proof using All. unfold upd_pcidev. keeps. Qed.
Lemma keeps_upd_smmu i k f : keeps V (upd_smmu i k f).
Proof using All. unfold upd_smmu. keeps. Qed.
Hint Resolve keeps_upd_pcidev keeps_upd_smmu : keeps.
Lemma keeps_upd_irqs i k f : keeps V (upd_irqs i k f).
Proof using All. apply keeps_upd_pcidev. Qed.
Lemma keeps_get_pcidev i k : keeps V (get_pcidev i k).
Proof using All. unfold get_pcidev. keeps. Qed.
Hint Resolve keeps_upd_irqs keeps_get_pcidev : keeps.

Lemma keeps_msi_irq i k d : keeps V (topo_parse_msi_irq i k d).
Proof using All. unfold topo_parse_msi_irq. keeps. Qed.
Lemma keeps_irq_file i k d : keeps V (topo_parse_irq i k d).
Proof using All. unfold topo_parse_irq. keeps. Qed.
Lemma keeps_find_irq_files names msi irq ret : keeps V (find_irq_files names msi irq ret).
Proof using All.
  revert msi irq ret. induction names as [|n names IH]; intros; cbn [find_irq_files]; [keeps|]. keeps.
Qed.
Hint Resolve keeps_msi_irq keeps_irq_file keeps_find_irq_files : keeps.
Lemma keeps_device_irqs i k d : keeps V (topo_parse_device_irqs i k d).
Proof using All. unfold topo_parse_device_irqs. keeps. Qed.
Lemma keeps_pci_smmu i k d : keeps V (topo_parse_pci_smmu i k d).
Proof using All. unfold topo_parse_pci_smmu. keeps. Qed.
Lemma keeps_read_hex d f n : keeps V (read_hex d f n).
Proof using All. unfold read_hex. keeps. Qed.
Lemma keeps_read_numa_node d : keeps V (read_numa_node d).
Proof using All. unfold read_numa_node. keeps. Qed.
Hint Resolve keeps_device_irqs keeps_pci_smmu keeps_read_hex keeps_read_numa_node : keeps.
Lemma keeps_pci_info i k d : keeps V (topo_parse_pci_info i k d).
Proof using All. unfold topo_parse_pci_info. keeps. Qed.
Lemma keeps_smmu_info i k d : keeps V (topo_parse_smmu_info i k d).
Proof using All. unfold topo_parse_smmu_info. keeps. Qed.
Hint Resolve keeps_pci_info keeps_smmu_info : keeps.
Lemma keeps_pci_device d : keeps V (topo_parse_pci_device d).
Proof using All. unfold topo_parse_pci_device, topo_parse_pci_numa_node. keeps. Qed.
Lemma keeps_smmu d : keeps V (topo_parse_smmu d).
Proof using All. unfold topo_parse_smmu. keeps. Qed.
Hint Resolve keeps_pci_device keeps_smmu : keeps.
Lemma keeps_io_device d : keeps V (topo_parse_io_device d).
Proof using All. unfold topo_parse_io_device, is_pci_device_dir. keeps. Qed.
Hint Resolve keeps_io_device : keeps.
Lemma keeps_io_entries walk names :
  (forall n, keeps V (walk n)) -> keeps V (io_entries walk names).
Proof using All.
  intros Hw. induction names as [|n names IH]; cbn [io_entries]; keeps; apply Hw.
Qed.
Lemma keeps_walk fuel root : keeps V (topo_recursively_read_io_devices fuel root).
Proof using All.
  revert root. induction fuel as [|fuel IH]; intros root;
    cbn [topo_recursively_read_io_devices]; [apply keeps_throw|].
  keeps; apply keeps_io_entries; intros n; apply IH.
Qed.
End walk.

(** The last part of [topo_init]. *)
Lemma keeps_rest : keeps both (
  or_return (topo_recursively_read_io_devices io_fuel (inr sysdev)) (
  env ← ask fs_env;
  if (env : bool) then topo_get_irq_info else mret 0)).
Proof using.
  apply keeps_or_return.
  - apply keeps_walk; [apply _..|]. intros i f Hf.
    apply keeps_both; [by apply keeps_links_node|apply keeps_clusters_node].
  - keeps; apply views_both, keeps_irqs.
Qed.

(** Asking whether a CPU is online, without reading the topology again. *)
Lemma quiet_online {X} (V : world -> X) `{!Timeless V} c :
  keeps V (is_cpu_online_body (throw OutOfFuel) c).
Proof using.
  unfold is_cpu_online_body. apply keeps_bind; [keeps|]. intros p.
  destruct (negb _); [keeps|]. destruct (c =? 0); [keeps|].
  apply keeps_bind; [keeps|]. intros [e|on]; [keeps|].
  match goal with |- keeps _ (if ?b then _ else _) => destruct b end; [keeps|]. by intros w a w'.
Qed.

(** A reading of the topology during which no CPU goes on- or offline: it drops
    everything, or it is the loop over the CPUs and steps that change nothing. *)
Lemma topo_init_inv w w' :
  topo_init 0 w = Ok (tt, w') ->
  w_topo w' = zero_topo \/
  exists w0 w2 w3 w4,
    w_topo w0 = zero_topo /\ w_max_node_index w0 = w_max_node_index w /\
    topo_alloc_cpu w0 = Ok (0, w2) /\ topo_alloc_node_map w2 = Ok (0, w3) /\
    read_cpus (is_cpu_online_body (throw OutOfFuel)) (cpus_fuel (w_topo w3)) 0 w3 = Ok (0, w4) /\
    both w' = both w4 /\
    exists w6 w7, devices_of w6 = devices_of w4 /\
      topo_recursively_read_io_devices io_fuel (inr sysdev) w6 = Ok (0, w7) /\
      devices_of w' = devices_of w7.
Proof using.
  intros H. cbn [topo_init] in H. unfold topo_init_body in H.
  apply M_bind_inv in H as (saved & w0 & [= _ <-] & H).
  apply M_bind_inv in H as (wd & w0 & [= <- <-] & H).
  apply M_bind_inv in H as ([] & w0 & [= <-] & H). apply M_bind_inv in H as (ret & w1 & H & Hend).
  destruct (Z.eqb_spec ret 0) as [->|Hne]; simpl in Hend; [right|left; by injection Hend as <-].
  assert (Eend : both w' = both w1 /\ devices_of w' = devices_of w1).
  { destruct saved; [|done]. split; revert Hend; apply keeps_chdir; apply _. }
  destruct Eend as [Eend Edev].
  apply or_return_0 in H as (w2 & H2 & H). apply or_return_0 in H as (w3 & H3 & H).
  apply or_return_0 in H as (w4 & H4 & H). apply or_return_0 in H as (w5 & H5 & H).
  apply or_return_0 in H as (w6 & H6 & H).
  unfold topo_construct_cpu_topology in H4. apply M_bind_inv in H4 as (p & w7 & [= <- <-] & H4).
  exists (set_w_topo zero_topo (set_w_clock (S (w_clock w)) w)), w2, w3, w4.
  do 5 (split; [done|]). split.
  - rewrite Eend, <- (views_both _ keeps_numa _ _ _ H5), <- (views_both _ keeps_cores _ _ _ H6).
    revert H. apply keeps_rest.
  - apply or_return_0 in H as (w8 & H7 & H8). exists w6, w8. split.
    { by rewrite (views_devices _ keeps_cores _ _ _ H6), (views_devices _ keeps_numa _ _ _ H5). }
    split; [done|]. rewrite Edev. revert H8.
    apply keeps_bind; [apply keeps_ask, _|]. intros []; [apply views_devices, keeps_irqs|apply keeps_ret].
Qed.
End steps.
