(* ===== verification/TopoNodes.v ===== *)
(** * The CPUs of the NUMA nodes

    What the construction of the topology establishes about nodes: the link from
    a CPU to its node, the set of CPUs of the node and their number agree. *)

From Stdlib Require Import Ascii String.
From S2P Require Import Prelude Bitops Cpuset Cstring Dynset Cpulist TopoState Topo TopoDev.
From S2P Require Import TopoInit TopoQuery.
From S2P Require Import TopoMachine TopoFrame TopoViews.

(** ** The invariant of the loop over the CPUs *)

(** CPU [c] is linked to node [j]; the CPUs below [m] that are. *)
Definition is_link (cpus : list (option (option nat))) (j : nat) (c : Z) : bool :=
  bool_decide (cpus !! Z.to_nat c = Some (Some (Some j))).
Definition linked_below (m : Z) (cpus : list (option (option nat))) (j : nat) : list Z :=
  List.filter (is_link cpus j) (seqZ 0 m).

(** The number of entries that are not NULL. *)
Definition entries {A} (l : list (option A)) : nat := length (omap id l).

Definition is_node (nodes : list (option (Z * Z * cpu_set_t))) (j : nat) : Prop :=
  exists nd, nodes !! j = Some (Some nd).

(** Node [j] after CPUs [0] to [m - 1]. *)
Definition node_ok (m : Z) (k : nat) (cpus : list (option (option nat))) (j : nat)
    (nd : Z * Z * cpu_set_t) : Prop :=
  let '(idx, n, s) := nd in
  idx = Z.of_nat j /\ n = Z.of_nat (length (linked_below m cpus j)) /\ dset_wf k s /\
  forall c, 0 <= c < dset_bits k -> wbit s c = (c <? m) && is_link cpus j c.

Record joined (k k' : nat) (m : Z) (v : links) : Prop := {
  jn_cpus : Z.of_nat (length (lk_cpus v)) = lk_n_cpus v;
  jn_setsize : lk_setsize v = bytes k;
  jn_alloc : CPU_ALLOC_SIZE (lk_kernel_max v) = bytes k;
  jn_room : lk_n_cpus v <= dset_bits k;
  jn_map_alloc : CPU_ALLOC_SIZE (lk_n_cpus v) = bytes k';
  jn_map_wf : dset_wf k' (lk_map v);
  jn_max : lk_max v = Z.of_nat (length (lk_nodes v)) - 1;
  jn_small : (length (lk_nodes v) <= 64)%nat;
  jn_map : forall j, (j < 64)%nat -> wbit (lk_map v) (Z.of_nat j) = true <-> is_node (lk_nodes v) j;
  jn_node : forall j nd, lk_nodes v !! j = Some (Some nd) -> node_ok m k (lk_cpus v) j nd;
  jn_link : forall c j, 0 <= c < m -> is_link (lk_cpus v) j c = true -> is_node (lk_nodes v) j;
  jn_n_nodes : lk_n_nodes v = Z.of_nat (entries (lk_nodes v));
}.

Lemma entries_insert {A} (l : list (option A)) j x :
  l !! j = Some None -> entries (<[j := Some x]> l) = S (entries l).
Proof.
  intros E. unfold entries. pose proof (lookup_lt_Some _ _ _ E).
  rewrite insert_take_drop by done. rewrite <- (take_drop_middle l j None E) at 3.
  rewrite !omap_app, !length_app. simpl. lia.
Qed.

Lemma entries_update {A} (l : list (option A)) j x y :
  l !! j = Some (Some y) -> entries (<[j := Some x]> l) = entries l.
Proof.
  intros E. unfold entries. pose proof (lookup_lt_Some _ _ _ E).
  rewrite insert_take_drop by done. rewrite <- (take_drop_middle l j (Some y) E) at 3.
  rewrite !omap_app, !length_app. simpl. lia.
Qed.

Lemma entries_None {A} (l : list (option A)) n : entries (l ++ replicate n None) = entries l.
Proof.
  unfold entries. rewrite omap_app, length_app.
  replace (omap id (replicate n (@None A))) with (@nil A) by (by induction n). simpl. lia.
Qed.

(** Links of other CPUs. *)
Lemma is_link_insert cpus m x j c :
  0 <= m -> 0 <= c -> c <> m -> is_link (<[Z.to_nat m := x]> cpus) j c = is_link cpus j c.
Proof. intros. unfold is_link. by rewrite list_lookup_insert_ne by lia. Qed.

Lemma list_empty_filter {A} (f : A -> bool) l :
  (forall x, x ∈ l -> f x = false) -> List.filter f l = [].
Proof.
  induction l as [|x l IH]; intros H; [done|]. simpl. rewrite H by set_solver. apply IH. set_solver.
Qed.

Lemma linked_below_insert cpus m x j :
  0 <= m -> linked_below m (<[Z.to_nat m := x]> cpus) j = linked_below m cpus j.
Proof.
  intros. unfold linked_below. apply List.filter_ext_in. intros c Hc%list_elem_of_In.
  apply elem_of_seqZ in Hc. apply is_link_insert; lia.
Qed.

Lemma linked_below_snoc cpus m j :
  0 <= m -> linked_below (m + 1) cpus j =
  linked_below m cpus j ++ (if is_link cpus j m then [m] else []).
Proof. intros. unfold linked_below. rewrite seqZ_snoc, List.filter_app by lia. done. Qed.

Definition with_cpus (cpus : list (option (option nat))) (v : links) : links :=
  mk_links (lk_n_cpus v) (lk_setsize v) cpus (lk_nodes v) (lk_map v) (lk_n_nodes v)
    (lk_kernel_max v) (lk_max v).
Definition with_nodes (nodes : list (option (Z * Z * cpu_set_t))) (v : links) : links :=
  mk_links (lk_n_cpus v) (lk_setsize v) (lk_cpus v) nodes (lk_map v) (lk_n_nodes v)
    (lk_kernel_max v) (Z.of_nat (length nodes) - 1).

Section joined.
Context (k k' : nat).

(** A CPU object is created. *)
Lemma joined_fresh m v :
  0 <= m < lk_n_cpus v -> joined k k' m v ->
  joined k k' m (with_cpus (<[Z.to_nat m := Some None]> (lk_cpus v)) v).
Proof using.
  intros Hm []. constructor; simpl; try done.
  - by rewrite length_insert.
  - intros j [[idx n] s] E. destruct (jn_node0 j _ E) as (? & Hn & ? & Hs). split_and!; try done.
    + by rewrite linked_below_insert by lia.
    + intros c Hc. rewrite Hs by done. destruct (Z.ltb_spec c m); [|done].
      rewrite is_link_insert by lia. done.
  - intros c j Hc. rewrite is_link_insert by lia. by apply jn_link0.
Qed.

(** A CPU without a node. *)
Lemma joined_skip m v :
  0 <= m -> lk_cpus v !! Z.to_nat m = Some (Some None) ->
  joined k k' m v -> joined k k' (m + 1) v.
Proof using.
  intros Hm E []. assert (Hl : forall j, is_link (lk_cpus v) j m = false).
  { intros j. unfold is_link. rewrite E. by apply bool_decide_false. }
  constructor; try done.
  - intros j [[idx n] s] En. destruct (jn_node0 j _ En) as (? & Hn & ? & Hs). split_and!; try done.
    + by rewrite linked_below_snoc, Hl, app_nil_r by done.
    + intros c Hc. rewrite Hs by done. destruct (decide (c = m)) as [->|].
      { by rewrite Hl, !andb_false_r. }
      by destruct (Z.ltb_spec c m), (Z.ltb_spec c (m + 1)); try lia.
  - intros c j Hc Hj. apply (jn_link0 c); [|done]. assert (c <> m) by congruence. lia.
Qed.

(** The array of nodes grows. *)
Lemma joined_expand m v n :
  (length (lk_nodes v) + n <= 64)%nat -> joined k k' m v ->
  joined k k' m (with_nodes (lk_nodes v ++ replicate n None) v).
Proof using.
  intros Hl []. assert (Hn : forall j nd, (lk_nodes v ++ replicate n None) !! j = Some (Some nd) <->
                                  lk_nodes v !! j = Some (Some nd)).
  { intros j nd. rewrite lookup_app. destruct (lk_nodes v !! j) eqn:E; [done|].
    split; [|done]. by intros [? _]%lookup_replicate. }
  constructor; simpl; try done.
  - rewrite length_app, length_replicate. lia.
  - intros j Hj. rewrite jn_map0 by done. unfold is_node. by setoid_rewrite Hn.
  - intros j nd E. by apply jn_node0, Hn.
  - intros c j Hc Hj. unfold is_node. setoid_rewrite Hn. by apply (jn_link0 c).
  - by rewrite entries_None.
Qed.

Context (Hk : dset_bits k <= 2 ^ 63).

(** A CPU joins a node. *)
Lemma joined_join m v j idx n s :
  0 <= m < lk_n_cpus v -> lk_nodes v !! j = Some (Some (idx, n, s)) -> joined k k' m v ->
  joined k k' (m + 1)
    (with_cpus (<[Z.to_nat m := Some (Some j)]> (lk_cpus v))
      (with_nodes (<[j := Some (idx, n + 1, CPU_SET_S m (bytes k) s)]> (lk_nodes v)) v)).
Proof using Hk.
  intros Hm E []. set (cpus := <[Z.to_nat m := Some (Some j)]> (lk_cpus v)).
  assert (Hjm : forall i, is_link cpus i m = bool_decide (i = j)).
  { intros i. unfold is_link, cpus. rewrite list_lookup_insert_eq by lia. apply bool_decide_ext.
    split; [by intros [=]|by intros ->]. }
  assert (Hbelow : forall i c, 0 <= c -> (c <? m) && is_link cpus i c = (c <? m) && is_link (lk_cpus v) i c).
  { intros i c Hc. destruct (Z.ltb_spec c m); [|done]. unfold cpus. by rewrite is_link_insert by lia. }
  constructor; simpl; try done.
  - unfold cpus. by rewrite length_insert.
  - by rewrite length_insert.
  - intros i Hi. rewrite jn_map0 by done. unfold is_node. destruct (decide (i = j)) as [->|].
    { rewrite list_lookup_insert_eq by (by eapply lookup_lt_Some). split; eauto. }
    by rewrite list_lookup_insert_ne.
  - intros i nd Hi. destruct (decide (i = j)) as [->|Hne].
    + rewrite list_lookup_insert_eq in Hi by (by eapply lookup_lt_Some). injection Hi as <-.
      destruct (jn_node0 j _ E) as (-> & -> & Hw & Hs). split; [done|].
      split.
      { rewrite linked_below_snoc, Hjm, bool_decide_true by (done || lia).
        unfold cpus. rewrite linked_below_insert, length_app by lia. simpl. lia. }
      split; [by apply SET_S_wf|]. intros c Hc.
      rewrite (wbit_SET_S k) by (done || lia). rewrite Hs by done.
      destruct (Z.eqb_spec c m) as [->|Hcm]; simpl.
      { rewrite Hjm, bool_decide_true by done. by destruct (Z.ltb_spec m (m + 1)); [|lia]. }
      rewrite <- Hbelow by lia. by destruct (Z.ltb_spec c m), (Z.ltb_spec c (m + 1)); try lia.
    + rewrite list_lookup_insert_ne in Hi by done. destruct nd as [[idx' n'] s'].
      destruct (jn_node0 i _ Hi) as (-> & -> & Hw & Hs). split; [done|]. split.
      { rewrite linked_below_snoc, Hjm, bool_decide_false, app_nil_r by (done || lia).
        unfold cpus. by rewrite linked_below_insert by lia. }
      split; [done|]. intros c Hc. rewrite Hs, <- Hbelow by lia.
      destruct (decide (c = m)) as [->|Hcm].
      { rewrite Hjm, bool_decide_false by done. by rewrite !andb_false_r. }
      by destruct (Z.ltb_spec c m), (Z.ltb_spec c (m + 1)); try lia.
  - intros c i Hc Hi. unfold is_node. destruct (decide (i = j)) as [->|].
    { rewrite list_lookup_insert_eq by (by eapply lookup_lt_Some). eauto. }
    rewrite list_lookup_insert_ne by done. destruct (decide (c = m)) as [->|Hcm].
    { rewrite Hjm, bool_decide_false in Hi by done. done. }
    apply (jn_link0 c); [lia|]. unfold cpus in Hi. by rewrite is_link_insert in Hi by lia.
  - by rewrite (entries_update _ _ _ _ E).
Qed.

Context (Hk' : (1 <= k')%nat) (Hb : dset_bits k' <= 2 ^ 63).

(** A node is created. *)
Lemma joined_new_node m v j :
  (j < length (lk_nodes v))%nat -> wbit (lk_map v) (Z.of_nat j) = false -> joined k k' m v ->
  joined k k' m
    (mk_links (lk_n_cpus v) (lk_setsize v) (lk_cpus v)
       (<[j := Some (Z.of_nat j, 0, replicate k 0)]> (lk_nodes v))
       (CPU_SET_S (Z.of_nat j) (bytes k') (lk_map v)) (lk_n_nodes v + 1)
       (lk_kernel_max v) (lk_max v)).
Proof using Hk' Hb.
  intros Hj Hnew [].
  assert (E : lk_nodes v !! j = Some None).
  { destruct (lookup_lt_is_Some_2 _ _ Hj) as [[nd|] E]; [|done].
    exfalso. apply not_true_iff_false in Hnew. apply Hnew, jn_map0; [lia|]. by exists nd. }
  assert (Hno : forall c, 0 <= c < m -> is_link (lk_cpus v) j c = false).
  { intros c Hc. apply not_true_iff_false. intros H. destruct (jn_link0 c j Hc H) as [nd E'].
    congruence. }
  constructor; simpl; try done.
  - by apply SET_S_wf.
  - by rewrite length_insert.
  - by rewrite length_insert.
  - intros i Hi. unfold dset_bits in Hb. rewrite (wbit_SET_S k') by (done || unfold dset_bits; lia).
    unfold is_node. rewrite orb_true_iff, jn_map0 by done. destruct (decide (i = j)) as [->|Hne].
    { rewrite list_lookup_insert_eq by done. split; [eauto|]. rewrite Z.eqb_refl. by left. }
    rewrite list_lookup_insert_ne by done. destruct (Z.eqb_spec (Z.of_nat i) (Z.of_nat j)); [lia|].
    split; [by intros [|]|by right].
  - intros i nd Hi. destruct (decide (i = j)) as [->|Hne].
    + rewrite list_lookup_insert_eq in Hi by done. injection Hi as <-. split; [done|].
      assert (Hnil : linked_below m (lk_cpus v) j = []).
      { apply list_empty_filter. intros c Hc. apply Hno. by apply elem_of_seqZ in Hc. }
      rewrite Hnil. split; [done|]. split; [apply zero_set_wf|]. intros c Hc.
      rewrite wbit_zero_set. destruct (Z.ltb_spec c m); [|done]. by rewrite Hno by lia.
    + rewrite list_lookup_insert_ne in Hi by done. by apply jn_node0.
  - intros c i Hc Hi. destruct (jn_link0 c i Hc Hi) as [nd En]. exists nd.
    rewrite list_lookup_insert_ne; [done|]. intros ->. congruence.
  - rewrite entries_insert by done. lia.
Qed.
End joined.

(** ** The steps of the loop *)

Section run.
Context `{F : Sysfs}.

Lemma expand_inv {A} (l : list (option A)) old w l' w' :
  Z.of_nat (length l) <= old -> topo_expand_mem l old (old + 1) w = Ok (Some l', w') ->
  (exists n, l' = l ++ replicate n None) /\ Z.of_nat (length l') = old + 1 /\
  w' = set_w_clock (S (w_clock w)) w.
Proof using.
  intros Hl. unfold topo_expand_mem, expand_array. destruct (_ || _) eqn:E0; [done|]. zbool.
  intros Hr. apply M_bind_inv in Hr as (ok & w1 & ->%calloc_inv & Hr). destruct ok; [|done].
  simpl in Hr. destruct l as [|x l].
  { injection Hr as <- <-. split; [by exists (Z.to_nat (old + 1))|].
    rewrite length_replicate. split; [lia|done]. }
  destruct (Z.eqb_spec old 0); [simpl in Hl; lia|].
  destruct (Z.ltb_spec (Z.of_nat (length (x :: l))) old); [done|].
  injection Hr as <- <-. rewrite take_ge by lia. split; [eauto|].
  rewrite length_app, length_replicate. split; [lia|done].
Qed.

Lemma alloc_set_inv n w s w' :
  alloc_set n w = Ok (Some s, w') ->
  s = replicate (set_words (CPU_ALLOC_SIZE n)) 0 /\ w' = set_w_clock (S (w_clock w)) w.
Proof using.
  intros H. apply M_bind_inv in H as (ok & w1 & ->%calloc_inv & H).
  destruct ok; [|done]. by injection H as <- <-.
Qed.

(** A new node has no CPU. *)
Lemma new_node_links j w w' :
  topo_new_node j w = Ok (0, w') ->
  let v := links_of w in
  0 <= j < Z.of_nat (length (lk_nodes v)) /\
  links_of w' = mk_links (lk_n_cpus v) (lk_setsize v) (lk_cpus v)
    (<[Z.to_nat j := Some (j, 0, replicate (set_words (CPU_ALLOC_SIZE (lk_kernel_max v))) 0)]>
       (lk_nodes v))
    (CPU_SET_S j (CPU_ALLOC_SIZE (lk_n_cpus v)) (lk_map v)) (lk_n_nodes v + 1)
    (lk_kernel_max v) (lk_max v).
Proof using.
  intros H v. unfold topo_new_node in H.
  apply M_bind_inv in H as (ok & w1 & ->%calloc_inv & H). destruct ok; simpl in H;
    [|by apply M_bind_inv in H as (? & ? & _ & ?)].
  apply M_bind_inv in H as ([] & w1 & [Hj Hw1]%put_node_inv & H). tsimpl_all.
  apply M_bind_inv in H as (p & w1' & [= <- <-] & H).
  apply or_nomem_0 in H as (s1 & w2 & [_ ->]%alloc_set_inv & H).
  apply M_bind_inv in H as ([] & w3 & (n3 & _ & E3 & Hw3)%upd_node_inv & H).
  apply or_nomem_0 in H as (s2 & w4 & [_ ->]%alloc_set_inv & H).
  apply M_bind_inv in H as ([] & w5 & (n5 & _ & E5 & Hw5)%upd_node_inv & H).
  apply or_nomem_0 in H as (s3 & w6 & [-> ->]%alloc_set_inv & H).
  apply M_bind_inv in H as ([] & w7 & (n7 & _ & E7 & Hw7)%upd_node_inv & H).
  apply M_bind_inv in H as ([] & w8 & [= <-] & H).
  apply M_bind_inv in H as ([] & w9 & [= <-] & [= <-]).
  subst. tsimpl_all. rewrite list_lookup_insert_eq in E3, E5, E7 by (rewrite ?length_insert; lia).
  unfold v, links_of. links_simpl. tsimpl.
  rewrite length_projects. split; [done|].
  f_equal. rewrite !list_insert_insert_eq, projects_insert. simpl. f_equal.
  by simplify_eq; tsimpl_all; simplify_eq.
Qed.

(** The CPU joins a node that exists. *)
Lemma attach_links c j w w1 w' u u' :
  upd_node j (fun n => set_nd_n_cpus (nd_n_cpus n + 1)
    (set_nd_cpu_map (CPU_SET_S c (tp_setsize (w_topo w)) (nd_cpu_map n)) n)) w = Ok (u, w1) ->
  upd_cpu c (set_u_p_numa_node (Some (Z.to_nat j))) w1 = Ok (u', w') ->
  let v := links_of w in
  lk_max v = Z.of_nat (length (lk_nodes v)) - 1 ->
  exists idx n s, lk_nodes v !! Z.to_nat j = Some (Some (idx, n, s)) /\
  links_of w' = with_cpus (<[Z.to_nat c := Some (Some (Z.to_nat j))]> (lk_cpus v))
    (with_nodes (<[Z.to_nat j := Some (idx, n + 1, CPU_SET_S c (lk_setsize v) s)]> (lk_nodes v)) v).
Proof using.
  intros (n & Hj & En & ->)%upd_node_inv (cp & Hc & Ec & ->)%upd_cpu_inv v Hmax. tsimpl_all.
  exists (nd_node_idx n), (nd_n_cpus n), (nd_cpu_map n). unfold v, links_of, with_cpus, with_nodes in *.
  links_simpl. tsimpl_all.
  rewrite projects_lookup, En. split; [done|].
  by rewrite length_insert, <- Hmax, !projects_insert.
Qed.

Context (k k' : nat).

(** The array is made large enough. *)
Lemma join_expand_ok c j w w' :
  0 <= j < 64 -> joined k k' c (links_of w) ->
  (if w_max_node_index w <? j then
     modify (set_w_max_node_index (to_int j));;
     p ← get_topo;
     nodes ← topo_expand_mem (tp_nodes p) j (j + 1);
     upd_topo (set_tp_nodes (default [] nodes));;
     mret (match nodes with Some _ => 0 | None => - ENOMEM end)
   else mret 0) w = Ok (0, w') ->
  joined k k' c (links_of w') /\ lk_n_cpus (links_of w') = lk_n_cpus (links_of w) /\
  (Z.to_nat j < length (lk_nodes (links_of w')))%nat.
Proof using.
  intros Hj Hjn H. change (w_max_node_index w) with (lk_max (links_of w)) in H.
  rewrite (jn_max _ _ _ _ Hjn) in H.
  destruct (Z.ltb_spec (Z.of_nat (length (lk_nodes (links_of w))) - 1) j) as [Hlt|];
    [|injection H as <-; split; [done|]; split; [done|lia]].
  apply M_bind_inv in H as ([] & w2 & [= <-] & H).
  apply M_bind_inv in H as (p & w2 & [= <- <-] & H).
  apply M_bind_inv in H as ([nodes|] & w2 & He & H);
    apply M_bind_inv in H as ([] & w3 & [= <-] & H); [injection H as <-|done].
  unfold links_of in Hlt at 1. cbn [lk_nodes] in Hlt. rewrite length_projects in Hlt.
  apply expand_inv in He as ([n ->] & Hl & ->); [|tsimpl; lia]. tsimpl_all.
  rewrite length_app, length_replicate in Hl.
  assert (El : links_of (set_w_topo (set_tp_nodes (tp_nodes (w_topo w) ++ replicate n None) (w_topo w))
      (set_w_clock (S (w_clock w)) (set_w_max_node_index (to_int j) w))) =
    with_nodes (lk_nodes (links_of w) ++ replicate n None) (links_of w)).
  { unfold links_of, with_nodes. tsimpl. links_simpl. f_equal.
    - unfold projects. by rewrite fmap_app, fmap_replicate.
    - rewrite length_app, length_projects, length_replicate, to_int_id by lia. lia. }
  cbn [default]. unfold default, id. rewrite El. split; [apply joined_expand; [|done]|split; [done|]].
  - unfold links_of. links_simpl. rewrite length_projects. lia.
  - unfold with_nodes, links_of. links_simpl.
    rewrite length_app, length_projects, length_replicate. lia.
Qed.

Context (Hk : dset_bits k <= 2 ^ 63) (Hk' : (1 <= k')%nat) (Hb : dset_bits k' <= 2 ^ 63).

(** The node is created when the map does not have it. *)
Lemma join_create_ok c j w w' :
  0 <= j < 64 -> (Z.to_nat j < length (lk_nodes (links_of w)))%nat -> joined k k' c (links_of w) ->
  (if negb (CPU_ISSET_S j (CPU_ALLOC_SIZE (tp_n_cpus (w_topo w))) (tp_node_map (w_topo w)))
   then topo_new_node j else mret 0) w = Ok (0, w') ->
  joined k k' c (links_of w') /\ lk_n_cpus (links_of w') = lk_n_cpus (links_of w).
Proof using Hk' Hb.
  intros Hj Hl Hjn H.
  change (tp_n_cpus (w_topo w)) with (lk_n_cpus (links_of w)) in H.
  change (tp_node_map (w_topo w)) with (lk_map (links_of w)) in H.
  rewrite (jn_map_alloc _ _ _ _ Hjn), ISSET_S_wbit in H by (done || unfold dset_bits; lia).
  destruct (wbit (lk_map (links_of w)) j) eqn:E; simpl in H; [by injection H as <-|].
  apply new_node_links in H as [_ ->]. split; [|done].
  rewrite (jn_alloc _ _ _ _ Hjn), set_words_bytes, (jn_map_alloc _ _ _ _ Hjn).
  replace j with (Z.of_nat (Z.to_nat j)) at 2 3 by lia.
  apply joined_new_node; [done|done|done|by rewrite Z2Nat.id by lia|done].
Qed.

Lemma join_node_ok c j w w' :
  0 <= j < 64 -> 0 <= c < lk_n_cpus (links_of w) -> joined k k' c (links_of w) ->
  topo_join_node c j w = Ok (0, w') ->
  joined k k' (c + 1) (links_of w') /\ lk_n_cpus (links_of w') = lk_n_cpus (links_of w).
Proof using Hk Hk' Hb.
  intros Hj Hc Hjn H. unfold topo_join_node in H.
  apply M_bind_inv in H as (mx & w0 & [= <- <-] & H).
  apply or_return_0 in H as (w1 & (Hjn1 & E1 & Hl)%(join_expand_ok c) & H); [|done|done].
  apply M_bind_inv in H as (p & w0 & [= <- <-] & H).
  apply or_return_0 in H as (w2 & (Hjn2 & E2)%(join_create_ok c) & H); [|done..].
  apply M_bind_inv in H as (p & w0 & [= <- <-] & H).
  apply M_bind_inv in H as (u & w3 & H3 & H). apply M_bind_inv in H as (u' & w4 & H4 & [= <-]).
  destruct (attach_links _ _ _ _ _ _ _ H3 H4 (jn_max _ _ _ _ Hjn2)) as (idx & n & s & E & ->).
  rewrite (jn_setsize _ _ _ _ Hjn2). split; [apply joined_join; [done|lia|done..]|].
  by rewrite <- E1, <- E2.
Qed.

(** Nodes are numbered below 64: their map has a bit for each. *)
Context (Hsmall : forall t c names j,
  fs_list t (DCpu c) = inr names -> find_node_entry names = Some j -> 0 <= j < 64).

Lemma node_info_ok c w w' :
  0 <= c < lk_n_cpus (links_of w) -> lk_cpus (links_of w) !! Z.to_nat c = Some (Some None) ->
  joined k k' c (links_of w) -> topo_parse_cpu_node_info c w = Ok (0, w') ->
  joined k k' (c + 1) (links_of w') /\ lk_n_cpus (links_of w') = lk_n_cpus (links_of w).
Proof using All.
  intros Hc Ec Hjn H. unfold topo_parse_cpu_node_info in H.
  apply M_bind_inv in H as (r & w1 & Hr & H). injection Hr as Hr <-.
  destruct r as [err|names].
  { injection H as -> <-. split; [|done]. by apply joined_skip; [lia|..]. }
  destruct (find_node_entry names) as [j|] eqn:Ej.
  - by apply (join_node_ok c j (set_w_clock (S (w_clock w)) w) w'); [by eapply Hsmall|..].
  - injection H as <-. split; [|done]. by apply joined_skip; [lia|..].
Qed.

Context (online : Z -> M world bool) (Hquiet : forall c, keeps views (online c)).

Lemma read_cpu_ok c w w' :
  0 <= c < lk_n_cpus (links_of w) -> joined k k' c (links_of w) ->
  topo_read_cpu_topology online c w = Ok (0, w') ->
  joined k k' (c + 1) (links_of w') /\ lk_n_cpus (links_of w') = lk_n_cpus (links_of w).
Proof using All.
  intros Hc Hjn H. unfold topo_read_cpu_topology in H.
  apply M_bind_inv in H as (ok & w1 & ->%calloc_inv & H).
  destruct ok; simpl in H; [|by apply M_bind_inv in H as (? & ? & _ & ?)].
  apply M_bind_inv in H as ([] & w1 & [Hi Hw1]%put_cpu_inv & H). tsimpl_all.
  assert (El : links_of w1 =
    with_cpus (<[Z.to_nat c := Some None]> (lk_cpus (links_of w))) (links_of w)).
  { rewrite Hw1. unfold links_of, with_cpus. tsimpl. links_simpl. by rewrite projects_insert. }
  apply or_return_0 in H as (w2 & H2 & H). apply or_return_0 in H as (w3 & H3 & H).
  apply or_return_0 in H as (w4 & H4 & H). apply or_return_0 in H as (w5 & H5 & H).
  assert (Hkeep : links_of w' = links_of w2).
  { apply (both_links _ (views_both _ (keeps_cpu_cache_info online Hquiet c))) in H.
    apply (both_links _ (views_both _ (keeps_pkg_info online Hquiet _ c))) in H5. apply keeps_cluster_info in H4.
    apply (both_links _ (views_both _ (keeps_core_info online Hquiet _ c))) in H3. congruence. }
  rewrite Hkeep. apply node_info_ok in H2; rewrite El in *; [by destruct H2|done| |by apply joined_fresh].
  cbn. apply list_lookup_insert_eq. rewrite length_projects. lia.
Qed.
End run.

(** ** The whole construction *)

(** Sets for [n] CPUs, and for the nodes of [n] CPUs. *)
Lemma map_words n k k' :
  1 <= n <= dset_bits k -> CPU_ALLOC_SIZE n = bytes k' -> (1 <= k')%nat /\ dset_bits k' <= dset_bits k.
Proof. unfold CPU_ALLOC_SIZE, dset_bits. intros Hn E. split; zdm. Qed.

Section init.
Context `{F : Sysfs}.
Context (Hsmall : forall t c names j,
  fs_list t (DCpu c) = inr names -> find_node_entry names = Some j -> 0 <= j < 64).

Lemma read_cpus_ok k k' online fuel c w w' :
  dset_bits k <= 2 ^ 63 -> (forall c, keeps views (online c)) ->
  0 <= c <= lk_n_cpus (links_of w) -> joined k k' c (links_of w) ->
  read_cpus online fuel c w = Ok (0, w') ->
  joined k k' (lk_n_cpus (links_of w')) (links_of w').
Proof using Hsmall.
  intros Hk Hq. revert c w. induction fuel as [|fuel IH]; intros c w Hc Hjn H; [done|].
  cbn [read_cpus] in H. apply M_bind_inv in H as (p & w1 & [= <- <-] & H).
  destruct (Z.ltb_spec c (tp_n_cpus (w_topo w))) as [Hlt|Hge].
  - destruct (map_words (lk_n_cpus (links_of w)) k k') as [Hk' Hb];
      [pose proof (jn_room _ _ _ _ Hjn); cbn in *; lia|apply (jn_map_alloc _ _ _ _ Hjn)|].
    apply or_return_0 in H as (w1 & H1 & H).
    apply (read_cpu_ok k k') in H1 as [Hjn1 E1]; [|done|done|lia|done|done|cbn; lia|done].
    apply (IH (c + 1) w1); [|done|done]. rewrite E1. cbn in *. lia.
  - injection H as <-. cbn in Hc. replace (lk_n_cpus (links_of w)) with c; [done|]. cbn. lia.
Qed.

(** [topo_path_read_cpulist] succeeds for a positive number of CPUs only. *)
Lemma read_cpulist_0 d f n w s w' :
  topo_path_read_cpulist d f n w = Ok ((0, s), w') -> 0 < n /\ exists s', s = Some s'.
Proof using.
  intros H. unfold topo_path_read_cpulist in H.
  apply M_bind_inv in H as (fd & w1 & _ & H). destruct (Z.ltb_spec fd 0); [injection H; lia|].
  apply M_bind_inv in H as (ok & w2 & _ & H). destruct ok; [|done]. cbn [negb] in H.
  apply M_bind_inv in H as (text & w3 & _ & H). apply M_bind_inv in H as (errno & w4 & _ & H).
  unfold fgets in H. destruct text as [|x text].
  { destruct (Z.eqb_spec (- errno) 0); simpl in H; [done|]. injection H. lia. }
  destruct (Z.leb_spec (n * 8) 0).
  { destruct (Z.eqb_spec (- errno) 0); simpl in H; [done|]. injection H. lia. }
  split; [lia|]. destruct (take_line _ _) as [buf rest]. simpl in H. destruct buf; [done|].
  apply M_bind_inv in H as (r & w5 & _ & H). injection H as _ <- _. eauto.
Qed.

Lemma to_int_lt x : to_int x < 2 ^ 31.
Proof using. unfold to_int. destruct (Z.ltb_spec (x mod 2 ^ 32) (2 ^ 31)); [done|]. zdm. Qed.

(** What [topo_alloc_cpu] does when it succeeds. *)
Lemma alloc_cpu_inv w w' :
  topo_alloc_cpu w = Ok (0, w') ->
  exists kernel_max possible online, let setsize := CPU_ALLOC_SIZE kernel_max in
    let n := CPU_COUNT_S setsize possible in
    0 < kernel_max < 2 ^ 31 /\ w_max_node_index w' = w_max_node_index w /\
    w_topo w' = set_tp_online_cpu_map online (set_tp_cpus (replicate (Z.to_nat n) None)
      (set_tp_cpu_map possible (set_tp_n_cpus n (set_tp_setsize setsize
        (set_tp_kernel_max_cpus kernel_max (w_topo w)))))).
Proof using.
  intros H. unfold topo_alloc_cpu in H.
  apply M_bind_inv in H as (r & w1 & H1 & H).
  pose proof (keeps_read_s32 w_topo _ _ _ _ _ H1) as T1.
  pose proof (keeps_read_s32 w_max_node_index _ _ _ _ _ H1) as X1.
  set (mx := match r with inr k => to_int (k + 1) | inl _ => WAYCA_SC_DEFAULT_KERNEL_MAX end) in H.
  assert (Hmax : mx < 2 ^ 31) by (unfold mx; destruct r; [by vm_compute|apply to_int_lt]).
  apply M_bind_inv in H as ([] & w2 & [= <-] & H). apply M_bind_inv in H as ([] & w3 & [= <-] & H).
  apply M_bind_inv in H as (ok & w4 & ->%calloc_inv & H). destruct ok; [|done]. cbn [negb] in H.
  apply M_bind_inv in H as (p & w4 & [= <- <-] & H). tsimpl_all.
  apply M_bind_inv in H as ([ret s] & w4 & H2 & H). cbn [fst snd] in H.
  destruct (Z.eqb_spec ret 0) as [->|]; [|done]. cbn [negb] in H.
  pose proof (read_cpulist_0 _ _ _ _ _ _ H2) as (Hpos & set & ->).
  pose proof (keeps_read_cpulist w_topo _ _ _ _ _ _ H2) as T2.
  pose proof (keeps_read_cpulist w_max_node_index _ _ _ _ _ _ H2) as X2.
  apply M_bind_inv in H as ([] & w5 & [= <-] & H).
  apply M_bind_inv in H as (ok & w6 & ->%calloc_inv & H). destruct ok; [|done]. cbn [negb] in H.
  apply M_bind_inv in H as ([] & w7 & [= <-] & H).
  apply M_bind_inv in H as (ok & w8 & ->%calloc_inv & H). destruct ok; [|done]. cbn [negb] in H.
  apply M_bind_inv in H as ([ret s] & w9 & H3 & H). cbn [fst snd] in H.
  destruct (Z.eqb_spec ret 0) as [->|]; [|done]. cbn [negb] in H.
  pose proof (keeps_read_cpulist w_topo _ _ _ _ _ _ H3) as T3.
  pose proof (keeps_read_cpulist w_max_node_index _ _ _ _ _ _ H3) as X3.
  apply M_bind_inv in H as ([] & w10 & [= <-] & [= <-]). tsimpl_all.
  exists mx, set, (default [] s). split; [lia|]. split; [congruence|].
  rewrite T3, T2, T1. done.
Qed.

(** After [topo_alloc_cpu] there are no CPU objects; the nodes are as before. *)
Lemma alloc_cpu_links w w' :
  topo_alloc_cpu w = Ok (0, w') ->
  exists n setsize kernel_max k,
    setsize = bytes k /\ dset_bits k <= 2 ^ 63 /\ CPU_ALLOC_SIZE kernel_max = bytes k /\
    0 <= n <= dset_bits k /\
    links_of w' = mk_links n setsize (replicate (Z.to_nat n) None) (lk_nodes (links_of w))
      (lk_map (links_of w)) (lk_n_nodes (links_of w)) kernel_max (lk_max (links_of w)).
Proof using.
  intros (mx & set & on & Hmx & Ex & Et)%alloc_cpu_inv.
  destruct (CPU_ALLOC_SIZE_words mx) as [Ew Hw]; [lia|].
  set (k := set_words (CPU_ALLOC_SIZE mx)) in *.
  exists (CPU_COUNT_S (CPU_ALLOC_SIZE mx) set), (CPU_ALLOC_SIZE mx), mx, k.
  split; [done|]. split; [unfold dset_bits, CPU_ALLOC_SIZE in *; zdm|]. split; [done|]. split.
  { rewrite Ew. apply COUNT_S_bounds. }
  unfold links_of. rewrite Et, Ex. tsimpl. links_simpl. unfold projects at 1. by rewrite fmap_replicate.
Qed.

(** The loop starts with nothing joined. *)
Lemma alloc_joined w w1 w2 :
  lk_nodes (links_of w) = [] -> lk_n_nodes (links_of w) = 0 -> lk_max (links_of w) = -1 ->
  topo_alloc_cpu w = Ok (0, w1) -> topo_alloc_node_map w1 = Ok (0, w2) ->
  exists k k', dset_bits k <= 2 ^ 63 /\ 0 <= lk_n_cpus (links_of w2) /\ joined k k' 0 (links_of w2).
Proof using.
  intros E1 E2 E3 (n & z & mx & k & -> & Hk & Hmx & Hn & El)%alloc_cpu_links H.
  rewrite E1, E2, E3 in El.
  unfold topo_alloc_node_map in H. apply M_bind_inv in H as (p & w3 & [= <- <-] & H).
  apply or_nomem_0 in H as (s & w3 & [-> ->]%alloc_set_inv & H).
  apply M_bind_inv in H as ([] & w4 & [= <-] & [= <-]).
  unfold links_of in El. injection El as En Ez Ec Eno _ Enn Ek Em.
  destruct (CPU_ALLOC_SIZE_words n) as [Ew _]; [lia|].
  exists k, (set_words (CPU_ALLOC_SIZE n)). split; [done|]. unfold links_of. tsimpl. links_simpl.
  rewrite En, Ez, Ec, Eno, Enn, Ek, Em. split; [lia|]. constructor; links_simpl; try done.
  - rewrite length_replicate. lia.
  - lia.
  - apply zero_set_wf.
  - simpl. lia.
  - intros j _. rewrite wbit_zero_set. split; [done|]. by intros [nd ?].
  - intros c j Hc. lia.
Qed.
End init.

(** The CPUs that are linked to node [j]. *)
Definition node_cpus (p : wayca_topo) (j : nat) : list Z :=
  linked_below (tp_n_cpus p) (projects u_p_numa_node (tp_cpus p)) j.

(** The nodes partition the CPUs that have one: the set and the number of CPUs of
    a node are those of its links, every link leads to a node, the map of nodes
    has the nodes that exist, and their number is right. *)
Definition nodes_partition (p : wayca_topo) : Prop :=
  (forall j n, tp_nodes p !! j = Some (Some n) ->
     nd_node_idx n = Z.of_nat j /\ nd_n_cpus n = Z.of_nat (length (node_cpus p j)) /\
     members_below (8 * tp_setsize p) (nd_cpu_map n) = node_cpus p j) /\
  (forall c cpu j, tp_cpus p !! c = Some (Some cpu) -> u_p_numa_node cpu = Some j ->
     exists n, tp_nodes p !! j = Some (Some n)) /\
  (forall j, (j < 64)%nat -> wbit (tp_node_map p) (Z.of_nat j) = true <->
     exists n, tp_nodes p !! j = Some (Some n)) /\
  tp_n_nodes p = Z.of_nat (entries (tp_nodes p)).

Lemma is_node_iff p j :
  is_node (projects membership (tp_nodes p)) j <-> exists n, tp_nodes p !! j = Some (Some n).
Proof.
  unfold is_node. rewrite projects_lookup. destruct (tp_nodes p !! j) as [[n|]|]; simpl.
  - split; eauto.
  - split; by intros [? ?].
  - split; by intros [? ?].
Qed.

Lemma entries_projects {A B} (g : A -> B) l : entries (projects g l) = entries l.
Proof.
  unfold entries, projects. induction l as [|[x|] l IH]; [done| |done]. simpl. by f_equal.
Qed.

Lemma filter_below (f g : Z -> bool) m hi :
  0 <= m <= hi -> (forall c, 0 <= c < hi -> f c = (c <? m) && g c) ->
  List.filter f (seqZ 0 hi) = List.filter g (seqZ 0 m).
Proof.
  intros Hm Hf. replace hi with (m + (hi - m)) by lia. rewrite seqZ_app, List.filter_app by lia.
  rewrite (list_empty_filter f (seqZ (0 + m) _)), app_nil_r.
  - apply List.filter_ext_in. intros c Hc%list_elem_of_In%elem_of_seqZ. rewrite Hf by lia.
    by destruct (Z.ltb_spec c m); [|lia].
  - intros c Hc%elem_of_seqZ. rewrite Hf by lia. by destruct (Z.ltb_spec c m); [lia|].
Qed.

Lemma joined_partition k k' w :
  0 <= lk_n_cpus (links_of w) -> joined k k' (lk_n_cpus (links_of w)) (links_of w) ->
  nodes_partition (w_topo w).
Proof.
  intros Hn []. unfold links_of in *. links_simpl. split_and!.
  - intros j n E. destruct (jn_node0 j (membership n)) as (? & ? & ? & Hs).
    { by rewrite projects_lookup, E. }
    split; [done|]. split; [done|]. unfold members_below, node_cpus, linked_below.
    apply filter_below; rewrite jn_setsize0; unfold dset_bits in *; [lia|].
    intros c Hc. apply Hs. lia.
  - intros c cpu j E El. apply is_node_iff. apply (jn_link0 (Z.of_nat c)).
    + apply lookup_lt_Some in E. rewrite length_projects in jn_cpus0. lia.
    + unfold is_link. rewrite Nat2Z.id, projects_lookup, E. simpl. rewrite El.
      by apply bool_decide_true.
  - intros j Hj. rewrite jn_map0 by done. apply is_node_iff.
  - by rewrite jn_n_nodes0, entries_projects.
Qed.

Section claim.
Context `{F : Sysfs}.
Context (Hsmall : forall t c names j,
  fs_list t (DCpu c) = inr names -> find_node_entry names = Some j -> 0 <= j < 64).

Lemma topo_init_joined w w' :
  w_max_node_index w = -1 -> topo_init 0 w = Ok (tt, w') ->
  w_topo w' = zero_topo \/
  exists k k', dset_bits k <= 2 ^ 63 /\ joined k k' (lk_n_cpus (links_of w')) (links_of w').
Proof using Hsmall.
  intros Hm [Ez|(w0 & w2 & w3 & w4 & E0 & Em & H2 & H3 & H4 & Eb & _)]%topo_init_inv; [by left|right].
  destruct (alloc_joined w0 w2 w3) as (k & k' & Hk & Hn & Hjn);
    [cbn; by rewrite E0|cbn; by rewrite E0|cbn; congruence|done|done|].
  apply (read_cpus_ok Hsmall k k') in H4; [|done|intros; apply quiet_online, _|lia|done].
  exists k, k'. by rewrite (f_equal fst Eb : links_of w' = links_of w4).
Qed.

(** C7. When a first reading of the topology comes to its end, it leaves nodes that
    partition the CPUs: whether all steps succeeded or one failed and everything was
    dropped. This holds for all contents of the files and all patterns of failing
    allocations on which the reading does come to its end, with nodes numbered below
    64 and while no CPU goes on- or offline; [TopoFaults] has contents on which it
    stops at a NULL pointer or at a variable that was never written. *)
Theorem topo_init_partition w w' :
  w_max_node_index w = -1 -> topo_init 0 w = Ok (tt, w') -> nodes_partition (w_topo w').
Proof using Hsmall.
  intros Hm H. destruct (topo_init_joined w w' Hm H) as [->|(k & k' & _ & Hj)].
  - split_and!; [done|done| |done]. intros j Hj. unfold zero_topo. tsimpl.
    pose proof (wbit_zero_set 0 (Z.of_nat j)) as E. cbn [replicate] in E. rewrite E.
    split; [done|]. by intros [n ?].
  - apply (joined_partition k k'); [|done]. rewrite <- (jn_cpus _ _ _ _ Hj). lia.
Qed.

(** The copy of a set into a larger mask. *)
Lemma wbit_copy_mask k k' z m src c r m' :
  copy_mask (bytes k') z m src = (r, Some m') -> r = 0 ->
  dset_wf k src -> (k' <= k)%nat -> (8 * k' <= 8 * length m)%nat -> 0 <= c < dset_bits k' ->
  wbit m' c = wbit src c.
Proof using.
  unfold copy_mask. destruct (Z.ltb_spec z (bytes k')) as [|Hz]; [intros [= <- _]; done|].
  intros [= _ <-] _ [Hl _] Hk Hm Hc. unfold CPU_OR_S, CPU_OP_S, wbit. rewrite set_words_bytes.
  f_equal. f_equal. assert (Hw : (k' <= set_words z)%nat) by (unfold set_words; zdm).
  assert (Hi : (Z.to_nat (c / 64) < k')%nat) by (unfold dset_bits in Hc; zdm).
  rewrite lookup_app_l; [|rewrite length_zip_with, !length_take; unfold CPU_ZERO_S;
    rewrite length_app, length_replicate; lia].
  rewrite lookup_zip_with, !lookup_take_lt by done. unfold CPU_ZERO_S.
  rewrite lookup_app_l by (rewrite length_replicate; lia). rewrite lookup_replicate_2 by lia. simpl.
  by destruct (src !! Z.to_nat (c / 64)).
Qed.

Lemma get_node_id_iff c j w :
  0 <= c < tp_n_cpus (w_topo w) ->
  wayca_sc_get_node_id c w = Ok (j, w) <->
  exists cpu l n, tp_cpus (w_topo w) !! Z.to_nat c = Some (Some cpu) /\ u_p_numa_node cpu = Some l /\
    tp_nodes (w_topo w) !! l = Some (Some n) /\ nd_node_idx n = j.
Proof using.
  intros Hc. unfold wayca_sc_get_node_id. erewrite M_bind_ok by reflexivity.
  unfold topo_is_valid_cpu. destruct (Z.leb_spec 0 c); [|lia].
  destruct (Z.ltb_spec c (tp_n_cpus (w_topo w))); [|lia]. cbn [negb andb]. split.
  - intros H'. apply M_bind_inv in H' as (cpu & w1 & H1 & H').
    apply M_bind_inv in H1 as (p & w2 & [= <- <-] & (-> & _ & Ecpu)%at_index_inv).
    apply M_bind_inv in H' as (l & w2 & Hl & H').
    destruct (u_p_numa_node cpu) as [l'|] eqn:El; [injection Hl as <- <-|done].
    apply M_bind_inv in H' as (n & w3 & Hn & [= <- <-]).
    apply M_bind_inv in Hn as (p & w4 & [= <- <-] & (_ & _ & En)%at_index_inv).
    rewrite Nat2Z.id in En. by exists cpu, l', n.
  - intros (cpu & l & n & Ecpu & El & En & Ej). unfold get_cpu, get_node.
    erewrite M_bind_ok; [|erewrite M_bind_ok by reflexivity; by apply at_index_ok; [lia|]].
    rewrite El. erewrite M_bind_ok by reflexivity.
    erewrite M_bind_ok; [|erewrite M_bind_ok by reflexivity; apply at_index_ok; [lia|by rewrite Nat2Z.id]].
    by rewrite Ej.
Qed.

Lemma node_mask_inv fuel j z m m' w w3 :
  wayca_sc_node_cpu_mask fuel j z (Some m) w = Ok ((0, Some m'), w3) ->
  exists n, 0 <= j /\ tp_nodes (w_topo w3) !! Z.to_nat j = Some (Some n) /\
    copy_mask (CPU_ALLOC_SIZE (tp_n_cpus (w_topo w3))) z m (nd_cpu_map n) = (0, Some m') /\
    CPU_ALLOC_SIZE (tp_n_cpus (w_topo w3)) <= z.
Proof using.
  intros H. unfold wayca_sc_node_cpu_mask in H. apply M_bind_inv in H as (p & w0 & [= <- <-] & H).
  destruct (negb _); [done|]. apply M_bind_inv in H as (u & w1 & _ & H).
  apply M_bind_inv in H as (p & w2 & [= <- <-] & H).
  destruct (Z.ltb_spec z (CPU_ALLOC_SIZE (tp_n_cpus (w_topo w1)))); [done|].
  apply M_bind_inv in H as (n & w2 & Hn & H).
  apply M_bind_inv in Hn as (p & w4 & [= <- <-] & (-> & Hj & En)%at_index_inv).
  injection H as H <-. by exists n.
Qed.

(** C22. The two queries about the CPUs of a node agree: when
    [wayca_sc_node_cpu_mask] gives the mask of node [j], a CPU is in the mask
    exactly when [wayca_sc_get_node_id] gives [j] for it. (The topology is the one
    that [topo_init] built; no CPU went on- or offline.) *)
Theorem node_queries_agree fuel w w' j z m m' w3 c :
  w_max_node_index w = -1 -> topo_init 0 w = Ok (tt, w') ->
  wayca_sc_node_cpu_mask fuel j z (Some m) w' = Ok ((0, Some m'), w3) -> w_topo w3 = w_topo w' ->
  z <= 8 * Z.of_nat (length m) -> 0 <= c < tp_n_cpus (w_topo w') ->
  wbit m' c = true <-> wayca_sc_get_node_id c w' = Ok (j, w').
Proof using Hsmall.
  intros Hm H Hq Ht Hz Hc.
  destruct (topo_init_joined w w' Hm H) as [E|(k & k' & Hk & Hj)]; [rewrite E in Hc; simpl in Hc; lia|].
  destruct (map_words (tp_n_cpus (w_topo w')) k k') as [_ Hkk];
    [pose proof (jn_room _ _ _ _ Hj); simpl in *; lia|apply (jn_map_alloc _ _ _ _ Hj)|].
  apply node_mask_inv in Hq as (n & Hj0 & En & Hcopy & Hroom). rewrite Ht in *.
  pose proof (jn_map_alloc _ _ _ _ Hj) as Ea. cbn in Ea. rewrite Ea in Hcopy, Hroom.
  assert (Enj : lk_nodes (links_of w') !! Z.to_nat j = Some (Some (membership n)))
    by (cbn; by rewrite projects_lookup, En).
  destruct (jn_node _ _ _ _ Hj _ _ Enj) as (Hidx & _ & Hwf & Hbits).
  assert (Hck : 0 <= c < dset_bits k').
  { unfold dset_bits, CPU_ALLOC_SIZE in *. split; [lia|]. zdm. }
  rewrite (wbit_copy_mask k k' z m (nd_cpu_map n) c 0 m'), Hbits by (done || unfold dset_bits in *; lia).
  destruct (Z.ltb_spec c (lk_n_cpus (links_of w'))) as [_|Hge]; [|cbn in Hge; lia].
  unfold is_link. simpl. rewrite bool_decide_eq_true, projects_lookup, get_node_id_iff by done. split.
  - intros E. destruct (tp_cpus (w_topo w') !! Z.to_nat c) as [[cpu|]|] eqn:Ec; [|done|done].
    exists cpu, (Z.to_nat j), n. simpl in E. injection E as ->. split_and!; [done|done|done|]. lia.
  - intros (cpu & l & n' & Ec & El & En' & Ej). rewrite Ec. simpl. rewrite El. do 3 f_equal.
    assert (Enl : lk_nodes (links_of w') !! l = Some (Some (membership n')))
      by (cbn; by rewrite projects_lookup, En').
    destruct (jn_node _ _ _ _ Hj _ _ Enl) as (Hidx' & _). lia.
Qed.
End claim.

Module OnSmallMachine.
Import SmallMachine.

Lemma topo_init_partition_witness :
  exists w', topo_init 0 start = Ok (tt, w') /\ tp_n_cpus (w_topo w') = 4 /\
    nodes_partition (w_topo w').
Proof.
  exists ready. split; [apply ready_eq|]. split; [reflexivity|].
  apply (topo_init_partition nodes_small start); [reflexivity|]. apply ready_eq.
Defined.

Lemma node_queries_agree_witness :
  exists w3, wayca_sc_node_cpu_mask 0 1 128 (Some CPU_EMPTY) ready =
    Ok ((0, Some (12 :: replicate 15 0)), w3) /\
  (wbit (12 :: replicate 15 0) 3 = true <-> wayca_sc_get_node_id 3 ready = Ok (1, ready)).
Proof.
  eexists. split; [vm_compute; reflexivity|].
  refine (node_queries_agree nodes_small 0 start ready 1 128 CPU_EMPTY (12 :: replicate 15 0)
            (after (wayca_sc_node_cpu_mask 0 1 128 (Some CPU_EMPTY) ready)) 3 _ _ _ _ _ _).
  - reflexivity.
  - apply ready_eq.
  - vm_compute. reflexivity.
  - vm_compute. reflexivity.
  - vm_compute. discriminate.
  - vm_compute. split; [discriminate|reflexivity].
Defined.
End OnSmallMachine.
