(* ===== verification/TopoFaults.v ===== *)
(** * Topologies that cannot be read

    Two ways in which [lib/topo.c] ends with a NULL pointer: reading the topology
    again in a process that has read it before, and asking for the memory of a
    node when the kernel allows for nodes that have no CPU. *)

From Stdlib Require Import Ascii String.
From S2P Require Import Prelude Bitops Cpuset Cstring Dynset Cpulist TopoState Topo TopoDev.
From S2P Require Import TopoInit TopoQuery.
From S2P Require Import TopoMachine TopoFrame TopoViews TopoNodes.

(** A fault ends the program. *)
Lemma M_bind_fault {S A B} (m : M S A) (f : A -> M S B) s e :
  m s = Fault e -> (mbind f m) s = Fault e.
Proof. intros H. unfold mbind, M_bind. by rewrite H. Qed.

Lemma or_return_ok m k w w' : m w = Ok (0, w') -> or_return m k w = k w'.
Proof. intros H. unfold or_return. by rewrite (M_bind_ok _ _ _ _ _ H). Qed.

Lemma or_return_fault m k w e : m w = Fault e -> or_return m k w = Fault e.
Proof. apply M_bind_fault. Qed.

Lemma ISSET_S_zero j z n : CPU_ISSET_S j z (replicate n 0) = false.
Proof. unfold CPU_ISSET_S. rewrite wbit_zero_set. by case_match. Qed.

Section reread.
Context `{F : Sysfs}.
Context (Hmem : forall t, fs_calloc t = true).

Lemma calloc_ok w : calloc w = Ok (true, set_w_clock (S (w_clock w)) w).
Proof using Hmem. unfold calloc, ask. by rewrite Hmem. Qed.

(** A node below the largest one seen, when the array of nodes is NULL. *)
Lemma join_node_fault c j w :
  tp_nodes (w_topo w) = [] -> j <= w_max_node_index w ->
  CPU_ISSET_S j (CPU_ALLOC_SIZE (tp_n_cpus (w_topo w))) (tp_node_map (w_topo w)) = false ->
  topo_join_node c j w = Fault NullDeref.
Proof using Hmem.
  intros En Hj Hs. unfold topo_join_node. rewrite (M_bind_ok _ _ w _ w eq_refl).
  destruct (Z.ltb_spec (w_max_node_index w) j); [lia|].
  rewrite (or_return_ok _ _ w w eq_refl), (M_bind_ok _ _ w _ w eq_refl), Hs. apply or_return_fault.
  cbn [negb]. unfold topo_new_node. rewrite (M_bind_ok _ _ _ _ _ (calloc_ok w)). cbn [negb].
  apply M_bind_fault. unfold put_node.
  rewrite (M_bind_ok _ _ _ _ _ (eq_refl : get_topo (set_w_clock _ w) = Ok (w_topo w, _))).
  apply M_bind_fault. by rewrite En.
Qed.

Lemma read_cpu_fault online j names w :
  tp_nodes (w_topo w) = [] -> j <= w_max_node_index w -> (0 < length (tp_cpus (w_topo w)))%nat ->
  CPU_ISSET_S j (CPU_ALLOC_SIZE (tp_n_cpus (w_topo w))) (tp_node_map (w_topo w)) = false ->
  (forall t, fs_list t (DCpu 0) = inr names) -> find_node_entry names = Some j ->
  topo_read_cpu_topology online 0 w = Fault NullDeref.
Proof using Hmem.
  intros En Hj Hl Hs Hd Hf. unfold topo_read_cpu_topology.
  rewrite (M_bind_ok _ _ _ _ _ (calloc_ok w)). cbn [negb].
  assert (Hp : forall v w, (0 < length (tp_cpus (w_topo w)))%nat -> put_cpu 0 v w =
    Ok (tt, set_w_topo (set_tp_cpus (<[O := v]> (tp_cpus (w_topo w))) (w_topo w)) w)).
  { intros v w0 Hw. unfold put_cpu, mbind, M_bind, get_topo, gets, put_index.
    destruct (tp_cpus (w_topo w0)) as [|x l] eqn:E; [simpl in Hw; lia|].
    destruct (Z.ltb_spec 0 (Z.of_nat (length (x :: l)))); [done|]. simpl in *. lia. }
  erewrite M_bind_ok by (by apply Hp). apply or_return_fault.
  unfold topo_parse_cpu_node_info. erewrite M_bind_ok by reflexivity. rewrite Hd, Hf.
  by apply join_node_fault.
Qed.

(** A process that has seen a node with number [j] or more cannot read the
    topology again (as it does when a CPU goes on- or offline): when CPU 0 is in
    node [j], [topo_init] dereferences the array of nodes while it is NULL,
    because the static variable that holds the largest node number keeps its
    value. *)
Theorem topo_reread_faults fuel w w1 w2 names j :
  topo_alloc_cpu (set_w_topo zero_topo (set_w_clock (S (w_clock w)) w)) = Ok (0, w1) ->
  topo_alloc_node_map w1 = Ok (0, w2) -> 0 < tp_n_cpus (w_topo w2) ->
  (forall t, fs_list t (DCpu 0) = inr names) -> find_node_entry names = Some j ->
  j <= w_max_node_index w ->
  topo_init fuel w = Fault NullDeref.
Proof using Hmem.
  intros H1 H2 Hn Hd Hf Hj.
  assert (Hw2 : tp_nodes (w_topo w2) = [] /\ w_max_node_index w2 = w_max_node_index w /\
    Z.of_nat (length (tp_cpus (w_topo w2))) = tp_n_cpus (w_topo w2) /\
    exists n, tp_node_map (w_topo w2) = replicate n 0).
  { apply alloc_cpu_links in H1 as (n & z & mx & k & _ & _ & _ & Hnn & El).
    unfold topo_alloc_node_map in H2. apply M_bind_inv in H2 as (p & w3 & [= <- <-] & H2).
    apply or_nomem_0 in H2 as (s & w3 & [-> ->]%alloc_set_inv & H2).
    apply M_bind_inv in H2 as ([] & w4 & [= <-] & [= <-]). tsimpl_all.
    unfold links_of in El. injection El as En _ Ec Eno _ _ _ Em.
    split; [by destruct (tp_nodes (w_topo w1))|]. split; [done|]. split; [|eauto].
    rewrite <- (length_projects u_p_numa_node), Ec, length_replicate. lia. }
  destruct Hw2 as (En & Em & Hl & n & Emap).
  assert (Hbody : forall online, topo_init_body online w = Fault NullDeref); [|destruct fuel; apply Hbody].
  intros online. unfold topo_init_body. do 3 (erewrite M_bind_ok by reflexivity). apply M_bind_fault.
  rewrite (or_return_ok _ _ _ _ H1), (or_return_ok _ _ _ _ H2). apply or_return_fault.
  unfold topo_construct_cpu_topology. erewrite M_bind_ok by reflexivity.
  unfold cpus_fuel. cbn [read_cpus]. erewrite M_bind_ok by reflexivity.
  destruct (Z.ltb_spec 0 (tp_n_cpus (w_topo w2))); [|lia]. apply or_return_fault.
  apply read_cpu_fault with j names; [done|lia|lia| |done|done]. rewrite Emap. apply ISSET_S_zero.
Qed.
End reread.

Section mismatch.
Context `{F : Sysfs}.

(** When the possible nodes are not those that have CPUs,
    [topo_construct_numa_topology] reports success and reads nothing, and the size
    of the memory of a node cannot be asked for: a NULL pointer is dereferenced. *)
Theorem numa_mismatch_faults w w1 s i n :
  fs_calloc (w_clock w) = true ->
  topo_path_read_cpulist DNodes Fpossible (tp_n_cpus (w_topo w))
    (set_w_clock (S (w_clock w)) w) = Ok ((0, Some s), w1) ->
  CPU_EQUAL_S (CPU_ALLOC_SIZE (tp_n_cpus (w_topo w))) s (tp_node_map (w_topo w)) = false \/
  CPU_COUNT_S (CPU_ALLOC_SIZE (tp_n_cpus (w_topo w))) s <> tp_n_nodes (w_topo w) ->
  0 <= i < tp_n_nodes (w_topo w) ->
  tp_nodes (w_topo w) !! Z.to_nat i = Some (Some n) -> nd_p_meminfo n = None ->
  topo_construct_numa_topology w = Ok (0, w1) /\ w_topo w1 = w_topo w /\
  wayca_sc_get_node_mem_size i true w1 = Fault NullDeref.
Proof using.
  intros Hc Hr Hmis Hi En Hm.
  assert (Ht : w_topo w1 = w_topo w) by exact (keeps_read_cpulist w_topo _ _ _ _ _ _ Hr).
  split; [|split; [done|]].
  - unfold topo_construct_numa_topology. erewrite M_bind_ok by reflexivity.
    unfold calloc. erewrite M_bind_ok by reflexivity. rewrite Hc. cbn [negb].
    rewrite (M_bind_ok _ _ _ _ _ Hr). cbn [fst snd negb default Z.eqb].
    replace (negb (CPU_EQUAL_S _ _ _) || _) with true; [done|]. symmetry. apply orb_true_iff.
    destruct Hmis as [Hq|Hq]; [left; cbn; by rewrite Hq|right].
    cbn. by destruct (Z.eqb_spec (CPU_COUNT_S (CPU_ALLOC_SIZE (tp_n_cpus (w_topo w))) s)
      (tp_n_nodes (w_topo w))).
  - unfold wayca_sc_get_node_mem_size. erewrite M_bind_ok by reflexivity. rewrite Ht.
    unfold topo_is_valid_node, is_valid. destruct (Z.leb_spec 0 i); [|lia].
    destruct (Z.ltb_spec i (tp_n_nodes (w_topo w))); [|lia]. cbn [negb orb andb].
    unfold get_node. erewrite M_bind_ok; [|erewrite M_bind_ok by reflexivity; rewrite Ht].
    + rewrite Hm. done.
    + by apply at_index_ok; [lia|].
Qed.
End mismatch.

Module OnSmallMachine.
Import SmallMachine.

Definition cleared : world := set_w_topo zero_topo (set_w_clock (S (w_clock ready)) ready).
Definition allocated : world := Eval vm_compute in after (topo_alloc_cpu cleared).
Definition mapped : world := Eval vm_compute in after (topo_alloc_node_map allocated).

Lemma topo_reread_faults_witness :
  w_max_node_index ready = 1 /\ topo_init 3 ready = Fault NullDeref.
Proof.
  split; [reflexivity|].
  refine (topo_reread_faults _ 3 ready allocated mapped
            [s2l "topology"%string; s2l "node"%string ++ print_num 10 0] 0 _ _ _ _ _ _).
  - reflexivity.
  - vm_compute. reflexivity.
  - vm_compute. reflexivity.
  - reflexivity.
  - reflexivity.
  - vm_compute. reflexivity.
  - vm_compute. discriminate.
Defined.

(** The same machine under a kernel that allows for four nodes. *)
Definition text4 (d : dir) (f : file) : option cstring :=
  match d, f with
  | DNodes, Fpossible => Some (line "0-3"%string)
  | _, _ => text d f
  end.

#[local] Instance files4 : Sysfs := {|
  fs_open _ d f := match text4 d f with Some _ => 0 | None => -2 end;
  fs_text _ d f := default [] (text4 d f);
  fs_reads _ d f := bytes_of d f;
  fs_list _ d := entries_of d;
  fs_irqs _ := inr [];
  fs_msi _ p := inl (-2);
  fs_lstat _ p := inr false;
  fs_readlink _ p := inl (-2);
  fs_chdir _ _ := true;
  fs_getcwd _ := true;
  fs_access _ d := match d with DCache _ k => k <? 1 | _ => false end;
  fs_calloc _ := true;
  fs_errno _ := 0;
  fs_env _ := false
|}.

Definition cpus_read : world := Eval vm_compute in
  after ((topo_alloc_cpu;; topo_alloc_node_map;;
          topo_construct_cpu_topology (is_cpu_online_body (throw OutOfFuel))) start).
Definition node0 : wayca_node := Eval vm_compute in
  match tp_nodes (w_topo cpus_read) with Some n :: _ => n | _ => mk_wayca_node 0 0 [] [] [] [] None 0 [] 0 [] end.

Lemma numa_mismatch_faults_witness :
  exists w1, topo_construct_numa_topology cpus_read = Ok (0, w1) /\
    w_topo w1 = w_topo cpus_read /\ wayca_sc_get_node_mem_size 0 true w1 = Fault NullDeref.
Proof.
  eexists. refine (numa_mismatch_faults cpus_read _ [15] 0 node0 _ _ _ _ _ _).
  - reflexivity.
  - vm_compute. reflexivity.
  - left. vm_compute. reflexivity.
  - vm_compute. split; [discriminate|reflexivity].
  - vm_compute. reflexivity.
  - reflexivity.
Defined.
End OnSmallMachine.
