(* ===== verification/TopoClusters.v ===== *)
(** * Clusters

    What the construction of the topology establishes about clusters: their
    identifiers are distinct, so that looking a cluster up by its identifier
    finds the one that the CPU is linked to. *)

From Stdlib Require Import Ascii String.
From S2P Require Import Prelude Bitops Cpuset Cstring Dynset Cpulist TopoState Topo TopoDev.
From S2P Require Import TopoInit TopoQuery.
From S2P Require Import TopoMachine TopoFrame TopoViews TopoNodes.

(** ** Looking up by a key *)

(** The elements before the result have another key, and the result, unless it is
    the end, has it. *)
Lemma find_key_inv {A} (key : A -> Z) k l n i w r w' :
  find_key key k l n i w = Ok (r, w') ->
  w' = w /\ i <= r <= i + Z.of_nat n /\
  (forall x, (Z.of_nat x < r - i)%Z -> exists a, projects key l !! x = Some (Some a) /\ a <> k) /\
  (r < i + Z.of_nat n -> projects key l !! Z.to_nat (r - i) = Some (Some k)).
Proof.
  revert l i. induction n as [|n IH]; intros l i H.
  { assert (E : (mret i : M world Z) w = Ok (r, w')) by (by destruct l). injection E as <- <-.
    split; [done|]. split; [lia|]. split; [intros; lia|lia]. }
  destruct l as [|[a|] l]; [done| |done]. cbn [find_key] in H.
  destruct (Z.eqb_spec (key a) k) as [Ek|Ek].
  { injection H as <- <-. split; [done|]. split; [lia|]. split; [intros; lia|].
    intros _. rewrite Z.sub_diag. simpl. by rewrite Ek. }
  apply IH in H as (-> & Hr & Hb & Ha). split; [done|]. split; [lia|]. split.
  - intros [|x] Hx; [by exists (key a)|]. apply (Hb x). lia.
  - intros Hlt. replace (Z.to_nat (r - i)) with (S (Z.to_nat (r - (i + 1)))) by lia.
    apply Ha. lia.
Qed.

(** With distinct keys the result is the index of the element. *)
Lemma find_key_nodup {A} (key : A -> Z) l ids j a w :
  projects key l = Some <$> ids -> NoDup ids -> l !! j = Some (Some a) ->
  find_key key (key a) l (length ids) 0 w = Ok (Z.of_nat j, w).
Proof.
  intros El Hnd Ej.
  assert (Eid : ids !! j = Some (key a)).
  { apply (f_equal (fun l => l !! j)) in El. rewrite projects_lookup, Ej, list_lookup_fmap in El.
    simpl in El. by destruct (ids !! j); simplify_eq/=. }
  enough (H : forall i l ids j, projects key l = Some <$> ids -> NoDup ids ->
    ids !! j = Some (key a) -> find_key key (key a) l (length ids) i w = Ok (i + Z.of_nat j, w))
    by (by apply (H 0)).
  clear. intros i l ids. revert i l. induction ids as [|x ids IH]; intros i l j El Hnd E; [done|].
  destruct l as [|[b|] l]; [done| |done]. injection El as Eb El. cbn [length find_key].
  apply NoDup_cons in Hnd as [Hx Hnd]. destruct j as [|j]; simpl in E.
  - injection E as E. rewrite Eb, E, Z.eqb_refl. by rewrite Z.add_0_r.
  - destruct (Z.eqb_spec (key b) (key a)) as [Eq|_].
    { exfalso. apply Hx. rewrite <- Eb, Eq. by eapply list_elem_of_lookup_2. }
    rewrite (IH (i + 1) l j) by done. f_equal. f_equal. lia.
Qed.

(** ** The invariant of the loop over the CPUs *)

(** [ids] are the identifiers of the clusters. *)
Definition clusters_ok (v : Z * list (option Z) * list (option (option nat))) : Prop :=
  let '(n, ids, cpus) := v in
  exists l, ids = Some <$> l /\ NoDup l /\ n = Z.of_nat (length l) /\
    forall c j, cpus !! c = Some (Some (Some j)) -> (j < length l)%nat.

Section run.
Context `{F : Sysfs}.

Lemma cpulist_clusters {d f n w r w'} :
  topo_path_read_cpulist d f n w = Ok (r, w') -> w_topo w' = w_topo w.
Proof using. apply keeps_read_cpulist, _. Qed.

(** A new cluster comes last. *)
Lemma new_cluster_view d c id w w' :
  length (tp_ccls (w_topo w)) = Z.to_nat (tp_n_clusters (w_topo w)) -> 0 <= tp_n_clusters (w_topo w) ->
  topo_new_cluster d c id (tp_n_clusters (w_topo w)) w = Ok (0, w') ->
  clusters_of w' = (tp_n_clusters (w_topo w) + 1, projects l_cluster_id (tp_ccls (w_topo w)) ++ [Some id],
                    projects u_p_cluster (tp_cpus (w_topo w))).
Proof using.
  intros Hl Hn H. unfold topo_new_cluster in H.
  apply M_bind_inv in H as (p' & w1 & [= <- <-] & H).
  apply M_bind_inv in H as (o & w1 & He & H). apply M_bind_inv in H as ([] & w2 & [= <-] & H).
  destruct o as [l'|]; [|done]. apply expand_inv in He as ([n ->] & Hlen & ->); [|lia].
  rewrite length_app, length_replicate in Hlen. assert (n = 1%nat) as -> by lia. clear Hlen.
  apply M_bind_inv in H as (ok & w2 & ->%calloc_inv & H). destruct ok; [|done]. cbn [negb] in H.
  apply M_bind_inv in H as ([] & w2 & [Hi Hw2]%put_ccl_inv & H). tsimpl_all.
  apply M_bind_inv in H as ([] & w3 & [= <-] & H).
  apply M_bind_inv in H as (ok & w3 & ->%calloc_inv & H). destruct ok; [|done]. cbn [negb] in H.
  apply M_bind_inv in H as (r & w4 & E4%cpulist_clusters & H). tsimpl_all.
  apply M_bind_inv in H as ([] & w5 & (c5 & _ & E5 & Hw5)%upd_ccl_inv & H).
  destruct (negb (r.1 =? 0)) eqn:Er; [injection H as H; zbool; lia|].
  apply M_bind_inv in H as ([] & w6 & (c6 & _ & E6 & Hw6)%upd_ccl_inv & H).
  assert (Ek : clusters_of w' = clusters_of w6).
  { apply or_nomem_0 in H as (s & w7 & [_ ->]%alloc_set_inv & H). revert H.
    change (clusters_of w6) with (clusters_of (set_w_clock (S (w_clock w6)) w6)).
    generalize (set_w_clock (S (w_clock w6)) w6). intros w7 H.
    assert (Hkeep : keeps clusters_of (upd_ccl (tp_n_clusters (w_topo w)) (set_l_core_map s);;
      cp ← get_cpu c; node ← deref (u_p_numa_node cp);
      upd_node (Z.of_nat node) (fun n =>
        set_nd_cluster_map (CPU_SET_S (tp_n_clusters (w_topo w)) (tp_setsize (w_topo w)) (nd_cluster_map n)) n);;
      mret 0)) by keeps.
    by apply (Hkeep _ _ _ H). }
  rewrite Ek, Hw6. subst w5. tsimpl_all. rewrite E4 in *. subst w2. tsimpl_all.
  unfold clusters_of. tsimpl. f_equal. f_equal.
  unfold from_option, Datatypes.id. rewrite !list_insert_insert_eq, insert_app_r_alt by lia.
  replace (Z.to_nat (tp_n_clusters (w_topo w)) - length (tp_ccls (w_topo w)))%nat with O by lia. simpl.
  unfold projects. rewrite fmap_app. done.
Qed.

(** A CPU object is created, or loses its cluster. *)
Lemma clusters_ok_unlink n ids cpus c :
  clusters_ok (n, ids, cpus) -> clusters_ok (n, ids, <[c := Some None]> cpus).
Proof using.
  intros (l & ? & ? & ? & Hc). exists l. split_and!; try done. intros c' j E.
  destruct (decide (c' = c)) as [->|Hne].
  - apply list_lookup_insert_Some in E as [(_ & ? & _)|[? _]]; done.
  - rewrite list_lookup_insert_ne in E by done. by apply (Hc c').
Qed.

Lemma clusters_ok_link n ids cpus c j :
  clusters_ok (n, ids, cpus) -> (Z.of_nat j < n)%Z ->
  clusters_ok (n, ids, <[c := Some (Some j)]> cpus).
Proof using.
  intros (l & ? & ? & ? & Hc) Hj. exists l. split_and!; try done. intros c' j' E.
  apply list_lookup_insert_Some in E as [(_ & ? & _)|[_ E]]; [simplify_eq; lia|by apply (Hc c')].
Qed.

Lemma clusters_ok_new n ids cpus id :
  clusters_ok (n, ids, cpus) ->
  (forall x, (Z.of_nat x < n)%Z -> exists a, ids !! x = Some (Some a) /\ a <> id) ->
  clusters_ok (n + 1, ids ++ [Some id], cpus).
Proof using.
  intros (l & -> & Hnd & -> & Hc) Hid. exists (l ++ [id]). rewrite length_app, fmap_app. split_and!.
  - done.
  - apply NoDup_app. split; [done|]. split; [|apply NoDup_singleton].
    intros x [i E]%list_elem_of_lookup ->%list_elem_of_singleton.
    destruct (Hid i) as (a & E' & Hne); [apply lookup_lt_Some in E; lia|].
    rewrite list_lookup_fmap, E in E'. by simplify_eq/=.
  - simpl. lia.
  - intros c j E. specialize (Hc c j E). simpl. lia.
Qed.

Lemma cluster_info_ok c w w' :
  clusters_ok (clusters_of w) -> topo_parse_cpu_cluster_info (DTopology c) c w = Ok (0, w') ->
  clusters_ok (clusters_of w').
Proof using.
  intros Hok H. unfold topo_parse_cpu_cluster_info in H.
  apply M_bind_inv in H as (r & w1 & Hr & H). apply (keeps_read_s32 clusters_of) in Hr.
  rewrite <- Hr in Hok. clear Hr w. destruct r as [e|id].
  { apply M_bind_inv in H as ([] & w2 & (cp & _ & E & ->)%upd_cpu_inv & [= <-]).
    unfold clusters_of in *. tsimpl. rewrite projects_insert. by apply clusters_ok_unlink. }
  apply M_bind_inv in H as (p & w2 & [= <- <-] & H).
  apply M_bind_inv in H as (i & w2 & (-> & Hi & Hb & _)%find_key_inv & H).
  apply or_return_0 in H as (w2 & H2 & H).
  apply M_bind_inv in H as ([] & w3 & (cp & _ & E & ->)%upd_cpu_inv & [= <-]).
  assert (Hok2 : clusters_ok (clusters_of w2) /\ i < tp_n_clusters (w_topo w2)).
  { destruct Hok as (l & El & Hnd & En & Hc).
    assert (Hlen : length (tp_ccls (w_topo w1)) = length l).
    { rewrite <- (length_projects l_cluster_id), El. apply length_fmap. }
    rewrite En in Hi. destruct (Z.eqb_spec i (tp_n_clusters (w_topo w1))) as [->|Hne].
    - apply new_cluster_view in H2; [|lia|lia].
      assert (Hn2 : tp_n_clusters (w_topo w2) = tp_n_clusters (w_topo w1) + 1)
        by (by injection H2).
      rewrite H2, Hn2. split; [|lia]. apply clusters_ok_new; [by exists l|].
      intros x Hx. apply Hb. lia.
    - injection H2 as <-. split; [by exists l|]. lia. }
  destruct Hok2 as [Hok2 Hi2]. unfold clusters_of in *. tsimpl. rewrite projects_insert.
  apply clusters_ok_link; [done|lia].
Qed.

Context (online : Z -> M world bool) (Hquiet : forall c, keeps views (online c)).

Lemma cl_read_cpu_ok c w w' :
  clusters_ok (clusters_of w) -> topo_read_cpu_topology online c w = Ok (0, w') ->
  clusters_ok (clusters_of w').
Proof using Hquiet.
  intros Hok H. unfold topo_read_cpu_topology in H.
  apply M_bind_inv in H as (ok & w1 & ->%calloc_inv & H).
  destruct ok; simpl in H; [|by apply M_bind_inv in H as (? & ? & _ & ?)].
  apply M_bind_inv in H as ([] & w1 & [Hi Hw1]%put_cpu_inv & H). tsimpl_all.
  apply or_return_0 in H as (w2 & H2 & H). apply or_return_0 in H as (w3 & H3 & H).
  apply or_return_0 in H as (w4 & H4 & H). apply or_return_0 in H as (w5 & H5 & H).
  apply (both_clusters _ (views_both _ (keeps_cpu_cache_info online Hquiet c))) in H.
  apply (both_clusters _ (views_both _ (keeps_pkg_info online Hquiet _ c))) in H5.
  apply (both_clusters _ (views_both _ (keeps_core_info online Hquiet _ c))) in H3. apply keeps_node_info in H2.
  rewrite H, H5. apply (cluster_info_ok c w3); [|done]. rewrite H3, H2, Hw1.
  unfold clusters_of in *. tsimpl. rewrite projects_insert. by apply clusters_ok_unlink.
Qed.

Lemma cl_read_cpus_ok fuel c w w' :
  clusters_ok (clusters_of w) -> read_cpus online fuel c w = Ok (0, w') ->
  clusters_ok (clusters_of w').
Proof using Hquiet.
  revert c w. induction fuel as [|fuel IH]; intros c w Hok H; [done|].
  cbn [read_cpus] in H. apply M_bind_inv in H as (p & w1 & [= <- <-] & H).
  destruct (c <? tp_n_cpus (w_topo w)); [|by injection H as <-].
  apply or_return_0 in H as (w1 & H1 & H). apply (IH (c + 1) w1); [|done].
  by apply (cl_read_cpu_ok c w).
Qed.
End run.

(** ** The claim *)

Lemma topo_init_clusters `{F : Sysfs} w w' :
  topo_init 0 w = Ok (tt, w') -> clusters_ok (clusters_of w').
Proof.
  assert (H0 : forall n, clusters_ok (0, [], replicate n None)).
  { intros n. exists []. split_and!; [done|apply NoDup_nil_2|done|].
    by intros c j [? _]%lookup_replicate. }
  intros [Ez|(w0 & w2 & w3 & w4 & E0 & _ & (mx & set & on & _ & _ & E2)%alloc_cpu_inv & H3 & H4 & Eb & _)]
    %topo_init_inv.
  { unfold clusters_of. rewrite Ez. apply (H0 0%nat). }
  assert (E3 : clusters_of w3 = clusters_of w2).
  { revert H3. assert (Hk : keeps clusters_of topo_alloc_node_map) by
      (unfold topo_alloc_node_map; keeps). apply Hk. }
  rewrite (f_equal snd Eb : clusters_of w' = clusters_of w4). revert H4.
  apply cl_read_cpus_ok; [intros; apply quiet_online, _|].
  rewrite E3. unfold clusters_of. rewrite E2, E0. tsimpl. unfold projects. rewrite fmap_replicate. apply H0.
Qed.

(** [wayca_sc_get_ccl_id] gives the index of the cluster that the CPU was
    linked to when the topology was read: identifiers of clusters are distinct.
    (The topology is the one that [topo_init] built; no CPU went on- or offline.) *)
Theorem get_ccl_id_link `{F : Sysfs} fuel w w' c r w2 :
  topo_init 0 w = Ok (tt, w') ->
  wayca_sc_get_ccl_id fuel c w' = Ok (r, w2) -> w_topo w2 = w_topo w' -> 0 <= r ->
  exists cpu, tp_cpus (w_topo w') !! Z.to_nat c = Some (Some cpu) /\
    u_p_cluster cpu = Some (Z.to_nat r) /\ r < tp_n_clusters (w_topo w').
Proof.
  intros (ids & El & Hnd & En & Hlt)%topo_init_clusters H Ht Hr.
  unfold wayca_sc_get_ccl_id in H. apply M_bind_inv in H as (p & w0 & [= <- <-] & H).
  destruct (negb _); [injection H as <- _; by vm_compute in Hr|].
  apply M_bind_inv in H as (n & w1 & _ & H).
  destruct (n <? 0); [injection H as <- _; by vm_compute in Hr|].
  apply M_bind_inv in H as (on & w3 & _ & H).
  destruct on; [|injection H as <- _; by vm_compute in Hr]. cbn [negb] in H.
  apply M_bind_inv in H as (cpu & w4 & Hcpu & H).
  apply M_bind_inv in Hcpu as (p & w5 & [= <- <-] & (-> & _ & Ecpu)%at_index_inv).
  apply M_bind_inv in H as (j & w5 & Hj & H).
  destruct (u_p_cluster cpu) as [j'|] eqn:Elink; [injection Hj as <- <-|done].
  apply M_bind_inv in H as (cl & w4 & Hcl & H).
  apply M_bind_inv in Hcl as (p & w5 & [= <- <-] & (-> & _ & Ecl)%at_index_inv).
  rewrite Nat2Z.id in Ecl. apply M_bind_inv in H as (p & w5 & [= <- <-] & H).
  apply M_bind_inv in H as (i & w5 & Hf & [= <- <-]).
  pose proof Hf as (Ew & _)%find_key_inv. subst w5. rewrite Ht in *.
  rewrite En, Nat2Z.id, (find_key_nodup l_cluster_id _ ids j' cl) in Hf by done.
  injection Hf as <-. exists cpu.
  assert (Hj' : (j' < length ids)%nat).
  { apply (Hlt (Z.to_nat c)). rewrite projects_lookup, Ecpu. simpl. by rewrite Elink. }
  destruct (Z.ltb_spec (Z.of_nat j') (tp_n_clusters (w_topo w'))); [|lia].
  rewrite Nat2Z.id. done.
Qed.

Module OnSmallMachine.
Import SmallMachine.

Lemma get_ccl_id_link_witness :
  exists w2, wayca_sc_get_ccl_id 0 3 ready = Ok (1, w2) /\
  exists cpu, tp_cpus (w_topo ready) !! 3%nat = Some (Some cpu) /\
    u_p_cluster cpu = Some 1%nat /\ 1 < tp_n_clusters (w_topo ready).
Proof.
  eexists. split; [vm_compute; reflexivity|].
  refine (get_ccl_id_link 0 start ready 3 1 (after (wayca_sc_get_ccl_id 0 3 ready)) _ _ _ _).
  - apply ready_eq.
  - vm_compute. reflexivity.
  - vm_compute. reflexivity.
  - vm_compute. discriminate.
Defined.
End OnSmallMachine.
