(* ===== verification/TopoInterface.v ===== *)
(** * The topology behind the interface of the scheduler

    The group and thread components see the topology through the class
    [State.Topology] and assume a regular machine ([State.TopologyOk]). Here the
    queries of [lib/topo.c] discharge that interface: on a topology whose parts
    are of equal size they give numbers that divide the number of CPUs. *)

From S2P Require Import Prelude Bitops Cpuset Cstring Dynset State Cpulist TopoState Topo.
From S2P Require Import TopoDev TopoInit.
From S2P Require Import TopoQuery TopoMachine TopoFrame.

(** What a query answers in a state. *)
Definition answer (q : M world Z) (w : world) : Z :=
  match q w with Ok (r, _) => r | Fault _ => - ENODATA end.

Definition topology_of (w : world) : Topology := {|
  State.wayca_sc_cpus_in_ccl := answer TopoQuery.wayca_sc_cpus_in_ccl w;
  State.wayca_sc_cpus_in_node := answer TopoQuery.wayca_sc_cpus_in_node w;
  State.wayca_sc_cpus_in_package := answer TopoQuery.wayca_sc_cpus_in_package w;
  State.wayca_sc_cpus_in_total := answer TopoQuery.wayca_sc_cpus_in_total w
|}.

(** [n] parts of [size] CPUs each, or no part at all. *)
Definition parts_ok (total n size : Z) : Prop := n < 1 \/ (0 < size /\ total = n * size).

(** A topology whose clusters, nodes and packages are of equal size. *)
Record regular (p : wayca_topo) : Prop := {
  rg_cpus : 0 < tp_n_cpus p <= CPU_SETSIZE;
  rg_nodes : exists size, parts_ok (tp_n_cpus p) (tp_n_nodes p) size;
  rg_packages : exists size, parts_ok (tp_n_cpus p) (tp_n_packages p) size;
  rg_clusters : exists size, parts_ok (tp_n_cpus p) (tp_n_clusters p) size /\
    forall i, (i < Z.to_nat (tp_n_clusters p))%nat ->
      exists l, tp_ccls p !! i = Some (Some l) /\ l_n_cpus l = size;
}.

(** The largest of parts that are all of one size. *)
Lemma max_cpus_const {A} (f : A -> Z) (l : list (option A)) n size acc w :
  acc <= size ->
  (forall i, (i < n)%nat -> exists a, l !! i = Some (Some a) /\ f a = size) ->
  max_cpus f l n acc w = Ok (if (n =? 0)%nat then acc else size, w).
Proof.
  revert l acc. induction n as [|n IH]; intros l acc Hacc Hl; [by destruct l|].
  destruct (Hl O) as (a & E & Ef); [lia|]. destruct l as [|[b|] l]; [done| |done].
  injection E as ->. cbn [max_cpus]. rewrite IH.
  - destruct (Z.ltb_spec acc (f a)), n; simpl; repeat f_equal; lia.
  - destruct (Z.ltb_spec acc (f a)); lia.
  - intros i Hi. apply (Hl (S i)). lia.
Qed.

(** The number of CPUs in each of [n] parts. *)
Lemma parts_level total n size :
  0 < total <= CPU_SETSIZE -> 1 <= n -> parts_ok total n size ->
  to_int (total / n) = size /\ level_ok total size.
Proof.
  unfold CPU_SETSIZE. intros Ht Hn [?|[Hs E]]; [lia|].
  assert (Hd : total / n = size) by (subst total; rewrite Z.mul_comm; apply Z.div_mul; lia).
  split; [rewrite Hd; apply to_int_id; nia|]. right. split; [done|]. by exists n.
Qed.

Section regular.
Context (w : world) (Hreg : regular (w_topo w)).

Lemma total_answer : answer TopoQuery.wayca_sc_cpus_in_total w = tp_n_cpus (w_topo w).
Proof using Hreg.
  pose proof (rg_cpus _ Hreg) as H. unfold CPU_SETSIZE in H.
  unfold answer, TopoQuery.wayca_sc_cpus_in_total. rewrite (M_bind_ok _ _ w _ w eq_refl).
  destruct (Z.ltb_spec (tp_n_cpus (w_topo w)) 1); [lia|]. unfold count. cbn. apply to_int_id. lia.
Qed.

Lemma node_answer : level_ok (tp_n_cpus (w_topo w)) (answer TopoQuery.wayca_sc_cpus_in_node w).
Proof using Hreg.
  destruct (rg_nodes _ Hreg) as [size Hp].
  unfold answer, TopoQuery.wayca_sc_cpus_in_node. rewrite (M_bind_ok _ _ w _ w eq_refl).
  destruct (Z.ltb_spec (tp_n_nodes (w_topo w)) 1); [by left|].
  destruct (parts_level _ _ _ (rg_cpus _ Hreg) H Hp) as [E Hl]. unfold count. cbn. by rewrite E.
Qed.

Lemma package_answer : level_ok (tp_n_cpus (w_topo w)) (answer TopoQuery.wayca_sc_cpus_in_package w).
Proof using Hreg.
  destruct (rg_packages _ Hreg) as [size Hp].
  unfold answer, TopoQuery.wayca_sc_cpus_in_package. rewrite (M_bind_ok _ _ w _ w eq_refl).
  destruct (Z.ltb_spec (tp_n_packages (w_topo w)) 1); [by left|].
  destruct (parts_level _ _ _ (rg_cpus _ Hreg) H Hp) as [E Hl]. unfold count. cbn. by rewrite E.
Qed.

(** The detour over the number of clusters gives the size of a cluster back. *)
Lemma ccl_answer : level_ok (tp_n_cpus (w_topo w)) (answer TopoQuery.wayca_sc_cpus_in_ccl w).
Proof using Hreg.
  destruct (rg_clusters _ Hreg) as (size & Hp & Hl). pose proof (rg_cpus _ Hreg) as Hc.
  unfold answer, TopoQuery.wayca_sc_cpus_in_ccl. rewrite (M_bind_ok _ _ w _ w eq_refl).
  destruct (Z.ltb_spec (tp_n_clusters (w_topo w)) 1) as [|Hn]; [by left|].
  destruct (parts_level _ _ _ Hc Hn Hp) as [E Hlev]. destruct Hp as [?|[Hs Ht]]; [lia|].
  assert (Hdiv : tp_n_cpus (w_topo w) / size = tp_n_clusters (w_topo w))
    by (rewrite Ht; apply Z.div_mul; lia).
  unfold TopoQuery.wayca_sc_ccls_in_total at 1. rewrite M_bind_assoc, (M_bind_ok _ _ w _ w eq_refl).
  destruct (Z.ltb_spec (tp_n_clusters (w_topo w)) 1); [lia|].
  rewrite M_bind_assoc, (M_bind_ok _ _ _ _ _ (max_cpus_const l_n_cpus (tp_ccls (w_topo w)) _ size 0 w
    ltac:(lia) Hl)).
  destruct (Z.to_nat (tp_n_clusters (w_topo w)) =? 0)%nat eqn:E0; [apply Nat.eqb_eq in E0; lia|].
  destruct (Z.ltb_spec 0 size); [|lia]. rewrite Hdiv.
  unfold mbind, M_bind, modify, count, gets, mret, M_ret. tsimpl.
  destruct (Z.ltb_spec 0 (tp_n_clusters (w_topo w))); [|lia]. by rewrite E.
Qed.

(** The interface of the scheduler is discharged. *)
Lemma topology_of_ok : TopologyOk (topology_of w).
Proof using Hreg.
  constructor; cbn [State.wayca_sc_cpus_in_total State.wayca_sc_cpus_in_ccl
    State.wayca_sc_cpus_in_node State.wayca_sc_cpus_in_package topology_of]; rewrite total_answer.
  - apply (rg_cpus _ Hreg).
  - apply ccl_answer.
  - apply node_answer.
  - apply package_answer.
Qed.
End regular.

(** The small machine is regular. *)
Lemma small_machine_regular : regular (w_topo SmallMachine.ready).
Proof.
  constructor.
  - unfold CPU_SETSIZE. cbn. lia.
  - exists 2. right. cbn. lia.
  - exists 4. right. cbn. lia.
  - exists 2. split; [right; cbn; lia|]. cbn. intros i Hi.
    destruct i as [|[|i]]; [eexists; split; reflexivity|eexists; split; reflexivity|lia].
Qed.

#[export] Instance small_machine_ok : TopologyOk (topology_of SmallMachine.ready) :=
  topology_of_ok _ small_machine_regular.
