(* ===== verification/TopoDevices.v ===== *)
(** * The devices of the nodes

    The arrays of devices that the walk over [/sys/devices] builds are complete:
    their recorded lengths are right and they have no NULL entry, as long as
    memory is available. So the list of devices can always be asked for, and every
    name in it leads to a device. *)

From Stdlib Require Import Ascii String.
From S2P Require Import Prelude Bitops Cpuset Cstring Dynset Cpulist TopoState Topo TopoDev.
From S2P Require Import TopoInit TopoQuery.
From S2P Require Import TopoMachine TopoFrame TopoViews TopoNodes.

(** ** Invariants *)

Section maintains.
Context (P : world -> Prop).

Definition maintains {A} (m : M world A) : Prop :=
  forall w a w', P w -> m w = Ok (a, w') -> P w'.

Lemma maintains_bind {A B} (m : M world A) (f : A -> M world B) :
  maintains m -> (forall a, maintains (f a)) -> maintains (mbind f m).
Proof using.
  intros Hm Hf w b w' HP H. apply M_bind_inv in H as (a & w1 & H1 & H2).
  apply (Hf a w1 b w'); [|done]. by apply (Hm w a w1).
Qed.

Lemma maintains_or_return m k : maintains m -> maintains k -> maintains (or_return m k).
Proof using.
  intros Hm Hk. apply maintains_bind; [done|]. intros r. destruct (negb _); [|done].
  by intros w a w' HP [= <- <-].
Qed.
End maintains.

(** An array of [n] devices without holes. *)
Definition array_ok {A} (n : Z) (l : list (option A)) : Prop :=
  n = Z.of_nat (length l) /\ Forall (fun o => is_Some o) l.

Definition node_devices_ok (x : Z * list (option wayca_pci_device) * Z * list (option wayca_smmu))
    : Prop :=
  let '(np, ps, ns, ss) := x in array_ok np ps /\ array_ok ns ss.

Definition devices_ok (w : world) : Prop :=
  forall j x, devices_of w !! j = Some (Some x) -> node_devices_ok x.

Lemma maintains_keeps {A} (m : M world A) : keeps devices_of m -> maintains devices_ok m.
Proof. intros Hk w a w' HP H j x. rewrite (Hk w a w' H). apply HP. Qed.

Lemma array_ok_nil {A} : array_ok 0 (@nil (option A)).
Proof. split; [done|]. apply Forall_nil_2. Qed.

Lemma array_ok_insert {A} n (l : list (option A)) k a :
  array_ok n l -> array_ok n (<[k := Some a]> l).
Proof.
  intros [-> Hl]. split; [by rewrite length_insert|]. apply Forall_insert; [done|eauto].
Qed.

Lemma array_ok_snoc {A} n (l : list (option A)) a : array_ok n l -> array_ok (n + 1) (l ++ [Some a]).
Proof.
  intros [-> Hl]. split; [rewrite length_app; simpl; lia|]. apply Forall_app. split; [done|].
  apply Forall_singleton. eauto.
Qed.

Lemma array_ok_lookup {A} n (l : list (option A)) k :
  array_ok n l -> 0 <= k < n -> exists a, l !! Z.to_nat k = Some (Some a).
Proof.
  intros [-> Hl] Hk. destruct (lookup_lt_is_Some_2 l (Z.to_nat k)) as [o Eo]; [lia|].
  destruct (Forall_lookup_1 _ _ _ _ Hl Eo) as [a ->]. eauto.
Qed.

Lemma devices_ok_put w i n :
  devices_ok w -> node_devices_ok (node_devices n) ->
  devices_ok (set_w_topo (set_tp_nodes (<[i := Some n]> (tp_nodes (w_topo w))) (w_topo w)) w).
Proof.
  intros HP Hn j x. unfold devices_of. tsimpl. rewrite projects_insert. intros E.
  apply list_lookup_insert_Some in E as [(_ & Ex & _)|[_ E]]; [|by apply (HP j)].
  simpl in Ex. by simplify_eq.
Qed.

Lemma devices_ok_node w i n :
  devices_ok w -> tp_nodes (w_topo w) !! i = Some (Some n) -> node_devices_ok (node_devices n).
Proof. intros HP E. apply (HP i). unfold devices_of. by rewrite projects_lookup, E. Qed.

Lemma maintains_upd_node i f :
  (forall n, node_devices_ok (node_devices n) -> node_devices_ok (node_devices (f n))) ->
  maintains devices_ok (upd_node i f).
Proof.
  intros Hf w u w' HP (n & _ & E & ->)%upd_node_inv. apply devices_ok_put; [done|].
  apply Hf. by eapply devices_ok_node.
Qed.

Create HintDb maintains.
#[export] Hint Extern 1 (maintains devices_ok _) =>
  apply maintains_keeps; solve [keeps] : maintains.

Ltac maintains_step :=
  match goal with
  | |- maintains _ (mbind _ _) => apply maintains_bind; [|intros ?]
  | |- maintains _ (or_return _ _) => apply maintains_or_return
  | |- maintains _ (if ?b then _ else _) => destruct b
  | |- maintains _ (match ?x with _ => _ end) => destruct x
  end.
Ltac maintains := repeat first [solve [eauto with maintains] | maintains_step].

(** ** The walk *)

Section walk.
Context `{F : Sysfs}.

Lemma maintains_upd_pcidev i k f : maintains devices_ok (upd_pcidev i k f).
Proof using.
  intros w u w' HP H. unfold upd_pcidev in H.
  apply M_bind_inv in H as (n & w1 & Hn & H).
  apply M_bind_inv in Hn as (p & w2 & [= <- <-] & (-> & Hi & En)%at_index_inv).
  apply M_bind_inv in H as (d & w1 & (-> & _ & _)%at_index_inv & H).
  apply M_bind_inv in H as (l & w1 & (-> & Hk & ->)%put_index_inv & H).
  apply upd_node_inv in H as (n' & _ & En' & ->). simplify_eq.
  apply devices_ok_put; [done|]. pose proof (devices_ok_node _ _ _ HP En) as [? ?].
  split; [by apply array_ok_insert|done].
Qed.

Lemma maintains_upd_smmu i k f : maintains devices_ok (upd_smmu i k f).
Proof using.
  intros w u w' HP H. unfold upd_smmu in H.
  apply M_bind_inv in H as (n & w1 & Hn & H).
  apply M_bind_inv in Hn as (p & w2 & [= <- <-] & (-> & Hi & En)%at_index_inv).
  apply M_bind_inv in H as (d & w1 & (-> & _ & _)%at_index_inv & H).
  apply M_bind_inv in H as (l & w1 & (-> & Hk & ->)%put_index_inv & H).
  apply upd_node_inv in H as (n' & _ & En' & ->). simplify_eq.
  apply devices_ok_put; [done|]. pose proof (devices_ok_node _ _ _ HP En) as [? ?].
  split; [done|by apply array_ok_insert].
Qed.
Hint Resolve maintains_upd_pcidev maintains_upd_smmu : maintains.

Lemma maintains_upd_irqs i k f : maintains devices_ok (upd_irqs i k f).
Proof using. apply maintains_upd_pcidev. Qed.
Lemma devices_get_pcidev i k : keeps devices_of (get_pcidev i k).
Proof using. unfold get_pcidev. keeps. Qed.
Hint Resolve maintains_upd_irqs : maintains.
Hint Resolve devices_get_pcidev : keeps.

Lemma devices_find_irq_files names msi irq ret : keeps devices_of (find_irq_files names msi irq ret).
Proof using.
  revert msi irq ret. induction names as [|n names IH]; intros; cbn [find_irq_files]; keeps.
Qed.
Hint Resolve devices_find_irq_files : keeps.

Lemma maintains_device_irqs i k d : maintains devices_ok (topo_parse_device_irqs i k d).
Proof using. unfold topo_parse_device_irqs, topo_parse_msi_irq, topo_parse_irq. maintains. Qed.
Hint Resolve maintains_device_irqs : maintains.

Lemma devices_read_hex d f n : keeps devices_of (read_hex d f n).
Proof using. unfold read_hex. keeps. Qed.
Lemma devices_read_numa_node d : keeps devices_of (read_numa_node d).
Proof using. unfold read_numa_node. keeps. Qed.
Hint Resolve devices_read_hex devices_read_numa_node : keeps.

Lemma maintains_pci_info i k d : maintains devices_ok (topo_parse_pci_info i k d).
Proof using. unfold topo_parse_pci_info. maintains. Qed.
Lemma maintains_pci_smmu i k d : maintains devices_ok (topo_parse_pci_smmu i k d).
Proof using. unfold topo_parse_pci_smmu. maintains. Qed.
Lemma maintains_smmu_info i k d : maintains devices_ok (topo_parse_smmu_info i k d).
Proof using. unfold topo_parse_smmu_info. maintains. Qed.
Hint Resolve maintains_pci_info maintains_pci_smmu maintains_smmu_info : maintains.

(** ** A device is appended *)

Context (Hmem : forall t, fs_calloc t = true).

Lemma expand_by_one {A} (zero : A) (l : list A) w :
  expand_array zero l (Z.of_nat (length l)) (Z.of_nat (length l) + 1) w =
  Ok (Some (l ++ [zero]), set_w_clock (S (w_clock w)) w).
Proof using Hmem.
  unfold expand_array.
  destruct (Z.eqb_spec (Z.of_nat (length l) + 1) 0); [lia|].
  destruct (Z.ltb_spec (Z.of_nat (length l) + 1) (Z.of_nat (length l))); [lia|]. cbn [orb].
  unfold calloc. erewrite M_bind_ok by reflexivity. rewrite Hmem. cbn [negb].
  destruct l as [|x l]; [done|].
  destruct (Z.eqb_spec (Z.of_nat (length (x :: l))) 0) as [E|_]; [simpl in E; lia|].
  destruct (Z.ltb_spec (Z.of_nat (length (x :: l))) (Z.of_nat (length (x :: l)))); [lia|].
  rewrite take_ge by lia. rewrite Z.add_simpl_l. done.
Qed.

Lemma insert_snoc {A} (l : list A) x y : <[length l := x]> (l ++ [y]) = l ++ [x].
Proof using. rewrite insert_app_r_alt by lia. by rewrite Nat.sub_diag. Qed.

(** The two kinds of devices: their array in a node and its length. *)
Lemma maintains_append {A} (arr : wayca_node -> list (option A)) (cnt : wayca_node -> Z)
    (set_arr : list (option A) -> wayca_node -> wayca_node)
    (set_cnt : Z -> wayca_node -> wayca_node) i d (rest : Z -> M world Z) :
  (forall n, node_devices_ok (node_devices n) -> array_ok (cnt n) (arr n)) ->
  (forall n l0 l, node_devices_ok (node_devices n) -> array_ok (cnt n + 1) l ->
     node_devices_ok (node_devices (set_cnt (cnt n + 1) (set_arr l (set_arr l0 n))))) ->
  (forall k, maintains devices_ok (rest k)) ->
  maintains devices_ok (
    n ← get_node i;
    let k := cnt n in
    devs ← topo_expand_mem (arr n) k (k + 1);
    upd_node i (set_arr (default [] devs));;
    match devs with
    | None => mret (- ENOMEM)
    | Some devs =>
      l ← put_index devs k (Some d);
      upd_node i (fun n => set_cnt (k + 1) (set_arr l n));;
      rest k
    end).
Proof using Hmem.
  intros Harr Hset Hrest w r w' HP H. apply M_bind_inv in H as (n & w1 & Hn & H).
  apply M_bind_inv in Hn as (p & w2 & [= <- <-] & (-> & Hi & En)%at_index_inv).
  pose proof (devices_ok_node _ _ _ HP En) as Hok. pose proof (Harr n Hok) as Ha.
  pose proof (Hset n (arr n ++ [None]) (arr n ++ [Some d]) Hok (array_ok_snoc _ _ _ Ha)) as Hnew.
  destruct Ha as [Hc _]. cbv zeta in H. rewrite Hc in H, Hnew.
  unfold topo_expand_mem in H.
  rewrite (M_bind_ok _ _ _ _ _ (expand_by_one None (arr n) w)) in H. unfold default, Datatypes.id in H.
  apply M_bind_inv in H as ([] & w1 & (n1 & _ & En1 & ->)%upd_node_inv & H). tsimpl_all.
  rewrite En in En1. injection En1 as <-.
  apply M_bind_inv in H as (l & w1 & (-> & _ & ->)%put_index_inv & H).
  apply M_bind_inv in H as ([] & w1 & (n2 & _ & En2 & ->)%upd_node_inv & H). tsimpl_all.
  rewrite list_lookup_insert_eq in En2 by (by eapply lookup_lt_Some). injection En2 as <-.
  rewrite Nat2Z.id, insert_snoc, list_insert_insert_eq in H.
  apply (Hrest _ _ _ _) in H; [done|].
  by apply (devices_ok_put (set_w_clock (S (w_clock w)) w) (Z.to_nat i)).
Qed.

Lemma maintains_pci_device d : maintains devices_ok (topo_parse_pci_device d).
Proof using Hmem.
  unfold topo_parse_pci_device. do 2 (maintains_step; [solve [maintains]|]).
  maintains_step; [unfold topo_parse_pci_numa_node; solve [maintains]|].
  do 2 maintains_step; [|solve [maintains]].
  apply (maintains_append nd_pcidevs nd_n_pcidevs set_nd_pcidevs set_nd_n_pcidevs _ _
    (fun k => or_return (topo_parse_pci_info _ k d) (topo_parse_pci_smmu _ k d))).
  - by intros n [? _].
  - by intros n l0 l [_ ?] ?.
  - intros k. maintains.
Qed.

Lemma maintains_smmu d : maintains devices_ok (topo_parse_smmu d).
Proof using Hmem.
  unfold topo_parse_smmu. do 2 (maintains_step; [solve [maintains]|]).
  do 3 (maintains_step; [solve [maintains]|]). maintains_step; [solve [maintains]|].
  apply (maintains_append nd_smmus nd_n_smmus set_nd_smmus set_nd_n_smmus _ _
    (fun k => topo_parse_smmu_info _ k d)).
  - by intros n [_ ?].
  - by intros n l0 l [? _] ?.
  - intros k. maintains.
Qed.
Hint Resolve maintains_pci_device maintains_smmu : maintains.

Lemma maintains_io_device d : maintains devices_ok (topo_parse_io_device d).
Proof using Hmem. unfold topo_parse_io_device, is_pci_device_dir. maintains. Qed.
Hint Resolve maintains_io_device : maintains.

Lemma maintains_io_entries walk names :
  (forall n, maintains devices_ok (walk n)) -> maintains devices_ok (io_entries walk names).
Proof using Hmem.
  intros Hw. induction names as [|n names IH]; cbn [io_entries]; maintains.
Qed.

Lemma maintains_walk fuel root :
  maintains devices_ok (topo_recursively_read_io_devices fuel root).
Proof using Hmem.
  revert root. induction fuel as [|fuel IH]; intros root;
    cbn [topo_recursively_read_io_devices]; [by intros w a w' _ ?|].
  maintains; apply maintains_io_entries; intros n; apply IH.
Qed.

(** ** The nodes appear *)

Lemma expand_subset {A} (l : list (option A)) a b w l' w' :
  topo_expand_mem l a b w = Ok (l', w') ->
  (exists t, w' = set_w_clock t w) /\
  forall j x, default [] l' !! j = Some (Some x) -> l !! j = Some (Some x).
Proof using.
  unfold topo_expand_mem, expand_array. intros H.
  destruct (_ || _); [injection H as <- <-; split; [by exists (w_clock w); destruct w|done]|].
  apply M_bind_inv in H as (ok & w1 & ->%calloc_inv & H).
  destruct ok; simpl in H; [|injection H as <- <-; split; [by eexists|done]].
  assert (Hnone : forall n j (x : A), replicate n None !! j = Some (Some x) -> False).
  { intros n j x [? _]%lookup_replicate. done. }
  destruct l as [|y l].
  { injection H as <- <-. split; [by eexists|]. intros j x []%Hnone. }
  destruct (Z.eqb_spec a 0).
  { injection H as <- <-. split; [by eexists|]. intros j x []%Hnone. }
  destruct (Z.ltb_spec (Z.of_nat (length (y :: l))) a); [done|]. injection H as <- <-.
  split; [by eexists|]. intros j x [E|[_ []%Hnone]]%lookup_app_Some.
  by apply lookup_take_Some in E as [E _].
Qed.

Lemma maintains_expand_nodes {B} a b (k : option (list (option wayca_node)) -> M world B) :
  (forall o, maintains devices_ok (k o)) ->
  maintains devices_ok (
    p ← get_topo;
    nodes ← topo_expand_mem (tp_nodes p) a b;
    upd_topo (set_tp_nodes (default [] nodes));;
    k nodes).
Proof using.
  intros Hk w r w' HP H. apply M_bind_inv in H as (p & w1 & [= <- <-] & H).
  apply M_bind_inv in H as (nodes & w1 & [[t ->] Hs]%expand_subset & H).
  apply M_bind_inv in H as ([] & w1 & [= <-] & H).
  apply Hk in H; [done|]. intros j x. unfold devices_of. tsimpl. rewrite projects_lookup.
  destruct (default [] nodes !! j) as [[n|]|] eqn:E; simpl; intros [= <-].
  apply (devices_ok_node w j n HP). by apply Hs.
Qed.

Lemma maintains_put_node i n :
  (forall n', n = Some n' -> node_devices_ok (node_devices n')) ->
  maintains devices_ok (put_node i n).
Proof using.
  intros Hn w u w' HP (Hi & ->)%put_node_inv j x. unfold devices_of. tsimpl.
  rewrite projects_insert. intros E.
  apply list_lookup_insert_Some in E as [(_ & Ex & _)|[_ E]]; [|by apply (HP j)].
  destruct n as [n'|]; [|done]. injection Ex as <-. by apply Hn.
Qed.

Lemma maintains_new_node i : maintains devices_ok (topo_new_node i).
Proof using.
  unfold topo_new_node. maintains_step; [solve [maintains]|]. maintains_step.
  - maintains_step; [by apply maintains_put_node|maintains].
  - maintains_step; [|unfold or_nomem; maintains].
    apply maintains_put_node. intros n [= <-]. split; apply array_ok_nil.
Qed.
Hint Resolve maintains_new_node : maintains.

Lemma maintains_join_node c i : maintains devices_ok (topo_join_node c i).
Proof using.
  unfold topo_join_node. maintains_step; [solve [maintains]|]. apply maintains_or_return.
  - maintains_step; [|solve [maintains]]. maintains_step; [solve [maintains]|].
    apply (maintains_expand_nodes _ _
      (fun nodes => mret (match nodes with Some _ => 0 | None => - ENOMEM end))). maintains.
  - maintains.
Qed.
Hint Resolve maintains_join_node : maintains.

Lemma maintains_node_info c : maintains devices_ok (topo_parse_cpu_node_info c).
Proof using. unfold topo_parse_cpu_node_info. maintains. Qed.
Hint Resolve maintains_node_info : maintains.

Lemma maintains_read_cpu c :
  maintains devices_ok (topo_read_cpu_topology (is_cpu_online_body (throw OutOfFuel)) c).
Proof using.
  pose proof (fun c => quiet_online views c) as Hq.
  unfold topo_read_cpu_topology. maintains_step; [solve [maintains]|].
  maintains_step; [solve [maintains]|]. maintains_step; [solve [maintains]|].
  repeat apply maintains_or_return; [apply maintains_node_info|apply maintains_keeps..].
  - by apply views_devices, keeps_core_info.
  - apply devices_cluster_info.
  - by apply views_devices, keeps_pkg_info.
  - by apply views_devices, keeps_cpu_cache_info.
Qed.

Lemma maintains_read_cpus fuel c :
  maintains devices_ok (read_cpus (is_cpu_online_body (throw OutOfFuel)) fuel c).
Proof using.
  revert c. induction fuel as [|fuel IH]; intros c; cbn [read_cpus]; [by intros w a w' _ ?|].
  maintains_step; [solve [maintains]|]. maintains_step; [|solve [maintains]].
  apply maintains_or_return; [apply maintains_read_cpu|apply IH].
Qed.

Lemma alloc_devices w0 w2 w3 :
  w_topo w0 = zero_topo -> topo_alloc_cpu w0 = Ok (0, w2) -> topo_alloc_node_map w2 = Ok (0, w3) ->
  devices_of w3 = [].
Proof using.
  intros Hz H2 H3.
  assert (K2 : keeps devices_of topo_alloc_cpu) by (unfold topo_alloc_cpu; keeps).
  assert (K3 : keeps devices_of topo_alloc_node_map)
    by (unfold topo_alloc_node_map, or_nomem; keeps).
  rewrite (K3 _ _ _ H3), (K2 _ _ _ H2). unfold devices_of. by rewrite Hz.
Qed.

(** The arrays of devices of all nodes are complete after [topo_init]. *)
Lemma topo_init_devices w w' : topo_init 0 w = Ok (tt, w') -> devices_ok w'.
Proof using Hmem.
  intros [Hz|(w0 & w2 & w3 & w4 & Hz & _ & H2 & H3 & H4 & _ & w6 & w7 & E6 & H7 & E7)]%topo_init_inv.
  - intros j x. unfold devices_of. by rewrite Hz.
  - intros j x. rewrite E7. revert j x. apply (maintains_walk _ _ _ _ _) in H7; [done|].
    intros j x. rewrite E6. revert j x. apply (maintains_read_cpus _ _ _ _ _) in H4; [done|].
    intros j x. by rewrite (alloc_devices w0 w2 w3).
Qed.
End walk.

(** ** The list of devices and the devices *)

Lemma at_nat_ok {A} (l : list (option A)) k a w :
  l !! k = Some (Some a) -> at_index l (Z.of_nat k) w = Ok (a, w).
Proof. intros E. apply at_index_ok; [lia|]. by rewrite Nat2Z.id. Qed.

Lemma get_node_ok w i n :
  tp_nodes (w_topo w) !! i = Some (Some n) -> get_node (Z.of_nat i) w = Ok (n, w).
Proof. intros E. unfold get_node. rewrite (M_bind_ok _ _ w _ w eq_refl). by apply at_nat_ok. Qed.

(** The elements of an array that has no hole. *)
Definition elements {A} (l : list (option A)) : list A := omap Datatypes.id l.

Lemma elements_drop {A} (l : list (option A)) k a :
  Forall (fun o => is_Some o) l -> l !! k = Some a ->
  exists x, a = Some x /\ elements (drop k l) = x :: elements (drop (S k) l).
Proof.
  intros Hl E. destruct (Forall_lookup_1 _ _ _ _ Hl E) as [x ->]. exists x. split; [done|].
  by rewrite (drop_S _ _ _ E).
Qed.

Lemma array_names_ok {A} (name : A -> cstring) (l : list (option A)) n k w :
  Forall (fun o => is_Some o) l -> (k + n = length l)%nat ->
  array_names name l n (Z.of_nat k) w = Ok (map name (elements (drop k l)), w).
Proof.
  intros Hl. revert k. induction n as [|n IH]; intros k Hk; cbn [array_names].
  - by rewrite drop_ge by lia.
  - destruct (lookup_lt_is_Some_2 l k) as [o Eo]; [lia|].
    destruct (elements_drop l k o Hl Eo) as (x & -> & ->).
    rewrite (M_bind_ok _ _ w _ w (at_nat_ok _ _ _ _ Eo)).
    replace (Z.of_nat k + 1) with (Z.of_nat (S k)) by lia.
    by rewrite (M_bind_ok _ _ w _ w (IH (S k) ltac:(lia))).
Qed.

Lemma find_named_ok {A} (name_of : A -> cstring) name (l : list (option A)) n k w :
  Forall (fun o => is_Some o) l -> (k + n = length l)%nat ->
  find_named name_of name l n (Z.of_nat k) w =
  Ok (List.find (fun a => bool_decide (name_of a = name)) (elements (drop k l)), w).
Proof.
  intros Hl. revert k. induction n as [|n IH]; intros k Hk; cbn [find_named].
  - by rewrite drop_ge by lia.
  - destruct (lookup_lt_is_Some_2 l k) as [o Eo]; [lia|].
    destruct (elements_drop l k o Hl Eo) as (x & -> & ->).
    rewrite (M_bind_ok _ _ w _ w (at_nat_ok _ _ _ _ Eo)). cbn [List.find].
    replace (Z.of_nat k + 1) with (Z.of_nat (S k)) by lia.
    destruct (decide (name_of x = name)) as [E|E];
      [by rewrite (bool_decide_true _ E)|rewrite (bool_decide_false _ E)].
    apply IH. lia.
Qed.

Lemma elements_length {A} (l : list (option A)) :
  Forall (fun o => is_Some o) l -> length (elements l) = length l.
Proof. induction 1 as [|o l [x ->] _ IH]; [done|]. simpl. by f_equal. Qed.

(** The devices of a node, in the order in which they are listed. *)
Definition node_infos (n : wayca_node) : list wayca_sc_device_info :=
  map (topo_copy_smmu_info WAYCA_SC_TOPO_DEV_TYPE_SMMU) (elements (nd_smmus n)) ++
  map (topo_copy_pcidev_info WAYCA_SC_TOPO_DEV_TYPE_PCI) (elements (nd_pcidevs n)).

Definition name_of (d : wayca_sc_device_info) : cstring := default [] (dv_name d).

Definition infos (p : wayca_topo) (k n : nat) : list wayca_sc_device_info :=
  concat (map node_infos (elements (take n (drop k (tp_nodes p))))).

(** The nodes are numbered without a gap. *)
Definition dense (p : wayca_topo) : Prop :=
  forall i, (i < Z.to_nat (tp_n_nodes p))%nat -> exists n, tp_nodes p !! i = Some (Some n).

Lemma infos_S p k n nd :
  tp_nodes p !! k = Some (Some nd) -> infos p k (S n) = node_infos nd ++ infos p (S k) n.
Proof. intros E. unfold infos. by rewrite (drop_S _ _ _ E). Qed.

Lemma find_map {A B} (f : A -> B) (g : B -> bool) l :
  List.find g (map f l) = f <$> List.find (fun a => g (f a)) l.
Proof. induction l as [|a l IH]; [done|]. simpl. by destruct (g (f a)). Qed.

Section listing.
Context (w : world) (Hok : devices_ok w) (Hnode : dense (w_topo w)).

(** The loops over [n] nodes from [k] on. *)

Lemma node_at k : (k < Z.to_nat (tp_n_nodes (w_topo w)))%nat ->
  exists nd, tp_nodes (w_topo w) !! k = Some (Some nd) /\
    array_ok (nd_n_pcidevs nd) (nd_pcidevs nd) /\ array_ok (nd_n_smmus nd) (nd_smmus nd).
Proof using Hnode Hok.
  intros Hk. destruct (Hnode k Hk) as [nd E]. exists nd. split; [done|].
  apply (devices_ok_node _ _ _ Hok E).
Qed.

Lemma count_devices_ok n k :
  (k + n <= Z.to_nat (tp_n_nodes (w_topo w)))%nat ->
  count_devices n (Z.of_nat k) w = Ok (Z.of_nat (length (infos (w_topo w) k n)), w).
Proof using Hnode Hok.
  revert k. induction n as [|n IH]; intros k Hk; cbn [count_devices]; [done|].
  destruct (node_at k ltac:(lia)) as (nd & E & [Hp Fp] & [Hs Fs]).
  rewrite (M_bind_ok _ _ _ _ _ (get_node_ok _ _ _ E)), (infos_S _ _ _ _ E).
  replace (Z.of_nat k + 1) with (Z.of_nat (S k)) by lia.
  rewrite (M_bind_ok _ _ _ _ _ (IH (S k) ltac:(lia))). unfold mret, M_ret, node_infos.
  rewrite !length_app, !length_map, !elements_length by done. repeat f_equal. lia.
Qed.

Lemma device_names_ok n k :
  (k + n <= Z.to_nat (tp_n_nodes (w_topo w)))%nat ->
  device_names n (Z.of_nat k) w = Ok (map name_of (infos (w_topo w) k n), w).
Proof using Hnode Hok.
  revert k. induction n as [|n IH]; intros k Hk; cbn [device_names]; [done|].
  destruct (node_at k ltac:(lia)) as (nd & E & [Hp Fp] & [Hs Fs]).
  rewrite (M_bind_ok _ _ _ _ _ (get_node_ok _ _ _ E)), (infos_S _ _ _ _ E).
  rewrite (M_bind_ok _ _ _ _ _ (array_names_ok sm_name _ (Z.to_nat (nd_n_smmus nd)) 0 w Fs ltac:(lia))).
  rewrite (M_bind_ok _ _ _ _ _ (array_names_ok pd_slot_name _ (Z.to_nat (nd_n_pcidevs nd)) 0 w Fp ltac:(lia))).
  replace (Z.of_nat k + 1) with (Z.of_nat (S k)) by lia.
  rewrite (M_bind_ok _ _ _ _ _ (IH (S k) ltac:(lia))). unfold mret, M_ret, node_infos.
  rewrite !map_app, !map_map, !drop_0. by rewrite app_assoc.
Qed.

Lemma find_device_ok name n k :
  (k + n <= Z.to_nat (tp_n_nodes (w_topo w)))%nat ->
  find_device name n (Z.of_nat k) w =
  Ok (List.find (fun d => bool_decide (name_of d = name)) (infos (w_topo w) k n), w).
Proof using Hnode Hok.
  revert k. induction n as [|n IH]; intros k Hk; cbn [find_device]; [done|].
  destruct (node_at k ltac:(lia)) as (nd & E & [Hp Fp] & [Hs Fs]).
  rewrite (M_bind_ok _ _ _ _ _ (get_node_ok _ _ _ E)), (infos_S _ _ _ _ E).
  unfold node_infos. rewrite !find_app, !find_map. unfold name_of at 1 2. simpl dv_name.
  rewrite (M_bind_ok _ _ _ _ _ (find_named_ok sm_name name _ (Z.to_nat (nd_n_smmus nd)) 0 w
    Fs ltac:(lia))), drop_0.
  destruct (List.find _ (elements (nd_smmus nd))); [done|].
  rewrite (M_bind_ok _ _ _ _ _ (find_named_ok pd_slot_name name _ (Z.to_nat (nd_n_pcidevs nd)) 0 w
    Fp ltac:(lia))), drop_0.
  destruct (List.find _ (elements (nd_pcidevs nd))); [done|]. simpl.
  replace (Z.of_nat k + 1) with (Z.of_nat (S k)) by lia. apply IH. lia.
Qed.

Context (Hn : 0 < tp_n_nodes (w_topo w) < 2 ^ 31).

Lemma device_list_ok :
  let all := infos (w_topo w) 0 (Z.to_nat (tp_n_nodes (w_topo w))) in
  wayca_sc_get_device_list (-1) true true w =
  Ok (0, Some (Z.of_nat (length all)), Some (map name_of all), w).
Proof using Hn Hnode Hok.
  intros all. unfold wayca_sc_get_device_list, wayca_sc_nodes_in_total.
  rewrite M_bind_assoc, (M_bind_ok _ _ w _ w eq_refl).
  destruct (Z.ltb_spec (tp_n_nodes (w_topo w)) 1); [lia|].
  unfold count. rewrite (M_bind_ok _ _ w _ w eq_refl), to_int_id by lia.
  destruct (Z.leb_spec (tp_n_nodes (w_topo w)) (-1)); [lia|]. cbn [orb negb].
  rewrite (M_bind_ok _ _ w _ w eq_refl). change (-1 <? 0) with true. cbv beta iota.
  rewrite to_int_id by lia. rewrite Z.sub_add, Z.sub_0_r.
  rewrite (M_bind_ok _ _ _ _ _ (count_devices_ok (Z.to_nat (tp_n_nodes (w_topo w))) 0 (le_n _))).
  by rewrite (M_bind_ok _ _ _ _ _ (device_names_ok (Z.to_nat (tp_n_nodes (w_topo w))) 0 (le_n _))).
Qed.

Lemma device_info_ok name :
  wayca_sc_get_device_info (Some name) true w =
  Ok (match List.find (fun d => bool_decide (name_of d = name))
              (infos (w_topo w) 0 (Z.to_nat (tp_n_nodes (w_topo w)))) with
      | Some info => (0, Some info)
      | None => (- ENOENT, Some zero_device_info)
      end, w).
Proof using Hn Hnode Hok.
  unfold wayca_sc_get_device_info. cbn [negb]. rewrite (M_bind_ok _ _ w _ w eq_refl).
  by rewrite (M_bind_ok _ _ _ _ _ (find_device_ok name (Z.to_nat (tp_n_nodes (w_topo w))) 0 (le_n _))).
Qed.
End listing.

Lemma infos_named p k n d : d ∈ infos p k n -> dv_name d = Some (name_of d).
Proof.
  intros Hd%list_elem_of_In. apply in_concat in Hd as (l & Hl & Hd).
  apply in_map_iff in Hl as (nd & <- & _). apply in_app_or in Hd as [Hd|Hd];
    apply in_map_iff in Hd as (x & <- & _); done.
Qed.

(** C23. After a reading of the topology in which every allocation succeeded, on a
    machine whose nodes (one at least) are numbered without a gap, the list of all
    devices and the information on a single device agree: the number is the length of the list of
    names, and a name is in the list exactly when [wayca_sc_get_device_info]
    succeeds for it, with a device of that name. *)
Theorem device_list_matches_info `{F : Sysfs} w w' :
  (forall t, fs_calloc t = true) ->
  topo_init 0 w = Ok (tt, w') ->
  dense (w_topo w') -> 0 < tp_n_nodes (w_topo w') < 2 ^ 31 ->
  exists names,
    wayca_sc_get_device_list (-1) true true w' =
      Ok (0, Some (Z.of_nat (length names)), Some names, w') /\
    forall name,
      (name ∈ names ->
       exists info, wayca_sc_get_device_info (Some name) true w' = Ok (0, Some info, w') /\
         dv_name info = Some name) /\
      (name ∉ names ->
       wayca_sc_get_device_info (Some name) true w' = Ok (- ENOENT, Some zero_device_info, w')).
Proof.
  intros Hmem Hinit Hd Hn. pose proof (topo_init_devices Hmem w w' Hinit) as Hok.
  set (all := infos (w_topo w') 0 (Z.to_nat (tp_n_nodes (w_topo w')))).
  exists (map name_of all). rewrite length_map. split; [by apply device_list_ok|].
  intros name. rewrite (device_info_ok w' Hok Hd Hn name). fold all.
  destruct (List.find _ all) as [d|] eqn:E.
  - apply List.find_some in E as [Hin Hname%bool_decide_eq_true].
    apply list_elem_of_In in Hin. split.
    + intros _. exists d. split; [done|]. rewrite <- Hname. by eapply infos_named.
    + intros []. rewrite <- Hname. by apply list_elem_of_fmap_2.
  - split; [|done]. intros (d & -> & Hin)%list_elem_of_fmap.
    apply list_elem_of_In in Hin. apply (List.find_none _ _ E) in Hin.
    by apply bool_decide_eq_false in Hin.
Qed.

(** ** The interrupt of a device without message-signalled interrupts *)

Definition pcidev_at (w : world) (i k : nat) : option wayca_pci_device :=
  match tp_nodes (w_topo w) !! i with
  | Some (Some n) => match nd_pcidevs n !! k with Some o => o | None => None end
  | _ => None
  end.

Lemma pcidev_at_inv w i k d :
  pcidev_at w i k = Some d ->
  exists n, tp_nodes (w_topo w) !! i = Some (Some n) /\ nd_pcidevs n !! k = Some (Some d).
Proof.
  unfold pcidev_at. destruct (tp_nodes (w_topo w) !! i) as [[n|]|]; [|done..].
  destruct (nd_pcidevs n !! k) as [o|] eqn:E; [|done]. intros ->. eauto.
Qed.

Lemma upd_irqs_at i k f w u w' d :
  pcidev_at w i k = Some d -> upd_irqs (Z.of_nat i) (Z.of_nat k) f w = Ok (u, w') ->
  pcidev_at w' i k = Some (set_pd_irqs (f (pd_irqs d)) d).
Proof.
  intros (n & En & Ed)%pcidev_at_inv H. unfold upd_irqs, upd_pcidev in H.
  rewrite (M_bind_ok _ _ _ _ _ (get_node_ok _ _ _ En)) in H.
  rewrite (M_bind_ok _ _ _ _ _ (at_nat_ok _ _ _ _ Ed)) in H.
  apply M_bind_inv in H as (l & w1 & (-> & _ & ->)%put_index_inv & H).
  apply upd_node_inv in H as (n' & _ & En' & ->). rewrite Nat2Z.id in En' |- *.
  rewrite En in En'. injection En' as <-. unfold pcidev_at. tsimpl.
  rewrite list_lookup_insert_eq by (by eapply lookup_lt_Some). tsimpl.
  by rewrite Nat2Z.id, list_lookup_insert_eq by (by eapply lookup_lt_Some).
Qed.

#[export] Instance topo_timeless : Timeless w_topo.
Proof. done. Qed.

(** The number in the file [irq] of a device is never recorded: the array stays as
    it is, when the number is in it already, or grows by a zero. *)
Theorem topo_parse_irq_appends_zero `{F : Sysfs} i k dir w r w' d :
  (forall t, fs_calloc t = true) ->
  pcidev_at w i k = Some d ->
  di_n_irqs (pd_irqs d) = Z.of_nat (length (di_irq_numbers (pd_irqs d))) ->
  topo_parse_irq (Z.of_nat i) (Z.of_nat k) dir w = Ok (r, w') ->
  r = 0 /\ exists d', pcidev_at w' i k = Some d' /\
    (d' = d \/
     pd_irqs d' = mk_wayca_device_irqs (di_n_irqs (pd_irqs d) + 1) (di_irq_numbers (pd_irqs d) ++ [0])).
Proof.
  intros Hmem Hd Hn H. unfold topo_parse_irq in H.
  apply M_bind_inv in H as (v & w1 & Hread & H).
  assert (Hd1 : pcidev_at w1 i k = Some d).
  { unfold pcidev_at. by rewrite (keeps_read_s32 w_topo _ _ _ _ _ Hread). }
  destruct (pcidev_at_inv _ _ _ _ Hd1) as (n & En & Ed).
  apply M_bind_inv in H as (d0 & w2 & Hget & H).
  unfold get_pcidev in Hget. rewrite (M_bind_ok _ _ _ _ _ (get_node_ok _ _ _ En)) in Hget.
  rewrite (at_nat_ok _ _ _ _ Ed) in Hget. injection Hget as <- <-.
  rewrite Hn, Z.ltb_irrefl in H. destruct (existsb _ _); [injection H as <- <-; split; [done|]; eauto|].
  rewrite (M_bind_ok _ _ _ _ _ (expand_by_one Hmem 0 _ w1)) in H. unfold default, Datatypes.id in H.
  apply M_bind_inv in H as ([] & w2 & H1 & H). apply M_bind_inv in H as ([] & w3 & H2 & [= <- <-]).
  eapply upd_irqs_at in H1; [|done]. eapply upd_irqs_at in H2; [|done].
  split; [done|]. eexists. split; [done|]. right. tsimpl. by rewrite Hn.
Qed.

Module OnSmallMachine.
Import SmallMachine.

Lemma ready_dense : dense (w_topo ready).
Proof.
  intros i Hi. destruct i as [|[|i]]; [by eexists..|]. vm_compute in Hi. lia.
Qed.

Lemma device_list_matches_info_witness :
  wayca_sc_get_device_list (-1) true true ready =
    Ok (0, Some 2, Some [s2l "arm-smmu-v3.2.auto"%string; s2l "0000:00:01.0"%string], ready) /\
  exists names,
    wayca_sc_get_device_list (-1) true true ready =
      Ok (0, Some (Z.of_nat (length names)), Some names, ready) /\
    forall name,
      (name ∈ names ->
       exists info, wayca_sc_get_device_info (Some name) true ready = Ok (0, Some info, ready) /\
         dv_name info = Some name) /\
      (name ∉ names ->
       wayca_sc_get_device_info (Some name) true ready = Ok (- ENOENT, Some zero_device_info, ready)).
Proof.
  split; [vm_compute; reflexivity|].
  apply (device_list_matches_info start ready); [done|apply ready_eq|apply ready_dense|].
  vm_compute. split; reflexivity.
Defined.
Definition bridge_dir : path := sysdev ++ [s2l "pci0000:00"%string; bridge].
Definition bridge_irqs (w : world) : option (list Z) :=
  option_map (fun d => di_irq_numbers (pd_irqs d)) (pcidev_at w 1 0).

(** The file gives 17. *)
Lemma topo_parse_irq_appends_zero_witness :
  bridge_irqs ready = Some [40; 41; 0] /\
  exists w' d', topo_parse_irq 1 0 bridge_dir ready = Ok (0, w') /\
    pcidev_at w' 1 0 = Some d' /\ di_irq_numbers (pd_irqs d') = [40; 41; 0; 0].
Proof.
  split; [vm_compute; reflexivity|].
  destruct (pcidev_at ready 1 0) as [d|] eqn:Ed; [|vm_compute in Ed; discriminate].
  destruct (topo_parse_irq 1 0 bridge_dir ready) as [[r w']|f] eqn:E;
    [|vm_compute in E; discriminate].
  assert (Hn : di_n_irqs (pd_irqs d) = 3 /\ di_irq_numbers (pd_irqs d) = [40; 41; 0])
    by (vm_compute in Ed; injection Ed as <-; done).
  destruct Hn as [Hn Hl].
  destruct (topo_parse_irq_appends_zero 1 0 bridge_dir ready r w' d) as (-> & d' & Ed' & Hd');
    [done|done|by rewrite Hn, Hl|done|].
  exists w', d'. split; [done|]. split; [done|]. destruct Hd' as [Hd'|Hd']; [|by rewrite Hd', Hl].
  exfalso. subst d'. vm_compute in E. injection E as <-. vm_compute in Ed, Ed'. congruence.
Defined.
End OnSmallMachine.
