(* ===== verification/TopoRelease.v ===== *)
(** * Giving back the topology

    [topo_free] of [lib/topo.c] with the functions that it calls, on the blocks of
    memory that the topology consists of. A block is named by the pointer that
    owns it; the state is the list of the blocks that were given back, so that a
    block that is given back twice, or read after that, is a fault. *)

From Stdlib Require Import Ascii String.
From S2P Require Import Prelude Cpuset Cstring TopoState.

(** The pointers of [struct wayca_topo] that own memory. The core of a CPU shares
    the set and the caches of the CPU, which owns them. *)
Inductive block :=
  | Bcpu_map | Bonline_cpu_map | Bnode_map
  | Bcpus | Bcpu (i : nat) | Bcore_cpus_map (i : nat)
  | Bp_caches (i : nat) | Bshared_cpu_map (i k : nat)
  | Bcores | Bcore (i : nat)
  | Bccls | Bccl (i : nat) | Bccl_cpu_map (i : nat) | Bccl_core_map (i : nat)
  | Bnodes | Bnode (i : nat) | Bnode_cpu_map (i : nat) | Bnode_core_map (i : nat)
  | Bcluster_map (i : nat) | Bdistance (i : nat) | Bp_meminfo (i : nat)
  | Bpcidevs (i : nat) | Bpcidev (i k : nat) | Blocal_cpu_map (i k : nat)
  | Birq_numbers (i k : nat)
  | Bsmmus (i : nat) | Bsmmu (i k : nat)
  | Bpackages | Bpackage (i : nat) | Bpackage_cpu_map (i : nat) | Bnuma_map (i : nat)
  | Birqs | Birq (i : nat).

#[export] Instance block_eq_dec : EqDecision block.
Proof. solve_decision. Defined.

(** The blocks that were given back, the last one first. *)
Notation freed := (list block).

(** [free(p)] of a pointer that may be NULL, and an access to its block. *)
Definition free (b : block) : M freed unit := fun fs =>
  if decide (b ∈ fs) then Fault UseAfterFree else Ok (tt, b :: fs).
Definition touch (b : block) : M freed unit := fun fs =>
  if decide (b ∈ fs) then Fault UseAfterFree else Ok (tt, fs).

(** [array[i]], where [b] is the block of the array. *)
Definition entry {A} (b : block) (l : list A) (i : nat) : M freed A :=
  touch b;;
  match l !! i with Some a => mret a | None => throw OutOfBounds end.

(** [for (i = ...; i < n; i++) body(i)], for [n] turns. *)
Fixpoint each (n i : nat) (body : nat -> M freed unit) : M freed unit :=
  match n with
  | O => mret tt
  | S n => body i;; each n (S i) body
  end.

Definition loop (n : Z) (body : nat -> M freed unit) : M freed unit := each (Z.to_nat n) 0 body.

(** [if (!array[i]) continue;], then the accesses to the object. *)
Definition unless_null {A} (o : option A) (k : A -> M freed unit) : M freed unit :=
  match o with Some a => k a | None => mret tt end.

(** [if (!array) return;] *)
Definition if_array {A} (l : list A) (m : M freed unit) : M freed unit :=
  match l with [] => mret tt | _ => m end.

(** The caches of CPU [c]. *)
Definition topo_cache_free (c : nat) (caches : list wayca_cache) (n_caches : Z) : M freed unit :=
  if_array caches (
    loop n_caches (fun k => entry (Bp_caches c) caches k;; free (Bshared_cpu_map c k));;
    free (Bp_caches c)).

Definition topo_cpu_free (cpus : list (option wayca_cpu)) (n_cpus : Z) : M freed unit :=
  if_array cpus (
    loop n_cpus (fun i =>
      o ← entry Bcpus cpus i;
      unless_null o (fun c =>
        touch (Bcpu i);; free (Bcore_cpus_map i);;
        touch (Bcpu i);; topo_cache_free i (u_p_caches c) (u_n_caches c);;
        free (Bcpu i)));;
    free Bcpus).

Definition topo_core_free (cores : list (option wayca_core)) (n_cores : Z) : M freed unit :=
  if_array cores (
    loop n_cores (fun i => o ← entry Bcores cores i; unless_null o (fun _ => free (Bcore i)));;
    free Bcores).

Definition topo_ccl_free (ccls : list (option wayca_cluster)) (n_clusters : Z) : M freed unit :=
  if_array ccls (
    loop n_clusters (fun i =>
      o ← entry Bccls ccls i;
      unless_null o (fun _ =>
        touch (Bccl i);; free (Bccl_cpu_map i);;
        touch (Bccl i);; free (Bccl_core_map i);;
        free (Bccl i)));;
    free Bccls).

(** The devices of node [n]. *)
Definition topo_pcidev_free (n : nat) (pcidevs : list (option wayca_pci_device)) (n_pcidevs : Z)
    : M freed unit :=
  if_array pcidevs (
    loop n_pcidevs (fun k =>
      o ← entry (Bpcidevs n) pcidevs k;
      unless_null o (fun _ =>
        touch (Bpcidev n k);; free (Blocal_cpu_map n k);;
        touch (Bpcidev n k);; free (Birq_numbers n k);;
        free (Bpcidev n k)));;
    free (Bpcidevs n)).

Definition topo_smmu_free (n : nat) (smmus : list (option wayca_smmu)) (n_smmus : Z)
    : M freed unit :=
  if_array smmus (
    loop n_smmus (fun k =>
      o ← entry (Bsmmus n) smmus k; unless_null o (fun _ => free (Bsmmu n k)));;
    free (Bsmmus n)).

Definition topo_node_free (nodes : list (option wayca_node)) (n_nodes : Z) : M freed unit :=
  if_array nodes (
    loop n_nodes (fun i =>
      o ← entry Bnodes nodes i;
      unless_null o (fun n =>
        touch (Bnode i);; free (Bnode_cpu_map i);;
        touch (Bnode i);; free (Bnode_core_map i);;
        touch (Bnode i);; free (Bcluster_map i);;
        touch (Bnode i);; free (Bdistance i);;
        touch (Bnode i);; free (Bp_meminfo i);;
        touch (Bnode i);; topo_pcidev_free i (nd_pcidevs n) (nd_n_pcidevs n);;
        touch (Bnode i);; topo_smmu_free i (nd_smmus n) (nd_n_smmus n);;
        free (Bnode i)));;
    free Bnodes).

Definition topo_package_free (packages : list (option wayca_package)) (n_packages : Z)
    : M freed unit :=
  if_array packages (
    loop n_packages (fun i =>
      o ← entry Bpackages packages i;
      unless_null o (fun _ =>
        touch (Bpackage i);; free (Bpackage_cpu_map i);;
        touch (Bpackage i);; free (Bnuma_map i);;
        free (Bpackage i)));;
    free Bpackages).

Definition topo_irq_free (irqs : option (list wayca_irq)) (n_irqs : Z) : M freed unit :=
  match irqs with
  | None => mret tt
  | Some irqs =>
    loop n_irqs (fun i => entry Birqs irqs i;; free (Birq i));;
    free Birqs
  end.

(** [topo_free] before it clears the structure. A block is named by its owner and its
    place; a map that was never allocated (that of the core of a CPU that is offline)
    counts as a block of its own, as [free] does nothing with NULL. *)
Definition topo_release (p : wayca_topo) : M freed unit :=
  free Bcpu_map;; free Bonline_cpu_map;;
  topo_cpu_free (tp_cpus p) (tp_n_cpus p);;
  topo_core_free (tp_cores p) (tp_n_cores p);;
  topo_ccl_free (tp_ccls p) (tp_n_clusters p);;
  free Bnode_map;;
  topo_node_free (tp_nodes p) (tp_n_nodes p);;
  topo_package_free (tp_packages p) (tp_n_packages p);;
  topo_irq_free (tp_irqs p) (tp_n_irqs p).

(** ** What is given back *)

(** The blocks that the functions give back, in their order. *)
Definition upto {A} (n : Z) (f : nat -> list A) : list A :=
  concat (map f (seq 0 (Z.to_nat n))).
Definition at_object {A} (l : list (option A)) (f : nat -> A -> list block) (i : nat) : list block :=
  match l !! i with Some (Some a) => f i a | _ => [] end.
Definition of_array {A} (l : list A) (b : block) (bs : list block) : list block :=
  match l with [] => [] | _ => bs ++ [b] end.

Definition cache_blocks (c : nat) (u : wayca_cpu) : list block :=
  of_array (u_p_caches u) (Bp_caches c) (upto (u_n_caches u) (fun k => [Bshared_cpu_map c k])).
Definition cpu_blocks (i : nat) (u : wayca_cpu) : list block :=
  [Bcore_cpus_map i] ++ cache_blocks i u ++ [Bcpu i].
Definition core_blocks (i : nat) (_ : wayca_core) : list block := [Bcore i].
Definition ccl_blocks (i : nat) (_ : wayca_cluster) : list block :=
  [Bccl_cpu_map i; Bccl_core_map i; Bccl i].
Definition pcidev_blocks (n k : nat) (_ : wayca_pci_device) : list block :=
  [Blocal_cpu_map n k; Birq_numbers n k; Bpcidev n k].
Definition smmu_blocks (n k : nat) (_ : wayca_smmu) : list block := [Bsmmu n k].
Definition array_blocks {A} (l : list (option A)) (n : Z) (b : block) (f : nat -> A -> list block)
    : list block := of_array l b (upto n (at_object l f)).
Definition node_blocks (i : nat) (n : wayca_node) : list block :=
  [Bnode_cpu_map i; Bnode_core_map i; Bcluster_map i; Bdistance i; Bp_meminfo i] ++
  array_blocks (nd_pcidevs n) (nd_n_pcidevs n) (Bpcidevs i) (pcidev_blocks i) ++
  array_blocks (nd_smmus n) (nd_n_smmus n) (Bsmmus i) (smmu_blocks i) ++
  [Bnode i].
Definition package_blocks (i : nat) (_ : wayca_package) : list block :=
  [Bpackage_cpu_map i; Bnuma_map i; Bpackage i].
Definition irq_blocks (irqs : option (list wayca_irq)) (n_irqs : Z) : list block :=
  match irqs with None => [] | Some _ => upto n_irqs (fun i => [Birq i]) ++ [Birqs] end.

Definition release_order (p : wayca_topo) : list block :=
  [Bcpu_map; Bonline_cpu_map] ++
  array_blocks (tp_cpus p) (tp_n_cpus p) Bcpus cpu_blocks ++
  array_blocks (tp_cores p) (tp_n_cores p) Bcores core_blocks ++
  array_blocks (tp_ccls p) (tp_n_clusters p) Bccls ccl_blocks ++
  [Bnode_map] ++
  array_blocks (tp_nodes p) (tp_n_nodes p) Bnodes node_blocks ++
  array_blocks (tp_packages p) (tp_n_packages p) Bpackages package_blocks ++
  irq_blocks (tp_irqs p) (tp_n_irqs p).

(** [m] gives back [bs] while the blocks of [need] are still there. *)
Definition frees (need : list block) (m : M freed unit) (bs : list block) : Prop :=
  forall fs, NoDup (need ++ bs) -> (forall b, b ∈ need ++ bs -> b ∉ fs) ->
  m fs = Ok (tt, rev bs ++ fs).

Lemma elem_of_rev {A} (x : A) l : x ∈ rev l <-> x ∈ l.
Proof. by rewrite !list_elem_of_In, <- in_rev. Qed.

Lemma frees_nil need : frees need (mret tt) [].
Proof. by intros fs. Qed.

Lemma frees_free need b : frees need (free b) [b].
Proof.
  intros fs _ H. unfold free. rewrite decide_False; [done|]. apply H. set_solver.
Qed.

Lemma frees_touch need b m bs : b ∈ need ++ bs -> frees need m bs -> frees need (touch b;; m) bs.
Proof.
  intros Hb Hm fs Hn H. unfold mbind, M_bind, touch. rewrite decide_False by auto. auto.
Qed.

Lemma frees_seq need m1 m2 bs1 bs2 :
  frees need m1 bs1 -> frees need m2 bs2 -> frees need (m1;; m2) (bs1 ++ bs2).
Proof.
  intros H1 H2 fs Hn H. rewrite (M_bind_ok _ _ _ _ _ (H1 fs ltac:(
    by rewrite app_assoc in Hn; apply NoDup_app in Hn as (? & _ & _)) ltac:(set_solver))).
  rewrite rev_app_distr, <- app_assoc. apply H2.
  - apply NoDup_app in Hn as (Hn1 & Hd & (Hb1 & Hd2 & Hb2)%NoDup_app). apply NoDup_app. set_solver.
  - apply NoDup_app in Hn as (Hn1 & Hd & (Hb1 & Hd2 & Hb2)%NoDup_app).
    intros b Hb. rewrite elem_of_app, elem_of_rev. set_solver.
Qed.

(** The block of an array is given back after its elements. *)
Lemma frees_array need b m bs : frees (b :: need) m bs -> frees need (m;; free b) (bs ++ [b]).
Proof.
  intros Hm fs Hn H.
  assert (Hn' : NoDup ((b :: need) ++ bs)).
  { cbn [app]. by rewrite (Permutation_cons_append (need ++ bs) b), <- app_assoc. }
  rewrite (M_bind_ok _ _ _ _ _ (Hm fs Hn' ltac:(set_solver))).
  rewrite rev_app_distr. unfold free. rewrite decide_False; [done|].
  rewrite elem_of_app, elem_of_rev.
  simpl in Hn'. apply NoDup_cons in Hn' as [Hb _]. set_solver.
Qed.

Lemma frees_each need f bs n i :
  (forall k, (i <= k < i + n)%nat -> frees need (f k) (bs k)) ->
  frees need (each n i f) (concat (map bs (seq i n))).
Proof.
  revert i. induction n as [|n IH]; intros i H; [apply frees_nil|]. cbn [each seq map concat].
  apply frees_seq; [apply H; lia|]. apply IH. intros k Hk. apply H. lia.
Qed.

Lemma frees_loop need f bs n :
  (forall k, (k < Z.to_nat n)%nat -> frees need (f k) (bs k)) -> frees need (loop n f) (upto n bs).
Proof. intros H. apply frees_each. intros k Hk. apply H. lia. Qed.

Lemma frees_entry {A} need b (l : list A) i a k bs :
  b ∈ need -> l !! i = Some a -> frees need (k a) bs -> frees need (a ← entry b l i; k a) bs.
Proof.
  intros Hb E Hk fs Hn H. unfold entry, touch, mbind, M_bind at 1 2.
  rewrite decide_False by (apply H; set_solver). rewrite E. by apply Hk.
Qed.

(** An array of pointers, the NULL ones skipped. *)
Definition in_range {A} (n : Z) (l : list A) : Prop := l = [] \/ (Z.to_nat n <= length l)%nat.

Lemma frees_objects {A} need b (l : list (option A)) n (f : nat -> A -> M freed unit) bs :
  in_range n l -> (forall i a, l !! i = Some (Some a) -> frees (b :: need) (f i a) (bs i a)) ->
  frees need
    (if_array l (loop n (fun i => o ← entry b l i; unless_null o (f i));; free b))
    (array_blocks l n b bs).
Proof.
  intros Hn Hf. unfold if_array, array_blocks, of_array. destruct l as [|x l]; [apply frees_nil|].
  destruct Hn as [|Hn]; [done|]. apply frees_array, frees_loop. intros k Hk.
  destruct (lookup_lt_is_Some_2 (x :: l) k) as [o E]; [lia|].
  eapply frees_entry; [set_solver|exact E|]. unfold at_object. rewrite E.
  destruct o as [a|]; [by apply Hf|apply frees_nil].
Qed.

(** ** The counts of the arrays are right *)

Record cpu_sizes (c : wayca_cpu) : Prop := {
  cs_caches : in_range (u_n_caches c) (u_p_caches c);
}.
Record node_sizes (n : wayca_node) : Prop := {
  ns_pcidevs : in_range (nd_n_pcidevs n) (nd_pcidevs n);
  ns_smmus : in_range (nd_n_smmus n) (nd_smmus n);
}.

(** No count is larger than its array, unless the array is NULL. *)
Record sizes_ok (p : wayca_topo) : Prop := {
  sz_cpus : in_range (tp_n_cpus p) (tp_cpus p);
  sz_cores : in_range (tp_n_cores p) (tp_cores p);
  sz_ccls : in_range (tp_n_clusters p) (tp_ccls p);
  sz_nodes : in_range (tp_n_nodes p) (tp_nodes p);
  sz_packages : in_range (tp_n_packages p) (tp_packages p);
  sz_irqs : forall l, tp_irqs p = Some l -> (Z.to_nat (tp_n_irqs p) <= length l)%nat;
  sz_cpu : forall i c, tp_cpus p !! i = Some (Some c) -> cpu_sizes c;
  sz_node : forall i n, tp_nodes p !! i = Some (Some n) -> node_sizes n;
}.

Ltac frees_step :=
  lazymatch goal with
  | |- frees _ (touch _;; _) _ => apply frees_touch; [set_solver|]
  | |- frees ?need (free ?b;; ?m) _ => apply (frees_seq need (free b) m [b]); [apply frees_free|]
  | |- frees _ (free _) _ => apply frees_free
  end.

Lemma frees_caches need i c : cpu_sizes c ->
  frees need (topo_cache_free i (u_p_caches c) (u_n_caches c)) (cache_blocks i c).
Proof.
  intros [Hn]. unfold topo_cache_free, cache_blocks, of_array, if_array.
  destruct (u_p_caches c) as [|x l]; [apply frees_nil|]. destruct Hn as [|Hn]; [done|].
  apply frees_array, frees_loop. intros k Hk.
  destruct (lookup_lt_is_Some_2 (x :: l) k) as [o E]; [lia|].
  apply (frees_entry _ _ _ _ o (fun _ => free (Bshared_cpu_map i k))); [set_solver|done|].
  apply frees_free.
Qed.

Lemma frees_cpus need p : sizes_ok p ->
  frees need (topo_cpu_free (tp_cpus p) (tp_n_cpus p))
    (array_blocks (tp_cpus p) (tp_n_cpus p) Bcpus cpu_blocks).
Proof.
  intros Hp. apply (frees_objects _ _ _ _ _ _ (sz_cpus p Hp)). intros i c E.
  unfold cpu_blocks. repeat frees_step. apply frees_seq; [|apply frees_free].
  apply frees_caches, (sz_cpu p Hp i c E).
Qed.

Lemma frees_node need i n : node_sizes n ->
  frees need
    (touch (Bnode i);; free (Bnode_cpu_map i);;
     touch (Bnode i);; free (Bnode_core_map i);;
     touch (Bnode i);; free (Bcluster_map i);;
     touch (Bnode i);; free (Bdistance i);;
     touch (Bnode i);; free (Bp_meminfo i);;
     touch (Bnode i);; topo_pcidev_free i (nd_pcidevs n) (nd_n_pcidevs n);;
     touch (Bnode i);; topo_smmu_free i (nd_smmus n) (nd_n_smmus n);;
     free (Bnode i)) (node_blocks i n).
Proof.
  intros [Hd Hs]. unfold node_blocks. cbn [app]. repeat frees_step. apply frees_seq.
  { apply (frees_objects _ _ _ _ _ _ Hd). intros k d _. unfold pcidev_blocks. repeat frees_step. }
  repeat frees_step. apply frees_seq; [|apply frees_free].
  apply (frees_objects _ _ _ _ _ _ Hs). intros k d _. apply frees_free.
Qed.

Lemma frees_irqs need p : sizes_ok p ->
  frees need (topo_irq_free (tp_irqs p) (tp_n_irqs p)) (irq_blocks (tp_irqs p) (tp_n_irqs p)).
Proof.
  intros Hp. unfold topo_irq_free, irq_blocks. destruct (tp_irqs p) as [l|] eqn:El; [|apply frees_nil].
  apply frees_array, frees_loop. intros k Hk.
  destruct (lookup_lt_is_Some_2 l k) as [o E]; [pose proof (sz_irqs p Hp l El); lia|].
  apply (frees_entry _ _ _ _ o (fun _ => free (Birq k))); [set_solver|done|]. apply frees_free.
Qed.

Lemma release_frees p : sizes_ok p -> frees [] (topo_release p) (release_order p).
Proof.
  intros Hp. unfold topo_release, release_order. repeat frees_step.
  apply frees_seq; [by apply frees_cpus|]. apply frees_seq.
  { apply (frees_objects _ _ _ _ _ _ (sz_cores p Hp)). intros i c _. apply frees_free. }
  apply frees_seq.
  { apply (frees_objects _ _ _ _ _ _ (sz_ccls p Hp)). intros i c _.
    unfold ccl_blocks. repeat frees_step. }
  repeat frees_step. apply frees_seq.
  { apply (frees_objects _ _ _ _ _ _ (sz_nodes p Hp)). intros i n E.
    apply frees_node, (sz_node p Hp i n E). }
  apply frees_seq; [|by apply frees_irqs].
  apply (frees_objects _ _ _ _ _ _ (sz_packages p Hp)). intros i c _.
  unfold package_blocks. repeat frees_step.
Qed.

(** ** Every block once *)

Lemma elem_upto {A} n (f : nat -> list A) x :
  x ∈ upto n f <-> exists i, (i < Z.to_nat n)%nat /\ x ∈ f i.
Proof.
  unfold upto. rewrite list_elem_of_In, in_concat. setoid_rewrite in_map_iff.
  setoid_rewrite in_seq. setoid_rewrite list_elem_of_In. split.
  - intros (l & (i & <- & Hi) & Hx). exists i. split; [lia|done].
  - intros (i & Hi & Hx). exists (f i). split; [|done]. exists i. split; [done|lia].
Qed.

Lemma elem_array_blocks {A} (l : list (option A)) n b f x :
  x ∈ array_blocks l n b f <->
  (l <> [] /\ x = b) \/
  exists i a, (i < Z.to_nat n)%nat /\ l !! i = Some (Some a) /\ x ∈ f i a.
Proof.
  unfold array_blocks, of_array. destruct l as [|y l0] eqn:El.
  { rewrite elem_of_nil. split; [done|]. intros [[? _]|(i & a & _ & E & _)]; [done|].
    by rewrite lookup_nil in E. }
  rewrite <- El. rewrite elem_of_app, list_elem_of_singleton, elem_upto. unfold at_object. split.
  - intros [(i & Hi & Hx)| ->]; [right|left; by subst].
    destruct (l !! i) as [[a|]|] eqn:E; [|by apply elem_of_nil in Hx..]. eauto 6.
  - intros [[_ ->]|(i & a & Hi & E & Hx)]; [by right|left]. exists i. by rewrite E.
Qed.

Lemma concat_nodup {A B} (key : A -> B) (f : B -> list A) l :
  NoDup l -> (forall i, NoDup (f i)) -> (forall i x, x ∈ f i -> key x = i) ->
  NoDup (concat (map f l)).
Proof.
  intros Hl Hf Hk. induction Hl as [|i l Hi _ IH]; simpl; [constructor|].
  apply NoDup_app. split; [done|]. split; [|done]. intros x Hx Hx'.
  apply list_elem_of_In, in_concat in Hx' as (l' & (j & <- & Hj)%in_map_iff & Hx').
  apply Hk in Hx. apply list_elem_of_In, Hk in Hx'. apply list_elem_of_In in Hj. congruence.
Qed.

Lemma upto_nodup {A} (key : A -> nat) n (f : nat -> list A) :
  (forall i, NoDup (f i)) -> (forall i x, x ∈ f i -> key x = i) -> NoDup (upto n f).
Proof. intros. eapply concat_nodup; [apply NoDup_seq|done|done]. Qed.

Lemma array_nodup {A} (key : block -> nat) (l : list (option A)) n b f :
  (forall i a, NoDup (f i a)) -> (forall i a x, x ∈ f i a -> key x = i) ->
  (forall i a, b ∉ f i a) -> NoDup (array_blocks l n b f).
Proof.
  intros Hf Hk Hb. unfold array_blocks, of_array. destruct l as [|y l]; [constructor|].
  apply NoDup_app. split; [|split; [|apply NoDup_singleton]].
  - apply (upto_nodup key); intros i; unfold at_object; case_match; try case_match;
      solve [constructor|set_solver|eauto].
  - intros x (i & _ & Hx)%elem_upto ->%list_elem_of_singleton. revert Hx.
    unfold at_object. case_match; [|by rewrite elem_of_nil]. case_match; [|by rewrite elem_of_nil].
    apply Hb.
Qed.

(** The array of the topology that a block belongs to, and the object in it. *)
Definition part (b : block) : nat :=
  match b with
  | Bcpu_map | Bonline_cpu_map => 0
  | Bcpus | Bcpu _ | Bcore_cpus_map _ | Bp_caches _ | Bshared_cpu_map _ _ => 1
  | Bcores | Bcore _ => 2
  | Bccls | Bccl _ | Bccl_cpu_map _ | Bccl_core_map _ => 3
  | Bnode_map => 4
  | Bnodes | Bnode _ | Bnode_cpu_map _ | Bnode_core_map _ | Bcluster_map _ | Bdistance _
  | Bp_meminfo _ | Bpcidevs _ | Bpcidev _ _ | Blocal_cpu_map _ _ | Birq_numbers _ _
  | Bsmmus _ | Bsmmu _ _ => 5
  | Bpackages | Bpackage _ | Bpackage_cpu_map _ | Bnuma_map _ => 6
  | Birqs | Birq _ => 7
  end.

Definition object (b : block) : nat :=
  match b with
  | Bcpu i | Bcore_cpus_map i | Bp_caches i | Bshared_cpu_map i _ | Bcore i | Bccl i
  | Bccl_cpu_map i | Bccl_core_map i | Bnode i | Bnode_cpu_map i | Bnode_core_map i
  | Bcluster_map i | Bdistance i | Bp_meminfo i | Bpcidevs i | Bpcidev i _ | Blocal_cpu_map i _
  | Birq_numbers i _ | Bsmmus i | Bsmmu i _ | Bpackage i | Bpackage_cpu_map i | Bnuma_map i
  | Birq i => i
  | _ => O
  end.

(** The object inside a node or a CPU. *)
Definition sub_object (b : block) : nat :=
  match b with
  | Bshared_cpu_map _ k | Bpcidev _ k | Blocal_cpu_map _ k | Birq_numbers _ k | Bsmmu _ k => k
  | _ => O
  end.

Lemma elem_cache_blocks i c x :
  x ∈ cache_blocks i c <-> u_p_caches c <> [] /\
    (x = Bp_caches i \/ exists k, (k < Z.to_nat (u_n_caches c))%nat /\ x = Bshared_cpu_map i k).
Proof.
  unfold cache_blocks, of_array. destruct (u_p_caches c); [set_solver|].
  rewrite elem_of_app, elem_upto. set_solver.
Qed.

Lemma cache_blocks_nodup i c : NoDup (cache_blocks i c).
Proof.
  unfold cache_blocks, of_array. destruct (u_p_caches c); [constructor|].
  apply NoDup_app. split; [|split; [|apply NoDup_singleton]].
  - apply (upto_nodup sub_object); [intros; apply NoDup_singleton|set_solver].
  - intros x (k & _ & ->%list_elem_of_singleton)%elem_upto. set_solver.
Qed.

Lemma elem_node_blocks i n x :
  x ∈ node_blocks i n <->
  x ∈ [Bnode_cpu_map i; Bnode_core_map i; Bcluster_map i; Bdistance i; Bp_meminfo i; Bnode i] \/
  x ∈ array_blocks (nd_pcidevs n) (nd_n_pcidevs n) (Bpcidevs i) (pcidev_blocks i) \/
  x ∈ array_blocks (nd_smmus n) (nd_n_smmus n) (Bsmmus i) (smmu_blocks i).
Proof. unfold node_blocks. rewrite !elem_of_app. set_solver. Qed.

Ltac blocks :=
  repeat match goal with
  | H : _ ∈ array_blocks _ _ _ _ |- _ =>
    apply elem_array_blocks in H as [[? ?]|(? & ? & ? & ? & H)]
  | H : _ ∈ node_blocks _ _ |- _ => apply elem_node_blocks in H as [H|[H|H]]
  | H : _ ∈ cache_blocks _ _ |- _ => apply elem_cache_blocks in H as (? & [?|(? & ? & ?)])
  | H : _ ∈ cpu_blocks _ _ |- _ => unfold cpu_blocks in H
  | H : _ ∈ core_blocks _ _ |- _ => unfold core_blocks in H
  | H : _ ∈ ccl_blocks _ _ |- _ => unfold ccl_blocks in H
  | H : _ ∈ pcidev_blocks _ _ _ |- _ => unfold pcidev_blocks in H
  | H : _ ∈ smmu_blocks _ _ _ |- _ => unfold smmu_blocks in H
  | H : _ ∈ package_blocks _ _ |- _ => unfold package_blocks in H
  | H : _ ∈ irq_blocks ?o _ |- _ => unfold irq_blocks in H; destruct o eqn:?
  | H : _ ∈ upto _ _ |- _ => apply elem_upto in H as (? & ? & H)
  | H : _ ∈ _ ++ _ |- _ => apply elem_of_app in H as [H|H]
  | H : _ ∈ _ :: _ |- _ => apply elem_of_cons in H as [?|H]
  | H : _ ∈ [] |- _ => by apply elem_of_nil in H
  end; simplify_eq/=.

Lemma node_blocks_nodup i n : NoDup (node_blocks i n).
Proof.
  unfold node_blocks. apply NoDup_app. split; [|split].
  - repeat (apply NoDup_cons; split; [set_solver|]). constructor.
  - intros x H1 H2. blocks; done.
  - apply NoDup_app. split; [|split].
    + apply (array_nodup sub_object); [|intros; blocks; done|intros k a H; blocks; done].
      intros k a. unfold pcidev_blocks. repeat (apply NoDup_cons; split; [set_solver|]). constructor.
    + intros x H1 H2. blocks; done.
    + apply NoDup_app. split; [|split; [|apply NoDup_singleton]].
      * apply (array_nodup sub_object); [|intros; blocks; done|intros k a H; blocks; done].
        intros k a. apply NoDup_singleton.
      * intros x H1 H2. blocks; done.
Qed.

(** The parts of the release are in the order of their numbers. *)
Lemma nodup_parts k l1 l2 :
  NoDup l1 -> NoDup l2 -> (forall x, x ∈ l1 -> part x = k) -> (forall x, x ∈ l2 -> (k < part x)%nat) ->
  NoDup (l1 ++ l2).
Proof.
  intros H1 H2 P1 P2. apply NoDup_app. split; [done|]. split; [|done].
  intros x Hx1%P1 Hx2%P2. lia.
Qed.

Ltac parts k :=
  apply (nodup_parts k); [| |intros; blocks; done|intros; blocks; simpl; lia].

Lemma release_order_nodup p : NoDup (release_order p).
Proof.
  unfold release_order. parts 0%nat.
  { repeat (apply NoDup_cons; split; [set_solver|]). constructor. }
  parts 1%nat.
  { apply (array_nodup object); [|intros; blocks; done|intros i a H; blocks; done].
    intros i c. apply NoDup_app. split; [apply NoDup_singleton|]. split; [intros x H1 H2; blocks; done|].
    apply NoDup_app. split; [apply cache_blocks_nodup|].
    split; [intros x H1 H2; blocks; done|apply NoDup_singleton]. }
  parts 2%nat.
  { apply (array_nodup object); [|intros; blocks; done|intros i a H; blocks; done].
    intros i c. apply NoDup_singleton. }
  parts 3%nat.
  { apply (array_nodup object); [|intros; blocks; done|intros i a H; blocks; done].
    intros i c. unfold ccl_blocks. repeat (apply NoDup_cons; split; [set_solver|]). constructor. }
  parts 4%nat; [apply NoDup_singleton|]. parts 5%nat.
  { apply (array_nodup object); [apply node_blocks_nodup|intros; blocks; done|intros i a H; blocks; done]. }
  parts 6%nat.
  { apply (array_nodup object); [|intros; blocks; done|intros i a H; blocks; done].
    intros i c. unfold package_blocks. repeat (apply NoDup_cons; split; [set_solver|]). constructor. }
  unfold irq_blocks. destruct (tp_irqs p); [|constructor].
  apply NoDup_app. split; [|split; [intros x H1 H2; blocks; done|apply NoDup_singleton]].
  apply (upto_nodup object); [intros; apply NoDup_singleton|set_solver].
Qed.

(** ** The memory of a topology *)

Definition is_object {A} (l : list (option A)) (i : nat) : Prop := exists a, l !! i = Some (Some a).

(** The blocks that the pointers of a topology lead to. *)
Definition owned (p : wayca_topo) (b : block) : Prop :=
  match b with
  | Bcpu_map | Bonline_cpu_map | Bnode_map => True
  | Bcpus => tp_cpus p <> []
  | Bcpu i | Bcore_cpus_map i => is_object (tp_cpus p) i
  | Bp_caches i => exists c, tp_cpus p !! i = Some (Some c) /\ u_p_caches c <> []
  | Bshared_cpu_map i k => exists c, tp_cpus p !! i = Some (Some c) /\ (k < length (u_p_caches c))%nat
  | Bcores => tp_cores p <> []
  | Bcore i => is_object (tp_cores p) i
  | Bccls => tp_ccls p <> []
  | Bccl i | Bccl_cpu_map i | Bccl_core_map i => is_object (tp_ccls p) i
  | Bnodes => tp_nodes p <> []
  | Bnode i | Bnode_cpu_map i | Bnode_core_map i | Bcluster_map i | Bdistance i | Bp_meminfo i =>
    is_object (tp_nodes p) i
  | Bpcidevs i => exists n, tp_nodes p !! i = Some (Some n) /\ nd_pcidevs n <> []
  | Bpcidev i k | Blocal_cpu_map i k | Birq_numbers i k =>
    exists n, tp_nodes p !! i = Some (Some n) /\ is_object (nd_pcidevs n) k
  | Bsmmus i => exists n, tp_nodes p !! i = Some (Some n) /\ nd_smmus n <> []
  | Bsmmu i k => exists n, tp_nodes p !! i = Some (Some n) /\ is_object (nd_smmus n) k
  | Bpackages => tp_packages p <> []
  | Bpackage i | Bpackage_cpu_map i | Bnuma_map i => is_object (tp_packages p) i
  | Birqs => is_Some (tp_irqs p)
  | Birq i => exists l, tp_irqs p = Some l /\ (i < length l)%nat
  end.

(** The count of an array that is not NULL is its length; the count of an array of
    pointers has all objects below it. *)
Definition exact {A} (n : Z) (l : list A) : Prop := l = [] \/ Z.to_nat n = length l.
Definition covers {A} (n : Z) (l : list (option A)) : Prop :=
  in_range n l /\ forall i, is_object l i -> (i < Z.to_nat n)%nat.

Record counts_exact (p : wayca_topo) : Prop := {
  ex_cpus : covers (tp_n_cpus p) (tp_cpus p);
  ex_cores : covers (tp_n_cores p) (tp_cores p);
  ex_ccls : covers (tp_n_clusters p) (tp_ccls p);
  ex_nodes : covers (tp_n_nodes p) (tp_nodes p);
  ex_packages : covers (tp_n_packages p) (tp_packages p);
  ex_irqs : forall l, tp_irqs p = Some l -> Z.to_nat (tp_n_irqs p) = length l;
  ex_caches : forall i c, tp_cpus p !! i = Some (Some c) -> exact (u_n_caches c) (u_p_caches c);
  ex_devices : forall i n, tp_nodes p !! i = Some (Some n) ->
    covers (nd_n_pcidevs n) (nd_pcidevs n) /\ covers (nd_n_smmus n) (nd_smmus n);
}.

Lemma exact_in_range {A} n (l : list A) : exact n l -> in_range n l.
Proof. intros [->|H]; [by left|right; lia]. Qed.

Lemma counts_sizes p : counts_exact p -> sizes_ok p.
Proof.
  intros [[H1 _] [H2 _] [H3 _] [H4 _] [H5 _] H6 H7 H8]. split; [done..| | |].
  - intros l El. rewrite (H6 l El). done.
  - intros i c E. split. by apply exact_in_range, (H7 i).
  - intros i n E. by destruct (H8 i n E) as [[? _] [? _]].
Qed.

Lemma exact_covers {A} n (l : list (option A)) : exact n l -> covers n l.
Proof.
  intros He. split; [by apply exact_in_range|]. intros i [a E]. apply lookup_lt_Some in E as Hi.
  destruct He as [->| ->]; [simpl in Hi; lia|done].
Qed.

Lemma elem_object {A} n (l : list (option A)) i a b f x :
  covers n l -> l !! i = Some (Some a) -> x ∈ f i a -> x ∈ array_blocks l n b f.
Proof.
  intros [_ He] E Hx. apply elem_array_blocks. right. exists i, a.
  split; [apply He; by exists a|done].
Qed.

Lemma elem_array {A} (l : list (option A)) n b f : l <> [] -> b ∈ array_blocks l n b f.
Proof. intros Hl. apply elem_array_blocks. by left. Qed.

Lemma released_owned p b : b ∈ release_order p -> counts_exact p -> owned p b.
Proof.
  intros H Hp. unfold release_order in H. blocks; simpl; unfold is_object; eauto.
  - match goal with E : tp_cpus p !! _ = Some (Some ?c) |- _ =>
      destruct (ex_caches p Hp _ _ E) as [?|Hn]; [done|]; exists c; split; [done|lia] end.
  - match goal with E : tp_irqs p = Some ?l |- _ =>
      pose proof (ex_irqs p Hp l E); exists l; split; [done|lia] end.
Qed.

Lemma owned_cpu p i c b : counts_exact p -> tp_cpus p !! i = Some (Some c) ->
  b ∈ cpu_blocks i c -> b ∈ release_order p.
Proof.
  intros Hp E Hb. unfold release_order. rewrite !elem_of_app. right. left.
  by apply (elem_object _ _ i c); [apply ex_cpus| |].
Qed.

Lemma owned_node p i n b : counts_exact p -> tp_nodes p !! i = Some (Some n) ->
  b ∈ node_blocks i n -> b ∈ release_order p.
Proof.
  intros Hp E Hb. unfold release_order. rewrite !elem_of_app. do 5 right. left.
  by apply (elem_object _ _ i n); [apply ex_nodes| |].
Qed.

Lemma owned_ccl p i c b : counts_exact p -> tp_ccls p !! i = Some (Some c) ->
  b ∈ ccl_blocks i c -> b ∈ release_order p.
Proof.
  intros Hp E Hb. unfold release_order. rewrite !elem_of_app. do 3 right. left.
  by apply (elem_object _ _ i c); [apply ex_ccls| |].
Qed.

Lemma owned_package p i c b : counts_exact p -> tp_packages p !! i = Some (Some c) ->
  b ∈ package_blocks i c -> b ∈ release_order p.
Proof.
  intros Hp E Hb. unfold release_order. rewrite !elem_of_app. do 6 right. left.
  by apply (elem_object _ _ i c); [apply ex_packages| |].
Qed.

Lemma owned_core p i c b : counts_exact p -> tp_cores p !! i = Some (Some c) ->
  b ∈ core_blocks i c -> b ∈ release_order p.
Proof.
  intros Hp E Hb. unfold release_order. rewrite !elem_of_app. do 2 right. left.
  by apply (elem_object _ _ i c); [apply ex_cores| |].
Qed.

Lemma owned_irq p l i : counts_exact p -> tp_irqs p = Some l -> (i < length l)%nat ->
  Birq i ∈ release_order p.
Proof.
  intros Hp E Hi. unfold release_order. rewrite !elem_of_app. do 7 right.
  unfold irq_blocks. rewrite E, elem_of_app, elem_upto. left. exists i.
  rewrite (ex_irqs p Hp l E). set_solver.
Qed.

Lemma owned_cache p i c k : counts_exact p -> tp_cpus p !! i = Some (Some c) ->
  (k < length (u_p_caches c))%nat -> Bshared_cpu_map i k ∈ release_order p.
Proof.
  intros Hp E Hk. apply (owned_cpu p i c _ Hp E). unfold cpu_blocks.
  rewrite !elem_of_app, elem_cache_blocks. right. left.
  destruct (ex_caches p Hp i c E) as [Ec|Hn]; [rewrite Ec in Hk; simpl in Hk; lia|].
  split; [intros Ec; rewrite Ec in Hk; simpl in Hk; lia|]. right. exists k. split; [lia|done].
Qed.

(** Split what is known of a block that is owned. *)
Ltac own :=
  repeat match goal with
  | H : exists _, _ |- _ => destruct H as [? H]
  | H : is_object _ _ |- _ => destruct H as [? H]
  | H : _ /\ _ |- _ => destruct H
  | H : is_Some _ |- _ => destruct H as [? H]
  end.

Lemma owned_in_node p b n i : counts_exact p -> tp_nodes p !! i = Some (Some n) ->
  owned p b -> object b = i -> part b = 5%nat -> b <> Bnodes -> b ∈ release_order p.
Proof.
  intros Hp E Hb Hi H5 Hn. destruct (ex_devices p Hp i n E) as [Hd Hs].
  apply (owned_node p i n _ Hp E), elem_node_blocks.
  destruct b; simpl in *; try done; subst; own; simplify_eq;
  solve [left; set_solver | right; left; by apply elem_array | right; right; by apply elem_array
    | right; left; eapply elem_object; [done|done|unfold pcidev_blocks; set_solver]
    | right; right; eapply elem_object; [done|done|unfold smmu_blocks; set_solver]].
Qed.

Lemma owned_released p b : owned p b -> counts_exact p -> b ∈ release_order p.
Proof.
  intros Hb Hp. pose proof Hb as Hb'.
  destruct b; simpl in Hb; own;
  try solve [eauto using owned_irq, owned_cache];
  try solve [eapply owned_in_node; eauto];
  try solve [eapply owned_cpu; [done..|]; unfold cpu_blocks;
             rewrite !elem_of_app, elem_cache_blocks; set_solver];
  try solve [eapply owned_core; [done..|]; unfold core_blocks; set_solver];
  try solve [eapply owned_ccl; [done..|]; unfold ccl_blocks; set_solver];
  try solve [eapply owned_package; [done..|]; unfold package_blocks; set_solver];
  unfold release_order; rewrite !elem_of_app; try solve [eauto 10 using elem_array]; try set_solver.
  do 7 right. unfold irq_blocks. rewrite Hb. set_solver.
Qed.

(** Whatever the counts, nothing is given back twice or used after that. *)
Lemma topo_release_order p : sizes_ok p ->
  topo_release p [] = Ok (tt, rev (release_order p)) /\ NoDup (release_order p).
Proof.
  intros Hp. split; [|apply release_order_nodup].
  rewrite (release_frees p Hp []); [by rewrite app_nil_r|apply release_order_nodup|].
  intros b _. apply not_elem_of_nil.
Qed.

Lemma topo_release_all p : counts_exact p ->
  exists fs, topo_release p [] = Ok (tt, fs) /\ NoDup fs /\ forall b, b ∈ fs <-> owned p b.
Proof.
  intros Hp. destruct (topo_release_order p (counts_sizes p Hp)) as [E Hn].
  exists (rev (release_order p)). split; [done|]. split.
  - apply NoDup_ListNoDup, List.NoDup_rev, NoDup_ListNoDup, Hn.
  - intros b. rewrite elem_of_rev. split; intros; [by apply released_owned|by apply owned_released].
Qed.

(** A node whose number is not below the count of the nodes is not given back. *)
Theorem node_beyond_count_leaks p fs i :
  sizes_ok p -> topo_release p [] = Ok (tt, fs) -> tp_n_nodes p <= Z.of_nat i -> Bnode i ∉ fs.
Proof.
  intros Hp E Hi Hb. destruct (topo_release_order p Hp) as [E' _]. rewrite E' in E.
  assert (fs = rev (release_order p)) as -> by congruence. clear E E'.
  apply (proj1 (elem_of_rev _ _)) in Hb. unfold release_order in Hb. blocks. lia.
Qed.
