(* ===== verification/TopoMemory.v ===== *)
(** * The memory of the topology that was read

    The counts of the arrays that [topo_init] of [lib/topo.c] builds are right, so
    [topo_free] gives back every block of the topology, and each of them once. *)

From Stdlib Require Import Ascii String.
From S2P Require Import Prelude Bitops Cpuset Cstring Dynset Cpulist TopoState Topo TopoDev.
From S2P Require Import TopoInit TopoQuery TopoMachine TopoFrame TopoViews TopoNodes TopoClusters.
From S2P Require Import TopoDevices TopoRelease.

(** The arrays of packages, cores, interrupts and caches. *)
Definition caches (c : wayca_cpu) : Z * list wayca_cache := (u_n_caches c, u_p_caches c).

Definition stock_of (w : world)
    : Z * nat * (Z * nat) * (Z * option (list wayca_irq)) * list (option (Z * list wayca_cache)) :=
  let p := w_topo w in
  (tp_n_packages p, length (tp_packages p), (tp_n_cores p, length (tp_cores p)),
   (tp_n_irqs p, tp_irqs p), projects caches (tp_cpus p)).

#[export] Instance stock_timeless : Timeless stock_of.
Proof. done. Qed.
#[export] Instance stock_placeless : Placeless stock_of.
Proof. done. Qed.

Lemma keeps_stock_topo f :
  (forall p, stock_of (mk_world (f p) 0 0 0 0 []) = stock_of (mk_world p 0 0 0 0 [])) ->
  keeps stock_of (upd_topo f).
Proof. intros H w a w' [= <- <-]. apply (H (w_topo w)). Qed.

Lemma keeps_stock_cpu i f : (forall c, caches (f c) = caches c) -> keeps stock_of (upd_cpu i f).
Proof.
  intros H w a w' (c & _ & E & ->)%upd_cpu_inv. unfold stock_of. tsimpl.
  by rewrite (projects_update caches f _ _ _ E).
Qed.

Lemma keeps_stock_node i f : keeps stock_of (upd_node i f).
Proof. by intros w a w' (c & _ & E & ->)%upd_node_inv. Qed.
Lemma keeps_stock_put_node i v : keeps stock_of (put_node i v).
Proof. by intros w a w' (_ & ->)%put_node_inv. Qed.
Lemma keeps_stock_ccl i f : keeps stock_of (upd_ccl i f).
Proof. by intros w a w' (c & _ & E & ->)%upd_ccl_inv. Qed.
Lemma keeps_stock_put_ccl i v : keeps stock_of (put_ccl i v).
Proof. by intros w a w' (_ & ->)%put_ccl_inv. Qed.
Lemma keeps_stock_package i f : keeps stock_of (upd_package i f).
Proof.
  intros w a w' (c & _ & E & ->)%upd_package_inv. unfold stock_of. tsimpl. by rewrite length_insert.
Qed.
Lemma keeps_stock_put_package i v : keeps stock_of (put_package i v).
Proof. intros w a w' (_ & ->)%put_package_inv. unfold stock_of. tsimpl. by rewrite length_insert. Qed.
Lemma keeps_stock_max v : keeps stock_of (modify (set_w_max_node_index v)).
Proof. by apply keeps_modify. Qed.

#[export] Hint Resolve keeps_stock_node keeps_stock_put_node keeps_stock_ccl keeps_stock_put_ccl
  keeps_stock_package keeps_stock_put_package keeps_stock_max : keeps.
#[export] Hint Extern 1 (keeps stock_of (upd_topo _)) => by apply keeps_stock_topo : keeps.
#[export] Hint Extern 1 (keeps stock_of (upd_cpu _ _)) => by apply keeps_stock_cpu : keeps.

(** The counts are right. *)
Definition stock_ok (w : world) : Prop :=
  let '(n_packages, packages, (n_cores, cores), (n_irqs, irqs), cpus) := stock_of w in
  n_packages = Z.of_nat packages /\ n_cores = Z.of_nat cores /\
  (forall l, irqs = Some l -> n_irqs = Z.of_nat (length l)) /\
  (forall i x, cpus !! i = Some (Some x) -> exact x.1 x.2).

Definition caches_of (w : world) : list (option (Z * list wayca_cache)) :=
  projects caches (tp_cpus (w_topo w)).

(** A step that succeeds, and leaves the caches alone. *)
Definition extends (m : M world Z) : Prop :=
  forall w w', stock_ok w -> m w = Ok (0, w') -> stock_ok w' /\ caches_of w' = caches_of w.

Lemma stock_ok_eq w w' : stock_of w' = stock_of w -> stock_ok w ->
  stock_ok w' /\ caches_of w' = caches_of w.
Proof. intros E HP. split; [unfold stock_ok; by rewrite E|exact (f_equal snd E)]. Qed.

Lemma extends_keeps m : keeps stock_of m -> extends m.
Proof. intros Hk w w' HP H. apply stock_ok_eq; [|done]. by apply (Hk w 0 w'). Qed.

Lemma extends_or_return m k : extends m -> extends k -> extends (or_return m k).
Proof.
  intros Hm Hk w w' HP (w1 & H1 & H2)%or_return_0.
  destruct (Hm w w1 HP H1) as [HP1 E1]. destruct (Hk w1 w' HP1 H2) as [HP2 E2].
  split; [done|]. by rewrite E2.
Qed.

Lemma extends_keeps_bind {A} (m : M world A) k :
  keeps stock_of m -> (forall a, extends (k a)) -> extends (mbind k m).
Proof.
  intros Hm Hk w w' HP (a & w1 & H1 & H2)%M_bind_inv.
  destruct (stock_ok_eq w w1 (Hm w a w1 H1) HP) as [HP1 E1].
  destruct (Hk a w1 w' HP1 H2) as [HP2 E2]. split; [done|]. by rewrite E2.
Qed.

Section steps.
Context `{F : Sysfs}.

Lemma stock_new_node i : keeps stock_of (topo_new_node i).
Proof using. unfold topo_new_node. keeps. Qed.
Hint Resolve stock_new_node : keeps.
Lemma stock_join_node c j : keeps stock_of (topo_join_node c j).
Proof using. unfold topo_join_node. keeps. Qed.
Hint Resolve stock_join_node : keeps.
Lemma stock_node_info c : keeps stock_of (topo_parse_cpu_node_info c).
Proof using. unfold topo_parse_cpu_node_info. keeps. Qed.
Lemma stock_new_cluster d c i k : keeps stock_of (topo_new_cluster d c i k).
Proof using. unfold topo_new_cluster. keeps. Qed.
Hint Resolve stock_new_cluster : keeps.
Lemma stock_cluster_info d c : keeps stock_of (topo_parse_cpu_cluster_info d c).
Proof using. unfold topo_parse_cpu_cluster_info. keeps. Qed.
Lemma stock_read_node i : keeps stock_of (topo_read_node_topology i).
Proof using. unfold topo_read_node_topology. keeps. Qed.
Lemma stock_get_package i : keeps stock_of (get_package i).
Proof using. apply keeps_get_package. Qed.
Lemma stock_numa_maps n j i z s : keeps stock_of (build_numa_maps n j i z s).
Proof using.
  revert j. induction n as [|n IH]; intros j; cbn [build_numa_maps]; [apply keeps_ret|]. keeps.
Qed.
Lemma stock_read_nodes n i z : keeps stock_of (read_nodes n i z).
Proof using.
  revert i. induction n as [|n IH]; intros i; cbn [read_nodes]; [apply keeps_ret|].
  apply keeps_or_return; [apply stock_read_node|]. keeps; apply stock_numa_maps.
Qed.
Lemma stock_numa : keeps stock_of topo_construct_numa_topology.
Proof using. unfold topo_construct_numa_topology. keeps; apply stock_read_nodes. Qed.
Lemma stock_walk fuel root : keeps stock_of (topo_recursively_read_io_devices fuel root).
Proof using. apply keeps_walk; [apply _..|]. intros i f _. apply keeps_stock_node. Qed.
Lemma stock_read_irqs l : keeps stock_of (read_irqs l).
Proof using.
  induction l as [|n l IH]; cbn [read_irqs]; [apply keeps_ret|].
  keeps. unfold topo_parse_irq_info. keeps.
Qed.

(** ** Steps that add to an array *)

(** The packages, the cores and the interrupts after a step that appends one. *)
Lemma stock_ok_package w w' :
  stock_ok w -> stock_of w' = (tp_n_packages (w_topo w) + 1, S (length (tp_packages (w_topo w))),
    (tp_n_cores (w_topo w), length (tp_cores (w_topo w))), (tp_n_irqs (w_topo w), tp_irqs (w_topo w)),
    caches_of w) -> stock_ok w' /\ caches_of w' = caches_of w.
Proof using.
  intros (H1 & H2 & H3 & H4) E. split; [|exact (f_equal snd E)].
  unfold stock_ok. rewrite E. split_and!; [lia|done..].
Qed.

Lemma extends_new_package d id w w' :
  stock_ok w -> topo_new_package d id (tp_n_packages (w_topo w)) w = Ok (0, w') ->
  stock_ok w' /\ caches_of w' = caches_of w.
Proof using.
  intros HP H. unfold topo_new_package in H. apply M_bind_inv in H as (p & w1 & [= <- <-] & H).
  apply M_bind_inv in H as (o & w1 & He & H). apply M_bind_inv in H as ([] & w2 & [= <-] & H).
  destruct o as [l'|]; [|done]. pose proof HP as (Hn & _).
  apply expand_inv in He as ([n ->] & Hlen & ->); [|lia].
  apply M_bind_inv in H as (ok & w2 & ->%calloc_inv & H). destruct ok; [|done]. cbn [negb] in H.
  apply M_bind_inv in H as ([] & w2 & Hp%keeps_stock_put_package & H).
  apply M_bind_inv in H as ([] & w3 & [= <-] & H).
  apply (stock_ok_package w); [done|].
  assert (Ek : stock_of w' = stock_of (set_w_topo (set_tp_n_packages
    (tp_n_packages (w_topo w2) + 1) (w_topo w2)) w2)).
  { revert H. match goal with |- ?m _ = _ -> _ => assert (Hk : keeps stock_of m) by keeps end.
    apply Hk. }
  rewrite Ek. unfold stock_of, caches_of in Hp |- *. tsimpl_all. injection Hp as E1 E2 E3 E4 E5 E6 E7.
  rewrite E1, E2, E3, E4, E5, E6, E7. simpl. repeat f_equal. lia.
Qed.

(** ** A CPU *)

Section online.
Context (online : Z -> M world bool).
Context (Hquiet : forall c, keeps w_topo (online c)).

Lemma stock_topo w w' : w_topo w' = w_topo w -> stock_of w' = stock_of w.
Proof using. intros E. unfold stock_of. by rewrite E. Qed.

Lemma stock_online c : keeps stock_of (online c).
Proof using Hquiet. intros w a w' H. apply stock_topo. by apply (Hquiet c w a). Qed.
Hint Resolve stock_online : keeps.

Lemma stock_core_info d c : keeps stock_of (topo_parse_cpu_core_info online d c).
Proof using Hquiet. unfold topo_parse_cpu_core_info. keeps. Qed.

Lemma extends_pkg_info d c : extends (topo_parse_cpu_pkg_info online d c).
Proof using Hquiet.
  unfold topo_parse_cpu_pkg_info. apply extends_keeps_bind; [keeps|]. intros [];
    cbn [negb]; [|apply extends_keeps; keeps].
  apply extends_keeps_bind; [keeps|]. intros [e|id]; [apply extends_keeps; keeps|].
  intros w w' HP H. apply M_bind_inv in H as (p & w1 & [= <- <-] & H).
  apply M_bind_inv in H as (i & w3 & Ei & H). apply (keeps_find_key w_topo) in Ei.
  rewrite <- Ei in H. destruct (stock_ok_eq w w3 (stock_topo w w3 Ei) HP) as [HP3 <-].
  apply or_return_0 in H as (w4 & H4 & H).
  assert (stock_ok w4 /\ caches_of w4 = caches_of w3) as [HP4 <-].
  { destruct (Z.eqb_spec i (tp_n_packages (w_topo w3))) as [->|].
    - by apply (extends_new_package d id w3).
    - by injection H4 as <-. }
  revert HP4 H. apply extends_keeps. keeps.
Qed.

Lemma read_caches_length n c i k w r w' :
  read_caches n c i k w = Ok (r, w') -> length r.2 = n.
Proof using.
  revert i w r w'. induction n as [|n IH]; intros i w r w' H; cbn [read_caches] in H.
  { by injection H as <- _. }
  apply M_bind_inv in H as (q & w1 & _ & H). destruct (negb _).
  { injection H as <- _. simpl. by rewrite length_replicate. }
  apply M_bind_inv in H as (rs & w2 & H2 & [= <- _]). simpl. f_equal. by apply (IH _ _ _ _ H2).
Qed.

(** The caches of CPU [c] become [x]. *)
Lemma stock_ok_caches w w' c x :
  stock_ok w -> exact x.1 x.2 ->
  stock_of w' = (tp_n_packages (w_topo w), length (tp_packages (w_topo w)),
    (tp_n_cores (w_topo w), length (tp_cores (w_topo w))), (tp_n_irqs (w_topo w), tp_irqs (w_topo w)),
    <[c := Some x]> (caches_of w)) -> stock_ok w'.
Proof using.
  intros (H1 & H2 & H3 & H4) Hx E. unfold stock_ok. rewrite E. split_and!; [done..|].
  intros i y [(-> & Ey & _)|[_ Ey]]%list_lookup_insert_Some; [|by apply (H4 i)].
  by injection Ey as <-.
Qed.

Lemma stock_ok_cpu w c i f u :
  stock_ok w -> tp_cpus (w_topo w) !! i = Some (Some c) -> exact (caches (f c)).1 (caches (f c)).2 ->
  w_topo u = set_tp_cpus (<[i := Some (f c)]> (tp_cpus (w_topo w))) (w_topo w) -> stock_ok u.
Proof using.
  intros HP E Hx Eu. apply (stock_ok_caches w u i (caches (f c))); [done|done|].
  unfold stock_of, caches_of. rewrite Eu. tsimpl. by rewrite projects_insert.
Qed.

(** The caches of a CPU whose object is new. *)
Lemma cache_info_ok c w w' :
  stock_ok w -> caches_of w !! Z.to_nat c = Some (Some (0, [])) ->
  topo_parse_cpu_cache_info online c w = Ok (0, w') -> stock_ok w'.
Proof using Hquiet.
  intros HP Hf H. unfold topo_parse_cpu_cache_info in H.
  apply M_bind_inv in H as (on & w1 & Eo & H).
  destruct (stock_ok_eq w w1 (stock_online c w on w1 Eo) HP) as [HP1 E1]. rewrite <- E1 in Hf.
  destruct on; cbn [negb] in H.
  2:{ apply M_bind_inv in H as ([] & w2 & (u & _ & Eu & ->)%upd_cpu_inv & [= <-]).
      apply (stock_ok_cpu w1 u (Z.to_nat c) (fun u => set_u_p_caches [] (set_u_n_caches 0 u)));
        [done|done|by left|done]. }
  apply M_bind_inv in H as (n & w2 & En & H). apply (keeps_count_caches stock_of) in En.
  destruct (stock_ok_eq w1 w2 En HP1) as [HP2 E2]. rewrite <- E2 in Hf. clear E1 E2 En Eo HP1 HP.
  apply M_bind_inv in H as ([] & w3 & (u & _ & Eu & ->)%upd_cpu_inv & H).
  assert (u_p_caches u = []) as Ep.
  { unfold caches_of in Hf. rewrite projects_lookup, Eu in Hf. injection Hf as _ Hf. done. }
  destruct (Z.eqb_spec n 0) as [->|Hn].
  { injection H as <-. apply (stock_ok_cpu w2 u (Z.to_nat c) (set_u_n_caches 0)); [done|done| |done].
    left. simpl. by rewrite Ep. }
  apply M_bind_inv in H as (ok & w3 & ->%calloc_inv & H). destruct ok; [|done]. cbn [negb] in H.
  apply M_bind_inv in H as (p & w3 & [= <- <-] & H).
  apply M_bind_inv in H as (r & w3 & Hr & H).
  pose proof (read_caches_length _ _ _ _ _ _ _ Hr) as Hl.
  apply (keeps_read_caches w_topo) in Hr.
  apply M_bind_inv in H as ([] & w4 & (v & _ & Ev & ->)%upd_cpu_inv & H). injection H as _ <-.
  rewrite Hr in Ev. tsimpl_all.
  rewrite list_lookup_insert_eq in Ev by (by eapply lookup_lt_Some). injection Ev as <-.
  apply (stock_ok_cpu w2 u (Z.to_nat c) (fun u => set_u_p_caches r.2 (set_u_n_caches n u)));
    [done|done|right; simpl; by rewrite Hl|].
  tsimpl. rewrite Hr. tsimpl. by rewrite list_insert_insert_eq.
Qed.

(** The whole of a CPU. *)
Lemma read_cpu_stock c w w' :
  stock_ok w -> topo_read_cpu_topology online c w = Ok (0, w') -> stock_ok w'.
Proof using Hquiet.
  intros HP H. unfold topo_read_cpu_topology in H.
  apply M_bind_inv in H as (ok & w1 & ->%calloc_inv & H). destruct ok; cbn [negb] in H.
  2:{ by apply M_bind_inv in H as ([] & w2 & _ & [=]). }
  apply M_bind_inv in H as ([] & w1 & [Hc ->]%put_cpu_inv & H). tsimpl_all.
  set (w1 := set_w_topo _ _) in H.
  assert (HP1 : stock_ok w1 /\ caches_of w1 !! Z.to_nat c = Some (Some (0, []))).
  { assert (E1 : caches_of w1 = <[Z.to_nat c := Some (0, [])]> (caches_of w)).
    { unfold caches_of, w1. tsimpl. by rewrite projects_insert. }
    split.
    - apply (stock_ok_caches w w1 (Z.to_nat c) (0, [])); [done|by left|]. rewrite <- E1. done.
    - rewrite E1. apply list_lookup_insert_eq. unfold caches_of. rewrite length_projects. lia. }
  clearbody w1. destruct HP1 as [HP1 Hf]. clear HP Hc.
  repeat (apply or_return_0 in H as (? & ?H & H)).
  destruct (extends_keeps _ (stock_node_info c) _ _ HP1 H0) as [HP2 E2].
  destruct (extends_keeps _ (stock_core_info _ c) _ _ HP2 H1) as [HP3 E3].
  destruct (extends_keeps _ (stock_cluster_info _ c) _ _ HP3 H2) as [HP4 E4].
  destruct (extends_pkg_info _ c _ _ HP4 H3) as [HP5 E5].
  apply (cache_info_ok c _ _ HP5); [|done]. by rewrite E5, E4, E3, E2.
Qed.

Lemma read_cpus_stock fuel c w w' :
  stock_ok w -> read_cpus online fuel c w = Ok (0, w') -> stock_ok w'.
Proof using Hquiet.
  revert c w. induction fuel as [|fuel IH]; intros c w HP H; [done|]. cbn [read_cpus] in H.
  apply M_bind_inv in H as (p & w1 & [= <- <-] & H).
  destruct (c <? tp_n_cpus (w_topo w)); [|by injection H as <-].
  apply or_return_0 in H as (w1 & H1 & H). apply (IH (c + 1) w1); [|done].
  by apply (read_cpu_stock c w).
Qed.
End online.

(** ** The cores and the interrupts *)

Lemma new_core_stock i c w w' :
  stock_ok w -> topo_new_core i (tp_n_cores (w_topo w)) c w = Ok (0, w') -> stock_ok w'.
Proof using.
  intros HP H. unfold topo_new_core in H. apply M_bind_inv in H as (p & w1 & [= <- <-] & H).
  apply M_bind_inv in H as (o & w1 & He & H). apply M_bind_inv in H as ([] & w2 & [= <-] & H).
  destruct o as [l'|]; [|done]. pose proof HP as (Hp & Hn & Hi & Hc).
  apply expand_inv in He as ([n ->] & Hlen & ->); [|lia].
  apply M_bind_inv in H as (ok & w2 & ->%calloc_inv & H). destruct ok; [|done]. cbn [negb] in H.
  apply M_bind_inv in H as (m & w2 & Em%(keeps_deref (fun w => w)) & H). simpl in Em. subst w2.
  apply M_bind_inv in H as (p & w2 & [= <- <-] & H).
  apply M_bind_inv in H as (cores & w2 & (-> & _ & ->)%put_index_inv & H).
  apply M_bind_inv in H as ([] & w2 & [= <-] & H).
  match goal with H : _ ?u = Ok (0, w') |- _ =>
    assert (Ek : stock_of w' = stock_of u) by
      (revert H; match goal with |- ?m _ = _ -> _ => assert (Hk : keeps stock_of m) by keeps end;
       apply Hk) end.
  unfold stock_ok. rewrite Ek. unfold stock_of. tsimpl. split_and!; [done| |done|done].
  rewrite length_insert. simpl in *. lia.
Qed.

Lemma read_cores_stock n i w w' : stock_ok w -> read_cores n i w = Ok (0, w') -> stock_ok w'.
Proof using.
  revert i w. induction n as [|n IH]; intros i w HP H; cbn [read_cores] in H; [by injection H as <-|].
  apply M_bind_inv in H as (c & w1 & Hc & H). apply (keeps_get_cpu stock_of) in Hc as Ec.
  destruct (stock_ok_eq w w1 Ec HP) as [HP1 _].
  destruct (u_core_id c =? -1); [by apply (IH (i + 1) w1)|].
  apply M_bind_inv in H as (p & w2 & [= <- <-] & H).
  apply M_bind_inv in H as (j & w2 & Hj & H).
  apply find_key_inv in Hj as (-> & Hj).
  destruct (Z.ltb_spec j (tp_n_cores (w_topo w1))); [by apply (IH (i + 1) w1)|].
  apply or_return_0 in H as (w3 & H3 & H).
  assert (j = tp_n_cores (w_topo w1)) as -> by (destruct HP1 as (_ & Hn & _); simpl in Hn; lia).
  apply (IH (i + 1) w3); [|done]. by apply (new_core_stock i c w1).
Qed.

Lemma cores_stock w w' : stock_ok w -> topo_construct_core_topology w = Ok (0, w') -> stock_ok w'.
Proof using.
  intros HP H. unfold topo_construct_core_topology in H.
  apply M_bind_inv in H as (p & w1 & [= <- <-] & H). destruct (tp_cores (w_topo w)); [|done].
  destruct (negb _); [done|]. by apply read_cores_stock in H.
Qed.

Lemma irqs_stock w w' : stock_ok w -> topo_get_irq_info w = Ok (0, w') -> stock_ok w'.
Proof using.
  intros HP H. unfold topo_get_irq_info in H. apply M_bind_inv in H as (p & w1 & [= <- <-] & H).
  destruct (tp_irqs (w_topo w)); [by injection H as <-|].
  apply M_bind_inv in H as (en & w1 & [= _ <-] & H). destruct en as [e|l]; [by injection H as _ <-|].
  apply M_bind_inv in H as (ok & w1 & ->%calloc_inv & H). destruct ok; [|done]. cbn [negb] in H.
  apply M_bind_inv in H as (r & w1 & Er & H). apply stock_read_irqs in Er.
  destruct r as [e|irqs]; [injection H as _ <-; by apply (stock_ok_eq w)|].
  apply M_bind_inv in H as ([] & w2 & [= <-] & [= <-]).
  unfold stock_of in Er. tsimpl_all. injection Er as E1 E2 E3 E4 E5 E6 E7.
  destruct HP as (H1 & H2 & H3 & H4). unfold stock_ok, stock_of. tsimpl.
  rewrite E1, E2, E3, E4, E7. split_and!; [done|done| |done]. by intros l0 [= <-].
Qed.

(** ** The whole topology *)

Lemma stock_ok_start w n : w_topo w = n -> tp_n_packages n = 0 -> tp_packages n = [] ->
  tp_n_cores n = 0 -> tp_cores n = [] -> tp_irqs n = None ->
  (forall i c, tp_cpus n !! i <> Some (Some c)) -> stock_ok w.
Proof using.
  intros <- E1 E2 E3 E4 E5 E6. unfold stock_ok, stock_of. rewrite E1, E2, E3, E4, E5.
  split_and!; [done|done|done|]. intros i x. rewrite projects_lookup.
  destruct (tp_cpus (w_topo w) !! i) as [[c|]|] eqn:E; [by apply E6 in E|done|done].
Qed.

Lemma topo_init_stock w w' : topo_init 0 w = Ok (tt, w') -> stock_ok w'.
Proof using.
  intros H. cbn [topo_init] in H. unfold topo_init_body in H.
  apply M_bind_inv in H as (saved & w0 & [= _ <-] & H).
  apply M_bind_inv in H as (wd & w0 & [= <- <-] & H).
  apply M_bind_inv in H as ([] & w0 & [= <-] & H). apply M_bind_inv in H as (ret & w1 & H & Hend).
  destruct (Z.eqb_spec ret 0) as [->|Hne]; simpl in Hend.
  2:{ injection Hend as <-. by eapply stock_ok_start. }
  assert (stock_of w' = stock_of w1) as E1.
  { destruct saved; [|done]. revert Hend. apply keeps_chdir; apply _. }
  apply (stock_ok_eq w1 w' E1). clear Hend E1.
  apply or_return_0 in H as (w2 & (mx & s & on & _ & _ & E2)%alloc_cpu_inv & H).
  apply or_return_0 in H as (w3 & H3 & H). apply or_return_0 in H as (w4 & H4 & H).
  apply or_return_0 in H as (w5 & H5 & H). apply or_return_0 in H as (w6 & H6 & H).
  apply or_return_0 in H as (w7 & H7 & H). apply M_bind_inv in H as (env & w8 & E8 & H).
  apply (keeps_ask stock_of) in E8.
  assert (HP2 : stock_ok w2).
  { eapply stock_ok_start; [exact E2|done..|]. tsimpl. intros i c [? _]%lookup_replicate. done. }
  assert (K3 : keeps stock_of topo_alloc_node_map) by (unfold topo_alloc_node_map; keeps).
  destruct (extends_keeps _ K3 _ _ HP2 H3) as [HP3 _].
  unfold topo_construct_cpu_topology in H4. apply M_bind_inv in H4 as (p & w9 & [= <- <-] & H4).
  apply read_cpus_stock in H4; [|intros c; apply quiet_online, _|done].
  destruct (extends_keeps _ stock_numa _ _ H4 H5) as [HP5 _]. apply (cores_stock _ _ HP5) in H6.
  destruct (extends_keeps _ (stock_walk _ _) _ _ H6 H7) as [HP7 _].
  destruct (stock_ok_eq w7 w8 E8 HP7) as [HP8 _].
  destruct env; [by apply irqs_stock in H|by injection H as <-].
Qed.
End steps.

(** Every node is below the count when the nodes are numbered without a gap. *)
Lemma dense_covers p :
  tp_n_nodes p = Z.of_nat (entries (tp_nodes p)) -> dense p -> covers (tp_n_nodes p) (tp_nodes p).
Proof.
  intros Hn Hd. set (n := Z.to_nat (tp_n_nodes p)). unfold dense in Hd. fold n in Hd.
  assert (Hl : (n <= length (tp_nodes p))%nat).
  { destruct n as [|n']; [lia|]. destruct (Hd n') as [x E]; [lia|]. apply lookup_lt_Some in E. lia. }
  split; [by right|]. intros i [a E]. destruct (decide (i < n)%nat) as [|Hge]; [done|]. exfalso.
  assert (Et : entries (take n (tp_nodes p)) = n).
  { clear E Hge Hn. clearbody n. induction n as [|n IH]; [done|].
    destruct (Hd n) as [x Ex]; [lia|]. rewrite (take_S_r _ _ _ Ex). unfold entries in *.
    rewrite omap_app, length_app, IH by (try lia; intros; apply Hd; lia). simpl. lia. }
  assert (Ed : (0 < entries (drop n (tp_nodes p)))%nat).
  { assert (E' : drop n (tp_nodes p) !! (i - n)%nat = Some (Some a)).
    { rewrite lookup_drop. rewrite <- E. f_equal. lia. }
    apply take_drop_middle in E'. rewrite <- E'. unfold entries. rewrite omap_app, length_app.
    simpl. lia. }
  assert (entries (tp_nodes p) = n + entries (drop n (tp_nodes p)))%nat as Es.
  { rewrite <- Et at 1. rewrite <- (take_drop n (tp_nodes p)) at 1. unfold entries.
    by rewrite omap_app, length_app. }
  lia.
Qed.

Section memory.
Context `{F : Sysfs}.
Context (Hmem : forall t, fs_calloc t = true).
Context (Hsmall : forall t c names j,
  fs_list t (DCpu c) = inr names -> find_node_entry names = Some j -> 0 <= j < 64).

Lemma topo_init_counts w w' :
  w_max_node_index w = -1 -> topo_init 0 w = Ok (tt, w') -> dense (w_topo w') ->
  counts_exact (w_topo w').
Proof using Hmem Hsmall.
  intros Hm H Hd. pose proof (topo_init_stock w w' H) as (Hp & Hc & Hi & Hch).
  pose proof (topo_init_partition Hsmall w w' Hm H) as (_ & _ & _ & Hn).
  pose proof (topo_init_devices Hmem w w' H) as Hdev.
  pose proof (topo_init_clusters w w' H) as (l & El & _ & Hl & _).
  apply (f_equal length) in El. rewrite length_projects, length_fmap in El.
  split; try (apply exact_covers; right; simpl in *; lia).
  - apply exact_covers. destruct (topo_init_joined Hsmall w w' Hm H) as [->|(k & k' & _ & Hj)]; [by left|].
    right. pose proof (jn_cpus _ _ _ _ Hj) as Ec. simpl in Ec. rewrite length_projects in Ec. lia.
  - by apply dense_covers.
  - intros l0 E0. rewrite (Hi l0 E0). lia.
  - intros i c E. apply (Hch i (caches c)). by rewrite projects_lookup, E.
  - intros i n E. destruct (devices_ok_node w' i n Hdev E) as [[Ep _] [Es _]].
    split; apply exact_covers; right; lia.
Qed.

(** C39. When memory was available and the nodes are numbered without a gap and below
    64, the
    topology that [topo_init] read is given back by [topo_free] completely: no
    block is used after it was given back or given back twice, and the blocks that
    are given back are those that the pointers of the topology lead to. *)
Theorem topo_free_gives_back_all w w' :
  w_max_node_index w = -1 -> topo_init 0 w = Ok (tt, w') -> dense (w_topo w') ->
  exists fs, topo_release (w_topo w') [] = Ok (tt, fs) /\ NoDup fs /\
    forall b, b ∈ fs <-> owned (w_topo w') b.
Proof using Hmem Hsmall. intros Hm H Hd. by apply topo_release_all, (topo_init_counts w). Qed.
End memory.

(** ** On the small machine *)

Module OnSmallMemory.
Import SmallMachine.

Lemma topo_free_gives_back_all_witness :
  exists fs, topo_release (w_topo ready) [] = Ok (tt, fs) /\ NoDup fs /\
    forall b, b ∈ fs <-> owned (w_topo ready) b.
Proof.
  apply (@topo_free_gives_back_all files (fun _ => eq_refl) nodes_small start ready);
    [done|apply ready_eq|apply TopoDevices.OnSmallMachine.ready_dense].
Defined.

(** The machine with CPU 0 in node 1, and without the file of its core. *)
Definition sparse_files : Sysfs := {|
  fs_open t d f := match d, f with DTopology 0, Fcore_id => -2 | _, _ => fs_open t d f end;
  fs_text := fs_text;
  fs_reads := fs_reads;
  fs_list t d := match d with DCpu 0 => inr [s2l "node1"%string] | _ => fs_list t d end;
  fs_irqs := fs_irqs;
  fs_msi := fs_msi;
  fs_lstat := fs_lstat;
  fs_readlink := fs_readlink;
  fs_chdir := fs_chdir;
  fs_getcwd := fs_getcwd;
  fs_access := fs_access;
  fs_calloc := fs_calloc;
  fs_errno := fs_errno;
  fs_env := fs_env
|}.

(** Reading CPU 0 fails after its node was allocated. *)
Definition failed : outcome (Z * world) :=
  or_return (@topo_alloc_cpu sparse_files) (or_return (@topo_alloc_node_map sparse_files)
    (@topo_construct_cpu_topology sparse_files (fun _ => mret true))) start.

(** The memory of a node is lost when the reading fails after it, as the count of
    the nodes is still smaller than the number of the node. *)
Theorem failed_reading_leaks_node :
  match failed with
  | Ok (ret, w) => ret <> 0 /\ owned (w_topo w) (Bnode 1) /\
      match topo_release (w_topo w) [] with Ok (_, fs) => Bnode 1 ∉ fs | Fault _ => False end
  | Fault _ => False
  end.
Proof.
  vm_compute. split; [done|]. split; [by eexists|]. intros H.
  repeat (apply elem_of_cons in H as [H|H]; [done|]). by apply elem_of_nil in H.
Qed.
End OnSmallMemory.
