(* ===== verification/TopoPrint.v ===== *)
(** * Printing the topology

    [wayca_sc_topo_print] of [lib/topo.c] and the functions that it calls, as they
    are in a build with WAYCA_SC_DEBUG, where [PRINT_DBG] is [printf]. The topology
    is read only; the state is what was written to [stdout], and the log. *)

From Stdlib Require Import Ascii String.
From S2P Require Import Prelude Bitops Cpuset Cstring Dynset Cpulist Log TopoState Topo.
From S2P Require Import TopoDev.
From S2P Require Import TopoInit TopoMachine.

Record out := mk_out {
  o_stdout : cstring;
  o_log : log;
}.

Definition out_start : out := mk_out [] log_start.

(** ** printf *)

Definition put (s : cstring) : M out unit :=
  modify (fun o => mk_out (o_stdout o ++ s) (o_log o)).

(** A conversion: characters, [%d], [%u] and [%lu], [%0<width>x], [%<width>lu], [%s]. *)
Inductive item :=
  | T (s : string)
  | D (n : Z)
  | U (n : Z)
  | X (width : nat) (n : Z)
  | W (width : nat) (n : Z)
  | Str (s : cstring)
  | Tab
  | Nl.

Definition padded (c : ascii) (width : nat) (s : cstring) : cstring :=
  replicate (width - length s) c ++ s.

Definition item_text (i : item) : cstring :=
  match i with
  | T s => s2l s
  | D n => print_d n
  | U n => print_num 10 n
  | X width n => padded "0"%char width (print_num 16 n)
  | W width n => padded " "%char width (print_num 10 n)
  | Str s => s
  | Tab => [ascii_of_nat 9]
  | Nl => [ascii_of_nat 10]
  end.

Definition PRINT_DBG (items : list item) : M out unit := put (concat (map item_text items)).

(** ** Pointers *)

(** The sets that are no options are NULL when they have no words. *)
Definition set_pointer (s : cpu_set_t) : option cpu_set_t := match s with [] => None | _ => Some s end.

(** [CPU_COUNT_S] reads through its pointer unless the size is 0. *)
Definition count_at (setsize : Z) (o : option cpu_set_t) : M out Z :=
  if (set_words setsize =? 0)%nat then mret 0
  else s ← deref o; mret (CPU_COUNT_S setsize s).

(** [array[i]] of an array that may be NULL. *)
Definition element {A} (l : list A) (i : nat) : M out A :=
  match l with
  | [] => throw NullDeref
  | _ => match l !! i with Some a => mret a | None => throw OutOfBounds end
  end.

(** [array[i]->...] *)
Definition object_at {A} (l : list (option A)) (i : nat) : M out A :=
  o ← element l i; deref o.

Fixpoint for_each (n i : nat) (body : nat -> M out unit) : M out unit :=
  match n with
  | O => mret tt
  | S n => body i;; for_each n (S i) body
  end.

(** [for (i = 0; i < n; i++)] *)
Definition for_loop (n : Z) (body : nat -> M out unit) : M out unit := for_each (Z.to_nat n) 0 body.

(** ** The functions *)

Section print.
(** The topology, and what [%p] prints for the cluster map of a node. *)
Context (p : wayca_topo) (pointer_text : Z -> cstring).

Definition topo_print_wayca_cluster (setsize : Z) (l : wayca_cluster) : M out unit :=
  PRINT_DBG [T "cluster_id: "; X 8 (to_uint (l_cluster_id l)); Nl];;
  PRINT_DBG [T "n_cpus: "; U (l_n_cpus l); Nl];;
  count ← count_at setsize (set_pointer (l_cpu_map l));
  PRINT_DBG [Tab; T "Cpu count in this cluster's cpu_map: "; D count; Nl].

(** A device of a node. The expressions reach the device anew in every line. *)
Definition print_pcidev (setsize : Z) (n : wayca_node) (i : nat) : M out unit :=
  d ← object_at (nd_pcidevs n) i;
  PRINT_DBG [Tab; T "pcidev"; D (Z.of_nat i); T ": numa_node="; D (pd_numa_node d); Nl];;
  PRINT_DBG [Tab; Tab; T " linked to SMMU No.: "; D (pd_smmu_idx d); Nl];;
  PRINT_DBG [Tab; Tab; T " enable(1) or not(0): "; D (pd_enable d); Nl];;
  PRINT_DBG [Tab; Tab; T " class=0x"; X 6 (pd_class d); Nl];;
  PRINT_DBG [Tab; Tab; T " vendor=0x"; X 4 (pd_vendor d); Nl];;
  PRINT_DBG [Tab; Tab; T " device=0x"; X 4 (pd_device d); Nl];;
  count ← count_at setsize (pd_local_cpu_map d);
  PRINT_DBG [Tab; Tab; T " number of local CPUs: "; D count; Nl];;
  PRINT_DBG [Tab; Tab; T " absolute_path: "; Str (pd_absolute_path d); Nl];;
  PRINT_DBG [Tab; Tab; T " PCI_SLOT_NAME: "; Str (pd_slot_name d); Nl];;
  PRINT_DBG [Tab; Tab; T " count of irqs (inc. msi_irqs): "; D (to_int (di_n_irqs (pd_irqs d))); Nl];;
  PRINT_DBG [Tab; Tab; Tab; T " List of IRQs irq_numbers"; Nl];;
  for_loop (di_n_irqs (pd_irqs d)) (fun j =>
    irq ← element (di_irq_numbers (pd_irqs d)) j;
    PRINT_DBG [Tab; Tab; Tab; Tab; T " "; U irq; T ":"; Nl]).

Definition print_smmu (n : wayca_node) (i : nat) : M out unit :=
  s ← object_at (nd_smmus n) i;
  PRINT_DBG [Tab; T "SMMU."; D (sm_smmu_idx s); T ":"; Nl];;
  PRINT_DBG [Tab; Tab; T " numa_node: "; D (sm_numa_node s); Nl];;
  PRINT_DBG [Tab; Tab; T " base address : 0x"; X 16 (sm_base_addr s); Nl];;
  PRINT_DBG [Tab; Tab; T " type(modalias): "; Str (sm_modalias s); Nl].

Definition topo_print_wayca_node (setsize : Z) (n : wayca_node) (distance_size : Z) : M out unit :=
  PRINT_DBG [T "node index: "; D (nd_node_idx n); Nl];;
  PRINT_DBG [T "n_cpus: "; U (nd_n_cpus n); Nl];;
  count ← count_at setsize (set_pointer (nd_cpu_map n));
  PRINT_DBG [Tab; T "Cpu count in this node's cpu_map: "; D count; Nl];;
  kB ← deref (nd_p_meminfo n);
  PRINT_DBG [T "total memory (in kB): "; W 8 kB; Nl];;
  PRINT_DBG [T "distance: "];;
  for_loop distance_size (fun i =>
    d ← element (nd_distance n) i;
    PRINT_DBG [D d; Tab]);;
  PRINT_DBG [Nl];;
  PRINT_DBG [T "n_pcidevs: "; U (nd_n_pcidevs n); Nl];;
  for_loop (nd_n_pcidevs n) (print_pcidev setsize n);;
  PRINT_DBG [T "n_smmus: "; U (nd_n_smmus n); Nl];;
  for_loop (nd_n_smmus n) (print_smmu n);;
  PRINT_DBG [T "pointer of cluster_map: 0x"; Str (pointer_text (nd_node_idx n));
             T " EXPECTED (nil)"; Nl].

Definition print_cache (setsize : Z) (c : wayca_cpu) (i : nat) : M out unit :=
  PRINT_DBG [Tab; T "Cache index "; D (Z.of_nat i); T ":"; Nl];;
  ch ← element (u_p_caches c) i;
  PRINT_DBG [Tab; Tab; T "id: "; D (ch_id ch); Nl];;
  PRINT_DBG [Tab; Tab; T "level: "; D (ch_level ch); Nl];;
  PRINT_DBG [Tab; Tab; T "type: "; Str (ch_type ch); Nl];;
  PRINT_DBG [Tab; Tab; T "allocation_policy: "; Str (ch_allocation_policy ch); Nl];;
  PRINT_DBG [Tab; Tab; T "write_policy: "; Str (ch_write_policy ch); Nl];;
  PRINT_DBG [Tab; Tab; T "cache_size: "; Str (ch_cache_size ch); Nl];;
  PRINT_DBG [Tab; Tab; T "ways_of_associativity: "; U (ch_ways_of_associativity ch); Nl];;
  PRINT_DBG [Tab; Tab; T "physical_line_partition: "; U (ch_physical_line_partition ch); Nl];;
  PRINT_DBG [Tab; Tab; T "number_of_sets: "; U (ch_number_of_sets ch); Nl];;
  PRINT_DBG [Tab; Tab; T "coherency_line_size: "; U (ch_coherency_line_size ch); Nl];;
  count ← count_at setsize (set_pointer (ch_shared_cpu_map ch));
  PRINT_DBG [Tab; Tab; T "shared with how many cores: "; D count; Nl].

(** The cluster, the node and the package that a pointer leads to. *)
Definition cluster_at (i : nat) : M out wayca_cluster := object_at (tp_ccls p) i.
Definition node_at (o : option nat) : M out wayca_node := i ← deref o; object_at (tp_nodes p) i.
Definition package_at (o : option nat) : M out wayca_package :=
  i ← deref o; object_at (tp_packages p) i.

(** [if (p_cluster != NULL)] *)
Definition print_cluster_of (o : option nat) : M out unit :=
  match o with
  | Some i => l ← cluster_at i;
              PRINT_DBG [T "belongs to cluster_id: "; Tab; X 8 (to_uint (l_cluster_id l)); Nl]
  | None => mret tt
  end.

Definition topo_print_wayca_cpu (setsize : Z) (c : wayca_cpu) : M out unit :=
  PRINT_DBG [T "cpu_id: "; D (u_cpu_id c); Nl];;
  PRINT_DBG [T "core_id: "; D (u_core_id c); Nl];;
  count ← count_at setsize (u_core_cpus_map c);
  PRINT_DBG [Tab; T "CPU count in this core / SMT factor: "; D count; Nl];;
  PRINT_DBG [T "Number of caches: "; U (u_n_caches c); Nl];;
  for_loop (u_n_caches c) (print_cache setsize c);;
  print_cluster_of (u_p_cluster c);;
  n ← node_at (u_p_numa_node c);
  PRINT_DBG [T "belongs to node: "; Tab; D (nd_node_idx n); Nl];;
  k ← package_at (u_p_package c);
  PRINT_DBG [T "belongs to package_id: "; Tab; X 8 (to_uint (pk_physical_package_id k)); Nl].

(** The last line goes to the log. *)
Definition in_log (m : M log unit) : M out unit := fun o =>
  match m (o_log o) with Ok (_, l) => Ok (tt, mk_out (o_stdout o) l) | Fault e => Fault e end.

Definition topo_print_wayca_core (now : option tm) (setsize : Z) (c : wayca_core) : M out unit :=
  PRINT_DBG [T "core_id: "; D (c_core_id c); Nl];;
  PRINT_DBG [Tab; T "n_cpus: "; U (c_n_cpus c); Nl];;
  count ← count_at setsize (c_core_cpus_map c);
  PRINT_DBG [Tab; T "CPU count in this core / SMT factor: "; D count; Nl];;
  PRINT_DBG [T "Number of caches: "; U (c_n_caches c); Nl];;
  print_cluster_of (c_p_cluster c);;
  n ← node_at (c_p_numa_node c);
  PRINT_DBG [T "belongs to node: "; Tab; D (nd_node_idx n); Nl];;
  level ← gets (fun o => wayca_sc_log_level (o_log o));
  when (WAYCA_SC_LOG_LEVEL_INFO <=? level) (
    k ← package_at (c_p_package c);
    in_log (WAYCA_SC_LOG_INFO now (concat (map item_text
      [T "belongs to package_id: "; Tab; X 8 (to_uint (pk_physical_package_id k)); Nl])))).

(** [if (array[i] == NULL) continue;] *)
Definition print_object {A} (l : list (option A)) (title : string) (print : A -> M out unit)
    (i : nat) : M out unit :=
  o ← element l i;
  match o with
  | None => mret tt
  | Some a => PRINT_DBG [T title; D (Z.of_nat i); T " information:"; Nl];; print a
  end.

Definition wayca_sc_topo_print (now : option tm) : M out unit :=
  PRINT_DBG [T "kernel_max_cpus: "; D (tp_kernel_max_cpus p); Nl];;
  PRINT_DBG [T "setsize: "; U (tp_setsize p); Nl];;
  PRINT_DBG [T "n_cpus: "; U (tp_n_cpus p); Nl];;
  count ← count_at (tp_setsize p) (set_pointer (tp_cpu_map p));
  PRINT_DBG [Tab; T "CPU count in cpu_map: "; D count; Nl];;
  for_loop (tp_n_cpus p)
    (print_object (tp_cpus p) "CPU" (topo_print_wayca_cpu (tp_setsize p)));;
  PRINT_DBG [T "n_cores: "; U (tp_n_cores p); Nl];;
  for_loop (tp_n_cores p)
    (print_object (tp_cores p) "core " (topo_print_wayca_core now (tp_setsize p)));;
  PRINT_DBG [T "n_clusters: "; U (tp_n_clusters p); Nl];;
  for_loop (tp_n_clusters p)
    (print_object (tp_ccls p) "cluster " (topo_print_wayca_cluster (tp_setsize p)));;
  PRINT_DBG [T "n_nodes: "; U (tp_n_nodes p); Nl];;
  nodes ← count_at (CPU_ALLOC_SIZE (tp_n_cpus p)) (set_pointer (tp_node_map p));
  PRINT_DBG [Tab; T "node count in node_map: "; D nodes; Nl];;
  for_loop (tp_n_nodes p)
    (print_object (tp_nodes p) "node" (fun n => topo_print_wayca_node (tp_setsize p) n (tp_n_nodes p)));;
  PRINT_DBG [T "n_packages: "; U (tp_n_packages p); Nl].
End print.

(** ** When printing succeeds *)

Definition succeeds {A} (m : M out A) (Q : A -> Prop) : Prop :=
  forall o, exists a o', m o = Ok (a, o') /\ Q a.
Definition prints (m : M out unit) : Prop := succeeds m (fun _ => True).
Definition fails {A} (m : M out A) : Prop := forall o, exists e, m o = Fault e.

Lemma prints_seq {A} (m : M out A) (Q : A -> Prop) k :
  succeeds m Q -> (forall a, Q a -> prints (k a)) -> prints (mbind k m).
Proof.
  intros Hm Hk o. destruct (Hm o) as (a & o1 & H1 & Ha). destruct (Hk a Ha o1) as (u & o2 & H2 & _).
  exists u, o2. by rewrite (M_bind_ok _ _ _ _ _ H1).
Qed.

Lemma succeeds_prints m : prints m -> succeeds m (fun _ => True).
Proof. done. Qed.

Lemma prints_put items : prints (PRINT_DBG items).
Proof. intros o. by do 2 eexists. Qed.

Lemma topo_prints_ret : prints (mret tt).
Proof. intros o. by exists tt, o. Qed.

Lemma succeeds_deref {A} (x : option A) a : x = Some a -> succeeds (deref x) (eq a).
Proof. intros ->. intros o. by exists a, o. Qed.

Lemma succeeds_element {A} (l : list A) i a : l !! i = Some a -> succeeds (element l i) (eq a).
Proof.
  intros E o. exists a, o. unfold element. destruct l; [done|]. by rewrite E.
Qed.

Lemma succeeds_object {A} (l : list (option A)) i a :
  l !! i = Some (Some a) -> succeeds (object_at l i) (eq a).
Proof.
  intros E o. exists a, o. split; [|done]. unfold object_at, mbind, M_bind.
  destruct (succeeds_element l i _ E o) as (x & o' & Ho & <-).
  assert (o' = o) as -> by (unfold element in Ho; destruct l; [done|]; rewrite E in Ho; by injection Ho).
  by rewrite Ho.
Qed.

Lemma succeeds_count z o : is_Some o -> succeeds (count_at z o) (fun _ => True).
Proof.
  intros [s ->] st. unfold count_at. destruct (_ =? _)%nat; by do 2 eexists.
Qed.

Lemma set_pointer_some s : s <> [] -> is_Some (set_pointer s).
Proof. destruct s; [done|by eexists]. Qed.

Lemma prints_each n i body :
  (forall k, (i <= k < i + n)%nat -> prints (body k)) -> prints (for_each n i body).
Proof.
  revert i. induction n as [|n IH]; intros i H; [apply topo_prints_ret|]. cbn [for_each].
  eapply prints_seq; [apply H; lia|]. intros _ _. apply IH. intros k Hk. apply H. lia.
Qed.

Lemma prints_loop n body : (forall k, (k < Z.to_nat n)%nat -> prints (body k)) -> prints (for_loop n body).
Proof. intros H. apply prints_each. intros k Hk. apply H. lia. Qed.

(** Step over what cannot fail. *)
Ltac prints :=
  repeat first
    [ apply prints_put | apply topo_prints_ret
    | apply (prints_seq _ (fun _ => True)); [first [apply prints_put|apply succeeds_count; done]|intros ? _] ].

(** ** What can be printed *)

Definition has_object {A} (l : list (option A)) (o : option nat) : Prop :=
  exists i a, o = Some i /\ l !! i = Some (Some a).

Record cpu_printable (p : wayca_topo) (c : wayca_cpu) : Prop := {
  pr_core : is_Some (u_core_cpus_map c);
  pr_caches : (Z.to_nat (u_n_caches c) <= length (u_p_caches c))%nat;
  pr_cache : Forall (fun ch => ch_shared_cpu_map ch <> []) (u_p_caches c);
  pr_cluster : u_p_cluster c = None \/ has_object (tp_ccls p) (u_p_cluster c);
  pr_node : has_object (tp_nodes p) (u_p_numa_node c);
  pr_package : has_object (tp_packages p) (u_p_package c);
}.

Record core_printable (p : wayca_topo) (c : wayca_core) : Prop := {
  pc_core : is_Some (c_core_cpus_map c);
  pc_cluster : c_p_cluster c = None \/ has_object (tp_ccls p) (c_p_cluster c);
  pc_node : has_object (tp_nodes p) (c_p_numa_node c);
  pc_package : has_object (tp_packages p) (c_p_package c);
}.

Record pcidev_printable (d : wayca_pci_device) : Prop := {
  pd_map : is_Some (pd_local_cpu_map d);
  pd_numbers : (Z.to_nat (di_n_irqs (pd_irqs d)) <= length (di_irq_numbers (pd_irqs d)))%nat;
}.

Record node_printable (n_nodes : Z) (n : wayca_node) : Prop := {
  pn_map : nd_cpu_map n <> [];
  pn_meminfo : is_Some (nd_p_meminfo n);
  pn_distance : (Z.to_nat n_nodes <= length (nd_distance n))%nat;
  pn_pcidevs : forall k, (k < Z.to_nat (nd_n_pcidevs n))%nat ->
    exists d, nd_pcidevs n !! k = Some (Some d) /\ pcidev_printable d;
  pn_smmus : forall k, (k < Z.to_nat (nd_n_smmus n))%nat -> exists s, nd_smmus n !! k = Some (Some s);
}.

Definition each_printable {A} (n : Z) (l : list (option A)) (P : A -> Prop) : Prop :=
  (Z.to_nat n <= length l)%nat /\ forall i a, l !! i = Some (Some a) -> P a.

Record printable (p : wayca_topo) : Prop := {
  pt_map : tp_cpu_map p <> [];
  pt_node_map : tp_node_map p <> [];
  pt_cpus : each_printable (tp_n_cpus p) (tp_cpus p) (cpu_printable p);
  pt_cores : each_printable (tp_n_cores p) (tp_cores p) (core_printable p);
  pt_ccls : each_printable (tp_n_clusters p) (tp_ccls p) (fun l => l_cpu_map l <> []);
  pt_nodes : each_printable (tp_n_nodes p) (tp_nodes p) (node_printable (tp_n_nodes p));
}.

Section succeed.
Context (p : wayca_topo) (pointer_text : Z -> cstring).

Lemma prints_objects {A} (l : list (option A)) n title print (P : A -> Prop) :
  each_printable n l P -> (forall a, P a -> prints (print a)) ->
  prints (for_loop n (print_object l title print)).
Proof using.
  intros [Hn HP] Hp. apply prints_loop. intros k Hk.
  destruct (lookup_lt_is_Some_2 l k) as [o E]; [lia|]. unfold print_object.
  eapply prints_seq; [by apply succeeds_element|]. intros ? <-.
  destruct o as [a|]; [|apply topo_prints_ret]. prints. apply Hp, (HP k a E).
Qed.

Lemma prints_cluster_of o : o = None \/ has_object (tp_ccls p) o -> prints (print_cluster_of p o).
Proof using.
  intros [->|(i & a & -> & E)]; [apply topo_prints_ret|]. unfold print_cluster_of, cluster_at.
  eapply prints_seq; [by apply succeeds_object|]. intros ? _. prints.
Qed.

Lemma succeeds_at {A} (l : list (option A)) o :
  has_object l o -> succeeds (i ← deref o; object_at l i) (fun _ => True).
Proof using.
  intros (i & a & -> & E) st. destruct (succeeds_object l i a E st) as (x & o' & H & _).
  by exists x, o'.
Qed.

Lemma prints_cpu z c : cpu_printable p c -> prints (topo_print_wayca_cpu p z c).
Proof using.
  intros [H1 H2 H3 H4 H5 H6]. unfold topo_print_wayca_cpu. prints.
  eapply prints_seq; [apply succeeds_prints, prints_loop|intros _ _].
  { intros k Hk. unfold print_cache. prints.
    destruct (lookup_lt_is_Some_2 (u_p_caches c) k) as [ch E]; [lia|].
    eapply prints_seq; [by apply succeeds_element|]. intros ? <-.
    assert (is_Some (set_pointer (ch_shared_cpu_map ch)))
      by (apply set_pointer_some, (Forall_lookup_1 _ _ _ _ H3 E)). prints. }
  eapply prints_seq; [by apply succeeds_prints, prints_cluster_of|intros _ _].
  eapply prints_seq; [by apply (succeeds_at (tp_nodes p))|intros n _]. prints.
  eapply prints_seq; [by apply (succeeds_at (tp_packages p))|intros k _]. prints.
Qed.

Lemma prints_core now z c : core_printable p c -> prints (topo_print_wayca_core p now z c).
Proof using.
  intros [H1 H2 H3 H4]. unfold topo_print_wayca_core. prints.
  eapply prints_seq; [by apply succeeds_prints, prints_cluster_of|intros _ _].
  eapply prints_seq; [by apply (succeeds_at (tp_nodes p))|intros n _]. prints.
  apply (prints_seq _ (fun _ => True)); [intros o; by do 2 eexists|intros level _].
  unfold when. destruct (_ <=? _); [|apply topo_prints_ret].
  eapply prints_seq; [by apply (succeeds_at (tp_packages p))|intros k _].
  intros o. unfold in_log.
  match goal with |- context [WAYCA_SC_LOG_INFO now ?s] =>
    pose proof (log_one (mk_message INFO (FULL now) s) (o_log o)) as E end.
  unfold log_message in E. cbn [m_severity m_style m_text] in E. rewrite E. by do 2 eexists.
Qed.

Lemma prints_pcidev z n k d :
  nd_pcidevs n !! k = Some (Some d) -> pcidev_printable d -> prints (print_pcidev z n k).
Proof using.
  intros E [H1 H2]. unfold print_pcidev. eapply prints_seq; [by apply succeeds_object|].
  intros ? <-. prints. apply prints_loop. intros j Hj.
  destruct (lookup_lt_is_Some_2 (di_irq_numbers (pd_irqs d)) j) as [x Ex]; [lia|].
  eapply prints_seq; [by apply succeeds_element|]. intros ? _. prints.
Qed.

Lemma prints_node z n : node_printable (tp_n_nodes p) n ->
  prints (topo_print_wayca_node pointer_text z n (tp_n_nodes p)).
Proof using.
  intros [H1%set_pointer_some [kB H2] H3 H4 H5]. unfold topo_print_wayca_node. prints.
  eapply prints_seq; [by apply succeeds_deref|intros ? _]. prints.
  eapply prints_seq; [apply succeeds_prints, prints_loop|intros _ _].
  { intros k Hk. destruct (lookup_lt_is_Some_2 (nd_distance n) k) as [d E]; [lia|].
    eapply prints_seq; [by apply succeeds_element|]. intros ? _. prints. }
  prints. eapply prints_seq; [apply succeeds_prints, prints_loop|intros _ _].
  { intros k Hk. destruct (H4 k Hk) as (d & E & Hd). by apply (prints_pcidev _ _ _ d). }
  prints. eapply prints_seq; [apply succeeds_prints, prints_loop|intros _ _].
  { intros k Hk. destruct (H5 k Hk) as (s & E). unfold print_smmu.
    eapply prints_seq; [by apply succeeds_object|]. intros ? _. prints. }
  prints.
Qed.

(** A topology whose pointers are there is printed to its end. *)
Theorem topo_print_succeeds now o : printable p ->
  exists o', wayca_sc_topo_print p pointer_text now o = Ok (tt, o').
Proof using.
  intros [H1%set_pointer_some H2%set_pointer_some H3 H4 H5 H6].
  assert (Hp : prints (wayca_sc_topo_print p pointer_text now)).
  2:{ destruct (Hp o) as ([] & o' & E & _). by exists o'. }
  unfold wayca_sc_topo_print. prints.
  eapply prints_seq; [apply succeeds_prints, (prints_objects _ _ _ _ _ H3)|intros _ _].
  { intros c. apply prints_cpu. }
  prints. eapply prints_seq; [apply succeeds_prints, (prints_objects _ _ _ _ _ H4)|intros _ _].
  { intros c. apply prints_core. }
  prints. eapply prints_seq; [apply succeeds_prints, (prints_objects _ _ _ _ _ H5)|intros _ _].
  { intros l Hl%set_pointer_some. unfold topo_print_wayca_cluster. prints. }
  prints. eapply prints_seq; [apply succeeds_prints, (prints_objects _ _ _ _ _ H6)|intros _ _].
  { intros n. apply prints_node. }
  prints.
Qed.
End succeed.

(** ** When printing fails *)

Lemma fails_seq_l {A B} (m : M out A) (k : A -> M out B) : fails m -> fails (mbind k m).
Proof. intros Hm o. destruct (Hm o) as [e E]. exists e. unfold mbind, M_bind. by rewrite E. Qed.

Lemma fails_seq_r {A B} (m : M out A) (k : A -> M out B) : (forall a, fails (k a)) -> fails (mbind k m).
Proof.
  intros Hk o. unfold mbind, M_bind. destruct (m o) as [[a o']|e]; [apply Hk|by exists e].
Qed.

Lemma fails_each n i body k : (i <= k < i + n)%nat -> fails (body k) -> fails (for_each n i body).
Proof.
  revert i. induction n as [|n IH]; intros i Hk Hb; [lia|]. cbn [for_each].
  destruct (decide (i = k)) as [->|Hne]; [by apply fails_seq_l|].
  apply fails_seq_r. intros _. apply IH; [lia|done].
Qed.

(** A CPU without the set of its core, as one that is offline, ends the printing
    with an access through NULL. *)
Theorem topo_print_offline_fails p pointer_text now o i c :
  tp_cpus p !! i = Some (Some c) -> Z.of_nat i < tp_n_cpus p -> 8 <= tp_setsize p ->
  u_core_cpus_map c = None ->
  exists e, wayca_sc_topo_print p pointer_text now o = Fault e.
Proof.
  intros E Hi Hz Hc. revert o.
  assert (Hcpu : fails (topo_print_wayca_cpu p (tp_setsize p) c)).
  { unfold topo_print_wayca_cpu. do 2 (apply fails_seq_r; intros _). apply fails_seq_l.
    intros o. exists NullDeref. unfold count_at. rewrite Hc.
    destruct (Nat.eqb_spec (set_words (tp_setsize p)) 0) as [Hs|]; [|done].
    exfalso. unfold set_words in Hs. zdm. }
  change (fails (wayca_sc_topo_print p pointer_text now)). unfold wayca_sc_topo_print.
  do 3 (apply fails_seq_r; intros _). apply fails_seq_r. intros count. apply fails_seq_r. intros _.
  apply fails_seq_l. apply (fails_each _ _ _ i); [lia|]. unfold print_object.
  intros o. destruct (succeeds_element (tp_cpus p) i _ E o) as (x & o1 & H1 & <-).
  rewrite (M_bind_ok _ _ _ _ _ H1). apply fails_seq_r. intros _. apply Hcpu.
Qed.

(** ** On the small machine *)

Module OnSmallPrint.
Import SmallMachine.

Lemma topo_print_succeeds_witness :
  exists o', wayca_sc_topo_print (w_topo ready) (fun _ => s2l "(nil)"%string) None out_start = Ok (tt, o').
Proof.
  apply topo_print_succeeds. constructor; try (vm_compute; discriminate);
    split; (simpl; try lia); intros i a E;
    repeat (destruct i as [|i]; [injection E as <-|]; try done).
  all: constructor; simpl; try (by eexists); try (vm_compute; lia); try (vm_compute; discriminate).
  all: try (right; do 2 eexists; split; reflexivity).
  all: try (do 2 eexists; split; reflexivity).
  all: try (repeat constructor; vm_compute; discriminate).
  all: intros k Hk; try (vm_compute in Hk; lia).
  all: destruct k as [|k]; [|vm_compute in Hk; lia].
  - by eexists.
  - eexists. split; [reflexivity|]. constructor; [by eexists|vm_compute; lia].
Defined.

(** The machine with CPU 3 offline. *)
Definition offline_files : Sysfs := {|
  fs_open := fs_open;
  fs_text t d f := match d, f with
                   | DCpus, Fonline => line "0-2"%string
                   | DCpu 3, Fonline => line "0"%string
                   | DNode 1, Fcpulist => line "2"%string
                   | _, _ => fs_text t d f
                   end;
  fs_reads := fs_reads;
  fs_list := fs_list;
  fs_irqs := fs_irqs;
  fs_msi := fs_msi;
  fs_lstat := fs_lstat;
  fs_readlink := fs_readlink;
  fs_chdir := fs_chdir;
  fs_getcwd := fs_getcwd;
  fs_access := fs_access;
  fs_calloc := fs_calloc;
  fs_errno := fs_errno;
  fs_env := fs_env
|}.
Definition offline_ready : world := Eval vm_compute in after (@topo_init offline_files 0 start).

(** The topology of this machine can be read, but it cannot be printed. *)
Lemma topo_print_offline_fails_witness :
  @topo_init offline_files 0 start = Ok (tt, offline_ready) /\ tp_n_cpus (w_topo offline_ready) = 4 /\
  exists e, wayca_sc_topo_print (w_topo offline_ready) (fun _ => s2l "(nil)"%string) None out_start = Fault e.
Proof.
  split; [vm_compute; reflexivity|]. split; [reflexivity|].
  eapply (topo_print_offline_fails (w_topo offline_ready) _ None out_start 3);
    [reflexivity|reflexivity|vm_compute; discriminate|reflexivity].
Defined.
End OnSmallPrint.
