(* ===== verification/TopoCwd.v ===== *)
(** * The working directory

    The walk over [/sys/devices] changes the working directory of the process for
    every directory that it enters. It comes back from each of them, and
    [topo_init] goes back to where the process was when it succeeds. *)

From Stdlib Require Import Ascii String.
From S2P Require Import Prelude Bitops Cpuset Cstring Dynset Cpulist TopoState Topo TopoDev.
From S2P Require Import TopoInit.
From S2P Require Import TopoMachine TopoFrame TopoViews TopoDevices.

#[export] Instance cwd_timeless : Timeless w_cwd.
Proof. done. Qed.

Lemma cwd_topo f : keeps w_cwd (upd_topo f).
Proof. by intros w a w' [= <- <-]. Qed.
Lemma cwd_cpu i f : keeps w_cwd (upd_cpu i f).
Proof. by intros w a w' (c & _ & E & ->)%upd_cpu_inv. Qed.
Lemma cwd_node i f : keeps w_cwd (upd_node i f).
Proof. by intros w a w' (c & _ & E & ->)%upd_node_inv. Qed.
Lemma cwd_ccl i f : keeps w_cwd (upd_ccl i f).
Proof. by intros w a w' (c & _ & E & ->)%upd_ccl_inv. Qed.
Lemma cwd_package i f : keeps w_cwd (upd_package i f).
Proof. by intros w a w' (c & _ & E & ->)%upd_package_inv. Qed.
Lemma cwd_put_cpu i v : keeps w_cwd (put_cpu i v).
Proof. by intros w a w' (_ & ->)%put_cpu_inv. Qed.
Lemma cwd_put_node i v : keeps w_cwd (put_node i v).
Proof. by intros w a w' (_ & ->)%put_node_inv. Qed.
Lemma cwd_put_ccl i v : keeps w_cwd (put_ccl i v).
Proof. by intros w a w' (_ & ->)%put_ccl_inv. Qed.
Lemma cwd_put_package i v : keeps w_cwd (put_package i v).
Proof. by intros w a w' (_ & ->)%put_package_inv. Qed.
Lemma cwd_max v : keeps w_cwd (modify (set_w_max_node_index v)).
Proof. by apply keeps_modify. Qed.

#[export] Hint Resolve cwd_topo cwd_cpu cwd_node cwd_ccl cwd_package cwd_put_cpu cwd_put_node
  cwd_put_ccl cwd_put_package cwd_max : keeps.

Section cwd.
Context `{F : Sysfs}.

(** ** Reading the CPUs, nodes and cores *)

Lemma cwd_new_node i : keeps w_cwd (topo_new_node i).
Proof using. unfold topo_new_node. keeps. Qed.
Lemma cwd_new_cluster d c i k : keeps w_cwd (topo_new_cluster d c i k).
Proof using. unfold topo_new_cluster. keeps. Qed.
Lemma cwd_new_package d i k : keeps w_cwd (topo_new_package d i k).
Proof using. unfold topo_new_package. keeps. Qed.
Hint Resolve cwd_new_node cwd_new_cluster cwd_new_package : keeps.
Lemma cwd_join_node c j : keeps w_cwd (topo_join_node c j).
Proof using. unfold topo_join_node. keeps. Qed.
Hint Resolve cwd_join_node : keeps.

Lemma cwd_online c : keeps w_cwd (is_cpu_online_body (throw OutOfFuel) c).
Proof using. apply quiet_online, _. Qed.
Hint Resolve cwd_online : keeps.

Lemma cwd_read_cpu c : keeps w_cwd (topo_read_cpu_topology (is_cpu_online_body (throw OutOfFuel)) c).
Proof using.
  unfold topo_read_cpu_topology, topo_parse_cpu_node_info, topo_parse_cpu_core_info,
    topo_parse_cpu_cluster_info, topo_parse_cpu_pkg_info, topo_parse_cpu_cache_info. keeps.
Qed.
Hint Resolve cwd_read_cpu : keeps.

Lemma cwd_read_cpus fuel c :
  keeps w_cwd (read_cpus (is_cpu_online_body (throw OutOfFuel)) fuel c).
Proof using.
  revert c. induction fuel as [|fuel IH]; intros c; cbn [read_cpus]; [apply keeps_throw|]. keeps.
Qed.

Lemma cwd_numa_maps n j i z s : keeps w_cwd (build_numa_maps n j i z s).
Proof using. revert j. induction n as [|n IH]; intros j; cbn [build_numa_maps]; keeps. Qed.
Hint Resolve cwd_numa_maps : keeps.
Lemma cwd_read_nodes n i z : keeps w_cwd (read_nodes n i z).
Proof using.
  revert i. induction n as [|n IH]; intros i; cbn [read_nodes]; unfold topo_read_node_topology; keeps.
Qed.
Lemma cwd_read_cores n i : keeps w_cwd (read_cores n i).
Proof using.
  revert i. induction n as [|n IH]; intros i; cbn [read_cores]; unfold topo_new_core; keeps.
Qed.
Lemma cwd_read_irqs l : keeps w_cwd (read_irqs l).
Proof using.
  induction l as [|n l IH]; cbn [read_irqs]; unfold topo_parse_irq_info; keeps.
Qed.
Hint Resolve cwd_read_cpus cwd_read_nodes cwd_read_cores cwd_read_irqs : keeps.

(** ** Reading a device *)

Lemma cwd_upd_pcidev i k f : keeps w_cwd (upd_pcidev i k f).
Proof using. unfold upd_pcidev. keeps. Qed.
Lemma cwd_upd_smmu i k f : keeps w_cwd (upd_smmu i k f).
Proof using. unfold upd_smmu. keeps. Qed.
Hint Resolve cwd_upd_pcidev cwd_upd_smmu : keeps.
Lemma cwd_upd_irqs i k f : keeps w_cwd (upd_irqs i k f).
Proof using. apply cwd_upd_pcidev. Qed.
Lemma cwd_get_pcidev i k : keeps w_cwd (get_pcidev i k).
Proof using. unfold get_pcidev. keeps. Qed.
Hint Resolve cwd_upd_irqs cwd_get_pcidev : keeps.
Lemma cwd_find_irq_files names msi irq ret : keeps w_cwd (find_irq_files names msi irq ret).
Proof using.
  revert msi irq ret. induction names as [|n names IH]; intros; cbn [find_irq_files]; keeps.
Qed.
Hint Resolve cwd_find_irq_files : keeps.
Lemma cwd_device_irqs i k d : keeps w_cwd (topo_parse_device_irqs i k d).
Proof using. unfold topo_parse_device_irqs, topo_parse_msi_irq, topo_parse_irq. keeps. Qed.
Hint Resolve cwd_device_irqs : keeps.
Lemma cwd_pci_device d : keeps w_cwd (topo_parse_pci_device d).
Proof using.
  unfold topo_parse_pci_device, topo_parse_pci_numa_node, topo_parse_pci_info, topo_parse_pci_smmu,
    read_hex, read_numa_node.
  keeps.
Qed.
Lemma cwd_smmu d : keeps w_cwd (topo_parse_smmu d).
Proof using. unfold topo_parse_smmu, topo_parse_smmu_info, read_numa_node. keeps. Qed.
Hint Resolve cwd_pci_device cwd_smmu : keeps.
Lemma cwd_io_device d : keeps w_cwd (topo_parse_io_device d).
Proof using. unfold topo_parse_io_device, is_pci_device_dir. keeps. Qed.
Hint Resolve cwd_io_device : keeps.

(** ** The walk *)

Lemma cwd_io_entries walk names :
  (forall n, keeps w_cwd (walk n)) -> keeps w_cwd (io_entries walk names).
Proof using.
  intros Hw. induction names as [|n names IH]; cbn [io_entries]; keeps; apply Hw.
Qed.

Lemma chdir_inv p w u w' :
  (forall t, fs_chdir t p = true) -> chdir p w = Ok (u, w') -> w_cwd w' = p.
Proof using.
  intros Hp H. apply M_bind_inv in H as (ok & w1 & [= <- <-] & H). rewrite Hp in H.
  by injection H as <- <-.
Qed.

(** Where the walk over a directory ends. *)
Definition walk_end (root : cstring + path) (cwd : path) : path :=
  match root with inl _ => cwd | inr p => removelast p end.

Lemma walk_cwd (Hchdir : forall t p, fs_chdir t p = true) fuel root w r w' :
  topo_recursively_read_io_devices fuel root w = Ok (r, w') ->
  w_cwd w' = w_cwd w \/ w_cwd w' = walk_end root (w_cwd w).
Proof using.
  assert (Hc : forall p w u w', chdir p w = Ok (u, w') -> w_cwd w' = p)
    by (intros; by eapply chdir_inv).
  revert root w r w'. induction fuel as [|fuel IH]; intros root w r w' H; [done|].
  cbn [topo_recursively_read_io_devices] in H.
  apply M_bind_inv in H as (cwd & w1 & [= <- <-] & H).
  apply M_bind_inv in H as (entries & w1 & [= <- <-] & H).
  destruct (fs_list _ _) as [err|names]; [injection H as <- <-; by left|].
  apply M_bind_inv in H as ([] & w1 & E1%Hc & H).
  apply M_bind_inv in H as (ret & w2 & E2 & H).
  apply M_bind_inv in H as (cwd & w3 & [= <- <-] & H).
  apply M_bind_inv in H as ([] & w3 & E3%Hc & [= <- <-]).
  assert (E2' : w_cwd w2 = w_cwd w1).
  { revert E2. apply cwd_io_entries. intros n v a v' Hv. by destruct (IH _ _ _ _ Hv). }
  right. rewrite E3, E2', E1. destruct root as [name|p]; [apply removelast_last|done].
Qed.

(** ** [topo_init] *)

Definition home_or_sys (home : path) (w : world) : Prop :=
  w_cwd w = home \/ w_cwd w = [s2l "sys"%string].

Lemma maintains_home {A} home (m : M world A) : keeps w_cwd m -> maintains (home_or_sys home) m.
Proof using. intros Hm w a w' HP H. unfold home_or_sys. by rewrite (Hm w a w' H). Qed.

Lemma maintains_home_walk (Hchdir : forall t p, fs_chdir t p = true) home fuel :
  maintains (home_or_sys home) (topo_recursively_read_io_devices fuel (inr sysdev)).
Proof using.
  intros w r w' HP [E|E]%(walk_cwd Hchdir); unfold home_or_sys; rewrite E; [done|by right].
Qed.

Lemma maintains_home_steps (Hchdir : forall t p, fs_chdir t p = true) home : maintains (home_or_sys home) (
  or_return topo_alloc_cpu (
  or_return topo_alloc_node_map (
  or_return (topo_construct_cpu_topology (is_cpu_online_body (throw OutOfFuel))) (
  or_return topo_construct_numa_topology (
  or_return topo_construct_core_topology (
  or_return (topo_recursively_read_io_devices io_fuel (inr sysdev)) (
  env ← ask fs_env;
  if (env : bool) then topo_get_irq_info else mret 0))))))).
Proof using.
  repeat apply maintains_or_return; [apply maintains_home..|by apply maintains_home_walk|apply maintains_home].
  - unfold topo_alloc_cpu. keeps.
  - unfold topo_alloc_node_map, or_nomem. keeps.
  - unfold topo_construct_cpu_topology. keeps.
  - unfold topo_construct_numa_topology. keeps.
  - unfold topo_construct_core_topology. keeps.
  - unfold topo_get_irq_info. keeps.
Qed.

(** C24. The working directory after a first reading of the topology. When the
    process can go back to where it was, a reading that keeps a topology leaves it
    there, whatever became of the other changes of the directory. When every change
    of the directory succeeds, also a reading that fails, and gives the topology up,
    leaves the process either there or in [/sys]. *)
Theorem topo_init_cwd w w' :
  topo_init 0 w = Ok (tt, w') ->
  ((forall t, fs_chdir t (w_cwd w) = true) -> w_topo w' <> zero_topo -> w_cwd w' = w_cwd w) /\
  ((forall t p, fs_chdir t p = true) ->
   w_cwd w' = w_cwd w \/ (w_topo w' = zero_topo /\ w_cwd w' = [s2l "sys"%string])).
Proof using.
  intros H. cbn [topo_init] in H. unfold topo_init_body in H.
  apply M_bind_inv in H as (saved & w0 & [= _ <-] & H).
  apply M_bind_inv in H as (wd & w0 & [= <- <-] & H).
  apply M_bind_inv in H as ([] & w0 & [= <-] & H). apply M_bind_inv in H as (ret & w1 & H & Hend).
  destruct (Z.eqb_spec ret 0) as [->|Hne]; simpl in Hend.
  - destruct saved; [|done]. split; intros Hc; [intros _|left]; by eapply chdir_inv.
  - injection Hend as <-. split; [done|]. intros Hc.
    apply (maintains_home_steps Hc (w_cwd w) _ _ _) in H; [|by left].
    unfold home_or_sys in H. tsimpl. destruct H; [by left|by right].
Qed.
End cwd.

Module OnSmallMachine.
Import SmallMachine.

Lemma topo_init_cwd_witness :
  topo_init 0 start = Ok (tt, ready) /\ w_topo ready <> zero_topo /\ w_cwd ready = w_cwd start.
Proof.
  split; [apply ready_eq|]. split; [intros E; apply (f_equal tp_n_cpus) in E; done|].
  apply (proj1 (topo_init_cwd (F := files) start ready ready_eq)); [reflexivity|].
  intros E; apply (f_equal tp_n_cpus) in E; done.
Defined.

(** The same machine with [/proc/irq] missing, and with the variable set that makes
    [topo_init] read it. *)
Definition no_irqs : Sysfs := {|
  fs_open := fs_open; fs_text := fs_text; fs_reads := fs_reads; fs_list := fs_list;
  fs_irqs _ := inl (-2);
  fs_msi := fs_msi; fs_lstat := fs_lstat; fs_readlink := fs_readlink;
  fs_chdir := fs_chdir; fs_getcwd := fs_getcwd;
  fs_access := fs_access; fs_calloc := fs_calloc; fs_errno := fs_errno;
  fs_env _ := true
|}.

(** The process is left in [/sys]. *)
Example failed_init_cwd :
  w_cwd start = [s2l "root"%string] /\
  w_cwd (after (topo_init (F := no_irqs) 0 start)) = [s2l "sys"%string].
Proof. split; [done|]. vm_compute. reflexivity. Qed.
End OnSmallMachine.
