(* ===== verification/Mem.v ===== *)
(** * Memory policy

    [lib/mem.c]: the memory policy of the calling thread and the migration of the
    pages of a process. The system calls are a parameter of the model; the nodes
    come from the queries of the topology. *)

From S2P Require Import Prelude Bitops Cpuset Cstring Dynset Cpulist TopoState Topo TopoDev.
From S2P Require Import TopoInit TopoQuery.
From S2P Require Import TopoMachine TopoFrame.

(** [linux/mempolicy.h] *)
Definition MPOL_DEFAULT : Z := 0.
Definition MPOL_PREFERRED : Z := 1.
Definition MPOL_BIND : Z := 2.
Definition MPOL_INTERLEAVE : Z := 3.

Notation node_set_t := cpu_set_t.
Definition NODE_ZERO : node_set_t -> node_set_t := CPU_ZERO.
Definition NODE_SET : Z -> node_set_t -> node_set_t := CPU_SET.
Definition NODE_ISSET : Z -> node_set_t -> bool := CPU_ISSET.

(** The system calls on the state [K] of the kernel: an error number, or the
    result with what was written through the pointers. *)
Class MemKernel (K : Type) := {
  sys_set_mempolicy : Z -> option node_set_t -> Z -> K -> (Z + Z) * K;
  sys_get_mempolicy : Z -> node_set_t -> K -> (Z + (Z * Z * node_set_t)) * K;
  sys_migrate_pages : Z -> Z -> node_set_t -> node_set_t -> K -> (Z + Z) * K;
}.

Section mem.
Context `{F : Sysfs} {K : Type} `{MK : MemKernel K}.

(** The topology and the kernel. *)
Definition machine : Type := world * K.

Definition topo {A} (m : M world A) : M machine A := fun '(w, k) =>
  match m w with
  | Ok (a, w') => Ok (a, (w', k))
  | Fault f => Fault f
  end.

Definition syscall {A} (f : K -> A * K) : M machine A := fun '(w, k) =>
  let '(a, k') := f k in Ok (a, (w, k')).

(** The content of a set on the stack before it is written, and how often the
    topology may be read again. *)
Context (stack : node_set_t) (fuel : nat).

Definition set_mempolicy (mode : Z) (nodemask : option node_set_t) (maxnode : Z) : M machine Z :=
  r ← syscall (sys_set_mempolicy mode nodemask maxnode);
  mret (match r with inl errno => - errno | inr ret => ret end).

(** The result, the mode and the nodes. *)
Definition get_mempolicy (nodemask : node_set_t) (maxnode : Z)
    : M machine (Z * option Z * node_set_t) :=
  r ← syscall (sys_get_mempolicy maxnode nodemask);
  mret (match r with
        | inl errno => (- errno, None, nodemask)
        | inr (ret, mode, nodemask) => (ret, Some mode, nodemask)
        end).

Definition migrate_pages (pid maxnode : Z) (frommask tomask : node_set_t) : M machine Z :=
  r ← syscall (sys_migrate_pages pid maxnode frommask tomask);
  mret (match r with inl errno => - errno | inr ret => ret end).

Definition set_node_mask (node : Z) (mask : node_set_t) : node_set_t :=
  NODE_SET node (NODE_ZERO mask).

(** [wayca_sc_nodes_in_total() + 1] as an unsigned long *)
Definition maxnode_plus1 : M machine Z :=
  n ← topo wayca_sc_nodes_in_total; mret (to_ulong (n + 1)).

Definition wayca_sc_mem_interleave_in_package (package : Z) : M machine Z :=
  r ← topo (wayca_sc_package_node_mask fuel package sizeof_cpu_set_t (Some stack));
  if r.1 <? 0 then mret r.1 else
  n ← maxnode_plus1;
  ret ← set_mempolicy MPOL_INTERLEAVE r.2 n;
  mret (to_int ret).

Definition wayca_sc_mem_interleave_in_all : M machine Z :=
  r ← topo (wayca_sc_total_node_mask fuel sizeof_cpu_set_t (Some stack));
  if r.1 <? 0 then mret r.1 else
  n ← maxnode_plus1;
  ret ← set_mempolicy MPOL_INTERLEAVE r.2 n;
  mret (to_int ret).

Definition wayca_sc_mem_bind_node (node : Z) : M machine Z :=
  total ← topo wayca_sc_nodes_in_total;
  if (node <? 0) || (total <=? node) then mret (- EINVAL) else
  let mask := set_node_mask node stack in
  n ← maxnode_plus1;
  ret ← set_mempolicy MPOL_BIND (Some mask) n;
  mret (to_int ret).

Definition wayca_sc_mem_bind_package (package : Z) : M machine Z :=
  r ← topo (wayca_sc_package_node_mask fuel package sizeof_cpu_set_t (Some stack));
  if r.1 <? 0 then mret r.1 else
  n ← maxnode_plus1;
  ret ← set_mempolicy MPOL_BIND r.2 n;
  mret (to_int ret).

Definition wayca_sc_mem_unbind : M machine Z :=
  n ← topo wayca_sc_nodes_in_total;
  ret ← set_mempolicy MPOL_DEFAULT None (to_ulong n);
  mret (to_int ret).

(** The result and what [mask] points to. *)
Definition wayca_sc_get_mem_bind_nodes (maxnode : Z) (mask : node_set_t)
    : M machine (Z * node_set_t) :=
  r ← get_mempolicy mask maxnode;
  let '(ret, mode, mask) := r in
  let ret := to_int ret in
  if ret <? 0 then mret (ret, mask) else
  mode ← lift (match mode with Some mode => Ok mode | None => Fault Uninitialised end);
  mret (if negb (Z.land (to_uint mode) (Z.lor MPOL_BIND MPOL_INTERLEAVE) =? 0)
        then 0 else - ENODATA, mask).

(** [default]: the mask is there when the result is not negative. *)
Definition wayca_sc_mem_migrate_to_node (pid node : Z) : M machine Z :=
  r ← topo (wayca_sc_total_node_mask fuel sizeof_cpu_set_t (Some stack));
  if r.1 <? 0 then mret r.1 else
  let node_mask := set_node_mask node stack in
  n ← maxnode_plus1;
  migrate_pages pid n (default stack r.2) node_mask.

Definition wayca_sc_mem_migrate_to_package (pid package : Z) : M machine Z :=
  all ← topo (wayca_sc_total_node_mask fuel sizeof_cpu_set_t (Some stack));
  if all.1 <? 0 then mret all.1 else
  pack ← topo (wayca_sc_package_node_mask fuel package sizeof_cpu_set_t (Some stack));
  if pack.1 <? 0 then mret pack.1 else
  n ← maxnode_plus1;
  migrate_pages pid n (default stack all.2) (default stack pack.2).
End mem.

(** ** What the system calls promise

    The manual pages of set_mempolicy and get_mempolicy, for a machine with the
    nodes 0 to [nnodes] - 1, all of them available to the thread. *)
Class MemKernelOk (K : Type) `{MK : MemKernel K} (nnodes : Z) := {
  policy_mode : K -> Z;
  policy_nodes : K -> Z -> bool;
  km_set mode mask maxnode k :
    mode = MPOL_BIND \/ mode = MPOL_INTERLEAVE -> nnodes < maxnode ->
    (forall i, 0 <= i < CPU_SETSIZE -> NODE_ISSET i mask = true -> i < nnodes) ->
    (exists i, 0 <= i < CPU_SETSIZE /\ NODE_ISSET i mask = true) ->
    exists k', sys_set_mempolicy mode (Some mask) maxnode k = (inr 0, k') /\
      policy_mode k' = mode /\ forall i, 0 <= i < nnodes -> policy_nodes k' i = NODE_ISSET i mask;
  km_unset maxnode k :
    exists k', sys_set_mempolicy MPOL_DEFAULT None maxnode k = (inr 0, k') /\
      policy_mode k' = MPOL_DEFAULT;
  km_get maxnode mask k :
    nnodes <= maxnode <= CPU_SETSIZE ->
    exists mask', sys_get_mempolicy maxnode mask k = (inr (0, policy_mode k, mask'), k) /\
      forall i, 0 <= i < maxnode -> NODE_ISSET i mask' = (i <? nnodes) && policy_nodes k i;
}.

(** The thread is bound to or interleaved over the nodes of a set. *)
Definition policy_is `{MemKernelOk K nnodes} (k : K) (mode : Z) (mask : node_set_t) : Prop :=
  policy_mode k = mode /\ forall i, 0 <= i < nnodes -> policy_nodes k i = NODE_ISSET i mask.

Section laws.
Context `{F : Sysfs} `{MO : MemKernelOk K nnodes} (stack : node_set_t) (fuel : nat).
Context (HN : 1 <= nnodes <= CPU_SETSIZE).

Lemma nodes_total (w : world) (k : K) :
  tp_n_nodes (w_topo w) = nnodes -> topo wayca_sc_nodes_in_total (w, k) = Ok (nnodes, (w, k)).
Proof using HN MO.
  unfold CPU_SETSIZE in HN. intros E. unfold topo, wayca_sc_nodes_in_total.
  rewrite (M_bind_ok _ _ w _ w eq_refl), E. destruct (Z.ltb_spec nnodes 1); [lia|].
  unfold count, mret, M_ret. by rewrite to_int_id by lia.
Qed.

Lemma maxnode_ok (w : world) (k : K) :
  tp_n_nodes (w_topo w) = nnodes -> maxnode_plus1 (w, k) = Ok (nnodes + 1, (w, k)).
Proof using HN MO.
  intros E. unfold maxnode_plus1. rewrite (M_bind_ok _ _ _ _ _ (nodes_total w k E)).
  unfold mret, M_ret. rewrite to_ulong_id; [done|]. unfold is_word, CPU_SETSIZE in *. lia.
Qed.

(** The last steps of the four functions that set a policy. *)
Lemma set_policy_ok mode mask w k :
  tp_n_nodes (w_topo w) = nnodes ->
  mode = MPOL_BIND \/ mode = MPOL_INTERLEAVE ->
  (forall i, 0 <= i < CPU_SETSIZE -> NODE_ISSET i mask = true -> i < nnodes) ->
  (exists i, 0 <= i < CPU_SETSIZE /\ NODE_ISSET i mask = true) ->
  exists k',
    (n ← maxnode_plus1; ret ← set_mempolicy mode (Some mask) n; mret (to_int ret)) (w, k) =
      Ok (0, (w, k')) /\ policy_is k' mode mask.
Proof using HN MO.
  intros E Hmode Hsub Hne. destruct (km_set mode mask (nnodes + 1) k) as (k' & Hk & Hp); [done|lia|done..|].
  exists k'. split; [|done]. rewrite (M_bind_ok _ _ _ _ _ (maxnode_ok w k E)).
  unfold set_mempolicy, syscall, mbind, M_bind, mret, M_ret. by rewrite Hk.
Qed.

(** Asking for the policy. *)
Lemma get_nodes_ok maxnode mask mask0 mode w k :
  nnodes <= maxnode <= CPU_SETSIZE -> policy_is k mode mask0 ->
  exists mask',
    wayca_sc_get_mem_bind_nodes maxnode mask (w, k) =
      Ok (if negb (Z.land (to_uint mode) 3 =? 0) then 0 else - ENODATA, mask', (w, k)) /\
    forall i, 0 <= i < maxnode -> NODE_ISSET i mask' = (i <? nnodes) && NODE_ISSET i mask0.
Proof using MO.
  intros Hm [Hmode Hnodes]. destruct (km_get maxnode mask k Hm) as (mask' & Hk & Hbits).
  exists mask'. split.
  - unfold wayca_sc_get_mem_bind_nodes, get_mempolicy, syscall, mbind, M_bind, mret, M_ret.
    by rewrite Hk, Hmode.
  - intros i Hi. rewrite (Hbits i Hi). destruct (Z.ltb_spec i nnodes); [|done]. by rewrite Hnodes by lia.
Qed.

Lemma node_mask_ok node i :
  cpuset_wf stack -> 0 <= node < CPU_SETSIZE -> 0 <= i < CPU_SETSIZE ->
  NODE_ISSET i (set_node_mask node stack) = (i =? node).
Proof using MO.
  intros Hwf Hnode Hi. unfold NODE_ISSET, set_node_mask, NODE_SET, NODE_ZERO.
  rewrite CPU_ZERO_eq by done. rewrite CPU_ISSET_SET by (done || apply CPU_EMPTY_wf).
  by rewrite CPU_ISSET_EMPTY, orb_false_r.
Qed.

(** C31. Binding the memory of the thread to a node succeeds, and asking for the nodes
    gives that node and no other. *)
Theorem mem_bind_node_get node maxnode mask w k :
  cpuset_wf stack -> tp_n_nodes (w_topo w) = nnodes -> 0 <= node < nnodes -> nnodes <= maxnode <= CPU_SETSIZE ->
  exists k' mask',
    wayca_sc_mem_bind_node stack node (w, k) = Ok (0, (w, k')) /\
    wayca_sc_get_mem_bind_nodes maxnode mask (w, k') = Ok (0, mask', (w, k')) /\
    forall i, 0 <= i < maxnode -> NODE_ISSET i mask' = (i =? node).
Proof using HN MO.
  intros Hwf E Hnode Hmax.
  assert (Hbit : forall i, 0 <= i < CPU_SETSIZE ->
    NODE_ISSET i (set_node_mask node stack) = (i =? node))
    by (intros; apply node_mask_ok; [done|lia|done]).
  destruct (set_policy_ok MPOL_BIND (set_node_mask node stack) w k E) as (k' & Hset & Hp).
  { by left. }
  { intros i Hi. rewrite Hbit by done. intros ->%Z.eqb_eq. lia. }
  { exists node. rewrite Hbit by lia. split; [lia|apply Z.eqb_refl]. }
  destruct (get_nodes_ok maxnode mask _ _ w k' Hmax Hp) as (mask' & Hget & Hb).
  exists k', mask'. split; [|split; [done|]].
  - unfold wayca_sc_mem_bind_node. rewrite (M_bind_ok _ _ _ _ _ (nodes_total w k E)).
    destruct (Z.ltb_spec node 0); [lia|]. destruct (Z.leb_spec nnodes node); [lia|]. done.
  - intros i Hi. rewrite Hb, Hbit by lia. destruct (Z.ltb_spec i nnodes); [done|].
    symmetry. apply Z.eqb_neq. lia.
Qed.

(** A node that does not exist is rejected, and the kernel is not called. *)
Lemma mem_bind_node_rejects node w k :
  tp_n_nodes (w_topo w) = nnodes -> node < 0 \/ nnodes <= node ->
  wayca_sc_mem_bind_node stack node (w, k) = Ok (- EINVAL, (w, k)).
Proof using HN MO.
  intros E Hnode. unfold wayca_sc_mem_bind_node. rewrite (M_bind_ok _ _ _ _ _ (nodes_total w k E)).
  destruct (Z.ltb_spec node 0), (Z.leb_spec nnodes node); done || lia.
Qed.

(** The functions that take the nodes from the topology. *)
Lemma mem_mask_get (q : M world (Z * option node_set_t)) (f : M (@machine K) Z) mode m w w' k maxnode mask :
  (f = (r ← topo q; if r.1 <? 0 then mret r.1 else
        n ← maxnode_plus1; ret ← set_mempolicy mode r.2 n; mret (to_int ret))) ->
  mode = MPOL_BIND \/ mode = MPOL_INTERLEAVE ->
  q w = Ok (0, Some m, w') -> tp_n_nodes (w_topo w') = nnodes ->
  (forall i, 0 <= i < CPU_SETSIZE -> NODE_ISSET i m = true -> i < nnodes) ->
  (exists i, 0 <= i < CPU_SETSIZE /\ NODE_ISSET i m = true) -> nnodes <= maxnode <= CPU_SETSIZE ->
  exists k' mask',
    f (w, k) = Ok (0, (w', k')) /\
    wayca_sc_get_mem_bind_nodes maxnode mask (w', k') = Ok (0, mask', (w', k')) /\
    forall i, 0 <= i < maxnode -> NODE_ISSET i mask' = NODE_ISSET i m.
Proof using HN MO.
  intros -> Hmode Hq E Hsub Hne Hmax.
  destruct (set_policy_ok mode m w' k E Hmode Hsub Hne) as (k' & Hset & Hp).
  destruct (get_nodes_ok maxnode mask _ _ w' k' Hmax Hp) as (mask' & Hget & Hb).
  exists k', mask'. split; [|split].
  - rewrite (M_bind_ok _ _ (w, k) (0, Some m) (w', k)); [done|]. unfold topo. by rewrite Hq.
  - destruct Hmode as [-> | ->]; exact Hget.
  - intros i Hi. rewrite Hb by done. destruct (Z.ltb_spec i nnodes) as [|Hi']; [done|].
    destruct (NODE_ISSET i m) eqn:Ei; [|done]. apply Hsub in Ei; lia.
Qed.

(** Asking after the policy was reset. *)
Lemma mem_unbind_get maxnode mask w k :
  tp_n_nodes (w_topo w) = nnodes -> nnodes <= maxnode <= CPU_SETSIZE ->
  exists k' mask',
    wayca_sc_mem_unbind (w, k) = Ok (0, (w, k')) /\
    wayca_sc_get_mem_bind_nodes maxnode mask (w, k') = Ok (- ENODATA, mask', (w, k')).
Proof using HN MO.
  intros E Hmax. destruct (km_unset (to_ulong nnodes) k) as (k' & Hk & Hmode).
  destruct (km_get maxnode mask k' Hmax) as (mask' & Hget & _). exists k', mask'. split.
  - unfold wayca_sc_mem_unbind. rewrite (M_bind_ok _ _ _ _ _ (nodes_total w k E)).
    unfold set_mempolicy, syscall, mbind, M_bind, mret, M_ret. by rewrite Hk.
  - unfold wayca_sc_get_mem_bind_nodes, get_mempolicy, syscall, mbind, M_bind, mret, M_ret.
    by rewrite Hget, Hmode.
Qed.

(** A thread that only prefers a node is reported like one that is bound to it,
    not with -ENODATA. *)
Theorem mem_get_accepts_preferred maxnode mask w k :
  nnodes <= maxnode <= CPU_SETSIZE -> policy_mode k = MPOL_PREFERRED ->
  exists mask', wayca_sc_get_mem_bind_nodes maxnode mask (w, k) = Ok (0, mask', (w, k)).
Proof using MO.
  intros Hmax Hmode. destruct (km_get maxnode mask k Hmax) as (mask' & Hget & _). exists mask'.
  unfold wayca_sc_get_mem_bind_nodes, get_mempolicy, syscall, mbind, M_bind, mret, M_ret.
  by rewrite Hget, Hmode.
Qed.
End laws.

(** A kernel of a machine with two nodes: the mode and the two nodes. *)
Module TwoNodes.
#[local] Existing Instance SmallMachine.files.
Definition kernel : Type := Z * bool * bool.

Definition nodes_set (b0 b1 : bool) : node_set_t :=
  let s := if b1 then NODE_SET 1 CPU_EMPTY else CPU_EMPTY in
  if b0 then NODE_SET 0 s else s.

#[export] Instance calls : MemKernel kernel := {|
  sys_set_mempolicy mode mask maxnode k :=
    match mask with
    | Some mask => (inr 0, (mode, NODE_ISSET 0 mask, NODE_ISSET 1 mask))
    | None => (inr 0, (mode, false, false))
    end;
  sys_get_mempolicy maxnode mask k :=
    let '(mode, b0, b1) := k in (inr (0, mode, nodes_set b0 b1), k);
  sys_migrate_pages pid maxnode from to k := (inr 0, k)
|}.

Lemma nodes_set_bits b0 b1 i :
  0 <= i < CPU_SETSIZE ->
  NODE_ISSET i (nodes_set b0 b1) = ((i =? 0) && b0) || ((i =? 1) && b1).
Proof.
  intros Hi. unfold nodes_set, NODE_ISSET, NODE_SET.
  assert (CPU_SETSIZE = 1024) by done. pose proof CPU_EMPTY_wf.
  destruct b0, b1; rewrite ?CPU_ISSET_SET by (auto using CPU_SET_wf || lia);
    rewrite CPU_ISSET_EMPTY by done; by destruct (i =? 0), (i =? 1).
Qed.

#[export] Program Instance calls_ok : MemKernelOk kernel 2 := {|
  policy_mode k := k.1.1;
  policy_nodes k i := ((i =? 0) && k.1.2) || ((i =? 1) && k.2)
|}.
Next Obligation.
  intros mode mask maxnode k _ _ _ _. eexists. split; [done|]. split; [done|]. intros i Hi. simpl.
  assert (i = 0 \/ i = 1) as [-> | ->] by lia; simpl; by rewrite ?orb_false_r.
Qed.
Next Obligation. intros maxnode k. eexists. done. Qed.
Next Obligation.
  intros maxnode mask [[mode b0] b1] Hm. eexists. split; [done|]. intros i Hi.
  rewrite nodes_set_bits by lia. simpl. destruct (Z.ltb_spec i 2); [done|].
  destruct (Z.eqb_spec i 0), (Z.eqb_spec i 1); done || lia.
Qed.

Lemma mem_bind_node_get_witness :
  exists k' mask',
    wayca_sc_mem_bind_node CPU_EMPTY 1 (SmallMachine.ready, (MPOL_DEFAULT, false, false)) =
      Ok (0, (SmallMachine.ready, k')) /\
    wayca_sc_get_mem_bind_nodes 64 CPU_EMPTY (SmallMachine.ready, k') =
      Ok (0, mask', (SmallMachine.ready, k')) /\
    forall i, 0 <= i < 64 -> NODE_ISSET i mask' = (i =? 1).
Proof.
  apply (mem_bind_node_get (nnodes := 2) CPU_EMPTY); unfold CPU_SETSIZE;
    [lia|apply CPU_EMPTY_wf|reflexivity|lia|lia].
Defined.

Lemma mem_get_accepts_preferred_witness :
  policy_mode (nnodes := 2) (MPOL_PREFERRED, true, false) = MPOL_PREFERRED /\
  exists mask', wayca_sc_get_mem_bind_nodes 64 CPU_EMPTY
    (SmallMachine.ready, (MPOL_PREFERRED, true, false)) =
    Ok (0, mask', (SmallMachine.ready, (MPOL_PREFERRED, true, false))).
Proof.
  split; [done|]. apply (mem_get_accepts_preferred (nnodes := 2)); [unfold CPU_SETSIZE; lia|done].
Defined.

(** Interleaving over all nodes and over a package of the small machine. *)
Definition run {A} (m : M (@machine kernel) A) : option (A * kernel) :=
  match m (SmallMachine.ready, (MPOL_DEFAULT, false, false)) with
  | Ok (a, (_, k)) => Some (a, k)
  | Fault _ => None
  end.

Example interleave_all :
  run (wayca_sc_mem_interleave_in_all CPU_EMPTY 0) = Some (0, (MPOL_INTERLEAVE, true, true)).
Proof. vm_compute. reflexivity. Qed.
Example bind_package :
  run (wayca_sc_mem_bind_package CPU_EMPTY 0 0) = Some (0, (MPOL_BIND, true, true)).
Proof. vm_compute. reflexivity. Qed.
Example bind_no_package :
  run (wayca_sc_mem_bind_package CPU_EMPTY 0 1) = Some (- EINVAL, (MPOL_DEFAULT, false, false)).
Proof. vm_compute. reflexivity. Qed.
End TwoNodes.
