(* ===== verification/Managed.v ===== *)
(** * Managed threads

    [lib/managed_threads.c]: the threads of a program are bound according to a
    list such as [1,3@c1$1 2,4@n0-1$2] that comes from the environment. *)

From Stdlib Require Import Ascii String.
From S2P Require Import Prelude Bitops Cpuset Cstring State Group Affinity.

Definition MAX_MANAGED_MAPS : nat := 100.

Notation task_set_t := cpu_set_t.
Notation node_set_t := cpu_set_t.
Definition TASK_ISSET : Z -> task_set_t -> bool := CPU_ISSET.
Definition NODE_ISSET : Z -> node_set_t -> bool := CPU_ISSET.

Record task_cpu_map := mk_task_cpu_map {
  tm_tasks : task_set_t;
  tm_cpus : cpu_set_t;
  tm_nodes : node_set_t;
  tm_cpu_util : Z;
}.

(** What the topology component answers to [wayca_sc_nodes_in_total]. *)
Class NodesTotal := wayca_sc_nodes_in_total : Z.

(** The string before the first [c], and the one behind it. *)
Fixpoint cut (c : Z) (s : cstring) : cstring * option cstring :=
  match s with
  | [] => ([], None)
  | x :: s =>
    if code x =? c then ([], Some s)
    else let '(l, r) := cut c s in (x :: l, r)
  end.

Section managed.
Context `{T : Topology} `{NT : NodesTotal}.

(** [for (j = ...; j < cr_in_node; j++) CPU_SET(i * cr_in_node + j, cpu_mask)], [n]
    turns from [cpu] on *)
Fixpoint set_node_cpus (n : nat) (cpu : Z) (cpu_mask : cpu_set_t) : cpu_set_t :=
  match n with
  | O => cpu_mask
  | S n => set_node_cpus n (cpu + 1) (CPU_SET cpu cpu_mask)
  end.

(** The [n] nodes from [i] on. *)
Fixpoint nodemask_loop (n : nat) (i : Z) (node_mask : node_set_t) (cpu_mask : cpu_set_t)
    : cpu_set_t :=
  match n with
  | O => cpu_mask
  | S n =>
    nodemask_loop n (i + 1) node_mask
      (if negb (NODE_ISSET i node_mask) then cpu_mask
       else set_node_cpus (Z.to_nat wayca_sc_cpus_in_node) (i * wayca_sc_cpus_in_node) cpu_mask)
  end.

Definition nodemask_to_cpumask (node_mask : node_set_t) (cpu_mask : cpu_set_t) : cpu_set_t :=
  nodemask_loop (Z.to_nat wayca_sc_nodes_in_total) 0 node_mask (CPU_ZERO cpu_mask).

(** One element of the list: the strings before and behind the '@' into [m]. The
    strings behind a space were cut off. *)
Definition read_mapping (tasks target : cstring) (m : task_cpu_map)
    : outcome (Z * task_cpu_map) :=
  tasks ← list_to_mask wayca_sc_cpus_in_total tasks sizeof_cpu_set_t (tm_tasks m);
  let '(q, r) := cut 36 (* '$' *) target in
  let cpu_util := match r with
                  | Some r => to_int (strtoul 10 r).1.1
                  | None => tm_cpu_util m
                  end in
  let m := mk_task_cpu_map tasks.2 (tm_cpus m) (tm_nodes m) cpu_util in
  if char_at q =? 99 (* 'c' *) then
    cpus ← list_to_mask wayca_sc_cpus_in_total (advance q) sizeof_cpu_set_t (tm_cpus m);
    Ok (0, mk_task_cpu_map (tm_tasks m) cpus.2 (tm_nodes m) cpu_util)
  else if char_at q =? 110 (* 'n' *) then
    nodes ← list_to_mask wayca_sc_cpus_in_total (advance q) sizeof_cpu_set_t (tm_nodes m);
    Ok (0, mk_task_cpu_map (tm_tasks m) (nodemask_to_cpumask nodes.2 (tm_cpus m)) nodes.2 cpu_util)
  else Ok (-1, m).

(** [n] is [MAX_MANAGED_MAPS - i]. *)
Fixpoint to_task_cpu_map_loop (n i : nat) (p : option cstring) (maps : list task_cpu_map)
    : outcome (Z * list task_cpu_map) :=
  match n, p with
  | S n, Some p =>
    match cut 64 (* '@' *) p with
    | (_, None) => Ok (0, maps)
    | (tasks, Some q) =>
      match maps !! i with
      | None => Fault OutOfBounds
      | Some m =>
        let '(target, p) := cut 32 (* ' ' *) q in
        r ← read_mapping tasks target m;
        let maps := <[i := r.2]> maps in
        if negb (r.1 =? 0) then Ok (r.1, maps)
        else match p with
             | None => Ok (0, maps)
             | Some _ => to_task_cpu_map_loop n (S i) p maps
             end
      end
    end
  | _, _ => Ok (0, maps)
  end.

(** [cpu_list] is NULL or a string, which is overwritten. *)
Definition to_task_cpu_map (cpu_list : option cstring) (maps : list task_cpu_map)
    : outcome (Z * list task_cpu_map) :=
  to_task_cpu_map_loop MAX_MANAGED_MAPS 0 cpu_list maps.

(** ** Threads *)

(** [pthread_create] gives an error or a thread. *)
Inductive pt_event :=
  | PtCreate (thread : Z)
  | PtSetaffinity (thread : Z) (mask : cpu_set_t).

Class Pthreads := {
  pt_create : list pt_event -> Z + Z;
  pt_setaffinity : list pt_event -> Z -> cpu_set_t -> Z;
}.

(** The static array and the calls to the system. *)
Record managed := mk_managed {
  wayca_sc_cpu_maps : list task_cpu_map;
  mg_trace : list pt_event;
}.

Context `{PT : Pthreads}.

Definition wayca_managed_thread_init (env : option cstring) : M managed unit := fun s =>
  r ← to_task_cpu_map env (wayca_sc_cpu_maps s);
  Ok (tt, mk_managed r.2 (mg_trace s)).

(** The first of the maps from [i] on that has the task. *)
Fixpoint find_task (id : Z) (maps : list task_cpu_map) : option cpu_set_t :=
  match maps with
  | [] => None
  | m :: maps => if TASK_ISSET id (tm_tasks m) then Some (tm_cpus m) else find_task id maps
  end.

(** The result and the mask, when it is written. *)
Definition wayca_managed_thread_cpumask (id : Z) : M managed (Z * option cpu_set_t) :=
  maps ← gets wayca_sc_cpu_maps;
  mret (match find_task id (take MAX_MANAGED_MAPS maps) with
        | Some mask => (0, Some mask)
        | None => (-1, None)
        end).

Definition pt_emit (e : pt_event) : M managed unit :=
  modify (fun s => mk_managed (wayca_sc_cpu_maps s) (e :: mg_trace s)).

(** The result and the new thread. *)
Definition wayca_managed_thread_create (id : Z) : M managed (Z * option Z) :=
  tr ← gets mg_trace;
  match pt_create tr with
  | inl ret => mret (ret, None)
  | inr thread =>
    pt_emit (PtCreate thread);;
    r ← wayca_managed_thread_cpumask id;
    match r with
    | (0, Some mask) =>
      tr ← gets mg_trace;
      let err := pt_setaffinity tr thread mask in
      pt_emit (PtSetaffinity thread mask);;
      mret (0, Some thread)
    | _ => mret (0, Some thread)
    end
  end.

(** The [n] turns from [i] on: the threads. *)
Fixpoint managed_pool_loop (n : nat) (id : Z) : M managed (list Z) :=
  match n with
  | O => mret []
  | S n =>
    r ← wayca_managed_thread_create id;
    match r with
    | (0, Some thread) => rest ← managed_pool_loop n (id + 1); mret (thread :: rest)
    | _ => mret []
    end
  end.

(** The number of threads and the threads. *)
Definition wayca_managed_threadpool_create (id num : Z) : M managed (Z * list Z) :=
  if num <=? 0 then mret (-1, []) else
  threads ← managed_pool_loop (Z.to_nat num) id;
  mret (Z.of_nat (length threads), threads).
End managed.

(** ** What a list of mappings denotes *)

Inductive target :=
  | OnCpus (l : list item)
  | OnNodes (l : list item).

Record mapping := mk_mapping {
  mp_tasks : list item;
  mp_target : target;
  mp_util : option Z;
}.

Definition at_char : ascii := ascii_of_nat 64.
Definition space_char : ascii := ascii_of_nat 32.
Definition dollar : ascii := ascii_of_nat 36.

Definition target_items (t : target) : list item := match t with OnCpus l | OnNodes l => l end.
Definition target_char (t : target) : ascii :=
  match t with OnCpus _ => ascii_of_nat 99 | OnNodes _ => ascii_of_nat 110 end.

Definition print_target (mp : mapping) : cstring :=
  target_char (mp_target mp) :: print_list (target_items (mp_target mp)) ++
  match mp_util mp with Some u => dollar :: print_num 10 u | None => [] end.

Definition print_mapping (mp : mapping) : cstring :=
  print_list (mp_tasks mp) ++ at_char :: print_target mp.

Fixpoint print_mappings (l : list mapping) : cstring :=
  match l with
  | [] => []
  | [mp] => print_mapping mp
  | mp :: l => print_mapping mp ++ space_char :: print_mappings l
  end.

(** ** Cutting strings *)

Lemma cut_none c s : Forall (fun x => code x <> c) s -> cut c s = (s, None).
Proof.
  induction 1 as [|x s Hx _ IH]; [done|]. cbn [cut]. apply Z.eqb_neq in Hx. by rewrite Hx, IH.
Qed.

Lemma cut_some c s x rest :
  Forall (fun x => code x <> c) s -> code x = c -> cut c (s ++ x :: rest) = (s, Some rest).
Proof.
  intros Hs Hx. induction Hs as [|y s Hy _ IH]; cbn [cut app].
  - apply Z.eqb_eq in Hx. by rewrite Hx.
  - apply Z.eqb_neq in Hy. by rewrite Hy, IH.
Qed.

(** The characters of lists of numbers are between ',' and ':'. *)
Definition list_char (x : ascii) : Prop := 44 <= code x <= 58.

Lemma print_num_chars n : 0 <= n -> Forall list_char (print_num 10 n).
Proof.
  intros Hn. unfold print_num. apply Forall_fmap.
  apply (Forall_impl (fun d => 0 <= d < 10)); [by apply udigits_range|].
  intros d Hd. unfold list_char. simpl. rewrite digit_char_code by lia. destruct (Z.ltb_spec d 10); lia.
Qed.

Lemma print_item_chars it :
  0 <= item_start it -> 0 <= item_end it -> 0 <= item_stride it -> Forall list_char (print_item it).
Proof.
  intros Ha Hb Hk. assert (Hsep : list_char dash /\ list_char colon) by (repeat split; by vm_compute).
  destruct Hsep. destruct it; simpl in *; rewrite ?Forall_app, ?Forall_cons, ?Forall_app, ?Forall_cons;
    repeat split; try lia; by apply print_num_chars || apply H || apply H0.
Qed.

Lemma print_list_chars total l : Forall (item_ok total) l -> Forall list_char (print_list l).
Proof.
  induction 1 as [|it l [Hs He Hk] Hl IH]; [apply Forall_nil_2|].
  assert (Hit : Forall list_char (print_item it)) by (apply print_item_chars; lia).
  destruct l as [|it' l]; [done|]. cbn [print_list].
  apply Forall_app. split; [done|]. apply Forall_cons. split; [split; by vm_compute|done].
Qed.

Lemma list_char_ne c s : ~ (44 <= c <= 58) -> Forall list_char s -> Forall (fun x => code x <> c) s.
Proof. intros Hc Hs. apply (Forall_impl _ _ _ Hs). unfold list_char. intros x Hx. lia. Qed.

(** ** Nodes as CPUs *)

Section reading.
Context `{T : Topology} `{NT : NodesTotal}.
Context (Htotal : 0 < wayca_sc_cpus_in_total <= CPU_SETSIZE).
Context (Hnode : 0 < wayca_sc_cpus_in_node) (Hnodes : 0 <= wayca_sc_nodes_in_total).
Context (Hfit : wayca_sc_nodes_in_total * wayca_sc_cpus_in_node <= CPU_SETSIZE).

Lemma set_node_cpus_ok n cpu mask :
  0 <= cpu -> cpu + Z.of_nat n <= CPU_SETSIZE -> cpuset_wf mask ->
  cpuset_wf (set_node_cpus n cpu mask) /\
  forall c, 0 <= c < CPU_SETSIZE ->
    CPU_ISSET c (set_node_cpus n cpu mask) =
    ((cpu <=? c) && (c <? cpu + Z.of_nat n)) || CPU_ISSET c mask.
Proof using.
  revert cpu mask. induction n as [|n IH]; intros cpu mask H0 Hle Hw; cbn [set_node_cpus].
  - split; [done|]. intros c Hc. destruct (Z.leb_spec cpu c), (Z.ltb_spec c (cpu + Z.of_nat 0)); done || lia.
  - destruct (IH (cpu + 1) (CPU_SET cpu mask)) as [Hw' Hb]; [lia|lia|by apply CPU_SET_wf|].
    split; [done|]. intros c Hc. rewrite Hb, CPU_ISSET_SET by (done || lia).
    destruct (Z.leb_spec cpu c), (Z.leb_spec (cpu + 1) c), (Z.ltb_spec c (cpu + 1 + Z.of_nat n)),
      (Z.ltb_spec c (cpu + Z.of_nat (S n))), (Z.eqb_spec c cpu); done || lia.
Qed.

(** The CPUs of node [c / size] begin at a multiple of the size. *)
Lemma node_of_cpu size i c :
  0 < size -> ((i * size <=? c) && (c <? i * size + size)) = (c / size =? i).
Proof using.
  intros Hs. destruct (Z.leb_spec (i * size) c), (Z.ltb_spec c (i * size + size)),
    (Z.eqb_spec (c / size) i); try done; exfalso.
  - apply n. symmetry. apply (Z.div_unique _ _ _ (c - i * size)); lia.
  - subst i. pose proof (Z.mul_succ_div_gt c size Hs). lia.
  - subst i. pose proof (Z.mul_div_le c size Hs). lia.
  - subst i. pose proof (Z.mul_div_le c size Hs). lia.
Qed.

Lemma nodemask_loop_ok n i node_mask mask :
  0 <= i -> i + Z.of_nat n <= wayca_sc_nodes_in_total -> cpuset_wf mask ->
  cpuset_wf (nodemask_loop n i node_mask mask) /\
  forall c, 0 <= c < CPU_SETSIZE ->
    CPU_ISSET c (nodemask_loop n i node_mask mask) =
    ((i <=? c / wayca_sc_cpus_in_node) && (c / wayca_sc_cpus_in_node <? i + Z.of_nat n) &&
     NODE_ISSET (c / wayca_sc_cpus_in_node) node_mask) || CPU_ISSET c mask.
Proof using Hnode Hfit.
  revert i mask. induction n as [|n IH]; intros i mask Hi Hle Hw; cbn [nodemask_loop].
  - split; [done|]. intros c Hc.
    destruct (Z.leb_spec i (c / wayca_sc_cpus_in_node)),
      (Z.ltb_spec (c / wayca_sc_cpus_in_node) (i + Z.of_nat 0)); done || lia.
  - assert (Hfit' : i * wayca_sc_cpus_in_node + wayca_sc_cpus_in_node <= CPU_SETSIZE) by nia.
    destruct (set_node_cpus_ok (Z.to_nat wayca_sc_cpus_in_node) (i * wayca_sc_cpus_in_node) mask)
      as [Hw1 Hb1]; [nia|lia|done|].
    set (mask1 := if negb (NODE_ISSET i node_mask) then mask else _).
    assert (Hm1 : cpuset_wf mask1 /\ forall c, 0 <= c < CPU_SETSIZE -> CPU_ISSET c mask1 =
        (c / wayca_sc_cpus_in_node =? i) && NODE_ISSET i node_mask || CPU_ISSET c mask).
    { unfold mask1. destruct (NODE_ISSET i node_mask); cbn [negb].
      - split; [done|]. intros c Hc. rewrite Hb1 by done. rewrite Z2Nat.id by lia.
        by rewrite node_of_cpu, andb_true_r.
      - split; [done|]. intros c Hc. by rewrite andb_false_r. }
    destruct Hm1 as [Hwm Hbm]. destruct (IH (i + 1) mask1) as [Hw2 Hb2]; [lia|lia|done|].
    split; [done|]. intros c Hc. rewrite Hb2, Hbm by done.
    generalize (c / wayca_sc_cpus_in_node). intros q.
    destruct (Z.eqb_spec q i), (Z.leb_spec i q), (Z.leb_spec (i + 1) q),
      (Z.ltb_spec q (i + 1 + Z.of_nat n)), (Z.ltb_spec q (i + Z.of_nat (S n))); subst; done || lia.
Qed.

(** ** Reading a printed list *)

(** A mapping that the machine has room for. *)
Record mapping_ok (mp : mapping) : Prop := {
  mo_tasks : mp_tasks mp <> [] /\ Forall (item_ok wayca_sc_cpus_in_total) (mp_tasks mp);
  mo_target : target_items (mp_target mp) <> [] /\
    Forall (item_ok wayca_sc_cpus_in_total) (target_items (mp_target mp));
  mo_util : forall u, mp_util mp = Some u -> 0 <= u < 2 ^ 31;
}.

Definition target_covers (t : target) (c : Z) : bool :=
  match t with
  | OnCpus l => existsb (covers c) l
  | OnNodes l =>
    (c / wayca_sc_cpus_in_node <? wayca_sc_nodes_in_total) &&
    existsb (covers (c / wayca_sc_cpus_in_node)) l
  end.

Definition map_wf (m : task_cpu_map) : Prop :=
  cpuset_wf (tm_tasks m) /\ cpuset_wf (tm_cpus m) /\ cpuset_wf (tm_nodes m).

(** [m] holds what a mapping says. *)
Record map_matches (mp : mapping) (m : task_cpu_map) : Prop := {
  mm_tasks c : 0 <= c < CPU_SETSIZE -> TASK_ISSET c (tm_tasks m) = existsb (covers c) (mp_tasks mp);
  mm_cpus c : 0 <= c < CPU_SETSIZE -> CPU_ISSET c (tm_cpus m) = target_covers (mp_target mp) c;
  mm_util u : mp_util mp = Some u -> tm_cpu_util m = u;
}.

Lemma cut_target mp :
  mapping_ok mp ->
  cut 36 (print_target mp) =
  (target_char (mp_target mp) :: print_list (target_items (mp_target mp)),
   print_num 10 <$> mp_util mp).
Proof using.
  intros [_ [_ Ht] Hu]. unfold print_target.
  assert (Hc : Forall (fun x => code x <> 36)
      (target_char (mp_target mp) :: print_list (target_items (mp_target mp)))).
  { apply Forall_cons. split; [by destruct (mp_target mp); vm_compute|].
    apply list_char_ne; [lia|]. by eapply print_list_chars. }
  rewrite app_comm_cons. destruct (mp_util mp) as [u|]; [by apply cut_some|].
  rewrite app_nil_r. by apply cut_none.
Qed.

Lemma target_no_space mp : mapping_ok mp -> Forall (fun x => code x <> 32) (print_target mp).
Proof using.
  intros [_ [_ Ht] Hu]. unfold print_target. apply Forall_cons.
  split; [by destruct (mp_target mp); vm_compute|]. apply Forall_app. split.
  { apply list_char_ne; [lia|]. by eapply print_list_chars. }
  destruct (mp_util mp) as [u|]; [|apply Forall_nil_2]. apply Forall_cons. split; [by vm_compute|].
  apply list_char_ne; [lia|]. apply print_num_chars. by apply Hu.
Qed.

Lemma read_mapping_ok mp m :
  mapping_ok mp -> map_wf m ->
  exists m', read_mapping (print_list (mp_tasks mp)) (print_target mp) m = Ok (0, m') /\
    map_wf m' /\ map_matches mp m'.
Proof using Htotal Hnode Hnodes Hfit.
  intros Hok (W1 & W2 & W3). pose proof Hok as [[Hn1 Ht] [Hn2 Hl] Hu].
  destruct (list_to_mask_reads _ _ _ Htotal Hn1 Ht W1) as (tm & Htm & Wt & Bt).
  unfold read_mapping. rewrite Htm. obind. rewrite cut_target by done. cbv iota beta zeta.
  set (util := match print_num 10 <$> mp_util mp with Some r => _ | None => _ end).
  assert (Eutil : forall u, mp_util mp = Some u -> util = u).
  { unfold util. intros u Eu. rewrite Eu. simpl. apply tid_of_name. by apply Hu. }
  destruct (mp_target mp) as [l|l] eqn:Et; cbn [target_char target_items] in *.
  - change (char_at _ =? 99) with true. cbn [advance].
    destruct (list_to_mask_reads _ _ _ Htotal Hn2 Hl W2) as (cm & Hcm & Wc & Bc).
    cbn [tm_cpus tm_tasks tm_nodes]. rewrite Hcm. obind. eexists. split; [done|].
    split; [done|]. constructor; [done|by rewrite Et|done].
  - change (char_at _ =? 99) with false. change (char_at _ =? 110) with true. cbn [advance].
    destruct (list_to_mask_reads _ _ _ Htotal Hn2 Hl W3) as (nm & Hnm & Wn & Bn).
    cbn [tm_cpus tm_tasks tm_nodes]. rewrite Hnm. obind. eexists. split; [done|].
    unfold nodemask_to_cpumask. rewrite CPU_ZERO_eq by done.
    destruct (nodemask_loop_ok (Z.to_nat wayca_sc_nodes_in_total) 0 nm CPU_EMPTY) as [Ww Bw];
      [lia|lia|apply CPU_EMPTY_wf|].
    split; [done|]. constructor; [done| |done]. intros c Hc. rewrite Et. cbn [tm_cpus target_covers].
    rewrite Bw, CPU_ISSET_EMPTY, orb_false_r by done.
    assert (Hq : 0 <= c / wayca_sc_cpus_in_node <= c)
      by (split; [apply Z.div_pos; lia|apply Z.div_le_upper_bound; nia]).
    destruct (Z.leb_spec 0 (c / wayca_sc_cpus_in_node)); [|lia]. cbn [andb].
    rewrite Z2Nat.id, Z.add_0_l by lia. f_equal. apply Bn. lia.
Qed.

Lemma loop_reads l n i maps :
  l <> [] -> Forall mapping_ok l -> (length l <= n)%nat -> (i + n <= length maps)%nat ->
  Forall map_wf maps ->
  exists maps', to_task_cpu_map_loop n i (Some (print_mappings l)) maps = Ok (0, maps') /\
    length maps' = length maps /\
    (forall k mp, l !! k = Some mp -> exists m, maps' !! (i + k)%nat = Some m /\ map_matches mp m) /\
    (forall k, (k < i)%nat \/ (i + length l <= k)%nat -> maps' !! k = maps !! k).
Proof using Htotal Hnode Hnodes Hfit.
  intros Hne Hl. revert n i maps. induction Hl as [|mp l Hmp Hl IH]; [done|].
  intros n i maps Hn Hi Hw. destruct n as [|n]; [simpl in Hn; lia|].
  destruct (lookup_lt_is_Some_2 maps i) as [m Em]; [lia|].
  destruct (read_mapping_ok mp m Hmp) as (m' & Hread & Hw' & Hm'); [by apply (Forall_lookup_1 _ _ _ _ Hw Em)|].
  assert (Htasks : Forall (fun x => code x <> 64) (print_list (mp_tasks mp))).
  { apply list_char_ne; [lia|]. eapply print_list_chars. apply Hmp. }
  set (rest := match l with [] => None | _ => Some (print_mappings l) end).
  assert (Hp : cut 64 (print_mappings (mp :: l)) =
    (print_list (mp_tasks mp), Some (print_target mp ++
       match rest with Some r => space_char :: r | None => [] end))).
  { unfold rest. destruct l as [|mp' l']; cbn [print_mappings]; unfold print_mapping.
    - rewrite app_nil_r. by apply cut_some.
    - rewrite <- app_assoc. by apply cut_some. }
  assert (Hs : cut 32 (print_target mp ++ match rest with Some r => space_char :: r | None => [] end) =
    (print_target mp, rest)).
  { pose proof (target_no_space mp Hmp). destruct rest; [by apply cut_some|].
    rewrite app_nil_r. by apply cut_none. }
  cbn [to_task_cpu_map_loop]. rewrite Hp, Em, Hs, Hread. obind. cbn [snd fst Z.eqb negb].
  assert (Hhead : forall maps' : list task_cpu_map, maps' !! i = Some m' ->
      exists m, maps' !! (i + 0)%nat = Some m /\ map_matches mp m)
    by (intros maps' E; exists m'; by rewrite Nat.add_0_r).
  assert (Ei : <[i:=m']> maps !! i = Some m') by (apply list_lookup_insert_eq; lia).
  unfold rest. destruct l as [|mp2 l'].
  - exists (<[i := m']> maps). split; [done|]. rewrite length_insert. split; [done|]. split.
    + intros [|k] mp'; [intros [= <-]; by apply Hhead|done].
    + intros k Hk. apply list_lookup_insert_ne. simpl in Hk. lia.
  - destruct (IH ltac:(done) n (S i) (<[i := m']> maps)) as (maps' & Hrun & Hlen & Hin & Hout).
    { simpl in *. lia. } { rewrite length_insert. lia. } { by apply Forall_insert. }
    exists maps'. split; [done|]. rewrite length_insert in Hlen. split; [done|]. split.
    + intros [|k] mp'; [intros [= <-]; apply Hhead; rewrite Hout by lia; done|].
      intros E. rewrite <- Nat.add_succ_comm. by apply Hin.
    + intros k Hk. simpl in Hk. rewrite Hout by (simpl; lia). apply list_lookup_insert_ne. lia.
Qed.

(** ** From the environment to the threads *)

Definition zero_map : task_cpu_map := mk_task_cpu_map CPU_EMPTY CPU_EMPTY CPU_EMPTY 0.

(** The state in which a program starts. *)
Definition managed_start : managed := mk_managed (replicate MAX_MANAGED_MAPS zero_map) [].

Definition mapping_of (id : Z) (l : list mapping) : option mapping :=
  List.find (fun mp => existsb (covers id) (mp_tasks mp)) l.

Lemma find_task_ok id l maps :
  0 <= id < CPU_SETSIZE ->
  (forall k mp, l !! k = Some mp -> exists m, maps !! k = Some m /\ map_matches mp m) ->
  (forall k m, (length l <= k)%nat -> maps !! k = Some m -> m = zero_map) ->
  match mapping_of id l with
  | Some mp => exists mask, find_task id maps = Some mask /\
      forall c, 0 <= c < CPU_SETSIZE -> CPU_ISSET c mask = target_covers (mp_target mp) c
  | None => find_task id maps = None
  end.
Proof using.
  intros Hid. revert maps. induction l as [|mp l IH]; intros maps Hin Hout; cbn [mapping_of List.find].
  - induction maps as [|m maps IHm]; [done|]. cbn [find_task].
    rewrite (Hout O m) by (simpl; done || lia). cbn [tm_tasks zero_map]. unfold TASK_ISSET.
    rewrite CPU_ISSET_EMPTY by done. apply IHm; [done|]. intros k m' _ E. apply (Hout (S k)); [simpl; lia|done].
  - destruct (Hin O mp eq_refl) as (m & Em & [Ht Hc _]). destruct maps as [|m0 maps]; [done|].
    injection Em as ->. cbn [find_task]. rewrite Ht by done.
    destruct (existsb (covers id) (mp_tasks mp)); [by exists (tm_cpus m)|].
    apply IH; [intros k mp' E; by apply (Hin (S k))|].
    intros k m' Hk E. apply (Hout (S k)); [simpl; lia|done].
Qed.

(** What a program finds when its environment holds a printed list: a thread is
    given the CPUs of the first mapping that names it. *)
Definition mask_of (id : Z) (l : list mapping) (r : Z * option cpu_set_t) : Prop :=
  match mapping_of id l with
  | Some mp => exists mask, r = (0, Some mask) /\
      forall c, 0 <= c < CPU_SETSIZE -> CPU_ISSET c mask = target_covers (mp_target mp) c
  | None => r = (-1, None)
  end.

Lemma init_reads l :
  l <> [] -> Forall mapping_ok l -> (length l <= MAX_MANAGED_MAPS)%nat ->
  exists s, wayca_managed_thread_init (Some (print_mappings l)) managed_start = Ok (tt, s) /\
    mg_trace s = [] /\
    forall id tr, 0 <= id < CPU_SETSIZE ->
      exists r, wayca_managed_thread_cpumask id (mk_managed (wayca_sc_cpu_maps s) tr) =
        Ok (r, mk_managed (wayca_sc_cpu_maps s) tr) /\ mask_of id l r.
Proof using Htotal Hnode Hnodes Hfit.
  intros Hne Hl Hlen.
  destruct (loop_reads l MAX_MANAGED_MAPS 0 (replicate MAX_MANAGED_MAPS zero_map))
    as (maps & Hrun & Hlm & Hin & Hout); [done|done|done|by rewrite length_replicate| |].
  { apply Forall_replicate. split; [|split]; apply CPU_EMPTY_wf. }
  rewrite length_replicate in Hlm. exists (mk_managed maps []). split.
  { unfold wayca_managed_thread_init, to_task_cpu_map. cbn [wayca_sc_cpu_maps managed_start].
    rewrite Hrun. done. }
  split; [done|]. intros id tr Hid. eexists. split; [reflexivity|]. cbn [wayca_sc_cpu_maps].
  rewrite take_ge by lia. unfold mask_of.
  pose proof (find_task_ok id l maps Hid Hin) as Hfind.
  destruct (mapping_of id l) as [mp|].
  - destruct Hfind as (mask & -> & Hb); [|by exists mask].
    intros k m Hk E. rewrite Hout in E by (right; lia).
    by apply lookup_replicate in E as [-> _].
  - rewrite Hfind; [done|]. intros k m Hk E. rewrite Hout in E by (right; lia).
    by apply lookup_replicate in E as [-> _].
Qed.

(** C28. A list of mappings that the environment passes to a program is read back: a
    managed thread is given exactly the CPUs (the CPUs of the nodes) of the first
    mapping that names it, and a thread that none names is refused. There is room for
    the mappings, and each is one that the library accepts ([mapping_ok]): the
    numbers of its tasks, CPUs and nodes are below the number of CPUs, and strides
    are below half of it. *)
Theorem managed_cpumask_of_env l id :
  l <> [] -> Forall mapping_ok l -> (length l <= MAX_MANAGED_MAPS)%nat -> 0 <= id < CPU_SETSIZE ->
  exists s r,
    wayca_managed_thread_init (Some (print_mappings l)) managed_start = Ok (tt, s) /\
    wayca_managed_thread_cpumask id s = Ok (r, s) /\ mask_of id l r.
Proof using Htotal Hnode Hnodes Hfit.
  intros Hne Hl Hlen Hid. destruct (init_reads l Hne Hl Hlen) as (s & Hinit & Htr & Hget).
  destruct (Hget id (mg_trace s) Hid) as (r & Hr & Hm). exists s, r. by destruct s.
Qed.

(** ** Pools *)

Context `{PT : Pthreads}.

(** The calls for a thread: it is created and, when a mapping names it, bound. *)
Definition create_events (maps : list task_cpu_map) (id thread : Z) : list pt_event :=
  match find_task id (take MAX_MANAGED_MAPS maps) with
  | Some mask => [PtCreate thread; PtSetaffinity thread mask]
  | None => [PtCreate thread]
  end.

Fixpoint pool_events (maps : list task_cpu_map) (id : Z) (threads : list Z) : list pt_event :=
  match threads with
  | [] => []
  | thread :: threads => create_events maps id thread ++ pool_events maps (id + 1) threads
  end.

Lemma thread_create_ok id maps tr :
  match pt_create tr with
  | inl ret => wayca_managed_thread_create id (mk_managed maps tr) = Ok (ret, None, mk_managed maps tr)
  | inr thread =>
    wayca_managed_thread_create id (mk_managed maps tr) =
    Ok (0, Some thread, mk_managed maps (rev (create_events maps id thread) ++ tr))
  end.
Proof using.
  unfold wayca_managed_thread_create, gets, mbind, M_bind. cbv beta iota. cbn [mg_trace].
  destruct (pt_create tr) as [ret|thread]; [done|].
  unfold wayca_managed_thread_cpumask, pt_emit, gets, modify, mret, M_ret, mbind, M_bind, create_events.
  cbv beta iota. cbn [wayca_sc_cpu_maps mg_trace].
  by destruct (find_task id (take MAX_MANAGED_MAPS maps)).
Qed.

Lemma pool_loop_ok n id maps tr :
  (forall tr ret, pt_create tr = inl ret -> ret <> 0) ->
  exists threads, (length threads <= n)%nat /\
    managed_pool_loop n id (mk_managed maps tr) =
      Ok (threads, mk_managed maps (rev (pool_events maps id threads) ++ tr)) /\
    ((length threads < n)%nat -> exists ret, pt_create (rev (pool_events maps id threads) ++ tr) = inl ret).
Proof using.
  intros Hret. revert id tr. induction n as [|n IH]; intros id tr; cbn [managed_pool_loop].
  { exists []. split; [done|]. split; [done|]. simpl. lia. }
  pose proof (thread_create_ok id maps tr) as Hc. destruct (pt_create tr) as [ret|thread] eqn:E.
  - exists []. split; [simpl; lia|]. rewrite (M_bind_ok _ _ _ _ _ Hc). split; [|by eauto].
    pose proof (Hret _ _ E). by destruct ret.
  - destruct (IH (id + 1) (rev (create_events maps id thread) ++ tr)) as (threads & Hlen & Hrun & Hstop).
    exists (thread :: threads). split; [simpl; lia|].
    cbn [pool_events]. rewrite rev_app_distr, <- app_assoc. split; [|simpl; intros; apply Hstop; lia].
    rewrite (M_bind_ok _ _ _ _ _ Hc). cbv iota beta. by rewrite (M_bind_ok _ _ _ _ _ Hrun).
Qed.

(** A pool of managed threads: the threads are created one after the other until
    one cannot be created, the result is their number, and each is bound right
    after its creation to the CPUs that the maps give to its identifier. *)
Theorem managed_pool_binds id num maps tr :
  (forall tr ret, pt_create tr = inl ret -> ret <> 0) -> 0 < num ->
  exists threads,
    wayca_managed_threadpool_create id num (mk_managed maps tr) =
      Ok (Z.of_nat (length threads), threads, mk_managed maps (rev (pool_events maps id threads) ++ tr)) /\
    Z.of_nat (length threads) <= num /\
    (Z.of_nat (length threads) < num ->
     exists ret, pt_create (rev (pool_events maps id threads) ++ tr) = inl ret).
Proof using.
  intros Hret Hnum. destruct (pool_loop_ok (Z.to_nat num) id maps tr Hret) as (threads & Hlen & Hrun & Hstop).
  exists threads. split; [|split; [lia|intros; apply Hstop; lia]].
  unfold wayca_managed_threadpool_create. destruct (Z.leb_spec num 0); [lia|].
  by rewrite (M_bind_ok _ _ _ _ _ Hrun).
Qed.
End reading.

(** ** Examples *)

(** A machine of eight CPUs in two nodes, with the mappings of the example
    configuration of the repository. *)
Module EightCpus.
#[local] Instance machine : Topology := {|
  wayca_sc_cpus_in_ccl := 4; wayca_sc_cpus_in_node := 4;
  wayca_sc_cpus_in_package := 8; wayca_sc_cpus_in_total := 8
|}.
#[local] Instance nodes : NodesTotal := 2.
#[local] Instance threads : Pthreads := {|
  pt_create tr := if (length tr <? 3)%nat then inr (100 + Z.of_nat (length tr)) else inl 11;
  pt_setaffinity _ _ _ := 0
|}.

Definition example : list mapping :=
  [mk_mapping [One 1] (OnCpus [One 1]) (Some 1); mk_mapping [One 2] (OnNodes [One 0]) (Some 1);
   mk_mapping [Range 3 7] (OnCpus [Range 5 7]) (Some 3)].

Example example_text : print_mappings example = s2l "1@c1$1 2@n0$1 3-7@c5-7$3"%string.
Proof. vm_compute. reflexivity. Qed.

Lemma example_ok : Forall mapping_ok example.
Proof.
  unfold example. repeat (apply Forall_cons; split); [..|apply Forall_nil_2]; constructor;
    cbn [mp_tasks mp_target mp_util target_items]; try (intros u [= <-]; lia);
    (split; [done|]; repeat (apply Forall_cons; split); [..|apply Forall_nil_2]); constructor;
    change (Z.quot wayca_sc_cpus_in_total 2) with 4; cbn; lia.
Qed.

Lemma managed_cpumask_of_env_witness :
  exists s r, wayca_managed_thread_init (Some (print_mappings example)) managed_start = Ok (tt, s) /\
    wayca_managed_thread_cpumask 2 s = Ok (r, s) /\ mask_of 2 example r.
Proof.
  apply managed_cpumask_of_env; unfold CPU_SETSIZE;
    [cbn; lia|cbn; lia|unfold wayca_sc_nodes_in_total, nodes; lia
    |unfold wayca_sc_nodes_in_total, nodes; cbn; lia|discriminate|apply example_ok
    |cbn; unfold MAX_MANAGED_MAPS; lia|lia].
Defined.

Lemma managed_pool_binds_witness :
  exists threads,
    wayca_managed_threadpool_create 3 4 managed_start =
      Ok (Z.of_nat (length threads), threads,
          mk_managed (wayca_sc_cpu_maps managed_start)
            (rev (pool_events (wayca_sc_cpu_maps managed_start) 3 threads))) /\
    Z.of_nat (length threads) < 4.
Proof.
  destruct (managed_pool_binds 3 4 (wayca_sc_cpu_maps managed_start) []) as (threads & Hrun & Hle & _).
  - intros tr ret H. unfold pt_create, threads in H. destruct (length tr <? 3)%nat; [done|].
    by injection H as <-.
  - lia.
  - exists threads. rewrite app_nil_r in Hrun. split; [exact Hrun|].
    apply (f_equal (fun o => match o with Ok (_, l, _) => l | Fault _ => [] end)) in Hrun.
    vm_compute in Hrun. subst threads. vm_compute. reflexivity.
Defined.
End EightCpus.
