(* ===== verification/Library.v ===== *)
(** * Loading the library

    The constructors and destructors of the library run in the order of their
    priorities ([WAYCA_SC_INIT_PRIO] and [WAYCA_SC_FINI_PRIO] of [lib/common.h]),
    whatever the order in which the files were linked. Here the components that
    were verified on their own are put together: the topology is read, the
    scheduler starts on it, and the managed threads are read from the
    environment. *)

From stdpp Require Import sorting.
From S2P Require Import Prelude Bitops Cpuset Cstring State Group Placement Accounting Members.
From S2P Require Import Threads.
From S2P Require Import Lifecycle Affinity TopoState Topo TopoInit TopoQuery TopoMachine TopoInterface.
From S2P Require Import Managed.

Definition WAYCA_SC_PRIO_TOPO : Z := 101.
Definition WAYCA_SC_PRIO_THREAD : Z := 120.
Definition WAYCA_SC_PRIO_LAST : Z := 65535.

(** The static variables of the library, by component. *)
Record library := mk_library {
  lb_world : world;
  lb_sched : sched;
  lb_managed : managed;
}.

(** What [secure_getenv] returns for the variables of the library. *)
Record environment := mk_environment {
  env_managed_threads : option cstring;
  env_threads_number : option cstring;
  env_groups_number : option cstring;
  env_threadpools_number : option cstring;
}.

Definition nodes_of (w : world) : NodesTotal := answer TopoQuery.wayca_sc_nodes_in_total w.

(** ** Constructors and destructors *)

Definition on_world (m : M world unit) : M library unit := fun s =>
  match m (lb_world s) with
  | Ok (_, w) => Ok (tt, mk_library w (lb_sched s) (lb_managed s))
  | Fault f => Fault f
  end.

(** The scheduler sees the topology that was read before. *)
Definition on_scheduler (m : Topology -> M sched unit) : M library unit := fun s =>
  match m (topology_of (lb_world s)) (lb_sched s) with
  | Ok (_, sc) => Ok (tt, mk_library (lb_world s) sc (lb_managed s))
  | Fault f => Fault f
  end.

Definition on_managed (m : Topology -> NodesTotal -> M managed unit) : M library unit := fun s =>
  match m (topology_of (lb_world s)) (nodes_of (lb_world s)) (lb_managed s) with
  | Ok (_, mg) => Ok (tt, mk_library (lb_world s) (lb_sched s) mg)
  | Fault f => Fault f
  end.

(** A function and its priority. *)
#[local] Notation hook := (Z * M library unit)%type.

Section library.
Context `{F : Sysfs} `{Sys : System} (fuel : nat) (e : environment).

Definition topo_constructor : hook := (WAYCA_SC_PRIO_TOPO, on_world (topo_init fuel)).
Definition thread_constructor : hook :=
  (WAYCA_SC_PRIO_THREAD, on_scheduler (fun _ => wayca_thread_init (env_threads_number e)
     (env_groups_number e) (env_threadpools_number e))).
Definition managed_constructor : hook :=
  (WAYCA_SC_PRIO_LAST, on_managed (fun _ _ => wayca_managed_thread_init (env_managed_threads e))).

Definition topo_destructor : hook := (WAYCA_SC_PRIO_TOPO, on_world topo_free).
Definition thread_destructor : hook :=
  (WAYCA_SC_PRIO_THREAD, on_scheduler (fun _ => wayca_thread_exit)).

(** In the order of the names of the files. *)
Definition constructors : list hook := [managed_constructor; thread_constructor; topo_constructor].
Definition destructors : list hook := [thread_destructor; topo_destructor].

Definition earlier : relation hook := fun a b => a.1 <= b.1.

#[global] Instance earlier_dec : RelDecision earlier.
Proof. intros a b. unfold earlier. apply _. Defined.

Fixpoint run_hooks (hooks : list hook) : M library unit :=
  match hooks with
  | [] => mret tt
  | h :: hooks => h.2;; run_hooks hooks
  end.

(** What the loader does with the hooks of the object files, in the order of linking:
    constructors by rising priority, destructors by falling priority. *)
Definition load (hooks : list hook) : M library unit := run_hooks (merge_sort earlier hooks).
Definition unload (hooks : list hook) : M library unit := run_hooks (rev (merge_sort earlier hooks)).
End library.

(** ** The order of linking does not matter *)

#[global] Instance earlier_total : Total earlier.
Proof. intros a b. unfold earlier. lia. Qed.

#[global] Instance earlier_trans : Transitive earlier.
Proof. intros a b c. unfold earlier. lia. Qed.

(** Hooks with different priorities have one order. *)
Lemma sorted_hooks (l hooks : list hook) :
  NoDup l.*1 -> Sorted earlier l -> hooks ≡ₚ l -> merge_sort earlier hooks = l.
Proof.
  intros Hnd Hs Hp. 
  assert (Hm : merge_sort earlier hooks ≡ₚ l) by (by rewrite merge_sort_Permutation).
  apply (Sorted_unique_strong earlier); [|apply (Sorted_merge_sort earlier)|done|done].
  intros a b Ha Hb Hab Hba. rewrite Hm in Ha.
  assert (Hk : a.1 = b.1) by (unfold earlier in *; lia).
  apply list_elem_of_lookup in Ha as [i Hi], Hb as [j Hj].
  assert (i = j) as <-; [|congruence].
  apply (NoDup_lookup l.*1 i j a.1); [done| |].
  - by rewrite list_lookup_fmap, Hi.
  - by rewrite list_lookup_fmap, Hj, Hk.
Qed.

(** ** The library at work *)

Section loaded.
Context `{F : Sysfs} `{Sys : System} (fuel : nat) (e : environment).

(** Whatever the order of linking, the topology is read first, the scheduler starts
    next, and the managed threads are read last. *)
Lemma load_order hooks s :
  hooks ≡ₚ constructors fuel e -> load hooks s = run_hooks (rev (constructors fuel e)) s.
Proof using.
  intros Hp. unfold load. rewrite (sorted_hooks (rev (constructors fuel e))); [done| | |].
  - apply (bool_decide_unpack _). by vm_compute.
  - apply (bool_decide_unpack _). by vm_compute.
  - by rewrite <- Permutation_rev.
Qed.

Lemma unload_order hooks s :
  hooks ≡ₚ destructors -> unload hooks s = run_hooks destructors s.
Proof using.
  intros Hp. unfold unload. rewrite (sorted_hooks (rev destructors)); [by rewrite rev_involutive| | |].
  - apply (bool_decide_unpack _). by vm_compute.
  - apply (bool_decide_unpack _). by vm_compute.
  - by rewrite <- Permutation_rev.
Qed.

(** The state in which the process starts. *)
Definition unloaded (w : world) : library := mk_library w start_state managed_start.

(** The topology that the constructors of the other components find. *)
Lemma regular_nodes w :
  regular (w_topo w) -> 1 <= tp_n_nodes (w_topo w) ->
  0 < State.wayca_sc_cpus_in_node (Topology := topology_of w) /\
  nodes_of w = tp_n_nodes (w_topo w) /\
  nodes_of w * State.wayca_sc_cpus_in_node (Topology := topology_of w) = tp_n_cpus (w_topo w).
Proof using.
  intros Hreg Hn. pose proof (rg_cpus _ Hreg) as Hc. destruct (rg_nodes _ Hreg) as [size Hp].
  destruct (parts_level _ _ _ Hc Hn Hp) as [E _]. destruct Hp as [?|[Hs Ht]]; [lia|].
  unfold CPU_SETSIZE in Hc.
  assert (Hnode : State.wayca_sc_cpus_in_node (Topology := topology_of w) = size).
  { cbn. unfold answer, TopoQuery.wayca_sc_cpus_in_node. rewrite (M_bind_ok _ _ w _ w eq_refl).
    destruct (Z.ltb_spec (tp_n_nodes (w_topo w)) 1); [lia|]. exact E. }
  assert (Hnodes : nodes_of w = tp_n_nodes (w_topo w)).
  { unfold nodes_of, answer, TopoQuery.wayca_sc_nodes_in_total. rewrite (M_bind_ok _ _ w _ w eq_refl).
    destruct (Z.ltb_spec (tp_n_nodes (w_topo w)) 1); [lia|]. unfold count. cbn. apply to_int_id. nia. }
  rewrite Hnode, Hnodes. split; [done|]. split; [done|lia].
Qed.

Lemma number_positive p def : 0 < def -> 0 < wayca_thread_init_from_envs p def.
Proof using.
  intros Hd. unfold wayca_thread_init_from_envs. destruct p as [p|]; [|done].
  pose proof (strtoul_nonneg 10 p ltac:(lia)) as Hr. destruct (strtoul 10 p) as [[num erange] rest].
  destruct erange; [done|]. unfold is_env_invalid. cbn [orb].
  destruct (Z.eqb_spec num 0); [done|]. cbn [orb]. destruct (ULONG_MAX / 8 <=? num); [done|].
  cbn in Hr. lia.
Qed.

Lemma first_id {A} (get_id : A -> Z) array :
  table_ok get_id array ∅ -> (0 < length array)%nat -> find_free_id 0 array = Some 0.
Proof using.
  intros Ht Hl. destruct array as [|[p|] array]; [cbn in Hl; lia| |done].
  destruct (tb_live _ _ _ Ht O p eq_refl) as (x & Hx & _). by rewrite lookup_empty in Hx.
Qed.

(** C8. Loading the library, whatever the order in which its files were linked, on a
    machine whose topology is read and found [regular] (levels of one size, a node or
    more), with memory for every allocation of the scheduler: the scheduler starts
    in a state that satisfies its invariant, on exactly the CPUs that the topology
    found, with the interface to the topology that its theorems assume
    ([TopologyOk], which follows from the regularity); the first group that is
    created owns all of these CPUs and is well formed; and the threads that the
    environment names, in mappings of the form [mapping_ok], are given the CPUs of
    their mappings. *)
Theorem library_load hooks w0 w mps :
  let T := topology_of w in
  hooks ≡ₚ constructors fuel e -> topo_init fuel w0 = Ok (tt, w) -> regular (w_topo w) ->
  1 <= tp_n_nodes (w_topo w) -> (forall tr what, sys_malloc tr what = true) ->
  env_managed_threads e = Some (print_mappings mps) -> mps <> [] ->
  Forall (mapping_ok (T := T)) mps -> (length mps <= MAX_MANAGED_MAPS)%nat ->
  exists sc mg,
    load hooks (unloaded w0) = Ok (tt, mk_library w sc mg) /\
    TopologyOk T /\ state_ok (T := T) sc /\
    total_cpu_set sc = CPU_SET_range 0 (tp_n_cpus (w_topo w)) CPU_EMPTY /\
    (exists p g sc', wayca_sc_group_create true sc = Ok ((0, Some 0), sc') /\
       groups sc' = {[p := g]} /\ g_total g = total_cpu_set sc /\
       group_ok (tp_n_cpus (w_topo w)) g) /\
    (forall id, 0 <= id < CPU_SETSIZE ->
       exists r, wayca_managed_thread_cpumask id mg = Ok (r, mg) /\ mask_of (T := T) (NT := nodes_of w) id mps r).
Proof using.
  intros T Hhooks Hinit Hreg Hn Hm Henv Hne Hok Hlen.
  destruct (regular_nodes w Hreg Hn) as (Hnode & Hnodes & Hfit).
  pose proof (rg_cpus _ Hreg) as Hc. pose proof (topology_of_ok w Hreg) as HT.
  assert (Htot : @State.wayca_sc_cpus_in_total T = tp_n_cpus (w_topo w)) by (by apply total_answer).
  destruct (wayca_thread_init_correct (T := T) (env_threads_number e) (env_groups_number e)
    (env_threadpools_number e)) as (sc & Hsc & Hstate & Hset & _ & _ & Hlg & _ & Hg);
    [rewrite Htot; lia|done|].
  destruct (init_reads (T := T) (NT := nodes_of w) (total_range (T := T)) Hnode
    ltac:(change (0 <= nodes_of w); lia) ltac:(etransitivity; [apply Z.eq_le_incl, Hfit|lia]) mps Hne Hok Hlen) as (mg & Hmg & Htr & Hget).
  rewrite Htot in Hset. exists sc, mg. split; [|split; [done|split; [done|split; [done|split]]]].
  - rewrite load_order by done. cbn [rev app constructors managed_constructor thread_constructor topo_constructor run_hooks snd].
    rewrite (M_bind_ok _ _ _ tt (mk_library w start_state managed_start))
      by (unfold on_world, unloaded; cbn [lb_world]; by rewrite Hinit).
    rewrite (M_bind_ok _ _ _ tt (mk_library w sc managed_start))
      by (unfold on_scheduler; cbn [lb_world lb_sched]; fold T; by rewrite Hsc).
    erewrite M_bind_ok; [reflexivity|].
    unfold on_managed. cbn [lb_world lb_managed]. fold T. by rewrite Henv, Hmg.
  - assert (Hid : find_free_id 0 (wayca_groups_array sc) = Some 0).
    { apply (first_id g_id); [rewrite <- Hg; apply so_groups; done|]. rewrite Hlg.
      pose proof (number_positive (env_groups_number e) DEFAULT_WAYCA_SC_GROUPS_NUM ltac:(done)). lia. }
    destruct (wayca_sc_group_create_correct (T := T) sc 0) as (p & g & sc' & Hcr & _ & _ & Hgr & _ & _
      & Hgt & _ & _ & _ & _ & Hgok); [done|rewrite Htot; lia|by rewrite Htot|done|apply Hm|].
    exists p, g, sc'. rewrite Htot in Hgok. by rewrite Hgr, Hg, insert_empty.
  - intros id Hidr. destruct (Hget id (mg_trace mg) Hidr) as (r & Hr & Hmask). exists r. by destruct mg.
Qed.

(** The topology could not be read, and was cleared: the scheduler has no tables,
    and refuses every thread and group instead of using them. *)
Theorem load_without_topology hooks w0 w :
  hooks ≡ₚ constructors fuel e -> topo_init fuel w0 = Ok (tt, w) -> w_topo w = zero_topo ->
  env_managed_threads e = None ->
  load hooks (unloaded w0) = Ok (tt, unloaded w) /\
  wayca_sc_group_create (T := topology_of w) true start_state =
    Ok ((- ENOMEM, None), start_state) /\
  (forall start arg, wayca_sc_thread_create (T := topology_of w) true (Some start) arg start_state =
     Ok ((- ENOMEM, None), start_state)).
Proof using.
  intros Hhooks Hinit Hz Henv.
  assert (Htot : @State.wayca_sc_cpus_in_total (topology_of w) = - ENODATA).
  { cbn. unfold answer, TopoQuery.wayca_sc_cpus_in_total. rewrite (M_bind_ok _ _ w _ w eq_refl).
    by rewrite Hz. }
  split; [|split].
  - rewrite load_order by done. cbn [rev app constructors managed_constructor thread_constructor topo_constructor run_hooks snd].
    rewrite (M_bind_ok _ _ _ tt (unloaded w))
      by (unfold on_world, unloaded; cbn [lb_world]; by rewrite Hinit).
    rewrite (M_bind_ok _ _ _ tt (unloaded w))
      by (unfold on_scheduler, wayca_thread_init; cbn [lb_world unloaded]; by rewrite Htot).
    erewrite M_bind_ok; [reflexivity|]. unfold on_managed. by rewrite Henv.
  - reflexivity.
  - reflexivity.
Qed.

(** Unloading gives the tables of the scheduler back before the topology, and leaves
    nothing of either. *)
Theorem library_unload hooks s :
  hooks ≡ₚ destructors ->
  exists s', unload hooks s = Ok (tt, s') /\ w_topo (lb_world s') = zero_topo /\
    wayca_cpu_loads (lb_sched s') = [] /\ wayca_threads_array (lb_sched s') = [] /\
    wayca_groups_array (lb_sched s') = [] /\ wayca_threadpools_array (lb_sched s') = [].
Proof using.
  intros Hp. rewrite unload_order by done. eexists. split; [reflexivity|]. by destruct s.
Qed.
End loaded.

(** ** The small machine *)

Module OnSmallMachine.
#[local] Existing Instances SmallMachine.files.

#[local] Instance system : System := {|
  sys_setaffinity _ _ _ _ := 0;
  sys_getaffinity _ _ := inl (-1);
  sys_malloc _ _ := true;
  sys_pthread_create _ := inl 11;
  sys_pthread_join _ _ := 0;
  sys_pthread_kill _ _ _ := 0;
  sys_tkill _ _ _ := 0;
  sys_gettid _ := 1;
  sys_task_dir _ _ := inl (-1)
|}.

(** The first thread on the second CPU. *)
Definition mapping_01 : list mapping := [mk_mapping [One 0] (OnCpus [One 1]) None].

Definition environ : environment :=
  mk_environment (Some (print_mappings mapping_01)) None None None.

Lemma library_load_witness :
  exists sc mg,
    load (rev (constructors 0 environ)) (unloaded SmallMachine.start) =
      Ok (tt, mk_library SmallMachine.ready sc mg) /\
    total_cpu_set sc = CPU_SET_range 0 4 CPU_EMPTY /\
    exists r, wayca_managed_thread_cpumask 0 mg = Ok (r, mg) /\
      mask_of (T := topology_of SmallMachine.ready) (NT := nodes_of SmallMachine.ready) 0 mapping_01 r.
Proof.
  destruct (library_load 0 environ (rev (constructors 0 environ)) SmallMachine.start
    SmallMachine.ready mapping_01) as (sc & mg & Hload & _ & _ & Hset & _ & Hmask).
  - symmetry. apply Permutation_rev.
  - vm_compute. reflexivity.
  - apply small_machine_regular.
  - cbn. lia.
  - reflexivity.
  - reflexivity.
  - discriminate.
  - apply Forall_singleton. constructor; cbn [mp_tasks mp_target mp_util target_items];
      [split; [done|apply Forall_singleton]; constructor; by vm_compute..|done].
  - cbn. unfold MAX_MANAGED_MAPS. lia.
  - exists sc, mg. split; [exact Hload|]. split; [exact Hset|]. apply Hmask. unfold CPU_SETSIZE. lia.
Defined.
End OnSmallMachine.
