(* ===== verification/Config.v ===== *)
(** * Configuration files

    [common.h], shared by the deployment daemon and its client, and the part of
    [deployer.c] that reads the description of a program. *)

From Stdlib Require Import Ascii String.
From S2P Require Import Prelude Bitops Cpuset Cstring State Cpulist TopoState.

Definition MAX_IRQS_BIND : nat := 20.
Definition PATH_MAX : Z := 4096.

(** enum MEMBAND and enum CPUBIND *)
Definition LOW : Z := 0.
Definition DIE : Z := 1.
Definition PACKAGE : Z := 2.
Definition ALL : Z := 3.
Definition AUTO : Z := 0.
Definition COARSE : Z := 1.
Definition FINE : Z := 2.

Definition memband_string : list cstring :=
  map s2l ["LOW"%string; "DIE"%string; "PACKAGE"%string; "ALL"%string].
Definition cpubind_string : list cstring :=
  map s2l ["AUTO"%string; "DIE"%string; "FINE"%string].

(** An enumeration that was set to -1 holds -1; the mode is [None] when it was
    never written. *)
Record program := mk_program {
  pg_pid : Z;
  pg_exec : cstring;
  pg_cpu_list : cstring;
  pg_irq_bind : list (Z * Z);
  pg_cpu_util : Z;
  pg_io_node : Z;
  pg_task_bind_mode : option Z;
  pg_mem_band : Z;
}.

Definition set_pg_pid v p := mk_program v (pg_exec p) (pg_cpu_list p) (pg_irq_bind p)
  (pg_cpu_util p) (pg_io_node p) (pg_task_bind_mode p) (pg_mem_band p).
Definition set_pg_exec v p := mk_program (pg_pid p) v (pg_cpu_list p) (pg_irq_bind p)
  (pg_cpu_util p) (pg_io_node p) (pg_task_bind_mode p) (pg_mem_band p).
Definition set_pg_cpu_list v p := mk_program (pg_pid p) (pg_exec p) v (pg_irq_bind p)
  (pg_cpu_util p) (pg_io_node p) (pg_task_bind_mode p) (pg_mem_band p).
Definition set_pg_irq_bind v p := mk_program (pg_pid p) (pg_exec p) (pg_cpu_list p) v
  (pg_cpu_util p) (pg_io_node p) (pg_task_bind_mode p) (pg_mem_band p).
Definition set_pg_cpu_util v p := mk_program (pg_pid p) (pg_exec p) (pg_cpu_list p) (pg_irq_bind p)
  v (pg_io_node p) (pg_task_bind_mode p) (pg_mem_band p).
Definition set_pg_io_node v p := mk_program (pg_pid p) (pg_exec p) (pg_cpu_list p) (pg_irq_bind p)
  (pg_cpu_util p) v (pg_task_bind_mode p) (pg_mem_band p).
Definition set_pg_task_bind_mode v p := mk_program (pg_pid p) (pg_exec p) (pg_cpu_list p)
  (pg_irq_bind p) (pg_cpu_util p) (pg_io_node p) v (pg_mem_band p).
Definition set_pg_mem_band v p := mk_program (pg_pid p) (pg_exec p) (pg_cpu_list p) (pg_irq_bind p)
  (pg_cpu_util p) (pg_io_node p) (pg_task_bind_mode p) v.

(** ** Files of lines *)

(** [fgets] with a buffer of [S n] bytes: the line and what is left of the file. *)
Fixpoint take_line (n : nat) (s : cstring) : cstring * cstring :=
  match n, s with
  | S n, c :: s =>
    if code c =? 10 then ([c], s)
    else let '(l, r) := take_line n s in (c :: l, r)
  | _, _ => ([], s)
  end.

Definition fgets (size : Z) (file : cstring) : option (cstring * cstring) :=
  match file with [] => None | _ => Some (take_line (Z.to_nat (size - 1)) file) end.

Definition getline (file : cstring) : option (cstring * cstring) :=
  match file with [] => None | _ => Some (take_line (length file) file) end.

(** The string up to the first [c]. *)
Fixpoint before (c : Z) (s : cstring) : cstring :=
  match s with
  | [] => []
  | x :: s => if code x =? c then [] else x :: before c s
  end.

(** [snprintf(str, PATH_MAX, "%s", s)] *)
Definition path_copy (s : cstring) : cstring := take (Z.to_nat (PATH_MAX - 1)) s.

(** ** The functions of common.h *)

(** [None] stands for the result -1, with the string untouched. *)
Definition cfg_strtostr (buf : cstring) : option cstring :=
  match strchr (before 10 buf) 61 (* '=' *) with
  | None => None
  | Some p => Some (path_copy (advance p))
  end.

Definition str_start_with (str : cstring) (start : string) : bool := is_prefix (s2l start) str.

(** The loop of the two functions: the index of the first string that is equal. *)
Fixpoint string_index (str : cstring) (table : list cstring) (i : Z) : option Z :=
  match table with
  | [] => None
  | s :: table => if decide (str = s) then Some i else string_index str table (i + 1)
  end.
Definition cfg_strtocpubind (str : cstring) (cpubind : Z) : Z :=
  default cpubind (string_index str cpubind_string 0).
Definition cfg_strtomemband (str : cstring) (memband : Z) : Z :=
  default memband (string_index str memband_string 0).

(** ** The description of a program: deployer.c *)

Definition cfg_strtoul (buf : cstring) : Z :=
  match strchr buf 61 with
  | None => -1
  | Some p => to_int (strtoul 10 (advance p)).1.1
  end.

(** The loop, with [p] behind the '=' or the ' '. A pair without '@' makes [q] the
    pointer 1. *)
Fixpoint strtopair_loop (fuel : nat) (p : cstring) (i : nat) (pair : list (Z * Z))
    : outcome (list (Z * Z)) :=
  match fuel with
  | O => Fault OutOfFuel
  | S fuel =>
    match strchr p 64 (* '@' *) with
    | None => Fault NullDeref
    | Some q =>
      let q := advance q in
      if (length pair <=? i)%nat then Fault OutOfBounds else
      let pair := <[i := (to_int (strtoul 10 p).1.1, to_int (strtoul 10 q).1.1)]> pair in
      match strchr q 32 (* ' ' *) with
      | None => Ok pair
      | Some p => strtopair_loop fuel (advance p) (S i) pair
      end
    end
  end.

(** The result is -1 when there is no '='. *)
Definition cfg_strtopair (buf : cstring) (pair : list (Z * Z)) : outcome (list (Z * Z)) :=
  match strchr buf 61 with
  | None => Ok pair
  | Some p => strtopair_loop (S (length buf)) (advance p) 0 pair
  end.

(** The program before the first line of its section is read: the rest of the
    memory is not initialised. *)
Definition new_program : program :=
  mk_program 0 [] [] (replicate MAX_IRQS_BIND (-1, -1)) (-1) (-1) None (-1).

(** A line of the section. *)
Definition cfg_line (p : cstring) (prog : program) : outcome program :=
  if str_start_with p "exec"%string then
    Ok (match cfg_strtostr p with Some s => set_pg_exec s prog | None => prog end)
  else if str_start_with p "cpu_util"%string then Ok (set_pg_cpu_util (cfg_strtoul p) prog)
  else if str_start_with p "io_node"%string then Ok (set_pg_io_node (cfg_strtoul p) prog)
  else if str_start_with p "task_bind"%string then
    match strstr p (s2l "AUTO"%string) with
    | Some _ => Ok (set_pg_task_bind_mode (Some AUTO) prog)
    | None =>
      let prog := match cfg_strtostr p with Some s => set_pg_cpu_list s prog | None => prog end in
      Ok (set_pg_task_bind_mode
            (Some (match strchr (pg_cpu_list prog) 64 with Some _ => FINE | None => COARSE end)) prog)
    end
  else if str_start_with p "irq_bind"%string then
    pair ← cfg_strtopair p (pg_irq_bind prog);
    Ok (set_pg_irq_bind pair prog)
  else if str_start_with p "mem_bandwidth"%string then
    match cfg_strtostr p with
    | None => Fault Uninitialised  (* the local string was never written *)
    | Some mem_band =>
      Ok (match string_index mem_band memband_string 0 with
          | Some b => set_pg_mem_band b prog
          | None => prog
          end)
    end
  else Ok prog.

(** The loop over the lines: [None] stands for the result -1, otherwise the
    program, when there is one. [malloc] tells whether memory is available. *)
Fixpoint cfg_lines (fuel : nat) (malloc : bool) (file : cstring) (prog : option program)
    : outcome (option (option program)) :=
  match fuel with
  | O => Fault OutOfFuel
  | S fuel =>
    match fgets PATH_MAX file with
    | None => Ok (Some prog)
    | Some (p, file) =>
      let opening := str_start_with p "[PROG]"%string in
      match opening, prog with
      | true, Some _ => Ok None
      | _, _ =>
        if opening && negb malloc then Ok None else
        let prog := if opening then Some new_program else prog in
        if str_start_with p "[/PROG]"%string then
          Ok (match prog with Some _ => Some prog | None => None end)
        else
        match prog with
        | None => cfg_lines fuel malloc file None
        | Some prog => prog ← cfg_line p prog; cfg_lines fuel malloc file (Some prog)
        end
      end
    end
  end.

(** ** Descriptions as a list of settings *)

Inductive setting :=
  | SExec (s : cstring)
  | SCpuUtil (n : Z)
  | SIoNode (n : Z)
  | SAuto
  | SBind (s : cstring)
  | SIrqs (l : list (Z * Z))
  | SMem (band : Z).

Definition newline : ascii := ascii_of_nat 10.
Definition at_sign : ascii := ascii_of_nat 64.
Definition blank : ascii := ascii_of_nat 32.

Definition print_pair (x : Z * Z) : cstring := print_num 10 x.1 ++ at_sign :: print_num 10 x.2.

Fixpoint print_pairs (l : list (Z * Z)) : cstring :=
  match l with
  | [] => []
  | [x] => print_pair x
  | x :: l => print_pair x ++ blank :: print_pairs l
  end.

Definition print_value (st : setting) : cstring :=
  match st with
  | SExec s => s2l "exec="%string ++ s
  | SCpuUtil n => s2l "cpu_util="%string ++ print_num 10 n
  | SIoNode n => s2l "io_node="%string ++ print_num 10 n
  | SAuto => s2l "task_bind=AUTO"%string
  | SBind s => s2l "task_bind="%string ++ s
  | SIrqs l => s2l "irq_bind="%string ++ print_pairs l
  | SMem b => s2l "mem_bandwidth="%string ++ nth (Z.to_nat b) memband_string []
  end.
Definition print_setting (st : setting) : cstring := print_value st ++ [newline].

Definition print_prog (l : list setting) : cstring :=
  s2l "[PROG]"%string ++ newline :: concat (map print_setting l) ++ s2l "[/PROG]"%string ++ [newline].

(** What a setting means. *)
Definition apply_setting (prog : program) (st : setting) : program :=
  match st with
  | SExec s => set_pg_exec s prog
  | SCpuUtil n => set_pg_cpu_util n prog
  | SIoNode n => set_pg_io_node n prog
  | SAuto => set_pg_task_bind_mode (Some AUTO) prog
  | SBind s =>
    set_pg_task_bind_mode (Some (match strchr s 64 with Some _ => FINE | None => COARSE end))
      (set_pg_cpu_list s prog)
  | SIrqs l => set_pg_irq_bind (l ++ drop (length l) (pg_irq_bind prog)) prog
  | SMem b => set_pg_mem_band b prog
  end.

Definition int_ok (n : Z) : Prop := 0 <= n < 2 ^ 31.
Definition no_char (c : Z) (s : cstring) : Prop := Forall (fun x => code x <> c) s.

(** A setting that fits into a line. *)
Record setting_ok (st : setting) : Prop := {
  so_length : Z.of_nat (length (print_setting st)) < PATH_MAX;
  so_value : match st with
             | SExec s => no_char 10 s
             | SCpuUtil n | SIoNode n => int_ok n
             | SAuto => True
             | SBind s => no_char 10 s /\ no_char 65 s
             | SIrqs l => l <> [] /\ (length l <= MAX_IRQS_BIND)%nat /\
                 Forall (fun x => int_ok x.1 /\ int_ok x.2) l
             | SMem b => 0 <= b < 4
             end;
}.

(** ** Lines *)

Lemma take_line_ok n s rest :
  no_char 10 s -> (length s < n)%nat ->
  take_line n (s ++ newline :: rest) = (s ++ [newline], rest).
Proof.
  intros Hs. revert n. induction Hs as [|x s Hx _ IH]; intros n Hn; destruct n as [|n];
    [simpl in Hn; lia| |simpl in Hn; lia|].
  - done.
  - cbn [take_line app]. apply Z.eqb_neq in Hx. rewrite Hx, IH by (simpl in Hn; lia). done.
Qed.

Lemma fgets_line s rest :
  no_char 10 s -> Z.of_nat (length (s ++ [newline])) < PATH_MAX ->
  fgets PATH_MAX (s ++ newline :: rest) = Some (s ++ [newline], rest).
Proof.
  intros Hs Hl. rewrite length_app in Hl. unfold PATH_MAX in *. unfold fgets.
  destruct (s ++ newline :: rest) eqn:E; [by destruct s|]. rewrite <- E.
  rewrite take_line_ok; [done|done|simpl in *; lia].
Qed.

Lemma before_line s : no_char 10 s -> before 10 (s ++ [newline]) = s.
Proof.
  induction 1 as [|x s Hx _ IH]; [done|]. cbn [before app]. apply Z.eqb_neq in Hx. by rewrite Hx, IH.
Qed.

Lemma strchr_skip c s rest : no_char c s -> strchr (s ++ rest) c = strchr rest c.
Proof.
  induction 1 as [|x s Hx _ IH]; [done|]. cbn [strchr app]. apply Z.eqb_neq in Hx. by rewrite Hx.
Qed.

Lemma no_auto s : no_char 65 s -> strstr s (s2l "AUTO"%string) = None.
Proof.
  induction 1 as [|x s Hx _ IH]; [done|]. cbn [strstr].
  destruct (is_prefix (s2l "AUTO"%string) (x :: s)) eqn:E; [|done]. exfalso.
  change (s2l "AUTO"%string) with ("A"%char :: s2l "UTO"%string) in E. cbn [is_prefix] in E.
  apply andb_true_iff in E as [E%bool_decide_eq_true _]. by subst x.
Qed.

Lemma no_char_app c s s' : no_char c (s ++ s') <-> no_char c s /\ no_char c s'.
Proof. apply Forall_app. Qed.
Lemma no_char_cons c x s : no_char c (x :: s) <-> code x <> c /\ no_char c s.
Proof. unfold no_char. by rewrite Forall_cons. Qed.

(** The digits of a number are none of the separators. *)
Lemma print_num_no_char c n : 0 <= n -> ~ (48 <= c <= 57) -> no_char c (print_num 10 n).
Proof.
  intros Hn Hc. unfold print_num, no_char. apply Forall_fmap.
  apply (Forall_impl (fun d => 0 <= d < 10)); [by apply udigits_range|].
  intros d Hd. simpl. rewrite digit_char_code by lia. destruct (Z.ltb_spec d 10); lia.
Qed.

(** ** Pairs *)

Lemma strchr_here c x rest : code x = c -> strchr (x :: rest) c = Some (x :: rest).
Proof. intros H. cbn [strchr]. apply Z.eqb_eq in H. by rewrite H. Qed.

Lemma number_of n rest :
  int_ok n -> ends_number 10 rest -> to_int (strtoul 10 (print_num 10 n ++ rest)).1.1 = n.
Proof.
  intros Hn Hr. unfold int_ok in Hn.
  rewrite strtoul_print by (done || lia || unfold is_word; lia). by apply to_int_id.
Qed.

Lemma print_pair_at x rest :
  int_ok x.1 -> strchr (print_pair x ++ rest) 64 = Some (at_sign :: print_num 10 x.2 ++ rest).
Proof.
  intros [H _]. unfold print_pair. rewrite <- app_assoc. rewrite strchr_skip by (apply print_num_no_char; lia).
  done.
Qed.

Lemma strtopair_loop_print l fuel i pair :
  l <> [] -> Forall (fun x => int_ok x.1 /\ int_ok x.2) l -> (length l <= fuel)%nat ->
  (i + length l <= length pair)%nat ->
  strtopair_loop fuel (print_pairs l ++ [newline]) i pair =
  Ok (take i pair ++ l ++ drop (i + length l) pair).
Proof.
  intros Hne Hl. revert fuel i pair. induction Hl as [|x l [Hx1 Hx2] Hl IH]; [done|].
  intros fuel i pair Hf Hi. destruct fuel as [|fuel]; [simpl in Hf; lia|].
  set (rest := match l with [] => [newline] | _ => blank :: print_pairs l ++ [newline] end).
  assert (Ep : print_pairs (x :: l) ++ [newline] = print_pair x ++ rest).
  { unfold rest. destruct l; [done|]. cbn [print_pairs]. by rewrite <- app_assoc. }
  assert (Hr : ends_number 10 rest /\ ends_number 10 (at_sign :: print_num 10 x.2 ++ rest))
    by (unfold rest; by destruct l).
  destruct Hr as [Hr1 Hr2].
  cbn [strtopair_loop]. rewrite Ep, print_pair_at by done. cbn [advance].
  destruct (Nat.leb_spec (length pair) i); [simpl in Hi; lia|].
  rewrite number_of by done.
  assert (E1 : to_int (strtoul 10 (print_pair x ++ rest)).1.1 = x.1)
    by (unfold print_pair; rewrite <- app_assoc; by apply number_of).
  rewrite E1. replace (x.1, x.2) with x by (by destruct x).
  rewrite strchr_skip by (apply print_num_no_char; [apply Hx2|lia]).
  unfold rest. destruct l as [|y l].
  - change (strchr [newline] 32) with (@None cstring). cbv iota.
    rewrite insert_take_drop by lia. simpl. by rewrite Nat.add_comm.
  - rewrite strchr_here by done. cbn [advance].
    rewrite IH; [|done|simpl in *; lia|rewrite length_insert; simpl in *; lia].
    rewrite (take_S_r (<[i:=x]> pair) i x) by (apply list_lookup_insert_eq; lia).
    rewrite take_insert_ge, drop_insert_lt by lia. rewrite <- app_assoc. simpl.
    by rewrite !Nat.add_succ_r.
Qed.

Lemma pairs_no_char c l :
  Forall (fun x => int_ok x.1 /\ int_ok x.2) l -> ~ (48 <= c <= 57) -> c <> 64 -> c <> 32 ->
  no_char c (print_pairs l).
Proof.
  intros Hl Hc H1 H2. induction Hl as [|x l [Hx1 Hx2] Hl IH]; [apply Forall_nil_2|].
  assert (Hx : no_char c (print_pair x)).
  { unfold print_pair. apply no_char_app. split; [apply print_num_no_char; [apply Hx1|done]|].
    apply no_char_cons. split; [done|]. apply print_num_no_char; [apply Hx2|done]. }
  destruct l; [done|]. cbn [print_pairs]. apply no_char_app. split; [done|].
  apply no_char_cons. split; [done|apply IH].
Qed.

Lemma pairs_length l : (length l <= S (length (print_pairs l)))%nat.
Proof.
  induction l as [|x [|y l] IH]; [simpl; lia|simpl; lia|].
  change (print_pairs (x :: y :: l)) with (print_pair x ++ blank :: print_pairs (y :: l)).
  rewrite length_app. cbn [length] in *. lia.
Qed.

(** ** One line *)

Lemma strtostr_line key s :
  no_char 61 key -> no_char 10 key -> no_char 10 s -> Z.of_nat (length s) < PATH_MAX ->
  cfg_strtostr ((key ++ ascii_of_nat 61 :: s) ++ [newline]) = Some s.
Proof.
  intros Hk1 Hk2 Hs Hl. unfold cfg_strtostr. rewrite before_line.
  - rewrite strchr_skip by done. rewrite strchr_here by done. cbn [advance]. unfold path_copy.
    rewrite take_ge; [done|]. unfold PATH_MAX in *. lia.
  - apply no_char_app. split; [done|]. by apply no_char_cons.
Qed.

Lemma strtoul_line key n :
  no_char 61 key -> int_ok n ->
  cfg_strtoul ((key ++ ascii_of_nat 61 :: print_num 10 n) ++ [newline]) = n.
Proof.
  intros Hk Hn. unfold cfg_strtoul. rewrite <- app_assoc. rewrite strchr_skip by done.
  cbn [app]. rewrite strchr_here by done. cbn [advance]. by apply number_of.
Qed.

Ltac no_char := repeat first [apply Forall_nil_2 | apply Forall_cons; split; [by vm_compute|]].

Lemma print_value_no_newline st : setting_ok st -> no_char 10 (print_value st).
Proof.
  intros [_ Hv]. destruct st as [s|n|n| |s|l|b]; cbn [print_value];
    rewrite ?no_char_app; try (split; [no_char|]); try no_char; try tauto.
  - apply print_num_no_char; [apply Hv|lia].
  - apply print_num_no_char; [apply Hv|lia].
  - apply pairs_no_char; [apply Hv|lia..].
  - assert (b = 0 \/ b = 1 \/ b = 2 \/ b = 3) as [-> | [-> | [-> | ->]]] by lia; cbn; no_char.
Qed.

(** The length of the value is bounded by the length of the line. *)
Lemma value_length st key s :
  setting_ok st -> print_value st = key ++ s -> Z.of_nat (length s) < PATH_MAX.
Proof.
  intros [Hl _] E. unfold print_setting in Hl. rewrite E, !length_app in Hl. lia.
Qed.

(** Which key a line begins with. *)
Ltac key_of_line :=
  unfold cfg_line;
  repeat match goal with
  | |- context [if str_start_with ?p ?k then _ else _] =>
    first [change (str_start_with p k) with true | change (str_start_with p k) with false]; cbv iota
  end.

Lemma cfg_line_setting st prog :
  setting_ok st -> (MAX_IRQS_BIND <= length (pg_irq_bind prog))%nat ->
  cfg_line (print_setting st) prog = Ok (apply_setting prog st).
Proof.
  intros Hok Hirqs. pose proof Hok as [Hlen Hv]. destruct st as [s|n|n| |s|l|b]; key_of_line.
  - by setoid_rewrite (strtostr_line (s2l "exec"%string) s ltac:(no_char) ltac:(no_char) Hv
      (value_length _ (s2l "exec="%string) s Hok eq_refl)).
  - by setoid_rewrite (strtoul_line (s2l "cpu_util"%string) n ltac:(no_char) Hv).
  - by setoid_rewrite (strtoul_line (s2l "io_node"%string) n ltac:(no_char) Hv).
  - by vm_compute.
  - destruct Hv as [Hv Ha]. rewrite no_auto.
    + by setoid_rewrite (strtostr_line (s2l "task_bind"%string) s ltac:(no_char) ltac:(no_char) Hv
        (value_length _ (s2l "task_bind="%string) s Hok eq_refl)).
    + unfold print_setting, print_value. rewrite !no_char_app. split; [split; [no_char|done]|no_char].
  - destruct Hv as (Hne & Hl & Hints). unfold cfg_strtopair.
    change (strchr (print_setting (SIrqs l)) 61)
      with (Some (ascii_of_nat 61 :: print_pairs l ++ [newline])). cbv iota. cbn [advance].
    rewrite strtopair_loop_print; [done|done|done| |lia].
    unfold print_setting. cbn [print_value]. rewrite !length_app. pose proof (pairs_length l). lia.
  - assert (b = 0 \/ b = 1 \/ b = 2 \/ b = 3) as [-> | [-> | [-> | ->]]] by lia; by vm_compute.
Qed.

(** ** The whole section *)

Lemma setting_keys st :
  str_start_with (print_setting st) "[PROG]"%string = false /\
  str_start_with (print_setting st) "[/PROG]"%string = false.
Proof. by destruct st. Qed.

Lemma apply_irqs prog st :
  (MAX_IRQS_BIND <= length (pg_irq_bind prog))%nat ->
  (MAX_IRQS_BIND <= length (pg_irq_bind (apply_setting prog st)))%nat.
Proof. intros H. destruct st; cbn; [done..| |done]. rewrite length_app, length_drop. lia. Qed.

Lemma cfg_lines_settings l fuel malloc prog :
  Forall setting_ok l -> (MAX_IRQS_BIND <= length (pg_irq_bind prog))%nat -> (length l < fuel)%nat ->
  cfg_lines fuel malloc (concat (map print_setting l) ++ s2l "[/PROG]"%string ++ [newline]) (Some prog) =
  Ok (Some (Some (fold_left apply_setting l prog))).
Proof.
  intros Hl. revert fuel prog. induction Hl as [|st l Hst Hl IH]; intros fuel prog Hirqs Hf;
    (destruct fuel as [|fuel]; [simpl in Hf; lia|]); [done|].
  cbn [map concat fold_left cfg_lines]. unfold print_setting at 1. rewrite <- !app_assoc. cbn [app].
  rewrite fgets_line by (by apply print_value_no_newline || apply Hst). fold (print_setting st).
  destruct (setting_keys st) as [-> ->]. cbn [andb]. rewrite cfg_line_setting by done. obind.
  apply IH; [by apply apply_irqs|simpl in Hf; lia].
Qed.

Lemma cfg_prog_reads l fuel :
  Forall setting_ok l -> (S (length l) < fuel)%nat ->
  cfg_lines fuel true (print_prog l) None =
  Ok (Some (Some (fold_left apply_setting l new_program))).
Proof.
  intros Hl Hn. destruct fuel as [|fuel]; [lia|].
  cbn [cfg_lines]. unfold print_prog. rewrite fgets_line; [|no_char|by vm_compute].
  change (str_start_with (s2l "[PROG]"%string ++ [newline]) "[PROG]"%string) with true.
  change (str_start_with (s2l "[PROG]"%string ++ [newline]) "[/PROG]"%string) with false.
  cbn [andb negb]. change (cfg_line (s2l "[PROG]"%string ++ [newline]) new_program) with (Ok new_program).
  obind. apply cfg_lines_settings; [done|done|lia].
Qed.

Lemma print_prog_length l : (S (length l) < S (length (print_prog l)))%nat.
Proof.
  unfold print_prog. rewrite length_app. cbn [length]. rewrite length_app.
  assert (H : (length l <= length (concat (map print_setting l)))%nat); [|lia].
  induction l as [|st l IH]; [done|]. cbn [map concat]. unfold print_setting at 1.
  rewrite !length_app. simpl. lia.
Qed.

(** C29. The description of a program that was written as a list of settings, in any
    order and with repetitions, is read as exactly these settings, applied one
    after the other to the defaults. *)
Theorem cfg_prog_print l :
  Forall setting_ok l ->
  cfg_lines (S (length (print_prog l))) true (print_prog l) None =
  Ok (Some (Some (fold_left apply_setting l new_program))).
Proof. intros Hl. apply cfg_prog_reads; [done|apply print_prog_length]. Qed.

(** A list of interrupts with more pairs than the array has room for is written
    past its end. *)
Lemma strtopair_overflow l fuel i pair :
  Forall (fun x => int_ok x.1 /\ int_ok x.2) l -> (length l <= fuel)%nat ->
  (i <= length pair)%nat -> (length pair < i + length l)%nat ->
  strtopair_loop fuel (print_pairs l ++ [newline]) i pair = Fault OutOfBounds.
Proof.
  intros Hl. revert fuel i pair. induction Hl as [|x l [Hx1 Hx2] Hl IH]; intros fuel i pair Hf Hi Hlt;
    [simpl in Hlt; lia|]. destruct fuel as [|fuel]; [simpl in Hf; lia|].
  cbn [strtopair_loop].
  destruct l as [|y l].
  - cbn [print_pairs]. rewrite print_pair_at by done.
    destruct (Nat.leb_spec (length pair) i); [done|simpl in Hlt; lia].
  - change (print_pairs (x :: y :: l)) with (print_pair x ++ blank :: print_pairs (y :: l)).
    rewrite <- app_assoc. rewrite print_pair_at by done. cbn [advance app].
    destruct (Nat.leb_spec (length pair) i); [done|].
    rewrite strchr_skip by (apply print_num_no_char; [apply Hx2|lia]).
    rewrite strchr_here by done. cbn [advance].
    apply IH; rewrite ?length_insert; simpl in *; lia.
Qed.

(** More than twenty interrupts overrun the array of the program. *)
Theorem cfg_irqs_overflow l prog :
  Forall (fun x => int_ok x.1 /\ int_ok x.2) l -> length (pg_irq_bind prog) = MAX_IRQS_BIND ->
  (MAX_IRQS_BIND < length l)%nat ->
  cfg_line (print_setting (SIrqs l)) prog = Fault OutOfBounds.
Proof.
  intros Hl Hp Hlen. key_of_line. unfold cfg_strtopair.
  change (strchr (print_setting (SIrqs l)) 61)
    with (Some (ascii_of_nat 61 :: print_pairs l ++ [newline])). cbv iota. cbn [advance].
  rewrite strtopair_overflow; [done|done| |lia|lia].
  unfold print_setting. cbn [print_value]. rewrite !length_app. pose proof (pairs_length l). lia.
Qed.

(** The example configurations of the repository. *)
Module Examples.
Definition coarse : list setting :=
  [SExec (s2l "example_three_thread"%string); SCpuUtil 2; SIoNode 0; SBind (s2l "3-4"%string);
   SIrqs [(978, 2); (979, 3)]].

Lemma coarse_ok : Forall setting_ok coarse.
Proof.
  unfold coarse.
  repeat (apply Forall_cons; split); [..|apply Forall_nil_2]; (split; [by vm_compute|]);
    try (unfold int_ok; lia); try no_char.
  - split; no_char.
  - split; [done|]. split; [cbn; unfold MAX_IRQS_BIND; lia|].
    repeat (apply Forall_cons; split); [..|apply Forall_nil_2]; unfold int_ok; cbn; lia.
Qed.

Lemma cfg_prog_print_witness :
  cfg_lines (S (length (print_prog coarse))) true (print_prog coarse) None =
  Ok (Some (Some (mk_program 0 (s2l "example_three_thread"%string) (s2l "3-4"%string)
    ([(978, 2); (979, 3)] ++ replicate 18 (-1, -1)) 2 0 (Some COARSE) (-1)))).
Proof. apply (cfg_prog_print coarse). apply coarse_ok. Defined.

Lemma cfg_irqs_overflow_witness :
  cfg_line (print_setting (SIrqs (replicate 21 (5, 1)))) new_program = Fault OutOfBounds.
Proof.
  apply (cfg_irqs_overflow (replicate 21 (5, 1)) new_program).
  - apply Forall_replicate. unfold int_ok. cbn. lia.
  - reflexivity.
  - rewrite length_replicate. unfold MAX_IRQS_BIND. lia.
Defined.
End Examples.
