(* ===== verification/Deployd.v ===== *)
(** * The deployment daemon

    [deployd.c] but its event loop: the loads that the daemon keeps for every
    cluster and node, the ways of binding a program, and its configuration file. *)

From Stdlib Require Import Ascii String.
From S2P Require Import Prelude Bitops Cpuset Cstring State Group Affinity Irq Managed.
From S2P Require Import TopoState Config.

Definition NR_CPUS : nat := 1024.

(** The static variables, and what was sent to the system: calls (newest first in
    the trace of [dd_sched]), the files of interrupts, and answers to clients. *)
Record deployd := mk_deployd {
  ccl_cpus_load : list Z;
  node_cpus_load : list Z;
  default_task_bind : Z;
  default_mem_bandwidth : Z;
  dd_sched : sched;
  dd_irqs : list (Z * option cstring);
  dd_notified : list Z;
}.

Definition set_ccl_cpus_load v s := mk_deployd v (node_cpus_load s) (default_task_bind s)
  (default_mem_bandwidth s) (dd_sched s) (dd_irqs s) (dd_notified s).
Definition set_node_cpus_load v s := mk_deployd (ccl_cpus_load s) v (default_task_bind s)
  (default_mem_bandwidth s) (dd_sched s) (dd_irqs s) (dd_notified s).
Definition set_default_task_bind v s := mk_deployd (ccl_cpus_load s) (node_cpus_load s) v
  (default_mem_bandwidth s) (dd_sched s) (dd_irqs s) (dd_notified s).
Definition set_default_mem_bandwidth v s := mk_deployd (ccl_cpus_load s) (node_cpus_load s)
  (default_task_bind s) v (dd_sched s) (dd_irqs s) (dd_notified s).
Definition set_dd_sched v s := mk_deployd (ccl_cpus_load s) (node_cpus_load s) (default_task_bind s)
  (default_mem_bandwidth s) v (dd_irqs s) (dd_notified s).
Definition set_dd_irqs v s := mk_deployd (ccl_cpus_load s) (node_cpus_load s) (default_task_bind s)
  (default_mem_bandwidth s) (dd_sched s) v (dd_notified s).
Definition set_dd_notified v s := mk_deployd (ccl_cpus_load s) (node_cpus_load s)
  (default_task_bind s) (default_mem_bandwidth s) (dd_sched s) (dd_irqs s) v.

Ltac dsimpl := cbn [ccl_cpus_load node_cpus_load default_task_bind default_mem_bandwidth dd_sched
  dd_irqs dd_notified set_ccl_cpus_load set_node_cpus_load set_default_task_bind
  set_default_mem_bandwidth set_dd_sched set_dd_irqs set_dd_notified].

(** ** Arrays of loads *)

(** [l[i] += d] on an array of [int] *)
Definition add_load (l : list Z) (i d : Z) : outcome (list Z) :=
  v ← load_at l i; Ok (<[Z.to_nat i := to_int (v + d)]> l).

(** The division of C. *)
Definition quot (a b : Z) : outcome Z := if b =? 0 then Fault DivByZero else Ok (Z.quot a b).

Definition upd_ccl_load (i d : Z) : M deployd unit :=
  s ← get; l ← lift (add_load (ccl_cpus_load s) i d); modify (set_ccl_cpus_load l).
Definition upd_node_load (i d : Z) : M deployd unit :=
  s ← get; l ← lift (add_load (node_cpus_load s) i d); modify (set_node_cpus_load l).

Definition on_sched {A} (m : M sched A) : M deployd A := fun s =>
  match m (dd_sched s) with
  | Ok (a, sc) => Ok (a, set_dd_sched sc s)
  | Fault f => Fault f
  end.

Section deployd.
Context `{T : Topology} `{NT : NodesTotal} `{Sys : System} `{TM : TopoMasks} `{IF : IrqFiles}.

(** A set on the stack and the memory that [malloc] gives, before they are
    written. *)
Context (stack : cpu_set_t) (heap : option (list task_cpu_map)).

Definition ccl_idle_cpu_cores (ccl : Z) : M deployd Z :=
  s ← get; v ← lift (load_at (ccl_cpus_load s) ccl); mret (to_int (wayca_sc_cpus_in_ccl - v)).
Definition node_idle_cpu_cores (node : Z) : M deployd Z :=
  s ← get; v ← lift (load_at (node_cpus_load s) node); mret (to_int (wayca_sc_cpus_in_node - v)).

(** The loop over the CPUs of a mask, [n] turns from [i] on. *)
Fixpoint charge_cpus (n : nat) (i : Z) (mask : cpu_set_t) : M deployd unit :=
  match n with
  | O => mret tt
  | S n =>
    when (CPU_ISSET i mask)
      (c ← lift (quot i wayca_sc_cpus_in_ccl);
       upd_ccl_load c 1;;
       k ← lift (quot i wayca_sc_cpus_in_node);
       upd_node_load k 1);;
    charge_cpus n (i + 1) mask
  end.

Definition process_cpulist_bind (prog : program) : M deployd Z :=
  r ← lift (list_to_mask wayca_sc_cpus_in_total (pg_cpu_list prog) sizeof_cpu_set_t stack);
  charge_cpus (Z.to_nat wayca_sc_cpus_in_total) 0 r.2;;
  on_sched (thread_bind_cpulist stack (pg_pid prog) (pg_cpu_list prog));;
  mret 0.

Definition occupied_cpu_to_load (s : cstring) : M deployd Z :=
  r ← lift (list_to_mask wayca_sc_cpus_in_total s sizeof_cpu_set_t stack);
  charge_cpus (Z.to_nat wayca_sc_cpus_in_total) 0 r.2;;
  mret 0.

(** The two inner loops, [n] turns from [j] on. *)
Fixpoint charge_nodes (n : nat) (j : Z) (nodes : node_set_t) (share : Z) : M deployd unit :=
  match n with
  | O => mret tt
  | S n =>
    when (NODE_ISSET j nodes) (upd_node_load j share);;
    charge_nodes n (j + 1) nodes share
  end.

Fixpoint charge_shares (n : nat) (j : Z) (cpus : cpu_set_t) (cpu_util count : Z) : M deployd unit :=
  match n with
  | O => mret tt
  | S n =>
    when (CPU_ISSET j cpus)
      (share ← lift (quot cpu_util count);
       k ← lift (quot j wayca_sc_cpus_in_node);
       upd_node_load k share;;
       c ← lift (quot j wayca_sc_cpus_in_ccl);
       upd_ccl_load c share);;
    charge_shares n (j + 1) cpus cpu_util count
  end.

Definition charge_map (m : task_cpu_map) : M deployd unit :=
  when (0 <? CPU_COUNT (tm_tasks m))
    (let nodes := CPU_COUNT (tm_nodes m) in
     let cpus := CPU_COUNT (tm_cpus m) in
     if 0 <? nodes then
       charge_nodes (Z.to_nat wayca_sc_nodes_in_total) 0 (tm_nodes m) (Z.quot (tm_cpu_util m) nodes)
     else
       charge_shares (Z.to_nat wayca_sc_cpus_in_total) 0 (tm_cpus m) (tm_cpu_util m) cpus).

Fixpoint charge_maps (maps : list task_cpu_map) : M deployd unit :=
  match maps with
  | [] => mret tt
  | m :: maps => charge_map m;; charge_maps maps
  end.

Definition process_managed_threads_bind (prog : program) : M deployd Z :=
  match heap with
  | None => mret (-1)
  | Some maps =>
    r ← lift (to_task_cpu_map (Some (pg_cpu_list prog)) maps);
    charge_maps r.2;;
    mret 0
  end.

(** ** Automatic binding *)

(** The loop over the clusters: whether the program was bound. *)
Fixpoint bind_idle_ccl (fuel : nat) (i cpu : Z) (prog : program) : M deployd bool :=
  match fuel with
  | O => throw OutOfFuel
  | S fuel =>
    if i <? wayca_sc_cpus_in_package then
      ccl ← lift (quot (i + cpu) wayca_sc_cpus_in_ccl);
      idle ← ccl_idle_cpu_cores ccl;
      if pg_cpu_util prog <=? idle then
        on_sched (thread_bind_ccl (pg_pid prog) (i + cpu));;
        upd_ccl_load ccl (pg_cpu_util prog);;
        k ← lift (quot (i + cpu) wayca_sc_cpus_in_node);
        upd_node_load k (pg_cpu_util prog);;
        mret true
      else bind_idle_ccl fuel (i + wayca_sc_cpus_in_ccl) cpu prog
    else mret false
  end.

(** A turn for every CPU of the package, and for every element of the array. *)
Definition ccl_fuel : nat := (S (Z.to_nat wayca_sc_cpus_in_package) + 2 * NR_CPUS)%nat.

(** case DIE *)
Definition bind_die (prog : program) : M deployd Z :=
  idle ← node_idle_cpu_cores (pg_io_node prog);
  (if pg_cpu_util prog <=? idle then
     on_sched (thread_bind_node (pg_pid prog) (pg_io_node prog));;
     upd_node_load (pg_io_node prog) (pg_cpu_util prog)
   else
     on_sched (thread_bind_package (pg_pid prog) (pg_io_node prog));; mret tt);;
  mret 0.

Definition process_auto_bind (prog : program) : M deployd Z :=
  let cpu := to_int (wayca_sc_cpus_in_node * pg_io_node prog) in
  if pg_io_node prog <? 0 then mret 0
  else if pg_mem_band prog =? LOW then
    bound ← bind_idle_ccl ccl_fuel 0 cpu prog;
    if (bound : bool) then mret 0 else bind_die prog
  else if pg_mem_band prog =? DIE then bind_die prog
  else if pg_mem_band prog =? PACKAGE then
    on_sched (thread_bind_package (pg_pid prog) (pg_io_node prog));; mret 0
  else if pg_mem_band prog =? ALL then
    on_sched (thread_unbind (pg_pid prog));; mret 0
  else on_sched (thread_bind_package (pg_pid prog) (pg_io_node prog));; mret 0.

(** ** A program *)

Fixpoint bind_irqs (pairs : list (Z * Z)) : M deployd unit :=
  match pairs with
  | [] => mret tt
  | (irq, cpu) :: pairs =>
    when (negb (irq =? -1))
      (r ← lift (wayca_sc_irq_bind_cpu irq cpu);
       modify (fun s => set_dd_irqs ((irq, r.2) :: dd_irqs s) s));;
    bind_irqs pairs
  end.

(** What [write] on the connection of a client does: it succeeds, it fails, or the
    client has closed the connection, and the signal [SIGPIPE] ends the daemon. *)
Inductive write_result :=
  | WriteOk
  | WriteFailed
  | WriteSignal.

#[export] Instance write_result_eq_dec : EqDecision write_result.
Proof. solve_decision. Defined.

Definition deploy_program (prog : program) (fd : Z) (written : write_result) : M deployd Z :=
  match pg_task_bind_mode prog with
  | None => throw Uninitialised
  | Some mode =>
    let n := Z.of_nat (length (pg_cpu_list prog)) in
    (if mode =? AUTO then process_auto_bind prog
     else if (mode =? COARSE) && (0 <? n) then process_cpulist_bind prog
     else if (mode =? FINE) && (0 <? n) then process_managed_threads_bind prog
     else mret 0);;
    bind_irqs (take MAX_IRQS_BIND (pg_irq_bind prog));;
    match written with
    | WriteOk => modify (fun s => set_dd_notified (fd :: dd_notified s) s)
    | WriteFailed => mret tt
    | WriteSignal => throw Killed
    end;;
    mret 0
  end.

(** ** The configuration file *)

Definition sys_line (p : cstring) : M deployd unit :=
  if str_start_with p "occupied_cpus"%string then
    match cfg_strtostr p with
    | Some occupied_cpus => occupied_cpu_to_load occupied_cpus;; mret tt
    | None => mret tt
    end
  else if str_start_with p "occupied_io_nodes"%string then mret tt
  else if str_start_with p "default_task_bind"%string then
    match cfg_strtostr p with
    | Some s => modify (fun d => set_default_task_bind (cfg_strtocpubind s (default_task_bind d)) d)
    | None => mret tt
    end
  else if str_start_with p "default_mem_bandwidth"%string then
    match cfg_strtostr p with
    | Some s => modify (fun d => set_default_mem_bandwidth (cfg_strtomemband s (default_mem_bandwidth d)) d)
    | None => mret tt
    end
  else mret tt.

Fixpoint sys_lines (fuel : nat) (file : cstring) : M deployd unit :=
  match fuel with
  | O => throw OutOfFuel
  | S fuel =>
    match getline file with
    | None => mret tt
    | Some (p, file) => sys_line p;; sys_lines fuel file
    end
  end.

(** The contents of the file, [None] when it cannot be opened. *)
Definition parse_cfg_file (file : option cstring) : M deployd Z :=
  match file with
  | None => mret (-1)
  | Some file =>
    match fgets PATH_MAX file with
    | None => mret 0
    | Some (p, rest) =>
      if negb (str_start_with p "[SYS]"%string) then mret (-1)
      else sys_lines (S (length rest)) rest;; mret 0
    end
  end.
End deployd.

(** ** The loads after a list of CPUs *)

Lemma to_int_signed x : - 2 ^ 31 <= x < 2 ^ 31 -> to_int x = x.
Proof.
  intros Hx. destruct (decide (0 <= x)); [apply to_int_id; lia|]. unfold to_int.
  rewrite <- (Z.mod_add x 1) by lia. rewrite Z.mod_small by lia.
  destruct (Z.ltb_spec (x + 1 * 2 ^ 32) (2 ^ 31)); lia.
Qed.

Lemma nth_insert (l : list Z) i j v :
  (i < length l)%nat -> nth j (<[i := v]> l) 0 = if (j =? i)%nat then v else nth j l 0.
Proof.
  intros Hi. rewrite !nth_lookup. destruct (Nat.eqb_spec j i) as [->|Hne].
  - by rewrite list_lookup_insert_eq.
  - by rewrite list_lookup_insert_ne.
Qed.

Lemma load_at_nth l i : 0 <= i < Z.of_nat (length l) -> load_at l i = Ok (nth (Z.to_nat i) l 0).
Proof.
  intros Hi. unfold load_at. destruct (Z.ltb_spec i 0); [lia|]. rewrite nth_lookup.
  by destruct (lookup_lt_is_Some_2 l (Z.to_nat i)) as [x ->]; [lia|].
Qed.

Lemma add_load_ok l i d :
  0 <= i < Z.of_nat (length l) -> - 2 ^ 31 <= nth (Z.to_nat i) l 0 + d < 2 ^ 31 ->
  add_load l i d = Ok (<[Z.to_nat i := nth (Z.to_nat i) l 0 + d]> l).
Proof. intros Hi Hd. unfold add_load. rewrite load_at_nth by done. obind. by rewrite to_int_signed. Qed.

Lemma quot_ok a b : 0 <= a -> 0 < b -> quot a b = Ok (a / b).
Proof.
  intros. unfold quot. destruct (Z.eqb_spec b 0); [lia|]. by rewrite Z.quot_div_nonneg.
Qed.

(** One more for the part that each CPU belongs to. *)
Fixpoint tally (size : Z) (cpus : list Z) (l : list Z) : list Z :=
  match cpus with
  | [] => l
  | c :: cpus =>
    tally size cpus (<[Z.to_nat (c / size) := nth (Z.to_nat (c / size)) l 0 + 1]> l)
  end.

Definition cpus_in_part (size k : Z) (cpus : list Z) : Z :=
  Z.of_nat (length (List.filter (fun c => c / size =? k) cpus)).

Lemma tally_length size cpus l : length (tally size cpus l) = length l.
Proof. revert l. induction cpus as [|c cpus IH]; intros l; [done|]. simpl. by rewrite IH, length_insert. Qed.

Lemma tally_load size cpus l k :
  0 < size -> Forall (fun c => 0 <= c /\ c / size < Z.of_nat (length l)) cpus ->
  nth k (tally size cpus l) 0 = nth k l 0 + cpus_in_part size (Z.of_nat k) cpus.
Proof.
  intros Hs Hc. revert l Hc. induction cpus as [|c cpus IH]; intros l Hc; cbn [tally].
  { unfold cpus_in_part. simpl. lia. }
  apply Forall_cons in Hc as [[H0 H1] Hc]. pose proof (Z.div_pos c size H0 Hs).
  rewrite IH by (rewrite length_insert; done). rewrite nth_insert by lia. unfold cpus_in_part. simpl.
  destruct (Nat.eqb_spec k (Z.to_nat (c / size))) as [->|Hne].
  - rewrite Z2Nat.id by lia. rewrite Z.eqb_refl. simpl. lia.
  - destruct (Z.eqb_spec (c / size) (Z.of_nat k)); [lia|]. lia.
Qed.

(** The daemon's arrays: no load is near the limits of [int]. *)
Definition loads_ok (margin : Z) (l : list Z) : Prop :=
  length l = NR_CPUS /\ Forall (fun v => - 2 ^ 31 <= v /\ v + margin < 2 ^ 31) l.

Lemma loads_ok_nth margin l k : 0 <= margin < 2 ^ 31 -> loads_ok margin l ->
  - 2 ^ 31 <= nth k l 0 /\ nth k l 0 + margin < 2 ^ 31.
Proof.
  intros Hm [_ Hl]. rewrite nth_lookup. destruct (l !! k) as [v|] eqn:E; [|simpl; lia].
  apply (Forall_lookup_1 _ _ _ _ Hl E).
Qed.

Lemma loads_ok_insert margin l i :
  0 <= margin < 2 ^ 31 - 1 -> loads_ok (margin + 1) l -> loads_ok margin (<[i := nth i l 0 + 1]> l).
Proof.
  intros Hm Hl. pose proof (loads_ok_nth (margin + 1) l i ltac:(lia) Hl) as Hi. destruct Hl as [Hlen Hl].
  split; [by rewrite length_insert|]. apply Forall_insert; [|cbv beta; lia].
  apply (Forall_impl _ _ _ Hl). intros v Hv. lia.
Qed.

Lemma part_in_array size c (l : list Z) :
  0 < size -> 0 <= c < CPU_SETSIZE -> length l = NR_CPUS -> 0 <= c / size < Z.of_nat (length l).
Proof.
  intros Hs Hc ->. change (Z.of_nat NR_CPUS) with CPU_SETSIZE.
  split; [apply Z.div_pos; lia|apply Z.div_lt_upper_bound; nia].
Qed.

Lemma filter_ext_in (f g : Z -> bool) l :
  (forall c, c ∈ l -> f c = g c) -> List.filter f l = List.filter g l.
Proof.
  intros H. induction l as [|c l IH]; [done|]. simpl. rewrite (H c) by set_solver.
  rewrite IH by set_solver. done.
Qed.

Section charge.
Context `{T : Topology} `{NT : NodesTotal} `{Sys : System} `{TM : TopoMasks} `{IF : IrqFiles}.
Context (stack : cpu_set_t) (heap : option (list task_cpu_map)).
Context (Hccl : 0 < wayca_sc_cpus_in_ccl) (Hnode : 0 < wayca_sc_cpus_in_node).
Context (Htotal : 0 < wayca_sc_cpus_in_total <= CPU_SETSIZE).

(** The state with the CPUs [cpus] charged. *)
Definition charged (cpus : list Z) (s : deployd) : deployd :=
  set_node_cpus_load (tally wayca_sc_cpus_in_node cpus (node_cpus_load s))
    (set_ccl_cpus_load (tally wayca_sc_cpus_in_ccl cpus (ccl_cpus_load s)) s).

Lemma charge_cpus_ok n i mask s :
  0 <= i -> i + Z.of_nat n <= CPU_SETSIZE ->
  loads_ok (Z.of_nat n) (ccl_cpus_load s) -> loads_ok (Z.of_nat n) (node_cpus_load s) ->
  charge_cpus n i mask s =
  Ok (tt, charged (List.filter (fun c => CPU_ISSET c mask) (seqZ i (Z.of_nat n))) s).
Proof using Hccl Hnode.
  revert i s. induction n as [|n IH]; intros i s Hi Hle Hc Hk.
  { by destruct s. }
  rewrite (seqZ_cons i (Z.of_nat (S n))) by lia.
  replace (Z.pred (Z.of_nat (S n))) with (Z.of_nat n) by lia.
  replace (Z.of_nat (S n)) with (Z.of_nat n + 1) in Hc, Hk by lia.
  cbn [charge_cpus List.filter]. rewrite <- Z.add_1_r.
  assert (Hn : 0 <= Z.of_nat n < 2 ^ 31 - 1) by (unfold CPU_SETSIZE in *; lia).
  assert (Hweak : forall l, loads_ok (Z.of_nat n + 1) l -> loads_ok (Z.of_nat n) l).
  { intros l [? Hl]. split; [done|]. apply (Forall_impl _ _ _ Hl). intros v Hv. lia. }
  destruct (CPU_ISSET i mask); cbn [when].
  - assert (Pc : 0 <= i / wayca_sc_cpus_in_ccl < Z.of_nat (length (ccl_cpus_load s)))
      by (apply part_in_array; [done|lia|apply Hc]).
    assert (Pk : 0 <= i / wayca_sc_cpus_in_node < Z.of_nat (length (node_cpus_load s)))
      by (apply part_in_array; [done|lia|apply Hk]).
    pose proof (loads_ok_nth (Z.of_nat n + 1) _ (Z.to_nat (i / wayca_sc_cpus_in_ccl)) ltac:(lia) Hc).
    pose proof (loads_ok_nth (Z.of_nat n + 1) _ (Z.to_nat (i / wayca_sc_cpus_in_node)) ltac:(lia) Hk).
    rewrite !quot_ok by lia.
    unfold upd_ccl_load, upd_node_load, get, lift, modify, mbind, M_bind. cbv beta iota. dsimpl.
    rewrite add_load_ok by lia. dsimpl. rewrite add_load_ok by lia. rewrite IH; [done|lia|lia| |];
      dsimpl; by apply loads_ok_insert.
  - unfold mret, M_ret, mbind, M_bind. apply IH; [lia|lia|by apply Hweak..].
Qed.

(** The CPUs of a list, in ascending order. *)
Definition covered (l : list item) : list Z :=
  List.filter (fun c => existsb (covers c) l) (seqZ 0 wayca_sc_cpus_in_total).

(** The state after a list of CPUs is counted. *)
Lemma occupied_ok l s :
  l <> [] -> Forall (item_ok wayca_sc_cpus_in_total) l -> cpuset_wf stack ->
  loads_ok wayca_sc_cpus_in_total (ccl_cpus_load s) -> loads_ok wayca_sc_cpus_in_total (node_cpus_load s) ->
  occupied_cpu_to_load stack (print_list l) s = Ok (0, charged (covered l) s).
Proof using Hccl Hnode Htotal.
  intros Hne Hl Hw Hc Hk.
  destruct (list_to_mask_reads _ _ _ Htotal Hne Hl Hw) as (mask & Hmask & _ & Hbits).
  unfold occupied_cpu_to_load. rewrite Hmask.
  rewrite (M_bind_ok _ _ s (0, mask) s eq_refl). cbn [snd].
  assert (Ht : Z.of_nat (Z.to_nat wayca_sc_cpus_in_total) = wayca_sc_cpus_in_total) by lia.
  rewrite (M_bind_ok _ _ _ _ _ (charge_cpus_ok (Z.to_nat wayca_sc_cpus_in_total) 0 mask s
    ltac:(lia) ltac:(lia)
    ltac:(by rewrite Ht) ltac:(by rewrite Ht))).
  rewrite Ht. unfold covered. rewrite (filter_ext_in _ (fun c => existsb (covers c) l)); [done|].
  intros c Hc'%elem_of_seqZ. apply Hbits. lia.
Qed.

(** Counting the CPUs of a list that others occupy (a list of ranges and strides
    in its documented syntax) adds to the load of every cluster and node exactly
    the number of CPUs of the list that belong to it. *)
Theorem occupied_cpus_loads l s :
  l <> [] -> Forall (item_ok wayca_sc_cpus_in_total) l -> cpuset_wf stack ->
  loads_ok wayca_sc_cpus_in_total (ccl_cpus_load s) -> loads_ok wayca_sc_cpus_in_total (node_cpus_load s) ->
  exists s', occupied_cpu_to_load stack (print_list l) s = Ok (0, s') /\
    dd_sched s' = dd_sched s /\
    forall k,
      nth k (ccl_cpus_load s') 0 =
        nth k (ccl_cpus_load s) 0 + cpus_in_part wayca_sc_cpus_in_ccl (Z.of_nat k) (covered l) /\
      nth k (node_cpus_load s') 0 =
        nth k (node_cpus_load s) 0 + cpus_in_part wayca_sc_cpus_in_node (Z.of_nat k) (covered l).
Proof using Hccl Hnode Htotal.
  intros Hne Hl Hw Hc Hk. exists (charged (covered l) s). split; [by apply occupied_ok|].
  split; [done|]. intros k. unfold charged. dsimpl.
  assert (Hin : forall size (arr : list Z), 0 < size -> length arr = NR_CPUS ->
    Forall (fun c => 0 <= c /\ c / size < Z.of_nat (length arr)) (covered l)).
  { intros size arr Hs Ha. apply Forall_forall. intros c Hcov.
    apply list_elem_of_In, filter_In in Hcov as [Hcov _]. apply list_elem_of_In, elem_of_seqZ in Hcov.
    pose proof (part_in_array size c arr Hs ltac:(lia) Ha). lia. }
  destruct Hc as [Hlc _], Hk as [Hlk _]. split; (apply tally_load; [done|]); by apply Hin.
Qed.
End charge.

(** ** Automatic binding *)

Section auto.
Context `{T : Topology} `{NT : NodesTotal} `{Sys : System} `{TM : TopoMasks} `{IF : IrqFiles}.
Context (stack : cpu_set_t) (heap : option (list task_cpu_map)).

(** The system after a task was bound to a part of the machine. *)
Definition after_bind (pid : Z) (mask : Z + cpu_set_t) (sc : sched) : sched :=
  match mask with
  | inl _ => sc
  | inr mask => set_trace (EvSetaffinity pid sizeof_cpu_set_t mask :: trace sc) sc
  end.

Lemma on_sched_bind r pid s :
  exists ret, on_sched (with_mask r (thread_sched_setaffinity pid sizeof_cpu_set_t)) s =
    Ok (ret, set_dd_sched (after_bind pid r (dd_sched s)) s).
Proof using.
  destruct r as [err|mask]; unfold on_sched, with_mask, mret, M_ret; [exists err|eexists]; [|reflexivity].
  by destruct s.
Qed.

Context (Hccl : 0 < wayca_sc_cpus_in_ccl) (Hnode : 0 < wayca_sc_cpus_in_node).
Context (Hdiv : (wayca_sc_cpus_in_ccl | wayca_sc_cpus_in_node)).
Context (Hpack : (wayca_sc_cpus_in_ccl | wayca_sc_cpus_in_package)).

(** The first cluster of a node, and the number of clusters of a package. *)
Definition first_ccl (node : Z) : Z := wayca_sc_cpus_in_node / wayca_sc_cpus_in_ccl * node.
Definition ccls_in_package : Z := wayca_sc_cpus_in_package / wayca_sc_cpus_in_ccl.

Definition ccl_load (s : deployd) (k : Z) : Z := nth (Z.to_nat k) (ccl_cpus_load s) 0.
Definition node_load (s : deployd) (k : Z) : Z := nth (Z.to_nat k) (node_cpus_load s) 0.

(** The first cluster, counted from the node of the devices on, that has room. *)
Definition idle_ccl (prog : program) (s : deployd) (j : Z) : bool :=
  pg_cpu_util prog <=? wayca_sc_cpus_in_ccl - ccl_load s (first_ccl (pg_io_node prog) + j).

(** The demand of the program is charged to cluster [first_ccl + j] and its node; the
    function that binds it is given the number of the first CPU of the cluster in the
    place of that of a cluster, and does nothing when there is no such cluster. *)
Definition bound_to_ccl (prog : program) (j : Z) (s : deployd) : deployd :=
  let k := first_ccl (pg_io_node prog) + j in
  let cpu := k * wayca_sc_cpus_in_ccl in
  set_node_cpus_load
    (<[Z.to_nat (cpu / wayca_sc_cpus_in_node) :=
         node_load s (cpu / wayca_sc_cpus_in_node) + pg_cpu_util prog]> (node_cpus_load s))
    (set_ccl_cpus_load (<[Z.to_nat k := ccl_load s k + pg_cpu_util prog]> (ccl_cpus_load s))
      (set_dd_sched (after_bind (pg_pid prog) (wayca_sc_ccl_cpu_mask cpu) (dd_sched s)) s)).

(** Loads and demands are far from the limits of [int]. *)
Definition modest (l : list Z) : Prop :=
  length l = NR_CPUS /\ Forall (fun v => - 2 ^ 30 <= v < 2 ^ 30) l.

Lemma modest_nth l k : modest l -> - 2 ^ 30 <= nth k l 0 < 2 ^ 30.
Proof using.
  intros [_ Hl]. rewrite nth_lookup. destruct (l !! k) as [v|] eqn:E; [|simpl; lia].
  apply (Forall_lookup_1 _ _ _ _ Hl E).
Qed.

Context (prog : program) (s : deployd).
Context (Hio : 0 <= pg_io_node prog) (Hm : modest (ccl_cpus_load s)) (Hn : modest (node_cpus_load s)).
Context (Hsize : wayca_sc_cpus_in_node < 2 ^ 20) (Hutil : - 2 ^ 29 <= pg_cpu_util prog < 2 ^ 29).
Context (Hfit : first_ccl (pg_io_node prog) + ccls_in_package <= Z.of_nat NR_CPUS).
Context (Hrange : wayca_sc_cpus_in_node * pg_io_node prog + wayca_sc_cpus_in_package < 2 ^ 31).

Lemma node_first_cpu :
  wayca_sc_cpus_in_node * pg_io_node prog = first_ccl (pg_io_node prog) * wayca_sc_cpus_in_ccl.
Proof using Hccl Hdiv.
  unfold first_ccl. destruct Hdiv as [q ->]. rewrite Z.div_mul by lia. lia.
Qed.

Lemma first_ccl_pos : 0 <= first_ccl (pg_io_node prog).
Proof using Hccl Hnode Hio. unfold first_ccl. apply Z.mul_nonneg_nonneg; [|done]. apply Z.div_pos; lia. Qed.

Lemma bind_ccl_ok j :
  0 <= j < ccls_in_package -> idle_ccl prog s j = true ->
  let cpu := (first_ccl (pg_io_node prog) + j) * wayca_sc_cpus_in_ccl in
  (on_sched (thread_bind_ccl (pg_pid prog) cpu);;
   upd_ccl_load (first_ccl (pg_io_node prog) + j) (pg_cpu_util prog);;
   k ← lift (quot cpu wayca_sc_cpus_in_node);
   upd_node_load k (pg_cpu_util prog);;
   mret true) s = Ok (true, bound_to_ccl prog j s).
Proof using Hccl Hnode Hdiv Hio Hm Hn Hutil Hfit.
  intros Hj Hidle cpu. pose proof first_ccl_pos as H0.
  destruct (on_sched_bind (wayca_sc_ccl_cpu_mask cpu) (pg_pid prog) s) as [ret Hb].
  unfold thread_bind_ccl. rewrite (M_bind_ok _ _ _ _ _ Hb).
  set (k := first_ccl (pg_io_node prog) + j) in *.
  assert (Hk : 0 <= k < Z.of_nat NR_CPUS) by lia.
  assert (Hcpu : 0 <= cpu / wayca_sc_cpus_in_node < Z.of_nat NR_CPUS).
  { split; [apply Z.div_pos; nia|]. apply Z.div_lt_upper_bound; [lia|]. unfold cpu.
    destruct Hdiv as [q Hq]. assert (0 < q) by nia. rewrite Hq. nia. }
  pose proof (proj1 Hm) as Lc. pose proof (proj1 Hn) as Ln.
  pose proof (modest_nth (ccl_cpus_load s) (Z.to_nat k) Hm).
  pose proof (modest_nth (node_cpus_load s) (Z.to_nat (cpu / wayca_sc_cpus_in_node)) Hn).
  rewrite quot_ok by nia.
  unfold upd_ccl_load, upd_node_load, get, lift, modify, mbind, M_bind. cbv beta iota. dsimpl.
  rewrite add_load_ok by lia. dsimpl. rewrite add_load_ok by lia. done.
Qed.

Lemma bind_idle_ccl_ok fuel n j :
  0 <= j -> j + Z.of_nat n = ccls_in_package -> (n < fuel)%nat ->
  bind_idle_ccl fuel (j * wayca_sc_cpus_in_ccl) (wayca_sc_cpus_in_node * pg_io_node prog) prog s =
  match List.find (idle_ccl prog s) (seqZ j (Z.of_nat n)) with
  | Some j => Ok (true, bound_to_ccl prog j s)
  | None => Ok (false, s)
  end.
Proof using Hccl Hnode Hdiv Hpack Hio Hm Hn Hutil Hfit Hsize.
  revert fuel j. induction n as [|n IH]; intros fuel j Hj Hjn Hf;
    (destruct fuel as [|fuel]; [lia|]); cbn [bind_idle_ccl].
  - destruct Hpack as [m Ep]. unfold ccls_in_package in Hjn. rewrite Ep, Z.div_mul in Hjn by lia.
    destruct (Z.ltb_spec (j * wayca_sc_cpus_in_ccl) wayca_sc_cpus_in_package); [nia|done].
  - pose proof first_ccl_pos as H0.
    assert (Hlt : j * wayca_sc_cpus_in_ccl < wayca_sc_cpus_in_package).
    { destruct Hpack as [m Ep]. unfold ccls_in_package in Hjn. rewrite Ep, Z.div_mul in Hjn by lia. nia. }
    destruct (Z.ltb_spec (j * wayca_sc_cpus_in_ccl) wayca_sc_cpus_in_package); [|lia].
    rewrite node_first_cpu.
    replace (j * wayca_sc_cpus_in_ccl + first_ccl (pg_io_node prog) * wayca_sc_cpus_in_ccl)
      with ((first_ccl (pg_io_node prog) + j) * wayca_sc_cpus_in_ccl) by lia.
    rewrite (quot_ok _ wayca_sc_cpus_in_ccl) by nia. rewrite Z.div_mul by lia.
    rewrite (M_bind_ok _ _ s (first_ccl (pg_io_node prog) + j) s eq_refl).
    pose proof (modest_nth (ccl_cpus_load s) (Z.to_nat (first_ccl (pg_io_node prog) + j)) Hm).
    assert (Hc2 : wayca_sc_cpus_in_ccl <= wayca_sc_cpus_in_node)
      by (apply Z.divide_pos_le; done).
    unfold ccl_idle_cpu_cores at 1.
    rewrite (M_bind_ok _ _ s (wayca_sc_cpus_in_ccl - ccl_load s (first_ccl (pg_io_node prog) + j)) s).
    2:{ unfold get, lift, mbind, M_bind. cbv beta iota. pose proof (proj1 Hm) as Lc.
        rewrite load_at_nth by lia. unfold mret, M_ret, ccl_load. by rewrite to_int_signed by lia. }
    rewrite (seqZ_cons j) by lia. cbn [List.find]. fold (idle_ccl prog s j).
    destruct (idle_ccl prog s j) eqn:Ei; [by apply bind_ccl_ok; [lia|]|].
    replace (Z.pred (Z.of_nat (S n))) with (Z.of_nat n) by lia. rewrite <- (IH fuel (Z.succ j)) by lia.
    rewrite <- node_first_cpu. f_equal; lia.
Qed.

(** C30. The accounting for a program that does not need memory bandwidth: the first
    cluster is sought, counted from the node of its devices on over a whole package,
    that has enough idle CPUs, and the demand of the program is added to the loads of
    that cluster and of its node. The program itself does not get there: the system
    is asked to bind it to the cluster whose number is that of the first CPU of the
    cluster that was found, and where there is no such cluster the program stays
    unbound. When no cluster has room the program is treated like one that needs a
    whole node. The sizes of clusters, nodes and packages divide each other, and
    loads and demand are far from the limits of an [int]. *)
Theorem auto_bind_low :
  pg_mem_band prog = LOW -> 0 <= wayca_sc_cpus_in_package ->
  process_auto_bind prog s =
  match List.find (idle_ccl prog s) (seqZ 0 ccls_in_package) with
  | Some j => Ok (0, bound_to_ccl prog j s)
  | None => bind_die prog s
  end.
Proof using Hccl Hnode Hdiv Hpack Hio Hm Hn Hutil Hfit Hsize Hrange.
  intros Hlow Hp. unfold process_auto_bind. rewrite to_int_signed by nia.
  destruct (Z.ltb_spec (pg_io_node prog) 0); [lia|]. rewrite Hlow. cbn [Z.eqb LOW].
  assert (Hcp : 0 <= ccls_in_package <= wayca_sc_cpus_in_package).
  { unfold ccls_in_package. split; [apply Z.div_pos; lia|apply Z.div_le_upper_bound; nia]. }
  rewrite <- (Z.mul_0_l wayca_sc_cpus_in_ccl) at 1.
  pose proof (bind_idle_ccl_ok ccl_fuel (Z.to_nat ccls_in_package) 0 ltac:(lia) ltac:(lia)
    ltac:(unfold ccl_fuel; lia)) as Hrun. rewrite Z2Nat.id in Hrun by lia.
  unfold mbind, M_bind. rewrite Hrun. by destruct (List.find _ _).
Qed.
End auto.

(** ** A machine without clusters *)

Section no_clusters.
Context `{T : Topology} (stack : cpu_set_t).
Context (Hccl : wayca_sc_cpus_in_ccl = - ENODATA) (Hnode : 0 < wayca_sc_cpus_in_node).
Context (Htotal : 0 < wayca_sc_cpus_in_total <= CPU_SETSIZE).

Lemma quot_ENODATA i : 0 <= i -> quot i wayca_sc_cpus_in_ccl = Ok (- (i / ENODATA)).
Proof using Hccl.
  intros Hi. unfold quot. rewrite Hccl. destruct (Z.eqb_spec (- ENODATA) 0); [done|].
  by rewrite Z.quot_opp_r, Z.quot_div_nonneg.
Qed.

Lemma charge_no_clusters n i c mask s :
  0 <= i -> i + Z.of_nat n <= CPU_SETSIZE ->
  loads_ok (Z.of_nat n) (ccl_cpus_load s) -> loads_ok (Z.of_nat n) (node_cpus_load s) ->
  i <= c < i + Z.of_nat n -> ENODATA <= c -> CPU_ISSET c mask = true ->
  charge_cpus n i mask s = Fault OutOfBounds.
Proof using Hccl Hnode.
  revert i s. induction n as [|n IH]; intros i s Hi Hle Hc Hk Hin Hbig Hset; [lia|].
  replace (Z.of_nat (S n)) with (Z.of_nat n + 1) in * by lia.
  assert (Hn : 0 <= Z.of_nat n < 2 ^ 31 - 1) by (unfold CPU_SETSIZE in *; lia).
  assert (Hweak : forall l, loads_ok (Z.of_nat n + 1) l -> loads_ok (Z.of_nat n) l).
  { intros l [? Hl]. split; [done|]. apply (Forall_impl _ _ _ Hl). intros v Hv. lia. }
  cbn [charge_cpus]. destruct (CPU_ISSET i mask) eqn:Ei; cbn [when].
  - rewrite quot_ENODATA by done. destruct (decide (ENODATA <= i)) as [Hge|Hlt].
    + assert (0 < i / ENODATA) by (apply Z.div_str_pos; unfold ENODATA in *; lia).
      unfold upd_ccl_load, add_load, load_at, get, lift, mbind, M_bind. cbv beta iota.
      destruct (Z.ltb_spec (- (i / ENODATA)) 0); [done|lia].
    + rewrite Z.div_small by lia. assert (Hne : i <> c) by lia.
      assert (Pk : 0 <= i / wayca_sc_cpus_in_node < Z.of_nat (length (node_cpus_load s)))
        by (apply part_in_array; [done|lia|apply Hk]).
      assert (Pc : 0 <= 0 < Z.of_nat (length (ccl_cpus_load s))) by (rewrite (proj1 Hc); done).
      pose proof (loads_ok_nth (Z.of_nat n + 1) _ (Z.to_nat 0) ltac:(lia) Hc).
      pose proof (loads_ok_nth (Z.of_nat n + 1) _ (Z.to_nat (i / wayca_sc_cpus_in_node)) ltac:(lia) Hk).
      rewrite quot_ok by lia.
      unfold upd_ccl_load, upd_node_load, get, lift, modify, mbind, M_bind. cbv beta iota. dsimpl.
      change (- 0) with 0. rewrite add_load_ok by lia. dsimpl. rewrite add_load_ok by lia.
      apply IH; try done; try lia; dsimpl; by apply loads_ok_insert.
  - assert (Hne : i <> c) by congruence. unfold mret, M_ret, mbind, M_bind.
    apply IH; try done; try lia; by apply Hweak.
Qed.

(** On a machine that does not report clusters the number of CPUs in a cluster is
    -ENODATA; counting an occupied CPU from number 61 on then writes before the
    array of loads. *)
Theorem occupied_without_clusters l c s :
  l <> [] -> Forall (item_ok wayca_sc_cpus_in_total) l -> cpuset_wf stack ->
  loads_ok wayca_sc_cpus_in_total (ccl_cpus_load s) -> loads_ok wayca_sc_cpus_in_total (node_cpus_load s) ->
  ENODATA <= c < wayca_sc_cpus_in_total -> existsb (covers c) l = true ->
  occupied_cpu_to_load stack (print_list l) s = Fault OutOfBounds.
Proof using Hccl Hnode Htotal.
  intros Hne Hl Hw Hc Hk Hin Hcov.
  destruct (list_to_mask_reads _ _ _ Htotal Hne Hl Hw) as (mask & Hmask & _ & Hbits).
  unfold occupied_cpu_to_load. rewrite Hmask. rewrite (M_bind_ok _ _ s (0, mask) s eq_refl). cbn [snd].
  assert (Ht : Z.of_nat (Z.to_nat wayca_sc_cpus_in_total) = wayca_sc_cpus_in_total) by lia.
  unfold mbind at 1, M_bind at 1. assert (ENODATA = 61) by done.
  rewrite (charge_no_clusters _ _ c); rewrite ?Ht; try done; try lia. rewrite Hbits by lia. done.
Qed.
End no_clusters.

(** ** A machine of sixteen CPUs *)

(** Four clusters of four CPUs in two nodes of one package. *)
Module SixteenCpus.
#[local] Instance machine : Topology := {|
  wayca_sc_cpus_in_ccl := 4; wayca_sc_cpus_in_node := 8;
  wayca_sc_cpus_in_package := 16; wayca_sc_cpus_in_total := 16
|}.
#[local] Instance nodes : NodesTotal := 2.
#[local] Instance system : System := {|
  sys_setaffinity _ _ _ _ := 0; sys_getaffinity _ _ := inr CPU_EMPTY; sys_malloc _ _ := true;
  sys_pthread_create _ := inr 1; sys_pthread_join _ _ := 0; sys_pthread_kill _ _ _ := 0;
  sys_tkill _ _ _ := 0; sys_gettid _ := 10; sys_task_dir _ _ := inr [] |}.
Definition part (size k : Z) : Z + cpu_set_t :=
  if (0 <=? k) && (k <? 16 / size) then inr (set_node_cpus (Z.to_nat size) (k * size) CPU_EMPTY)
  else inl (- EINVAL).
#[local] Instance masks : TopoMasks := {|
  wayca_sc_ccl_cpu_mask := part 4; wayca_sc_node_cpu_mask := part 8;
  wayca_sc_package_cpu_mask := part 16; wayca_sc_total_cpu_mask := part 16 0
|}.
#[local] Instance irqs : IrqFiles := {|
  irq_open _ := 3; irq_write _ _ := 1; irq_read _ := inr []
|}.

Definition idle : deployd :=
  mk_deployd (replicate NR_CPUS 0) (replicate NR_CPUS 0) AUTO ALL
    (mk_sched ∅ ∅ ∅ ∅ [] CPU_EMPTY [] [] [] []) [] [].

Lemma occupied_cpus_loads_witness :
  exists s', occupied_cpu_to_load CPU_EMPTY (print_list [Range 1 2; One 4]) idle = Ok (0, s') /\
    nth 0 (ccl_cpus_load s') 0 = 2 /\ nth 1 (ccl_cpus_load s') 0 = 1 /\ nth 0 (node_cpus_load s') 0 = 3.
Proof.
  destruct (occupied_cpus_loads (T := machine) CPU_EMPTY ltac:(cbn; lia) ltac:(cbn; lia)
    ltac:(unfold CPU_SETSIZE; cbn; lia) [Range 1 2; One 4] idle) as (s' & Hrun & _ & Hload).
  - discriminate.
  - repeat (apply Forall_cons; split); [..|apply Forall_nil_2]; constructor;
      change (Z.quot wayca_sc_cpus_in_total 2) with 8; cbn; lia.
  - apply CPU_EMPTY_wf.
  - split; [apply length_replicate|]. apply Forall_replicate. cbn. lia.
  - split; [apply length_replicate|]. apply Forall_replicate. cbn. lia.
  - exists s'. split; [exact Hrun|]. destruct (Hload 0%nat) as [-> ->], (Hload 1%nat) as [-> _].
    vm_compute. repeat split.
Defined.

(** Devices at node 1: the program goes to the third cluster, and the loads say so,
    but it stays unbound, because the machine has no cluster number 8. *)
Definition low : program :=
  mk_program 77 [] [] (replicate MAX_IRQS_BIND (-1, -1)) 2 1 (Some AUTO) LOW.

Lemma modest_zero : modest (replicate NR_CPUS 0).
Proof. split; [apply length_replicate|]. apply Forall_replicate. lia. Qed.

Lemma auto_bind_low_witness :
  process_auto_bind low idle = Ok (0, bound_to_ccl low 0 idle) /\
  trace (dd_sched (bound_to_ccl low 0 idle)) = [] /\
  nth 2 (ccl_cpus_load (bound_to_ccl low 0 idle)) 0 = 2.
Proof.
  split; [|split; vm_compute; reflexivity].
  rewrite (auto_bind_low (T := machine) ltac:(cbn; lia) ltac:(cbn; lia) ltac:(by exists 2) ltac:(by exists 4) low idle
    ltac:(cbn; lia) modest_zero modest_zero ltac:(cbn; lia) ltac:(cbn; lia)
    ltac:(vm_compute; discriminate) ltac:(cbn; lia) eq_refl ltac:(cbn; lia)).
  reflexivity.
Defined.

(** The memory for the mappings is not cleared: what it held decides the loads. *)
Definition fine : program :=
  mk_program 77 [] (s2l "1@c1$2"%string) (replicate MAX_IRQS_BIND (-1, -1)) 2 0 (Some FINE) LOW.
Definition garbage : list task_cpu_map :=
  zero_map :: mk_task_cpu_map (CPU_SET 0 CPU_EMPTY) (CPU_SET 9 CPU_EMPTY) CPU_EMPTY 5
    :: replicate 98 zero_map.

Definition loads_after (heap : list task_cpu_map) : option (list Z) :=
  match process_managed_threads_bind (Some heap) fine idle with
  | Ok (_, s) => Some (take 2 (node_cpus_load s))
  | Fault _ => None
  end.

(** The loads that the daemon adds for a program with managed threads depend on
    the memory that malloc returns. *)
Theorem managed_bind_reads_garbage :
  loads_after (replicate MAX_MANAGED_MAPS zero_map) = Some [2; 0] /\ loads_after garbage = Some [2; 5].
Proof. vm_compute. done. Qed.
End SixteenCpus.

(** Ninety-six CPUs, clusters not reported. *)
Module NoClusters.
#[local] Instance machine : Topology := {|
  wayca_sc_cpus_in_ccl := - ENODATA; wayca_sc_cpus_in_node := 24;
  wayca_sc_cpus_in_package := 48; wayca_sc_cpus_in_total := 96
|}.

Lemma occupied_without_clusters_witness :
  occupied_cpu_to_load CPU_EMPTY (print_list [Range 60 62]) SixteenCpus.idle = Fault OutOfBounds.
Proof.
  apply (occupied_without_clusters (T := machine) CPU_EMPTY eq_refl ltac:(cbn; lia)
    ltac:(unfold CPU_SETSIZE; cbn; lia) [Range 60 62] 61).
  - discriminate.
  - apply Forall_cons. split; [|apply Forall_nil_2]. constructor;
      change (Z.quot wayca_sc_cpus_in_total 2) with 48; cbn; lia.
  - apply CPU_EMPTY_wf.
  - split; [apply length_replicate|]. apply Forall_replicate. cbn. lia.
  - split; [apply length_replicate|]. apply Forall_replicate. cbn. lia.
  - cbn. unfold ENODATA. lia.
  - reflexivity.
Defined.
End NoClusters.
