(* ===== verification/Daemon.v ===== *)
(** * The event loop of the daemon

    [main] of [deployd.c]: clients connect, send descriptions of programs and
    disconnect. A turn of the loop is a step; what [select], [accept] and [read]
    give is chosen by the environment. *)

From Stdlib Require Import Ascii String.
From S2P Require Import Prelude Bitops Cpuset Cstring State Group Affinity Irq Managed.
From S2P Require Import TopoState Config.
From S2P Require Import Deployd.

Definition FD_SETSIZE : nat := 1024.

Record daemon := mk_daemon {
  dm_client : list Z;
  dm_allset : gset Z;
  dm_maxfd : Z;
  dm_closed : list Z;  (** descriptors that were closed, newest first *)
  dm_deployd : deployd;
}.

(** The end of the connection, a description, or an error that leaves the
    description uninitialised. *)
Inductive read_result :=
  | ReadEof
  | ReadData (prog : program)
  | ReadError.

(** What the system gives in one turn. *)
Record round := mk_round {
  rd_select : option (gset Z);  (** the ready descriptors, or an error *)
  rd_accept : Z;
  rd_read : Z -> read_result;
  rd_write : Z -> write_result;
}.

(** The process ends, or goes on. *)
Inductive verdict :=
  | Exit (code : Z)
  | Next (d : daemon).

Definition fd_in_set (fd : Z) : bool := (0 <=? fd) && (fd <? Z.of_nat FD_SETSIZE).

Definition FD_SET (fd : Z) (s : gset Z) : outcome (gset Z) :=
  if fd_in_set fd then Ok (s ∪ {[fd]}) else Fault OutOfBounds.
Definition FD_CLR (fd : Z) (s : gset Z) : outcome (gset Z) :=
  if fd_in_set fd then Ok (s ∖ {[fd]}) else Fault OutOfBounds.
Definition FD_ISSET (fd : Z) (s : gset Z) : outcome bool :=
  if fd_in_set fd then Ok (bool_decide (fd ∈ s)) else Fault OutOfBounds.

Section daemon.
Context `{T : Topology} `{NT : NodesTotal} `{Sys : System} `{TM : TopoMasks} `{IF : IrqFiles}.
Context (stack : cpu_set_t) (heap : option (list task_cpu_map)) (socket_fd : Z).

(** The search for a free place in the table. *)
Fixpoint add_client (cli_fd : Z) (client : list Z) : option (list Z) :=
  match client with
  | [] => None
  | fd :: client =>
    if fd <? 0 then Some (cli_fd :: client)
    else option_map (cons fd) (add_client cli_fd client)
  end.

(** A client that is ready: its new entry in the table and the new state. *)
Definition serve_client (rd : round) (fd : Z) (d : daemon) : outcome (Z * daemon) :=
  match rd_read rd fd with
  | ReadEof =>
    allset ← FD_CLR fd (dm_allset d);
    Ok (-1, mk_daemon (dm_client d) allset (dm_maxfd d) (fd :: dm_closed d) (dm_deployd d))
  | ReadData prog =>
    r ← deploy_program stack heap prog fd (rd_write rd fd) (dm_deployd d);
    Ok (fd, mk_daemon (dm_client d) (dm_allset d) (dm_maxfd d) (dm_closed d) r.2)
  | ReadError => Fault Uninitialised
  end.

(** The loop over the table from an entry on: the new entries. *)
Fixpoint serve_clients (rd : round) (rset : gset Z) (client : list Z) (events : Z) (d : daemon)
    : outcome (list Z * daemon) :=
  match client with
  | [] => Ok ([], d)
  | fd :: client =>
    ready ← (if 0 <=? fd then FD_ISSET fd rset else Ok false);
    if (ready : bool) then
      r ← serve_client rd fd d;
      if events - 1 =? 0 then Ok (r.1 :: client, r.2)
      else rest ← serve_clients rd rset client (events - 1) r.2; Ok (r.1 :: rest.1, rest.2)
    else rest ← serve_clients rd rset client events d; Ok (fd :: rest.1, rest.2)
  end.

Definition set_dm_client (client : list Z) (d : daemon) : daemon :=
  mk_daemon client (dm_allset d) (dm_maxfd d) (dm_closed d) (dm_deployd d).

(** One turn. *)
Definition daemon_round (rd : round) (d : daemon) : outcome verdict :=
  match rd_select rd with
  | None => Ok (Exit (-1))
  | Some rset =>
    let events := Z.of_nat (size rset) in
    if decide (socket_fd ∈ rset) then
      let cli_fd := rd_accept rd in
      match add_client cli_fd (dm_client d) with
      | None => Ok (Exit 1)
      | Some client =>
        allset ← FD_SET cli_fd (dm_allset d);
        let d := mk_daemon client allset (Z.max (dm_maxfd d) cli_fd) (dm_closed d) (dm_deployd d) in
        if events - 1 =? 0 then Ok (Next d)
        else
          r ← serve_clients rd rset (dm_client d) (events - 1) d;
          Ok (Next (set_dm_client r.1 r.2))
      end
    else
      r ← serve_clients rd rset (dm_client d) events d;
      Ok (Next (set_dm_client r.1 r.2))
  end.

(** The state at the beginning of the loop, with the configuration file read. *)
Definition daemon_start (dd : deployd) : daemon :=
  mk_daemon (replicate FD_SETSIZE (-1)) {[socket_fd]} socket_fd [] dd.
End daemon.

(** ** Deploying a program answers its client once *)

Definition silent {A} (m : M deployd A) : Prop :=
  forall s a s', m s = Ok (a, s') -> dd_notified s' = dd_notified s.

Lemma silent_bind {A B} (m : M deployd A) (f : A -> M deployd B) :
  silent m -> (forall a, silent (f a)) -> silent (mbind f m).
Proof.
  intros Hm Hf s b s' (a & s1 & H1 & H2)%M_bind_inv. by rewrite (Hf a _ _ _ H2), (Hm _ _ _ H1).
Qed.
Lemma silent_ret {A} (a : A) : silent (mret a).
Proof. by intros s b s' [= <- <-]. Qed.
Lemma silent_get : silent get.
Proof. by intros s b s' [= <- <-]. Qed.
Lemma silent_lift {A} (o : outcome A) : silent (lift o).
Proof. intros s b s'. destruct o; [|done]. by intros [= <- <-]. Qed.
Lemma silent_throw {A} f : silent (@throw deployd A f).
Proof. done. Qed.
Lemma silent_modify f : (forall s, dd_notified (f s) = dd_notified s) -> silent (modify f).
Proof. intros Hf s b s' [= <- <-]. apply Hf. Qed.
Lemma silent_sched {A} (m : M sched A) : silent (on_sched m).
Proof. intros s b s'. unfold on_sched. destruct (m _) as [[a sc]|]; [|done]. by intros [= <- <-]. Qed.
Lemma silent_when b m : silent m -> silent (when b m).
Proof. intros Hm. destruct b; [done|apply silent_ret]. Qed.

Create HintDb silent.
#[export] Hint Resolve silent_ret silent_get silent_lift silent_throw silent_sched silent_when : silent.
#[export] Hint Extern 1 (silent (modify _)) => by apply silent_modify : silent.

Ltac silent_step :=
  match goal with
  | |- silent (mbind _ _) => apply silent_bind; [|intros ?]
  | |- silent (if ?b then _ else _) => destruct b
  | |- silent (match ?x with _ => _ end) => destruct x
  | |- silent (when _ _) => apply silent_when
  end.
Ltac silent := repeat first [solve [eauto with silent] | silent_step].

Section silent.
Context `{T : Topology} `{NT : NodesTotal} `{Sys : System} `{TM : TopoMasks} `{IF : IrqFiles}.
Context (stack : cpu_set_t) (heap : option (list task_cpu_map)).

Lemma silent_ccl i v : silent (upd_ccl_load i v).
Proof using. unfold upd_ccl_load. silent. Qed.
Lemma silent_node i v : silent (upd_node_load i v).
Proof using. unfold upd_node_load. silent. Qed.
Hint Resolve silent_ccl silent_node : silent.

Lemma silent_charge_cpus n i mask : silent (charge_cpus n i mask).
Proof using. revert i. induction n as [|n IH]; intros i; cbn [charge_cpus]; silent. Qed.
Lemma silent_charge_nodes n j nodes v : silent (charge_nodes n j nodes v).
Proof using. revert j. induction n as [|n IH]; intros j; cbn [charge_nodes]; silent. Qed.
Lemma silent_charge_shares n j cpus u c : silent (charge_shares n j cpus u c).
Proof using. revert j. induction n as [|n IH]; intros j; cbn [charge_shares]; silent. Qed.
Hint Resolve silent_charge_cpus silent_charge_nodes silent_charge_shares : silent.
Lemma silent_charge_maps maps : silent (charge_maps maps).
Proof using. induction maps as [|m maps IH]; cbn [charge_maps]; unfold charge_map; silent. Qed.
Hint Resolve silent_charge_maps : silent.

Lemma silent_bind_idle_ccl fuel i cpu prog : silent (bind_idle_ccl fuel i cpu prog).
Proof using.
  revert i. induction fuel as [|fuel IH]; intros i; cbn [bind_idle_ccl]; unfold ccl_idle_cpu_cores; silent.
Qed.
Lemma silent_bind_die prog : silent (bind_die prog).
Proof using. unfold bind_die, node_idle_cpu_cores. silent. Qed.
Lemma silent_bind_irqs pairs : silent (bind_irqs pairs).
Proof using. induction pairs as [|[irq cpu] pairs IH]; cbn [bind_irqs]; silent. Qed.
Hint Resolve silent_bind_idle_ccl silent_bind_die silent_bind_irqs : silent.

Lemma deploy_notifies prog fd written s r s' :
  deploy_program stack heap prog fd written s = Ok (r, s') ->
  dd_notified s' = (if decide (written = WriteOk) then [fd] else []) ++ dd_notified s.
Proof using.
  unfold deploy_program. destruct (pg_task_bind_mode prog) as [mode|]; [|done]. intros H.
  apply M_bind_inv in H as (a & s1 & H1 & H). apply M_bind_inv in H as ([] & s2 & H2 & H).
  apply M_bind_inv in H as ([] & s3 & H3 & [= <- <-]).
  assert (Hs : silent (if mode =? AUTO then process_auto_bind prog
     else if (mode =? COARSE) && (0 <? Z.of_nat (length (pg_cpu_list prog)))
          then process_cpulist_bind stack prog
     else if (mode =? FINE) && (0 <? Z.of_nat (length (pg_cpu_list prog)))
          then process_managed_threads_bind heap prog else mret 0)).
  { unfold process_auto_bind, process_cpulist_bind, process_managed_threads_bind. silent. }
  pose proof (silent_bind_irqs _ _ _ _ H2) as E2. rewrite (Hs _ _ _ H1) in E2.
  destruct written; [injection H3 as <-|injection H3 as <-|done]; dsimpl; by rewrite <- E2.
Qed.
End silent.

(** ** The table of clients *)

Definition clients (table : list Z) : list Z := filter (fun fd => 0 <= fd) table.

Definition at_eof (rd : round) (fd : Z) : Prop :=
  match rd_read rd fd with ReadEof => True | _ => False end.
#[export] Instance at_eof_dec rd fd : Decision (at_eof rd fd).
Proof. unfold at_eof. destruct (rd_read rd fd); apply _. Defined.

(** The clients that are ready, in the order of the table: those that left, and
    those that sent a description. *)
Definition ready (rset : gset Z) (table : list Z) : list Z :=
  filter (fun fd => fd ∈ rset) (clients table).
Definition left (rd : round) (l : list Z) : list Z := filter (fun fd => at_eof rd fd) l.
Definition sent (rd : round) (l : list Z) : list Z := filter (fun fd => ~ at_eof rd fd) l.

(** The clients that receive the answer. *)
Definition answered (rd : round) (l : list Z) : list Z :=
  filter (fun fd => rd_write rd fd = WriteOk) l.

Lemma clients_cons fd table :
  clients (fd :: table) = if 0 <=? fd then fd :: clients table else clients table.
Proof.
  unfold clients. destruct (Z.leb_spec 0 fd).
  - by rewrite filter_cons_True.
  - rewrite filter_cons_False by lia. done.
Qed.

Lemma ready_cons rset fd table :
  ready rset (fd :: table) =
  if (0 <=? fd) && bool_decide (fd ∈ rset) then fd :: ready rset table else ready rset table.
Proof.
  unfold ready. rewrite clients_cons. destruct (0 <=? fd); [|done]. cbn [andb].
  case_bool_decide; [by rewrite filter_cons_True|by rewrite filter_cons_False].
Qed.

Section serve.
Context `{T : Topology} `{NT : NodesTotal} `{Sys : System} `{TM : TopoMasks} `{IF : IrqFiles}.
Context (stack : cpu_set_t) (heap : option (list task_cpu_map)).

(** The programs that the clients [l] sent, deployed one after the other. *)
Fixpoint deploy_all (rd : round) (l : list Z) : M deployd unit :=
  match l with
  | [] => mret tt
  | fd :: l =>
    match rd_read rd fd with
    | ReadData prog => deploy_program stack heap prog fd (rd_write rd fd);; deploy_all rd l
    | _ => throw Uninitialised
    end
  end.

Lemma deploy_all_cons rd fd l s s1 s' :
  deploy_all rd [fd] s = Ok (tt, s1) -> deploy_all rd l s1 = Ok (tt, s') ->
  deploy_all rd (fd :: l) s = Ok (tt, s').
Proof using.
  cbn [deploy_all]. destruct (rd_read rd fd) as [|prog|]; [done| |done]. intros H1 H2.
  apply M_bind_inv in H1 as (a & s2 & H1 & [= ->]). by rewrite (M_bind_ok _ _ _ _ _ H1).
Qed.

Lemma deploy_all_inv rd fd l s s' :
  deploy_all rd (fd :: l) s = Ok (tt, s') ->
  exists prog a s1, rd_read rd fd = ReadData prog /\
    deploy_program stack heap prog fd (rd_write rd fd) s = Ok (a, s1) /\ deploy_all rd l s1 = Ok (tt, s').
Proof using.
  cbn [deploy_all]. destruct (rd_read rd fd) as [|prog|]; [done| |done].
  intros (a & s1 & H1 & H2)%M_bind_inv. eauto 10.
Qed.

Lemma deploy_all_notifies rd l s s' :
  deploy_all rd l s = Ok (tt, s') -> dd_notified s' = rev (answered rd l) ++ dd_notified s.
Proof using.
  revert s. induction l as [|fd l IH]; intros s; [by intros [= ->]|].
  intros (prog & a & s1 & _ & H1%deploy_notifies & H2%IH)%deploy_all_inv. rewrite H2, H1.
  unfold answered in *. rewrite filter_cons. destruct (decide _); simpl; [|done].
  by rewrite <- app_assoc.
Qed.

(** What serving the ready clients [l] does to the state. *)
Record served (rd : round) (l : list Z) (d d' : daemon) : Prop := {
  sv_allset : dm_allset d' = dm_allset d ∖ list_to_set (left rd l);
  sv_maxfd : dm_maxfd d' = dm_maxfd d;
  sv_closed : dm_closed d' = rev (left rd l) ++ dm_closed d;
  sv_deployed : deploy_all rd (sent rd l) (dm_deployd d) = Ok (tt, dm_deployd d');
}.

Lemma served_nil rd d : served rd [] d d.
Proof using. constructor; try done. simpl. set_solver. Qed.

Lemma served_cons rd fd l d d1 d' : served rd [fd] d d1 -> served rd l d1 d' -> served rd (fd :: l) d d'.
Proof using.
  intros [A1 A2 A3 A4] [B1 B2 B3 B4].
  assert (E : left rd (fd :: l) = left rd [fd] ++ left rd l) by apply (filter_app _ [fd]).
  assert (E' : sent rd (fd :: l) = sent rd [fd] ++ sent rd l) by apply (filter_app _ [fd]).
  constructor.
  - rewrite B1, A1, E, list_to_set_app_L. set_solver.
  - by rewrite B2.
  - by rewrite B3, A3, E, rev_app_distr, app_assoc.
  - rewrite E'. unfold sent in *. rewrite !filter_cons in *. destruct (decide _); cbn [filter app] in *.
    + by eapply deploy_all_cons.
    + injection A4 as ->. done.
Qed.

Lemma serve_client_ok rd fd d fd' d' :
  serve_client stack heap rd fd d = Ok (fd', d') ->
  served rd [fd] d d' /\ fd' = if decide (at_eof rd fd) then -1 else fd.
Proof using.
  unfold serve_client. intros H. destruct (rd_read rd fd) as [|prog|] eqn:E; [..|done].
  - assert (He : at_eof rd fd) by (unfold at_eof; by rewrite E).
    unfold FD_CLR in H. destruct (fd_in_set fd); [|done]. injection H as <- <-.
    rewrite decide_True by done. split; [|done].
    constructor; unfold left, sent; rewrite ?filter_cons_True, ?filter_cons_False by tauto; try done.
    simpl. set_solver.
  - assert (He : ~ at_eof rd fd) by (unfold at_eof; rewrite E; tauto).
    destruct (deploy_program stack heap prog fd (rd_write rd fd) (dm_deployd d)) as [[r s']|] eqn:Ed; [|done].
    injection H as <- <-. rewrite decide_False by done. split; [|done].
    constructor; unfold left, sent; rewrite ?filter_cons_True, ?filter_cons_False by tauto; try done.
    + simpl. set_solver.
    + cbn [filter deploy_all dm_deployd snd]. rewrite E. by rewrite (M_bind_ok _ _ _ _ _ Ed).
Qed.

(** The entries of the table after the ready clients were served. *)
Definition keep_entry (rd : round) (rset : gset Z) (fd : Z) : Z :=
  if decide (0 <= fd /\ fd ∈ rset /\ at_eof rd fd) then -1 else fd.

Lemma keep_rest rd rset table :
  ready rset table = [] -> map (keep_entry rd rset) table = table.
Proof using.
  induction table as [|fd table IH]; [done|]. rewrite ready_cons. cbn [map]. unfold keep_entry at 1.
  destruct (Z.leb_spec 0 fd); cbn [andb].
  - case_bool_decide; [done|]. intros Hr. rewrite decide_False by tauto. by rewrite IH.
  - intros Hr. rewrite decide_False by lia. by rewrite IH.
Qed.

(** The loop counts the ready clients down and stops behind the last of them, so
    none is left out. *)
Lemma serve_clients_ok rd rset table d table' d' :
  serve_clients stack heap rd rset table (Z.of_nat (length (ready rset table))) d = Ok (table', d') ->
  served rd (ready rset table) d d' /\ table' = map (keep_entry rd rset) table.
Proof using.
  revert d table' d'. induction table as [|fd table IH]; intros d table' d'; cbn [serve_clients].
  { intros [= <- <-]. split; [apply served_nil|done]. }
  rewrite ready_cons. intros H. cbn [map].
  destruct (Z.leb_spec 0 fd) as [Hfd|Hfd]; cbn [andb] in *.
  - unfold FD_ISSET in H. destruct (fd_in_set fd); [|done].
    change (mbind ?f (Ok ?a)) with (f a) in H. cbv beta in H.
    case_bool_decide as Hin.
    + destruct (serve_client stack heap rd fd d) as [[fd' d1]|] eqn:Es; [|done].
      apply serve_client_ok in Es as [Hs ->]. cbn [fst snd] in H.
      change (mbind ?f (Ok ?a)) with (f a) in H. cbv beta in H. cbn [fst snd] in H.
      assert (Ek : (if decide (at_eof rd fd) then -1 else fd) = keep_entry rd rset fd).
      { unfold keep_entry. by destruct (decide (at_eof rd fd)), (decide (0 <= fd /\ fd ∈ rset /\ at_eof rd fd)) ; tauto || done. }
      rewrite Ek in H. cbn [length] in H.
      replace (Z.of_nat (S (length (ready rset table))) - 1) with (Z.of_nat (length (ready rset table)))
        in H by lia.
      destruct (Z.eqb_spec (Z.of_nat (length (ready rset table))) 0) as [E0|_].
      * injection H as <- <-. assert (Er : ready rset table = []) by (apply nil_length_inv; lia).
        rewrite Er. split; [done|]. by rewrite keep_rest.
      * destruct (serve_clients _ _ _ _ _ _ _) as [[t2 d2]|] eqn:E2; [|done]. injection H as <- <-.
        apply IH in E2 as [Hs2 ->]. split; [by eapply served_cons|done].
    + destruct (serve_clients _ _ _ _ _ _ _) as [[t2 d2]|] eqn:E2; [|done]. injection H as <- <-.
      apply IH in E2 as [Hs2 ->]. split; [done|]. unfold keep_entry at 2. by rewrite decide_False by tauto.
  - change (mbind ?f (Ok ?a)) with (f a) in H. cbv beta iota in H.
    destruct (serve_clients _ _ _ _ _ _ _) as [[t2 d2]|] eqn:E2; [|done]. injection H as <- <-.
    apply IH in E2 as [Hs2 ->]. split; [done|]. unfold keep_entry at 2. by rewrite decide_False by lia.
Qed.
(** The loop comes to its end when the deployments do. *)
Lemma serve_clients_run rd rset table d dd' :
  Forall (fun fd => fd_in_set fd = true) (clients table) ->
  deploy_all rd (sent rd (ready rset table)) (dm_deployd d) = Ok (tt, dd') ->
  exists table' d',
    serve_clients stack heap rd rset table (Z.of_nat (length (ready rset table))) d = Ok (table', d').
Proof using.
  revert d. induction table as [|fd table IH]; intros d Hrange Hdep; [by eexists _, _|].
  cbn [serve_clients]. rewrite clients_cons in Hrange. rewrite ready_cons in *.
  destruct (Z.leb_spec 0 fd) as [Hfd|]; cbn [andb] in *.
  2:{ destruct (IH d Hrange Hdep) as (t & d' & Hrun). change (mbind ?f (Ok ?a)) with (f a). cbv beta iota.
      rewrite Hrun. by eexists _, _. }
  apply Forall_cons in Hrange as [Hin Hrange]. unfold FD_ISSET at 1. rewrite Hin.
  change (mbind ?f (Ok ?a)) with (f a). cbv beta. case_bool_decide as Hset.
  2:{ destruct (IH d Hrange Hdep) as (t & d' & ->). by eexists _, _. }
  assert (H1 : exists fd' d1, serve_client stack heap rd fd d = Ok (fd', d1) /\
    deploy_all rd (sent rd (ready rset table)) (dm_deployd d1) = Ok (tt, dd')).
  { unfold sent in Hdep. rewrite filter_cons in Hdep. unfold serve_client.
    destruct (decide _) as [Hne|He].
    - apply deploy_all_inv in Hdep as (prog & a & s1 & -> & Hp & Hdep). rewrite Hp. by eexists _, _.
    - unfold at_eof in He. destruct (rd_read rd fd) as [|prog|]; [|tauto..].
      unfold FD_CLR. rewrite Hin. by eexists _, _. }
  destruct H1 as (fd' & d1 & -> & Hdep1). change (mbind ?f (Ok ?a)) with (f a). cbv beta.
  cbn [fst snd length]. replace (Z.of_nat (S (length (ready rset table))) - 1)
    with (Z.of_nat (length (ready rset table))) by lia.
  case_match; [by eexists _, _|]. destruct (IH d1 Hrange Hdep1) as (t & d' & ->). by eexists _, _.
Qed.
End serve.

(** ** The loop *)

Section loop.
Context `{T : Topology} `{NT : NodesTotal} `{Sys : System} `{TM : TopoMasks} `{IF : IrqFiles}.
Context (stack : cpu_set_t) (heap : option (list task_cpu_map)) (socket_fd : Z).

(** The table and the set of descriptors agree. *)
Record daemon_ok (d : daemon) : Prop := {
  do_length : length (dm_client d) = FD_SETSIZE;
  do_nodup : NoDup (clients (dm_client d));
  do_range : Forall (fun fd => fd_in_set fd = true) (clients (dm_client d));
  do_socket : socket_fd ∉ clients (dm_client d);
  do_allset : dm_allset d = {[socket_fd]} ∪ list_to_set (clients (dm_client d));
  do_maxfd fd : fd ∈ dm_allset d -> fd <= dm_maxfd d;
}.

(** What the system promises: only descriptors that were asked for are ready, and
    a new descriptor is not one of those that are open. *)
Record round_ok (rd : round) (d : daemon) : Prop := {
  ro_select rset : rd_select rd = Some rset -> rset ⊆ dm_allset d;
  ro_accept : 0 <= rd_accept rd /\ rd_accept rd ∉ dm_allset d;
}.

Lemma daemon_start_ok dd : daemon_ok (daemon_start socket_fd dd).
Proof using.
  assert (E : clients (replicate FD_SETSIZE (-1)) = []) by (vm_compute; reflexivity).
  constructor; cbn [dm_client dm_allset dm_maxfd daemon_start]; rewrite ?E.
  - apply length_replicate.
  - apply NoDup_nil_2.
  - apply Forall_nil_2.
  - apply not_elem_of_nil.
  - rewrite list_to_set_nil. set_solver +.
  - intros fd ->%elem_of_singleton. done.
Qed.

Lemma add_client_ok fd table table' :
  0 <= fd -> add_client fd table = Some table' ->
  length table' = length table /\ clients table' ≡ₚ fd :: clients table.
Proof using.
  intros Hfd. revert table'. induction table as [|x table IH]; intros table'; [done|].
  cbn [add_client]. destruct (Z.ltb_spec x 0).
  - intros [= <-]. split; [done|]. rewrite !clients_cons.
    destruct (Z.leb_spec 0 fd); [|lia]. destruct (Z.leb_spec 0 x); [lia|done].
  - destruct (add_client fd table) as [t|]; [|done]. intros [= <-].
    destruct (IH t eq_refl) as [Hl Hp]. split; [simpl; by rewrite Hl|].
    rewrite !clients_cons. destruct (Z.leb_spec 0 x); [|lia]. rewrite Hp. apply Permutation_swap.
Qed.

(** The number of ready descriptors. *)
Lemma ready_count table rset :
  NoDup (clients table) -> socket_fd ∉ clients table ->
  rset ⊆ {[socket_fd]} ∪ list_to_set (clients table) ->
  Z.of_nat (size rset) =
  Z.of_nat (length (ready rset table)) + if decide (socket_fd ∈ rset) then 1 else 0.
Proof using.
  intros Hnd Hs Hsub.
  assert (Hr : NoDup (ready rset table)) by (by apply NoDup_filter).
  assert (Hin : forall fd, fd ∈ ready rset table <-> fd ∈ rset /\ fd <> socket_fd).
  { intros fd. unfold ready. rewrite list_elem_of_filter. split; [intros [? ?]; split; [done|congruence]|].
    intros [H1 H2]. split; [done|]. apply Hsub in H1. set_solver. }
  destruct (decide (socket_fd ∈ rset)) as [Hin'|Hnot].
  - assert (E : rset = {[socket_fd]} ∪ list_to_set (ready rset table)).
    { apply set_eq. intros fd. rewrite elem_of_union, elem_of_singleton, elem_of_list_to_set, Hin.
      destruct (decide (fd = socket_fd)) as [->|]; tauto. }
    rewrite E at 1. rewrite size_union, size_singleton, size_list_to_set by
      (done || (rewrite disjoint_singleton_l, elem_of_list_to_set, Hin; tauto)). lia.
  - assert (E : rset = list_to_set (ready rset table)).
    { apply set_eq. intros fd. rewrite elem_of_list_to_set, Hin. split; [|tauto]. intros H.
      split; [done|]. congruence. }
    rewrite E at 1. rewrite size_list_to_set by done. lia.
Qed.

Lemma keep_clients rd rset table :
  clients (map (keep_entry rd rset) table) =
  filter (fun fd => ~ (fd ∈ rset /\ at_eof rd fd)) (clients table).
Proof using.
  induction table as [|fd table IH]; [done|]. cbn [map]. rewrite !clients_cons, IH. unfold keep_entry at 1 2.
  destruct (decide (0 <= fd /\ fd ∈ rset /\ at_eof rd fd)) as [(H1 & H2 & H3)|Hn]; simpl.
  - destruct (Z.leb_spec 0 fd); [|lia]. by rewrite filter_cons_False by tauto.
  - destruct (Z.leb_spec 0 fd); [|done]. by rewrite filter_cons_True by tauto.
Qed.

(** Serving the ready clients keeps the agreement. *)
Lemma served_ok rd rset d d' :
  daemon_ok d -> served stack heap rd (ready rset (dm_client d)) d d' ->
  daemon_ok (set_dm_client (map (keep_entry rd rset) (dm_client d)) d').
Proof using.
  intros [Hl Hnd Hrg Hs Ha Hm] [A1 A2 A3 A4].
  constructor; unfold set_dm_client; cbn [dm_client dm_allset dm_maxfd]; rewrite ?keep_clients.
  - by rewrite length_map.
  - by apply NoDup_filter.
  - apply Forall_forall. intros fd [_ Hfd]%list_elem_of_filter. by eapply Forall_forall in Hrg.
  - rewrite list_elem_of_filter. tauto.
  - rewrite A1, Ha. apply set_eq. intros fd.
    rewrite elem_of_difference, !elem_of_union, elem_of_singleton, !elem_of_list_to_set.
    unfold left, ready. rewrite !list_elem_of_filter.
    destruct (decide (fd = socket_fd)) as [->|]; [tauto|].
    destruct (decide (fd ∈ rset)), (decide (at_eof rd fd)); tauto.
  - intros fd. rewrite A1, A2. intros [Hfd _]%elem_of_difference. by apply Hm.
Qed.

Lemma add_client_ready fd rset table table' :
  fd ∉ rset -> add_client fd table = Some table' -> ready rset table' = ready rset table.
Proof using.
  intros Hfd. revert table'. induction table as [|x table IH]; intros table'; [done|].
  cbn [add_client]. destruct (Z.ltb_spec x 0).
  - intros [= <-]. rewrite !ready_cons, (bool_decide_false _ Hfd), andb_false_r.
    by destruct (Z.leb_spec 0 x); [lia|].
  - destruct (add_client fd table) as [t|]; [|done]. intros [= <-]. by rewrite !ready_cons, (IH t).
Qed.

(** A new client is entered. *)
Lemma accept_ok fd table' allset d :
  daemon_ok d -> 0 <= fd -> fd ∉ dm_allset d -> add_client fd (dm_client d) = Some table' ->
  FD_SET fd (dm_allset d) = Ok allset ->
  daemon_ok (mk_daemon table' allset (Z.max (dm_maxfd d) fd) (dm_closed d) (dm_deployd d)).
Proof using.
  intros [Hl Hnd Hrg Hs Ha Hm] Hfd Hnew Hadd Hset.
  destruct (add_client_ok _ _ _ Hfd Hadd) as [Hl' Hp].
  unfold FD_SET in Hset. destruct (fd_in_set fd) eqn:Ein; [|done]. injection Hset as <-.
  assert (Hfresh : fd <> socket_fd /\ fd ∉ clients (dm_client d)) by (rewrite Ha in Hnew; set_solver).
  constructor; cbn [dm_client dm_allset dm_maxfd].
  - by rewrite Hl'.
  - rewrite Hp. apply NoDup_cons. tauto.
  - rewrite Hp. by apply Forall_cons.
  - rewrite Hp. set_solver.
  - rewrite Ha. apply set_eq. intros x. rewrite !elem_of_union, !elem_of_singleton, !elem_of_list_to_set, Hp.
    rewrite elem_of_cons. tauto.
  - intros x [Hx| ->%elem_of_singleton]%elem_of_union; [apply Hm in Hx|]; lia.
Qed.

(** What a turn adds to the set of descriptors. *)
Definition accepted (rd : round) (rset : gset Z) : gset Z :=
  if decide (socket_fd ∈ rset) then {[rd_accept rd]} else ∅.

(** The ready clients of a turn, and what became of them. *)
Record turned (rd : round) (rset : gset Z) (d d' : daemon) : Prop := {
  tu_closed : dm_closed d' = rev (left rd (ready rset (dm_client d))) ++ dm_closed d;
  tu_allset : dm_allset d' =
    (dm_allset d ∪ accepted rd rset) ∖ list_to_set (left rd (ready rset (dm_client d)));
  tu_deployed : deploy_all stack heap rd (sent rd (ready rset (dm_client d))) (dm_deployd d) =
    Ok (tt, dm_deployd d');
}.

Lemma round_serves rd d d' :
  daemon_ok d -> round_ok rd d -> daemon_round stack heap socket_fd rd d = Ok (Next d') ->
  daemon_ok d' /\ exists rset, rd_select rd = Some rset /\ turned rd rset d d'.
Proof using.
  intros Hok [Hsel [Hfd Hnew]] H. unfold daemon_round in H.
  destruct (rd_select rd) as [rset|]; [|done]. specialize (Hsel rset eq_refl).
  destruct (decide (socket_fd ∈ rset)) as [Hin|Hnot].
  - destruct (add_client _ _) as [table'|] eqn:Eadd; [|done].
    destruct (FD_SET _ _) as [allset|] eqn:Eset; [|done].
    change (mbind ?f (Ok ?a)) with (f a) in H. cbv beta zeta in H.
    pose proof (accept_ok _ _ _ _ Hok Hfd Hnew Eadd Eset) as Hok1.
    set (d1 := mk_daemon _ _ _ _ _) in H, Hok1.
    assert (Er : ready rset table' = ready rset (dm_client d))
      by (eapply add_client_ready; [|done]; set_solver).
    assert (Hn : Z.of_nat (size rset) - 1 = Z.of_nat (length (ready rset table'))).
    { rewrite (ready_count (dm_client d1)); [|apply Hok1..|].
      { rewrite decide_True by done. change (dm_client d1) with table'. lia. }
      rewrite <- (do_allset _ Hok1). unfold FD_SET in Eset. destruct (fd_in_set _); [|done].
      injection Eset as <-. cbn. set_solver. }
    rewrite Hn in H. destruct (Z.eqb_spec (Z.of_nat (length (ready rset table'))) 0) as [E0|_].
    + injection H as <-. split; [done|]. exists rset. split; [done|].
      assert (E : ready rset (dm_client d) = []) by (apply nil_length_inv; rewrite <- Er; lia).
      unfold FD_SET in Eset. destruct (fd_in_set _); [|done]. injection Eset as <-.
      constructor; rewrite ?E; try done. unfold accepted. rewrite decide_True by done. set_solver +.
    + destruct (serve_clients _ _ _ _ _ _ _) as [[t2 d2]|] eqn:E2; [|done]. injection H as <-.
      apply serve_clients_ok in E2 as [Hs ->]. split; [by apply (served_ok rd rset d1)|].
      exists rset. split; [done|]. destruct Hs as [A1 A2 A3 A4].
      unfold FD_SET in Eset. destruct (fd_in_set _); [|done]. injection Eset as <-.
      constructor; rewrite <- ?Er; try done. unfold accepted. by rewrite decide_True.
  - assert (Hn : Z.of_nat (size rset) = Z.of_nat (length (ready rset (dm_client d)))).
    { rewrite (ready_count (dm_client d)); [rewrite decide_False by done; lia|apply Hok..|].
      by rewrite <- (do_allset _ Hok). }
    rewrite Hn in H. destruct (serve_clients _ _ _ _ _ _ _) as [[t2 d2]|] eqn:E2; [|done]. injection H as <-.
    apply serve_clients_ok in E2 as [Hs ->]. split; [by apply served_ok|].
    exists rset. split; [done|]. destruct Hs as [A1 A2 A3 A4]. constructor; try done.
    unfold accepted. rewrite decide_False, union_empty_r_L by done. exact A1.
Qed.

Lemma add_client_room fd table :
  (length (clients table) < length table)%nat -> is_Some (add_client fd table).
Proof using.
  induction table as [|x table IH]; [simpl; lia|]. rewrite clients_cons. cbn [add_client length].
  destruct (Z.leb_spec 0 x), (Z.ltb_spec x 0); try lia; [|by eexists]. cbn [length]. intros H'.
  destruct IH as [t ->]; [lia|]. by eexists.
Qed.

(** When the deployments come to their end so does the turn. *)
Lemma round_runs rd d rset dd' :
  daemon_ok d -> round_ok rd d -> rd_select rd = Some rset ->
  (socket_fd ∈ rset -> (length (clients (dm_client d)) < FD_SETSIZE)%nat /\
                       rd_accept rd < Z.of_nat FD_SETSIZE) ->
  deploy_all stack heap rd (sent rd (ready rset (dm_client d))) (dm_deployd d) = Ok (tt, dd') ->
  exists d', daemon_round stack heap socket_fd rd d = Ok (Next d').
Proof using.
  intros Hok [Hsel [Hfd Hnew]] Hrs Hroom Hdep. unfold daemon_round. rewrite Hrs.
  specialize (Hsel rset Hrs). destruct (decide (socket_fd ∈ rset)) as [Hin|Hnot].
  - destruct (Hroom Hin) as [Hlen Hlt]. rewrite <- (do_length _ Hok) in Hlen.
    destruct (add_client_room (rd_accept rd) _ Hlen) as [table' Eadd]. rewrite Eadd.
    assert (Ein : fd_in_set (rd_accept rd) = true).
    { unfold fd_in_set. destruct (Z.leb_spec 0 (rd_accept rd)), (Z.ltb_spec (rd_accept rd) (Z.of_nat FD_SETSIZE)); lia || done. }
    assert (Eset : FD_SET (rd_accept rd) (dm_allset d) = Ok (dm_allset d ∪ {[rd_accept rd]}))
      by (unfold FD_SET; by rewrite Ein).
    rewrite Eset. pose proof (accept_ok _ _ _ _ Hok Hfd Hnew Eadd Eset) as Hok1.
    change (mbind ?f (Ok ?a)) with (f a). cbv beta zeta. set (d1 := mk_daemon _ _ _ _ _) in *.
    assert (Er : ready rset table' = ready rset (dm_client d))
      by (eapply add_client_ready; [|done]; set_solver).
    assert (Hn : Z.of_nat (size rset) - 1 = Z.of_nat (length (ready rset table'))).
    { rewrite (ready_count (dm_client d1)); [|apply Hok1..|].
      { rewrite decide_True by done. change (dm_client d1) with table'. lia. }
      rewrite <- (do_allset _ Hok1). cbn. set_solver. }
    rewrite Hn. case_match; [by eexists|]. rewrite <- Er in Hdep. change (dm_client d1) with table'.
    destruct (serve_clients_run stack heap rd rset table' d1 dd') as (t & d2 & ->);
      [apply (do_range _ Hok1)|done|]. by eexists.
  - assert (Hn : Z.of_nat (size rset) = Z.of_nat (length (ready rset (dm_client d)))).
    { rewrite (ready_count (dm_client d)); [rewrite decide_False by done; lia|apply Hok..|].
      by rewrite <- (do_allset _ Hok). }
    rewrite Hn. destruct (serve_clients_run stack heap rd rset (dm_client d) d dd') as (t & d2 & ->);
      [apply Hok|done|]. by eexists.
Qed.

(** Steps of the daemon. *)
Inductive daemon_step (d d' : daemon) : Prop :=
  | turn rd : round_ok rd d -> daemon_round stack heap socket_fd rd d = Ok (Next d') -> daemon_step d d'.

Lemma steps_ok a b : rtc daemon_step a b -> daemon_ok a -> daemon_ok b.
Proof using.
  induction 1 as [|a b c [rd Hrd Hrun] _ IH]; [done|]. intros Ha. apply IH.
  by destruct (round_serves rd a b Ha Hrd Hrun).
Qed.

(** C9. In every state that the event loop can reach, the table of clients and the set
    of descriptors that it waits for agree: the clients are distinct, none of them
    is the listening socket, the set holds exactly the socket and the clients, and
    none is above the bound that is given to select. *)
Theorem daemon_reachable_ok dd d :
  rtc daemon_step (daemon_start socket_fd dd) d -> daemon_ok d.
Proof using.
  intros H. apply (steps_ok _ _ H). apply daemon_start_ok.
Qed.

(** C10. A turn of the event loop serves every client that is ready, once and in the
    order of the table, although the loop ends early. When a new connection (if
    there is one) finds a place in the table and a descriptor below [FD_SETSIZE],
    and deploying the programs of the clients that sent one, one after the other,
    comes to its end, then so does the turn: the state of the daemon is the one
    after these deployments, the clients at the end of their connection were
    closed, the new one was added, the tables agree again, and those to which the
    answer could be written were answered. *)
Theorem daemon_round_serves dd d rd rset dd' :
  rtc daemon_step (daemon_start socket_fd dd) d -> round_ok rd d -> rd_select rd = Some rset ->
  (socket_fd ∈ rset -> (length (clients (dm_client d)) < FD_SETSIZE)%nat /\
                       rd_accept rd < Z.of_nat FD_SETSIZE) ->
  deploy_all stack heap rd (sent rd (ready rset (dm_client d))) (dm_deployd d) = Ok (tt, dd') ->
  exists d', daemon_round stack heap socket_fd rd d = Ok (Next d') /\ daemon_ok d' /\
    dm_deployd d' = dd' /\
    dm_closed d' = rev (left rd (ready rset (dm_client d))) ++ dm_closed d /\
    dm_allset d' = (dm_allset d ∪ accepted rd rset) ∖ list_to_set (left rd (ready rset (dm_client d))) /\
    dd_notified dd' =
      rev (answered rd (sent rd (ready rset (dm_client d)))) ++ dd_notified (dm_deployd d).
Proof using.
  intros H Hrd Hrs Hroom Hdep. pose proof (steps_ok _ _ H (daemon_start_ok dd)) as Hok.
  destruct (round_runs rd d rset dd' Hok Hrd Hrs Hroom Hdep) as [d' Hrun].
  destruct (round_serves rd d d' Hok Hrd Hrun) as (Hok' & rset' & Hrs' & [Hcl Hset Hdep']).
  assert (rset' = rset) as -> by congruence. exists d'. split; [done|]. split; [done|].
  split; [congruence|]. split; [done|]. split; [done|]. by apply (deploy_all_notifies stack heap).
Qed.
End loop.

(** The result of accept is not checked: when it fails, the descriptor -1 is put
    into the set of descriptors, which writes before it. *)
Lemma accept_failure_faults `{T : Topology} `{NT : NodesTotal} `{Sys : System} `{TM : TopoMasks}
    `{IF : IrqFiles} stack heap socket_fd rd rset d table' :
  rd_select rd = Some rset -> socket_fd ∈ rset -> rd_accept rd = -1 ->
  add_client (-1) (dm_client d) = Some table' ->
  daemon_round stack heap socket_fd rd d = Fault OutOfBounds.
Proof.
  intros Hs Hin Ha Ht. unfold daemon_round. rewrite Hs, decide_True by done. by rewrite Ha, Ht.
Qed.

(** ** A client connects and has a program deployed *)

Module OneClient.
#[local] Existing Instances SixteenCpus.machine SixteenCpus.nodes SixteenCpus.system
  SixteenCpus.masks SixteenCpus.irqs.

Definition begin : daemon := daemon_start 3 SixteenCpus.idle.
Definition connect : round := mk_round (Some {[3]}) 5 (fun _ => ReadError) (fun _ => WriteOk).
Definition connected : daemon :=
  mk_daemon (5 :: replicate 1023 (-1)) ({[3]} ∪ {[5]}) 5 [] SixteenCpus.idle.
Definition send : round := mk_round (Some {[5]}) 6 (fun _ => ReadData SixteenCpus.low) (fun _ => WriteOk).

Lemma connect_step :
  daemon_step CPU_EMPTY None 3 begin connected.
Proof.
  apply (turn _ _ _ _ _ connect).
  - constructor; cbn [rd_select rd_accept connect].
    + intros rset [= <-]. unfold begin, daemon_start. cbn [dm_allset]. set_solver +.
    + split; [lia|]. unfold begin, daemon_start. cbn [dm_allset]. set_solver +.
  - reflexivity.
Qed.

Lemma daemon_reachable_ok_witness :
  rtc (daemon_step CPU_EMPTY None 3) begin connected /\ daemon_ok 3 connected.
Proof.
  split; [apply rtc_once, connect_step|].
  apply (daemon_reachable_ok CPU_EMPTY None 3 SixteenCpus.idle), rtc_once, connect_step.
Defined.

Lemma daemon_round_serves_witness :
  exists d', daemon_round CPU_EMPTY None 3 send connected = Ok (Next d') /\
    nth 2 (ccl_cpus_load (dm_deployd d')) 0 = 2 /\ dd_notified (dm_deployd d') = [5].
Proof.
  destruct (deploy_all CPU_EMPTY None send [5] SixteenCpus.idle) as [[[] dd']|] eqn:E;
    [|vm_compute in E; discriminate].
  destruct (daemon_round_serves CPU_EMPTY None 3 SixteenCpus.idle connected send {[5]} dd')
    as (d' & Hrun & _ & Hdd & _ & _ & Hn).
  - apply rtc_once, connect_step.
  - constructor; cbn [rd_select rd_accept send connected dm_allset].
    + intros rset [= <-]. set_solver +.
    + split; [lia|set_solver +].
  - reflexivity.
  - intros Hin. set_solver.
  - exact E.
  - exists d'. split; [exact Hrun|]. rewrite Hdd, Hn. vm_compute in E. injection E as <-.
    vm_compute. split; reflexivity.
Defined.

(** A client that hangs up before it is answered takes the daemon with it: the
    signal of the write is neither handled nor ignored. *)
Example client_hangs_up :
  daemon_round CPU_EMPTY None 3
    (mk_round (Some {[5]}) 6 (fun _ => ReadData SixteenCpus.low) (fun _ => WriteSignal)) connected =
    Fault Killed.
Proof. vm_compute. reflexivity. Qed.
End OneClient.
