(* ===== verification/Deployer.v ===== *)
(** * The client of the daemon

    [deployer.c]: a program is described in a file; the client sends the
    description to the daemon and becomes the program. *)

From Stdlib Require Import Ascii String.
From S2P Require Import Prelude Bitops Cpuset Cstring State Group Affinity Managed TopoState.
From S2P Require Import Config.
From S2P Require Import TopoMachine Mem.

(** What the client does: messages of the daemon, and the program that it becomes
    with the environment that it is given. *)
Inductive client_event :=
  | CSend (prog : program)
  | CRecv
  | CExec (argv0 : option cstring) (command : cstring) (env : cstring)
  | CExit (code : Z).

Record client (K : Type) := mk_client {
  cl_machine : @machine K;
  cl_events : list client_event;  (** newest first *)
}.
Arguments mk_client {K}.
Arguments cl_machine {K}.
Arguments cl_events {K}.

(** The answers of the system: [getpid], the results of writing to and reading from
    the socket, and whether the program can be executed. *)
Record client_env := mk_client_env {
  ce_pid : Z;
  ce_write : Z;
  ce_read : Z;
  ce_exec : bool;
}.

Definition managed_threads_eq : cstring := s2l "MANAGED_THREADS="%string.

Section deployer.
Context `{F : Sysfs} {K : Type} `{MK : MemKernel K}.
Context (stack : cpu_set_t) (fuel : nat) (ce : client_env).

Definition on_machine {A} (m : M (@machine K) A) : M (client K) A := fun s =>
  match m (cl_machine s) with
  | Ok (a, mc) => Ok (a, mk_client mc (cl_events s))
  | Fault f => Fault f
  end.

Definition event (e : client_event) : M (client K) unit :=
  modify (fun s => mk_client (cl_machine s) (e :: cl_events s)).

(** The static variable after [init_socket]: the results of [socket] and
    [connect]. A descriptor that could not be connected is closed but kept. *)
Definition init_socket (sock connect : Z) : Z * Z :=
  if sock <? 0 then (-1, sock)
  else if connect =? -1 then (-1, sock) else (0, sock).

(** The memory of the process, which the program will inherit. *)
Definition set_memory (prog : program) : M (@machine K) Z :=
  if pg_mem_band prog =? PACKAGE then
    wayca_sc_mem_interleave_in_package stack fuel (pg_io_node prog)
  else if pg_mem_band prog =? ALL then wayca_sc_mem_interleave_in_all stack fuel
  else mret 0.

Definition start_program (socket_fd : Z) (prog : program) (argv0 : option cstring)
    : M (client K) Z :=
  mode ← lift (match pg_task_bind_mode prog with Some mode => Ok mode | None => Fault Uninitialised end);
  let n := Z.of_nat (length (pg_cpu_list prog)) in
  let prog := set_pg_pid (ce_pid ce) prog in
  on_machine (set_memory prog);;
  let exec :=
    (let managed_threads :=
       if (0 <? n) && (mode =? FINE) then managed_threads_eq ++ pg_cpu_list prog else [] in
     event (CExec argv0 (pg_exec prog) managed_threads);;
     when (negb (ce_exec ce)) (event (CExit (-1)));;  (* otherwise exec does not return *)
     mret 0) in
  if negb (socket_fd =? -1) then
    event (CSend prog);;
    if ce_write ce <=? 0 then event (CExit (-1));; mret 0
    else event CRecv;; exec
  else exec.

(** Each line takes at least a character. *)
Definition parse_cfg_and_run (socket_fd : Z) (malloc : bool) (file : option cstring)
    (argv0 : option cstring) : M (client K) Z :=
  match file with
  | None => throw NullDeref  (* fgets(buf, sizeof(buf), NULL) *)
  | Some file =>
    prog ← lift (cfg_lines (S (length file)) malloc file None);
    match prog with
    | None => mret (-1)
    | Some None => mret 0
    | Some (Some prog) => start_program socket_fd prog argv0;; mret 0
    end
  end.
End deployer.

(** ** Reading a description ends *)

Lemma take_line_length n s : (length (take_line n s).2 <= length s)%nat.
Proof.
  revert s. induction n as [|n IH]; intros [|c s]; simpl; try lia.
  destruct (code c =? 10); [simpl; lia|]. pose proof (IH s). destruct (take_line n s). simpl in *. lia.
Qed.

Lemma fgets_shorter file p rest :
  fgets PATH_MAX file = Some (p, rest) -> (length rest < length file)%nat.
Proof.
  unfold fgets. destruct file as [|c file]; [done|].
  change (Z.to_nat (PATH_MAX - 1)) with (S 4094). generalize 4094%nat. intros n. cbn [take_line].
  pose proof (take_line_length n file) as Hl. destruct (code c =? 10); [intros [= <- <-]; simpl; lia|].
  destruct (take_line n file). intros [= <- <-]. simpl in *. lia.
Qed.

Lemma strchr_shorter s c r : strchr s c = Some r -> (length (advance r) < length s)%nat.
Proof.
  revert r. induction s as [|x s IH]; intros r; [done|]. cbn [strchr].
  destruct (code x =? c); [intros [= <-]; simpl; lia|]. intros H%IH. simpl. lia.
Qed.

Lemma strtopair_ends fuel p i pair :
  (length p < fuel)%nat -> strtopair_loop fuel p i pair <> Fault OutOfFuel.
Proof.
  revert p i pair. induction fuel as [|fuel IH]; intros p i pair Hf; [lia|]. cbn [strtopair_loop].
  destruct (strchr p 64) as [q|] eqn:Eq; [|done]. destruct (length pair <=? i)%nat; [done|].
  destruct (strchr (advance q) 32) as [r|] eqn:Er; [|done]. apply IH.
  pose proof (strchr_shorter _ _ _ Eq). pose proof (strchr_shorter _ _ _ Er). lia.
Qed.

Lemma cfg_line_ends p prog : cfg_line p prog <> Fault OutOfFuel.
Proof.
  unfold cfg_line. repeat match goal with |- context [if str_start_with p ?k then _ else _] =>
    destruct (str_start_with p k) end; try done.
  - by destruct (strstr p _).
  - unfold cfg_strtopair. destruct (strchr p 61) as [q|] eqn:E; [|done].
    pose proof (strtopair_ends (S (length p)) (advance q) 0 (pg_irq_bind prog)) as Hn.
    destruct (strtopair_loop _ _ _ _) as [|f]; [done|]. intros [= ->]. apply Hn; [|done].
    pose proof (strchr_shorter _ _ _ E). lia.
  - by destruct (cfg_strtostr p).
Qed.

(** Reading a description ends for every file: the loops over the lines and over
    the interrupts of a line never run out of the turns that the lengths of the
    file and of the line allow. *)
Theorem cfg_lines_ends malloc file prog :
  cfg_lines (S (length file)) malloc file prog <> Fault OutOfFuel.
Proof.
  assert (H : forall fuel file prog, (length file < fuel)%nat ->
    cfg_lines fuel malloc file prog <> Fault OutOfFuel); [|apply H; lia].
  clear file prog. induction fuel as [|fuel IH]; intros file prog Hf; [lia|]. cbn [cfg_lines].
  destruct (fgets PATH_MAX file) as [[p rest]|] eqn:E; [|done]. apply fgets_shorter in E.
  destruct (str_start_with p "[PROG]"%string), prog as [prog|]; cbn [andb]; try done;
    try (destruct malloc; cbn [negb]; [|done]); destruct (str_start_with p "[/PROG]"%string); try done;
    try (apply IH; lia).
  all: match goal with |- mbind _ (cfg_line ?q ?x) <> _ =>
    pose proof (cfg_line_ends q x); destruct (cfg_line q x) as [prog'|f] eqn:El end;
    [apply IH; lia|change (Fault f <> @Fault (option (option program)) OutOfFuel); congruence].
Qed.

(** ** A program that is sent to the daemon *)



(** ** From the description to the threads *)


Section fine.
Context `{T : Topology} `{NT : NodesTotal}.



Context `{F : Sysfs} {K : Type} `{MK : MemKernel K}.
Context (stack : cpu_set_t) (fuel : nat) (ce : client_env).
Context (Htotal : 0 < wayca_sc_cpus_in_total <= CPU_SETSIZE).
Context (Hnode : 0 < wayca_sc_cpus_in_node) (Hnodes : 0 <= wayca_sc_nodes_in_total).
Context (Hfit : wayca_sc_nodes_in_total * wayca_sc_cpus_in_node <= CPU_SETSIZE).

End fine.

(** ** Two ways of going wrong *)

Definition sets_mode (st : setting) : bool :=
  match st with SAuto | SBind _ => true | _ => false end.

Lemma mode_untouched l prog :
  existsb sets_mode l = false ->
  pg_task_bind_mode (fold_left apply_setting l prog) = pg_task_bind_mode prog.
Proof.
  revert prog. induction l as [|st l IH]; intros prog; [done|]. cbn [existsb fold_left].
  intros [H1 H2]%orb_false_iff. rewrite IH by done. by destruct st.
Qed.

(** A description without a binding is used with an uninitialised mode. *)
Lemma no_task_bind_uninitialised `{F : Sysfs} `{MK : MemKernel K} stack fuel ce socket_fd l argv0
    (s : client K) :
  Forall setting_ok l -> existsb sets_mode l = false ->
  parse_cfg_and_run stack fuel ce socket_fd true (Some (print_prog l)) argv0 s = Fault Uninitialised.
Proof.
  intros Hl Hm. unfold parse_cfg_and_run. rewrite cfg_prog_reads by (done || apply print_prog_length).
  rewrite (M_bind_ok _ _ s (Some (Some (fold_left apply_setting l new_program))) s eq_refl).
  unfold start_program. by rewrite mode_untouched.
Qed.

(** When the daemon is not there, connect fails and the descriptor is closed, but
    it is still written to; the write fails, and the program is not started. *)
Lemma no_daemon_no_program `{F : Sysfs} `{MK : MemKernel K} stack fuel ce socket_fd prog mode argv0
    (s : client K) r mc :
  pg_task_bind_mode prog = Some mode -> set_memory stack fuel prog (cl_machine s) = Ok (r, mc) ->
  socket_fd <> -1 -> ce_write ce <= 0 ->
  start_program stack fuel ce socket_fd prog argv0 s =
    Ok (0, mk_client mc
      (CExit (-1) :: CSend (set_pg_pid (ce_pid ce) prog) :: cl_events s)).
Proof.
  intros Hmode Hmem Hs Hw. unfold start_program. rewrite Hmode.
  cbn [pg_mem_band set_pg_pid pg_cpu_list pg_exec].
  erewrite (M_bind_ok (lift _)) by reflexivity.
  erewrite M_bind_ok by (unfold on_machine; change (set_memory _ _ (set_pg_pid _ _)) with
    (set_memory stack fuel prog); rewrite Hmem; reflexivity).
  destruct (Z.eqb_spec socket_fd (-1)); [lia|]. by destruct (Z.leb_spec (ce_write ce) 0); [|lia].
Qed.

(** ** The example of the repository *)

Module Example.
#[local] Existing Instances EightCpus.machine EightCpus.nodes.
#[local] Existing Instances SmallMachine.files TwoNodes.calls.




End Example.
