(* ===== verification/Rendezvous.v ===== *)
(** * How the client finds the daemon

    The beginning of [main] of [deployd.c] and of [deployer.c]: the command
    lines, the socket that the daemon leaves in the file system and the
    connection of a client. The names of the file system and the sockets that
    listen are the state; the loop of the daemon is in [Daemon], what the client
    does with a description in [Deployer]. *)

From Stdlib Require Import Ascii String.
From S2P Require Import Prelude Bitops Cpuset Cstring State Group Affinity Irq Managed.
From S2P Require Import TopoState.
From S2P Require Import Config TopoMachine Mem Deployd Daemon Deployer.

(** ** Sockets of the file system *)

(** What a name of the file system stands for. A socket has a number of its own and
    the permissions that it was bound with. *)
Inductive inode :=
  | Directory
  | File
  | Socket (id : nat) (mode : Z).

(** The system calls on a state [K] of the kernel, and what can be seen of it: the
    names, the sockets that listen and the file mode creation mask of the daemon. *)
Class Sockets (K : Type) := {
  sys_unlink : cstring -> K -> K;
  sys_umask : Z -> K -> K;
  sys_socket : K -> nat * K;
  sys_bind : nat -> cstring -> K -> Z * K;
  sys_listen : nat -> K -> K;
  sys_close : nat -> K -> K;
  sys_connect : bool -> cstring -> K -> Z;  (** whether it is the owner who connects *)
  k_name : K -> cstring -> option inode;
  k_listens : K -> nat -> bool;
  k_umask : K -> Z;
}.

(** The socket that a process reaches by a name: it has to listen, and a user other
    than its owner needs the permission to write (the last bit but one). *)
Definition reaches {K} `{Sockets K} (owner : bool) (path : cstring) (k : K) : option nat :=
  match k_name k path with
  | Some (Socket id mode) =>
    if k_listens k id && (owner || Z.testbit mode 1) then Some id else None
  | _ => None
  end.

(** What the manual pages promise: unlink(2), umask(2), socket(2), bind(2), listen(2),
    connect(2) and unix(7). [writable] says in which places the daemon can make a
    name; the directories on the way are open to everyone. A process that ends
    closes its sockets, and the names that it bound remain. *)
Class SocketsOk (K : Type) `{Sockets K} (writable : cstring -> bool) : Prop := {
  unlink_name path k : k_name k path <> Some Directory -> k_name (sys_unlink path k) path = None;
  unlink_directory path k : k_name k path = Some Directory -> sys_unlink path k = k;
  unlink_others path k q : q <> path -> k_name (sys_unlink path k) q = k_name k q;
  unlink_listens path k : k_listens (sys_unlink path k) = k_listens k;
  umask_names m k : k_name (sys_umask m k) = k_name k;
  umask_listens m k : k_listens (sys_umask m k) = k_listens k;
  umask_value m k : k_umask (sys_umask m k) = m;
  socket_names k : k_name (sys_socket k).2 = k_name k;
  socket_listens k : k_listens (sys_socket k).2 = k_listens k;
  socket_umask k : k_umask (sys_socket k).2 = k_umask k;
  socket_new k : k_listens k (sys_socket k).1 = false /\
    forall path mode, k_name k path <> Some (Socket (sys_socket k).1 mode);
  bind_used id path k : is_Some (k_name k path) -> sys_bind id path k = (-1, k);
  bind_free id path k : k_name k path = None -> writable path = true ->
    (forall q mode, k_name k q <> Some (Socket id mode)) ->
    (sys_bind id path k).1 = 0 /\
    k_name (sys_bind id path k).2 path = Some (Socket id (Z.ldiff 511 (k_umask k)));
  bind_others id path k q : q <> path -> k_name (sys_bind id path k).2 q = k_name k q;
  bind_listens id path k : k_listens (sys_bind id path k).2 = k_listens k;
  listen_names id k : k_name (sys_listen id k) = k_name k;
  listen_listens id path mode k i : k_name k path = Some (Socket id mode) ->
    k_listens (sys_listen id k) i = (i =? id)%nat || k_listens k i;
  close_names id k : k_name (sys_close id k) = k_name k;
  close_listens id k i : k_listens (sys_close id k) i = negb (i =? id)%nat && k_listens k i;
  connect_reaches owner path k :
    sys_connect owner path k = if reaches owner path k then 0 else -1;
}.

(** ** The command lines *)

Definition SUN_PATH : nat := 108.  (** [sizeof(addr.sun_path)] *)




(** The initial value of [wayca_scheduler_socket_path], which every process has. *)
Definition default_socket_path : cstring := s2l "/etc/wayca-scheduler/wayca.socket"%string.



(** ** The daemon *)

(** The result, the socket, and the kernel. [fd] is the descriptor that [socket]
    returns, or -1. [addr] was set to zero, so the copy of one character less than
    the array ends with a zero. *)
Definition daemon_init_socket {K} `{Sockets K} (fd : Z) (path : cstring) (k : K) : Z * nat * K :=
  let k := sys_unlink path k in
  let k := sys_umask 0 k in
  let '(id, k) := sys_socket k in
  if fd <? 0 then (-1, id, k)
  else
    let sun_path := take (SUN_PATH - 1) path in
    let '(r, k) := sys_bind id sun_path k in
    if r <? 0 then (-1, id, k) else (0, id, sys_listen id k).


(** ** The client *)



(** The array is static and so zero; it is filled to its end, and the system ends
    a name that has no zero after it. The path is the initial one: the client has no
    option for it. *)
Definition client_init_socket {K} `{Sockets K} (owner : bool) (fd : Z) (k : K) : Z * Z :=
  init_socket fd (sys_connect owner (take SUN_PATH default_socket_path) k).

Section client.
Context `{F : Sysfs} {K : Type} `{MK : MemKernel K}.
Context (stack : cpu_set_t) (fuel : nat) (ce : client_env) (malloc : bool).
Context (files : cstring -> option cstring).



End client.


(** ** The daemon binds its socket *)


Lemma long_names_differ (path : cstring) :
  (SUN_PATH <= length path)%nat ->
  take SUN_PATH path <> take (SUN_PATH - 1) path /\ path <> take (SUN_PATH - 1) path.
Proof.
  unfold SUN_PATH. intros H. split; intros E; apply (f_equal length) in E;
    rewrite ?length_take in E; lia.
Qed.

Section sockets.
Context {K : Type} `{SK : Sockets K} (writable : cstring -> bool) {HK : SocketsOk K writable}.
Implicit Types k : K.





(** A path that does not fit: the name that the daemon binds is not the one that
    the next daemon removes, and as long as it is there no daemon starts. *)
Lemma long_path_lost fd path k :
  (SUN_PATH <= length path)%nat -> 0 <= fd -> is_Some (k_name k (take (SUN_PATH - 1) path)) ->
  exists id k', daemon_init_socket fd path k = (-1, id, k') /\ k_listens k' = k_listens k /\
    is_Some (k_name k' (take (SUN_PATH - 1) path)).
Proof using HK.
  intros Hlen Hfd Hused. destruct (long_names_differ path Hlen) as [_ Hne].
  unfold daemon_init_socket. set (k1 := sys_umask 0 (sys_unlink path k)).
  assert (Hn : is_Some (k_name k1 (take (SUN_PATH - 1) path)))
    by (unfold k1; rewrite umask_names; by rewrite unlink_others).
  assert (Hl : k_listens k1 = k_listens k) by (unfold k1; by rewrite umask_listens, unlink_listens).
  pose proof (socket_names k1) as Sn. pose proof (socket_listens k1) as Sl.
  destruct (sys_socket k1) as [id k2]. cbn [snd] in *.
  destruct (Z.ltb_spec fd 0); [lia|]. rewrite bind_used by (by rewrite Sn).
  exists id, k2. split; [done|]. split; [congruence|]. by rewrite Sn.
Qed.

(** ** The daemon and its clients *)


Context `{T : Topology} `{NT : NodesTotal} `{Sys : System}.
Context (stack : cpu_set_t) (files : cstring -> option cstring).


End sockets.

Section client_main.
Context `{F : Sysfs} {K N : Type} `{MK : MemKernel K} `{SK : Sockets N}.
Context (writable : cstring -> bool) {HK : SocketsOk N writable}.
Context (stack : cpu_set_t) (fuel : nat) (ce : client_env) (files : cstring -> option cstring).


End client_main.

(** ** A daemon that is started twice, and its client *)

Module Meeting.

(** A kernel that keeps the promises: a new socket has a number above all others. *)
Record kernel := mk_kernel {
  names : gmap cstring inode;
  listening : gset nat;
  umask : Z;
}.

Definition id_of (i : inode) : option nat :=
  match i with Socket id _ => Some id | _ => None end.

Definition new_id (k : kernel) : nat :=
  S (max_list (omap id_of (map_to_list (names k)).*2 ++ elements (listening k))).

#[export] Instance sockets : Sockets kernel := {
  sys_unlink path k :=
    match names k !! path with
    | Some Directory => k
    | _ => mk_kernel (delete path (names k)) (listening k) (umask k)
    end;
  sys_umask m k := mk_kernel (names k) (listening k) m;
  sys_socket k := (new_id k, k);
  sys_bind id path k :=
    match names k !! path with
    | Some _ => (-1, k)
    | None =>
      (0, mk_kernel (<[path := Socket id (Z.ldiff 511 (umask k))]> (names k)) (listening k) (umask k))
    end;
  sys_listen id k := mk_kernel (names k) ({[id]} ∪ listening k) (umask k);
  sys_close id k := mk_kernel (names k) (listening k ∖ {[id]}) (umask k);
  sys_connect owner path k :=
    match names k !! path with
    | Some (Socket id mode) =>
      if bool_decide (id ∈ listening k) && (owner || Z.testbit mode 1) then 0 else -1
    | _ => -1
    end;
  k_name k path := names k !! path;
  k_listens k id := bool_decide (id ∈ listening k);
  k_umask k := umask k;
}.

Lemma new_id_above (k : kernel) (i : nat) :
  i ∈ omap id_of (map_to_list (names k)).*2 ++ elements (listening k) -> i <> new_id k.
Proof. intros H%max_list_elem_of_le. unfold new_id. lia. Qed.

Lemma new_id_new (k : kernel) :
  new_id k ∉ listening k /\ forall path mode, names k !! path <> Some (Socket (new_id k) mode).
Proof.
  split.
  - intros H. apply (new_id_above k (new_id k)); [|done].
    apply elem_of_app. right. by apply elem_of_elements.
  - intros path mode H. apply (new_id_above k (new_id k)); [|done].
    apply elem_of_app. left. apply list_elem_of_omap. exists (Socket (new_id k) mode).
    split; [|done]. apply list_elem_of_fmap. exists (path, Socket (new_id k) mode).
    split; [done|]. by apply elem_of_map_to_list.
Qed.

#[export] Instance sockets_ok : SocketsOk kernel (fun _ => true).
Proof.
  constructor; intros; cbn in *; try done.
  - destruct (names k !! path) as [[]|]; cbn; try apply lookup_delete_eq. done.
  - by rewrite H.
  - destruct (names k !! path) as [[]|]; cbn; by rewrite ?lookup_delete_ne.
  - by destruct (names k !! path) as [[]|].
  - split; [apply bool_decide_eq_false_2|]; apply new_id_new.
  - destruct H as [i Hi]. by rewrite Hi.
  - rewrite H. cbn. by rewrite lookup_insert_eq.
  - destruct (names k !! path); cbn; by rewrite ?lookup_insert_ne.
  - by destruct (names k !! path).
  - apply eq_true_iff_eq. rewrite orb_true_iff, Nat.eqb_eq, !bool_decide_eq_true. set_solver.
  - apply eq_true_iff_eq. rewrite andb_true_iff, negb_true_iff, Nat.eqb_neq, !bool_decide_eq_true.
    set_solver.
  - unfold reaches. cbn. destruct (names k !! path) as [[| |id mode]|]; try done.
    by destruct (_ && _).
Qed.

(** A daemon that has ended left its socket; its directory is there too. *)
Definition stale : kernel :=
  mk_kernel {[default_socket_path := Socket 4 493; s2l "/etc/wayca-scheduler"%string := Directory]}
    ∅ 18.

Section daemon.
#[local] Existing Instances SixteenCpus.machine SixteenCpus.nodes SixteenCpus.system.


End daemon.



Section client.
#[local] Existing Instances SmallMachine.files TwoNodes.calls.

End client.

(** With a path of 108 characters the daemon starts once, and is not found. *)
Definition long : cstring := replicate 108 "x"%char.

Example long_path_once :
  let '(r, _, k1) := daemon_init_socket 3 long stale in
  r = 0 /\ client_init_socket true 3 k1 = (-1, 3) /\
  let '(r, _, _) := daemon_init_socket 3 long k1 in r = -1.
Proof. vm_compute. done. Qed.
End Meeting.
