(* ===== verification/InfoXml.v ===== *)
(** * The topology as an XML document

    [tools/wayca-sc-info/wayca_sc_topo.c], the part that builds the document. The
    documents of libxml2 and the queries of the library are parameters: the class
    [LibXml] holds the functions of libxml2 that the tool calls, with the fields of
    a node as they can be read through its pointer, and [LibXmlOk] what its
    documentation says of them; the class [TopoInfo] holds the answers of the
    queries. *)

From Stdlib Require Import Ascii String.
From stdpp Require Import strings.
From S2P Require Import Prelude Bitops Cpuset Cstring Dynset TopoState TopoQuery.

(** ** Documents *)

Abbreviation xmlNodePtr := nat (only parsing).

(** [struct _xmlNode]: [type == XML_ELEMENT_NODE], [name], [properties], [children]. *)
Record xml_node := mk_xml_node {
  x_element : bool;
  x_name : string;
  x_props : list (string * cstring);
  x_children : list xmlNodePtr;
}.

(** What a pointer points to, and the functions; a function that allocates may
    return NULL. *)
Class LibXml (X : Type) := {
  x_node : X -> xmlNodePtr -> option xml_node;
  x_root : X -> option xmlNodePtr;
  xmlNewDoc : option X;
  xmlNewNode : string -> X -> option xmlNodePtr * X;
  xmlDocSetRootElement : xmlNodePtr -> X -> X;
  xmlNewChild : xmlNodePtr -> string -> X -> option xmlNodePtr * X;
  xmlNewProp : xmlNodePtr -> string -> cstring -> X -> bool * X;
  xmlGetProp : xmlNodePtr -> string -> X -> option cstring;
  xmlUnlinkFree : xmlNodePtr -> X -> X;  (** [xmlUnlinkNode] and [xmlFreeNode] *)
}.

(** The first property of a name. *)
Fixpoint prop_of (a : string) (props : list (string * cstring)) : option cstring :=
  match props with
  | [] => None
  | (b, v) :: props => if decide (a = b) then Some v else prop_of a props
  end.

Definition new_element (name : string) : xml_node := mk_xml_node true name [] [].
Definition add_child (c : xmlNodePtr) (n : xml_node) : xml_node :=
  mk_xml_node (x_element n) (x_name n) (x_props n) (x_children n ++ [c]).
Definition add_prop (a : string) (v : cstring) (n : xml_node) : xml_node :=
  mk_xml_node (x_element n) (x_name n) (x_props n ++ [(a, v)]) (x_children n).

(** The answers of the queries of the library. A query that fills a mask answers
    its result and the mask. *)
Class TopoInfo := {
  q_packages_in_total : Z;
  q_nodes_in_total : Z;
  q_ccls_in_total : Z;
  q_cores_in_total : Z;
  q_cpus_in_total : Z;
  q_get_physical_id : string -> Z -> Z;
  q_package_node_mask : Z -> Z * cpu_set_t;
  q_node_ccl_mask : Z -> Z * cpu_set_t;
  q_node_core_mask : Z -> Z * cpu_set_t;
  q_node_cpu_mask : Z -> Z * cpu_set_t;
  q_ccl_core_mask : Z -> Z * cpu_set_t;
  q_core_cpu_mask : Z -> Z * cpu_set_t;
  q_get_node_mem_size : Z -> Z * Z;
  q_get_l1i_size : Z -> Z;
  q_get_l1d_size : Z -> Z;
  q_get_l2_size : Z -> Z;
  q_get_l3_size : Z -> Z;
  q_get_device_list : Z -> Z * list cstring;
  q_get_device_info : cstring -> Z * wayca_sc_device_info;
  q_get_irq_list : Z * list Z;
  q_get_irq_info : Z -> Z * wayca_irq;
}.

(** ** The table of elements *)

Inductive topo_level :=
  | TOPO_SYS
  | TOPO_PKG
  | TOPO_NUMA
  | TOPO_CCL
  | TOPO_CORE
  | TOPO_CPU
  | TOPO_INTR
  | TOPO_IRQ
  | TOPO_PCIDEV
  | TOPO_SMMUDEV.

#[export] Instance topo_level_eq_dec : EqDecision topo_level.
Proof. solve_decision. Defined.

Definition topo_elem : list topo_level :=
  [TOPO_SYS; TOPO_PKG; TOPO_NUMA; TOPO_CCL; TOPO_CORE; TOPO_CPU; TOPO_INTR; TOPO_IRQ; TOPO_PCIDEV; TOPO_SMMUDEV].

Definition elem_name (e : topo_level) : string :=
  match e with
  | TOPO_SYS => "System"
  | TOPO_PKG => "Package"
  | TOPO_NUMA => "NUMANode"
  | TOPO_CCL => "Cluster"
  | TOPO_CORE => "Core"
  | TOPO_CPU => "CPU"
  | TOPO_INTR => "Interrupt"
  | TOPO_IRQ => "IRQ"
  | TOPO_PCIDEV => "PCIDEV"
  | TOPO_SMMUDEV => "SMMUDEV"
  end.

Definition has_idx (e : topo_level) : bool :=
  match e with TOPO_PKG | TOPO_NUMA | TOPO_CCL | TOPO_CORE | TOPO_CPU => true | _ => false end.

(** The loops over the table for the element of a name. *)
Fixpoint find_in (name : string) (l : list topo_level) : option topo_level :=
  match l with
  | [] => None
  | e :: l => if decide (name = elem_name e) then Some e else find_in name l
  end.
Definition find_elem (name : string) : option topo_level := find_in name topo_elem.

(** ** Printing numbers *)

Definition minus : ascii := ascii_of_nat 45.

(** [%d] *)
Definition print_int (n : Z) : cstring := if n <? 0 then minus :: print_num 10 (- n) else print_num 10 n.

Definition CONTENT_STR_LEN : Z := 100.

(** [snprintf(content, sizeof(content), ...)] *)
Definition content (s : cstring) : cstring := take (Z.to_nat (CONTENT_STR_LEN - 1)) s.

(** ** Building the elements *)

Section build.
Context {X : Type} `{L : LibXml X} `{T : TopoInfo}.
(** The two static flags, and whether [calloc] succeeds for a number of elements. *)
Context (output_irq output_dev : bool) (calloc : nat -> bool).

(** [ret = m; if (ret) return ret; k] *)
Definition or_fail (m k : M X Z) : M X Z := ret ← m; if ret =? 0 then k else mret ret.

(** [if (!xmlNewProp(node, a, v)) return -ENOMEM] *)
Definition new_prop (node : xmlNodePtr) (a : string) (v : cstring) : M X Z := fun x =>
  let '(ok, x) := xmlNewProp node a v x in Ok (if ok : bool then 0 else - ENOMEM, x).

Definition new_child (node : xmlNodePtr) (name : string) : M X (option xmlNodePtr) := fun x =>
  let '(c, x) := xmlNewChild node name x in Ok (c, x).

Definition get_prop (node : xmlNodePtr) (a : string) : M X (option cstring) := gets (xmlGetProp node a).

(** The result and the index. An index that is not a number is freed twice. *)
Definition get_index_from_prop (node : xmlNodePtr) : M X (Z * Z) :=
  p ← get_prop node "index";
  match p with
  | None => mret (- ENOENT, 0)
  | Some index_prop =>
    let '(v, erange, endptr) := strtol 10 index_prop in
    if bool_decide (endptr = index_prop) || erange then throw UseAfterFree
    else mret (0, to_int v)
  end.

Definition build_prop_index (node : xmlNodePtr) (id : Z) (index_name : string) : M X Z :=
  new_prop node index_name (take 31 (print_int id)).

(** The physical number of an element, or a negative error. *)
Definition physical (e : topo_level) (index : Z) : Z :=
  match e with
  | TOPO_CCL => q_get_physical_id "cluster" index
  | TOPO_PKG => q_get_physical_id "package" index
  | TOPO_CORE => q_get_physical_id "core" index
  | _ => index
  end.

Definition topo_build_single_elem (node : xmlNodePtr) (index : Z) (next_elem : topo_level) : M X Z :=
  c ← new_child node (elem_name next_elem);
  match c with
  | None => mret (- ENOMEM)
  | Some c_node =>
    if negb (has_idx next_elem) then mret 0 else
    or_fail (build_prop_index c_node index "index") $
    let p_index := physical next_elem index in
    if p_index <? 0 then
      match next_elem with
      | TOPO_CCL | TOPO_PKG | TOPO_CORE => mret p_index
      | _ => build_prop_index c_node index "p_index"
      end
    else build_prop_index c_node p_index "p_index"
  end.

(** The loop over the numbers from [i] on. *)
Fixpoint build_elems (node : xmlNodePtr) (mask : cpu_set_t) (n : nat) (i : Z) (next_elem : topo_level) : M X Z :=
  match n with
  | O => mret 0
  | S n =>
    if negb (CPU_ISSET i mask) then build_elems node mask n (i + 1) next_elem
    else
      or_fail (topo_build_single_elem node i next_elem)
        (build_elems node mask n (i + 1) next_elem)
  end.

Definition topo_build_next_elem (node : xmlNodePtr) (mask : cpu_set_t) (elem_nr : Z) (next_elem : topo_level) : M X Z :=
  build_elems node mask (Z.to_nat elem_nr) 0 next_elem.

Definition cpu_elem_build (node : xmlNodePtr) : M X Z := mret 0.

(** [%dKB] *)
Definition kilobytes (n : Z) : cstring := content (print_int n ++ s2l "KB").

Definition core_prop_build (core_node : xmlNodePtr) (cpu_id : Z) : M X Z :=
  or_fail (new_prop core_node "L1i_cache" (kilobytes (q_get_l1i_size cpu_id))) $
  or_fail (new_prop core_node "L1d_cache" (kilobytes (q_get_l1d_size cpu_id))) $
  new_prop core_node "L2_cache" (kilobytes (q_get_l2_size cpu_id)).

(** The first number of the mask, or the end. *)
Fixpoint first_set (mask : cpu_set_t) (n : nat) (i : Z) : Z :=
  match n with
  | O => i
  | S n => if CPU_ISSET i mask then i else first_set mask n (i + 1)
  end.

Definition core_elem_build (node : xmlNodePtr) : M X Z :=
  r ← get_index_from_prop node;
  if negb (r.1 =? 0) then mret r.1 else
  let '(ret, mask) := q_core_cpu_mask r.2 in
  if ret <? 0 then mret ret else
  let c_nr := q_cpus_in_total in
  if c_nr <? 0 then mret c_nr else
  or_fail (core_prop_build node (first_set mask (Z.to_nat c_nr) 0)) $
  topo_build_next_elem node mask c_nr TOPO_CPU.

Definition ccl_elem_build (node : xmlNodePtr) : M X Z :=
  r ← get_index_from_prop node;
  if negb (r.1 =? 0) then mret r.1 else
  let '(ret, mask) := q_ccl_core_mask r.2 in
  if ret <? 0 then mret ret else
  let c_nr := q_cores_in_total in
  if c_nr <? 0 then mret c_nr else
  topo_build_next_elem node mask c_nr TOPO_CORE.

(** The loop over the CPUs of a node for the size of the cache. *)
Fixpoint l3_cache (mask : cpu_set_t) (n : nat) (i cache_size : Z) : Z :=
  match n with
  | O => cache_size
  | S n =>
    if negb (CPU_ISSET i mask) then l3_cache mask n (i + 1) cache_size
    else let cache_size := q_get_l3_size i in
         if 0 <? cache_size then cache_size else l3_cache mask n (i + 1) cache_size
  end.

Definition numa_prop_build (numa_node : xmlNodePtr) (numa_id : Z) : M X Z :=
  let '(ret, mem_size) := q_get_node_mem_size numa_id in
  if negb (ret =? 0) then mret ret else
  or_fail (new_prop numa_node "mem_size" (content (print_num 10 mem_size ++ s2l "KB"))) $
  let '(ret, mask) := q_node_cpu_mask numa_id in
  if ret <? 0 then mret ret else
  let num_cpu := q_cpus_in_total in
  if num_cpu <? 0 then mret num_cpu else
  new_prop numa_node "L3_cache" (kilobytes (l3_cache mask (Z.to_nat num_cpu) 0 (-1))).

(** The element and its attribute of a type of devices. *)
Definition get_dev_elem_type (dev_type : Z) : option (topo_level * string) :=
  if dev_type =? WAYCA_SC_TOPO_DEV_TYPE_PCI then Some (TOPO_PCIDEV, "slot"%string)
  else if dev_type =? WAYCA_SC_TOPO_DEV_TYPE_SMMU then Some (TOPO_SMMUDEV, "name"%string)
  else None.

Fixpoint dev_elems (numa_node : xmlNodePtr) (names : list cstring) : M X Z :=
  match names with
  | [] => mret 0
  | name :: names =>
    let '(ret, dev_info) := q_get_device_info name in
    if negb (ret =? 0) then mret ret else
    match get_dev_elem_type (dv_dev_type dev_info) with
    | None => mret (- ENOENT)
    | Some (next_elem, idx_attr) =>
      c ← new_child numa_node (elem_name next_elem);
      match c with
      | None => mret (- ENOMEM)
      | Some node => or_fail (new_prop node idx_attr name) (dev_elems numa_node names)
      end
    end
  end.

Definition numa_dev_elem_build (numa_node : xmlNodePtr) (numa_id : Z) : M X Z :=
  let '(ret, names) := q_get_device_list numa_id in
  if negb (ret =? 0) || (length names =? 0)%nat then mret ret
  else if negb (calloc (length names)) then mret (- ENOMEM) else dev_elems numa_node names.

Definition numa_elem_build (node : xmlNodePtr) : M X Z :=
  r ← get_index_from_prop node;
  if negb (r.1 =? 0) then mret r.1 else
  let numa_id := r.2 in
  or_fail (numa_prop_build node numa_id) $
  or_fail
    (let c_nr := q_ccls_in_total in
     if c_nr <? 0 then
       let c_nr := q_cores_in_total in
       if c_nr <? 0 then mret c_nr else
       let '(ret, core_mask) := q_node_core_mask numa_id in
       if ret <? 0 then mret ret else topo_build_next_elem node core_mask c_nr TOPO_CORE
     else
       let '(ret, ccl_mask) := q_node_ccl_mask numa_id in
       if ret <? 0 then mret ret else topo_build_next_elem node ccl_mask c_nr TOPO_CCL) $
  if negb output_dev then mret 0 else numa_dev_elem_build node numa_id.

Definition package_elem_build (node : xmlNodePtr) : M X Z :=
  r ← get_index_from_prop node;
  if negb (r.1 =? 0) then mret r.1 else
  let '(ret, mask) := q_package_node_mask r.2 in
  if ret <? 0 then mret ret else
  let numa_nr := q_nodes_in_total in
  if numa_nr <? 0 then mret numa_nr else
  topo_build_next_elem node mask numa_nr TOPO_NUMA.

(** The loop over the packages. *)
Fixpoint package_elems (node : xmlNodePtr) (n : nat) (i : Z) : M X Z :=
  match n with
  | O => mret 0
  | S n => or_fail (topo_build_single_elem node i TOPO_PKG) (package_elems node n (i + 1))
  end.

Definition system_elem_build (node : xmlNodePtr) : M X Z :=
  let package_nr := q_packages_in_total in
  if package_nr <? 0 then mret package_nr else
  or_fail (package_elems node (Z.to_nat package_nr) 0) $
  if negb output_irq then mret 0 else topo_build_single_elem node 0 TOPO_INTR.

(** The loop over the interrupts. *)
Fixpoint irq_elems (intr : xmlNodePtr) (irqs : list Z) : M X Z :=
  match irqs with
  | [] => mret 0
  | irq :: irqs =>
    c ← new_child intr "IRQ";
    match c with
    | None => mret (- ENOMEM)
    | Some node => or_fail (new_prop node "irq_number" (take 31 (print_num 10 irq))) (irq_elems intr irqs)
    end
  end.

Definition intr_elem_build (intr : xmlNodePtr) : M X Z :=
  let '(ret, irqs) := q_get_irq_list in
  if negb (ret =? 0) || (length irqs =? 0)%nat then mret ret
  else if negb (calloc (length irqs)) then mret (- ENOMEM) else irq_elems intr irqs.

(** [0x%x] *)
Definition print_hex (n : Z) : cstring := content (s2l "0x" ++ print_num 16 n).

Definition pci_dev_elem_build (pci_node : xmlNodePtr) : M X Z :=
  p ← get_prop pci_node "slot";
  match p with
  | None => mret (- ENOENT)
  | Some pci_slot =>
    let '(ret, dev_info) := q_get_device_info pci_slot in
    if negb (ret =? 0) then mret ret else
    or_fail (new_prop pci_node "smmu_idx" (content (print_int (dv_smmu_idx dev_info)))) $
    match dv_detail dev_info with
    | PciDetail device vendor class _ nb_irq =>
      or_fail (new_prop pci_node "class_id" (print_hex class)) $
      or_fail (new_prop pci_node "vendor_id" (print_hex vendor)) $
      or_fail (new_prop pci_node "device_id" (print_hex device)) $
      new_prop pci_node "irq_nr" (content (print_int nb_irq))
    | _ => throw Uninitialised
    end
  end.

Definition smmu_dev_elem_build (smmu_node : xmlNodePtr) : M X Z :=
  p ← get_prop smmu_node "name";
  match p with
  | None => mret (- ENOENT)
  | Some name =>
    let '(ret, dev_info) := q_get_device_info name in
    if negb (ret =? 0) then mret ret else
    or_fail (new_prop smmu_node "smmu_idx" (content (print_int (dv_smmu_idx dev_info)))) $
    match dv_detail dev_info with
    | SmmuDetail base_addr modalias =>
      or_fail (new_prop smmu_node "base_addr" (print_hex base_addr)) $
      new_prop smmu_node "modalias" (content modalias)
    | _ => throw Uninitialised
    end
  end.

(** The result and the number. *)
Definition topo_str2ul (str : cstring) : Z * Z :=
  let '(num, erange, endptr) := strtoul 10 str in
  if bool_decide (endptr = str) || erange then (if erange then - ERANGE else - EINVAL, num) else (0, num).

Definition irq_chip_text : list cstring :=
  map s2l ["invalid"; "mbigen-v2"; "ITS-MSI"; "ITS-pMSI"; "GICv3"]%string.
Definition irq_type_text : list cstring := map s2l ["invalid"; "edge"; "level"]%string.

Definition irq_prop_build (irq_node : xmlNodePtr) (irq_num : Z) : M X Z :=
  let '(ret, irq_info) := q_get_irq_info irq_num in
  if negb (ret =? 0) then mret ret else
  or_fail (new_prop irq_node "name" (content (i_name irq_info))) $
  match irq_chip_text !! Z.to_nat (to_uint (i_chip_name irq_info)) with
  | None => mret (- EINVAL)
  | Some chip =>
    or_fail (new_prop irq_node "chip_name" (content chip)) $
    match irq_type_text !! Z.to_nat (to_uint (i_type irq_info)) with
    | None => mret (- EINVAL)
    | Some type => new_prop irq_node "type" (content type)
    end
  end.

Definition irq_elem_build (node : xmlNodePtr) : M X Z :=
  p ← get_prop node "irq_number";
  match p with
  | None => mret (- ENOENT)
  | Some irq_prop =>
    let '(ret, irq_number) := topo_str2ul irq_prop in
    if negb (ret =? 0) then mret ret else irq_prop_build node irq_number
  end.

(** ** The document *)

Definition elem_build (e : topo_level) : xmlNodePtr -> M X Z :=
  match e with
  | TOPO_SYS => system_elem_build
  | TOPO_PKG => package_elem_build
  | TOPO_NUMA => numa_elem_build
  | TOPO_CCL => ccl_elem_build
  | TOPO_CORE => core_elem_build
  | TOPO_CPU => cpu_elem_build
  | TOPO_INTR => intr_elem_build
  | TOPO_IRQ => irq_elem_build
  | TOPO_PCIDEV => pci_dev_elem_build
  | TOPO_SMMUDEV => smmu_dev_elem_build
  end.

Definition get_node (node : xmlNodePtr) : M X xml_node := fun x =>
  match x_node x node with Some n => Ok (n, x) | None => Fault UseAfterFree end.

Definition is_element (x : X) (node : xmlNodePtr) : bool :=
  match x_node x node with Some n => x_element n | None => false end.

(** The elements among the children, as [xmlFirstElementChild] and
    [xmlNextElementSibling] enumerate them. *)
Definition element_children (node : xmlNodePtr) : M X (list xmlNodePtr) := fun x =>
  match x_node x node with
  | Some n => Ok (List.filter (is_element x) (x_children n), x)
  | None => Fault UseAfterFree
  end.

(** The loop over a list of siblings. The functions that build an element add nodes
    below its own node only, never beside it, so that following
    [xmlNextElementSibling] after each of them is going through the siblings as they
    were before the loop. *)
Fixpoint build_topo (fuel : nat) (nodes : list xmlNodePtr) : M X Z :=
  match fuel with
  | O => throw OutOfFuel
  | S fuel =>
    (fix siblings (nodes : list xmlNodePtr) : M X Z :=
      match nodes with
      | [] => mret 0
      | cur_node :: nodes =>
        n ← get_node cur_node;
        match find_elem (x_name n) with
        | None => mret (- ENOENT)
        | Some e =>
          or_fail (elem_build e cur_node) $
          children ← element_children cur_node;
          match children with
          | [] => siblings nodes
          | _ => or_fail (build_topo fuel children) (siblings nodes)
          end
        end
      end) nodes
  end.

(** System, Package, NUMANode, Cluster, Core, CPU: six levels, and a call for each. *)
Definition build_fuel : nat := 7.

(** The result and the document; after an error it is freed. *)
Definition build_topo_info : outcome (Z * option X) :=
  match xmlNewDoc with
  | None => Ok (- ENOMEM, None)
  | Some doc =>
    let '(sys_node, doc) := xmlNewNode (elem_name TOPO_SYS) doc in
    match sys_node with
    | None => Ok (- ENOMEM, None)
    | Some sys_node =>
      let doc := xmlDocSetRootElement sys_node doc in
      match build_topo build_fuel [sys_node] doc with
      | Ok (ret, doc) => Ok (ret, if ret =? 0 then Some doc else None)
      | Fault f => Fault f
      end
    end
  end.
End build.
