(* ===== verification/InfoTree.v ===== *)
(** * The document is the tree of the topology

    [InfoXml] builds the document node by node through pointers. Here the same
    document is a value: [expected] is the tree below an element, or the first error.
    The tool builds exactly that tree. *)

From Stdlib Require Import Ascii String.
From stdpp Require Import strings.
From S2P Require Import Prelude Bitops Cpuset Cstring Dynset TopoState TopoQuery InfoXml.

(** ** What the documentation of libxml2 says *)

Class LibXmlOk (X : Type) `{L : LibXml X} := {
  xo_new_doc : forall x p, xmlNewDoc = Some x -> x_node x p = None;
  xo_new_node : forall name x p x', xmlNewNode name x = (Some p, x') ->
    x_node x p = None /\
    forall q, x_node x' q = if decide (q = p) then Some (new_element name) else x_node x q;
  xo_set_root : forall p x, x_root (xmlDocSetRootElement p x) = Some p /\
    forall q, x_node (xmlDocSetRootElement p x) q = x_node x q;
  xo_new_child : forall p name x n c x', x_node x p = Some n -> xmlNewChild p name x = (Some c, x') ->
    x_node x c = None /\ x_root x' = x_root x /\
    forall q, x_node x' q =
      if decide (q = c) then Some (new_element name)
      else if decide (q = p) then Some (add_child c n) else x_node x q;
  xo_new_prop : forall p a v x n x', x_node x p = Some n -> xmlNewProp p a v x = (true, x') ->
    x_root x' = x_root x /\
    forall q, x_node x' q = if decide (q = p) then Some (add_prop a v n) else x_node x q;
  xo_get_prop : forall p a x n, x_node x p = Some n -> xmlGetProp p a x = prop_of a (x_props n);
}.

(** There is memory for every node and every property. *)
Class XmlMemory (X : Type) `{L : LibXml X} := {
  xm_new_doc : exists x, xmlNewDoc = Some x;
  xm_new_node : forall name x, exists p x', xmlNewNode name x = (Some p, x');
  xm_new_child : forall p name x n, x_node x p = Some n -> exists c x', xmlNewChild p name x = (Some c, x');
  xm_new_prop : forall p a v x n, x_node x p = Some n -> exists x', xmlNewProp p a v x = (true, x');
}.

(** ** Trees *)

Inductive tree := Node (name : string) (props : list (string * cstring)) (children : list tree).

(** An element that was created and not built yet. *)
Definition stub : Type := string * list (string * cstring).

(** What a step adds to an element: properties and stubs of children, or an error. *)
Definition grown : Type := outcome (Z + list (string * cstring) * list stub).

Definition g_done : grown := Ok (inr ([], [])).
Definition g_fail (ret : Z) : grown := Ok (inl ret).
Definition g_prop (a : string) (v : cstring) : grown := Ok (inr ([(a, v)], [])).
Definition g_stub (s : stub) : grown := Ok (inr ([], [s])).
Definition g_seq (r1 r2 : grown) : grown :=
  match r1 with
  | Ok (inr (p1, s1)) =>
    match r2 with
    | Ok (inr (p2, s2)) => Ok (inr (p1 ++ p2, s1 ++ s2))
    | _ => r2
    end
  | _ => r1
  end.

Arguments g_seq : simpl never.

Fixpoint g_all (l : list grown) : grown :=
  match l with [] => g_done | r :: l => g_seq r (g_all l) end.

Section expand.
Context `{T : TopoInfo} (output_irq output_dev : bool) (calloc : nat -> bool).

Definition g_single (index : Z) (e : topo_level) : grown :=
  if negb (has_idx e) then g_stub (elem_name e, [])
  else
    let p_index := physical e index in
    let attrs p := [("index"%string, take 31 (print_int index)); ("p_index"%string, take 31 (print_int p))] in
    if p_index <? 0 then
      match e with
      | TOPO_CCL | TOPO_PKG | TOPO_CORE => g_fail p_index
      | _ => g_stub (elem_name e, attrs index)
      end
    else g_stub (elem_name e, attrs p_index).

(** The numbers of a mask below [nr]. *)
Definition members (mask : cpu_set_t) (nr : Z) : list Z :=
  List.filter (fun i => CPU_ISSET i mask) (seqZ 0 nr).

Definition g_next (mask : cpu_set_t) (nr : Z) (e : topo_level) : grown :=
  g_all ((fun i => g_single i e) <$> members mask nr).

(** The index of an element. *)
Definition index_of (attrs : list (string * cstring)) (k : Z -> grown) : grown :=
  match prop_of "index" attrs with
  | None => g_fail (- ENOENT)
  | Some s =>
    let '(v, erange, endptr) := strtol 10 s in
    if bool_decide (endptr = s) || erange then Fault UseAfterFree else k (to_int v)
  end.

(** The children of a mask that a query gives. *)
Definition g_mask (q : Z * cpu_set_t) (nr : Z) (e : topo_level) : grown :=
  if q.1 <? 0 then g_fail q.1 else if nr <? 0 then g_fail nr else g_next q.2 nr e.

Definition g_core_props (cpu : Z) : grown :=
  g_seq (g_prop "L1i_cache" (kilobytes (q_get_l1i_size cpu)))
    (g_seq (g_prop "L1d_cache" (kilobytes (q_get_l1d_size cpu)))
      (g_prop "L2_cache" (kilobytes (q_get_l2_size cpu)))).

Definition g_core (id : Z) : grown :=
  let '(ret, mask) := q_core_cpu_mask id in
  if ret <? 0 then g_fail ret
  else if q_cpus_in_total <? 0 then g_fail q_cpus_in_total
  else
    g_seq (g_core_props (first_set mask (Z.to_nat q_cpus_in_total) 0)) (g_next mask q_cpus_in_total TOPO_CPU).

Definition g_numa_props (id : Z) : grown :=
  let '(ret, mem_size) := q_get_node_mem_size id in
  if negb (ret =? 0) then g_fail ret
  else
    g_seq (g_prop "mem_size" (content (print_num 10 mem_size ++ s2l "KB")))
      (let '(ret, mask) := q_node_cpu_mask id in
       if ret <? 0 then g_fail ret
       else if q_cpus_in_total <? 0 then g_fail q_cpus_in_total
       else g_prop "L3_cache" (kilobytes (l3_cache mask (Z.to_nat q_cpus_in_total) 0 (-1)))).

Definition g_device (name : cstring) : grown :=
  let '(ret, dev_info) := q_get_device_info name in
  if negb (ret =? 0) then g_fail ret
  else
    match get_dev_elem_type (dv_dev_type dev_info) with
    | None => g_fail (- ENOENT)
    | Some (e, a) => g_stub (elem_name e, [(a, name)])
    end.

Definition g_devices (id : Z) : grown :=
  let '(ret, names) := q_get_device_list id in
  if negb (ret =? 0) then g_fail ret
  else if negb (length names =? 0)%nat && negb (calloc (length names)) then g_fail (- ENOMEM)
  else g_all (g_device <$> names).

Definition g_numa (id : Z) : grown :=
  g_seq (g_numa_props id)
    (g_seq (if q_ccls_in_total <? 0 then
              if q_cores_in_total <? 0 then g_fail q_cores_in_total
              else let '(ret, mask) := q_node_core_mask id in
                   if ret <? 0 then g_fail ret else g_next mask q_cores_in_total TOPO_CORE
            else let '(ret, mask) := q_node_ccl_mask id in
                 if ret <? 0 then g_fail ret else g_next mask q_ccls_in_total TOPO_CCL)
       (if negb output_dev then g_done else g_devices id)).

Definition g_system : grown :=
  if q_packages_in_total <? 0 then g_fail q_packages_in_total
  else
    g_seq (g_all ((fun i => g_single i TOPO_PKG) <$> seqZ 0 q_packages_in_total))
      (if negb output_irq then g_done else g_single 0 TOPO_INTR).

Definition g_intr : grown :=
  let '(ret, irqs) := q_get_irq_list in
  if negb (ret =? 0) then g_fail ret
  else if negb (length irqs =? 0)%nat && negb (calloc (length irqs)) then g_fail (- ENOMEM)
  else g_all ((fun irq => g_stub ("IRQ"%string, [("irq_number"%string, take 31 (print_num 10 irq))])) <$> irqs).

Definition g_irq (attrs : list (string * cstring)) : grown :=
  match prop_of "irq_number" attrs with
  | None => g_fail (- ENOENT)
  | Some s =>
    let '(ret, irq) := topo_str2ul s in
    if negb (ret =? 0) then g_fail ret
    else
      let '(ret, info) := q_get_irq_info irq in
      if negb (ret =? 0) then g_fail ret
      else
        g_seq (g_prop "name" (content (i_name info)))
          (match irq_chip_text !! Z.to_nat (to_uint (i_chip_name info)) with
           | None => g_fail (- EINVAL)
           | Some chip =>
             g_seq (g_prop "chip_name" (content chip))
               (match irq_type_text !! Z.to_nat (to_uint (i_type info)) with
                | None => g_fail (- EINVAL)
                | Some type => g_prop "type" (content type)
                end)
           end)
  end.

Definition g_pci (attrs : list (string * cstring)) : grown :=
  match prop_of "slot" attrs with
  | None => g_fail (- ENOENT)
  | Some slot =>
    let '(ret, info) := q_get_device_info slot in
    if negb (ret =? 0) then g_fail ret
    else
      g_seq (g_prop "smmu_idx" (content (print_int (dv_smmu_idx info))))
        (match dv_detail info with
         | PciDetail device vendor class _ nb_irq =>
           g_seq (g_prop "class_id" (print_hex class))
             (g_seq (g_prop "vendor_id" (print_hex vendor))
               (g_seq (g_prop "device_id" (print_hex device)) (g_prop "irq_nr" (content (print_int nb_irq)))))
         | _ => Fault Uninitialised
         end)
  end.

Definition g_smmu (attrs : list (string * cstring)) : grown :=
  match prop_of "name" attrs with
  | None => g_fail (- ENOENT)
  | Some name =>
    let '(ret, info) := q_get_device_info name in
    if negb (ret =? 0) then g_fail ret
    else
      g_seq (g_prop "smmu_idx" (content (print_int (dv_smmu_idx info))))
        (match dv_detail info with
         | SmmuDetail base_addr modalias =>
           g_seq (g_prop "base_addr" (print_hex base_addr)) (g_prop "modalias" (content modalias))
         | _ => Fault Uninitialised
         end)
  end.

(** What building an element with some properties adds to it. *)
Definition expand (e : topo_level) (attrs : list (string * cstring)) : grown :=
  match e with
  | TOPO_SYS => g_system
  | TOPO_PKG => index_of attrs (fun id => g_mask (q_package_node_mask id) q_nodes_in_total TOPO_NUMA)
  | TOPO_NUMA => index_of attrs g_numa
  | TOPO_CCL => index_of attrs (fun id => g_mask (q_ccl_core_mask id) q_cores_in_total TOPO_CORE)
  | TOPO_CORE => index_of attrs g_core
  | TOPO_CPU => g_done
  | TOPO_INTR => g_intr
  | TOPO_IRQ => g_irq attrs
  | TOPO_PCIDEV => g_pci attrs
  | TOPO_SMMUDEV => g_smmu attrs
  end.

(** The trees of a list of stubs, or the first error. *)
Fixpoint all_trees (f : stub -> outcome (Z + tree)) (l : list stub) : outcome (Z + list tree) :=
  match l with
  | [] => Ok (inr [])
  | s :: l =>
    r ← f s;
    match r with
    | inl ret => Ok (inl ret)
    | inr t =>
      rest ← all_trees f l;
      Ok (match rest with inl ret => inl ret | inr ts => inr (t :: ts) end)
    end
  end.

(** The tree below a stub. *)
Fixpoint expected (fuel : nat) (s : stub) : outcome (Z + tree) :=
  match fuel with
  | O => Fault OutOfFuel
  | S fuel =>
    match find_elem s.1 with
    | None => Ok (inl (- ENOENT))
    | Some e =>
      r ← expand e s.2;
      match r with
      | inl ret => Ok (inl ret)
      | inr (props, stubs) =>
        kids ← all_trees (expected fuel) stubs;
        Ok (match kids with inl ret => inl ret | inr ts => inr (Node s.1 (s.2 ++ props) ts) end)
      end
    end
  end.
End expand.

(** ** Growing a node *)

Section grow.
Context {X : Type} `{LO : LibXmlOk X} `{XM : !XmlMemory X}.

(** A stub in the document. *)
Definition is_stub (x : X) (c : xmlNodePtr) (s : stub) : Prop :=
  x_node x c = Some (mk_xml_node true s.1 s.2 []).

(** From [x] to [x'] the node [p], which was [n], gets properties and the stubs [cs];
    no other node changes. *)
Record adds (p : xmlNodePtr) (n : xml_node) (props : list (string * cstring)) (stubs : list stub)
    (cs : list xmlNodePtr) (x x' : X) : Prop := {
  ad_node : x_node x' p = Some (mk_xml_node (x_element n) (x_name n) (x_props n ++ props) (x_children n ++ cs));
  ad_stubs : Forall2 (is_stub x') cs stubs;
  ad_nodup : NoDup cs;
  ad_fresh : forall c, c ∈ cs -> x_node x c = None;
  ad_root : x_root x' = x_root x;
  ad_frame : forall q, q <> p -> q ∉ cs -> x_node x' q = x_node x q;
}.

Definition grown_at (x : X) (p : xmlNodePtr) (n : xml_node) (m : M X Z) (r : grown) : Prop :=
  match r with
  | Fault f => m x = Fault f
  | Ok (inl ret) => ret <> 0 /\ exists x', m x = Ok (ret, x')
  | Ok (inr (props, stubs)) => exists x' cs, m x = Ok (0, x') /\ adds p n props stubs cs x x'
  end.

Definition grows (p : xmlNodePtr) (m : M X Z) (r : grown) : Prop :=
  forall x n, x_node x p = Some n -> grown_at x p n m r.

(** Stubs stay when their nodes do. *)
Lemma stubs_stay (x x' : X) cs stubs :
  Forall2 (is_stub x) cs stubs -> (forall c, c ∈ cs -> x_node x c <> None -> x_node x' c = x_node x c) ->
  Forall2 (is_stub x') cs stubs.
Proof.
  intros H. induction H as [|c s cs stubs Hs _ IH]; intros F; constructor.
  - unfold is_stub in *. rewrite F; [done|left|congruence].
  - apply IH. intros d Hd. apply F. by right.
Qed.

Lemma grows_done p : grows p (mret 0) g_done.
Proof.
  intros x [e name props cs] Hp. exists x, []. split; [done|]. split; simpl; rewrite ?app_nil_r; try done.
  - constructor.
  - intros c H. inversion H.
Qed.

Lemma grows_fail p ret : ret <> 0 -> grows p (mret ret) (g_fail ret).
Proof. intros H x n _. split; [done|]. by exists x. Qed.

Lemma grows_throw p f : grows p (throw f) (Fault f).
Proof. by intros x n _. Qed.

Lemma adds_trans p n x1 x2 x3 p1 p2 s1 s2 c1 c2 :
  x_node x1 p = Some n -> adds p n p1 s1 c1 x1 x2 ->
  adds p (mk_xml_node (x_element n) (x_name n) (x_props n ++ p1) (x_children n ++ c1)) p2 s2 c2 x2 x3 ->
  adds p n (p1 ++ p2) (s1 ++ s2) (c1 ++ c2) x1 x3.
Proof.
  intros Hp [N1 S1 D1 F1 R1 Q1] [N2 S2 D2 F2 R2 Q2].
  assert (Hc1 : forall c, c ∈ c1 -> c <> p /\ c ∉ c2).
  { intros c Hc. split; [intros ->; apply F1 in Hc; congruence|].
    intros H. apply F2 in H. apply list_elem_of_lookup in Hc as (i & Hi).
    destruct (Forall2_lookup_l _ _ _ _ _ S1 Hi) as (s & _ & Hs). unfold is_stub in Hs. congruence. }
  assert (Hc2 : forall c, c ∈ c2 -> c <> p /\ c ∉ c1).
  { intros c Hc. split; [intros ->; apply F2 in Hc; congruence|]. intros H. by apply Hc1 in H as [_ ?]. }
  split; simpl in *.
  - by rewrite N2, !app_assoc.
  - apply Forall2_app; [|done]. eapply stubs_stay; [done|].
    intros c [? ?]%Hc1 _. by apply Q2.
  - apply NoDup_app. split_and!; [done| |done]. intros c H. by apply Hc1.
  - intros c [H|H]%elem_of_app; [by apply F1|]. pose proof (Hc2 _ H) as [? ?]. rewrite <-Q1 by done. by apply F2.
  - congruence.
  - intros q Hq [Ha Hb]%not_elem_of_app. rewrite Q2 by done. by apply Q1.
Qed.

Lemma grown_at_or_fail x p n m1 m2 r1 r2 :
  x_node x p = Some n -> grown_at x p n m1 r1 -> grows p m2 r2 -> grown_at x p n (or_fail m1 m2) (g_seq r1 r2).
Proof.
  intros Hp H1 H2. unfold or_fail, mbind, M_bind. destruct r1 as [[ret|[p1 s1]]|f]; simpl in *.
  - destruct H1 as (Hr & x' & ->). split; [done|]. rewrite (proj2 (Z.eqb_neq _ _) Hr). by exists x'.
  - destruct H1 as (x' & cs & E1 & A). pose proof (H2 _ _ (ad_node _ _ _ _ _ _ _ A)) as H.
    destruct r2 as [[ret|[p2 s2]]|f]; simpl in *.
    + rewrite E1. done.
    + destruct H as (x'' & cs' & E2 & A2). exists x'', (cs ++ cs'). rewrite E1. split; [done|].
      by eapply adds_trans.
    + rewrite E1. done.
  - by rewrite H1.
Qed.

Lemma grows_or_fail p m1 m2 r1 r2 : grows p m1 r1 -> grows p m2 r2 -> grows p (or_fail m1 m2) (g_seq r1 r2).
Proof. intros H1 H2 x n Hp. apply grown_at_or_fail; auto. Qed.

Lemma grows_prop p a v : grows p (new_prop p a v) (g_prop a v).
Proof.
  intros x n Hp. destruct (xm_new_prop p a v x n Hp) as (x' & E).
  destruct (xo_new_prop _ _ _ _ _ _ Hp E) as (R & F). exists x', []. unfold new_prop. rewrite E. split; [done|].
  split; try done.
  - rewrite F, decide_True by done. unfold add_prop. by rewrite app_nil_r.
  - constructor.
  - intros c H. inversion H.
  - intros q Hq _. rewrite F, decide_False; done.
Qed.

(** A child with its properties. *)
Lemma grows_child p name (k : xmlNodePtr -> M X Z) props :
  (forall c, grows c (k c) (Ok (inr (props, [])))) ->
  grows p (c ← new_child p name; match c with None => mret (- ENOMEM) | Some c => k c end) (g_stub (name, props)).
Proof.
  intros Hk x n Hp. destruct (xm_new_child p name x n Hp) as (c & x1 & E).
  destruct (xo_new_child _ _ _ _ _ _ Hp E) as (Fc & R & F).
  assert (Hcp : c <> p) by congruence.
  assert (Hc : x_node x1 c = Some (new_element name)) by by rewrite F, decide_True.
  destruct (Hk c x1 _ Hc) as (x2 & cs & E2 & [N S D Fr R2 Q]).
  apply Forall2_nil_inv_r in S as ->.
  exists x2, [c]. unfold mbind, M_bind, new_child. rewrite E. split; [done|]. split; simpl.
  - rewrite Q by (done || apply not_elem_of_nil). rewrite F, decide_False, decide_True by done. unfold add_child. by rewrite app_nil_r.
  - repeat constructor. done.
  - apply NoDup_singleton.
  - by intros ? ->%list_elem_of_singleton.
  - congruence.
  - intros q Hq Hqc%not_elem_of_cons. rewrite Q; [|tauto|apply not_elem_of_nil].
    rewrite F, decide_False, decide_False; tauto.
Qed.

Lemma grows_child_fail p name (k : xmlNodePtr -> M X Z) ret :
  (forall c, grows c (k c) (g_fail ret)) ->
  grows p (c ← new_child p name; match c with None => mret (- ENOMEM) | Some c => k c end) (g_fail ret).
Proof.
  intros Hk x n Hp. destruct (xm_new_child p name x n Hp) as (c & x1 & E).
  destruct (xo_new_child _ _ _ _ _ _ Hp E) as (Fc & R & F).
  assert (Hc : x_node x1 c = Some (new_element name)) by by rewrite F, decide_True.
  destruct (Hk c x1 _ Hc) as (Hr & x2 & E2). split; [done|]. exists x2.
  unfold mbind, M_bind, new_child. by rewrite E.
Qed.

Lemma grows_child_then p name (k : xmlNodePtr -> M X Z) props rest r :
  (forall c, grows c (k c) (Ok (inr (props, [])))) -> grows p rest r ->
  grows p (c ← new_child p name; match c with None => mret (- ENOMEM) | Some c => or_fail (k c) rest end)
    (g_seq (g_stub (name, props)) r).
Proof.
  intros Hk Hr x n Hp. pose proof (grows_or_fail _ _ _ _ _ (grows_child p name k props Hk) Hr x n Hp) as H.
  revert H. unfold grown_at. generalize (g_seq (g_stub (name, props)) r). intros g.
  unfold or_fail, mbind, M_bind, new_child. by destruct (xmlNewChild p name x) as [[c|] x1].
Qed.

(** The properties of a child only. *)
Lemma grows_props2 c a v b w :
  grows c (or_fail (new_prop c a v) (new_prop c b w)) (Ok (inr ([(a, v); (b, w)], []))).
Proof. apply (grows_or_fail c _ _ (g_prop a v) (g_prop b w)); apply grows_prop. Qed.

Lemma grows_prop_fail c a v ret : ret <> 0 -> grows c (or_fail (new_prop c a v) (mret ret)) (g_fail ret).
Proof. intros H. apply (grows_or_fail c _ _ (g_prop a v) (g_fail ret)); [apply grows_prop|by apply grows_fail]. Qed.

(** The elements follow each other. *)
Lemma grows_list {A} p (f : A -> M X Z) (g : A -> grown) (loop : list A -> M X Z) :
  loop [] = mret 0 -> (forall a l, loop (a :: l) = or_fail (f a) (loop l)) ->
  (forall a, grows p (f a) (g a)) -> forall l, grows p (loop l) (g_all (g <$> l)).
Proof.
  intros H0 H1 Hf l. induction l as [|a l IH]; simpl.
  - rewrite H0. apply grows_done.
  - rewrite H1. by apply grows_or_fail.
Qed.
End grow.

(** One test of the code, or one of the lemmas. *)
Ltac grow_step :=
  match goal with
  | |- grows _ (if ?b then _ else _) _ => let E := fresh "E" in destruct b eqn:E; cbn iota
  | |- grows _ (match ?b with _ => _ end) _ => let E := fresh "E" in destruct b eqn:E; cbn iota
  | |- grows _ (or_fail _ _) _ => apply grows_or_fail
  | |- grows _ (new_prop _ _ _) _ => apply grows_prop
  | |- grows _ (throw _) _ => apply grows_throw
  | |- grows _ (mret 0) g_done => apply grows_done
  | |- grows _ (mret _) (g_fail _) => apply grows_fail; first [done | zbool; lia]
  end.
Ltac grow := cbv zeta; repeat grow_step.

(** ** Every element *)

Section elements.
Context {X : Type} `{LO : LibXmlOk X} `{XM : !XmlMemory X} `{T : TopoInfo}.
Context (output_irq output_dev : bool) (calloc : nat -> bool).

Lemma single_grows p i e : grows p (topo_build_single_elem p i e) (g_single i e).
Proof.
  unfold topo_build_single_elem, g_single, build_prop_index.
  destruct (has_idx e) eqn:Hi; simpl negb; cbn iota; [|apply grows_child; intros c; apply grows_done].
  cbv zeta. destruct (physical e i <? 0) eqn:Hp; [|apply grows_child; intros c; apply grows_props2].
  assert (HF : physical e i <> 0) by lia.
  destruct e; try done;
    (apply grows_child; intros c; apply grows_props2) ||
    (apply grows_child_fail; intros c; by apply grows_prop_fail).
Qed.

Lemma members_succ mask n i :
  List.filter (fun i => CPU_ISSET i mask) (seqZ i (Z.of_nat (S n))) =
  if CPU_ISSET i mask then i :: List.filter (fun i => CPU_ISSET i mask) (seqZ (i + 1) (Z.of_nat n))
  else List.filter (fun i => CPU_ISSET i mask) (seqZ (i + 1) (Z.of_nat n)).
Proof. rewrite seqZ_cons by lia. replace (Z.pred (Z.of_nat (S n))) with (Z.of_nat n) by lia. done. Qed.

Lemma next_grows p mask nr e : 0 <= nr -> grows p (topo_build_next_elem p mask nr e) (g_next mask nr e).
Proof.
  intros Hnr. unfold topo_build_next_elem, g_next, members. rewrite <-(Z2Nat.id nr) at 2 by done.
  generalize (Z.to_nat nr) as n, 0 as i. intros n. induction n as [|n IH]; intros i.
  - apply grows_done.
  - rewrite members_succ. simpl build_elems. destruct (CPU_ISSET i mask); simpl; [|apply IH].
    apply grows_or_fail; [apply single_grows|apply IH].
Qed.

Lemma mask_grows p q nr e :
  grows p (let '(ret, mask) := q in if ret <? 0 then mret ret else if nr <? 0 then mret nr else topo_build_next_elem p mask nr e)
    (g_mask q nr e).
Proof. destruct q as [ret mask]. unfold g_mask. simpl. grow. apply next_grows. lia. Qed.

(** The index of an element, and then its part of the code. *)
Lemma index_grows x p n (K : Z * Z -> M X Z) (g : Z -> grown) :
  x_node x p = Some n -> K (- ENOENT, 0) = mret (- ENOENT) -> (forall id, grows p (K (0, id)) (g id)) ->
  grown_at x p n (r ← get_index_from_prop p; K r) (index_of (x_props n) g).
Proof.
  intros Hp H0 Hk. unfold get_index_from_prop, get_prop, gets, index_of, grown_at, mbind, M_bind.
  rewrite (xo_get_prop _ _ _ _ Hp). destruct (prop_of "index" (x_props n)) as [v|].
  2:{ unfold g_fail. cbn beta iota delta [mret M_ret]. rewrite H0. split; [done|]. by exists x. }
  destruct (strtol 10 v) as [[i e] endptr]. destruct (_ || _); [done|]. by apply Hk.
Qed.

Lemma core_grows p id :
  grows p
    (let '(ret, mask) := q_core_cpu_mask id in
     if ret <? 0 then mret ret else
     let c_nr := q_cpus_in_total in
     if c_nr <? 0 then mret c_nr else
     or_fail (core_prop_build p (first_set mask (Z.to_nat c_nr) 0)) $
     topo_build_next_elem p mask c_nr TOPO_CPU)
    (g_core id).
Proof.
  unfold g_core, g_core_props, core_prop_build. grow. apply next_grows. lia.
Qed.

Lemma numa_props_grows p id : grows p (numa_prop_build p id) (g_numa_props id).
Proof. unfold numa_prop_build, g_numa_props. grow. Qed.

Lemma devices_grows p id : grows p (numa_dev_elem_build calloc p id) (g_devices calloc id).
Proof.
  unfold numa_dev_elem_build, g_devices. destruct (q_get_device_list id) as [ret names].
  destruct (ret =? 0) eqn:Hr; simpl; [|grow].
  apply Z.eqb_eq in Hr as ->. destruct (length names =? 0)%nat eqn:Hl; simpl.
  - apply Nat.eqb_eq, length_zero_iff_nil in Hl as ->. apply grows_done.
  - destruct (calloc (length names)); simpl; [|by apply grows_fail].
    clear Hl. induction names as [|name names IH]; [apply grows_done|]. simpl. unfold g_device at 1.
    destruct (q_get_device_info name) as [r info]. destruct (negb (r =? 0)) eqn:Hr; [apply (grows_fail p r); zbool; lia|].
    destruct (get_dev_elem_type _) as [[e a]|]; [|by apply (grows_fail p (- ENOENT))].
    apply grows_child_then; [|done]. intros c. apply grows_prop.
Qed.

Lemma numa_grows p id :
  grows p
    (or_fail (numa_prop_build p id) $
     or_fail
      (let c_nr := q_ccls_in_total in
       if c_nr <? 0 then
         let c_nr := q_cores_in_total in
         if c_nr <? 0 then mret c_nr else
         let '(ret, core_mask) := q_node_core_mask id in
         if ret <? 0 then mret ret else topo_build_next_elem p core_mask c_nr TOPO_CORE
       else
         let '(ret, ccl_mask) := q_node_ccl_mask id in
         if ret <? 0 then mret ret else topo_build_next_elem p ccl_mask c_nr TOPO_CCL) $
     if negb output_dev then mret 0 else numa_dev_elem_build calloc p id)
    (g_numa output_dev calloc id).
Proof.
  unfold g_numa. apply grows_or_fail; [apply numa_props_grows|].
  grow; (apply devices_grows || apply next_grows; lia).
Qed.

Lemma packages_grow p n i :
  grows p (package_elems p n i) (g_all ((fun i => g_single i TOPO_PKG) <$> seqZ i (Z.of_nat n))).
Proof.
  revert i. induction n as [|n IH]; intros i; [apply grows_done|].
  rewrite seqZ_cons by lia. replace (Z.pred (Z.of_nat (S n))) with (Z.of_nat n) by lia.
  apply grows_or_fail; [apply single_grows|apply IH].
Qed.

Lemma system_grows p : grows p (system_elem_build output_irq p) (g_system output_irq).
Proof.
  unfold system_elem_build, g_system. grow; [|apply single_grows..].
  rewrite <-(Z2Nat.id q_packages_in_total) at 2 by lia. apply packages_grow.
Qed.

Lemma intr_grows p : grows p (intr_elem_build calloc p) (g_intr calloc).
Proof.
  unfold intr_elem_build, g_intr. destruct q_get_irq_list as [ret irqs].
  destruct (ret =? 0) eqn:Hr; simpl; [|grow].
  apply Z.eqb_eq in Hr as ->. destruct (length irqs =? 0)%nat eqn:Hl; simpl.
  - apply Nat.eqb_eq, length_zero_iff_nil in Hl as ->. apply grows_done.
  - destruct (calloc (length irqs)); simpl; [|by apply grows_fail].
    clear Hl. induction irqs as [|irq irqs IH]; [apply grows_done|].
    apply grows_child_then; [|done]. intros c. apply grows_prop.
Qed.

(** A property of an element, and then its part of the code. *)
Lemma get_prop_grows x p n a (K : option cstring -> M X Z) (g : cstring -> grown) :
  x_node x p = Some n -> K None = mret (- ENOENT) -> (forall v, grows p (K (Some v)) (g v)) ->
  grown_at x p n (v ← get_prop p a; K v)
    (match prop_of a (x_props n) with None => g_fail (- ENOENT) | Some v => g v end).
Proof.
  intros Hp H0 Hk. unfold get_prop, gets, grown_at, mbind, M_bind. rewrite (xo_get_prop _ _ _ _ Hp).
  destruct (prop_of a (x_props n)) as [v|]; [by apply Hk|]. rewrite H0. split; [done|]. by exists x.
Qed.

(** Each of the functions does what [expand] says. *)
Lemma elem_build_grows e x p n :
  x_node x p = Some n ->
  grown_at x p n (elem_build output_irq output_dev calloc e p) (expand output_irq output_dev calloc e (x_props n)).
Proof.
  intros Hp. destruct e; simpl.
  - by apply system_grows.
  - apply index_grows; [done..|]. intros id. apply mask_grows.
  - apply index_grows; [done..|]. intros id. apply numa_grows.
  - apply index_grows; [done..|]. intros id. apply mask_grows.
  - apply index_grows; [done..|]. intros id. apply core_grows.
  - by apply grows_done.
  - by apply intr_grows.
  - apply (get_prop_grows x p n "irq_number" _ (fun s => g_irq [("irq_number"%string, s)])); [done..|].
    intros v. unfold g_irq, irq_prop_build. cbn [prop_of]. rewrite decide_True by done. grow.
  - apply (get_prop_grows x p n "slot" _ (fun s => g_pci [("slot"%string, s)])); [done..|].
    intros v. unfold g_pci. cbn [prop_of]. rewrite decide_True by done. grow.
  - apply (get_prop_grows x p n "name" _ (fun s => g_smmu [("name"%string, s)])); [done..|].
    intros v. unfold g_smmu. cbn [prop_of]. rewrite decide_True by done. grow.
Qed.

(** ** The whole document *)

(** The tree [t] is in the document at [p], all its nodes in [P]. *)
Inductive tree_in (P : xmlNodePtr -> Prop) (x : X) : xmlNodePtr -> tree -> Prop :=
  | tree_in_node p name props cs ts :
    P p -> x_node x p = Some (mk_xml_node true name props cs) -> trees_in P x cs ts ->
    tree_in P x p (Node name props ts)
with trees_in (P : xmlNodePtr -> Prop) (x : X) : list xmlNodePtr -> list tree -> Prop :=
  | trees_in_nil : trees_in P x [] []
  | trees_in_cons c cs t ts : tree_in P x c t -> trees_in P x cs ts -> trees_in P x (c :: cs) (t :: ts).

Scheme tree_in_mut := Induction for tree_in Sort Prop
  with trees_in_mut := Induction for trees_in Sort Prop.
Combined Scheme tree_in_mutind from tree_in_mut, trees_in_mut.

(** A tree stays when its nodes do. *)
Lemma tree_in_mono (P Q : xmlNodePtr -> Prop) (x x' : X) :
  (forall q, P q -> x_node x q <> None -> Q q /\ x_node x' q = x_node x q) ->
  (forall p t, tree_in P x p t -> tree_in Q x' p t) /\ (forall cs ts, trees_in P x cs ts -> trees_in Q x' cs ts).
Proof.
  intros H. apply tree_in_mutind; intros; econstructor; eauto.
  - by apply H; [|congruence].
  - destruct (H p) as [_ ->]; [done|congruence|done].
Qed.

Notation build := (build_topo output_irq output_dev calloc).
Notation expect := (expected output_irq output_dev calloc).

(** What the loop over siblings does with the nodes of a list of stubs. *)
Definition builds (m : M X Z) (x : X) (nodes : list xmlNodePtr) (r : outcome (Z + list tree)) : Prop :=
  match r with
  | Fault f => m x = Fault f
  | Ok (inl ret) => ret <> 0 /\ exists x', m x = Ok (ret, x')
  | Ok (inr ts) => exists x', m x = Ok (0, x') /\
    trees_in (fun q => q ∈ nodes \/ x_node x q = None) x' nodes ts /\
    x_root x' = x_root x /\
    forall q, q ∉ nodes -> x_node x q <> None -> x_node x' q = x_node x q
  end.

(** One of the siblings, with what is below it. *)
Definition build_one (fuel : nat) (c : xmlNodePtr) : M X Z :=
  n ← get_node c;
  match find_elem (x_name n) with
  | None => mret (- ENOENT)
  | Some e =>
    or_fail (elem_build output_irq output_dev calloc e c) $
    children ← element_children c;
    match children with [] => mret 0 | _ => build fuel children end
  end.

Lemma build_topo_cons fuel c nodes x :
  build (S fuel) (c :: nodes) x = or_fail (build_one fuel c) (build (S fuel) nodes) x.
Proof.
  unfold build_one, or_fail. cbn [build_topo]. unfold or_fail, mbind, M_bind.
  destruct (get_node c x) as [[n x0]|f]; [|done].
  destruct (find_elem (x_name n)) as [e|]; [|done].
  destruct (elem_build _ _ _ e c x0) as [[r x1]|f]; [|done].
  destruct (r =? 0) eqn:Hr; [|unfold mret, M_ret; by rewrite Hr].
  destruct (element_children c x1) as [[[|d ds] x2]|f]; done.
Qed.

Lemma all_elements (x : X) cs stubs : Forall2 (is_stub x) cs stubs -> List.filter (is_element x) cs = cs.
Proof.
  induction 1 as [|c s cs stubs H _ IH]; [done|]. simpl. unfold is_element at 1.
  rewrite H. simpl. by rewrite IH.
Qed.

(** One sibling after the other. *)
Lemma builds_cons m1 m2 x c nodes s stubs (f : stub -> outcome (Z + tree)) :
  NoDup (c :: nodes) -> is_stub x c s -> Forall2 (is_stub x) nodes stubs ->
  builds m1 x [c] (all_trees f [s]) ->
  (forall x1, Forall2 (is_stub x1) nodes stubs -> builds m2 x1 nodes (all_trees f stubs)) ->
  builds (or_fail m1 m2) x (c :: nodes) (all_trees f (s :: stubs)).
Proof.
  intros [Hc Hn]%NoDup_cons Hs Hss H1 H2. simpl in *. unfold builds, or_fail in *. unfold mbind, M_bind, outcome_bind in *.
  destruct (f s) as [[ret|t]|e]; simpl in *.
  - destruct H1 as (Hr & x' & ->). split; [done|]. rewrite (proj2 (Z.eqb_neq _ _) Hr). by exists x'.
  - destruct H1 as (x1 & -> & Ht & Hroot & Hf).
    assert (Hin : forall q, q ∈ nodes -> x_node x q <> None).
    { intros q (i & Hq)%list_elem_of_lookup. destruct (Forall2_lookup_l _ _ _ _ _ Hss Hq) as (s' & _ & H).
      unfold is_stub in H. congruence. }
    assert (H : Forall2 (is_stub x1) nodes stubs).
    { eapply stubs_stay; [done|]. intros q Hq Hx. apply Hf; [|done]. intros ->%list_elem_of_singleton. done. }
    apply H2 in H. simpl. destruct (all_trees f stubs) as [[ret|ts]|e]; try done.
    destruct H as (x2 & -> & Hts & Hroot2 & Hf2). exists x2. split; [done|].
    split_and!; [|congruence|].
    + constructor.
      * inversion Ht; subst. eapply (tree_in_mono _ _ x1 x2); [|done]. intros q [->%list_elem_of_singleton|Hq] Hx1.
        -- split; [left; constructor|]. by apply Hf2.
        -- split; [by right|]. apply Hf2; [|done]. intros Hqn. by apply Hin in Hqn.
      * eapply (tree_in_mono _ _ x2 x2); [|done]. intros q [Hq|Hq] _; (split; [|done]); [left; by right|].
        destruct (decide (q = c)) as [->|Hqc]; [left; left|]. right. destruct (x_node x q) eqn:E; [|done].
        rewrite <-Hq, Hf; [done| |congruence]. by rewrite list_elem_of_singleton.
    + intros q [Hqc Hqn]%not_elem_of_cons Hx. assert (x_node x1 q = x_node x q) as E.
      { apply Hf; [by rewrite list_elem_of_singleton|done]. }
      rewrite <-E. apply Hf2; [done|]. by rewrite E.
  - by rewrite H1.
Qed.

(** One sibling: what the function of its element adds, and then the children. *)
Lemma builds_one fuel x c s :
  (forall x1 cs stubs, NoDup cs -> cs <> [] -> Forall2 (is_stub x1) cs stubs ->
    builds (build fuel cs) x1 cs (all_trees (expect fuel) stubs)) ->
  is_stub x c s -> builds (build_one fuel c) x [c] (all_trees (expect (S fuel)) [s]).
Proof.
  intros IH Hs. unfold build_one, get_node. simpl. unfold builds, mbind, M_bind, outcome_bind. rewrite Hs. simpl.
  destruct (find_elem s.1) as [e|]; [|split; [done|]; by exists x].
  pose proof (elem_build_grows e x c _ Hs) as HG. simpl in HG. unfold or_fail, mbind, M_bind.
  destruct (expand _ _ _ e s.2) as [[ret|[props stubs]]|f]; simpl in *.
  - destruct HG as (Hr & x' & ->). split; [done|]. rewrite (proj2 (Z.eqb_neq _ _) Hr). by exists x'.
  - destruct HG as (x1 & cs & -> & [N S D Fr R Q]). simpl in N. simpl.
    unfold element_children. rewrite N. simpl. rewrite (all_elements _ _ _ S).
    assert (HB : builds (match cs with [] => mret 0 | _ => build fuel cs end) x1 cs (all_trees (expect fuel) stubs)).
    { destruct cs as [|d ds]; [|by apply IH]. apply Forall2_nil_inv_l in S as ->.
      exists x1. split_and!; try done. constructor. }
    destruct (all_trees (expect fuel) stubs) as [[ret|ts]|f]; simpl in *; [done| |done].
    destruct HB as (x2 & E & Hts & R2 & Q2). exists x2. split; [done|]. split_and!.
    + assert (Hc : c ∉ cs) by (intros H; apply Fr in H; unfold is_stub in Hs; congruence).
      constructor; [|constructor]. eapply tree_in_node; [left; constructor| |].
      * rewrite Q2; [done..|congruence].
      * eapply (tree_in_mono _ _ x2 x2); [|done]. intros q Hq _. split; [|done]. right.
        destruct Hq as [Hq|Hq]; [by apply Fr|]. rewrite <-Q; [done|congruence|].
        intros (i & Hi)%list_elem_of_lookup. destruct (Forall2_lookup_l _ _ _ _ _ S Hi) as (s' & _ & H).
        unfold is_stub in H. congruence.
    + congruence.
    + intros q Hq Hx. assert (q ∉ cs) by (intros H; by apply Fr in H). rewrite Q2; [|done|].
      * apply Q; [|done]. intros ->. by apply Hq, list_elem_of_singleton.
      * rewrite Q; [done| |done]. intros ->. by apply Hq, list_elem_of_singleton.
  - by rewrite HG.
Qed.

Lemma build_topo_builds fuel stubs nodes x :
  NoDup nodes -> nodes <> [] \/ fuel <> O -> Forall2 (is_stub x) nodes stubs ->
  builds (build fuel nodes) x nodes (all_trees (expect fuel) stubs).
Proof.
  revert stubs nodes x. induction fuel as [|fuel IH]; intros stubs nodes x Hn Hd Hs.
  - destruct Hs; [naive_solver|]. done.
  - clear Hd. revert x Hn Hs. revert stubs. induction nodes as [|c nodes IHn]; intros stubs x Hn Hs.
    + apply Forall2_nil_inv_l in Hs as ->. exists x. split_and!; try done. constructor.
    + apply Forall2_cons_inv_l in Hs as (s & stubs' & Hs & Hss & ->).
      assert (HB : builds (or_fail (build_one fuel c) (build (S fuel) nodes)) x (c :: nodes)
        (all_trees (expect (S fuel)) (s :: stubs'))).
      { apply builds_cons; try done; [|intros; apply IHn; [by apply NoDup_cons in Hn as [_ ?]|done]].
        apply builds_one; [|done]. intros x1 cs ss Hd Hne. apply IH; [done|by left]. }
      revert HB. unfold builds. by rewrite build_topo_cons.
Qed.

(** The document that [build_topo_info] builds is the tree of the topology, and when
    the tree has an error so has the call. *)
Lemma build_topo_info_tree :
  match expect build_fuel (elem_name TOPO_SYS, []) with
  | Fault f => build_topo_info output_irq output_dev calloc = Fault f
  | Ok (inl ret) => ret <> 0 /\ build_topo_info output_irq output_dev calloc = Ok (ret, None)
  | Ok (inr t) => exists x root,
    build_topo_info output_irq output_dev calloc = Ok (0, Some x) /\ x_root x = Some root /\
    tree_in (fun _ => True) x root t
  end.
Proof.
  unfold build_topo_info. destruct xm_new_doc as (x & ->).
  destruct (xm_new_node (elem_name TOPO_SYS) x) as (p & x1 & E). rewrite E.
  destruct (xo_new_node _ _ _ _ E) as (Fp & Fn). destruct (xo_set_root p x1) as (Hr & Fr).
  set (x2 := xmlDocSetRootElement p x1) in *.
  assert (Hs : is_stub x2 p (elem_name TOPO_SYS, [])) by (unfold is_stub; by rewrite Fr, Fn, decide_True).
  assert (HB : builds (build build_fuel [p]) x2 [p] (all_trees (expect build_fuel) [(elem_name TOPO_SYS, [])])).
  { apply build_topo_builds; [apply NoDup_singleton|by left|by repeat constructor]. }
  cbn [all_trees] in HB. destruct (expect build_fuel (elem_name TOPO_SYS, [])) as [[ret|t]|f];
    cbn beta iota delta [builds mbind outcome_bind] in HB.
  - destruct HB as (H & x' & ->). split; [done|]. by rewrite (proj2 (Z.eqb_neq _ _) H).
  - destruct HB as (x' & -> & Ht & R & F). exists x', p. split; [done|]. split; [congruence|].
    inversion Ht; subst. by eapply (tree_in_mono _ _ x' x').
  - by rewrite HB.
Qed.
End elements.
