(* ===== verification/InfoValid.v ===== *)
(** * Checking a document

    [tools/wayca-sc-info/wayca_sc_topo.c]: the declarations of the document type,
    [validate_format], [validate_value] and [validate_topo_info]. Whether a document
    follows declarations is [xmlValidateDtd]'s answer, a parameter. *)

From Stdlib Require Import Ascii String.
From stdpp Require Import strings.
From S2P Require Import Prelude Cstring Dynset TopoState InfoXml.

(** ** Numbers *)

Definition is_valid_num (num : cstring) (base min max : Z) : bool :=
  let '(ret, erange, endstr) := strtol base num in
  if bool_decide (endstr = num) || erange then false
  else bool_decide (endstr = []) && (min <=? ret) && (ret <=? max).

Definition is_valid_memory_size (mem_size need_endstr : cstring) : bool :=
  let '(ret, _, real_endstr) := strtol 10 mem_size in (0 <=? ret) && bool_decide (need_endstr = real_endstr).

Definition MAX_CPUS : Z := 4096.

Definition is_valid_idx (num : cstring) : bool :=
  let '(ret, _, endstr) := strtol 10 num in bool_decide (endstr = []) && (0 <=? ret) && (ret <? MAX_CPUS).

Definition UINT32_MAX : Z := 2 ^ 32 - 1.
Definition UINT8_MAX : Z := 255.
Definition WAYCA_SC_INFO_DEC_BASE : Z := 10.

Definition KB : cstring := s2l "KB".

Definition numa_prop_list : list string := ["mem_size"; "L3_cache"]%string.
Definition core_prop_list : list string := ["L1i_cache"; "L1d_cache"; "L2_cache"]%string.

(** ** The document type *)

(** What an element may hold, and the declarations. Every attribute that is declared
    is required. *)
Inductive elem_content :=
  | XML_ELEMENT_TYPE_EMPTY
  | XML_ELEMENT_TYPE_MIXED (names : list string).

Inductive decl :=
  | ElementDecl (name : string) (content : elem_content)
  | AttributeDecl (elem attr : string).

#[export] Instance decl_eq_dec : EqDecision decl.
Proof. assert (EqDecision elem_content) by solve_decision. solve_decision. Defined.

Definition dtd : Type := list decl.

Definition add_decl (d : decl) : M dtd unit := modify (fun l => l ++ [d]).

Section format.
(** Whether there is memory for the content of a name, and for the declaration of an
    attribute. *)
Context (content_ok : string -> bool) (attr_ok : string -> string -> bool).

(** The content is linked through [c2]: a list of names. *)
Fixpoint link_content (names : list (option string)) (cont : list string) : option (list string) :=
  match names with
  | [] => Some cont
  | None :: _ => None
  | Some n :: names => if content_ok n then link_content names (cont ++ [n]) else None
  end.

Definition add_elem_formater (elem_list : list (option string)) : M dtd Z :=
  match elem_list with
  | Some name :: None :: _ => add_decl (ElementDecl name XML_ELEMENT_TYPE_EMPTY);; mret 0
  | Some name :: Some child :: names =>
    if negb (content_ok child) then mret (- ENOMEM) else
    match link_content names [child] with
    | None => mret (- ENOMEM)
    | Some cont => add_decl (ElementDecl name (XML_ELEMENT_TYPE_MIXED cont));; mret 0
    end
  | _ => mret (- EINVAL)
  end.

(** The result tells whether the declaration was added. *)
Definition xmlAddAttributeDecl (elem attr : string) : M dtd bool :=
  if attr_ok elem attr then add_decl (AttributeDecl elem attr);; mret true else mret false.

Fixpoint add_attrs (elem : string) (attrs : list string) : M dtd Z :=
  match attrs with
  | [] => mret 0
  | a :: attrs =>
    ok ← xmlAddAttributeDecl elem a;
    if ok : bool then add_attrs elem attrs else mret (- ENOMEM)
  end.

Definition add_attr_formater (attr_list : list string) : M dtd Z :=
  match attr_list with
  | elem :: a :: attrs => add_attrs elem (a :: attrs)
  | _ => mret (- EINVAL)
  end.

Definition cpu_format : M dtd Z := add_elem_formater [Some "CPU"; None]%string.
Definition core_format : M dtd Z :=
  or_fail (add_elem_formater [Some "Core"; Some "CPU"]%string)
    (add_attr_formater ["Core"; "L2_cache"; "L1i_cache"; "L1d_cache"]%string).
Definition ccl_format : M dtd Z := add_elem_formater [Some "Cluster"; Some "Core"]%string.
Definition numa_format : M dtd Z :=
  or_fail (add_elem_formater [Some "NUMANode"; Some "Cluster"; Some "Core"; Some "PCIDEV"; Some "SMMUDEV"]%string)
    (add_attr_formater ["NUMANode"; "mem_size"; "L3_cache"]%string).
Definition pkg_format : M dtd Z := add_elem_formater [Some "Package"; Some "NUMANode"]%string.
Definition sys_format : M dtd Z := add_elem_formater [Some "System"; Some "Package"; Some "Interrupt"]%string.
Definition intr_format : M dtd Z := add_elem_formater [Some "Interrupt"; Some "IRQ"]%string.
Definition irq_format : M dtd Z :=
  or_fail (add_elem_formater [Some "IRQ"; None]%string)
    (add_attr_formater ["IRQ"; "irq_number"; "name"; "type"; "chip_name"]%string).
Definition pci_dev_format : M dtd Z :=
  or_fail (add_elem_formater [Some "PCIDEV"; None]%string)
    (add_attr_formater ["PCIDEV"; "slot"; "smmu_idx"; "class_id"; "vendor_id"; "device_id"; "irq_nr"]%string).
Definition smmu_dev_format : M dtd Z :=
  or_fail (add_elem_formater [Some "SMMUDEV"; None]%string)
    (add_attr_formater ["SMMUDEV"; "name"; "smmu_idx"; "base_addr"; "modalias"]%string).

Definition format (e : topo_level) : M dtd Z :=
  match e with
  | TOPO_SYS => sys_format
  | TOPO_PKG => pkg_format
  | TOPO_NUMA => numa_format
  | TOPO_CCL => ccl_format
  | TOPO_CORE => core_format
  | TOPO_CPU => cpu_format
  | TOPO_INTR => intr_format
  | TOPO_IRQ => irq_format
  | TOPO_PCIDEV => pci_dev_format
  | TOPO_SMMUDEV => smmu_dev_format
  end.

(** The loop over the table. The results for the indices are not looked at. *)
Fixpoint formats (l : list topo_level) : M dtd Z :=
  match l with
  | [] => mret 0
  | e :: l =>
    or_fail (format e) $
    if negb (has_idx e) then formats l else
    xmlAddAttributeDecl (elem_name e) "index";;
    xmlAddAttributeDecl (elem_name e) "p_index";;
    formats l
  end.

(** [valid_ctxt] and [new_dtd]: whether [xmlNewValidCtxt] and [xmlNewDtd] succeed. *)
Definition validate_format {X : Type} (valid_ctxt new_dtd : bool) (xmlValidateDtd : dtd -> X -> Z) (topo_doc : X) : outcome Z :=
  if negb valid_ctxt then Ok (- ENOMEM) else
  if negb new_dtd then Ok (- ENOMEM) else
  match formats topo_elem [] with
  | Fault f => Fault f
  | Ok (ret, topo_dtd) =>
    Ok (if negb (ret =? 0) then ret else if xmlValidateDtd topo_dtd topo_doc =? 1 then 0 else - EINVAL)
  end.
End format.

(** ** The values *)

(** The two static flags, and the messages about sizes: element, property, number. *)
Record reports := mk_reports {
  numa_mem_error : bool;
  core_mem_error : bool;
  r_messages : list (string * string * Z);
}.

Definition numa_report (m : string * string * Z) (r : reports) : reports :=
  if numa_mem_error r then r else mk_reports true (core_mem_error r) (r_messages r ++ [m]).
Definition core_report (m : string * string * Z) (r : reports) : reports :=
  if core_mem_error r then r else mk_reports (numa_mem_error r) true (r_messages r ++ [m]).

Section verify.
Context {X : Type} `{L : LibXml X} (x : X).

Definition node_name (node : xmlNodePtr) : string :=
  match x_node x node with Some n => x_name n | None => ""%string end.

(** The loop over the properties that are sizes. *)
Fixpoint sizes_verify (report : string * string * Z -> reports -> reports) (node : xmlNodePtr) (props : list string) : M reports Z :=
  match props with
  | [] => mret 0
  | a :: props =>
    match xmlGetProp node a x with
    | None => mret (- ENOENT)
    | Some prop =>
      if negb (is_valid_memory_size prop KB) then
        modify (report (node_name node, a, to_int (strtol 10 prop).1.1));;
        mret 0
      else sizes_verify report node props
    end
  end.

Definition core_prop_verify (node : xmlNodePtr) : M reports Z := sizes_verify core_report node core_prop_list.
Definition numa_prop_verify (node : xmlNodePtr) : M reports Z := sizes_verify numa_report node numa_prop_list.

(** A property that is a number of a range. *)
Definition num_verify (node : xmlNodePtr) (a : string) (min max : Z) : M reports Z :=
  mret (match xmlGetProp node a x with
        | None => - ENOENT
        | Some prop => if is_valid_num prop WAYCA_SC_INFO_DEC_BASE min max then 0 else - EINVAL
        end).

Definition irq_prop_verify (node : xmlNodePtr) : M reports Z := num_verify node "irq_number" 0 UINT32_MAX.
Definition pci_prop_verify (node : xmlNodePtr) : M reports Z := num_verify node "smmu_idx" (-1) UINT8_MAX.
Definition smmu_prop_verify (node : xmlNodePtr) : M reports Z := num_verify node "smmu_idx" (-1) UINT8_MAX.

Definition prop_verify (e : topo_level) : option (xmlNodePtr -> M reports Z) :=
  match e with
  | TOPO_NUMA => Some numa_prop_verify
  | TOPO_CORE => Some core_prop_verify
  | TOPO_IRQ => Some irq_prop_verify
  | TOPO_PCIDEV => Some pci_prop_verify
  | TOPO_SMMUDEV => Some smmu_prop_verify
  | _ => None
  end.

(** The loop over the table. *)
Fixpoint verify_loop (node : xmlNodePtr) (l : list topo_level) : M reports Z :=
  match l with
  | [] => mret 0
  | e :: l =>
    if negb (bool_decide (node_name node = elem_name e)) then verify_loop node l else
    match prop_verify e with
    | None => verify_loop node l
    | Some verify => verify node
    end
  end.

Definition verify_prop (node : xmlNodePtr) : M reports Z :=
  match xmlGetProp node "index" x with
  | Some index => if is_valid_idx index then verify_loop node topo_elem else mret (- EINVAL)
  | None => verify_loop node topo_elem
  end.

(** The loop over siblings, and below. *)
Fixpoint verify_topo_value (fuel : nat) (nodes : list xmlNodePtr) : M reports Z :=
  match fuel with
  | O => throw OutOfFuel
  | S fuel =>
    (fix siblings (nodes : list xmlNodePtr) : M reports Z :=
      match nodes with
      | [] => mret 0
      | cur_node :: nodes =>
        or_fail (verify_prop cur_node) $
        match element_children cur_node x with
        | Fault f => throw f
        | Ok ([], _) => siblings nodes
        | Ok (children, _) => or_fail (verify_topo_value fuel children) (siblings nodes)
        end
      end) nodes
  end.

Definition validate_value (fuel : nat) : M reports Z :=
  match x_root x with
  | None => mret (- ENOENT)
  | Some root_node => verify_topo_value fuel [root_node]
  end.

Section validate.
Context (content_ok : string -> bool) (attr_ok : string -> string -> bool).
Context (valid_ctxt new_dtd : bool) (xmlValidateDtd : dtd -> X -> Z).

Definition validate_topo_info (fuel : nat) : M reports Z := fun r =>
  match validate_format content_ok attr_ok valid_ctxt new_dtd xmlValidateDtd x with
  | Fault f => Fault f
  | Ok ret => if negb (ret =? 0) then Ok (ret, r) else validate_value fuel r
  end.
End validate.
End verify.
