(* ===== verification/InfoOutput.v ===== *)
(** * Reading, printing and writing the document; the command

    [tools/wayca-sc-info/wayca_sc_topo.c]: [xml_find_node], [xml_delete_special_node],
    [xml_import_topo_info], [get_topo_info], the printing functions,
    [xml_export_topo_info] and [put_topo_info]; [wayca_sc_info.c]: the options and
    [main]. Files and the rest of libxml2 are the class [InfoEnv]. *)

From Stdlib Require Import Ascii String.
From stdpp Require Import strings.
From S2P Require Import Prelude Cstring Dynset TopoState InfoXml InfoValid.

(** [xmlReadFile], [xmlDocDumpFormatMemoryEnc], [realpath]; [open] with [O_EXCL] (0 or
    an [errno]) and [write] (the count and [errno]). *)
Class InfoEnv (X : Type) := {
  e_read_file : cstring -> option X;
  e_dump : X -> option cstring;
  e_realpath : cstring -> Z + cstring;
  e_open : cstring -> Z;
  e_write : cstring -> cstring -> Z * Z;
}.

(** What the tool puts out. *)
Record io := mk_io {
  io_stdout : cstring;
  io_warnings : list string;
  io_files : list (cstring * cstring);
}.

Definition printf (s : cstring) : M io unit :=
  modify (fun o => mk_io (io_stdout o ++ s) (io_warnings o) (io_files o)).
Definition topo_warn (s : string) : M io unit :=
  modify (fun o => mk_io (io_stdout o) (io_warnings o ++ [s]) (io_files o)).
Definition file_write (name s : cstring) : M io unit :=
  modify (fun o => mk_io (io_stdout o) (io_warnings o) (io_files o ++ [(name, s)])).

(** ** Finding and deleting nodes *)

Section documents.
Context {X : Type} `{L : LibXml X}.

(** The nodes of a list of siblings and below, in document order. What follows the
    root of a document is no element. *)
Fixpoint xml_find_node (x : X) (fuel : nat) (nodes : list xmlNodePtr) (name : string) : outcome (option xmlNodePtr) :=
  match fuel with
  | O => Fault OutOfFuel
  | S fuel =>
    (fix siblings (nodes : list xmlNodePtr) : outcome (option xmlNodePtr) :=
      match nodes with
      | [] => Ok None
      | last_node :: nodes =>
        match x_node x last_node with
        | None => Fault UseAfterFree
        | Some n =>
          if x_element n && bool_decide (x_name n = name) then Ok (Some last_node)
          else
            match x_children n with
            | [] => siblings nodes
            | children =>
              r ← xml_find_node x fuel children name;
              match r with Some c => Ok (Some c) | None => siblings nodes end
            end
        end
      end) nodes
  end.

(** The loop; [depth] is the fuel of a search. *)
Fixpoint delete_loop (fuel depth : nat) (root_node : xmlNodePtr) (name : string) : M X unit :=
  match fuel with
  | O => throw OutOfFuel
  | S fuel => fun x =>
    match xml_find_node x depth [root_node] name with
    | Fault f => Fault f
    | Ok None => Ok (tt, x)
    | Ok (Some node) => delete_loop fuel depth root_node name (xmlUnlinkFree node x)
    end
  end.

Definition xml_delete_special_node (fuel depth : nat) (del_node : string) : M X unit := fun x =>
  match x_root x with
  | None => Ok (tt, x)
  | Some root_node => delete_loop fuel depth root_node del_node x
  end.

(** ** Printing *)

Section print.
Context (x : X).

Fixpoint print_prop_list (node : xmlNodePtr) (prop_list : list string) : M io Z :=
  match prop_list with
  | [] => mret 0
  | a :: prop_list =>
    match xmlGetProp node a x with
    | None => mret (- ENOENT)
    | Some prop =>
      let name := node_name x node in
      let size := bool_decide (name = elem_name TOPO_NUMA) || bool_decide (name = elem_name TOPO_CORE) in
      (if size && negb (is_valid_memory_size prop KB) then printf (s2l "   " ++ s2l a ++ s2l " NA")
       else printf (s2l "   " ++ s2l a ++ s2l " " ++ prop));;
      print_prop_list node prop_list
    end
  end.

Definition core_prop_print (node : xmlNodePtr) : M io Z := print_prop_list node core_prop_list.
Definition numa_prop_print (node : xmlNodePtr) : M io Z := print_prop_list node numa_prop_list.
Definition irq_prop_print (node : xmlNodePtr) : M io Z :=
  print_prop_list node ["irq_number"; "type"; "chip_name"; "name"]%string.
Definition pci_prop_print (node : xmlNodePtr) : M io Z :=
  print_prop_list node ["slot"; "smmu_idx"; "class_id"; "vendor_id"; "device_id"; "irq_nr"]%string.
Definition smmu_prop_print (node : xmlNodePtr) : M io Z :=
  print_prop_list node ["name"; "smmu_idx"; "base_addr"; "modalias"]%string.

Definition prop_print (e : topo_level) : option (xmlNodePtr -> M io Z) :=
  match e with
  | TOPO_NUMA => Some numa_prop_print
  | TOPO_CORE => Some core_prop_print
  | TOPO_IRQ => Some irq_prop_print
  | TOPO_PCIDEV => Some pci_prop_print
  | TOPO_SMMUDEV => Some smmu_prop_print
  | _ => None
  end.

Definition print_index (node : xmlNodePtr) : M io Z :=
  match xmlGetProp node "p_index" x with
  | None => mret (- ENOENT)
  | Some p_index_prop =>
    let name := node_name x node in
    if bool_decide (name = elem_name TOPO_NUMA) || bool_decide (name = elem_name TOPO_CPU) then
      printf (s2l " P#" ++ p_index_prop);; mret 0
    else
      match xmlGetProp node "index" x with
      | None => mret (- ENOENT)
      | Some index_prop => printf (s2l " L#" ++ index_prop ++ s2l " P#" ++ p_index_prop);; mret 0
      end
  end.

(** The loop over the table. *)
Fixpoint print_loop (node : xmlNodePtr) (l : list topo_level) (ret : Z) : M io Z :=
  match l with
  | [] => mret ret
  | e :: l =>
    if negb (bool_decide (node_name x node = elem_name e)) then print_loop node l ret else
    ret ← (if has_idx e then print_index node else mret ret);
    if has_idx e && negb (ret =? 0) then mret ret else
    match prop_print e with
    | None => print_loop node l ret
    | Some print => ret ← print node; print_loop node l ret
    end
  end.

Definition print_prop (node : xmlNodePtr) : M io Z := print_loop node topo_elem 0.

Definition newline : cstring := [ascii_of_nat 10].

Definition MAX_ALIGN_SPACE : Z := 256.

(** [strncat(align_space, "    ", sizeof(align_space) - 1)], [level] times. *)
Fixpoint align_loop (level : nat) (align_space : cstring) : outcome cstring :=
  match level with
  | O => Ok align_space
  | S level =>
    let align_space := align_space ++ s2l "    " in
    if Z.of_nat (length align_space) + 1 <=? MAX_ALIGN_SPACE then align_loop level align_space
    else Fault OutOfBounds
  end.

Fixpoint print_topo_info (fuel level : nat) (nodes : list xmlNodePtr) : M io Z :=
  match fuel with
  | O => throw OutOfFuel
  | S fuel =>
    match align_loop level [] with
    | Fault f => throw f
    | Ok align_space =>
      (fix siblings (nodes : list xmlNodePtr) : M io Z :=
        match nodes with
        | [] => mret 0
        | cur_node :: nodes =>
          printf align_space;;
          printf (s2l (node_name x cur_node));;
          or_fail (print_prop cur_node)
            (printf newline;;
             match element_children cur_node x with
             | Fault f => throw f
             | Ok ([], _) => siblings nodes
             | Ok (children, _) => or_fail (print_topo_info fuel (S level) children) (siblings nodes)
             end)
        end) nodes
    end
  end.
End print.

(** ** The options *)

Record topo_info_args := mk_topo_info_args {
  has_input_file : bool;
  has_output_file : bool;
  output_irq : bool;
  output_dev : bool;
  input_file_name : cstring;
  output_file_name : cstring;
}.

Context `{EV : InfoEnv X} `{T : TopoInfo}.
Context (calloc : nat -> bool).

(** The fuel of the loops over an imported document: its nodes, and its depth. *)
Context (fuel depth : nat).

Definition delete_from (name : string) (x : X) : outcome X :=
  match xml_delete_special_node fuel depth name x with Ok (_, x) => Ok x | Fault f => Fault f end.

Definition xml_import_topo_info (irq dev : bool) (filename : cstring) : outcome (Z * option X) :=
  match e_read_file filename with
  | None => Ok (- ENOENT, None)
  | Some x =>
    x ← (if negb irq then delete_from "IRQ" x else Ok x);
    x ← (if negb dev then x ← delete_from "SMMUDEV" x; delete_from "PCIDEV" x else Ok x);
    Ok (0, Some x)
  end.

Definition get_topo_info (args : topo_info_args) : outcome (Z * option X) :=
  if has_input_file args then xml_import_topo_info (output_irq args) (output_dev args) (input_file_name args)
  else build_topo_info (output_irq args) (output_dev args) calloc.

Definition xml_export_topo_info (filename : cstring) (x : X) : M io Z :=
  if negb (e_open filename =? 0) then mret (- e_open filename) else
  match e_dump x with
  | None => mret (- ENOMEM)
  | Some xml_buf =>
    let '(cnt, errno) := e_write filename xml_buf in
    file_write filename (take (Z.to_nat cnt) xml_buf);;
    mret (if cnt =? Z.of_nat (length xml_buf) then 0 else if errno =? 0 then - EIO else - errno)
  end.

(** A warning when an element is missing. *)
Definition warn_missing (x : X) (root_node : xmlNodePtr) (name : string) : M io unit := fun o =>
  match xml_find_node x depth [root_node] name with
  | Fault f => Fault f
  | Ok None => topo_warn name o
  | Ok (Some _) => Ok (tt, o)
  end.

Definition put_topo_info (args : topo_info_args) (x : X) : M io Z :=
  match x_root x with
  | None => mret (- EINVAL)
  | Some root_node =>
    when (output_dev args) (warn_missing x root_node "PCIDEV";; warn_missing x root_node "SMMUDEV");;
    when (output_irq args) (warn_missing x root_node "IRQ");;
    if has_output_file args then xml_export_topo_info (output_file_name args) x
    else print_topo_info x depth 0 [root_node]
  end.

(** ** The command *)

Definition ENAMETOOLONG : Z := 36.
Definition PATH_MAX : Z := 4096.
Definition WAYCA_INFO_MAX_FILE_NAME : Z := PATH_MAX + 1.

Definition slash : ascii := ascii_of_nat 47.

(** The string without the slashes at its end. *)
Fixpoint strip_slashes (r : cstring) : cstring :=
  match r with
  | c :: r' => if decide (c = slash) then strip_slashes r' else r
  | [] => []
  end.
Definition strip_end (s : cstring) : cstring := rev (strip_slashes (rev s)).

(** The characters up to the first slash, and the rest from it on. *)
Fixpoint cut_slash (r : cstring) : cstring * cstring :=
  match r with
  | [] => ([], [])
  | c :: r' => if decide (c = slash) then ([], r) else let '(a, b) := cut_slash r' in (c :: a, b)
  end.

(** [basename] and [dirname] of [libgen.h]; a path that starts with exactly two slashes
    keeps them. *)
Definition basename (s : cstring) : cstring :=
  if decide (s = []) then dot
  else
    let t := strip_end s in
    if decide (t = []) then [slash] else rev (cut_slash (rev t)).1.

Definition dirname (s : cstring) : cstring :=
  let t := strip_end s in
  if decide (t = []) then (if decide (s = []) then dot else if decide (s = [slash; slash]) then s else [slash])
  else
    match (cut_slash (rev t)).2 with
    | [] => dot
    | r =>
      match strip_slashes r with
      | [] => if decide (r = [slash; slash]) then r else [slash]
      | r => rev r
      end
    end.

(** [strncat(dst, src, n)] into an array of [size] characters. *)
Definition strncat (size : Z) (dst src : cstring) (n : Z) : outcome cstring :=
  let res := dst ++ take (Z.to_nat n) src in
  if Z.of_nat (length res) + 1 <=? size then Ok res else Fault OutOfBounds.

Definition canonicalize_export_filename (filename : cstring) : outcome (Z * cstring) :=
  let size := WAYCA_INFO_MAX_FILE_NAME in
  match e_realpath (dirname (take (Z.to_nat (size - 1)) filename)) with
  | inl errno => Ok (- errno, [])
  | inr final_filename =>
    final_filename ←
      match last final_filename with
      | Some c => if decide (c = slash) then Ok final_filename
                  else strncat size final_filename [slash] (size - Z.of_nat (length final_filename))
      | None => Fault OutOfBounds
      end;
    final_filename ←
      strncat size final_filename (basename (take (Z.to_nat (size - 1)) filename))
        (size - Z.of_nat (length final_filename));
    Ok (0, final_filename)
  end.

Definition parse_file_name (filename : cstring) (is_input : bool) : M topo_info_args Z := fun a =>
  if is_input then
    if has_input_file a then Ok (- EINVAL, a) else
    let a := mk_topo_info_args true (has_output_file a) (output_irq a) (output_dev a) (input_file_name a) (output_file_name a) in
    match e_realpath filename with
    | inl errno => Ok (- errno, a)
    | inr name => Ok (0, mk_topo_info_args true (has_output_file a) (output_irq a) (output_dev a) name (output_file_name a))
    end
  else
    if has_output_file a then Ok (- EINVAL, a) else
    let a := mk_topo_info_args (has_input_file a) true (output_irq a) (output_dev a) (input_file_name a) (output_file_name a) in
    if WAYCA_INFO_MAX_FILE_NAME <=? Z.of_nat (length filename) then Ok (- ENAMETOOLONG, a) else
    match canonicalize_export_filename filename with
    | Fault f => Fault f
    | Ok (ret, name) =>
      Ok (ret, mk_topo_info_args (has_input_file a) true (output_irq a) (output_dev a) (input_file_name a) name)
    end.

(** An option that [getopt_long] returns. *)
Inductive info_opt :=
  | Opt_i (optarg : cstring)
  | Opt_o (optarg : cstring)
  | Opt_I
  | Opt_D
  | Opt_v
  | Opt_h
  | Opt_other.

(** [None]: the process has exited with 0. *)
Fixpoint parse_opts (opts : list info_opt) (operands : bool) : M topo_info_args (option Z) :=
  let flags irq dev := modify (fun a =>
    mk_topo_info_args (has_input_file a) (has_output_file a) irq dev (input_file_name a) (output_file_name a)) in
  match opts with
  | [] => mret (Some (if operands then - EINVAL else 0))
  | Opt_i f :: opts => ret ← parse_file_name f true; if ret =? 0 then parse_opts opts operands else mret (Some ret)
  | Opt_o f :: opts => ret ← parse_file_name f false; if ret =? 0 then parse_opts opts operands else mret (Some ret)
  | Opt_I :: opts => flags true false;; parse_opts opts operands
  | Opt_D :: opts => flags false true;; parse_opts opts operands
  | Opt_v :: opts => flags true true;; parse_opts opts operands
  | Opt_h :: _ => mret None
  | Opt_other :: _ => mret (Some (- EINVAL))
  end.

Definition info_args : topo_info_args := mk_topo_info_args false false false false [] [].

(** [operands]: whether arguments are left. *)
Definition parse_args (opts : list info_opt) (operands : bool) : outcome (option Z * topo_info_args) :=
  parse_opts opts operands info_args.

Section main.
Context (content_ok : string -> bool) (attr_ok : string -> string -> bool).
Context (valid_ctxt new_dtd : bool) (xmlValidateDtd : dtd -> X -> Z).

Definition main (opts : list info_opt) (operands : bool) : M io Z := fun o =>
  '(p, args) ← parse_args opts operands;
  match p with
  | None => Ok (0, o)
  | Some ret =>
    if negb (ret =? 0) then Ok (ret, o) else
    '(ret, doc) ← get_topo_info args;
    if negb (ret =? 0) then Ok (ret, o) else
    match doc with
    | None => Fault NullDeref
    | Some x =>
      '(ret, _) ← validate_topo_info x content_ok attr_ok valid_ctxt new_dtd xmlValidateDtd depth
          (mk_reports false false []);
      if negb (ret =? 0) then Ok (ret, o) else put_topo_info args x o
    end
  end.
End main.
End documents.
