(* ===== verification/InfoCheck.v ===== *)
(** * What the checks of a document say

    A document as a value, with its pointers and the nodes that are no elements
    ([rtree]), and the tree of its elements. [verify_topo_value] accepts exactly the
    documents whose elements have good values; the declarations of the document type
    bound the depth of a document and make every property that is printed present. *)

From Stdlib Require Import Ascii String.
From stdpp Require Import strings.
From S2P Require Import Prelude Cstring Dynset TopoState InfoXml InfoTree InfoValid.

(** ** Documents as values *)

Inductive rtree := RNode (p : xmlNodePtr) (element : bool) (name : string) (props : list (string * cstring)) (children : list rtree).

Definition r_ptr (r : rtree) : xmlNodePtr := let '(RNode p _ _ _ _) := r in p.
Definition r_element (r : rtree) : bool := let '(RNode _ e _ _ _) := r in e.
Definition r_name (r : rtree) : string := let '(RNode _ _ name _ _) := r in name.

Lemma rtree_ind' (P : rtree -> Prop) :
  (forall p e name props cs, Forall P cs -> P (RNode p e name props cs)) -> forall r, P r.
Proof.
  intros H. fix IH 1. intros [p e name props cs]. apply H. induction cs; constructor; auto.
Qed.

Lemma tree_ind' (P : tree -> Prop) :
  (forall name props ts, Forall P ts -> P (Node name props ts)) -> forall t, P t.
Proof.
  intros H. fix IH 1. intros [name props ts]. apply H. induction ts; constructor; auto.
Qed.

(** The tree of the elements. *)
Fixpoint elems (r : rtree) : tree :=
  let '(RNode _ _ name props cs) := r in
  Node name props
    ((fix go cs := match cs with
                   | [] => []
                   | c :: cs => if r_element c then elems c :: go cs else go cs
                   end) cs).

Lemma elems_eq p e name props cs :
  elems (RNode p e name props cs) = Node name props (elems <$> List.filter r_element cs).
Proof.
  simpl. f_equal. induction cs as [|c cs IH]; [done|]. simpl. destruct (r_element c); simpl; by rewrite IH.
Qed.

(** A document without text, comments and the like. *)
Fixpoint elements_only (r : rtree) : bool := let '(RNode _ e _ _ cs) := r in e && forallb elements_only cs.

Definition t_name (t : tree) : string := let '(Node name _ _) := t in name.

Fixpoint height (t : tree) : nat := let '(Node _ _ ts) := t in S (list_max (map height ts)).

Definition all_nodes (f : string -> list (string * cstring) -> bool) : tree -> bool :=
  fix go t := let '(Node name props ts) := t in f name props && forallb go ts.

Lemma height_child name props ts t : t ∈ ts -> (height t < height (Node name props ts))%nat.
Proof.
  intros H. simpl. pose proof (list_max_le (map height ts) (list_max (map height ts))) as [H1 _].
  specialize (H1 (le_n _)). rewrite List.Forall_forall in H1. specialize (H1 (height t)).
  apply le_n_S, H1, in_map, list_elem_of_In, H.
Qed.

Section reads.
Context {X : Type} `{L : LibXml X}.

(** The document has the value below a pointer. *)
Fixpoint reads (x : X) (r : rtree) : Prop :=
  let '(RNode p e name props cs) := r in
  x_node x p = Some (mk_xml_node e name props (map r_ptr cs)) /\
  (fix go cs := match cs with [] => True | c :: cs => reads x c /\ go cs end) cs.

Lemma reads_node x p e name props cs :
  reads x (RNode p e name props cs) <->
  x_node x p = Some (mk_xml_node e name props (map r_ptr cs)) /\ Forall (reads x) cs.
Proof.
  simpl. split; intros [H1 H2]; (split; [done|]); clear H1.
  - induction cs as [|c cs IH]; constructor; [apply H2|apply IH, H2].
  - induction H2 as [|c cs H _ IH]; [done|]. split; [done|]. apply IH.
Qed.

Lemma reads_ptr x r : reads x r -> exists n, x_node x (r_ptr r) = Some n /\ x_element n = r_element r /\ x_name n = r_name r.
Proof. destruct r as [p e name props cs]. intros [H _]%reads_node. simpl. eauto. Qed.

Lemma element_children_reads x p e name props cs :
  reads x (RNode p e name props cs) ->
  element_children p x = Ok (map r_ptr (List.filter r_element cs), x).
Proof.
  intros [Hp Hc]%reads_node. unfold element_children. rewrite Hp. simpl. do 2 f_equal.
  clear Hp. induction Hc as [|c cs H _ IH]; [done|]. simpl.
  destruct (reads_ptr _ _ H) as (n & Hn & He & _).
  assert (is_element x (r_ptr c) = r_element c) as -> by (unfold is_element; by rewrite Hn).
  destruct (r_element c); simpl; by rewrite IH.
Qed.

(** The document of a tree. *)
Lemma tree_in_reads x :
  (forall p t, tree_in (fun _ => True) x p t ->
    exists r, reads x r /\ r_ptr r = p /\ elems r = t /\ elements_only r = true) /\
  (forall cs ts, trees_in (fun _ => True) x cs ts ->
    exists rs, Forall (reads x) rs /\ map r_ptr rs = cs /\ map elems rs = ts /\ forallb elements_only rs = true).
Proof.
  apply tree_in_mutind.
  - intros p name props cs ts _ Hp _ (rs & Hr & <- & <- & He). exists (RNode p true name props rs).
    split; [by apply reads_node|]. split; [done|]. split; [|done]. rewrite elems_eq. f_equal.
    clear Hp Hr. induction rs as [|r rs IH]; [done|]. simpl in *. apply andb_true_iff in He as [H1 H2].
    assert (r_element r = true) as -> by (destruct r; by apply andb_true_iff in H1 as [? _]).
    simpl. f_equal. by apply IH.
  - exists []. by repeat constructor.
  - intros c cs t ts _ (r & Hr & <- & <- & He) _ (rs & Hrs & <- & <- & Hes). exists (r :: rs).
    simpl. rewrite He, Hes. by repeat constructor.
Qed.

Lemma Forall_filter_elems (P : rtree -> Prop) cs : Forall P cs -> Forall P (List.filter r_element cs).
Proof. induction 1 as [|c cs H _ IH]; simpl; [done|]. destruct (r_element c); auto. Qed.
End reads.

Lemma kids_height p e name props cs n :
  (height (elems (RNode p e name props cs)) <= S n)%nat ->
  Forall (fun r => height (elems r) <= n)%nat (List.filter r_element cs).
Proof.
  rewrite elems_eq. intros H. apply Forall_forall. intros r Hr.
  pose proof (height_child name props (elems <$> List.filter r_element cs) (elems r)) as H'.
  specialize (H' ltac:(by apply list_elem_of_fmap_2)). lia.
Qed.

(** ** The values *)

Fixpoint sizes_ok (props : list (string * cstring)) (l : list string) : bool :=
  match l with
  | [] => true
  | a :: l =>
    match prop_of a props with
    | None => false
    | Some v => if is_valid_memory_size v KB then sizes_ok props l else true
    end
  end.

Definition num_ok (props : list (string * cstring)) (a : string) (min max : Z) : bool :=
  match prop_of a props with None => false | Some v => is_valid_num v WAYCA_SC_INFO_DEC_BASE min max end.

(** An element whose values are accepted: the index of a CPU that Linux supports, the
    numbers in their ranges, and no size missing before the first that is wrong. *)
Definition value_ok (name : string) (props : list (string * cstring)) : bool :=
  match prop_of "index" props with Some s => is_valid_idx s | None => true end &&
  match find_elem name with
  | Some TOPO_NUMA => sizes_ok props numa_prop_list
  | Some TOPO_CORE => sizes_ok props core_prop_list
  | Some TOPO_IRQ => num_ok props "irq_number" 0 UINT32_MAX
  | Some TOPO_PCIDEV | Some TOPO_SMMUDEV => num_ok props "smmu_idx" (-1) UINT8_MAX
  | _ => true
  end.

(** A message is there exactly when its flag is set. *)
Definition reports_ok (r : reports) : Prop :=
  length (r_messages r) = (Nat.b2n (numa_mem_error r) + Nat.b2n (core_mem_error r))%nat.

Section verify.
Context {X : Type} `{LO : LibXmlOk X} (x : X).

(** The check answers [b]: 0 exactly when [b], and the reports stay consistent. *)
Definition checks (m : M reports Z) (b : bool) : Prop :=
  forall r, reports_ok r -> exists ret r', m r = Ok (ret, r') /\ reports_ok r' /\ (ret =? 0) = b.

Lemma checks_ret z : checks (mret z) (z =? 0).
Proof. intros r H. by exists z, r. Qed.

Lemma checks_or_fail m k b c : checks m b -> (b = true -> checks k c) -> checks (or_fail m k) (b && c).
Proof.
  intros Hm Hk r Hr. destruct (Hm r Hr) as (ret & r' & E & Hr' & Hb). unfold or_fail, mbind, M_bind. rewrite E, Hb.
  destruct b; [by apply Hk|]. by exists ret, r'.
Qed.

Lemma numa_report_ok m r : reports_ok r -> reports_ok (numa_report m r).
Proof. destruct r as [[] [] l]; unfold reports_ok, numa_report; simpl; rewrite ?length_app; simpl; lia. Qed.
Lemma core_report_ok m r : reports_ok r -> reports_ok (core_report m r).
Proof. destruct r as [[] [] l]; unfold reports_ok, core_report; simpl; rewrite ?length_app; simpl; lia. Qed.

Lemma sizes_verify_checks report p n l :
  x_node x p = Some n -> (forall m r, reports_ok r -> reports_ok (report m r)) ->
  checks (sizes_verify x report p l) (sizes_ok (x_props n) l).
Proof.
  intros Hp Hrep. induction l as [|a l IH]; simpl; [apply checks_ret|]. rewrite (xo_get_prop _ _ _ _ Hp).
  destruct (prop_of a (x_props n)) as [v|]; [|apply checks_ret].
  destruct (is_valid_memory_size v KB); simpl; [done|].
  intros r Hr. eexists 0, _. split; [done|]. split; [by apply Hrep|done].
Qed.

Lemma num_verify_checks p n a min max :
  x_node x p = Some n -> checks (num_verify x p a min max) (num_ok (x_props n) a min max).
Proof.
  intros Hp. unfold num_verify, num_ok. rewrite (xo_get_prop _ _ _ _ Hp).
  destruct (prop_of a (x_props n)) as [v|]; [|apply checks_ret].
  destruct (is_valid_num v _ min max); apply checks_ret.
Qed.

Lemma node_name_eq p n : x_node x p = Some n -> node_name x p = x_name n.
Proof. intros H. unfold node_name. by rewrite H. Qed.

(** An element that is not in a part of the table. *)
Lemma verify_loop_absent p l : Forall (fun e => node_name x p <> elem_name e) l -> verify_loop x p l = mret 0.
Proof. induction 1 as [|e l He _ IH]; [done|]. simpl. by rewrite bool_decide_eq_false_2. Qed.

Lemma find_elem_spec name e : find_elem name = Some e <-> name = elem_name e.
Proof.
  split; [|intros ->; by destruct e]. unfold find_elem. simpl. repeat case_decide; intros; by simplify_eq.
Qed.

Lemma verify_loop_elem p :
  verify_loop x p topo_elem =
  match find_elem (node_name x p) with
  | Some e => match prop_verify x e with Some verify => verify p | None => mret 0 end
  | None => mret 0
  end.
Proof.
  destruct (find_elem (node_name x p)) as [e|] eqn:E.
  - apply find_elem_spec in E. unfold topo_elem. cbn [verify_loop]. rewrite E. by destruct e.
  - apply verify_loop_absent, Forall_forall. intros e _ H. apply find_elem_spec in H. congruence.
Qed.

Lemma verify_prop_checks p n :
  x_node x p = Some n -> checks (verify_prop x p) (value_ok (x_name n) (x_props n)).
Proof.
  intros Hp. unfold verify_prop, value_ok. rewrite (xo_get_prop _ _ _ _ Hp).
  assert (HL : checks (verify_loop x p topo_elem)
    match find_elem (x_name n) with
    | Some TOPO_NUMA => sizes_ok (x_props n) numa_prop_list
    | Some TOPO_CORE => sizes_ok (x_props n) core_prop_list
    | Some TOPO_IRQ => num_ok (x_props n) "irq_number" 0 UINT32_MAX
    | Some TOPO_PCIDEV | Some TOPO_SMMUDEV => num_ok (x_props n) "smmu_idx" (-1) UINT8_MAX
    | _ => true
    end).
  { rewrite verify_loop_elem, (node_name_eq _ _ Hp).
    destruct (find_elem (x_name n)) as [[]|]; cbn [prop_verify];
      first [apply (checks_ret 0) | by apply num_verify_checks
            | apply sizes_verify_checks; auto using numa_report_ok, core_report_ok]. }
  destruct (prop_of "index" (x_props n)) as [v|]; [|done]. destruct (is_valid_idx v); [done|].
  apply (checks_ret (- EINVAL)).
Qed.

Lemma verify_topo_value_cons fuel p nodes :
  verify_topo_value x (S fuel) (p :: nodes) =
  or_fail (verify_prop x p)
    match element_children p x with
    | Fault f => throw f
    | Ok ([], _) => verify_topo_value x (S fuel) nodes
    | Ok (children, _) => or_fail (verify_topo_value x fuel children) (verify_topo_value x (S fuel) nodes)
    end.
Proof. done. Qed.

(** The walk over the elements. *)
Lemma verify_reads fuel rs :
  Forall (reads x) rs -> Forall (fun r => height (elems r) <= fuel)%nat rs -> rs <> [] \/ fuel <> O ->
  checks (verify_topo_value x fuel (map r_ptr rs)) (forallb (all_nodes value_ok) (map elems rs)).
Proof.
  revert rs. induction fuel as [|fuel IH]; intros rs Hr Hh Hne.
  { destruct Hh as [|[] rs Hh _]; [naive_solver|]. simpl in Hh. lia. }
  clear Hne. induction rs as [|[p e name props cs] rs IHrs]; [apply checks_ret|].
  apply Forall_cons in Hr as [Hr Hrs], Hh as [Hh Hhs]. cbn [map]. rewrite elems_eq.
  cbn [forallb all_nodes]. rewrite <-!andb_assoc.
  pose proof (kids_height _ _ _ _ _ _ Hh) as Hk. rewrite verify_topo_value_cons. pose proof Hr as [Hp Hc]%reads_node.
  apply checks_or_fail; [apply (verify_prop_checks p _ Hp)|]. intros _. simpl r_ptr.
  rewrite (element_children_reads _ _ _ _ _ _ Hr). apply Forall_filter_elems in Hc.
  destruct (List.filter r_element cs) as [|c ds]; [by apply IHrs|]. cbn [map].
  apply checks_or_fail; [|intros _; by apply IHrs]. apply (IH (c :: ds)); [done..|by left].
Qed.

(** [validate_value] accepts exactly the documents whose elements all have good values,
    and reports each kind of wrong size once. *)
Lemma validate_value_iff fuel rt r :
  x_root x = Some (r_ptr rt) -> reads x rt -> (height (elems rt) <= fuel)%nat -> reports_ok r ->
  exists ret r', validate_value x fuel r = Ok (ret, r') /\ reports_ok r' /\ (ret =? 0) = all_nodes value_ok (elems rt).
Proof.
  intros Hroot Hr Hh Hok. unfold validate_value. rewrite Hroot.
  destruct (verify_reads fuel [rt]) with (r := r) as (ret & r' & H1 & H2 & H3); [by repeat constructor..|by left|done|].
  exists ret, r'. split; [done|]. split; [done|]. rewrite H3. simpl. by rewrite andb_true_r.
Qed.
End verify.

(** ** The document type *)

Fixpoint content_of (d : dtd) (name : string) : option elem_content :=
  match d with
  | [] => None
  | ElementDecl n c :: d => if decide (n = name) then Some c else content_of d name
  | AttributeDecl _ _ :: d => content_of d name
  end.

Fixpoint declared (d : dtd) (name : string) : list string :=
  match d with
  | [] => []
  | AttributeDecl n a :: d => if decide (n = name) then a :: declared d name else declared d name
  | ElementDecl _ _ :: d => declared d name
  end.

(** An element follows the declarations: its children are allowed, it has the required
    attributes and no other. *)
Definition conforms_here (d : dtd) (name : string) (attrs kids : list string) : bool :=
  match content_of d name with
  | None => false
  | Some XML_ELEMENT_TYPE_EMPTY => bool_decide (kids = [])
  | Some (XML_ELEMENT_TYPE_MIXED names) => forallb (fun k => bool_decide (k ∈ names)) kids
  end &&
  forallb (fun a => bool_decide (a ∈ attrs)) (declared d name) &&
  forallb (fun a => bool_decide (a ∈ declared d name)) attrs.

Definition conforms (d : dtd) : tree -> bool :=
  fix go t :=
    let '(Node name props ts) := t in
    conforms_here d name (map fst props) (map t_name ts) && forallb go ts.

(** The declarations that the tool makes. *)
Definition topo_dtd : dtd := Eval vm_compute in
  match formats (fun _ => true) (fun _ _ => true) topo_elem [] with Ok (_, d) => d | Fault _ => [] end.

(** What the documentation of [xmlValidateDtd] says: 1 only for documents that follow
    the declarations, and for all of them that hold elements only. *)
Class ValidateOk {X : Type} `{L : LibXml X} (xmlValidateDtd : dtd -> X -> Z) := {
  vo_sound : forall d x r, x_root x = Some (r_ptr r) -> reads x r -> xmlValidateDtd d x = 1 ->
    conforms d (elems r) = true;
  vo_complete : forall d x r, x_root x = Some (r_ptr r) -> reads x r -> elements_only r = true ->
    conforms d (elems r) = true -> xmlValidateDtd d x = 1;
}.

Lemma formats_ok content_ok attr_ok : (forall n, content_ok n = true) -> (forall n a, attr_ok n a = true) ->
  formats content_ok attr_ok topo_elem [] = Ok (0, topo_dtd).
Proof.
  intros Hc Ha. unfold topo_elem. cbn [formats format has_idx negb].
  unfold sys_format, pkg_format, numa_format, ccl_format, core_format, cpu_format, intr_format, irq_format,
    pci_dev_format, smmu_dev_format, add_elem_formater, add_attr_formater. cbn [link_content add_attrs].
  unfold xmlAddAttributeDecl. rewrite !Hc, !Ha. done.
Qed.

(** The elements that an element may hold. *)
Definition below (e : topo_level) : list topo_level :=
  match e with
  | TOPO_SYS => [TOPO_PKG; TOPO_INTR]
  | TOPO_PKG => [TOPO_NUMA]
  | TOPO_NUMA => [TOPO_CCL; TOPO_CORE; TOPO_PCIDEV; TOPO_SMMUDEV]
  | TOPO_CCL => [TOPO_CORE]
  | TOPO_CORE => [TOPO_CPU]
  | TOPO_INTR => [TOPO_IRQ]
  | _ => []
  end.

(** The levels at and below an element. *)
Definition rank (e : topo_level) : nat :=
  match e with
  | TOPO_SYS => 6
  | TOPO_PKG => 5
  | TOPO_NUMA => 4
  | TOPO_CCL => 3
  | TOPO_CORE | TOPO_INTR => 2
  | TOPO_CPU | TOPO_IRQ | TOPO_PCIDEV | TOPO_SMMUDEV => 1
  end.

Lemma below_rank e e' : e' ∈ below e -> (rank e' < rank e)%nat.
Proof. destruct e; simpl; intros H; repeat (apply elem_of_cons in H as [->|H]; [simpl; lia|]); inversion H. Qed.

Lemma content_topo name c : content_of topo_dtd name = Some c ->
  exists e, name = elem_name e /\
    c = match below e with
        | [] => XML_ELEMENT_TYPE_EMPTY
        | l => XML_ELEMENT_TYPE_MIXED (map elem_name l)
        end.
Proof.
  simpl. repeat case_decide; intros; simplify_eq.
  all: match goal with |- exists e, ?n = _ /\ _ =>
    match eval vm_compute in (find_elem n) with Some ?e => by exists e end end.
Qed.

Lemma forallb_in (l k : list string) : forallb (fun a => bool_decide (a ∈ l)) k = true <-> forall a, a ∈ k -> a ∈ l.
Proof.
  rewrite forallb_forall. split; intros H a Ha.
  - apply (bool_decide_eq_true (a ∈ l)), H. by apply list_elem_of_In.
  - apply bool_decide_eq_true, H. by apply list_elem_of_In.
Qed.

Lemma elem_names_in k l : k ∈ map elem_name l <-> exists e, e ∈ l /\ k = elem_name e.
Proof. rewrite list_elem_of_In, in_map_iff. split; intros (e & H1 & H2); exists e; rewrite list_elem_of_In in *; done. Qed.

Lemma content_elem e : content_of topo_dtd (elem_name e) =
  Some match below e with
       | [] => XML_ELEMENT_TYPE_EMPTY
       | l => XML_ELEMENT_TYPE_MIXED (map elem_name l)
       end.
Proof. by destruct e. Qed.

(** An element that follows the declarations is one of the table, with the children
    and the attributes of its kind. *)
Lemma conforms_here_topo name attrs kids :
  conforms_here topo_dtd name attrs kids = true <->
  exists e, name = elem_name e /\ Forall (fun k => exists e', e' ∈ below e /\ k = elem_name e') kids /\
    forall a, a ∈ attrs <-> a ∈ declared topo_dtd name.
Proof.
  unfold conforms_here. rewrite !andb_true_iff, !forallb_in. split.
  - intros ((Hc & Ha) & Hb). destruct (content_of topo_dtd name) as [c|] eqn:E; [|done].
    apply content_topo in E as (e & -> & ->). exists e. split; [done|]. split; [|intros a; split; auto].
    destruct (below e) as [|e1 l]; [apply bool_decide_eq_true in Hc as ->; constructor|].
    rewrite forallb_in in Hc. apply Forall_forall. intros k Hk. by apply elem_names_in, Hc.
  - intros (e & -> & Hk & Ha). rewrite content_elem. split; [split|]; [|intros a H; by apply Ha..].
    rewrite Forall_forall in Hk. destruct (below e) as [|e1 l].
    + apply bool_decide_eq_true. destruct kids as [|k kids]; [done|].
      destruct (Hk k) as (e' & H & _); [left|inversion H].
    + apply forallb_in. intros k H. apply elem_names_in. by apply Hk.
Qed.

(** The depth of a document that follows the declarations. *)
Lemma conforms_height t : conforms topo_dtd t = true ->
  exists e, t_name t = elem_name e /\ (height t <= rank e)%nat.
Proof.
  induction t as [name props ts IH] using tree_ind'. simpl. intros [H Hts]%andb_true_iff.
  apply conforms_here_topo in H as (e & -> & Hk & _). exists e. split; [done|].
  assert (H : Forall (fun t => height t < rank e)%nat ts).
  { rewrite forallb_forall in Hts. rewrite Forall_forall in IH. rewrite Forall_forall in Hk.
    apply Forall_forall. intros t Ht.
    destruct (IH t Ht) as (e' & Hn & Hh); [by apply Hts, list_elem_of_In|].
    destruct (Hk (t_name t)) as (e2 & H2 & E2); [by apply list_elem_of_In, in_map, list_elem_of_In|].
    assert (e2 = e') as -> by (rewrite Hn in E2; by destruct e2, e'). apply below_rank in H2. lia. }
  destruct (rank e) as [|n] eqn:E; [by destruct e|]. apply le_n_S, list_max_le.
  rewrite List.Forall_map. apply (Forall_impl _ _ _ H). intros; simpl; lia.
Qed.

(** Two values that are accepted although they hold no number. *)
Theorem empty_index_accepted : is_valid_idx [] = true.
Proof. reflexivity. Qed.

Theorem bare_unit_accepted : is_valid_memory_size KB KB = true.
Proof. reflexivity. Qed.
