(* ===== verification/InfoPrint.v ===== *)
(** * What is printed

    [render] is the text of a tree. A document that was accepted is printed as the text
    of its tree: no property is missing, and the buffer for the indentation, which
    [print_topo_info] fills without regard to its size, is large enough. *)

From Stdlib Require Import Ascii String.
From stdpp Require Import strings.
From S2P Require Import Prelude Cstring Dynset TopoState InfoXml InfoTree InfoValid InfoOutput InfoCheck.

(** ** The text of a tree *)

Definition attr (a : string) (props : list (string * cstring)) : cstring := default [] (prop_of a props).

Definition show_prop (size : bool) (props : list (string * cstring)) (a : string) : cstring :=
  s2l "   " ++ s2l a ++
  (if size && negb (is_valid_memory_size (attr a props) KB) then s2l " NA" else s2l " " ++ attr a props).

Definition show_index (e : topo_level) (props : list (string * cstring)) : cstring :=
  match e with
  | TOPO_NUMA | TOPO_CPU => s2l " P#" ++ attr "p_index" props
  | TOPO_PKG | TOPO_CCL | TOPO_CORE => s2l " L#" ++ attr "index" props ++ s2l " P#" ++ attr "p_index" props
  | _ => []
  end.

(** The properties that are printed after the indices, in their order. *)
Definition shown (e : topo_level) : list string :=
  match e with
  | TOPO_NUMA => numa_prop_list
  | TOPO_CORE => core_prop_list
  | TOPO_IRQ => ["irq_number"; "type"; "chip_name"; "name"]%string
  | TOPO_PCIDEV => ["slot"; "smmu_idx"; "class_id"; "vendor_id"; "device_id"; "irq_nr"]%string
  | TOPO_SMMUDEV => ["name"; "smmu_idx"; "base_addr"; "modalias"]%string
  | _ => []
  end.

Definition sized (e : topo_level) : bool := match e with TOPO_NUMA | TOPO_CORE => true | _ => false end.

Definition show_props (name : string) (props : list (string * cstring)) : cstring :=
  match find_elem name with
  | None => []
  | Some e =>
    show_index e props ++
    concat (show_prop (sized e) props <$> shown e)
  end.

Fixpoint render (level : nat) (t : tree) : cstring :=
  let '(Node name props ts) := t in
  concat (replicate level (s2l "    ")) ++ s2l name ++ show_props name props ++ newline ++
  concat (map (render (S level)) ts).

(** The properties that printing an element asks for. *)
Definition needed (e : topo_level) : list string :=
  (if has_idx e then ["p_index"; "index"]%string else []) ++ shown e.

Definition printable (name : string) (props : list (string * cstring)) : bool :=
  match find_elem name with
  | None => true
  | Some e => forallb (fun a => bool_decide (a ∈ map fst props)) (needed e)
  end.

Lemma attr_present a props : a ∈ map fst props -> prop_of a props = Some (attr a props).
Proof.
  unfold attr. induction props as [|[b v] props IH]; simpl; [by intros ?%elem_of_nil|].
  intros H. case_decide; [done|]. apply IH. apply elem_of_cons in H as [?|?]; done.
Qed.

(** ** Printing is rendering *)

Definition out (o : io) (s : cstring) : io := mk_io (io_stdout o ++ s) (io_warnings o) (io_files o).

Definition prints {A} (m : M io A) (a : A) (s : cstring) : Prop := forall o, m o = Ok (a, out o s).

Lemma out_app o s1 s2 : out (out o s1) s2 = out o (s1 ++ s2).
Proof. unfold out. simpl. by rewrite <-app_assoc. Qed.

Lemma prints_ret {A} (a : A) : prints (mret a) a [].
Proof. intros [s w f]. unfold out. simpl. by rewrite app_nil_r. Qed.

Lemma prints_bind {A B} (m : M io A) (k : A -> M io B) a b s1 s2 :
  prints m a s1 -> prints (k a) b s2 -> prints (m ≫= k) b (s1 ++ s2).
Proof. intros H1 H2 o. unfold mbind, M_bind. rewrite H1, H2. by rewrite out_app. Qed.

Lemma prints_printf s : prints (printf s) tt s.
Proof. by intros o. Qed.

Lemma prints_or_fail (m k : M io Z) s1 s2 : prints m 0 s1 -> prints k 0 s2 -> prints (or_fail m k) 0 (s1 ++ s2).
Proof. intros H1 H2. unfold or_fail. by eapply prints_bind. Qed.

Lemma prints_text {A} (m : M io A) a s s' : prints m a s -> s = s' -> prints m a s'.
Proof. by intros ? <-. Qed.

Section print.
Context {X : Type} `{LO : LibXmlOk X} (x : X).

Lemma print_prop_list_prints p e props cs l :
  x_node x p = Some (mk_xml_node true (elem_name e) props cs) -> (forall a, a ∈ l -> a ∈ map fst props) ->
  prints (print_prop_list x p l) 0 (concat (show_prop (sized e) props <$> l)).
Proof.
  intros Hp. induction l as [|a l IH]; intros Ha; [apply prints_ret|]. cbn [print_prop_list fmap list_fmap concat].
  rewrite (xo_get_prop _ _ _ _ Hp). cbn [x_props]. rewrite (attr_present a) by (apply Ha; left).
  rewrite (node_name_eq _ _ _ Hp). cbn [x_name]. eapply prints_bind; [|apply IH; intros b Hb; apply Ha; by right].
  assert (bool_decide (elem_name e = elem_name TOPO_NUMA) || bool_decide (elem_name e = elem_name TOPO_CORE) = sized e)
    as -> by by destruct e.
  unfold show_prop. destruct (sized e && _); apply prints_printf.
Qed.

Lemma print_index_prints p e props cs :
  x_node x p = Some (mk_xml_node true (elem_name e) props cs) -> has_idx e = true ->
  (forall a, a ∈ ["p_index"; "index"]%string -> a ∈ map fst props) ->
  prints (print_index x p) 0 (show_index e props).
Proof.
  intros Hp He Ha. unfold print_index. rewrite !(xo_get_prop _ _ _ _ Hp), (node_name_eq _ _ _ Hp). cbn [x_props x_name].
  rewrite (attr_present "p_index") by (apply Ha; left). rewrite (attr_present "index") by (apply Ha; right; left).
  assert (H : forall s, prints (printf s;; mret 0) 0 s).
  { intros s o. unfold mbind, M_bind. by rewrite (prints_printf s o). }
  destruct e; try done; apply H.
Qed.

Lemma print_loop_absent p l ret :
  Forall (fun e => node_name x p <> elem_name e) l -> print_loop x p l ret = mret ret.
Proof. induction 1 as [|e l He _ IH]; [done|]. simpl. by rewrite bool_decide_eq_false_2. Qed.

Lemma print_loop_app p pre l ret :
  Forall (fun e => node_name x p <> elem_name e) pre -> print_loop x p (pre ++ l) ret = print_loop x p l ret.
Proof. induction 1 as [|e pre He _ IH]; [done|]. simpl. by rewrite bool_decide_eq_false_2. Qed.

(** The one element of the table that has the name. *)
Lemma table_split e : exists pre post, topo_elem = pre ++ e :: post /\
  Forall (fun e' => elem_name e <> elem_name e') pre /\ Forall (fun e' => elem_name e <> elem_name e') post.
Proof.
  assert (Hd : forall l, e ∉ l -> Forall (fun e' => elem_name e <> elem_name e') l).
  { intros l H. apply Forall_forall. intros e' He' E. assert (e = e') as <- by by destruct e, e'. done. }
  assert (He : e ∈ topo_elem) by (apply list_elem_of_In; destruct e; simpl; tauto).
  apply list_elem_of_split in He as (pre & post & E). exists pre, post. split; [done|].
  assert (HN : NoDup topo_elem) by (apply NoDup_ListNoDup; repeat constructor; simpl; intuition discriminate).
  rewrite E in HN. apply NoDup_app in HN as (_ & H1 & [H2 _]%NoDup_cons).
  split; apply Hd; [|done]. intros H. apply (H1 _ H). left.
Qed.

Lemma prop_print_prints p e props cs print :
  x_node x p = Some (mk_xml_node true (elem_name e) props cs) -> (forall a, a ∈ shown e -> a ∈ map fst props) ->
  prop_print x e = Some print -> prints (print p) 0 (concat (show_prop (sized e) props <$> shown e)).
Proof. intros Hp Ha H. destruct e; try done; injection H as <-; by eapply print_prop_list_prints. Qed.

Lemma print_prop_prints p e props cs :
  x_node x p = Some (mk_xml_node true (elem_name e) props cs) -> printable (elem_name e) props = true ->
  prints (print_prop x p) 0 (show_props (elem_name e) props).
Proof.
  intros Hp Hn. assert (HE : find_elem (elem_name e) = Some e) by by apply find_elem_spec.
  unfold printable in Hn. rewrite HE, forallb_in in Hn. unfold show_props. rewrite HE.
  pose proof (node_name_eq _ _ _ Hp) as Hname. simpl in Hname.
  destruct (table_split e) as (pre & post & Et & H1 & H2).
  unfold print_prop. rewrite Et, print_loop_app by by rewrite Hname. cbn [print_loop].
  rewrite bool_decide_eq_true_2 by done. cbn [negb].
  assert (Hi : prints (if has_idx e then print_index x p else mret 0) 0 (show_index e props)).
  { destruct (has_idx e) eqn:Hi; [|destruct e; done || apply prints_ret]. eapply print_index_prints; [done..|].
    intros a Ha. apply Hn. unfold needed. rewrite Hi. apply elem_of_app. by left. }
  eapply prints_bind; [apply Hi|]. rewrite andb_false_r.
  assert (Hs : forall a, a ∈ shown e -> a ∈ map fst props).
  { intros a Ha. apply Hn. unfold needed. apply elem_of_app. by right. }
  destruct (prop_print x e) as [print|] eqn:Hpr.
  - rewrite <-(app_nil_r (concat _)). eapply prints_bind; [by eapply prop_print_prints|].
    rewrite print_loop_absent by by rewrite Hname. apply prints_ret.
  - rewrite print_loop_absent by by rewrite Hname. destruct e; done || apply prints_ret.
Qed.

Lemma print_prop_any p name props cs :
  x_node x p = Some (mk_xml_node true name props cs) -> printable name props = true ->
  prints (print_prop x p) 0 (show_props name props).
Proof.
  intros Hp Hn. destruct (find_elem name) as [e|] eqn:E.
  - apply find_elem_spec in E as ->. by eapply print_prop_prints.
  - unfold show_props, print_prop. rewrite E, print_loop_absent; [apply prints_ret|].
    apply Forall_forall. intros e _ H. rewrite (node_name_eq _ _ _ Hp) in H. simpl in H.
    apply find_elem_spec in H. congruence.
Qed.

Lemma align_loop_ok level buf :
  Z.of_nat (length buf) + 4 * Z.of_nat level + 1 <= MAX_ALIGN_SPACE ->
  align_loop level buf = Ok (buf ++ concat (replicate level (s2l "    "))).
Proof.
  revert buf. induction level as [|level IH]; intros buf H; [by rewrite app_nil_r|].
  cbn [align_loop replicate concat]. cbv zeta.
  assert (E : length (buf ++ s2l "    ") = (length buf + 4)%nat) by by rewrite length_app.
  case_if E'; [|rewrite E in E'; lia]. rewrite IH by (rewrite E; lia). by rewrite <-app_assoc.
Qed.

Lemma print_topo_info_cons fuel level p nodes :
  print_topo_info x (S fuel) level (p :: nodes) =
  match align_loop level [] with
  | Fault f => throw f
  | Ok align_space =>
    printf align_space;;
    printf (s2l (node_name x p));;
    or_fail (print_prop x p)
      (printf newline;;
       match element_children p x with
       | Fault f => throw f
       | Ok ([], _) => print_topo_info x (S fuel) level nodes
       | Ok (children, _) => or_fail (print_topo_info x fuel (S level) children) (print_topo_info x (S fuel) level nodes)
       end)
  end.
Proof. simpl. by destruct (align_loop level []). Qed.

(** The walk over the elements. *)
Lemma print_reads fuel level rs :
  Forall (reads x) rs -> Forall (fun r => r_element r = true) rs ->
  Forall (fun r => height (elems r) <= fuel)%nat rs -> Forall (fun r => level + height (elems r) <= 64)%nat rs ->
  rs <> [] \/ fuel <> O -> (level < 64)%nat -> forallb (all_nodes printable) (map elems rs) = true ->
  prints (print_topo_info x fuel level (map r_ptr rs)) 0 (concat (map (render level) (map elems rs))).
Proof.
  revert level rs. induction fuel as [|fuel IH]; intros level rs Hr He Hh Hd Hne Hl Hp.
  { destruct Hh as [|[] rs Hh _]; [naive_solver|]. simpl in Hh. lia. }
  assert (Ha : align_loop level [] = Ok (concat (replicate level (s2l "    ")))).
  { rewrite align_loop_ok; [done|]. unfold MAX_ALIGN_SPACE. simpl. lia. }
  clear Hne. induction rs as [|[p e name props cs] rs IHrs].
  { intros o. simpl. rewrite Ha. unfold out. by destruct o; rewrite app_nil_r. }
  apply Forall_cons in Hr as [Hr Hrs], Hh as [Hh Hhs], Hd as [Hd Hds], He as [He Hes]. simpl in He. subst e.
  pose proof (kids_height _ _ _ _ _ _ Hh) as Hk. pose proof Hr as [Hx Hc]%reads_node.
  pose proof (kids_height p true name props cs (63 - level) ltac:(lia)) as Hkd.
  cbn [map forallb] in Hp. rewrite elems_eq in Hp. cbn [all_nodes] in Hp. rewrite !andb_true_iff in Hp.
  destruct Hp as ((Hp & Hkp) & Hrp). cbn [map concat]. rewrite elems_eq. cbn [render].
  rewrite print_topo_info_cons, Ha. simpl r_ptr. rewrite (node_name_eq _ _ _ Hx). cbn [x_name].
  rewrite <-!app_assoc. eapply prints_bind; [apply prints_printf|]. eapply prints_bind; [apply prints_printf|].
  eapply prints_or_fail; [by eapply print_prop_any|]. eapply prints_bind; [apply prints_printf|].
  rewrite (element_children_reads _ _ _ _ _ _ Hr).
  assert (Hck : Forall (fun r => r_element r = true) (List.filter r_element cs)).
  { apply Forall_forall. intros r Hin%list_elem_of_In. by apply filter_In in Hin as [_ ?]. }
  apply Forall_filter_elems in Hc. destruct (List.filter r_element cs) as [|c ds]; [by apply IHrs|]. cbn [map].
  eapply prints_or_fail; [|by apply IHrs]. apply (IH (S level) (c :: ds)); try done.
  - apply (Forall_impl _ _ _ Hkd). intros r H. lia.
  - by left.
  - apply Forall_cons in Hkd as [H _]. destruct (elems c). simpl in H. lia.
Qed.

(** The declarations require every property that is printed. *)
Lemma conforms_printable t : conforms topo_dtd t = true -> all_nodes printable t = true.
Proof.
  induction t as [name props ts IH] using tree_ind'. cbn [conforms all_nodes].
  intros [H Hts]%andb_true_iff. apply andb_true_iff. split.
  - apply conforms_here_topo in H as (e & -> & _ & Ha). unfold printable.
    rewrite (proj2 (find_elem_spec _ e)) by done. apply forallb_in. intros a Hn. apply Ha.
    apply list_elem_of_In in Hn. apply list_elem_of_In. destruct e; vm_compute in Hn |- *; tauto.
  - rewrite forallb_forall in *. rewrite Forall_forall in IH. intros t Ht.
    apply IH; [by apply list_elem_of_In|by apply Hts].
Qed.

(** A document that follows the declarations is printed as its text. *)
Lemma conforming_prints fuel rt :
  reads x rt -> r_element rt = true -> conforms topo_dtd (elems rt) = true -> (height (elems rt) <= fuel)%nat ->
  prints (print_topo_info x fuel 0 [r_ptr rt]) 0 (render 0 (elems rt)).
Proof.
  intros Hr He Hc Hf. destruct (conforms_height _ Hc) as (e & _ & Hh).
  assert (rank e <= 6)%nat by (destruct e; simpl; lia).
  rewrite <-(app_nil_r (render _ _)).
  apply (print_reads fuel 0 [rt]); try (apply Forall_singleton; done || lia); try lia; [by left|].
  simpl. by rewrite (conforms_printable _ Hc).
Qed.
End print.
