(* ===== verification/InfoDelete.v ===== *)
(** * Searching a document, and what import removes

    [xml_find_node] finds the first element of a name in document order, and
    [xml_delete_special_node] removes every element of a name with what is below it. *)

From Stdlib Require Import Ascii String.
From stdpp Require Import strings.
From S2P Require Import Prelude Cstring Dynset TopoState InfoXml InfoTree InfoValid InfoOutput InfoCheck.

(** ** Nodes in document order *)

Fixpoint subtrees (r : rtree) : list rtree :=
  let '(RNode _ _ _ _ cs) := r in r :: concat (map subtrees cs).

Fixpoint rheight (r : rtree) : nat := let '(RNode _ _ _ _ cs) := r in S (list_max (map rheight cs)).

Definition named (name : string) (r : rtree) : bool := r_element r && bool_decide (r_name r = name).

(** The document without the nodes that satisfy a test, and what is below them; the
    root stays. *)
Fixpoint cut (f : rtree -> bool) (r : rtree) : rtree :=
  let '(RNode p e name props cs) := r in
  RNode p e name props (flat_map (fun c => if f c then [] else [cut f c]) cs).

(** Without the node of a pointer, and without the elements of a name. *)
Definition prune (q : xmlNodePtr) : rtree -> rtree := cut (fun c => (r_ptr c =? q)%nat).
Definition drop_named (name : string) : rtree -> rtree := cut (named name).

(** What the documentation says of [xmlUnlinkNode] and [xmlFreeNode]. *)
Class LibXmlUnlink (X : Type) `{L : LibXml X} := {
  xu_unlink : forall x r q, x_root x = Some (r_ptr r) -> reads x r -> NoDup (map r_ptr (subtrees r)) ->
    q ∈ map r_ptr (subtrees r) -> q <> r_ptr r ->
    x_root (xmlUnlinkFree q x) = x_root x /\ reads (xmlUnlinkFree q x) (prune q r);
  xu_free : forall x q, x_node (xmlUnlinkFree q x) q = None;
}.

Lemma rheight_child p e name props cs c : c ∈ cs -> (rheight c < rheight (RNode p e name props cs))%nat.
Proof.
  intros H. simpl. pose proof (list_max_le (map rheight cs) (list_max (map rheight cs))) as [H1 _].
  specialize (H1 (le_n _)). rewrite List.Forall_forall in H1.
  apply le_n_S, H1, in_map, list_elem_of_In, H.
Qed.

Lemma subtrees_child s p e name props cs :
  s ∈ subtrees (RNode p e name props cs) <-> s = RNode p e name props cs \/ exists c, c ∈ cs /\ s ∈ subtrees c.
Proof.
  simpl. rewrite elem_of_cons. f_equiv. rewrite list_elem_of_In, in_concat. split.
  - intros (l & (c & <- & Hc)%in_map_iff & Hs). exists c. by rewrite !list_elem_of_In.
  - intros (c & Hc & Hs). exists (subtrees c). rewrite <-!list_elem_of_In. split; [|done].
    by apply list_elem_of_In, in_map, list_elem_of_In.
Qed.

Lemma subtrees_self r : r ∈ subtrees r.
Proof. destruct r. left. Qed.

(** ** The search *)

Section find.
Context {X : Type} `{L : LibXml X}.

Lemma xml_find_node_cons (x : X) fuel p nodes name :
  xml_find_node x (S fuel) (p :: nodes) name =
  match x_node x p with
  | None => Fault UseAfterFree
  | Some n =>
    if x_element n && bool_decide (x_name n = name) then Ok (Some p)
    else
      match x_children n with
      | [] => xml_find_node x (S fuel) nodes name
      | children =>
        r ← xml_find_node x fuel children name;
        match r with Some c => Ok (Some c) | None => xml_find_node x (S fuel) nodes name end
      end
  end.
Proof. done. Qed.

(** The first element of a name, in document order. *)
Lemma xml_find_node_first (x : X) fuel rs name :
  Forall (reads x) rs -> Forall (fun r => rheight r <= fuel)%nat rs -> rs <> [] \/ fuel <> O ->
  xml_find_node x fuel (map r_ptr rs) name = Ok (r_ptr <$> List.find (named name) (concat (map subtrees rs))).
Proof.
  revert rs. induction fuel as [|fuel IH]; intros rs Hr Hh Hne.
  { destruct Hh as [|[] rs Hh _]; [naive_solver|]. simpl in Hh. lia. }
  clear Hne. induction rs as [|[p e n props cs] rs IHrs]; [done|].
  apply Forall_cons in Hr as [Hr Hrs], Hh as [Hh Hhs]. pose proof Hr as [Hx Hc]%reads_node.
  cbn [map]. rewrite xml_find_node_cons. simpl r_ptr at 1. rewrite Hx. cbn [x_element x_name x_children].
  cbn [subtrees concat app]. cbn [List.find].
  change (named name (RNode p e n props cs)) with (e && bool_decide (n = name)).
  destruct (e && bool_decide (n = name)); [done|]. rewrite find_app.
  assert (Hk : Forall (fun c => rheight c <= fuel)%nat cs).
  { apply Forall_forall. intros c Hin. pose proof (rheight_child p e n props cs c Hin). lia. }
  destruct cs as [|c cs]; [by apply IHrs|].
  assert (E : xml_find_node x fuel (map r_ptr (c :: cs)) name =
    Ok (r_ptr <$> List.find (named name) (concat (map subtrees (c :: cs))))) by (apply IH; [done..|by left]).
  cbn [map] in E |- *. rewrite E. obind.
  destruct (List.find _ (concat (subtrees c :: _))); [done|]. by apply IHrs.
Qed.
End find.

(** ** The removal *)

Lemma cut_ptr f r : r_ptr (cut f r) = r_ptr r.
Proof. by destruct r. Qed.

Lemma cut_named f name r : named name (cut f r) = named name r.
Proof. by destruct r. Qed.

(** The order of the nodes that stay does not change. *)
Lemma cut_sublist f r : map r_ptr (subtrees (cut f r)) `sublist_of` map r_ptr (subtrees r).
Proof.
  induction r as [p e name props cs IH] using rtree_ind'. simpl. apply sublist_skip.
  induction IH as [|c cs Hc _ IHcs]; [done|]. simpl. destruct (f c); simpl; rewrite !map_app.
  - by apply sublist_inserts_l.
  - by apply sublist_app.
Qed.

Lemma cut_size f r : (length (subtrees (cut f r)) <= length (subtrees r))%nat.
Proof. pose proof (sublist_length _ _ (cut_sublist f r)) as H. by rewrite !length_map in H. Qed.

Lemma cut_height f r : (rheight (cut f r) <= rheight r)%nat.
Proof.
  induction r as [p e n props cs IH] using rtree_ind'. simpl. apply le_n_S.
  induction IH as [|c cs Hc _ IHcs]; simpl; [done|]. destruct (f c); simpl; lia.
Qed.

Lemma prune_gone q r : q <> r_ptr r -> q ∉ map r_ptr (subtrees (prune q r)).
Proof.
  induction r as [p e name props cs IH] using rtree_ind'. simpl. intros Hq [?|H]%elem_of_cons; [done|].
  clear Hq. induction IH as [|c cs Hc _ IHcs]; simpl in *; [inversion H|].
  destruct (Nat.eqb_spec (r_ptr c) q) as [E|E]; simpl in H; [by apply IHcs|].
  rewrite map_app in H. apply elem_of_app in H as [H|H]; [by apply Hc|by apply IHcs].
Qed.

Lemma sublist_full {A} (l k : list A) : l `sublist_of` k -> (length k <= length l)%nat -> l = k.
Proof.
  induction 1 as [|a l k H IH|a l k H IH]; intros Hl; simpl in Hl; [done|f_equal; apply IH; lia|].
  pose proof (sublist_length _ _ H). lia.
Qed.

Lemma prune_size_lt q r : q ∈ map r_ptr (subtrees r) -> q <> r_ptr r ->
  (length (subtrees (prune q r)) < length (subtrees r))%nat.
Proof.
  intros Hin Hq. apply Nat.nle_gt. intros Hle. apply (prune_gone q r Hq).
  unfold prune. by rewrite (sublist_full _ _ (cut_sublist _ r)) by by rewrite !length_map.
Qed.

(** Nodes that go anyway may go first. *)
Lemma cut_cut (f g : rtree -> bool) r :
  (forall s, s ∈ subtrees r -> g s = true -> f s = true) -> (forall s, f (cut g s) = f s) -> cut f (cut g r) = cut f r.
Proof.
  intros H Hg. revert H. induction r as [p e n props cs IH] using rtree_ind'. intros H. cbn [cut]. f_equal.
  assert (Hc : forall c, c ∈ cs -> forall s, s ∈ subtrees c -> g s = true -> f s = true).
  { intros c Hc s Hs. apply H, subtrees_child. eauto. }
  clear H. induction IH as [|c cs IHc _ IHcs]; [done|]. cbn [flat_map]. rewrite flat_map_app, IHcs.
  2:{ intros c' Hc'. apply Hc. by right. }
  f_equal. destruct (g c) eqn:E; cbn [flat_map].
  - by rewrite (Hc c ltac:(left) c (subtrees_self c) E).
  - rewrite Hg. destruct (f c); [done|]. by rewrite IHc by (apply Hc; left).
Qed.

Lemma drop_prune name q r :
  (forall s, s ∈ subtrees r -> r_ptr s = q -> named name s = true) -> drop_named name (prune q r) = drop_named name r.
Proof.
  intros H. apply cut_cut; [|intros s; apply cut_named]. intros s Hs E%Nat.eqb_eq. by apply H.
Qed.

Lemma cut_missing f r : (forall s, s ∈ subtrees r -> f s = false) -> cut f r = r.
Proof.
  induction r as [p e n props cs IH] using rtree_ind'. intros H. cbn [cut]. f_equal.
  assert (Hc : forall c, c ∈ cs -> forall s, s ∈ subtrees c -> f s = false).
  { intros c Hc s Hs. apply H, subtrees_child. eauto. }
  clear H. induction IH as [|c cs IHc _ IHcs]; [done|]. cbn [flat_map].
  rewrite (Hc c ltac:(left) c (subtrees_self c)), IHc by (apply Hc; left). cbn [app]. f_equal.
  apply IHcs. intros c' Hc'. apply Hc. by right.
Qed.

Lemma NoDup_map_inj {A B} (f : A -> B) l a b : NoDup (map f l) -> a ∈ l -> b ∈ l -> f a = f b -> a = b.
Proof.
  assert (Hm : forall c k, c ∈ k -> f c ∈ map f k) by (intros; by apply list_elem_of_In, in_map, list_elem_of_In).
  induction l as [|c l IH]; simpl; [by intros _ ?%elem_of_nil|]. intros [Hc Hd]%NoDup_cons Ha Hb E.
  apply elem_of_cons in Ha as [->|Ha], Hb as [->|Hb]; [done| | |by apply IH].
  - destruct Hc. rewrite E. by apply Hm.
  - destruct Hc. rewrite <-E. by apply Hm.
Qed.

(** A condition that import meets before each removal. *)
Record deletable (fuel depth : nat) (r : rtree) (names : list string) : Prop := {
  dl_nodup : NoDup (map r_ptr (subtrees r));
  dl_names : Forall (fun name => named name r = false) names;
  dl_size : (length (subtrees r) <= fuel)%nat;
  dl_height : (rheight r <= depth)%nat;
}.

Lemma deletable_cut fuel depth r names f : deletable fuel depth r names -> deletable fuel depth (cut f r) names.
Proof.
  intros [H1 H2 H3 H4]. split.
  - eapply sublist_NoDup; [|apply cut_sublist]. done.
  - apply (Forall_impl _ _ _ H2). intros name. by rewrite cut_named.
  - pose proof (cut_size f r). lia.
  - pose proof (cut_height f r). lia.
Qed.

Section delete.
Context {X : Type} `{L : LibXml X} `{LU : !LibXmlUnlink X}.

(** Whatever the document holds, the search and the removal end, and what is left is the
    document without the elements of the name. *)
Lemma delete_loop_drops fuel depth (x : X) r name :
  x_root x = Some (r_ptr r) -> reads x r -> NoDup (map r_ptr (subtrees r)) -> named name r = false ->
  (length (subtrees r) <= fuel)%nat -> (rheight r <= depth)%nat ->
  exists x', delete_loop fuel depth (r_ptr r) name x = Ok (tt, x') /\ x_root x' = x_root x /\
    reads x' (drop_named name r).
Proof.
  revert x r. induction fuel as [|fuel IH]; intros x r Hroot Hr Hd Hn Hf Hh; [destruct r; simpl in Hf; lia|].
  cbn [delete_loop]. rewrite (xml_find_node_first x depth [r] name); [|by repeat constructor..|by left].
  cbn [map concat]. rewrite app_nil_r. destruct (List.find (named name) (subtrees r)) as [s|] eqn:E; simpl.
  - apply find_some in E as [Hs Hsn]. apply list_elem_of_In in Hs.
    assert (Hq : r_ptr s <> r_ptr r).
    { intros Eq. assert (s = r) as ->; [|congruence].
      by apply (NoDup_map_inj r_ptr (subtrees r)); [..|apply subtrees_self|]. }
    assert (Hin : r_ptr s ∈ map r_ptr (subtrees r)) by by apply list_elem_of_In, in_map, list_elem_of_In.
    destruct (xu_unlink x r (r_ptr s) Hroot Hr Hd Hin Hq) as [Hroot' Hr'].
    destruct (IH (xmlUnlinkFree (r_ptr s) x) (prune (r_ptr s) r)) as (x' & H1 & H2 & H3).
    + unfold prune. by rewrite cut_ptr, Hroot'.
    + done.
    + eapply sublist_NoDup; [|apply cut_sublist]. done.
    + unfold prune. by rewrite cut_named.
    + pose proof (prune_size_lt _ _ Hin Hq). lia.
    + pose proof (cut_height (fun c => (r_ptr c =? r_ptr s)%nat) r). unfold prune. lia.
    + unfold prune at 1 in H1. rewrite cut_ptr in H1. exists x'. split; [done|]. split; [congruence|].
      rewrite drop_prune in H3; [done|]. intros s' Hs' Eq.
      assert (s' = s) as -> by by apply (NoDup_map_inj r_ptr (subtrees r)). done.
  - exists x. split; [done|]. split; [done|]. unfold drop_named. rewrite cut_missing; [done|].
    intros s Hs. by apply (find_none _ _ E), list_elem_of_In.
Qed.

Context (fuel depth : nat).

Lemma delete_from_drops (x : X) r name names :
  x_root x = Some (r_ptr r) -> reads x r -> deletable fuel depth r names -> name ∈ names ->
  exists x', delete_from fuel depth name x = Ok x' /\ x_root x' = Some (r_ptr (drop_named name r)) /\
    reads x' (drop_named name r) /\ deletable fuel depth (drop_named name r) names.
Proof.
  intros Hroot Hr HD Hin. pose proof HD as [H1 H2 H3 H4]. rewrite Forall_forall in H2. specialize (H2 _ Hin).
  destruct (delete_loop_drops fuel depth x r name Hroot Hr H1 H2 H3 H4) as (x' & E & Hroot' & Hr').
  exists x'. unfold delete_from, xml_delete_special_node. rewrite Hroot, E. split; [done|].
  unfold drop_named at 1. rewrite cut_ptr. split; [congruence|]. split; [done|]. by apply deletable_cut.
Qed.

(** A document whose root has the name: the root is freed and then searched. *)
Lemma delete_root_fault (x : X) r name :
  x_root x = Some (r_ptr r) -> reads x r -> named name r = true ->
  xml_delete_special_node (S (S fuel)) (S depth) name x = Fault UseAfterFree.
Proof.
  intros Hroot Hr Hn. destruct r as [p e n props cs]. unfold xml_delete_special_node. rewrite Hroot.
  apply reads_node in Hr as [Hx _]. cbn [delete_loop]. rewrite !xml_find_node_cons. simpl r_ptr. rewrite Hx. simpl.
  change (e && bool_decide (n = name) = true) in Hn. rewrite Hn. by rewrite xu_free.
Qed.
End delete.
