(* ===== verification/InfoBuilt.v ===== *)
(** * The document that is built is accepted

    The trees that [InfoTree.expected] describes follow the declarations of the document
    type and have good values, so that the tool prints what it has built. *)

From Stdlib Require Import Ascii String.
From stdpp Require Import strings.
From S2P Require Import Prelude Bitops Cpuset Cstring Dynset TopoState TopoQuery InfoXml InfoTree.
From S2P Require Import InfoValid InfoCheck.

(** ** Numbers that are printed and read back *)

Lemma length_udigits fuel base n k :
  1 < base -> 0 <= n < base ^ Z.of_nat (S k) -> (length (udigits fuel base n) <= S k)%nat.
Proof.
  intros Hb. revert n k. induction fuel as [|fuel IH]; intros n k Hn; simpl; [lia|].
  destruct (Z.ltb_spec n base); simpl; [lia|]. rewrite length_app. simpl.
  destruct k as [|k]; [simpl in Hn; lia|].
  assert (length (udigits fuel base (n / base)) <= S k)%nat; [|lia]. apply IH.
  split; [apply Z.div_pos; lia|]. apply Z.div_lt_upper_bound; [lia|].
  replace (Z.of_nat (S (S k))) with (Z.succ (Z.of_nat (S k))) in Hn by lia.
  rewrite Z.pow_succ_r in Hn by lia. lia.
Qed.

Lemma length_print_num n : 0 <= n < 2 ^ 63 -> (length (print_num 10 n) <= 19)%nat.
Proof. intros Hn. unfold print_num. rewrite length_map. apply (length_udigits 64 10 n 18); lia. Qed.

(** [strtol] reads back what was printed. *)
Lemma strtol_digits (neg : bool) n :
  0 <= n < 2 ^ 63 ->
  strtol 10 ((if neg then [minus] else []) ++ print_num 10 n) = (if neg then - n else n, false, []).
Proof.
  intros Hn. destruct (print_num_head 10 n) as (c & s & E & d & Hd & -> & Hdr); [lia|lia|].
  assert (Hdig : digits 10 0 (print_num 10 n) = (n, [])).
  { rewrite <-(app_nil_r (print_num 10 n)). unfold print_num. rewrite digits_print; [|lia| |done].
    - rewrite udigits_value; [done|lia| |lia]. split; [lia|].
      apply Z.lt_le_trans with (2 ^ 63); [lia|]. by vm_compute.
    - apply udigits_range; lia. }
  assert (Hs : starts_digit 10 (print_num 10 n) = true) by (rewrite E; cbn [starts_digit]; by rewrite Hd).
  destruct (digit_char_plain d) as (H1 & H2 & H3); [lia|].
  unfold strtol. destruct neg.
  - simpl app. cbn [skip_space]. change (isspace minus) with false. cbn iota.
    change (code minus =? 45) with true. cbn iota. rewrite Hs, Hdig.
    destruct (Z.ltb_spec (- n) (- 2 ^ 63)); [lia|]. by destruct (Z.ltb_spec (2 ^ 63 - 1) (- n)); [lia|].
  - simpl app. rewrite E. cbn [skip_space]. rewrite H1, H2, H3. rewrite <-E, Hs, Hdig.
    destruct (Z.ltb_spec n (- 2 ^ 63)); [lia|]. by destruct (Z.ltb_spec (2 ^ 63 - 1) n); [lia|].
Qed.

Lemma print_int_cases n : print_int n = (if n <? 0 then [minus] else []) ++ print_num 10 (Z.abs n).
Proof. unfold print_int. destruct (Z.ltb_spec n 0); simpl; do 2 f_equal; lia. Qed.

Lemma length_print_int n : - 2 ^ 63 < n < 2 ^ 63 -> (length (print_int n) <= 20)%nat.
Proof.
  intros Hn. rewrite print_int_cases, length_app. pose proof (length_print_num (Z.abs n) ltac:(lia)).
  destruct (n <? 0); simpl; lia.
Qed.

Lemma strtol_print_int n : - 2 ^ 63 < n < 2 ^ 63 -> strtol 10 (print_int n) = (n, false, []).
Proof.
  intros Hn. rewrite print_int_cases, strtol_digits by lia.
  destruct (Z.ltb_spec n 0); repeat f_equal; lia.
Qed.

(** The buffers hold every number. *)
Lemma take_print_int k n : (20 <= k)%nat -> - 2 ^ 63 < n < 2 ^ 63 -> take k (print_int n) = print_int n.
Proof. intros Hk Hn. apply take_ge. pose proof (length_print_int n Hn). lia. Qed.

Lemma take_print_num k n : (20 <= k)%nat -> 0 <= n < 2 ^ 63 -> take k (print_num 10 n) = print_num 10 n.
Proof. intros Hk Hn. apply take_ge. pose proof (length_print_num n Hn). lia. Qed.

Lemma print_int_nat n : 0 <= n -> print_int n = print_num 10 n.
Proof. intros. unfold print_int. by destruct (Z.ltb_spec n 0); [lia|]. Qed.

Lemma print_int_ne n : print_int n <> [].
Proof. rewrite print_int_cases. intros [_ H]%app_eq_nil. by apply print_num_ne in H. Qed.

Lemma is_valid_num_int n min max :
  - 2 ^ 63 < n < 2 ^ 63 -> min <= n <= max -> is_valid_num (print_int n) WAYCA_SC_INFO_DEC_BASE min max = true.
Proof.
  intros Hn Hr. unfold is_valid_num. rewrite strtol_print_int by done. pose proof (print_int_ne n).
  rewrite bool_decide_eq_false_2 by done. rewrite bool_decide_eq_true_2 by done. simpl.
  apply andb_true_iff. split; apply Z.leb_le; lia.
Qed.

Lemma is_valid_idx_int n : 0 <= n < MAX_CPUS -> is_valid_idx (print_int n) = true.
Proof.
  unfold MAX_CPUS. intros Hn. unfold is_valid_idx. rewrite strtol_print_int by lia. rewrite bool_decide_eq_true_2 by done.
  simpl. apply andb_true_iff. split; [apply Z.leb_le; lia|apply Z.ltb_lt; unfold MAX_CPUS; lia].
Qed.

(** ** The shape of what is added *)

(** The answers of the queries are in the ranges that the checks accept: no more than
    [MAX_CPUS] of anything, interrupt numbers of 32 bits, numbers of SMMUs of 8 bits. *)
Class InfoRanges `{T : TopoInfo} : Prop := {
  ir_packages : q_packages_in_total <= MAX_CPUS;
  ir_nodes : q_nodes_in_total <= MAX_CPUS;
  ir_ccls : q_ccls_in_total <= MAX_CPUS;
  ir_cores : q_cores_in_total <= MAX_CPUS;
  ir_cpus : q_cpus_in_total <= MAX_CPUS;
  ir_irqs : Forall (fun i => 0 <= i <= UINT32_MAX) q_get_irq_list.2;
  ir_smmus : forall name, (q_get_device_info name).1 = 0 ->
    -1 <= dv_smmu_idx (q_get_device_info name).2 <= UINT8_MAX;
}.

(** An attribute: its name and what its value is. *)
Definition spec : Type := string * (cstring -> Prop).

Definition meets (a : string * cstring) (s : spec) : Prop := a.1 = s.1 /\ s.2 a.2.

Section shape.
Context `{T : TopoInfo} (output_irq output_dev : bool) (calloc : nat -> bool).

(** The values matter when the answers are in their ranges. *)
Context (R : Prop) (HR : R -> InfoRanges).

Definition number (min max : Z) (s : cstring) : Prop := R -> exists n, min <= n <= max /\ s = print_int n.
Definition any (a : string) : spec := (a, fun _ => True).

Definition stub_specs (e : topo_level) : list spec :=
  match e with
  | TOPO_PKG | TOPO_NUMA | TOPO_CCL | TOPO_CORE | TOPO_CPU => [("index"%string, number 0 (MAX_CPUS - 1)); any "p_index"]
  | TOPO_IRQ => [("irq_number"%string, number 0 UINT32_MAX)]
  | TOPO_PCIDEV => [any "slot"]
  | TOPO_SMMUDEV => [any "name"]
  | _ => []
  end.

Definition smmu_spec : spec := ("smmu_idx"%string, number (-1) UINT8_MAX).

Definition added_specs (e : topo_level) : list spec :=
  match e with
  | TOPO_NUMA => [any "mem_size"; any "L3_cache"]
  | TOPO_CORE => [any "L1i_cache"; any "L1d_cache"; any "L2_cache"]
  | TOPO_IRQ => [any "name"; any "chip_name"; any "type"]
  | TOPO_PCIDEV => [smmu_spec; any "class_id"; any "vendor_id"; any "device_id"; any "irq_nr"]
  | TOPO_SMMUDEV => [smmu_spec; any "base_addr"; any "modalias"]
  | _ => []
  end.

Definition good_stub (e : topo_level) (s : stub) : Prop :=
  exists e', e' ∈ below e /\ s.1 = elem_name e' /\ Forall2 meets s.2 (stub_specs e').

Definition shaped (specs : list spec) (Q : stub -> Prop) (r : grown) : Prop :=
  match r with
  | Ok (inr (props, stubs)) => Forall2 meets props specs /\ Forall Q stubs
  | Ok (inl _) => True
  | Fault f => f <> OutOfFuel
  end.

Lemma shaped_seq n1 n2 Q r1 r2 : shaped n1 Q r1 -> shaped n2 Q r2 -> shaped (n1 ++ n2) Q (g_seq r1 r2).
Proof.
  destruct r1 as [[?|[p1 s1]]|]; simpl; [done| |done]. intros [H1 H2]. unfold g_seq.
  destruct r2 as [[?|[p2 s2]]|]; simpl; [done| |done]. intros [H3 H4].
  split; [by apply Forall2_app|by apply Forall_app].
Qed.

Lemma shaped_prop a v P Q : P v -> shaped [(a, P)] Q (g_prop a v).
Proof. intros H. split; [|constructor]. by repeat constructor. Qed.

Lemma shaped_any a v Q : shaped [any a] Q (g_prop a v).
Proof. by apply shaped_prop. Qed.

Lemma shaped_done Q : shaped [] Q g_done.
Proof. by repeat constructor. Qed.

Lemma shaped_all {A} Q (f : A -> grown) l : (forall a, a ∈ l -> shaped [] Q (f a)) -> shaped [] Q (g_all (f <$> l)).
Proof.
  induction l as [|a l IH]; intros H; [apply shaped_done|]. cbn [fmap list_fmap g_all].
  apply (shaped_seq [] []); [apply H; left|apply IH; intros b Hb; apply H; by right].
Qed.

Lemma shaped_single e e' i :
  e' ∈ below e -> (if has_idx e' then 0 <= i /\ (R -> i < MAX_CPUS) else stub_specs e' = []) -> shaped [] (good_stub e) (g_single i e').
Proof.
  intros He Hi. unfold g_single. destruct (has_idx e') eqn:Hx; simpl.
  - assert (Hst : forall p, shaped [] (good_stub e) (g_stub (elem_name e',
      [("index"%string, take 31 (print_int i)); ("p_index"%string, take 31 (print_int p))]))).
    { intros p. split; [constructor|]. repeat constructor. exists e'. split_and!; [done..|].
      assert (Hn : number 0 (MAX_CPUS - 1) (take 31 (print_int i))).
      { intros r. destruct Hi as [H1 H2]. specialize (H2 r). unfold MAX_CPUS in *. exists i.
        split; [lia|]. apply take_print_int; lia. }
      destruct e'; try done; by repeat constructor. }
    destruct (physical e' i <? 0); [|apply Hst]. destruct e'; try done; apply Hst.
  - split; [constructor|]. repeat constructor. exists e'. split_and!; [done..|]. simpl.
    rewrite Hi. constructor.
Qed.

Lemma members_range mask nr i : i ∈ members mask nr -> 0 <= i < nr.
Proof.
  unfold members. rewrite list_elem_of_In, filter_In. intros [H _]. apply list_elem_of_In, elem_of_seqZ in H. lia.
Qed.

Lemma shaped_next e e' mask nr :
  e' ∈ below e -> has_idx e' = true -> (R -> nr <= MAX_CPUS) -> shaped [] (good_stub e) (g_next mask nr e').
Proof.
  intros He Hx Hn. apply shaped_all. intros i Hi%members_range. apply shaped_single; [done|]. rewrite Hx.
  split; [lia|]. intros r. specialize (Hn r). lia.
Qed.

Lemma shaped_index specs Q attrs (k : Z -> grown) :
  (forall id, shaped specs Q (k id)) -> shaped specs Q (index_of attrs k).
Proof.
  intros Hk. unfold index_of. destruct (prop_of "index" attrs) as [s|]; [|done].
  destruct (strtol 10 s) as [[v er] en]. destruct (_ || _); [done|apply Hk].
Qed.

Lemma shaped_mask e e' q nr :
  e' ∈ below e -> has_idx e' = true -> (R -> nr <= MAX_CPUS) -> shaped [] (good_stub e) (g_mask q nr e').
Proof.
  intros. unfold g_mask. destruct (q.1 <? 0); [done|]. destruct (nr <? 0); [done|]. by apply shaped_next.
Qed.

Lemma shaped_core id : shaped (added_specs TOPO_CORE) (good_stub TOPO_CORE) (g_core id).
Proof.
  unfold g_core. destruct (q_core_cpu_mask id) as [ret mask]. destruct (ret <? 0); [done|].
  destruct (_ <? 0); [done|]. unfold g_core_props.
  apply (shaped_seq [any "L1i_cache"; any "L1d_cache"; any "L2_cache"] []).
  - apply (shaped_seq [any "L1i_cache"] [any "L1d_cache"; any "L2_cache"]); [apply shaped_any|].
    apply (shaped_seq [any "L1d_cache"] [any "L2_cache"]); apply shaped_any.
  - apply shaped_next; [left|done|]. intros r. apply HR in r. apply ir_cpus.
Qed.

Lemma shaped_numa_props id Q : shaped (added_specs TOPO_NUMA) Q (g_numa_props id).
Proof.
  unfold g_numa_props. destruct (q_get_node_mem_size id) as [ret mem]. destruct (negb _); [done|].
  apply (shaped_seq [any "mem_size"] [any "L3_cache"]); [apply shaped_any|].
  destruct (q_node_cpu_mask id) as [r mask]. destruct (r <? 0); [done|]. destruct (_ <? 0); [done|]. apply shaped_any.
Qed.

Lemma shaped_device name : shaped [] (good_stub TOPO_NUMA) (g_device name).
Proof.
  unfold g_device. destruct (q_get_device_info name) as [ret info]. destruct (negb _); [done|].
  destruct (get_dev_elem_type (dv_dev_type info)) as [[e a]|] eqn:E; [|done].
  split; [constructor|]. repeat constructor. unfold get_dev_elem_type in E.
  destruct (_ =? _) in E; [|destruct (_ =? _) in E; [|done]]; injection E as <- <-.
  - exists TOPO_PCIDEV. split_and!; [by right; right; left|done|]. by repeat constructor.
  - exists TOPO_SMMUDEV. split_and!; [by right; right; right; left|done|]. by repeat constructor.
Qed.

Lemma shaped_numa id : shaped (added_specs TOPO_NUMA) (good_stub TOPO_NUMA) (g_numa output_dev calloc id).
Proof.
  unfold g_numa. apply (shaped_seq [any "mem_size"; any "L3_cache"] []); [apply shaped_numa_props|].
  apply (shaped_seq [] []).
  - destruct (_ <? 0).
    + destruct (_ <? 0); [done|]. destruct (q_node_core_mask id) as [ret mask]. destruct (ret <? 0); [done|].
      apply shaped_next; [right; left|done|]. intros r. apply HR in r. apply ir_cores.
    + destruct (q_node_ccl_mask id) as [ret mask]. destruct (ret <? 0); [done|].
      apply shaped_next; [left|done|]. intros r. apply HR in r. apply ir_ccls.
  - destruct (negb output_dev); [apply shaped_done|]. unfold g_devices. destruct (q_get_device_list id) as [ret names].
    destruct (negb _); [done|]. destruct (_ && _); [done|]. apply shaped_all. intros name _. apply shaped_device.
Qed.

Lemma shaped_system : shaped [] (good_stub TOPO_SYS) (g_system output_irq).
Proof.
  unfold g_system. destruct (_ <? 0); [done|]. apply (shaped_seq [] []).
  - apply shaped_all. intros i Hi%elem_of_seqZ. apply shaped_single; [left|]. split; [lia|].
    intros r. apply HR in r. pose proof ir_packages. lia.
  - destruct (negb output_irq); [apply shaped_done|]. apply shaped_single; [right; left|done].
Qed.

Lemma shaped_intr : shaped [] (good_stub TOPO_INTR) (g_intr calloc).
Proof.
  unfold g_intr. pose proof (fun r => @ir_irqs _ (HR r)) as Hi. destruct q_get_irq_list as [ret irqs]. simpl in Hi.
  destruct (negb _); [done|]. destruct (_ && _); [done|]. apply shaped_all. intros irq Hin.
  split; [constructor|]. repeat constructor. exists TOPO_IRQ. split_and!; [left|done|]. repeat constructor. simpl.
  intros r. specialize (Hi r). rewrite Forall_forall in Hi. specialize (Hi _ Hin). unfold UINT32_MAX in *. exists irq.
  split; [lia|]. rewrite print_int_nat by lia. apply take_print_num; lia.
Qed.

Lemma shaped_irq attrs Q : shaped (added_specs TOPO_IRQ) Q (g_irq attrs).
Proof.
  unfold g_irq. destruct (prop_of _ attrs) as [s|]; [|done]. destruct (topo_str2ul s) as [ret irq].
  destruct (negb _); [done|]. destruct (q_get_irq_info irq) as [r info]. destruct (negb _); [done|].
  apply (shaped_seq [any "name"] [any "chip_name"; any "type"]); [apply shaped_any|].
  destruct (_ !! _) as [chip|]; [|done].
  apply (shaped_seq [any "chip_name"] [any "type"]); [apply shaped_any|].
  destruct (_ !! _) as [type|]; [apply shaped_any|done].
Qed.

Lemma shaped_smmu_idx name info Q :
  q_get_device_info name = (0, info) -> shaped [smmu_spec] Q (g_prop "smmu_idx" (content (print_int (dv_smmu_idx info)))).
Proof.
  intros E. apply shaped_prop. intros r. pose proof (@ir_smmus _ (HR r) name) as H. rewrite E in H.
  specialize (H eq_refl). simpl in H. exists (dv_smmu_idx info). split; [done|]. unfold UINT8_MAX in H.
  unfold content, CONTENT_STR_LEN. apply take_print_int; lia.
Qed.

Lemma shaped_pci attrs Q : shaped (added_specs TOPO_PCIDEV) Q (g_pci attrs).
Proof.
  unfold g_pci. destruct (prop_of _ attrs) as [s|]; [|done]. destruct (q_get_device_info s) as [ret info] eqn:E.
  destruct (ret =? 0) eqn:Hr; simpl; [|done]. apply Z.eqb_eq in Hr as ->.
  apply (shaped_seq [smmu_spec] [any "class_id"; any "vendor_id"; any "device_id"; any "irq_nr"]);
    [by eapply shaped_smmu_idx|].
  destruct (dv_detail info); try done.
  apply (shaped_seq [any "class_id"] [any "vendor_id"; any "device_id"; any "irq_nr"]); [apply shaped_any|].
  apply (shaped_seq [any "vendor_id"] [any "device_id"; any "irq_nr"]); [apply shaped_any|].
  apply (shaped_seq [any "device_id"] [any "irq_nr"]); apply shaped_any.
Qed.

Lemma shaped_smmu attrs Q : shaped (added_specs TOPO_SMMUDEV) Q (g_smmu attrs).
Proof.
  unfold g_smmu. destruct (prop_of _ attrs) as [s|]; [|done]. destruct (q_get_device_info s) as [ret info] eqn:E.
  destruct (ret =? 0) eqn:Hr; simpl; [|done]. apply Z.eqb_eq in Hr as ->.
  apply (shaped_seq [smmu_spec] [any "base_addr"; any "modalias"]); [by eapply shaped_smmu_idx|].
  destruct (dv_detail info); try done.
  apply (shaped_seq [any "base_addr"] [any "modalias"]); apply shaped_any.
Qed.

Lemma expand_shaped e attrs :
  shaped (added_specs e) (good_stub e) (expand output_irq output_dev calloc e attrs).
Proof.
  destruct e; cbn [expand].
  - apply shaped_system.
  - apply shaped_index. intros id. apply shaped_mask; [left|done|]. intros r. apply HR in r. apply ir_nodes.
  - apply shaped_index, shaped_numa.
  - apply shaped_index. intros id. apply shaped_mask; [left|done|]. intros r. apply HR in r. apply ir_cores.
  - apply shaped_index, shaped_core.
  - apply shaped_done.
  - apply shaped_intr.
  - apply shaped_irq.
  - apply shaped_pci.
  - apply shaped_smmu.
Qed.

(** ** The whole tree *)

(** Every element is one of the table, with its attributes, above those it may hold. *)
Definition good_tree (e : topo_level) (t : tree) : Prop :=
  t_name t = elem_name e /\ conforms topo_dtd t = true /\ (R -> all_nodes value_ok t = true).

Lemma meets_names attrs specs : Forall2 meets attrs specs -> map fst attrs = map fst specs.
Proof. induction 1 as [|a s attrs specs [H _] _ IH]; [done|]. simpl. by rewrite H, IH. Qed.

Lemma node_conforms e attrs ts :
  Forall2 meets attrs (stub_specs e ++ added_specs e) ->
  Forall (fun t => exists e', e' ∈ below e /\ t_name t = elem_name e') ts ->
  conforms_here topo_dtd (elem_name e) (map fst attrs) (map t_name ts) = true.
Proof.
  intros Ha%meets_names Ht. apply conforms_here_topo. exists e. split; [done|]. split; [by apply List.Forall_map|].
  rewrite Ha. intros a. rewrite !list_elem_of_In. destruct e; vm_compute; tauto.
Qed.

Fixpoint spec_of (a : string) (specs : list spec) : option (cstring -> Prop) :=
  match specs with
  | [] => None
  | (b, P) :: specs => if decide (a = b) then Some P else spec_of a specs
  end.

Lemma meets_prop a attrs specs :
  Forall2 meets attrs specs ->
  match spec_of a specs with
  | Some P => exists v, prop_of a attrs = Some v /\ P v
  | None => prop_of a attrs = None
  end.
Proof.
  induction 1 as [|[b v] [b' P] attrs specs [E HP] _ IH]; [done|]. simpl in *. subst b'.
  case_decide; [by exists v|done].
Qed.

Lemma sizes_present attrs l : Forall (fun a => is_Some (prop_of a attrs)) l -> sizes_ok attrs l = true.
Proof. induction 1 as [|a l [v E] _ IH]; [done|]. simpl. rewrite E. by destruct (is_valid_memory_size v KB). Qed.

Lemma num_met attrs specs a min max :
  R -> -1 <= min -> max <= UINT32_MAX -> Forall2 meets attrs specs -> spec_of a specs = Some (number min max) ->
  num_ok attrs a min max = true.
Proof.
  intros r Hmin Hmax Ha E. pose proof (meets_prop a _ _ Ha) as H. rewrite E in H. destruct H as (v & Ev & Hv).
  unfold num_ok. rewrite Ev. destruct (Hv r) as (n & Hn & ->). unfold UINT32_MAX in Hmax. apply is_valid_num_int; lia.
Qed.

Lemma node_value_ok e attrs :
  R -> Forall2 meets attrs (stub_specs e ++ added_specs e) -> value_ok (elem_name e) attrs = true.
Proof.
  intros r Ha. unfold value_ok. rewrite (proj2 (find_elem_spec _ e)) by done. apply andb_true_iff. split.
  - pose proof (meets_prop "index" _ _ Ha) as H. destruct e; cbn in H.
    all: first [rewrite H; done | destruct H as (v & -> & Hv); destruct (Hv r) as (n & Hn & ->)].
    all: apply is_valid_idx_int; unfold MAX_CPUS in *; lia.
  - assert (Hs : forall l, Forall (fun a => is_Some (spec_of a (stub_specs e ++ added_specs e))) l -> sizes_ok attrs l = true).
    { intros l Hl. apply sizes_present, (Forall_impl _ _ _ Hl). intros a [P E].
      pose proof (meets_prop a _ _ Ha) as H. rewrite E in H. destruct H as (v & -> & _). by exists v. }
    destruct e; try done; try (apply Hs; repeat constructor; by eexists).
    all: eapply num_met; [done|unfold UINT32_MAX, UINT8_MAX; lia..|done|done].
Qed.

Lemma all_trees_good f e stubs :
  (forall e' attrs, e' ∈ below e -> Forall2 meets attrs (stub_specs e') ->
    match f (elem_name e', attrs) with
    | Fault g => g <> OutOfFuel
    | Ok (inl _) => True
    | Ok (inr t) => good_tree e' t
    end) ->
  Forall (good_stub e) stubs ->
  match all_trees f stubs with
  | Fault g => g <> OutOfFuel
  | Ok (inl _) => True
  | Ok (inr ts) => Forall (fun t => exists e', e' ∈ below e /\ good_tree e' t) ts
  end.
Proof.
  intros Hf. induction 1 as [|[n attrs] stubs (e' & He' & E & Ha) _ IH]; [constructor|]. simpl in E, Ha. subst n.
  specialize (Hf e' attrs He' Ha). simpl. destruct (f (elem_name e', attrs)) as [[?|t]|]; simpl; [done| |done].
  destruct (all_trees f stubs) as [[?|ts]|]; simpl; [done| |done]. constructor; eauto.
Qed.

(** Enough fuel for the levels below an element, and then a tree that is accepted. *)
Lemma expected_good fuel e attrs :
  (rank e <= fuel)%nat -> Forall2 meets attrs (stub_specs e) ->
  match expected output_irq output_dev calloc fuel (elem_name e, attrs) with
  | Fault f => f <> OutOfFuel
  | Ok (inl _) => True
  | Ok (inr t) => good_tree e t
  end.
Proof.
  revert e attrs. induction fuel as [|fuel IH]; intros e attrs Hf Ha; [destruct e; simpl in Hf; lia|].
  cbn [expected fst snd]. rewrite (proj2 (find_elem_spec _ e)) by done.
  pose proof (expand_shaped e attrs) as He. destruct (expand _ _ _ e attrs) as [[?|[props stubs]]|]; [done| |done].
  obind. destruct He as [Hp Hs].
  assert (HT : match all_trees (expected output_irq output_dev calloc fuel) stubs with
    | Fault g => g <> OutOfFuel
    | Ok (inl _) => True
    | Ok (inr ts) => Forall (fun t => exists e', e' ∈ below e /\ good_tree e' t) ts
    end).
  { apply all_trees_good; [|done]. intros e' attrs' He'. apply IH. apply below_rank in He'. lia. }
  destruct (all_trees _ stubs) as [[?|ts]|]; [done| |done]. obind. split; [done|].
  assert (HA : Forall2 meets (attrs ++ props) (stub_specs e ++ added_specs e)) by by apply Forall2_app.
  rewrite Forall_forall in HT. split.
  - cbn [conforms]. apply andb_true_iff. split.
    + apply node_conforms; [done|]. apply Forall_forall. intros t Ht. destruct (HT t Ht) as (e' & He' & Hn & _). eauto.
    + apply forallb_forall. intros t Ht%list_elem_of_In. by destruct (HT t Ht) as (e' & _ & _ & Hc & _).
  - intros r. cbn [all_nodes]. apply andb_true_iff. split; [by apply node_value_ok|].
    apply forallb_forall. intros t Ht%list_elem_of_In. destruct (HT t Ht) as (e' & _ & _ & _ & Hv). by apply Hv.
Qed.
End shape.
