(* ===== verification/InfoMain.v ===== *)
(** * The information tool as a whole

    What [wayca-sc-info] does with a document that it has built and with one that it
    has read from a file. *)

From Stdlib Require Import Ascii String.
From stdpp Require Import strings.
From S2P Require Import Prelude Bitops Cpuset Cstring Dynset TopoState TopoQuery InfoXml InfoTree.
From S2P Require Import InfoValid InfoOutput InfoCheck InfoPrint InfoDelete InfoBuilt.

Lemma elems_height r : (height (elems r) <= rheight r)%nat.
Proof.
  induction r as [p e name props cs IH] using rtree_ind'. rewrite elems_eq. simpl. apply le_n_S.
  change (elems <$> List.filter r_element cs) with (map elems (List.filter r_element cs)).
  induction IH as [|c cs Hc _ IHcs]; [done|]. simpl. destruct (r_element c); simpl; lia.
Qed.

Section tool.
Context {X : Type} `{LO : LibXmlOk X} `{EV : InfoEnv X} `{T : TopoInfo}.
Context (calloc : nat -> bool) (content_ok : string -> bool) (attr_ok : string -> string -> bool).
Context (xmlValidateDtd : dtd -> X -> Z) `{VO : !ValidateOk xmlValidateDtd}.

(** There is memory for the declarations. *)
Context (Hcontent : forall n, content_ok n = true) (Hattr : forall n a, attr_ok n a = true).

Notation validate x := (validate_topo_info x content_ok attr_ok true true xmlValidateDtd).

Lemma warn_missing_ok depth x rt name o :
  reads x rt -> (rheight rt <= depth)%nat ->
  exists ws, warn_missing depth x (r_ptr rt) name o = Ok (tt, mk_io (io_stdout o) (io_warnings o ++ ws) (io_files o)).
Proof using X L.
  intros Hr Hh. unfold warn_missing. rewrite (xml_find_node_first x depth [rt] name); [|by repeat constructor..|by left].
  destruct (List.find _ _); simpl; [exists []|by exists [name]]. rewrite app_nil_r. by destruct o.
Qed.

(** The format is accepted exactly when the document follows the declarations. *)
Lemma validate_format_ok x : validate_format content_ok attr_ok true true xmlValidateDtd x =
  Ok (if xmlValidateDtd topo_dtd x =? 1 then 0 else - EINVAL).
Proof using Hcontent Hattr. unfold validate_format. by rewrite formats_ok. Qed.

(** [m] may add warnings and nothing else. *)
Definition warns (m : M io unit) : Prop :=
  forall o, exists ws, m o = Ok (tt, mk_io (io_stdout o) (io_warnings o ++ ws) (io_files o)).

Lemma warns_seq m k : warns m -> warns k -> warns (m;; k).
Proof using.
  intros Hm Hk o. destruct (Hm o) as (a & Ea). destruct (Hk (mk_io (io_stdout o) (io_warnings o ++ a) (io_files o))) as (b & Eb).
  exists (a ++ b). unfold mbind, M_bind. rewrite Ea, Eb. simpl. by rewrite app_assoc.
Qed.

Lemma warns_when (b : bool) m : warns m -> warns (when b m).
Proof using. intros Hm o. destruct b; [apply Hm|]. exists []. rewrite app_nil_r. by destruct o. Qed.

(** A document that follows the declarations is put out. *)
Lemma conforming_put depth x rt args o :
  x_root x = Some (r_ptr rt) -> reads x rt -> r_element rt = true -> (rheight rt <= depth)%nat ->
  has_output_file args = false -> conforms topo_dtd (elems rt) = true ->
  exists o', put_topo_info depth args x o = Ok (0, o') /\
    io_stdout o' = io_stdout o ++ render 0 (elems rt) /\ io_files o' = io_files o.
Proof using LO.
  intros Hroot Hr He Hh Hf Hc. pose proof (elems_height rt) as Heh.
  assert (HP := conforming_prints x depth rt Hr He Hc ltac:(lia)).
  assert (HW := fun name o => warn_missing_ok depth x rt name o Hr Hh).
  unfold put_topo_info. rewrite Hroot, Hf.
  destruct (warns_when (output_dev args) _ (warns_seq _ _ (HW "PCIDEV"%string) (HW "SMMUDEV"%string)) o) as (w1 & E1).
  rewrite (M_bind_ok _ _ _ _ _ E1).
  destruct (warns_when (output_irq args) _ (HW "IRQ"%string) (mk_io (io_stdout o) (io_warnings o ++ w1) (io_files o)))
    as (w2 & E2).
  rewrite (M_bind_ok _ _ _ _ _ E2). rewrite HP. eexists. split; done.
Qed.

(** C32. Whatever file a document comes from, when [validate_topo_info] accepts it then
    [put_topo_info] prints it and succeeds: every property that is printed is there and
    the buffer of [print_topo_info] does not overflow. *)
Theorem validated_document_prints depth x rt args r r' o :
  x_root x = Some (r_ptr rt) -> reads x rt -> r_element rt = true -> (rheight rt <= depth)%nat ->
  has_output_file args = false ->
  validate x depth r = Ok (0, r') ->
  exists o', put_topo_info depth args x o = Ok (0, o') /\
    io_stdout o' = io_stdout o ++ render 0 (elems rt) /\ io_files o' = io_files o.
Proof using Hcontent Hattr VO LO.
  intros Hroot Hr He Hh Hf HV. unfold validate_topo_info in HV. rewrite validate_format_ok in HV.
  destruct (Z.eqb_spec (xmlValidateDtd topo_dtd x) 1) as [E|]; [|done].
  apply conforming_put; try done. by apply (vo_sound topo_dtd x rt).
Qed.

(** ** A document that is built *)

Context `{XM : !XmlMemory X}.

(** C33. [build_topo_info] returns the tree that [expected] describes, built in the
    document; when a query fails it returns the error of the first one that fails, in
    the order of the document, and no document; and it has no other fault than the
    tree. *)
Theorem build_topo_info_refines irq dev :
  match expected irq dev calloc build_fuel (elem_name TOPO_SYS, []) with
  | Fault f => build_topo_info irq dev calloc = Fault f
  | Ok (inl ret) => ret <> 0 /\ build_topo_info irq dev calloc = Ok (ret, None)
  | Ok (inr t) => exists x root,
    build_topo_info irq dev calloc = Ok (0, Some x) /\ x_root x = Some root /\ tree_in (fun _ => True) x root t
  end.
Proof using LO XM. apply build_topo_info_tree. Qed.

(** C38. Building the document ends: the recursion of [build_topo] goes no deeper than
    the levels of the table of elements, whatever the queries answer. *)
Theorem build_topo_info_ends irq dev : build_topo_info irq dev calloc <> Fault OutOfFuel.
Proof using LO XM.
  pose proof (build_topo_info_tree irq dev calloc) as H.
  pose proof (expected_good irq dev calloc False ltac:(done) build_fuel TOPO_SYS [] ltac:(unfold build_fuel; simpl; lia) ltac:(constructor)) as HG.
  destruct (expected irq dev calloc build_fuel (elem_name TOPO_SYS, [])) as [[ret|t]|f].
  - destruct H as [_ ->]. done.
  - destruct H as (x & root & -> & _). done.
  - rewrite H. congruence.
Qed.

Lemma elements_only_height r : elements_only r = true -> rheight r = height (elems r).
Proof using.
  induction r as [p e name props cs IH] using rtree_ind'. rewrite elems_eq. simpl. intros [_ He]%andb_true_iff. f_equal.
  change (elems <$> List.filter r_element cs) with (map elems (List.filter r_element cs)).
  induction IH as [|c cs Hc _ IHcs]; [done|]. simpl in He |- *. apply andb_true_iff in He as [H1 H2].
  assert (r_element c = true) as -> by (destruct c; by apply andb_true_iff in H1 as [? _]). simpl.
  by rewrite Hc, IHcs.
Qed.

(** C14. Without files, the tool builds the tree of the topology, accepts it and prints
    it. *)
Theorem main_prints_topology fuel depth opts args t o :
  InfoRanges -> (6 <= depth)%nat ->
  parse_args opts false = Ok (Some 0, args) -> has_input_file args = false -> has_output_file args = false ->
  expected (output_irq args) (output_dev args) calloc build_fuel (elem_name TOPO_SYS, []) = Ok (inr t) ->
  exists o', main calloc fuel depth content_ok attr_ok true true xmlValidateDtd opts false o = Ok (0, o') /\
    io_stdout o' = io_stdout o ++ render 0 t /\ io_files o' = io_files o.
Proof using Hcontent Hattr VO LO XM.
  intros HR Hd Hp Hi Ho He. pose proof (build_topo_info_tree (output_irq args) (output_dev args) calloc) as H.
  pose proof (expected_good (output_irq args) (output_dev args) calloc True ltac:(done) build_fuel TOPO_SYS []
    ltac:(unfold build_fuel; simpl; lia) ltac:(constructor)) as HG.
  rewrite He in H, HG. destruct H as (x & root & Hb & Hroot & Ht). destruct HG as (_ & Hc & Hv). specialize (Hv I).
  destruct (proj1 (tree_in_reads x) root t Ht) as (rt & Hr & <- & <- & Heo).
  pose proof (elements_only_height rt Heo) as Hh. destruct (conforms_height _ Hc) as (e & _ & Hhe).
  assert (rank e <= 6)%nat by (destruct e; simpl; lia).
  destruct (validate_value_iff x depth rt (mk_reports false false [])) as (ret & r' & E1 & _ & E2); [done..|lia|done|].
  rewrite Hv in E2. apply Z.eqb_eq in E2 as ->.
  unfold main. rewrite Hp. obind. simpl negb. cbn iota. unfold get_topo_info. rewrite Hi, Hb. obind. cbn iota.
  unfold validate_topo_info. rewrite validate_format_ok, (vo_complete topo_dtd x rt) by done.
  simpl negb. cbn iota. rewrite E1. obind. cbn iota.
  apply conforming_put; try done; [|lia]. destruct rt. by apply andb_true_iff in Heo as [? _].
Qed.

(** ** A document that is read *)

Context `{LU : !LibXmlUnlink X}.

(** The elements that the options do not ask for. *)
Definition unwanted (irq dev : bool) : list string :=
  (if irq then [] else ["IRQ"]) ++ (if dev then [] else ["SMMUDEV"; "PCIDEV"]).

Definition drop_all (names : list string) (r : rtree) : rtree := foldl (fun r name => drop_named name r) r names.

(** C34. Importing a file removes exactly the interrupts and devices that the options do
    not ask for, with what is below them; the rest of the document stays as it is. *)
Theorem import_drops_unwanted fuel depth irq dev filename x rt :
  e_read_file filename = Some x -> x_root x = Some (r_ptr rt) -> reads x rt ->
  deletable fuel depth rt (unwanted irq dev) ->
  exists x', xml_import_topo_info fuel depth irq dev filename = Ok (0, Some x') /\
    x_root x' = x_root x /\ reads x' (drop_all (unwanted irq dev) rt).
Proof using LU.
  intros Hf Hroot Hr HD. unfold xml_import_topo_info, unwanted, drop_all in *. rewrite Hf.
  assert (Hp : forall name r, r_ptr (drop_named name r) = r_ptr r) by (intros; apply cut_ptr).
  destruct irq, dev; cbn [negb app foldl] in *; obind.
  - eauto.
  - destruct (delete_from_drops fuel depth x rt "SMMUDEV" _ Hroot Hr HD) as (x1 & -> & R1 & r1 & D1); [left|]. obind.
    destruct (delete_from_drops fuel depth x1 _ "PCIDEV" _ R1 r1 D1) as (x2 & -> & R2 & r2 & _); [right; left|].
    obind. exists x2. split; [done|]. split; [|done]. rewrite R2, !Hp. done.
  - destruct (delete_from_drops fuel depth x rt "IRQ" _ Hroot Hr HD) as (x1 & -> & R1 & r1 & D1); [left|]. obind.
    exists x1. split; [done|]. split; [|done]. by rewrite R1, Hp.
  - destruct (delete_from_drops fuel depth x rt "IRQ" _ Hroot Hr HD) as (x1 & -> & R1 & r1 & D1); [left|]. obind.
    destruct (delete_from_drops fuel depth x1 _ "SMMUDEV" _ R1 r1 D1) as (x2 & -> & R2 & r2 & D2); [right; left|]. obind.
    destruct (delete_from_drops fuel depth x2 _ "PCIDEV" _ R2 r2 D2) as (x3 & -> & R3 & r3 & _); [right; right; left|].
    obind. exists x3. split; [done|]. split; [|done]. by rewrite R3, !Hp.
Qed.

(** A file whose root element is one of those is used after it is freed. *)
Theorem import_root_fault fuel depth dev filename x rt :
  e_read_file filename = Some x -> x_root x = Some (r_ptr rt) -> reads x rt -> named "IRQ" rt = true ->
  xml_import_topo_info (S (S fuel)) (S depth) false dev filename = Fault UseAfterFree.
Proof using LU.
  intros Hf Hroot Hr Hn. unfold xml_import_topo_info, delete_from. rewrite Hf. simpl negb. cbn iota.
  by rewrite (delete_root_fault fuel depth x rt).
Qed.

(** ** File names *)

(** The name of the output file: the directory and the last component; a name that does
    not fit the array is written past its end. *)
Theorem canonicalize_result filename dir :
  e_realpath (dirname (take (Z.to_nat PATH_MAX) filename)) = inr dir -> dir <> [] -> Z.of_nat (length dir) < PATH_MAX ->
  let base := basename (take (Z.to_nat PATH_MAX) filename) in
  let name := (if decide (last dir = Some slash) then dir else dir ++ [slash]) ++ base in
  canonicalize_export_filename filename =
  if Z.of_nat (length name) <=? PATH_MAX then Ok (0, name) else Fault OutOfBounds.
Proof using.
  intros Hd Hne Hlen base name. unfold canonicalize_export_filename, WAYCA_INFO_MAX_FILE_NAME.
  replace (PATH_MAX + 1 - 1) with PATH_MAX by lia. rewrite Hd. fold base.
  destruct (last dir) as [c|] eqn:E; [|by apply last_None in E].
  assert (Hs : forall d, Z.of_nat (length d) <= PATH_MAX ->
    strncat (PATH_MAX + 1) d base (PATH_MAX + 1 - Z.of_nat (length d)) =
    if Z.of_nat (length (d ++ base)) <=? PATH_MAX then Ok (d ++ base) else Fault OutOfBounds).
  { intros d Hl. unfold strncat. destruct (Z.leb_spec (Z.of_nat (length (d ++ base))) PATH_MAX) as [H|H];
      rewrite length_app in H.
    - rewrite take_ge by lia. rewrite length_app. by case_if E'; [|lia].
    - rewrite length_app, length_take. case_if E'; [lia|done]. }
  assert (Hk : forall d, Z.of_nat (length d) <= PATH_MAX ->
    (strncat (PATH_MAX + 1) d base (PATH_MAX + 1 - Z.of_nat (length d)) ≫= fun n => Ok (0, n)) =
    if Z.of_nat (length (d ++ base)) <=? PATH_MAX then Ok (0, d ++ base) else Fault OutOfBounds).
  { intros d Hl. rewrite Hs by done. by destruct (_ <=? _). }
  unfold name. destruct (decide (c = slash)) as [->|Hc].
  - rewrite decide_True by done. obind. apply Hk. lia.
  - rewrite decide_False by congruence.
    assert (strncat (PATH_MAX + 1) dir [slash] (PATH_MAX + 1 - Z.of_nat (length dir)) = Ok (dir ++ [slash])) as ->.
    { unfold strncat. rewrite take_ge by (simpl; lia). rewrite length_app. simpl length. by case_if E'; [|lia]. }
    obind. apply Hk. rewrite length_app. simpl. lia.
Qed.

(** Each of the options for interrupts and devices takes back the other. *)
Theorem irq_then_device opts :
  parse_args (Opt_I :: Opt_D :: opts) false = parse_args (Opt_D :: opts) false.
Proof using. done. Qed.
End tool.
