(* ===== verification/InfoComplete.v ===== *)
(** * Every CPU is in the document, once

    When the queries succeed, the tree is known outright: a package for each package, in
    it the nodes of its mask, and so on down to the CPUs. When the masks of each level
    divide the elements of the next one among them, every CPU of the machine is an
    element of the document exactly once. *)

From Stdlib Require Import Ascii String.
From stdpp Require Import strings.
From S2P Require Import Prelude Bitops Cpuset Cstring Dynset TopoState TopoQuery InfoXml InfoTree.
From S2P Require Import InfoValid InfoCheck InfoBuilt.

(** ** The tree *)

Section answers.
Context `{T : TopoInfo} (output_irq output_dev : bool) (calloc : nat -> bool).

Definition nodes_of (i : Z) : list Z := members (q_package_node_mask i).2 q_nodes_in_total.
Definition ccls_of (i : Z) : list Z := members (q_node_ccl_mask i).2 q_ccls_in_total.
Definition node_cores_of (i : Z) : list Z := members (q_node_core_mask i).2 q_cores_in_total.
Definition cores_of (i : Z) : list Z := members (q_ccl_core_mask i).2 q_cores_in_total.
Definition cpus_of (i : Z) : list Z := members (q_core_cpu_mask i).2 q_cpus_in_total.

Definition index_attrs (e : topo_level) (i : Z) : list (string * cstring) :=
  let p := match e with TOPO_CCL | TOPO_PKG | TOPO_CORE => physical e i | _ => i end in
  [("index"%string, take 31 (print_int i)); ("p_index"%string, take 31 (print_int p))].

Definition core_attrs (i : Z) : list (string * cstring) :=
  let cpu := first_set (q_core_cpu_mask i).2 (Z.to_nat q_cpus_in_total) 0 in
  [("L1i_cache"%string, kilobytes (q_get_l1i_size cpu)); ("L1d_cache"%string, kilobytes (q_get_l1d_size cpu));
   ("L2_cache"%string, kilobytes (q_get_l2_size cpu))].

Definition numa_attrs (i : Z) : list (string * cstring) :=
  [("mem_size"%string, content (print_num 10 (q_get_node_mem_size i).2 ++ s2l "KB"));
   ("L3_cache"%string, kilobytes (l3_cache (q_node_cpu_mask i).2 (Z.to_nat q_cpus_in_total) 0 (-1)))].

Definition cpu_tree (i : Z) : tree := Node "CPU" (index_attrs TOPO_CPU i) [].
Definition core_tree (i : Z) : tree :=
  Node "Core" (index_attrs TOPO_CORE i ++ core_attrs i) (map cpu_tree (cpus_of i)).
Definition ccl_tree (i : Z) : tree := Node "Cluster" (index_attrs TOPO_CCL i) (map core_tree (cores_of i)).

Definition device_tree (name : cstring) : tree :=
  let info := (q_get_device_info name).2 in
  let smmu_idx := ("smmu_idx"%string, content (print_int (dv_smmu_idx info))) in
  match dv_detail info with
  | PciDetail device vendor class _ nb_irq =>
    Node "PCIDEV" [("slot"%string, name); smmu_idx; ("class_id"%string, print_hex class);
      ("vendor_id"%string, print_hex vendor); ("device_id"%string, print_hex device);
      ("irq_nr"%string, content (print_int nb_irq))] []
  | SmmuDetail base_addr modalias =>
    Node "SMMUDEV" [("name"%string, name); smmu_idx; ("base_addr"%string, print_hex base_addr);
      ("modalias"%string, content modalias)] []
  | _ => Node "" [] []
  end.

Definition numa_tree (i : Z) : tree :=
  Node "NUMANode" (index_attrs TOPO_NUMA i ++ numa_attrs i)
    ((if q_ccls_in_total <? 0 then map core_tree (node_cores_of i) else map ccl_tree (ccls_of i)) ++
     (if output_dev then map device_tree (q_get_device_list i).2 else [])).
Definition package_tree (i : Z) : tree := Node "Package" (index_attrs TOPO_PKG i) (map numa_tree (nodes_of i)).

Definition irq_tree (irq : Z) : tree :=
  let info := (q_get_irq_info irq).2 in
  Node "IRQ" [("irq_number"%string, take 31 (print_num 10 irq)); ("name"%string, content (i_name info));
    ("chip_name"%string, content (default [] (irq_chip_text !! Z.to_nat (to_uint (i_chip_name info)))));
    ("type"%string, content (default [] (irq_type_text !! Z.to_nat (to_uint (i_type info)))))] [].

Definition system_tree : tree :=
  Node "System" []
    (map package_tree (seqZ 0 q_packages_in_total) ++
     (if output_irq then [Node "Interrupt" [] (map irq_tree q_get_irq_list.2)] else [])).

(** ** The queries succeed *)

Definition device_ok (name : cstring) : bool :=
  let '(ret, info) := q_get_device_info name in
  (ret =? 0) &&
  match dv_detail info with
  | PciDetail _ _ _ _ _ => dv_dev_type info =? WAYCA_SC_TOPO_DEV_TYPE_PCI
  | SmmuDetail _ _ => dv_dev_type info =? WAYCA_SC_TOPO_DEV_TYPE_SMMU
  | _ => false
  end.

Definition irq_ok (irq : Z) : bool :=
  let '(ret, info) := q_get_irq_info irq in
  (0 <=? irq) && (irq <=? UINT32_MAX) && (ret =? 0) &&
  (to_uint (i_chip_name info) <? Z.of_nat (length irq_chip_text)) &&
  (to_uint (i_type info) <? Z.of_nat (length irq_type_text)).

Record answers_ok : Prop := {
  ao_packages : 0 <= q_packages_in_total < 2 ^ 31;
  ao_nodes : 0 <= q_nodes_in_total < 2 ^ 31;
  ao_ccls : q_ccls_in_total < 2 ^ 31;
  ao_cores : 0 <= q_cores_in_total < 2 ^ 31;
  ao_cpus : 0 <= q_cpus_in_total < 2 ^ 31;
  ao_package : forall i, 0 <= i < q_packages_in_total ->
    0 <= physical TOPO_PKG i /\ 0 <= (q_package_node_mask i).1;
  ao_node : forall i, 0 <= i < q_nodes_in_total ->
    (q_get_node_mem_size i).1 = 0 /\ 0 <= (q_node_cpu_mask i).1 /\
    (if q_ccls_in_total <? 0 then 0 <= (q_node_core_mask i).1 else 0 <= (q_node_ccl_mask i).1);
  ao_ccl : forall i, 0 <= i < q_ccls_in_total -> 0 <= physical TOPO_CCL i /\ 0 <= (q_ccl_core_mask i).1;
  ao_core : forall i, 0 <= i < q_cores_in_total -> 0 <= physical TOPO_CORE i /\ 0 <= (q_core_cpu_mask i).1;
  ao_devices : output_dev = true -> forall i, 0 <= i < q_nodes_in_total ->
    (q_get_device_list i).1 = 0 /\ calloc (length (q_get_device_list i).2) = true /\
    forallb device_ok (q_get_device_list i).2 = true;
  ao_irqs : output_irq = true ->
    q_get_irq_list.1 = 0 /\ calloc (length q_get_irq_list.2) = true /\ forallb irq_ok q_get_irq_list.2 = true;
}.

Context (HA : answers_ok).

Notation expect := (expected output_irq output_dev calloc).

Lemma all_trees_ok {A} fuel (stub_of : A -> stub) (tree_of : A -> tree) l :
  (forall a, a ∈ l -> expect fuel (stub_of a) = Ok (inr (tree_of a))) ->
  all_trees (expect fuel) (map stub_of l) = Ok (inr (map tree_of l)).
Proof using.
  induction l as [|a l IH]; intros H; [done|]. cbn [map all_trees]. rewrite H by left. obind.
  rewrite IH; [done|]. intros b Hb. apply H. by right.
Qed.

Lemma all_trees_app fuel l1 l2 t1 t2 :
  all_trees (expect fuel) l1 = Ok (inr t1) -> all_trees (expect fuel) l2 = Ok (inr t2) ->
  all_trees (expect fuel) (l1 ++ l2) = Ok (inr (t1 ++ t2)).
Proof using.
  revert t1. induction l1 as [|s l1 IH]; intros t1 H1 H2; [by injection H1 as <-|].
  cbn [app all_trees] in *. destruct (expect fuel s) as [[?|t]|]; try done. revert H1. obind.
  destruct (all_trees (expect fuel) l1) as [[?|ts]|]; try done. obind. intros [= <-]. by rewrite (IH ts).
Qed.

(** An element whose expansion is known. *)
Lemma expect_node fuel e attrs props stubs ts :
  expand output_irq output_dev calloc e attrs = Ok (inr (props, stubs)) ->
  all_trees (expect fuel) stubs = Ok (inr ts) ->
  expect (S fuel) (elem_name e, attrs) = Ok (inr (Node (elem_name e) (attrs ++ props) ts)).
Proof using.
  intros H1 H2. cbn [expected fst snd]. rewrite (proj2 (find_elem_spec _ e)) by done. rewrite H1. obind. by rewrite H2.
Qed.

Lemma index_of_attrs e i k : 0 <= i < 2 ^ 31 -> index_of (index_attrs e i) k = k i.
Proof using.
  intros Hi. unfold index_of, index_attrs. cbn [prop_of]. rewrite decide_True by done.
  rewrite take_print_int by lia. rewrite strtol_print_int by lia. pose proof (print_int_ne i).
  rewrite bool_decide_eq_false_2 by done. simpl. f_equal. by apply to_int_id.
Qed.

Definition index_stub (e : topo_level) (i : Z) : stub := (elem_name e, index_attrs e i).

Lemma g_all_stubs {A} (f : A -> grown) (s : A -> stub) l :
  (forall a, a ∈ l -> f a = g_stub (s a)) -> g_all (f <$> l) = Ok (inr ([], map s l)).
Proof using.
  induction l as [|a l IH]; intros H; [done|]. cbn [fmap list_fmap g_all]. rewrite H by left.
  fold (fmap f l). rewrite IH; [done|]. intros b Hb. apply H. by right.
Qed.

Definition physical_ok (e : topo_level) (i : Z) : Prop :=
  match e with TOPO_CCL | TOPO_PKG | TOPO_CORE => 0 <= physical e i | _ => 0 <= i end.

Lemma g_single_stub e i : has_idx e = true -> physical_ok e i -> g_single i e = g_stub (index_stub e i).
Proof using.
  intros He Hp. unfold g_single, index_stub, index_attrs. rewrite He. simpl negb. cbn iota. cbv zeta.
  destruct (Z.ltb_spec (physical e i) 0); destruct e; try done; simpl in *; lia.
Qed.

Lemma g_next_stubs mask nr e : has_idx e = true -> (forall i, 0 <= i < nr -> physical_ok e i) ->
  g_next mask nr e = Ok (inr ([], map (index_stub e) (members mask nr))).
Proof using.
  intros He Hp. apply g_all_stubs. intros i Hi%members_range. apply g_single_stub; [done|]. by apply Hp.
Qed.

(** A level whose children are known. *)
Lemma expect_members fuel e mask nr tree_of :
  has_idx e = true -> (forall i, 0 <= i < nr -> expect fuel (index_stub e i) = Ok (inr (tree_of i))) ->
  all_trees (expect fuel) (map (index_stub e) (members mask nr)) = Ok (inr (map tree_of (members mask nr))).
Proof using. intros He H. apply all_trees_ok. intros i Hi%members_range. by apply H. Qed.

Lemma expect_cpu fuel i : expect (S fuel) (index_stub TOPO_CPU i) = Ok (inr (cpu_tree i)).
Proof using. exact (expect_node fuel TOPO_CPU (index_attrs TOPO_CPU i) [] [] [] eq_refl eq_refl). Qed.

Lemma expect_core fuel i : 0 <= i < q_cores_in_total -> expect (S (S fuel)) (index_stub TOPO_CORE i) = Ok (inr (core_tree i)).
Proof using HA.
  intros Hi. pose proof (ao_cores HA). pose proof (ao_cpus HA). destruct (ao_core HA i Hi) as [_ Hm].
  apply (expect_node _ TOPO_CORE _ (core_attrs i) (map (index_stub TOPO_CPU) (cpus_of i))).
  - cbn [expand]. rewrite index_of_attrs by lia. unfold g_core, core_attrs, cpus_of.
    destruct (q_core_cpu_mask i) as [ret mask]. simpl in Hm |- *.
    destruct (Z.ltb_spec ret 0); [lia|]. destruct (Z.ltb_spec q_cpus_in_total 0); [lia|].
    rewrite g_next_stubs; [done..|]. intros c Hc. simpl. lia.
  - apply expect_members; [done|]. intros c _. apply expect_cpu.
Qed.

Lemma expect_ccl fuel i :
  0 <= i < q_ccls_in_total -> expect (S (S (S fuel))) (index_stub TOPO_CCL i) = Ok (inr (ccl_tree i)).
Proof using HA.
  intros Hi. pose proof (ao_ccls HA). pose proof (ao_cores HA). destruct (ao_ccl HA i Hi) as [_ Hm].
  unfold ccl_tree. rewrite <-(app_nil_r (index_attrs _ _)).
  apply (expect_node _ TOPO_CCL _ [] (map (index_stub TOPO_CORE) (cores_of i))).
  - cbn [expand]. rewrite index_of_attrs by lia. unfold g_mask, cores_of.
    destruct (Z.ltb_spec (q_ccl_core_mask i).1 0); [lia|]. destruct (Z.ltb_spec q_cores_in_total 0); [lia|].
    apply g_next_stubs; [done|]. intros c Hc. by apply (ao_core HA).
  - apply expect_members; [done|]. intros c Hc. by apply expect_core.
Qed.

Definition device_stub (name : cstring) : stub :=
  match get_dev_elem_type (dv_dev_type (q_get_device_info name).2) with
  | Some (e, a) => (elem_name e, [(a, name)])
  | None => (""%string, [])
  end.

Lemma expect_device fuel name : device_ok name = true ->
  g_device name = g_stub (device_stub name) /\ expect (S fuel) (device_stub name) = Ok (inr (device_tree name)).
Proof using.
  unfold device_ok, g_device, device_stub, device_tree. destruct (q_get_device_info name) as [ret info] eqn:E.
  intros [Hr Hd]%andb_true_iff. apply Z.eqb_eq in Hr as ->. simpl.
  destruct (dv_detail info) as [|base mod_|d v c r n] eqn:Ed; [done|..]; apply Z.eqb_eq in Hd; rewrite Hd; simpl.
  - split; [done|]. refine (expect_node fuel TOPO_SMMUDEV [("name"%string, name)] [_; _; _] [] [] _ eq_refl). cbn [expand]. unfold g_smmu. cbn [prop_of].
    rewrite decide_True by done. by rewrite E, Ed.
  - split; [done|]. refine (expect_node fuel TOPO_PCIDEV [("slot"%string, name)] [_; _; _; _; _] [] [] _ eq_refl). cbn [expand]. unfold g_pci. cbn [prop_of].
    rewrite decide_True by done. by rewrite E, Ed.
Qed.

Lemma expect_numa fuel i :
  0 <= i < q_nodes_in_total -> expect (S (S (S (S fuel)))) (index_stub TOPO_NUMA i) = Ok (inr (numa_tree i)).
Proof using HA.
  intros Hi. pose proof (ao_nodes HA). pose proof (ao_ccls HA). pose proof (ao_cores HA). pose proof (ao_cpus HA).
  destruct (ao_node HA i Hi) as (Hmem & Hcpu & Hm).
  apply (expect_node _ TOPO_NUMA _ (numa_attrs i)
    ((if q_ccls_in_total <? 0 then map (index_stub TOPO_CORE) (node_cores_of i) else map (index_stub TOPO_CCL) (ccls_of i)) ++
     (if output_dev then map device_stub (q_get_device_list i).2 else []))).
  - cbn [expand]. rewrite index_of_attrs by lia. unfold g_numa.
    assert (g_numa_props i = Ok (inr (numa_attrs i, []))) as ->.
    { unfold g_numa_props, numa_attrs. destruct (q_get_node_mem_size i) as [r mem]. destruct (q_node_cpu_mask i) as [r' mask].
      simpl in *. subst r. simpl. destruct (Z.ltb_spec r' 0); [lia|]. by destruct (Z.ltb_spec q_cpus_in_total 0); [lia|]. }
    assert ((if negb output_dev then g_done else g_devices calloc i) =
      Ok (inr ([], if output_dev then map device_stub (q_get_device_list i).2 else []))) as ->.
    { destruct output_dev eqn:Ho; [|done]. destruct (ao_devices HA Ho i Hi) as (Hr & Hc & Hd). simpl negb. cbn iota.
      unfold g_devices. destruct (q_get_device_list i) as [r names]. simpl in *. subst r. rewrite Hc, andb_false_r. simpl.
      apply g_all_stubs. intros name Hn%list_elem_of_In. rewrite forallb_forall in Hd. by apply (expect_device 0), Hd. }
    unfold node_cores_of, ccls_of. destruct (Z.ltb_spec q_ccls_in_total 0).
    + destruct (Z.ltb_spec q_cores_in_total 0); [lia|]. destruct (q_node_core_mask i) as [r mask]. simpl in Hm |- *.
      destruct (Z.ltb_spec r 0); [lia|]. rewrite g_next_stubs; [done..|]. intros c Hc. by apply (ao_core HA).
    + destruct (q_node_ccl_mask i) as [r mask]. simpl in Hm |- *. destruct (Z.ltb_spec r 0); [lia|].
      rewrite g_next_stubs; [done..|]. intros c Hc. by apply (ao_ccl HA).
  - apply all_trees_app.
    + destruct (q_ccls_in_total <? 0); apply expect_members; try done; intros c Hc; [|by apply expect_ccl].
      by apply (expect_core (S fuel)).
    + assert (HT : output_dev = true -> all_trees (expect (S (S (S fuel)))) (map device_stub (q_get_device_list i).2) =
        Ok (inr (map device_tree (q_get_device_list i).2))).
      { intros Ho. apply all_trees_ok. intros name Hn%list_elem_of_In.
        destruct (ao_devices HA Ho i Hi) as (_ & _ & Hd). rewrite forallb_forall in Hd. by apply expect_device, Hd. }
      revert HT. generalize (expect (S (S (S fuel)))). intros ex HT. destruct output_dev; [by apply HT|done].
Qed.

Lemma expect_package fuel i :
  0 <= i < q_packages_in_total -> expect (S (S (S (S (S fuel))))) (index_stub TOPO_PKG i) = Ok (inr (package_tree i)).
Proof using HA.
  intros Hi. pose proof (ao_packages HA). pose proof (ao_nodes HA). destruct (ao_package HA i Hi) as [_ Hm].
  unfold package_tree. rewrite <-(app_nil_r (index_attrs _ _)).
  apply (expect_node _ TOPO_PKG _ [] (map (index_stub TOPO_NUMA) (nodes_of i))).
  - cbn [expand]. rewrite index_of_attrs by lia. unfold g_mask, nodes_of.
    destruct (Z.ltb_spec (q_package_node_mask i).1 0); [lia|]. destruct (Z.ltb_spec q_nodes_in_total 0); [lia|].
    apply g_next_stubs; [done|]. intros c Hc. simpl. lia.
  - apply expect_members; [done|]. intros c Hc. by apply expect_numa.
Qed.

Definition irq_stub (irq : Z) : stub := ("IRQ"%string, [("irq_number"%string, take 31 (print_num 10 irq))]).

Lemma expect_irq fuel irq : irq_ok irq = true -> expect (S fuel) (irq_stub irq) = Ok (inr (irq_tree irq)).
Proof using.
  unfold irq_ok, UINT32_MAX. intros Hi. destruct (q_get_irq_info irq) as [ret info] eqn:Eq.
  assert (Hb : 0 <= irq <= 2 ^ 32 - 1 /\ ret = 0 /\ to_uint (i_chip_name info) < Z.of_nat (length irq_chip_text) /\
    to_uint (i_type info) < Z.of_nat (length irq_type_text)) by (zbool; lia). clear Hi. destruct Hb as (Hr & -> & Hc & Ht).
  unfold irq_stub, irq_tree.
  refine (expect_node fuel TOPO_IRQ [("irq_number"%string, _)] [_; _; _] [] [] _ eq_refl).
  cbn [expand]. unfold g_irq. cbn [prop_of]. rewrite decide_True by done. rewrite take_print_num by lia.
  unfold topo_str2ul. rewrite <-(app_nil_r (print_num 10 irq)), strtoul_print; [|lia|unfold is_word; lia|done].
  rewrite app_nil_r. pose proof (print_num_ne 10 irq). rewrite bool_decide_eq_false_2 by done. simpl negb. cbn iota.
  assert (Hu : forall n, 0 <= to_uint n) by (intros n; apply Z.mod_pos_bound; lia).
  destruct (lookup_lt_is_Some_2 irq_chip_text (Z.to_nat (to_uint (i_chip_name info)))) as [chip Ec];
    [pose proof (Hu (i_chip_name info)); lia|].
  destruct (lookup_lt_is_Some_2 irq_type_text (Z.to_nat (to_uint (i_type info)))) as [type Et];
    [pose proof (Hu (i_type info)); lia|].
  simpl. rewrite Eq. simpl. by rewrite Ec, Et.
Qed.

(** When the queries succeed the document is [system_tree]. *)
Lemma expect_system : expect build_fuel (elem_name TOPO_SYS, []) = Ok (inr system_tree).
Proof using HA.
  pose proof (ao_packages HA).
  apply (expect_node _ TOPO_SYS [] [] (map (index_stub TOPO_PKG) (seqZ 0 q_packages_in_total) ++
    (if output_irq then [(elem_name TOPO_INTR, [])] else []))).
  - cbn [expand]. unfold g_system. destruct (Z.ltb_spec q_packages_in_total 0); [lia|].
    rewrite (g_all_stubs _ (index_stub TOPO_PKG)); [by destruct output_irq|].
    intros i Hi%elem_of_seqZ. apply g_single_stub; [done|]. apply (ao_package HA). lia.
  - apply all_trees_app.
    + apply all_trees_ok. intros i Hi%elem_of_seqZ. apply (expect_package 1). lia.
    + assert (E : output_irq = true ->
        expect 6 (elem_name TOPO_INTR, []) = Ok (inr (Node "Interrupt" [] (map irq_tree q_get_irq_list.2)))).
      { intros Ho. destruct (ao_irqs HA Ho) as (Hr & Hc & Hi). apply (expect_node 5 TOPO_INTR [] [] (map irq_stub q_get_irq_list.2)).
        - cbn [expand]. unfold g_intr. destruct q_get_irq_list as [r irqs]. simpl in *. subst r.
          rewrite Hc, andb_false_r. simpl. by apply g_all_stubs.
        - apply all_trees_ok. intros irq Hin%list_elem_of_In. rewrite forallb_forall in Hi. by apply (expect_irq 4), Hi. }
      revert E. generalize (expect 6). intros ex E. destruct output_irq; [|done]. cbn [all_trees]. by rewrite E.
Qed.

(** ** The CPUs *)

(** The masks of each level divide the elements of the next one. *)
Record divides : Prop := {
  di_nodes : flat_map nodes_of (seqZ 0 q_packages_in_total) ≡ₚ seqZ 0 q_nodes_in_total;
  di_cores :
    if q_ccls_in_total <? 0 then flat_map node_cores_of (seqZ 0 q_nodes_in_total) ≡ₚ seqZ 0 q_cores_in_total
    else flat_map ccls_of (seqZ 0 q_nodes_in_total) ≡ₚ seqZ 0 q_ccls_in_total /\
         flat_map cores_of (seqZ 0 q_ccls_in_total) ≡ₚ seqZ 0 q_cores_in_total;
  di_cpus : flat_map cpus_of (seqZ 0 q_cores_in_total) ≡ₚ seqZ 0 q_cpus_in_total;
}.
End answers.

(** The indices of the elements of a name, in document order. *)
Fixpoint indices (name : string) (t : tree) : list cstring :=
  let '(Node n props ts) := t in
  (if decide (n = name) then [default [] (prop_of "index" props)] else []) ++ flat_map (indices name) ts.

Lemma flat_map_flat_map {A B C} (f : A -> list B) (g : B -> list C) l :
  flat_map g (flat_map f l) = flat_map (fun a => flat_map g (f a)) l.
Proof. induction l as [|a l IH]; [done|]. simpl. by rewrite flat_map_app, IH. Qed.

Lemma flat_map_map_out {A B C} (f : A -> list B) (h : B -> C) l :
  flat_map (fun a => map h (f a)) l = map h (flat_map f l).
Proof. induction l as [|a l IH]; [done|]. simpl. by rewrite map_app, IH. Qed.

Lemma flat_map_inner {A B C} (t : A -> B) (f : B -> list C) (g : A -> list C) l :
  (forall a, a ∈ l -> f (t a) = g a) -> flat_map f (map t l) = flat_map g l.
Proof.
  induction l as [|a l IH]; intros H; [done|]. simpl. rewrite H by left. f_equal. apply IH. intros b Hb. apply H. by right.
Qed.

Section cpus.
Context `{T : TopoInfo} (output_irq output_dev : bool) (calloc : nat -> bool).
Context (HA : answers_ok output_irq output_dev calloc) (HD : divides).

Notation cpus := (indices "CPU").

Lemma cpus_cpu i : 0 <= i < q_cpus_in_total -> cpus (cpu_tree i) = [print_int i].
Proof using HA.
  intros Hi. pose proof (ao_cpus _ _ _ HA). unfold cpu_tree, index_attrs. cbn [indices prop_of flat_map].
  rewrite !decide_True by done. simpl. rewrite take_print_int by lia. done.
Qed.

Lemma cpus_core i : cpus (core_tree i) = map print_int (cpus_of i).
Proof using HA.
  unfold core_tree. cbn [indices]. rewrite decide_False by done.
  rewrite (flat_map_inner cpu_tree cpus (fun i => [print_int i])).
  - clear. simpl. induction (cpus_of i) as [|c l IH]; [done|]. simpl. by rewrite IH.
  - intros c Hc%members_range. by apply cpus_cpu.
Qed.

(** The CPUs of some cores. *)
Lemma cpus_cores l : flat_map cpus (map core_tree l) = map print_int (flat_map cpus_of l).
Proof using HA.
  rewrite (flat_map_inner core_tree cpus (fun i => map print_int (cpus_of i))); [apply flat_map_map_out|].
  intros c _. apply cpus_core.
Qed.

(** The cores of a node, with or without clusters. *)
Definition numa_cores (i : Z) : list Z :=
  if q_ccls_in_total <? 0 then node_cores_of i else flat_map cores_of (ccls_of i).

Lemma device_no_cpu name : cpus (device_tree name) = [].
Proof using. unfold device_tree. by destruct (dv_detail _). Qed.

Lemma cpus_numa i : cpus (numa_tree output_dev i) = map print_int (flat_map cpus_of (numa_cores i)).
Proof using HA.
  unfold numa_tree. cbn [indices]. rewrite decide_False by done. rewrite flat_map_app.
  assert (flat_map cpus (if output_dev then map device_tree (q_get_device_list i).2 else []) = []) as ->.
  { destruct output_dev; [|done]. rewrite (flat_map_inner device_tree cpus (fun _ => [])).
    - clear. by induction (q_get_device_list i).2.
    - intros name _. apply device_no_cpu. }
  rewrite app_nil_r. simpl. unfold numa_cores. destruct (_ <? 0); [apply cpus_cores|].
  rewrite (flat_map_inner ccl_tree cpus (fun i => map print_int (flat_map cpus_of (cores_of i)))).
  - by rewrite flat_map_map_out, <-flat_map_flat_map.
  - intros c _. unfold ccl_tree. cbn [indices]. rewrite decide_False by done. apply cpus_cores.
Qed.

Lemma irqs_no_cpu : cpus (Node "Interrupt" [] (map irq_tree q_get_irq_list.2)) = [].
Proof using.
  cbn [indices]. rewrite decide_False by done. simpl. rewrite (flat_map_inner irq_tree cpus (fun _ => [])); [|done].
  clear. by induction q_get_irq_list.2.
Qed.

(** Every CPU, once. *)
Lemma cpus_system : cpus (system_tree output_irq output_dev) ≡ₚ map print_int (seqZ 0 q_cpus_in_total).
Proof using HA HD.
  unfold system_tree. cbn [indices]. rewrite decide_False by done. rewrite flat_map_app.
  assert (flat_map cpus (if output_irq then [Node "Interrupt" [] (map irq_tree q_get_irq_list.2)] else []) = []) as ->.
  { destruct output_irq; [|done]. cbn [flat_map]. by rewrite irqs_no_cpu. }
  rewrite app_nil_r. simpl.
  rewrite (flat_map_inner (package_tree output_dev) cpus (fun i => map print_int (flat_map cpus_of (flat_map numa_cores (nodes_of i))))).
  2:{ intros i _. unfold package_tree. cbn [indices]. rewrite decide_False by done. simpl.
      rewrite (flat_map_inner (numa_tree output_dev) cpus (fun i => map print_int (flat_map cpus_of (numa_cores i)))).
      - by rewrite flat_map_map_out, <-flat_map_flat_map.
      - intros n _. apply cpus_numa. }
  rewrite flat_map_map_out. apply Permutation_map.
  rewrite <-flat_map_flat_map, <-flat_map_flat_map, (di_nodes HD), <-(di_cpus HD).
  apply Permutation_flat_map. unfold numa_cores. pose proof (di_cores HD) as Hc. destruct (_ <? 0); [done|].
  destruct Hc as [H1 H2]. rewrite <-flat_map_flat_map, H1. done.
Qed.

Context {X : Type} `{LO : LibXmlOk X} `{XM : !XmlMemory X}.

(** When the queries succeed, building the document succeeds and the document is
    [system_tree]: the packages of the machine with the nodes, clusters, cores and CPUs
    of their masks, the devices of the nodes and the interrupts when they are asked for. *)
Theorem built_document_is_system_tree :
  exists x root, build_topo_info output_irq output_dev calloc = Ok (0, Some x) /\ x_root x = Some root /\
    tree_in (fun _ => True) x root (system_tree output_irq output_dev).
Proof using HA LO XM.
  pose proof (build_topo_info_tree output_irq output_dev calloc) as H. by rewrite expect_system in H.
Qed.

(** C15. When the masks of each level divide the elements of the next one, the document
    that is built has an element for every CPU of the machine, each exactly once. *)
Theorem document_lists_every_cpu :
  exists x root t, build_topo_info output_irq output_dev calloc = Ok (0, Some x) /\ x_root x = Some root /\
    tree_in (fun _ => True) x root t /\ indices "CPU" t ≡ₚ map print_int (seqZ 0 q_cpus_in_total).
Proof using HA HD LO XM.
  pose proof (build_topo_info_tree output_irq output_dev calloc) as H. rewrite expect_system in H by done.
  destruct H as (x & root & H1 & H2 & H3). exists x, root, (system_tree output_irq output_dev).
  split_and!; [done..|apply cpus_system].
Qed.
End cpus.
