(* ===== verification/InfoDoc.v ===== *)
(** * Documents as lists of nodes

    An instance of the interface to libxml2: a pointer is a position in a list, a new
    node is added at the end. It has every property that the theorems about the
    information tool ask for. *)

From Stdlib Require Import Ascii String.
From stdpp Require Import strings.
From S2P Require Import Prelude Bitops Cpuset Cstring Dynset TopoState TopoQuery InfoXml InfoTree.
From S2P Require Import InfoValid InfoOutput InfoCheck InfoPrint InfoDelete InfoBuilt InfoMain InfoComplete.

Record doc := mk_doc {
  d_nodes : list (option xml_node);
  d_root : option xmlNodePtr;
}.

Definition d_node (d : doc) (p : xmlNodePtr) : option xml_node := d_nodes d !! p ≫= id.

Definition unlink_node (q : xmlNodePtr) (n : xml_node) : xml_node :=
  mk_xml_node (x_element n) (x_name n) (x_props n) (List.filter (fun c => negb (c =? q)%nat) (x_children n)).

Definition unlink_opt (q : xmlNodePtr) : option xml_node -> option xml_node := fmap (unlink_node q).

#[export] Instance doc_xml : LibXml doc := {
  x_node := d_node;
  x_root := d_root;
  xmlNewDoc := Some (mk_doc [] None);
  xmlNewNode name d := (Some (length (d_nodes d)), mk_doc (d_nodes d ++ [Some (new_element name)]) (d_root d));
  xmlDocSetRootElement p d := mk_doc (d_nodes d) (Some p);
  xmlNewChild p name d :=
    match d_node d p with
    | None => (None, d)
    | Some n =>
      let c := length (d_nodes d) in
      (Some c, mk_doc (<[p := Some (add_child c n)]> (d_nodes d) ++ [Some (new_element name)]) (d_root d))
    end;
  xmlNewProp p a v d :=
    match d_node d p with
    | None => (false, d)
    | Some n => (true, mk_doc (<[p := Some (add_prop a v n)]> (d_nodes d)) (d_root d))
    end;
  xmlGetProp p a d := n ← d_node d p; prop_of a (x_props n);
  xmlUnlinkFree q d := mk_doc (<[q := None]> (unlink_opt q <$> d_nodes d)) (d_root d);
}.

Lemma d_node_lt d p n : d_node d p = Some n -> (p < length (d_nodes d))%nat.
Proof. unfold d_node. destruct (d_nodes d !! p) eqn:E; [|done]. intros _. by eapply lookup_lt_Some. Qed.

Lemma d_node_insert d p n root q :
  (p < length (d_nodes d))%nat ->
  d_node (mk_doc (<[p := n]> (d_nodes d)) root) q = if decide (q = p) then n else d_node d q.
Proof.
  intros Hp. unfold d_node. simpl. case_decide as E; [subst|].
  - by rewrite list_lookup_insert_eq.
  - by rewrite list_lookup_insert_ne.
Qed.

Lemma d_node_app l n root q : d_node (mk_doc (l ++ [n]) root) q =
  if decide (q = length l) then n else d_node (mk_doc l root) q.
Proof.
  unfold d_node. simpl. case_decide as E; [subst; by rewrite lookup_app_r, Nat.sub_diag by lia|].
  destruct (decide (q < length l)%nat); [by rewrite lookup_app_l|].
  rewrite lookup_app_r by lia. rewrite (lookup_ge_None_2 l) by lia.
  by rewrite lookup_ge_None_2 by (simpl; lia).
Qed.

#[export] Instance doc_xml_ok : LibXmlOk doc.
Proof.
  split; simpl.
  - by intros x p [= <-].
  - intros name x p x' [= <- <-]. split; [unfold d_node; by rewrite lookup_ge_None_2|]. intros q. by rewrite d_node_app.
  - done.
  - intros p name x n c x' Hp. rewrite Hp. intros [= <- <-]. pose proof (d_node_lt _ _ _ Hp).
    split; [unfold d_node; by rewrite lookup_ge_None_2|]. split; [done|]. intros q.
    rewrite d_node_app, length_insert. case_decide; [done|]. by rewrite d_node_insert.
  - intros p a v x n x' Hp. rewrite Hp. intros [= <-]. split; [done|]. intros q. rewrite d_node_insert; [done|].
    by eapply d_node_lt.
  - intros p a x n ->. done.
Qed.

#[export] Instance doc_memory : XmlMemory doc.
Proof.
  split; simpl.
  - by eexists.
  - intros. by eexists _, _.
  - intros p name x n ->. by eexists _, _.
  - intros p a v x n ->. by eexists.
Qed.

#[export] Instance doc_unlink : LibXmlUnlink doc.
Proof.
  assert (HN : forall d q p, d_node (mk_doc (<[q := None]> (unlink_opt q <$> d_nodes d)) (d_root d)) p =
    if decide (p = q) then None else unlink_node q <$> d_node d p).
  { intros d q p. unfold d_node. simpl. case_decide as E; [subst|].
    - destruct (decide (q < length (d_nodes d))%nat).
      + by rewrite list_lookup_insert_eq by by rewrite length_fmap.
      + by rewrite lookup_ge_None_2 by (rewrite length_insert, length_fmap; lia).
    - rewrite list_lookup_insert_ne by done. rewrite list_lookup_fmap. by destruct (d_nodes d !! p) as [[n|]|]. }
  split.
  - intros x r q Hroot Hr _ _ Hq. split; [done|]. clear Hroot.
    induction r as [p e name props cs IH] using rtree_ind'. apply reads_node in Hr as [Hp Hc]. simpl in Hq.
    unfold prune. cbn [cut]. apply reads_node. simpl. rewrite HN, decide_False by done. simpl in Hp. rewrite Hp. simpl.
    split.
    + unfold unlink_node. simpl. do 2 f_equal. clear. induction cs as [|c cs IH]; [done|]. simpl.
      destruct (r_ptr c =? q)%nat; simpl; [done|]. by rewrite cut_ptr, IH.
    + clear Hp. induction IH as [|c cs IHc _ IHcs]; [constructor|]. apply Forall_cons in Hc as [Hc Hcs]. simpl.
      destruct (Nat.eqb_spec (r_ptr c) q); simpl; [by apply IHcs|]. constructor; [apply IHc; [done|congruence]|by apply IHcs].
  - intros x q. simpl. by rewrite HN, decide_True.
Qed.

(** ** Reading a document back *)

Section depth.
Context {X : Type} `{L : LibXml X}.

Lemma reads_functional (x : X) r r' : reads x r -> reads x r' -> r_ptr r = r_ptr r' -> r = r'.
Proof.
  revert r'. induction r as [p e name props cs IH] using rtree_ind'. intros [p' e' name' props' cs'] Hr Hr' Hp.
  simpl in Hp. subst p'. apply reads_node in Hr as [H1 H2], Hr' as [H3 H4]. rewrite H1 in H3.
  injection H3 as <- <- <- Hm. f_equal. clear H1.
  revert cs' H4 Hm. induction IH as [|c cs IHc _ IHcs]; intros [|c' cs'] H4 Hm; try done.
  apply Forall_cons in H2 as [H2 H2s], H4 as [H4 H4s]. injection Hm as Hm1 Hm2.
  rewrite (IHc c') by done. by rewrite (IHcs H2s cs').
Qed.

Lemma reads_subtree (x : X) r s : reads x r -> s ∈ subtrees r -> reads x s.
Proof.
  induction r as [p e name props cs IH] using rtree_ind'. intros Hr [->|(c & Hc & Hs)]%subtrees_child; [done|].
  apply reads_node in Hr as [_ Hr]. rewrite Forall_forall in IH, Hr. by apply (IH c Hc); [apply Hr|].
Qed.

Lemma child_size c cs : c ∈ cs -> (length (subtrees c) <= length (concat (map subtrees cs)))%nat.
Proof.
  induction cs as [|d cs IH]; intros Hc; [inversion Hc|]. simpl. rewrite length_app.
  apply elem_of_cons in Hc as [->|Hc]; [lia|]. specialize (IH Hc). lia.
Qed.

Lemma subtrees_size r s : s ∈ subtrees r -> (length (subtrees s) <= length (subtrees r))%nat.
Proof.
  induction r as [p e name props cs IH] using rtree_ind'. intros [->|(c & Hc & Hs)]%subtrees_child; [done|].
  rewrite Forall_forall in IH. pose proof (IH c Hc Hs). pose proof (child_size c cs Hc). simpl. lia.
Qed.

(** A way down the document meets as many nodes as it is deep. *)
Lemma reads_path (x : X) r : reads x r ->
  exists l, NoDup l /\ length l = rheight r /\ (forall p, p ∈ l -> p ∈ map r_ptr (subtrees r)).
Proof.
  induction r as [p e name props cs IH] using rtree_ind'. intros Hr.
  assert (Hmax : cs = [] \/ exists c, c ∈ cs /\ list_max (map rheight cs) = rheight c).
  { clear. induction cs as [|c cs IH]; [by left|]. right. simpl. destruct IH as [->|(d & Hd & E)].
    - exists c. split; [left|]. simpl. lia.
    - rewrite E. destruct (Nat.max_spec (rheight c) (rheight d)) as [[_ ->]|[_ ->]]; [exists d|exists c]; split;
        [by right|done|left|done]. }
  destruct Hmax as [->|(c & Hc & E)].
  - exists [p]. split; [apply NoDup_singleton|]. split; [done|]. by intros q ->%list_elem_of_singleton; left.
  - rewrite Forall_forall in IH. assert (Hrc : reads x c).
    { apply (reads_subtree x _ c Hr). apply subtrees_child. right. exists c. split; [done|apply subtrees_self]. }
    destruct (IH c Hc Hrc) as (l & Hd & Hlen & Hin). exists (p :: l). split_and!.
    + constructor; [|done]. intros Hp. apply Hin in Hp. apply list_elem_of_In, in_map_iff in Hp as (s & Hsp & Hs%list_elem_of_In).
      assert (s = RNode p e name props cs) as ->.
      { apply (reads_functional x); [by apply (reads_subtree x c)|done|done]. }
      apply subtrees_size in Hs. pose proof (child_size c cs Hc). simpl in Hs. lia.
    + simpl. by rewrite E, Hlen.
    + intros q [->|Hq]%elem_of_cons; [left|]. apply Hin in Hq. right.
      apply list_elem_of_In, in_map_iff in Hq as (s & <- & Hs). apply list_elem_of_In, in_map, in_concat.
      exists (subtrees c). split; [by apply in_map, list_elem_of_In|done].
Qed.
End depth.

Lemma doc_depth (d : doc) r : reads d r -> (rheight r <= length (d_nodes d))%nat.
Proof.
  intros Hr. destruct (reads_path d r Hr) as (l & Hd & <- & Hin).
  transitivity (length (seq 0 (length (d_nodes d)))); [|by rewrite length_seq]. apply NoDup_incl_length; [by apply NoDup_ListNoDup|].
  intros p Hp%list_elem_of_In. apply Hin, list_elem_of_In, in_map_iff in Hp as (s & <- & Hs%list_elem_of_In).
  apply in_seq. destruct (reads_ptr d s) as (n & Hn & _); [by apply (reads_subtree d r)|].
  apply d_node_lt in Hn. lia.
Qed.

(** The tree of the elements at a pointer. *)
Fixpoint read_tree (d : doc) (fuel : nat) (p : xmlNodePtr) : option tree :=
  match fuel with
  | O => None
  | S fuel =>
    n ← d_node d p;
    ts ← mapM (read_tree d fuel) (List.filter (is_element d) (x_children n));
    Some (Node (x_name n) (x_props n) ts)
  end.

Lemma read_tree_elems d fuel r :
  reads d r -> (height (elems r) <= fuel)%nat -> read_tree d fuel (r_ptr r) = Some (elems r).
Proof.
  revert r. induction fuel as [|fuel IH]; intros [p e name props cs] Hr Hh; [simpl in Hh; lia|].
  pose proof (kids_height _ _ _ _ _ _ Hh) as Hk. pose proof (element_children_reads _ _ _ _ _ _ Hr) as Hc.
  pose proof Hr as [Hp Hcs]%reads_node. rewrite elems_eq. cbn [read_tree r_ptr]. simpl in Hp. rewrite Hp.
  cbn [mbind option_bind x_name x_props x_children]. unfold element_children in Hc. simpl in Hc. rewrite Hp in Hc.
  injection Hc as Hc. simpl in Hc. rewrite Hc.
  assert (mapM (read_tree d fuel) (map r_ptr (List.filter r_element cs)) = Some (elems <$> List.filter r_element cs)) as ->;
    [|done].
  apply Forall_filter_elems in Hcs. clear -IH Hcs Hk. induction Hk as [|c l Hc _ IHl]; [done|].
  apply Forall_cons in Hcs as [H1 H2]. simpl. rewrite IH by done. simpl. by rewrite IHl.
Qed.

Definition doc_validate (decls : dtd) (d : doc) : Z :=
  match d_root d ≫= read_tree d (length (d_nodes d)) with
  | Some t => if conforms decls t then 1 else 0
  | None => 0
  end.

#[export] Instance doc_validate_ok : ValidateOk doc_validate.
Proof.
  assert (HR : forall d r, d_root d = Some (r_ptr r) -> reads d r ->
    d_root d ≫= read_tree d (length (d_nodes d)) = Some (elems r)).
  { intros d r -> Hr. simpl. apply read_tree_elems; [done|].
    pose proof (elems_height r). pose proof (doc_depth d r Hr). lia. }
  split; simpl; intros decls d r Hroot Hr; unfold doc_validate; rewrite (HR d r Hroot Hr).
  - by destruct (conforms decls (elems r)).
  - by intros _ ->.
Qed.
