(* ===== verification/InfoMachine.v ===== *)
(** * The information tool on a machine

    The answers that the queries of the library give in a state, and the tool on the
    machine of [TopoMachine]: the document that it builds, and what it prints. *)

From Stdlib Require Import Ascii String.
From stdpp Require Import strings.
From S2P Require Import Prelude Bitops Cpuset Cstring Dynset TopoState Topo TopoDev TopoInit.
From S2P Require Import TopoQuery TopoMachine TopoDevices InfoXml InfoTree InfoValid InfoOutput InfoCheck InfoPrint.
From S2P Require Import InfoDelete InfoBuilt InfoMain InfoComplete InfoDoc.

Section library.
Context `{F : Sysfs} (fuel : nat) (w : world).

(** The answer of a query in the state; the tool reads [err] where there is none. *)
Definition answer {A} (err : A) (m : M world A) : A := match m w with Ok (a, _) => a | Fault _ => err end.

Definition empty_mask : cpu_set_t := replicate 16 0.
Definition mask_answer (q : Z -> option cpu_set_t -> M world (Z * option cpu_set_t)) : Z * cpu_set_t :=
  let '(ret, mask) := answer (-1, None) (q sizeof_cpu_set_t (Some empty_mask)) in (ret, default empty_mask mask).

Definition zero_irq : wayca_irq := mk_wayca_irq 0 0 0 [].

Definition library_info : TopoInfo := {|
  q_packages_in_total := answer (-1) wayca_sc_packages_in_total;
  q_nodes_in_total := answer (-1) wayca_sc_nodes_in_total;
  q_ccls_in_total := answer (-1) wayca_sc_ccls_in_total;
  q_cores_in_total := answer (-1) wayca_sc_cores_in_total;
  q_cpus_in_total := answer (-1) wayca_sc_cpus_in_total;
  q_get_physical_id name id := answer (-1) (wayca_sc_get_physical_id (s2l name) id);
  q_package_node_mask i := mask_answer (wayca_sc_package_node_mask fuel i);
  q_node_ccl_mask i := mask_answer (wayca_sc_node_ccl_mask fuel i);
  q_node_core_mask i := mask_answer (wayca_sc_node_core_mask fuel i);
  q_node_cpu_mask i := mask_answer (wayca_sc_node_cpu_mask fuel i);
  q_ccl_core_mask i := mask_answer (wayca_sc_ccl_core_mask fuel i);
  q_core_cpu_mask i := mask_answer (wayca_sc_core_cpu_mask fuel i);
  q_get_node_mem_size i := let '(ret, size) := answer (-1, None) (wayca_sc_get_node_mem_size i true) in (ret, default 0 size);
  q_get_l1i_size i := answer (-1) (wayca_sc_get_l1i_size fuel i);
  q_get_l1d_size i := answer (-1) (wayca_sc_get_l1d_size fuel i);
  q_get_l2_size i := answer (-1) (wayca_sc_get_l2_size fuel i);
  q_get_l3_size i := answer (-1) (wayca_sc_get_l3_size fuel i);
  q_get_device_list i :=
    let '(ret, _, names) := answer (-1, None, None) (wayca_sc_get_device_list i true true) in (ret, default [] names);
  q_get_device_info name :=
    let '(ret, info) := answer (-1, None) (wayca_sc_get_device_info (Some name) true) in (ret, default zero_device_info info);
  q_get_irq_list :=
    let '(ret, _, irqs) := answer (-1, None, None) (wayca_sc_get_irq_list true true) in (ret, default [] irqs);
  q_get_irq_info irq :=
    let '(ret, info) := answer (-1, None) (wayca_sc_get_irq_info irq true) in (ret, default zero_irq info);
|}.
End library.

Module SmallInfo.
Import SmallMachine.

#[export] Instance info : TopoInfo := library_info 0 ready.

Definition always (n : nat) : bool := true.

(** An index below a small bound is one of the numbers below it. *)
Lemma below_list (P : Z -> Prop) n l : seqZ 0 n = l -> Forall P l -> forall i, 0 <= i < n -> P i.
Proof. intros <- H i Hi. rewrite Forall_forall in H. apply H, elem_of_seqZ. lia. Qed.

Ltac each_below :=
  eapply below_list; [vm_compute; reflexivity|]; repeat (apply Forall_cons_2; [vm_compute; repeat split; done|]);
  apply Forall_nil_2.

Lemma small_ok : answers_ok true true always.
Proof.
  split.
  1-5: vm_compute; repeat split; done.
  1-4: each_below.
  - intros _. each_below.
  - intros _. vm_compute. repeat split; done.
Qed.

Lemma small_divides : divides.
Proof. split; vm_compute; [done|split; done|done]. Qed.

(** A file with an interrupt, and white space between its elements. *)
Definition irq_attrs : list (string * cstring) :=
  [("irq_number", s2l "33"); ("name", s2l "uart"); ("chip_name", s2l "GICv3"); ("type", s2l "level")]%string.

Definition file_tree : rtree :=
  RNode 0 true "System" []
    [RNode 1 false "text" [] []; RNode 2 true "Interrupt" [] [RNode 3 true "IRQ" irq_attrs []]].

Definition file_doc : doc :=
  mk_doc
    [Some (mk_xml_node true "System" [] [1; 2]%nat); Some (mk_xml_node false "text" [] []);
     Some (mk_xml_node true "Interrupt" [] [3]%nat); Some (mk_xml_node true "IRQ" irq_attrs [])] (Some 0%nat).

Definition file_name : cstring := s2l "/tmp/topo.xml".

#[export] Instance env : InfoEnv doc := {|
  e_read_file f := if decide (f = file_name) then Some file_doc else None;
  e_dump _ := Some [];
  e_realpath f := inr (if decide (f = dot) then s2l "/tmp" else f);
  e_open _ := 0;
  e_write _ s := (Z.of_nat (length s), 0);
|}.

Definition no_output : io := mk_io [] [] [].
Definition no_reports : reports := mk_reports false false [].
Definition yes (n : string) : bool := true.
Definition yes2 (n a : string) : bool := true.

Lemma file_reads : reads file_doc file_tree.
Proof. by repeat split. Qed.

Lemma built_document_is_system_tree_witness :
  exists (x : doc) root, build_topo_info true true always = Ok (0, Some x) /\ x_root x = Some root /\
    tree_in (fun _ => True) x root (system_tree true true).
Proof. exact (built_document_is_system_tree true true always small_ok). Defined.

Lemma document_lists_every_cpu_witness :
  exists (x : doc) root t, build_topo_info true true always = Ok (0, Some x) /\ x_root x = Some root /\
    tree_in (fun _ => True) x root t /\ indices "CPU" t ≡ₚ map print_int (seqZ 0 q_cpus_in_total).
Proof. exact (document_lists_every_cpu true true always small_ok small_divides). Defined.

Lemma build_topo_info_refines_witness :
  exists (x : doc) root, build_topo_info true true always = Ok (0, Some x) /\ x_root x = Some root /\
    tree_in (fun _ => True) x root (system_tree true true).
Proof.
  pose proof (build_topo_info_refines (X := doc) always true true) as H.
  rewrite (expect_system true true always small_ok) in H. exact H.
Defined.

Lemma build_topo_info_ends_witness : build_topo_info (X := doc) true true always <> Fault OutOfFuel.
Proof. exact (build_topo_info_ends always true true). Defined.

Lemma small_ranges : InfoRanges.
Proof.
  split; [by vm_compute|by vm_compute|by vm_compute|by vm_compute|by vm_compute|apply Forall_nil_2|]. intros name Hn.
  assert (HF := device_info_ok ready (topo_init_devices (fun _ => eq_refl) start ready ready_eq)
    OnSmallMachine.ready_dense ltac:(by vm_compute) name).
  cbn [q_get_device_info info library_info] in Hn |- *. unfold answer in Hn |- *. rewrite HF in Hn |- *.
  destruct (List.find _ _) as [d|] eqn:E; [|by vm_compute in Hn]. apply List.find_some in E as [Hin _].
  assert (HA : forallb (fun d => (-1 <=? dv_smmu_idx d) && (dv_smmu_idx d <=? UINT8_MAX))
    (infos (w_topo ready) 0 (Z.to_nat (tp_n_nodes (w_topo ready)))) = true) by by vm_compute.
  rewrite forallb_forall in HA. apply HA in Hin. zbool. simpl. lia.
Qed.

Definition verbose_args : topo_info_args := mk_topo_info_args false false true true [] [].

Lemma main_prints_topology_witness :
  exists o', main always 0 6 yes yes2 true true doc_validate [Opt_v] false no_output = Ok (0, o') /\
    io_stdout o' = io_stdout no_output ++ render 0 (system_tree true true) /\ io_files o' = io_files no_output.
Proof.
  apply (main_prints_topology (X := doc) always yes yes2 doc_validate (fun _ => eq_refl) (fun _ _ => eq_refl) 0 6 [Opt_v]
    verbose_args (system_tree true true) no_output); try reflexivity. exact small_ranges.
Defined.

Lemma validated_document_prints_witness :
  exists o', put_topo_info 3 verbose_args file_doc no_output = Ok (0, o') /\
    io_stdout o' = io_stdout no_output ++ render 0 (elems file_tree) /\ io_files o' = io_files no_output.
Proof.
  apply (validated_document_prints (X := doc) yes yes2 doc_validate (fun _ => eq_refl) (fun _ _ => eq_refl) 3 file_doc
    file_tree verbose_args no_reports no_reports no_output); try reflexivity. exact file_reads.
Defined.

Lemma file_deletable : deletable 4 3 file_tree (unwanted false false).
Proof.
  split; [|repeat constructor|vm_compute; lia|vm_compute; lia].
  apply NoDup_ListNoDup. repeat constructor; simpl; lia.
Qed.

Lemma import_drops_unwanted_witness :
  exists x', xml_import_topo_info 4 3 false false file_name = Ok (0, Some x') /\
    x_root x' = x_root file_doc /\ reads x' (drop_all (unwanted false false) file_tree).
Proof.
  apply (import_drops_unwanted (X := doc) 4 3 false false file_name file_doc file_tree); try reflexivity.
  - exact file_reads.
  - exact file_deletable.
Defined.

Definition out_name : cstring := s2l "topo.xml".

Lemma canonicalize_result_witness :
  canonicalize_export_filename (X := doc) out_name = Ok (0, s2l "/tmp/topo.xml").
Proof.
  rewrite (canonicalize_result (X := doc) out_name (s2l "/tmp")); [reflexivity|vm_compute; reflexivity|done|].
  vm_compute. reflexivity.
Defined.

(** What the tool prints for the machine without options. *)
Example small_text :
  (fun r => match r with Ok (ret, o) => Some (ret, string_of_list_ascii (take 60 (io_stdout o))) | Fault _ => None end)
    (main (X := doc) always 0 6 yes yes2 true true doc_validate [] false no_output) =
  Some (0, string_of_list_ascii (take 60 (s2l "System" ++ newline ++ s2l "    Package L#0 P#7" ++ newline ++
    s2l "        NUMANode P#0   mem_size 8192KB   L3_cache NA" ++ newline))).
Proof. vm_compute. reflexivity. Qed.
End SmallInfo.
