(* ===== verification/Spread.v ===== *)
(** * Spreading jobs over CPUs

    [tools/functions.c]: the numbers of the CPUs on which a number of jobs is started,
    spread over clusters or over NUMA nodes. The code computes with [double]s; the ones
    that occur here are not negative and below [2 ^ 32], and a double is a number [d_m] of
    53 bits divided by [2 ^ d_s]. *)

From Stdlib Require Import Ascii String.
From S2P Require Import Prelude Cstring Dynset TopoState InfoXml.

(** ** Doubles *)

Record double := mk_double {
  d_m : Z;
  d_s : Z;
}.

(** The quotient rounded to the nearest integer, halves to the even one. *)
Definition rne (a b : Z) : Z :=
  let q := a / b in
  let r := a mod b in
  if (b <? 2 * r) || ((2 * r =? b) && Z.odd q) then q + 1 else q.

(** The double nearest to [n / d]. *)
Definition round (n d : Z) : double :=
  if n =? 0 then mk_double 0 0
  else
    let k := Z.log2 (n * 2 ^ 64 / d) - 64 in
    let s := 52 - k in
    mk_double (rne (n * 2 ^ s) d) s.

(** The conversion of an [unsigned int] is exact; the quotient of two of them, the
    product with one, the conversion to an integer and [ceil]. *)
Definition ddiv (n d : Z) : outcome double := if d =? 0 then Fault DivByZero else Ok (round n d).
Definition dmul (x : double) (i : Z) : double := round (d_m x * i) (2 ^ d_s x).
Definition dtrunc (x : double) : Z := d_m x / 2 ^ d_s x.
Definition dceil (x : double) : Z := - (- d_m x / 2 ^ d_s x).

(** [(int)x]: undefined outside the range. *)
Definition to_int_of_double (z : Z) : outcome Z := if z <=? INT_MAX then Ok z else Fault SignedOverflow.

(** An [int] result. *)
Definition int_checked (z : Z) : outcome Z :=
  if (- 2 ^ 31 <=? z) && (z <=? INT_MAX) then Ok z else Fault SignedOverflow.

(** ** The functions *)

Definition CORES_PER_CCL : Z := 4.

Definition put (s : cstring) : M cstring unit := modify (fun o => o ++ s).
Definition pure {A} (o : outcome A) : M cstring A := fun s => match o with Ok a => Ok (a, s) | Fault f => Fault f end.

(** The loop over the jobs from [i] on. *)
Fixpoint spread_loop (n_jobs n_cores offset : Z) (delimit : cstring) (n : nat) (i : Z) : M cstring unit :=
  match n with
  | O => mret tt
  | S n =>
    when (negb (i =? 0)) (put delimit);;
    q ← pure (ddiv n_cores n_jobs);
    cpu ← pure (to_int_of_double (dtrunc (dmul q i)));
    put (print_int (to_int (cpu + offset)));;
    i ← pure (int_checked (i + 1));
    spread_loop n_jobs n_cores offset delimit n i
  end.

(** The arguments are [unsigned int]s. *)
Definition print_spreading_cpus (n_jobs n_cores offset : Z) (delimit : cstring) : M cstring unit :=
  if n_cores <? n_jobs then put (s2l "ERROR")
  else spread_loop n_jobs n_cores offset delimit (Z.to_nat n_jobs) 0.

(** The loop over the nodes from [i] on. *)
Fixpoint numas_loop (n_ccls_per_node n_ccls : Z) (delimit : cstring) (n : nat) (i jobs_remaining nodes_remaining : Z)
    : M cstring unit :=
  match n with
  | O => mret tt
  | S n =>
    q ← pure (ddiv jobs_remaining nodes_remaining);
    n_this_jobs ← pure (to_int_of_double (dceil q));
    when (negb (i =? 0)) (put delimit);;
    offset ← pure (o ← int_checked (i * n_ccls_per_node); int_checked (o * CORES_PER_CCL));
    print_spreading_cpus n_this_jobs (to_uint (n_ccls * CORES_PER_CCL)) (to_uint offset) delimit;;
    i ← pure (int_checked (i + 1));
    numas_loop n_ccls_per_node n_ccls delimit n i (to_uint (jobs_remaining - n_this_jobs)) (to_uint (nodes_remaining - 1))
  end.

Definition print_spreading_numas (n_jobs n_nodes n_ccls_per_node n_ccls : Z) (delimit : cstring) : M cstring unit :=
  numas_loop n_ccls_per_node n_ccls delimit (Z.to_nat n_nodes) 0 n_jobs n_nodes.

(** ** The command *)

(** An option of the command with its argument, or one that is unknown. *)
Inductive spread_opt :=
  | SOpt_t (optarg : cstring)
  | SOpt_j (optarg : cstring)
  | SOpt_c (optarg : cstring)
  | SOpt_n (optarg : cstring)
  | SOpt_l (optarg : cstring)
  | SOpt_o (optarg : cstring)
  | SOpt_other.

Record spread_args := mk_spread_args {
  stype : Z;
  n_jobs : Z;
  n_ccls : Z;
  n_nodes : Z;
  n_ccls_per_node : Z;
  offset : Z;
}.

Definition spreading_across_ccls : Z := 0.
Definition spreading_across_numa : Z := 1.
Definition spreading_others : Z := -1.
Definition n_ccls_others : Z := -1.

Definition atoi (s : cstring) : Z := to_int (strtol 10 s).1.1.

Definition spread_init : spread_args := mk_spread_args spreading_others 0 0 0 n_ccls_others 0.

(** [None]: the usage is printed, and the process exits. *)
Fixpoint spread_options (opts : list spread_opt) (a : spread_args) : option spread_args :=
  match opts with
  | [] => Some a
  | o :: opts =>
    match o with
    | SOpt_t s => spread_options opts (mk_spread_args (atoi s) (n_jobs a) (n_ccls a) (n_nodes a) (n_ccls_per_node a) (offset a))
    | SOpt_j s => spread_options opts (mk_spread_args (stype a) (atoi s) (n_ccls a) (n_nodes a) (n_ccls_per_node a) (offset a))
    | SOpt_c s => spread_options opts (mk_spread_args (stype a) (n_jobs a) (atoi s) (n_nodes a) (n_ccls_per_node a) (offset a))
    | SOpt_n s => spread_options opts (mk_spread_args (stype a) (n_jobs a) (n_ccls a) (atoi s) (n_ccls_per_node a) (offset a))
    | SOpt_l s => spread_options opts (mk_spread_args (stype a) (n_jobs a) (n_ccls a) (n_nodes a) (atoi s) (offset a))
    | SOpt_o s => spread_options opts (mk_spread_args (stype a) (n_jobs a) (n_ccls a) (n_nodes a) (n_ccls_per_node a) (atoi s))
    | SOpt_other => None
    end
  end.

Definition comma : cstring := [ascii_of_nat 44].

Definition spread_main (usage : cstring) (opts : list spread_opt) : M cstring unit :=
  match spread_options opts spread_init with
  | None => put usage
  | Some a =>
    if stype a =? spreading_across_ccls then
      n_cores ← pure (int_checked (n_ccls a * CORES_PER_CCL));
      print_spreading_cpus (to_uint (n_jobs a)) (to_uint n_cores) (to_uint (offset a)) comma
    else if stype a =? spreading_across_numa then
      print_spreading_numas (to_uint (n_jobs a)) (to_uint (n_nodes a)) (n_ccls_per_node a) (to_uint (n_ccls a)) comma
    else put usage
  end.

(** ** Rounding *)

Lemma rne_err a b : 0 < b -> - b <= 2 * (rne a b * b - a) <= b.
Proof.
  intros Hb. unfold rne. pose proof (Z.div_mod a b ltac:(lia)). pose proof (Z.mod_pos_bound a b Hb).
  case_if E; lia.
Qed.

(** The scale of a quotient of numbers that are not too large. *)
Lemma round_scale n d k : 0 < d < 2 ^ 64 -> 0 < n -> 0 <= k -> n < d * 2 ^ k -> 53 - k <= d_s (round n d).
Proof.
  intros Hd Hn Hk H. unfold round. destruct (Z.eqb_spec n 0); [lia|]. simpl.
  assert (Z.log2 (n * 2 ^ 64 / d) < 64 + k); [|lia]. apply Z.log2_lt_pow2.
  - apply Z.div_str_pos. lia.
  - apply Z.div_lt_upper_bound; [lia|]. rewrite Z.pow_add_r by lia. nia.
Qed.

Lemma round_scale_le n d : 0 < d <= n -> d_s (round n d) <= 52.
Proof.
  intros Hd. unfold round. destruct (Z.eqb_spec n 0); [lia|]. simpl.
  assert (64 <= Z.log2 (n * 2 ^ 64 / d)); [|lia]. apply Z.log2_le_pow2.
  - apply Z.div_str_pos. lia.
  - apply Z.div_le_lower_bound; [lia|]. nia.
Qed.

Lemma round_err n d : 0 < d -> 0 <= n -> - d <= 2 * (d_m (round n d) * d - n * 2 ^ d_s (round n d)) <= d.
Proof.
  intros Hd Hn. unfold round. destruct (Z.eqb_spec n 0) as [->|]; simpl; [lia|]. by apply rne_err.
Qed.

(** The number of job [i], as the code computes it. *)
Definition spread (n_cores n_jobs i : Z) : Z := dtrunc (dmul (round n_cores n_jobs) i).

Section spread.
Context (c j : Z) (Hj : 0 < j) (Hc : j <= c <= 2 ^ 16).

Notation q := (round c j).

Lemma quotient_scale : 36 <= d_s q <= 52.
Proof using Hj Hc. split; [apply (round_scale c j 17); lia|apply round_scale_le; lia]. Qed.

Lemma quotient_err : 0 < 2 ^ d_s q /\ - j <= 2 * (d_m q * j - c * 2 ^ d_s q) <= j.
Proof using Hj Hc.
  pose proof quotient_scale. split; [apply Z.pow_pos_nonneg; lia|]. apply round_err; lia.
Qed.

Lemma quotient_pos : 0 < d_m q.
Proof using Hj Hc. destruct quotient_err as [H1 H2]. nia. Qed.

Lemma product_scale i : 0 < i < j -> 36 <= d_s (dmul q i).
Proof using Hj Hc.
  intros Hi. pose proof quotient_scale as Hs. destruct quotient_err as [H1 H2]. pose proof quotient_pos as Hm.
  apply (round_scale _ _ 17); [|nia|lia|].
  - split; [done|]. apply Z.pow_lt_mono_r; lia.
  - assert (d_m q * i <= d_m q * j) by nia. assert (c * 2 ^ d_s q <= 2 ^ 16 * 2 ^ d_s q) by nia. nia.
Qed.

Lemma pow_split a b : 0 <= a <= b -> 2 ^ b = 2 ^ a * 2 ^ (b - a).
Proof. intros. rewrite <-Z.pow_add_r by lia. f_equal. lia. Qed.

(** The product is within a millionth of the number that is meant. *)
Lemma product_err i : 0 < i < j ->
  let p := dmul q i in - (j * 2 ^ d_s p) <= 2 ^ 20 * (d_m p * j - c * i * 2 ^ d_s p) <= j * 2 ^ d_s p.
Proof using Hj Hc.
  intros Hi p. pose proof (product_scale i Hi) as Hs'. fold p in Hs'. pose proof quotient_scale as Hs.
  destruct quotient_err as [H1 H2]. pose proof quotient_pos as Hm.
  pose proof (round_err (d_m q * i) (2 ^ d_s q) H1 ltac:(nia)) as H3. fold (dmul q i) in H3. fold p in H3.
  set (S := 2 ^ d_s q) in *. set (S' := 2 ^ d_s p) in *.
  assert (HS : exists a, S = 2 ^ 36 * a /\ 0 < a).
  { exists (2 ^ (d_s q - 36)). split; [apply pow_split; lia|]. apply Z.pow_pos_nonneg; lia. }
  assert (HS' : exists b, S' = 2 ^ 36 * b /\ 0 < b).
  { exists (2 ^ (d_s p - 36)). split; [apply pow_split; lia|]. apply Z.pow_pos_nonneg; lia. }
  destruct HS as (a & Ea & Ha), HS' as (b & Eb & Hb).
  (* multiply by [S] *)
  assert (E : S * (d_m p * j - c * i * S') = j * (d_m p * S - d_m q * i * S') + i * S' * (d_m q * j - c * S)) by ring.
  assert (B1 : - (j * S) <= 2 * (j * (d_m p * S - d_m q * i * S')) <= j * S) by nia.
  assert (B2 : - (i * S' * j) <= 2 * (i * S' * (d_m q * j - c * S)) <= i * S' * j) by nia.
  assert (B3 : 2 ^ 20 * (j * S) <= j * S * S') by nia.
  assert (B4 : 2 ^ 20 * (i * S' * j) <= j * S * S') by nia.
  assert (B5 : - (S * (j * S')) <= S * (2 ^ 20 * (d_m p * j - c * i * S')) <= S * (j * S')) by lia.
  clear - B5 H1. nia.
Qed.

(** As many jobs as cores: every product is exact. *)
Lemma spread_exact i : j = c -> 0 <= i < j -> spread c j i = i.
Proof using Hj Hc.
  intros E Hi. unfold spread, dtrunc. destruct (Z.eqb_spec i 0) as [->|Hi0].
  { unfold dmul. by rewrite Z.mul_0_r. }
  pose proof (product_scale i ltac:(lia)) as Hs'. pose proof quotient_scale as Hs.
  destruct quotient_err as [H1 H2]. pose proof quotient_pos as Hm.
  pose proof (round_err (d_m q * i) (2 ^ d_s q) H1 ltac:(nia)) as H3. fold (dmul q i) in H3.
  assert (Eq : d_m q = 2 ^ d_s q) by (rewrite E in *; nia).
  rewrite Eq in H3. assert (Ep : d_m (dmul q i) = i * 2 ^ d_s (dmul q i)) by nia.
  rewrite Ep. apply Z.div_mul. pose proof (Z.pow_pos_nonneg 2 (d_s (dmul q i))). lia.
Qed.

(** The number of a job is the integer part of its share, up to a millionth. *)
Lemma spread_near i : 0 <= i < j ->
  spread c j i * j * 2 ^ 20 <= c * i * 2 ^ 20 + j /\ c * i * 2 ^ 20 - j < (spread c j i + 1) * j * 2 ^ 20.
Proof using Hj Hc.
  intros Hi. unfold spread, dtrunc. destruct (Z.eqb_spec i 0) as [->|Hi0].
  { unfold dmul. rewrite Z.mul_0_r. simpl. rewrite Z.div_1_r. lia. }
  pose proof (product_scale i ltac:(lia)) as Hs'. pose proof (product_err i ltac:(lia)) as HE. cbv zeta in HE.
  set (p := dmul q i) in *. pose proof (Z.pow_pos_nonneg 2 (d_s p) ltac:(lia) ltac:(lia)) as HP.
  pose proof (Z.div_mod (d_m p) (2 ^ d_s p) ltac:(lia)) as Hd. pose proof (Z.mod_pos_bound (d_m p) (2 ^ d_s p) HP) as Hr.
  set (t := d_m p / 2 ^ d_s p) in *. set (S := 2 ^ d_s p) in *. set (r := d_m p mod S) in *.
  assert (T1 : t * j * S <= d_m p * j) by nia. assert (T2 : d_m p * j < (t + 1) * j * S) by nia.
  clear Hd Hr. split.
  - assert (S * (t * j * 2 ^ 20) <= S * (c * i * 2 ^ 20 + j)) by lia. clear - H HP. nia.
  - assert (S * (c * i * 2 ^ 20 - j) < S * ((t + 1) * j * 2 ^ 20)) by lia. clear - H HP. nia.
Qed.

(** The jobs are on CPUs of their own, in increasing order. *)
Lemma spread_increases i : 0 <= i -> i + 1 < j -> spread c j i < spread c j (i + 1).
Proof using Hj Hc.
  intros Hi Hi1. destruct (decide (j = c)) as [E|E]; [rewrite !spread_exact by lia; lia|].
  destruct (spread_near i ltac:(lia)) as [A _]. destruct (spread_near (i + 1) ltac:(lia)) as [_ B].
  set (t := spread c j i) in *. set (u := spread c j (i + 1)) in *.
  assert (H : j * 2 ^ 20 < (u + 1 - t) * (j * 2 ^ 20)) by lia. clear - H Hj. nia.
Qed.

Lemma spread_range i : 0 <= i < j -> 0 <= spread c j i < c.
Proof using Hj Hc.
  intros Hi. destruct (decide (j = c)) as [E|E]; [rewrite spread_exact by lia; lia|].
  destruct (spread_near i Hi) as [A B]. split.
  - assert (0 < (spread c j i + 1) * (j * 2 ^ 20) \/ i = 0) as [H| ->]; [|clear - H Hj; nia|].
    + destruct (Z.eqb_spec i 0); [by right|left]. nia.
    + unfold spread, dmul, dtrunc. by rewrite Z.mul_0_r.
  - assert (H : spread c j i * (j * 2 ^ 20) < c * (j * 2 ^ 20)) by nia. clear - H Hj. nia.
Qed.
End spread.

(** [ceil] of a quotient of [unsigned int]s is exact. *)
Lemma dceil_exact a b g : 0 <= a < 2 ^ 32 -> 0 < b < 2 ^ 32 -> (g - 1) * b < a <= g * b -> dceil (round a b) = g.
Proof.
  intros Ha Hb Hg. destruct (decide (a = 0)) as [->|Ha0].
  { assert (g = 0) by nia. subst. done. }
  assert (Hs : 21 <= d_s (round a b)) by (apply (round_scale a b 32); lia).
  assert (HS : b * 2 ^ 52 <= a * 2 ^ d_s (round a b)).
  { revert Hs. unfold round. destruct (Z.eqb_spec a 0); [lia|]. cbn [d_s]. set (l := Z.log2 (a * 2 ^ 64 / b)). intros Hs.
    assert (Hl : 0 <= l) by apply Z.log2_nonneg.
    assert (Hp : 2 ^ l <= a * 2 ^ 64 / b) by (apply Z.log2_spec, Z.div_str_pos; lia).
    assert (H : b * 2 ^ l <= a * 2 ^ 64).
    { etransitivity; [apply Z.mul_le_mono_nonneg_l; [lia|exact Hp]|]. apply Z.mul_div_le. lia. }
    assert (E : 2 ^ l * 2 ^ (52 - (l - 64)) = 2 ^ 52 * 2 ^ 64) by (rewrite <-!Z.pow_add_r by lia; f_equal; lia).
    pose proof (Z.pow_pos_nonneg 2 (52 - (l - 64)) ltac:(lia) ltac:(lia)) as HP.
    assert (b * 2 ^ l * 2 ^ (52 - (l - 64)) <= a * 2 ^ 64 * 2 ^ (52 - (l - 64))) by nia. nia. }
  pose proof (round_err a b ltac:(lia) ltac:(lia)) as HE. unfold dceil.
  set (m := d_m (round a b)) in *. set (S := 2 ^ d_s (round a b)) in *.
  assert (HP : 0 < S) by (apply Z.pow_pos_nonneg; lia).
  assert (Hup : m <= g * S).
  { assert (2 * m * b <= 2 * g * b * S + b) by nia. nia. }
  assert (Hlo : (g - 1) * S < m).
  { assert (HSb : b < S) by nia. assert (((g - 1) * b + 1) * S <= a * S) by nia. nia. }
  pose proof (Z.div_mod (- m) S ltac:(lia)). pose proof (Z.mod_pos_bound (- m) S HP). nia.
Qed.

(** ** What is printed *)

(** Strings with a delimiter between them. *)
Fixpoint join (delimit : cstring) (l : list cstring) : cstring :=
  match l with
  | [] => []
  | [s] => s
  | s :: l => s ++ delimit ++ join delimit l
  end.

(** The CPUs of the jobs. *)
Definition spread_cpus (n_jobs n_cores offset : Z) : list Z :=
  map (fun i => spread n_cores n_jobs i + offset) (seqZ 0 n_jobs).

Lemma spread_loop_text j c o delimit n i out :
  0 < j <= c -> c <= 2 ^ 16 -> 0 <= o -> o + c <= 2 ^ 31 -> 0 <= i -> i + Z.of_nat n = j ->
  spread_loop j c o delimit n i out =
  Ok (tt, out ++ concat (map (fun i => (if i =? 0 then [] else delimit) ++ print_int (spread c j i + o)) (seqZ i (Z.of_nat n)))).
Proof.
  intros Hj Hc Ho Hoc. revert i out. induction n as [|n IH]; intros i out Hi Hn.
  { simpl. by rewrite app_nil_r. }
  cbn [spread_loop]. unfold mbind, M_bind, when, pure, put, modify, mret, M_ret.
  assert (Hr : 0 <= spread c j i < c) by (apply spread_range; lia).
  assert (E1 : ddiv c j = Ok (round c j)) by (unfold ddiv; by destruct (Z.eqb_spec j 0); [lia|]).
  assert (E2 : to_int_of_double (dtrunc (dmul (round c j) i)) = Ok (spread c j i)).
  { unfold to_int_of_double, INT_MAX. fold (spread c j i). by destruct (Z.leb_spec (spread c j i) (2 ^ 31 - 1)); [|lia]. }
  assert (E3 : int_checked (i + 1) = Ok (i + 1)).
  { unfold int_checked, INT_MAX. destruct (Z.leb_spec (- 2 ^ 31) (i + 1)); [|lia]. by destruct (Z.leb_spec (i + 1) (2 ^ 31 - 1)); [|lia]. }
  rewrite seqZ_cons by lia. replace (Z.pred (Z.of_nat (S n))) with (Z.of_nat n) by lia. cbn [map concat].
  destruct (i =? 0); cbn [negb]; rewrite E1, E2, (to_int_id (spread c j i + o)), E3 by lia; rewrite IH by lia;
    by rewrite <-!app_assoc.
Qed.

Lemma join_cons delimit s l : join delimit (s :: l) = s ++ concat (map (fun t => delimit ++ t) l).
Proof.
  revert s. induction l as [|t l IH]; intros s; [by rewrite app_nil_r|].
  change (join delimit (s :: t :: l)) with (s ++ delimit ++ join delimit (t :: l)). rewrite IH. simpl.
  by rewrite <-app_assoc.
Qed.

Lemma concat_join (f : Z -> cstring) delimit n :
  concat (map (fun i => (if i =? 0 then [] else delimit) ++ f i) (seqZ 0 n)) = join delimit (map f (seqZ 0 n)).
Proof.
  destruct (Z.leb_spec n 0); [by rewrite seqZ_nil by lia|]. rewrite seqZ_cons by lia. cbn [map concat]. simpl app.
  assert (H1 : forall k m, 0 < m -> concat (map (fun i => (if i =? 0 then [] else delimit) ++ f i) (seqZ m (Z.of_nat k))) =
    concat (map (fun s => delimit ++ s) (map f (seqZ m (Z.of_nat k))))).
  { induction k as [|k IH]; intros m Hm; [done|]. rewrite seqZ_cons by lia.
    replace (Z.pred (Z.of_nat (S k))) with (Z.of_nat k) by lia. cbn [map concat].
    destruct (Z.eqb_spec m 0); [lia|]. by rewrite IH by lia. }
  rewrite <-(Z2Nat.id (Z.pred n)) by lia. rewrite H1 by lia.
  by rewrite join_cons.
Qed.

Lemma spread_cpus_sorted j c o : 0 <= j <= c -> c <= 2 ^ 16 ->
  StronglySorted Z.lt (spread_cpus j c o) /\ Forall (fun x => o <= x < o + c) (spread_cpus j c o).
Proof.
  intros Hj Hc. split.
  - apply Sorted_StronglySorted; [intros ???; lia|]. unfold spread_cpus.
    assert (H : forall n i, 0 <= i -> i + Z.of_nat n = j -> Sorted Z.lt (map (fun i => spread c j i + o) (seqZ i (Z.of_nat n)))).
    { induction n as [|n IH]; intros i Hi Hn; [constructor|]. rewrite seqZ_cons by lia.
      replace (Z.pred (Z.of_nat (S n))) with (Z.of_nat n) by lia. cbn [map]. constructor; [apply IH; lia|].
      destruct n as [|n]; [constructor|]. rewrite seqZ_cons by lia. cbn [map]. constructor.
      pose proof (spread_increases c j ltac:(lia) ltac:(lia) i Hi ltac:(lia)). replace (Z.succ i) with (i + 1) by lia. lia. }
    replace (seqZ 0 j) with (seqZ 0 (Z.of_nat (Z.to_nat j))) by (f_equal; lia). apply H; lia.
  - apply List.Forall_map, Forall_forall. intros i Hi%elem_of_seqZ.
    pose proof (spread_range c j ltac:(lia) ltac:(lia) i ltac:(lia)). lia.
Qed.

Lemma print_spreading_text j c o delimit out :
  0 <= j <= c -> c <= 2 ^ 16 -> 0 <= o -> o + c <= 2 ^ 31 ->
  print_spreading_cpus j c o delimit out = Ok (tt, out ++ join delimit (map print_int (spread_cpus j c o))).
Proof.
  intros Hj Hc Ho Hoc. unfold print_spreading_cpus. destruct (Z.ltb_spec c j); [lia|].
  unfold spread_cpus. rewrite map_map, <-concat_join. destruct (Z.eqb_spec j 0) as [->|]; [by rewrite app_nil_r|].
  rewrite spread_loop_text by lia. by rewrite Z2Nat.id by lia.
Qed.

(** ** Spreading over nodes *)

(** [ceil(a / b)] *)
Definition zceil (a b : Z) : Z := - (- a / b).

Lemma zceil_spec a b : 0 < b -> (zceil a b - 1) * b < a <= zceil a b * b.
Proof. intros Hb. unfold zceil. pose proof (Z.div_mod (- a) b ltac:(lia)). pose proof (Z.mod_pos_bound (- a) b Hb). nia. Qed.

(** The numbers of jobs of the nodes. *)
Fixpoint shares (n : nat) (jobs : Z) : list Z :=
  match n with
  | O => []
  | S n' => zceil jobs (Z.of_nat n) :: shares n' (jobs - zceil jobs (Z.of_nat n))
  end.

(** Between two bounds that [n] nodes can hold, every node gets one of them. *)
Lemma share_step n jobs b : 0 <= b -> b * Z.of_nat (S n) <= jobs <= (b + 1) * Z.of_nat (S n) ->
  b <= zceil jobs (Z.of_nat (S n)) <= b + 1 /\
  b * Z.of_nat n <= jobs - zceil jobs (Z.of_nat (S n)) <= (b + 1) * Z.of_nat n.
Proof. intros Hb Hj. pose proof (zceil_spec jobs (Z.of_nat (S n)) ltac:(lia)) as H. nia. Qed.

Lemma shares_even n jobs b : 0 <= b -> b * Z.of_nat n <= jobs <= (b + 1) * Z.of_nat n ->
  length (shares n jobs) = n /\ sumZ (shares n jobs) = jobs /\ Forall (fun t => b <= t <= b + 1) (shares n jobs).
Proof.
  intros Hb. revert jobs. induction n as [|n IH]; intros jobs Hj; [simpl in *; split; [done|split; [lia|constructor]]|].
  destruct (share_step n jobs b Hb Hj) as [H1 H2]. destruct (IH _ H2) as (Hl & Hs & Hf).
  cbn [shares length sumZ foldr]. rewrite Hl. unfold sumZ in *. simpl. rewrite Hs. split; [done|]. split; [lia|]. by constructor.
Qed.

(** The CPUs of the nodes from [i] on. *)
Fixpoint node_cpus (per ccls : Z) (l : list Z) (i : Z) : list (list Z) :=
  match l with
  | [] => []
  | t :: l => spread_cpus t (ccls * CORES_PER_CCL) (i * per * CORES_PER_CCL) :: node_cpus per ccls l (i + 1)
  end.

Definition numa_text (delimit : cstring) (cs : list Z) : cstring := join delimit (map print_int cs).

Fixpoint nodes_text (delimit : cstring) (first : bool) (css : list (list Z)) : cstring :=
  match css with
  | [] => []
  | cs :: css => (if first then [] else delimit) ++ numa_text delimit cs ++ nodes_text delimit false css
  end.

Lemma nodes_text_join delimit css : nodes_text delimit true css = join delimit (map (numa_text delimit) css).
Proof.
  destruct css as [|cs css]; [done|]. cbn [nodes_text map]. rewrite join_cons. simpl. f_equal.
  induction css as [|d css IH]; [done|]. cbn [nodes_text map concat]. by rewrite <-app_assoc, IH.
Qed.

Lemma int_checked_ok z : - 2 ^ 31 <= z < 2 ^ 31 -> int_checked z = Ok z.
Proof.
  intros H. unfold int_checked, INT_MAX. destruct (Z.leb_spec (- 2 ^ 31) z); [|lia].
  by destruct (Z.leb_spec z (2 ^ 31 - 1)); [|lia].
Qed.

Lemma to_uint_id z : 0 <= z < 2 ^ 32 -> to_uint z = z.
Proof. apply Z.mod_small. Qed.

Lemma numas_loop_text per ccls delimit b n i jobs out :
  0 <= b < ccls * CORES_PER_CCL -> ccls * CORES_PER_CCL <= 2 ^ 16 -> ccls <= per -> 0 <= i ->
  (i + Z.of_nat n) * per * CORES_PER_CCL < 2 ^ 31 -> 0 <= jobs < 2 ^ 31 ->
  b * Z.of_nat n <= jobs <= (b + 1) * Z.of_nat n ->
  numas_loop per ccls delimit n i jobs (Z.of_nat n) out =
  Ok (tt, out ++ nodes_text delimit (i =? 0) (node_cpus per ccls (shares n jobs) i)).
Proof.
  unfold CORES_PER_CCL. intros Hb Hc Hp. revert i jobs out. induction n as [|n IH]; intros i jobs out Hi Hr Hj Hs.
  { simpl. by rewrite app_nil_r. }
  destruct (share_step n jobs b ltac:(lia) Hs) as [H1 H2].
  assert (Hper : 1 <= per) by lia. assert (Hin : i + Z.of_nat (S n) < 2 ^ 29) by nia.
  assert (Hip : 0 <= i * per /\ i * per * 4 + per * 4 < 2 ^ 31) by nia.
  cbn [numas_loop]. unfold mbind, M_bind, pure, CORES_PER_CCL.
  assert (E1 : ddiv jobs (Z.of_nat (S n)) = Ok (round jobs (Z.of_nat (S n)))).
  { unfold ddiv. by destruct (Z.eqb_spec (Z.of_nat (S n)) 0); [lia|]. }
  assert (E2 : to_int_of_double (dceil (round jobs (Z.of_nat (S n)))) = Ok (zceil jobs (Z.of_nat (S n)))).
  { rewrite (dceil_exact _ _ (zceil jobs (Z.of_nat (S n)))); [|lia|lia|apply zceil_spec; lia].
    unfold to_int_of_double, INT_MAX. by destruct (Z.leb_spec (zceil jobs (Z.of_nat (S n))) (2 ^ 31 - 1)); [|lia]. }
  rewrite E1, E2. cbn [shares node_cpus nodes_text]. set (t := zceil jobs (Z.of_nat (S n))) in *.
  assert (E3 : forall o, (if negb (i =? 0) then put delimit else mret tt) o = Ok (tt, o ++ (if i =? 0 then [] else delimit))).
  { intros o. destruct (i =? 0); [|done]. by rewrite app_nil_r. }
  unfold when. rewrite E3. unfold outcome_bind. rewrite (int_checked_ok (i * per)) by lia.
  rewrite (int_checked_ok (i * per * 4)) by lia. rewrite !to_uint_id by lia.
  rewrite print_spreading_text by lia. rewrite int_checked_ok by lia.
  replace (Z.of_nat (S n) - 1) with (Z.of_nat n) by lia. rewrite IH by (clear - H1 H2 Hi Hr Hj Hs Hb; lia).
  destruct (Z.eqb_spec (i + 1) 0); [lia|]. by rewrite <-!app_assoc.
Qed.

Lemma node_cpus_lookup per ccls l i k cs :
  node_cpus per ccls l i !! k = Some cs ->
  exists t, l !! k = Some t /\ cs = spread_cpus t (ccls * CORES_PER_CCL) ((i + Z.of_nat k) * per * CORES_PER_CCL).
Proof.
  revert i k. induction l as [|t l IH]; intros i [|k] H; simpl in H; try done.
  - injection H as <-. exists t. by rewrite Z.add_0_r.
  - apply IH in H as (t' & H1 & ->). exists t'. split; [done|]. do 2 f_equal. lia.
Qed.

Lemma node_cpus_lengths per ccls l i : Forall (fun t => 0 <= t) l ->
  map (fun cs => Z.of_nat (length cs)) (node_cpus per ccls l i) = l.
Proof.
  intros H. revert i. induction H as [|t l Ht _ IH]; intros i; [done|]. simpl. rewrite IH. f_equal.
  unfold spread_cpus. rewrite length_map, length_seqZ. lia.
Qed.

(** C19. Jobs are spread over nodes evenly, and no two of them share a CPU: every node
    gets its part of the jobs, rounded down or up, they add up to all jobs, and the CPUs
    of a node are different ones in the clusters that may be used. What is printed is
    the list of these CPUs, although they are computed with floating-point numbers. *)
Theorem numas_spread_evenly n_jobs n_nodes per ccls delimit out :
  0 < n_nodes -> 0 <= n_jobs <= n_nodes * (ccls * CORES_PER_CCL) -> 0 < ccls <= per ->
  ccls * CORES_PER_CCL <= 2 ^ 16 -> n_nodes * per * CORES_PER_CCL < 2 ^ 31 ->
  exists css,
    print_spreading_numas n_jobs n_nodes per ccls delimit out =
      Ok (tt, out ++ join delimit (map (numa_text delimit) css)) /\
    Z.of_nat (length css) = n_nodes /\ sumZ (map (fun cs => Z.of_nat (length cs)) css) = n_jobs /\
    Forall (fun cs => n_jobs / n_nodes <= Z.of_nat (length cs) <= n_jobs / n_nodes + 1) css /\
    forall k cs, css !! k = Some cs ->
      StronglySorted Z.lt cs /\
      Forall (fun cpu => Z.of_nat k * per * CORES_PER_CCL <= cpu < Z.of_nat k * per * CORES_PER_CCL + ccls * CORES_PER_CCL) cs.
Proof.
  intros Hn Hj Hc Hcc Hp. unfold print_spreading_numas.
  set (n := Z.to_nat n_nodes). assert (En : n_nodes = Z.of_nat n) by lia.
  set (cap := ccls * CORES_PER_CCL) in *. assert (Hcap : 1 <= cap) by (unfold cap, CORES_PER_CCL; lia).
  pose proof (Z.div_mod n_jobs n_nodes ltac:(lia)) as Hdm. pose proof (Z.mod_pos_bound n_jobs n_nodes ltac:(lia)) as Hmb.
  assert (Hd0 : 0 <= n_jobs / n_nodes) by (apply Z.div_pos; lia).
  assert (Hb : exists b, 0 <= b < cap /\ b * n_nodes <= n_jobs <= (b + 1) * n_nodes).
  { destruct (decide (n_jobs / n_nodes < cap)); [exists (n_jobs / n_nodes)|exists (cap - 1)]; nia. }
  destruct Hb as (b & Hb & Hbj). exists (node_cpus per ccls (shares n n_jobs) 0).
  destruct (shares_even n n_jobs (n_jobs / n_nodes) ltac:(lia) ltac:(nia)) as (Hl & Hs & Hf).
  destruct (shares_even n n_jobs b ltac:(lia) ltac:(lia)) as (_ & _ & Hg).
  assert (Hpos : Forall (fun t => 0 <= t) (shares n n_jobs)) by (apply (Forall_impl _ _ _ Hf); intros; lia).
  pose proof (node_cpus_lengths per ccls _ 0 Hpos) as Hlen. split_and!.
  - rewrite <-nodes_text_join, En. apply (numas_loop_text per ccls delimit b n 0); unfold CORES_PER_CCL in *; nia.
  - apply (f_equal length) in Hlen. rewrite length_map, Hl in Hlen. lia.
  - by rewrite Hlen.
  - rewrite <-Hlen in Hf. by apply List.Forall_map in Hf.
  - intros k cs (t & Ht & ->)%node_cpus_lookup. rewrite Forall_lookup in Hg. specialize (Hg k t Ht).
    apply spread_cpus_sorted; lia.
Qed.

Module Kunpeng.
(** Ten jobs on two nodes with two of the six clusters of each. *)
Lemma numas_spread_evenly_witness :
  exists css,
    print_spreading_numas 10 2 6 2 comma [] = Ok (tt, [] ++ join comma (map (numa_text comma) css)) /\
    Z.of_nat (length css) = 2 /\ sumZ (map (fun cs => Z.of_nat (length cs)) css) = 10 /\
    Forall (fun cs => 10 / 2 <= Z.of_nat (length cs) <= 10 / 2 + 1) css /\
    forall k cs, css !! k = Some cs ->
      StronglySorted Z.lt cs /\
      Forall (fun cpu => Z.of_nat k * 6 * CORES_PER_CCL <= cpu < Z.of_nat k * 6 * CORES_PER_CCL + 2 * CORES_PER_CCL) cs.
Proof. apply (numas_spread_evenly 10 2 6 2 comma []); unfold CORES_PER_CCL; lia. Defined.

Example ten_jobs :
  print_spreading_numas 10 2 6 2 comma [] = Ok (tt, s2l "0,1,3,4,6,24,25,27,28,30").
Proof. vm_compute. reflexivity. Qed.

(** Nodes without a job still get a delimiter. *)
Example one_job : print_spreading_numas 1 4 6 2 comma [] = Ok (tt, s2l "0,,,").
Proof. vm_compute. reflexivity. Qed.

(** The offset is read and not used when jobs are spread over nodes. *)
Example offset_ignored :
  spread_main [] [SOpt_t (s2l "1"); SOpt_j (s2l "2"); SOpt_n (s2l "2"); SOpt_l (s2l "6"); SOpt_c (s2l "1"); SOpt_o (s2l "48")] [] =
  Ok (tt, s2l "0,24").
Proof. vm_compute. reflexivity. Qed.

(** A share that is a whole number can be rounded down: job 11 of 22 on 30 cores starts on
    CPU 14 and not on CPU 15. *)
Example rounded_down : spread 30 22 11 = 14 /\ 30 * 11 / 22 = 15.
Proof. vm_compute. done. Qed.
End Kunpeng.
