(* ===== verification/Perf.v ===== *)
(** * Performance counters

    [perf.c]: [perf_stat] runs the tool perf for five seconds and reads the counters
    from its output; the second call compares them with those of the first. The
    output of perf is an argument, and so are the results of [pipe], [fork] and
    [execl]. The percentages are given by their operands. *)

From Stdlib Require Import Ascii String.
From S2P Require Import Prelude Cstring TopoState.

Definition MAX_PERF_COUNT : nat := 30.
Definition NAME_WIDTH : nat := 30.

(** struct perf_count *)
Record perf_count := mk_perf_count {
  pc_name : cstring;
  pc_value : Z;
}.

(** The arrays [old] and [new]. *)
Record perf := mk_perf {
  p_old : list perf_count;
  p_new : list perf_count;
}.
Definition no_counts : list perf_count := replicate MAX_PERF_COUNT (mk_perf_count [] 0).
Definition perf_start : perf := mk_perf no_counts no_counts.

(** ** Conversions of [scanf] *)

(** [%lld]: the value, or nothing when there is no number; and the rest. *)
Definition scan_lld (s : cstring) : option Z * cstring :=
  let '(sign, s2) := number_sign (skip_space s) in
  if starts_digit 10 s2 then
    let '(v, rest) := digits 10 0 s2 in
    let v := match sign with c :: _ => if code c =? 45 then - v else v | [] => v end in
    (Some (Z.max (- 2 ^ 63) (Z.min v (2 ^ 63 - 1))), rest)
  else (None, s2).

(** The characters up to a white space, [n] at most. *)
Fixpoint take_word (n : nat) (s : cstring) : cstring * cstring :=
  match n, s with
  | S n, c :: s' =>
    if isspace c then ([], s) else let '(w, rest) := take_word n s' in (c :: w, rest)
  | _, _ => ([], s)
  end.

(** [%30s]: nothing at the end of the input. *)
Definition scan_word (s : cstring) : option (cstring * cstring) :=
  match skip_space s with
  | [] => None
  | s => Some (take_word NAME_WIDTH s)
  end.

Fixpoint skip_line (s : cstring) : cstring :=
  match s with
  | c :: s' => if code c =? 10 then s else skip_line s'
  | [] => []
  end.

(** [%*[^\n]%*c]: a line and the character that ends it; an empty line stays. *)
Definition scan_rest (s : cstring) : cstring :=
  match s with
  | c :: _ => if code c =? 10 then s else drop 1 (skip_line s)
  | [] => []
  end.

(** What [scanf("%lld%30s%*[^\n]%*c", ...)] returns, stores and leaves. *)
Inductive scanned :=
  | SEnd  (* -1 *)
  | SNone (rest : cstring)  (* 0 *)
  | SValue (v : Z)  (* 1, at the end of the input *)
  | SCount (v : Z) (name rest : cstring).  (* 2 *)

Definition scan_count (s : cstring) : scanned :=
  match skip_space s with
  | [] => SEnd
  | _ =>
    match scan_lld s with
    | (None, rest) => SNone rest
    | (Some v, rest) =>
      match scan_word rest with
      | None => SValue v
      | Some (name, rest) => SCount v name (scan_rest rest)
      end
    end
  end.

(** ** The loop that reads *)

Definition set_value (l : list perf_count) (i : nat) (v : Z) : list perf_count :=
  alter (fun c => mk_perf_count (pc_name c) v) i l.

(** The number of counters, and the array. *)
Fixpoint read_counts (fuel : nat) (s : cstring) (i : nat) (l : list perf_count)
    : outcome (nat * list perf_count) :=
  if (MAX_PERF_COUNT <=? i)%nat then Ok (i, l) else
  match fuel with
  | O => Fault OutOfFuel
  | S fuel =>
    match scan_count s with
    | SEnd => Ok (i, l)
    | SNone rest => read_counts fuel (scan_rest rest) i l
    | SValue v => read_counts fuel [] i (set_value l i v)
    | SCount v name rest => read_counts fuel rest (S i) (<[i := mk_perf_count name v]> l)
    end
  end.

(** ** The report *)

(** A line with the old and the new value, or with the old and new numbers of
    instructions and of cycles. *)
Inductive report :=
  | Change (name : cstring) (old new : Z)
  | Ipc (old_instructions old_cycles new_instructions new_cycles : Z).

Definition instructions : cstring := s2l "instructions"%string.

Definition count_at (l : list perf_count) (j : Z) : outcome perf_count :=
  if j <? 0 then Fault OutOfBounds
  else match l !! Z.to_nat j with Some c => Ok c | None => Fault OutOfBounds end.

(** [for (j = 0; j < i; j++)]: the lines from [j] on. *)
Fixpoint report_lines (fuel : nat) (p : perf) (i j : Z) : outcome (list report) :=
  if i <=? j then Ok [] else
  match fuel with
  | O => Fault OutOfFuel
  | S fuel =>
    o ← count_at (p_old p) j;
    n ← count_at (p_new p) j;
    match strstr (pc_name o) instructions with
    | None =>
      rest ← report_lines fuel p i (j + 1);
      Ok (Change (pc_name o) (pc_value o) (pc_value n) :: rest)
    | Some _ =>
      o1 ← count_at (p_old p) (j - 1);
      n1 ← count_at (p_new p) (j - 1);
      rest ← report_lines fuel p i (j + 2);
      Ok (Change (pc_name o) (pc_value o) (pc_value n)
          :: Ipc (pc_value o) (pc_value o1) (pc_value n) (pc_value n1) :: rest)
    end
  end.

(** ** The whole function *)

Inductive process := Parent | Child.

(** [fork_pid] is the result of [fork]; the child returns only when [execl] fails. *)
Definition perf_stat (start : bool) (pipe_ok : bool) (fork_pid : Z) (text : cstring) (p : perf)
    : outcome (Z * process * list report * perf) :=
  if negb pipe_ok then Ok (-1, Parent, [], p)
  else if fork_pid =? -1 then Ok (-1, Parent, [], p)
  else if fork_pid =? 0 then Ok (0, Child, [], p)
  else
    r ← read_counts (S (length text)) text 0 (if start then p_old p else p_new p);
    let p := if start then mk_perf r.2 (p_new p) else mk_perf (p_old p) r.2 in
    lines ← if start then Ok [] else report_lines (S r.1) p (Z.of_nat r.1) 0;
    Ok (0, Parent, lines, p).

(** ** The loop ends *)

Lemma skip_space_length s : (length (skip_space s) <= length s)%nat.
Proof. induction s as [|c s IH]; simpl; [done|]. destruct (isspace c); simpl; lia. Qed.

Lemma skip_line_length s : (length (skip_line s) <= length s)%nat.
Proof. induction s as [|c s IH]; simpl; [done|]. destruct (code c =? 10); simpl; lia. Qed.

Lemma scan_rest_length s : (length (scan_rest s) <= length s)%nat.
Proof.
  destruct s as [|c s]; [done|]. cbn [scan_rest]. destruct (code c =? 10) eqn:E; [done|].
  cbn [skip_line]. rewrite E, length_drop. pose proof (skip_line_length s). simpl. lia.
Qed.

Lemma take_word_length n s : (length (take_word n s).2 <= length s)%nat.
Proof.
  revert s. induction n as [|n IH]; intros [|c s]; simpl; [done..|].
  destruct (isspace c); [done|]. specialize (IH s). destruct (take_word n s). simpl in *. lia.
Qed.

Lemma digits_length b acc s : (length (digits b acc s).2 <= length s)%nat.
Proof.
  revert acc. induction s as [|c s IH]; intros acc; simpl; [done|].
  destruct (digit_val b c); [|done]. pose proof (IH (acc * b + z)). lia.
Qed.

Lemma digits_starts b acc s : starts_digit b s = true -> (length (digits b acc s).2 < length s)%nat.
Proof.
  destruct s as [|c s]; [done|]. simpl. destruct (digit_val b c) as [d|]; [|done]. intros _.
  pose proof (digits_length b (acc * b + d) s). lia.
Qed.

Lemma skip_space_head s c s' : skip_space s = c :: s' -> isspace c = false.
Proof.
  induction s as [|d s IH]; simpl; [done|]. destruct (isspace d) eqn:E; [done|]. by intros [= -> ->].
Qed.

(** A turn of the loop consumes a character, or the input is at its end. *)
Lemma scan_count_consumes s :
  match scan_count s with
  | SEnd => True
  | SNone rest => (length (scan_rest rest) < length s)%nat
  | SValue _ => (0 < length s)%nat
  | SCount _ _ rest => (length rest < length s)%nat
  end.
Proof.
  unfold scan_count, scan_lld. pose proof (skip_space_length s) as Hs.
  destruct (skip_space s) as [|c s1] eqn:E; [done|]. apply skip_space_head in E.
  destruct (number_sign (c :: s1)) as [sign s2] eqn:En.
  assert (Hlen : (length s2 <= length (c :: s1))%nat /\
    (starts_digit 10 s2 = true \/ (length (scan_rest s2) < length (c :: s1))%nat)).
  { unfold number_sign in En. destruct (_ || _); injection En as <- <-; (split; [simpl; lia|]); right.
    - pose proof (scan_rest_length s1). simpl. lia.
    - cbn [scan_rest skip_line]. destruct (code c =? 10) eqn:E10.
      + exfalso. apply Z.eqb_eq in E10. unfold isspace, in_codes in E. rewrite E10 in E. done.
      + rewrite length_drop. pose proof (skip_line_length s1). simpl. lia. }
  destruct Hlen as [Hlen Hor]. simpl in Hs, Hlen. destruct (starts_digit 10 s2) eqn:Ed.
  2:{ destruct Hor as [|Hor]; [done|]. simpl in Hor. lia. }
  pose proof (digits_starts 10 0 s2 Ed) as Hd. destruct (digits 10 0 s2) as [v rest]. simpl in Hd.
  unfold scan_word. pose proof (skip_space_length rest) as Hr.
  destruct (skip_space rest) as [|d r1]; [lia|].
  pose proof (take_word_length NAME_WIDTH (d :: r1)) as Ht.
  destruct (take_word NAME_WIDTH (d :: r1)) as [name rest2]. simpl in Ht, Hr.
  pose proof (scan_rest_length rest2). lia.
Qed.

(** The output of perf is read to its end or to the 30th counter, and nothing is
    stored outside of the array. *)
Theorem read_counts_ends fuel s i l :
  (length s < fuel)%nat -> (i <= MAX_PERF_COUNT)%nat ->
  exists n l', read_counts fuel s i l = Ok (n, l') /\ (i <= n <= MAX_PERF_COUNT)%nat /\
    length l' = length l.
Proof.
  revert s i l. induction fuel as [|fuel IH]; intros s i l Hf Hi; [lia|]. cbn [read_counts].
  destruct (Nat.leb_spec MAX_PERF_COUNT i); [exists i, l; split_and!; (done || lia)|].
  pose proof (scan_count_consumes s) as Hc.
  destruct (scan_count s) as [|rest|v|v name rest]; [exists i, l; split_and!; (done || lia)|..].
  - apply IH; lia.
  - destruct (IH [] i (set_value l i v)) as (n & l' & E & Hn & Hl); [simpl; lia|lia|].
    exists n, l'. split; [done|]. split; [done|]. rewrite Hl. apply length_alter.
  - destruct (IH rest (S i) (<[i := mk_perf_count name v]> l)) as (n & l' & E & Hn & Hl); [lia|lia|].
    exists n, l'. split; [done|]. split; [lia|]. rewrite Hl. apply length_insert.
Qed.

(** ** The counters are read as perf printed them *)

(** A line of [perf stat -x '<tab>']: a counter, or one that was not counted. *)
Inductive perf_line :=
  | Counted (c : perf_count) (tail : cstring)
  | NotCounted (text : cstring).

Definition tab : ascii := ascii_of_nat 9.

Definition line_text (p : perf_line) : cstring :=
  match p with
  | Counted c tail => print_num 10 (pc_value c) ++ [tab; tab] ++ pc_name c ++ [tab] ++ tail ++ [newline]
  | NotCounted text => s2l "<"%string ++ text ++ [newline]
  end.

Definition no_newline (s : cstring) : Prop := Forall (fun c => code c <> 10) s.

Definition line_ok (p : perf_line) : Prop :=
  match p with
  | Counted c tail =>
    0 <= pc_value c < 2 ^ 63 /\ pc_name c <> [] /\ (length (pc_name c) <= NAME_WIDTH)%nat /\
    Forall (fun ch => isspace ch = false) (pc_name c) /\ no_newline tail
  | NotCounted text => no_newline text
  end.

Definition counters (ls : list perf_line) : list perf_count :=
  omap (fun p => match p with Counted c _ => Some c | NotCounted _ => None end) ls.

Lemma skip_line_text s rest : no_newline s -> skip_line (s ++ newline :: rest) = newline :: rest.
Proof.
  intros Hs. induction Hs as [|c s Hc _ IH]; [done|]. cbn [app skip_line].
  by destruct (Z.eqb_spec (code c) 10).
Qed.

Lemma scan_rest_text c s rest :
  code c <> 10 -> no_newline s -> scan_rest ((c :: s) ++ newline :: rest) = rest.
Proof.
  intros Hc Hs. cbn [app scan_rest]. destruct (Z.eqb_spec (code c) 10); [done|].
  change (c :: s ++ newline :: rest) with ((c :: s) ++ newline :: rest).
  rewrite skip_line_text; [done|]. by constructor.
Qed.

Lemma take_word_text n w c rest :
  (length w <= n)%nat -> Forall (fun ch => isspace ch = false) w -> isspace c = true ->
  take_word n (w ++ c :: rest) = (w, c :: rest).
Proof.
  intros Hn Hw Hc. revert n Hn. induction Hw as [|d w Hd _ IH]; intros n Hn.
  { destruct n; [done|]. simpl. by rewrite Hc. }
  destruct n as [|n]; [simpl in Hn; lia|]. cbn [app take_word]. rewrite Hd, IH; [done|simpl in Hn; lia].
Qed.

Lemma scan_lld_text n rest :
  0 <= n < 2 ^ 63 -> ends_number 10 rest -> scan_lld (print_num 10 n ++ rest) = (Some n, rest).
Proof.
  intros Hn Hr. destruct (print_num_head 10 n) as (c & s & E & d & Hd & -> & Hdr); [lia|lia|].
  unfold scan_lld. rewrite E. cbn [app skip_space].
  destruct (digit_char_plain d) as (-> & E45 & E43); [lia|]. cbn [number_sign]. rewrite E45, E43.
  cbn [orb starts_digit]. rewrite Hd.
  change (digit_char d :: s ++ rest) with ((digit_char d :: s) ++ rest). rewrite <- E.
  unfold print_num. rewrite digits_print; [|lia|apply udigits_range; lia|done].
  rewrite udigits_value; [|lia| |lia].
  - do 2 f_equal. lia.
  - split; [lia|]. apply Z.lt_le_trans with (2 ^ 63); [lia|]. by vm_compute.
Qed.

Lemma scan_count_line c tail rest :
  line_ok (Counted c tail) ->
  scan_count (line_text (Counted c tail) ++ rest) = SCount (pc_value c) (pc_name c) rest.
Proof.
  intros (Hv & Hne & Hw & Hs & Ht). unfold line_text. rewrite <- !app_assoc. unfold scan_count.
  destruct (print_num_head 10 (pc_value c)) as (ch & s & E & d & _ & -> & Hd); [lia|lia|].
  destruct (digit_char_plain d) as (Hsp & _ & _); [lia|].
  assert (Hsk : exists x y, skip_space (print_num 10 (pc_value c) ++
    [tab; tab] ++ pc_name c ++ [tab] ++ tail ++ [newline] ++ rest) = x :: y).
  { rewrite E. cbn [app skip_space]. rewrite Hsp. by do 2 eexists. }
  destruct Hsk as (x & y & ->). rewrite scan_lld_text by done. unfold scan_word.
  assert (Hsk2 : skip_space ([tab; tab] ++ pc_name c ++ [tab] ++ tail ++ [newline] ++ rest) =
    pc_name c ++ tab :: tail ++ newline :: rest).
  { destruct (pc_name c) as [|n0 name]; [done|]. inversion Hs as [|? ? Hn0 Hname]; subst.
    change (skip_space ((n0 :: name) ++ tab :: tail ++ newline :: rest) =
      (n0 :: name) ++ tab :: tail ++ newline :: rest). cbn [app skip_space]. by rewrite Hn0. }
  rewrite Hsk2. destruct (pc_name c) as [|n0 name] eqn:En; [done|]. cbn [app].
  change (n0 :: name ++ tab :: tail ++ newline :: rest)
    with ((n0 :: name) ++ tab :: tail ++ newline :: rest).
  rewrite take_word_text by done. f_equal. by apply (scan_rest_text tab).
Qed.

Lemma scan_count_skipped text rest : no_newline text ->
  exists r, scan_count (line_text (NotCounted text) ++ rest) = SNone r /\ scan_rest r = rest.
Proof.
  intros Ht. exists ("<"%char :: text ++ newline :: rest). split.
  - unfold line_text. rewrite <- !app_assoc. done.
  - by apply (scan_rest_text "<"%char).
Qed.

Lemma line_text_length p : (0 < length (line_text p))%nat.
Proof. destruct p; unfold line_text; rewrite !length_app; simpl; lia. Qed.

(** The counters that perf printed arrive in the array in their order; the lines
    of events that were not counted are skipped. *)
Theorem read_counts_lines fuel ls l :
  Forall line_ok ls -> (length (counters ls) <= MAX_PERF_COUNT)%nat ->
  length l = MAX_PERF_COUNT -> (length (concat (map line_text ls)) < fuel)%nat ->
  read_counts fuel (concat (map line_text ls)) 0 l =
    Ok (length (counters ls), counters ls ++ drop (length (counters ls)) l).
Proof.
  intros Hls Hn Hl Hf.
  assert (G : forall pre, (length pre + length (counters ls) <= MAX_PERF_COUNT)%nat ->
    read_counts fuel (concat (map line_text ls)) (length pre) (pre ++ drop (length pre) l) =
    Ok (length pre + length (counters ls),
        pre ++ counters ls ++ drop (length pre + length (counters ls)) l)%nat).
  2:{ apply (G []). simpl. lia. }
  clear Hn. revert fuel Hf. induction Hls as [|p ls Hp _ IH]; intros fuel Hf pre Hn.
  { cbn [map concat counters omap list_omap app length]. rewrite !Nat.add_0_r.
    destruct fuel as [|fuel]; [simpl in Hf; lia|]. cbn [read_counts]. by destruct (_ <=? _)%nat. }
  destruct fuel as [|fuel]; [simpl in Hf; lia|]. cbn [map concat] in *. rewrite length_app in Hf.
  destruct p as [c tail|text].
  - cbn [counters omap list_omap] in *. fold (counters ls) in *. cbn [length] in *.
    cbn [read_counts]. destruct (Nat.leb_spec MAX_PERF_COUNT (length pre)); [lia|].
    rewrite scan_count_line by done.
    assert (Hd : exists x, drop (length pre) l = x :: drop (S (length pre)) l).
    { destruct (lookup_lt_is_Some_2 l (length pre)) as [x E]; [lia|]. exists x. by apply drop_S. }
    destruct Hd as [x Ed]. rewrite Ed, insert_app_r_alt, Nat.sub_diag by lia. cbn [insert list_insert].
    replace (S (length pre)) with (length (pre ++ [mk_perf_count (pc_name c) (pc_value c)]))
      by (rewrite length_app; simpl; lia).
    replace (pre ++ mk_perf_count (pc_name c) (pc_value c)
      :: drop (length (pre ++ [mk_perf_count (pc_name c) (pc_value c)])) l)
      with ((pre ++ [mk_perf_count (pc_name c) (pc_value c)])
        ++ drop (length (pre ++ [mk_perf_count (pc_name c) (pc_value c)])) l)
      by (by rewrite <- app_assoc).
    rewrite IH; [|pose proof (line_text_length (Counted c tail)); lia
                 |rewrite length_app; simpl; lia].
    rewrite length_app, <- !app_assoc. cbn [length app]. destruct c. cbn [pc_name pc_value].
    by replace (length pre + 1 + length (counters ls))%nat with (length pre + S (length (counters ls)))%nat by lia.
  - destruct (scan_count_skipped text (concat (map line_text ls)) Hp) as (r & Er & Es).
    cbn [read_counts]. destruct (Nat.leb_spec MAX_PERF_COUNT (length pre)) as [Hge|_].
    + assert (counters ls = []) as E0 by
        (change (counters (NotCounted text :: ls)) with (counters ls) in Hn;
         destruct (counters ls); [done|simpl in Hn; lia]).
      change (counters (NotCounted text :: ls)) with (counters ls). rewrite E0. cbn [length app].
      by rewrite Nat.add_0_r.
    + rewrite Er, Es. change (counters (NotCounted text :: ls)) with (counters ls) in *.
      apply IH; [|done]. pose proof (line_text_length (NotCounted text)). lia.
Qed.

(** ** The comparison *)

Lemma count_at_ok l j : 0 <= j < Z.of_nat (length l) -> exists c, count_at l j = Ok c /\ l !! Z.to_nat j = Some c.
Proof.
  intros Hj. unfold count_at. destruct (Z.ltb_spec j 0); [lia|].
  destruct (lookup_lt_is_Some_2 l (Z.to_nat j)) as [c E]; [lia|]. exists c. by rewrite E.
Qed.

(** The report comes to its end unless the first counter is that of the
    instructions. *)
Lemma report_lines_ends fuel p i j :
  i <= Z.of_nat (length (p_old p)) -> i <= Z.of_nat (length (p_new p)) ->
  0 <= j -> i - j < Z.of_nat fuel ->
  (j = 0 -> forall c, p_old p !! 0%nat = Some c -> strstr (pc_name c) instructions = None) ->
  exists lines, report_lines fuel p i j = Ok lines.
Proof.
  intros Ho Hn. revert j. induction fuel as [|fuel IH]; intros j Hj Hf H0; cbn [report_lines].
  { destruct (Z.leb_spec i j); [by eexists|lia]. }
  destruct (Z.leb_spec i j); [by eexists|].
  destruct (count_at_ok (p_old p) j) as (o & -> & Eo); [lia|].
  destruct (count_at_ok (p_new p) j) as (n & -> & _); [lia|]. rewrite !bind_Ok.
  destruct (strstr (pc_name o) instructions) eqn:Es.
  - assert (j <> 0) by (intros ->; by rewrite (H0 eq_refl o Eo) in Es).
    destruct (count_at_ok (p_old p) (j - 1)) as (o1 & -> & _); [lia|].
    destruct (count_at_ok (p_new p) (j - 1)) as (n1 & -> & _); [lia|]. rewrite !bind_Ok.
    destruct (IH (j + 2)) as [lines ->]; [lia|lia|lia|]. by eexists.
  - destruct (IH (j + 1)) as [lines ->]; [lia|lia|lia|]. by eexists.
Qed.

(** The first call stores the counters of perf and prints nothing. *)
Theorem perf_stat_start pid ls p :
  0 < pid -> Forall line_ok ls -> (length (counters ls) <= MAX_PERF_COUNT)%nat ->
  length (p_old p) = MAX_PERF_COUNT ->
  perf_stat true true pid (concat (map line_text ls)) p =
    Ok (0, Parent, [], mk_perf (counters ls ++ drop (length (counters ls)) (p_old p)) (p_new p)).
Proof.
  intros Hp Hls Hn Hl. unfold perf_stat. cbn [negb].
  destruct (Z.eqb_spec pid (-1)), (Z.eqb_spec pid 0); [lia..|].
  rewrite read_counts_lines by (done || lia). done.
Qed.

(** The second call ends with a report, whatever perf prints, when the first counter
    of the first call was not the one of the instructions. *)
Theorem perf_stat_stop_ends pid text p c :
  0 < pid -> length (p_old p) = MAX_PERF_COUNT -> length (p_new p) = MAX_PERF_COUNT ->
  p_old p !! 0%nat = Some c -> strstr (pc_name c) instructions = None ->
  exists lines p', perf_stat false true pid text p = Ok (0, Parent, lines, p') /\ p_old p' = p_old p.
Proof.
  intros Hp Ho Hn E0 Hi. unfold perf_stat. cbn [negb].
  destruct (Z.eqb_spec pid (-1)), (Z.eqb_spec pid 0); [lia..|].
  destruct (read_counts_ends (S (length text)) text 0 (p_new p)) as (k & l & -> & Hr & Hl); [lia|unfold MAX_PERF_COUNT; lia|].
  rewrite bind_Ok. cbn [fst snd].
  destruct (report_lines_ends (S k) (mk_perf (p_old p) l) (Z.of_nat k) 0) as [lines ->];
    cbn [p_old p_new]; [lia|lia|lia|lia| |].
  - intros _ c' Ec'. by rewrite E0 in Ec'; injection Ec' as <-.
  - by exists lines, (mk_perf (p_old p) l).
Qed.

(** When the counters before the instructions were not counted, the report reads
    before the array. *)
Theorem instructions_first_faults :
  match perf_stat true true 7 (line_text (Counted (mk_perf_count instructions 10) (s2l "100.00"%string)))
          perf_start with
  | Ok (_, _, _, p) =>
    perf_stat false true 7
      (line_text (Counted (mk_perf_count instructions 20) (s2l "100.00"%string))) p = Fault OutOfBounds
  | Fault _ => False
  end.
Proof. vm_compute. reflexivity. Qed.

(** When only the cycles were not counted, the instructions are divided by the
    counter before. *)
Theorem ipc_without_cycles :
  let misses v := line_text (Counted (mk_perf_count (s2l "cache-misses"%string) v) (s2l "100.00"%string)) in
  let cycles := line_text (NotCounted (s2l "not counted>"%string)) in
  let inst v := line_text (Counted (mk_perf_count instructions v) (s2l "100.00"%string)) in
  match perf_stat true true 7 (misses 5 ++ cycles ++ inst 10) perf_start with
  | Ok (_, _, _, p) =>
    match perf_stat false true 7 (misses 4 ++ cycles ++ inst 20) p with
    | Ok (_, _, lines, _) => lines = [Change (s2l "cache-misses"%string) 5 4; Change instructions 10 20;
                                      Ipc 10 5 20 4]
    | Fault _ => False
    end
  | Fault _ => False
  end.
Proof. vm_compute. reflexivity. Qed.

(** ** An output of perf *)

Module Sample.
Definition sample : list perf_line :=
  [Counted (mk_perf_count (s2l "cycles"%string) 123456) (s2l "100.00"%string);
   NotCounted (s2l "not counted>"%string);
   Counted (mk_perf_count instructions 654321) (s2l "100.00"%string)].

Lemma read_counts_lines_witness :
  read_counts 200 (concat (map line_text sample)) 0 no_counts =
    Ok (2%nat, counters sample ++ drop 2 no_counts) /\
  counters sample = [mk_perf_count (s2l "cycles"%string) 123456; mk_perf_count instructions 654321].
Proof.
  split; [|reflexivity]. apply (read_counts_lines 200 sample no_counts).
  - constructor; [|constructor; [|constructor; [|constructor]]]; cbn [line_ok pc_value pc_name sample].
    + split_and!; [lia|lia|done|apply leb_complete; reflexivity|by repeat constructor|by repeat constructor].
    + by repeat constructor.
    + split_and!; [lia|lia|done|apply leb_complete; reflexivity|by repeat constructor|by repeat constructor].
  - vm_compute. lia.
  - reflexivity.
  - vm_compute. lia.
Defined.
End Sample.
