(* ===== verification/Migration.v ===== *)
(** * The cost of a migration

    [kernel/migration_cost/migration_cost.c]: a kernel thread that moves between two
    CPUs and adds up the time from leaving the one to arriving at the other. What
    the thread sees in each turn of its loop is given as a list: the time, the CPU
    that it runs on, and whether it should stop. *)

From S2P Require Import Prelude.

(** The parameters of the module. *)
Record params := mk_params {
  from : Z;
  to : Z;
  counts : Z;
}.

(** struct latency_data, the completion as a flag *)
Record latency_data := mk_latency {
  total_cost : Z;
  exit_time : Z;
  pre_cpu : Z;
  completed : bool;
}.

(** A turn: [kthread_should_stop()], [smp_processor_id()] and [ktime_get()]. *)
Record turn := mk_turn {
  t_stop : bool;
  t_cpu : Z;
  t_now : Z;
}.

(** [while (!kthread_should_stop() && nrsw >= 0)]: the data, the masks that were
    asked for, and whether the loop ended during these turns. *)
Fixpoint cost_loop (p : params) (turns : list turn) (nrsw : Z) (d : latency_data)
    : latency_data * list Z * bool :=
  match turns with
  | [] => (d, [], nrsw <? 0)
  | t :: turns =>
    if t_stop t || (nrsw <? 0) then (d, [], true)
    else if t_cpu t =? pre_cpu d then cost_loop p turns nrsw d
    else
      let d := mk_latency (total_cost d) (exit_time d) (t_cpu t) (completed d) in
      let d := if t_cpu t =? from p
               then mk_latency (total_cost d) (t_now t) (pre_cpu d) (completed d)
               else mk_latency (total_cost d + (t_now t - exit_time d)) (exit_time d) (pre_cpu d)
                      (completed d) in
      let target := if t_cpu t =? from p then to p else from p in
      let '(d, targets, ended) := cost_loop p turns (nrsw - 1) d in
      (d, target :: targets, ended)
  end.

(** The thread completes when its loop ends. *)
Definition migration_cost_func (p : params) (turns : list turn) (d : latency_data)
    : latency_data * list Z * bool :=
  let '(d, targets, ended) := cost_loop p turns (to_int (counts p * 2)) d in
  (mk_latency (total_cost d) (exit_time d) (pre_cpu d) ended, targets, ended).

(** What the module reports: an error, or the total and the average. [i] is the
    value of the variable that is never set; [create] is 0 or the error of
    [kthread_create_on_node], [stopped] the result of [kthread_stop]. *)
Inductive verdict :=
  | Failed (err : Z)
  | Reported (total avg : Z).

Definition migration_cost_init (p : params) (online : Z -> bool) (i create stopped : Z)
    (turns : list turn) : outcome verdict :=
  if negb (online (from p)) || negb (online (to p)) || (from p =? to p) || (i <? 0)
  then Ok (Failed (- EINVAL))
  else if negb (create =? 0) then Ok (Failed create)
  else
    let '(d, _, _) := migration_cost_func p turns (mk_latency 0 0 (-1) false) in
    if negb (stopped =? 0) then Ok (Failed stopped)
    else if counts p =? 0 then Fault DivByZero
    else Ok (Reported (total_cost d) (Z.quot (total_cost d) (counts p))).

(** ** What the thread sees when it is moved *)

(** [n] rounds: it leaves [from] at the first time of a pair and arrives at [to] at
    the second; between, it may see the CPU that it is on more often. *)
Definition stays (cpu : Z) (times : list Z) : list turn := map (mk_turn false cpu) times.

Record round := mk_round {
  r_leave : Z;
  r_arrive : Z;
  r_on_from : list Z;
  r_on_to : list Z;
}.

Definition round_turns (p : params) (r : round) : list turn :=
  mk_turn false (from p) (r_leave r) :: stays (from p) (r_on_from r) ++
  mk_turn false (to p) (r_arrive r) :: stays (to p) (r_on_to r).

Definition round_cost (r : round) : Z := r_arrive r - r_leave r.

Lemma loop_stays p cpu times turns nrsw d :
  pre_cpu d = cpu -> 0 <= nrsw ->
  cost_loop p (stays cpu times ++ turns) nrsw d = cost_loop p turns nrsw d.
Proof.
  intros Hc Hn. induction times as [|t times IH]; [done|]. cbn [stays map app cost_loop t_stop t_cpu].
  destruct (Z.ltb_spec nrsw 0); [lia|]. rewrite Hc, Z.eqb_refl. exact IH.
Qed.

(** A round costs two turns and adds its time. *)
Lemma loop_round p r turns nrsw d :
  from p <> to p -> pre_cpu d <> from p -> 1 <= nrsw ->
  exists targets,
  cost_loop p (round_turns p r ++ turns) nrsw d =
    let '(d', ts, ended) :=
      (if 2 <=? nrsw then cost_loop p turns (nrsw - 2) else cost_loop p (stays (to p) (r_on_to r) ++ turns) (nrsw - 2))
        (mk_latency (total_cost d + round_cost r) (r_leave r) (to p) (completed d)) in
    (d', targets ++ ts, ended).
Proof.
  intros Hft Hp Hn. exists [to p; from p]. unfold round_turns. cbn [app cost_loop t_stop t_cpu t_now orb].
  destruct (Z.ltb_spec nrsw 0); [lia|]. destruct (Z.eqb_spec (from p) (pre_cpu d)); [congruence|].
  rewrite Z.eqb_refl. cbn [total_cost exit_time pre_cpu completed].
  rewrite <- app_assoc, loop_stays by (simpl; lia). cbn [app cost_loop t_stop t_cpu t_now orb].
  destruct (Z.ltb_spec (nrsw - 1) 0); [lia|]. cbn [total_cost exit_time pre_cpu completed].
  destruct (Z.eqb_spec (to p) (from p)); [congruence|].
  replace (nrsw - 1 - 1) with (nrsw - 2) by lia. unfold round_cost.
  destruct (Z.leb_spec 2 nrsw); [rewrite loop_stays by (simpl; lia)|]; by destruct (cost_loop p _ _ _) as [[? ?] ?].
Qed.

Lemma loop_rounds p rs turns d :
  from p <> to p -> pre_cpu d <> from p -> rs <> [] ->
  exists targets,
  cost_loop p (concat (map (round_turns p) rs) ++ turns) (2 * Z.of_nat (length rs)) d =
    let '(d', ts, ended) := cost_loop p turns 0
      (mk_latency (total_cost d + sumZ (map round_cost rs))
         (default 0 (r_leave <$> last rs)) (to p) (completed d)) in
    (d', targets ++ ts, ended).
Proof.
  intros Hft. revert d. induction rs as [|r rs IH]; intros d Hp Hne; [done|].
  cbn [map concat]. rewrite <- app_assoc.
  destruct (loop_round p r (concat (map (round_turns p) rs) ++ turns) (2 * Z.of_nat (length (r :: rs))) d)
    as [ts1 ->]; [done|done|simpl; lia|].
  destruct (Z.leb_spec 2 (2 * Z.of_nat (length (r :: rs)))); [|simpl in *; lia].
  replace (2 * Z.of_nat (length (r :: rs)) - 2) with (2 * Z.of_nat (length rs)) by (simpl; lia).
  destruct rs as [|r2 rs].
  { exists ts1. cbn [map concat app length]. change (2 * Z.of_nat 0) with 0. simpl.
    by rewrite Z.add_0_r. }
  destruct (IH (mk_latency (total_cost d + round_cost r) (r_leave r) (to p) (completed d)))
    as [ts2 ->]; [simpl; congruence|done|].
  exists (ts1 ++ ts2). cbn [total_cost completed]. rewrite last_cons_cons.
  replace (total_cost d + round_cost r + sumZ (map round_cost (r2 :: rs)))
    with (total_cost d + sumZ (map round_cost (r :: r2 :: rs))) by (simpl; lia).
  destruct (cost_loop p turns 0 _) as [[d' ts] ended]. by rewrite app_assoc.
Qed.

Lemma loop_over p turns nrsw d : nrsw < 0 -> cost_loop p turns nrsw d = (d, [], true).
Proof.
  intros Hn. destruct turns as [|t turns]; cbn [cost_loop]; destruct (Z.ltb_spec nrsw 0); try lia; [done|].
  by rewrite orb_true_r.
Qed.

(** The module reports the sum of the times of [counts] migrations, and their
    average: the thread makes one move more than these, back to [from], which is not
    counted. *)
Theorem migration_cost_average p online i rs t rest :
  0 <= from p -> from p <> to p -> online (from p) = true -> online (to p) = true -> 0 <= i ->
  counts p = Z.of_nat (length rs) -> 0 < counts p < 2 ^ 30 ->
  migration_cost_init p online i 0 0
    (concat (map (round_turns p) rs) ++ mk_turn false (from p) t :: rest) =
  Ok (Reported (sumZ (map round_cost rs)) (Z.quot (sumZ (map round_cost rs)) (counts p))).
Proof.
  intros H0 Hft Hf Ht Hi Hc Hn. unfold migration_cost_init. rewrite Hf, Ht.
  destruct (Z.eqb_spec (from p) (to p)); [done|]. destruct (Z.ltb_spec i 0); [lia|]. cbn [negb orb Z.eqb].
  unfold migration_cost_func.
  replace (to_int (counts p * 2)) with (2 * Z.of_nat (length rs)).
  2:{ unfold to_int. rewrite Z.mod_small by lia. destruct (Z.ltb_spec (counts p * 2) (2 ^ 31)); lia. }
  destruct (loop_rounds p rs (mk_turn false (from p) t :: rest) (mk_latency 0 0 (-1) false))
    as [ts ->]; [done|simpl; lia|intros ->; simpl in *; lia|].
  cbn [cost_loop t_stop t_cpu t_now orb pre_cpu]. cbn [Z.ltb Z.compare].
  destruct (Z.eqb_spec (from p) (to p)); [done|]. rewrite Z.eqb_refl, loop_over by lia.
  cbn [total_cost]. destruct (Z.eqb_spec (counts p) 0); [lia|]. done.
Qed.

(** A count of 0 is not rejected, and the module divides by it. *)
Theorem zero_count_divides p online i turns :
  from p <> to p -> online (from p) = true -> online (to p) = true -> 0 <= i -> counts p = 0 ->
  migration_cost_init p online i 0 0 turns = Fault DivByZero.
Proof.
  intros Hft Hf Ht Hi Hc. unfold migration_cost_init. rewrite Hf, Ht, Hc.
  destruct (Z.eqb_spec (from p) (to p)); [done|]. destruct (Z.ltb_spec i 0); [lia|]. cbn [negb orb Z.eqb].
  unfold migration_cost_func. by destruct (cost_loop p _ _ _) as [[? ?] ?].
Qed.

(** The check of the parameters reads a variable that was never set: when its value
    is negative, every choice of CPUs is refused. *)
Theorem unset_variable_refuses p online i create stopped turns :
  i < 0 -> migration_cost_init p online i create stopped turns = Ok (Failed (- EINVAL)).
Proof.
  intros Hi. unfold migration_cost_init. destruct (Z.ltb_spec i 0); [|lia]. by rewrite orb_true_r.
Qed.
