(* ===== verification/Tools.v ===== *)
(** * The command-line tools for interrupts and tasks

    [irqdump.c]: the interrupts of the machine and how often they came, read from
    [/proc/interrupts]; [irqdeploy.c] and [taskdeploy.c]: commands that bind an
    interrupt or the threads of a process. The options of a command are the letters
    that [getopt_long] returns, with their arguments. *)

From Stdlib Require Import Ascii String.
From S2P Require Import Prelude Bitops Cpuset Cstring Dynset State Irq TopoState Config.

(** ** irqdump.c *)

Definition trim_leadspace (s : cstring) : cstring := skip_space s.

Definition remove_newline (s : cstring) : cstring :=
  match last s with
  | Some c => if code c =? 10 then take (length s - 1) s else s
  | None => s
  end.

Definition head_isdigit (s : cstring) : bool := match s with c :: _ => isdigit c | [] => false end.

(** The loop over the counts of a line: the sum as a [long long], and the rest. *)
Fixpoint sum_counts (fuel : nat) (p : cstring) (count : Z) : outcome (Z * cstring) :=
  match fuel with
  | O => Fault OutOfFuel
  | S fuel =>
    let p := trim_leadspace p in
    if negb (head_isdigit p) then Ok (count, p)
    else let '(v, _, endp) := strtoul 10 p in sum_counts fuel endp (to_long (to_ulong (count + v)))
  end.

(** One line: the number of the interrupt, the sum of its counts and its name, or
    nothing when the line is skipped. *)
Definition dump_line (buf : cstring) : outcome (option (Z * Z * cstring)) :=
  let buf := remove_newline buf in
  if negb (head_isdigit (trim_leadspace buf)) then Ok None else
  match strchr buf 58 (* ':' *) with
  | None => Ok None
  | Some p =>
    let irqno := to_int (strtoul 10 (before 58 buf)).1.1 in
    r ← sum_counts (S (length p)) (advance p) 0;
    Ok (Some (irqno, r.1, trim_leadspace r.2))
  end.

Definition wanted (i_name : option cstring) (p : cstring) : bool :=
  match i_name with
  | None => true
  | Some name => match strstr p name with Some _ => true | None => false end
  end.

(** The loop over the lines of the file: the lines that are printed. *)
Fixpoint dump_lines (fuel : nat) (i_name : option cstring) (file : cstring)
    : outcome (list (Z * Z * cstring)) :=
  match fuel with
  | O => Fault OutOfFuel
  | S fuel =>
    match fgets 4096 file with
    | None => Ok []
    | Some (buf, file) =>
      r ← dump_line buf;
      rows ← dump_lines fuel i_name file;
      Ok (match r with
          | Some row => if wanted i_name row.2 then row :: rows else rows
          | None => rows
          end)
    end
  end.

(** [file] is the content of [/proc/interrupts], when it can be opened. *)
Definition irq_dump (i_name : option cstring) (file : option cstring) : outcome (list (Z * Z * cstring)) :=
  match file with
  | None => Fault NullDeref
  | Some file => dump_lines (S (length file)) i_name file
  end.

(** ** irqdeploy.c *)

(** What a tool does: it shows its usage and exits with a code, or it ends. *)
Inductive exit_code := Exited (code : Z).

Section irqdeploy.
Context `{T : Topology} `{F : IrqFiles}.

(** The loop over the options: the CPU and the interrupt, or the end. *)
Fixpoint irq_options (opts : list (ascii * cstring)) (cpu irq : Z) : exit_code + (Z * Z) :=
  match opts with
  | [] => inr (cpu, irq)
  | (opt, optarg) :: opts =>
    if decide (opt = "h"%char) then inl (Exited 0)
    else if decide (opt = "V"%char) then inl (Exited 0)
    else if decide (opt = "c"%char) then irq_options opts (to_int (strtoul 10 optarg).1.1) irq
    else if decide (opt = "i"%char) then irq_options opts cpu (to_int (strtoul 10 optarg).1.1)
    else irq_options opts cpu irq
  end.

(** The exit code, or the interrupt, the CPU and the result of the binding, with the text that was
    written to the file of the interrupt. *)
Definition irqdeploy (opts : list (ascii * cstring)) : outcome (exit_code + (Z * Z * Z * option cstring)) :=
  match irq_options opts (-1) (-1) with
  | inl e => Ok (inl e)
  | inr (cpu, irq) =>
    if (cpu =? -1) || (irq =? -1) then Ok (inl (Exited 1))
    else r ← wayca_sc_irq_bind_cpu irq cpu; Ok (inr (irq, cpu, r.1, r.2))
  end.
End irqdeploy.

(** ** taskdeploy.c *)

(** The calls that the tool makes. *)
Inductive task_call :=
  | PerfStat (pid : Z) (start : bool)
  | ProcessBindCpulist (pid : Z) (cpulist : cstring)
  | ThreadBindCpulist (pid : Z) (cpulist : cstring)
  | MigrateToNode (pid node : Z)
  | BindNode (node : Z)
  | Execvp.

Record task_opts := mk_task_opts {
  to_all : bool;
  to_exec : bool;
  to_pid : Z;
  to_mem_node : Z;
  to_cpulist : cstring;
}.

Fixpoint task_options (opts : list (ascii * cstring)) (o : task_opts) : exit_code + task_opts :=
  match opts with
  | [] => inr o
  | (opt, optarg) :: opts =>
    if decide (opt = "h"%char) then inl (Exited 0)
    else if decide (opt = "V"%char) then inl (Exited 0)
    else if decide (opt = "c"%char) then
      task_options opts (mk_task_opts (to_all o) (to_exec o) (to_pid o) (to_mem_node o) (take 199 optarg))
    else if decide (opt = "p"%char) then
      task_options opts (mk_task_opts (to_all o) (to_exec o) (to_int (strtoul 10 optarg).1.1)
        (to_mem_node o) (to_cpulist o))
    else if decide (opt = "m"%char) then
      task_options opts (mk_task_opts (to_all o) (to_exec o) (to_pid o)
        (to_int (strtoul 10 optarg).1.1) (to_cpulist o))
    else if decide (opt = "a"%char) then
      task_options opts (mk_task_opts true (to_exec o) (to_pid o) (to_mem_node o) (to_cpulist o))
    else if decide (opt = "e"%char) then
      task_options opts (mk_task_opts (to_all o) true (to_pid o) (to_mem_node o) (to_cpulist o))
    else task_options opts o
  end.

Definition task_calls (o : task_opts) : exit_code + list task_call :=
  let pid := if to_exec o then 0 else to_pid o in
  if match to_cpulist o with [] => true | _ => pid =? -1 end then inl (Exited 1)
  else if negb (pid =? 0) then
    inr ([PerfStat pid true;
          if to_all o && negb (pid =? 0) then ProcessBindCpulist pid (to_cpulist o)
          else ThreadBindCpulist pid (to_cpulist o)] ++
         (if negb (to_mem_node o =? -1) then [MigrateToNode pid (to_mem_node o)] else []) ++
         [PerfStat pid false])
  else
    inr ([ThreadBindCpulist pid (to_cpulist o)] ++
         (if negb (to_mem_node o =? -1) then [BindNode (to_mem_node o)] else []) ++ [Execvp]).

Definition taskdeploy (opts : list (ascii * cstring)) : exit_code + list task_call :=
  match task_options opts (mk_task_opts false false (-1) (-1) []) with
  | inl e => inl e
  | inr o => task_calls o
  end.

(** ** The table of interrupts *)

Definition colon : ascii := ascii_of_nat 58.

(** A line of [/proc/interrupts]: blanks, the number, and for each CPU blanks and a
    count; then the name. *)
Record irq_line := mk_irq_line {
  il_pad : nat;
  il_irq : Z;
  il_counts : list (nat * Z);
  il_name : cstring;
}.

Definition blanks (n : nat) : cstring := replicate n blank.

Fixpoint print_counts (l : list (nat * Z)) : cstring :=
  match l with
  | [] => []
  | (pad, n) :: l => blanks (S pad) ++ print_num 10 n ++ print_counts l
  end.

Definition print_text (l : irq_line) : cstring :=
  blanks (il_pad l) ++ print_num 10 (il_irq l) ++ colon :: print_counts (il_counts l) ++ blanks 2 ++ il_name l.
Definition print_line (l : irq_line) : cstring := print_text l ++ [newline].

(** The name is neither a number nor starts with a blank, and the line fits into the
    buffer. *)
Record line_ok (l : irq_line) : Prop := {
  lo_irq : int_ok (il_irq l);
  lo_counts : Forall (fun x => 0 <= x.2) (il_counts l);
  lo_sum : sumZ (il_counts l).*2 < 2 ^ 63;
  lo_name : head_isdigit (il_name l) = false /\ skip_space (il_name l) = il_name l;
  lo_newline : no_char 10 (il_name l);
  lo_length : Z.of_nat (length (print_line l)) < 4096;
}.

Lemma skip_blanks n s : skip_space (blanks n ++ s) = skip_space s.
Proof. induction n; [done|exact IHn]. Qed.

Lemma print_num_digit n rest :
  0 <= n -> head_isdigit (print_num 10 n ++ rest) = true /\
  skip_space (print_num 10 n ++ rest) = print_num 10 n ++ rest.
Proof.
  intros Hn. destruct (print_num_head 10 n ltac:(lia) Hn) as (c & s & -> & d & _ & -> & Hd). cbn [app].
  split; cbn [head_isdigit skip_space].
  - unfold isdigit, in_codes. rewrite digit_char_code by lia. destruct (Z.ltb_spec d 10); [|lia].
    apply andb_true_iff. split; apply Z.leb_le; lia.
  - by destruct (digit_char_plain d ltac:(lia)) as (-> & _).
Qed.

Lemma sumZ_nonneg l : Forall (fun x : nat * Z => 0 <= x.2) l -> 0 <= sumZ l.*2.
Proof. induction 1 as [|[p n] l H _ IH]; cbn in *; lia. Qed.

Lemma sum_counts_print l fuel count name :
  Forall (fun x => 0 <= x.2) l -> 0 <= count -> count + sumZ l.*2 < 2 ^ 63 ->
  head_isdigit name = false -> skip_space name = name -> (length l < fuel)%nat ->
  sum_counts fuel (print_counts l ++ blanks 2 ++ name) count = Ok (count + sumZ l.*2, name).
Proof.
  intros Hl. revert fuel count. induction Hl as [|[pad n] l Hn Hl IH]; intros [|fuel] count Hc Hs Hd Hk Hf;
    cbn [length] in Hf; try lia; cbn [sum_counts print_counts]; unfold trim_leadspace.
  - cbn [app]. rewrite skip_blanks, Hk, Hd. cbn. by rewrite Z.add_0_r.
  - cbn [fst snd fmap list_fmap sumZ] in *. pose proof (sumZ_nonneg l Hl).
    rewrite <- !app_assoc, skip_blanks. destruct (print_num_digit n (print_counts l ++ blanks 2 ++ name) Hn) as [E1 E2].
    rewrite E2, E1. cbn [negb].
    rewrite strtoul_print; [|lia|unfold is_word; lia|].
    + rewrite to_ulong_id by (unfold is_word; lia). unfold to_long. destruct (Z.ltb_spec (count + n) (2 ^ 63)); [|lia].
      rewrite IH by (done || lia). do 2 f_equal. lia.
    + unfold ends_number. by destruct l as [|[p q] l].
Qed.

Lemma print_text_no_newline l : line_ok l -> no_char 10 (print_text l).
Proof.
  intros [Hi Hc _ _ Hn _]. unfold int_ok in Hi. unfold print_text.
  assert (forall n, no_char 10 (blanks n)) as Hb by (intros n; apply Forall_replicate; by vm_compute).
  rewrite !no_char_app, no_char_cons, !no_char_app. split_and!; try apply Hb; try done.
  - by apply print_num_no_char; lia.
  - induction Hc as [|[p n] c Hx _ IH]; [constructor|]. cbn [print_counts]. rewrite !no_char_app. split_and!; try done.
    by apply print_num_no_char; cbn in *; lia.
Qed.

Lemma length_counts l : (length l <= length (print_counts l))%nat.
Proof. induction l as [|[p n] l IH]; cbn; [done|]. rewrite !length_app. lia. Qed.

Lemma dump_line_print l :
  line_ok l -> dump_line (print_line l) = Ok (Some (il_irq l, sumZ (il_counts l).*2, il_name l)).
Proof.
  intros Hok. pose proof Hok as [Hi Hc Hs [Hd Hk] Hn _]. unfold int_ok in Hi.
  unfold dump_line, print_line, remove_newline. rewrite last_snoc. change (code newline =? 10) with true. cbv iota.
  rewrite length_app. cbn [length]. rewrite Nat.add_sub, take_app_length. unfold trim_leadspace, print_text.
  rewrite skip_blanks.
  set (rest := print_counts (il_counts l) ++ blanks 2 ++ il_name l).
  destruct (print_num_digit (il_irq l) (colon :: rest) ltac:(lia)) as [E1 E2]. rewrite E2, E1. cbn [negb].
  assert (no_char 58 (blanks (il_pad l) ++ print_num 10 (il_irq l))) as Hnc.
  { apply no_char_app. split; [apply Forall_replicate; by vm_compute|]. apply print_num_no_char; lia. }
  rewrite app_assoc, strchr_skip, strchr_here by done.
  assert (forall s r, no_char 58 s -> before 58 (s ++ colon :: r) = s) as Hbef.
  { intros s r H. induction H as [|x s Hx _ IH]; [done|]. cbn [before app]. apply Z.eqb_neq in Hx. by rewrite Hx, IH. }
  rewrite Hbef by done. cbn [advance].
  assert ((strtoul 10 (blanks (il_pad l) ++ print_num 10 (il_irq l))).1.1 = il_irq l) as ->.
  { pose proof (strtoul_print 10 (il_irq l) [] ltac:(lia) ltac:(unfold is_word; lia) eq_refl) as E.
    rewrite app_nil_r in E. unfold strtoul in *. rewrite skip_blanks.
    set (x := match skip_space (print_num 10 (il_irq l)) with [] => _ | _ => _ end) in *.
    destruct x as [neg s2]. destruct (starts_digit 10 s2).
    - destruct (digits 10 0 s2). destruct (ULONG_MAX <? z); by simplify_eq/=.
    - by simplify_eq/=. }
  rewrite to_int_id by lia. unfold rest. rewrite sum_counts_print; [|done|lia|by rewrite Z.add_0_l|done|done|].
  - obind. cbn [fst snd]. by rewrite Hk, Z.add_0_l.
  - pose proof (length_counts (il_counts l)). cbn [length]. rewrite !length_app. lia.
Qed.

Definition dumped (l : irq_line) : Z * Z * cstring := (il_irq l, sumZ (il_counts l).*2, il_name l).

Lemma fgets_print l rest :
  line_ok l -> fgets 4096 (print_line l ++ rest) = Some (print_line l, rest).
Proof.
  intros Hok. unfold print_line. rewrite <- app_assoc. apply (fgets_line (print_text l) rest);
    [by apply print_text_no_newline|apply Hok].
Qed.

Lemma print_line_length l : (0 < length (print_line l))%nat.
Proof. unfold print_line. rewrite length_app. cbn. lia. Qed.

(** A table of interrupts is read as the kernel printed it: for every line whose
    name contains the one that is asked for, or for all lines, the number of the
    interrupt, the sum of its counts over the CPUs and its name are shown, in the
    order of the table. *)
Theorem irq_dump_print i_name l :
  Forall line_ok l ->
  irq_dump i_name (Some (concat (print_line <$> l))) =
  Ok (filter (fun row => wanted i_name row.2 = true) (dumped <$> l)).
Proof.
  intros Hl. unfold irq_dump.
  assert (length l < S (length (concat (print_line <$> l))))%nat as Hf.
  { clear. induction l as [|x l IH]; cbn; [lia|]. rewrite length_app. pose proof (print_line_length x). lia. }
  revert Hf. generalize (S (length (concat (print_line <$> l)))) as fuel. induction Hl as [|x l Hx _ IH]; intros fuel Hf;
    destruct fuel as [|fuel]; cbn [length] in Hf; try lia; cbn [dump_lines fmap list_fmap concat]; [done|].
  rewrite fgets_print by done. rewrite dump_line_print by done. obind. rewrite IH by lia. obind.
  rewrite filter_cons. cbn [dumped snd]. destruct (wanted i_name (il_name x)) eqn:E; cbn [snd];
    [rewrite decide_True by done|rewrite decide_False by congruence]; by rewrite ?E.
Qed.

(** ** The commands *)

Section commands.
Context `{T : Topology} `{F : IrqFiles}.

(** [--irq I --cpu C] binds the interrupt, with the result of the library. *)
Lemma irqdeploy_binds irq cpu :
  int_ok irq -> int_ok cpu ->
  irqdeploy [("i"%char, print_num 10 irq); ("c"%char, print_num 10 cpu)] =
  (r ← wayca_sc_irq_bind_cpu irq cpu; Ok (inr (irq, cpu, r.1, r.2))).
Proof.
  intros Hi Hc. unfold irqdeploy.
  assert (irq_options [("i"%char, print_num 10 irq); ("c"%char, print_num 10 cpu)] (-1) (-1) = inr (cpu, irq)) as ->.
  { cbn [irq_options]. repeat (rewrite decide_False by done || rewrite decide_True by done).
    rewrite <- (app_nil_r (print_num 10 irq)), <- (app_nil_r (print_num 10 cpu)). by rewrite !number_of. }
  unfold int_ok in *. destruct (Z.eqb_spec cpu (-1)); [lia|]. by destruct (Z.eqb_spec irq (-1)); [lia|].
Qed.
End commands.

(** A list of CPUs of 200 characters or more is cut, and the rest of it is a list of
    other CPUs. *)
Lemma taskdeploy_cuts_cpulist list :
  list <> [] ->
  taskdeploy [("p"%char, s2l "1000"%string); ("c"%char, list)] =
  inr [PerfStat 1000 true; ThreadBindCpulist 1000 (take 199 list); PerfStat 1000 false].
Proof. by destruct list. Qed.

Module Table.
Definition timer : irq_line := mk_irq_line 1 9 [(6%nat, 120); (7%nat, 30)] (s2l "GICv3  27 Level  arch_timer"%string).
Definition eth : irq_line := mk_irq_line 0 17 [(9%nat, 0); (6%nat, 9470)] (s2l "ITS-MSI  eth0-TxRx"%string).

Lemma table_ok : Forall line_ok [timer; eth].
Proof.
  repeat apply Forall_cons_2; [| |by apply Forall_nil_2]; (split; [by vm_compute| |by vm_compute|by vm_compute| |by vm_compute]);
    repeat apply Forall_cons_2; (by apply Forall_nil_2) || (vm_compute; congruence).
Qed.

Lemma irq_dump_print_witness :
  irq_dump (Some (s2l "eth0"%string)) (Some (concat (print_line <$> [timer; eth]))) =
  Ok [(17, 9470, s2l "ITS-MSI  eth0-TxRx"%string)].
Proof.
  rewrite (irq_dump_print (Some (s2l "eth0"%string)) [timer; eth] table_ok). vm_compute. reflexivity.
Defined.
End Table.
