(* ===== verification/BenchBuffer.v ===== *)
(** * Buffers of the memory benchmark

    [tools/wayca-memory-bench/wayca-memory-bench.c]: the circular list that is
    walked to measure the latency, and the streams that are copied to measure the
    bandwidth. The cells of a buffer are its values of type [LATENCY_TYPE] or
    [STREAM_TYPE]. *)

From S2P Require Import Prelude.

Definition KiB : Z := 1024.
Definition MiB : Z := 1024 * KiB.
Definition GiB : Z := 1024 * MiB.

Definition LATENCY_CNT_PER_LOOP : Z := 16.
Definition TOTAL_BUFFER_CNT : Z := 3.

(** The static variables. *)
Record bench := mk_bench {
  random_access : bool;
  lat_bench : bool;
  bw_bench : bool;
  use_thp : bool;
  verbose : bool;
  buf_sz : Z;
  page_size : Z;
  latbench_count : Z;
  cacheline_size : Z;
  initiator_cpu : Z;
  target_cpu : Z;
  total_cpus : Z;
  iteration : Z;
  parallel : Z;
  stride : Z;
}.

(** [sizeof(LATENCY_TYPE)], [sizeof(STREAM_TYPE)] and [sizeof(next)]. *)
Definition cell_size : Z := 8.

(** The [int] where it meets an [unsigned long]. *)
Definition ustride (b : bench) : Z := to_ulong (stride b).

(** Division and remainder of [unsigned long]. *)
Definition udiv (x y : Z) : outcome Z := if y =? 0 then Fault DivByZero else Ok (x / y).
Definition umod (x y : Z) : outcome Z := if y =? 0 then Fault DivByZero else Ok (x mod y).

(** [a[i]] and [a[i] = x]. *)
Definition cell {A} (a : list A) (i : Z) : outcome A :=
  if i <? 0 then Fault OutOfBounds
  else match a !! Z.to_nat i with Some x => Ok x | None => Fault OutOfBounds end.
Definition set_cell {A} (a : list A) (i : Z) (x : A) : outcome (list A) :=
  if i <? 0 then Fault OutOfBounds
  else if decide (Z.to_nat i < length a)%nat then Ok (<[Z.to_nat i:=x]> a) else Fault OutOfBounds.

(** ** The circular list *)

(** What [alloc_buffers] allocates and fills, as cells from [buf_0] on; [got] is
    whether there was memory. *)
Definition alloc_buffers (got : bool) (b : bench) : option (list Z) :=
  let total_size := to_ulong (TOTAL_BUFFER_CNT * buf_sz b) in
  if got then Some (replicate (Z.to_nat (total_size / cell_size)) (-1)) else None.

(** The number and the new [seed]; [time] is what [time(NULL)] returns. *)
Definition lcg_prng (time : Z) (b : bench) (seed : Z) : outcome (Z * Z) :=
  if negb (random_access b) then Ok (ustride b, seed)
  else
    let seed := if seed =? 0 then to_ulong time else seed in
    let seed := to_ulong (to_ulong (1103515245 * seed) + 12345) mod 2 ^ 31 in
    slots ← udiv (page_size b) (ustride b);
    slot ← umod seed slots;
    Ok (to_ulong (to_ulong (slot * ustride b) + MiB), seed).

Definition fix_stride (b : bench) (seed : Z) : outcome (Z * Z) := Ok (ustride b, seed).

(** The search for a cell that is not linked yet. *)
Fixpoint probe (fuel : nat) (l : list Z) (step next : Z) : outcome Z :=
  match fuel with
  | O => Fault OutOfFuel
  | S fuel =>
    v ← cell l next;
    if v =? -1 then Ok next else probe fuel l step (to_ulong (next + step))
  end.

Section list.
Context (time : Z) (b : bench).

Definition prng : Z -> outcome (Z * Z) :=
  if random_access b then lcg_prng time b else fix_stride b.

(** The loop: the list, the last position and the seed. *)
Fixpoint link_loop (resident : nat) (len : Z) (l : list Z) (pos seed : Z)
    : outcome (list Z * Z * Z) :=
  match resident with
  | O => Ok (l, pos, seed)
  | S resident =>
    r ← prng seed;
    next ← umod (to_ulong (pos + r.1 / cell_size)) len;
    next ← probe (S (length l)) l (ustride b / cell_size mod len) next;
    l ← set_cell l pos next;
    link_loop resident len l next r.2
  end.

Definition init_circular_list (l : list Z) (seed : Z) : outcome (list Z * Z) :=
  let len := buf_sz b / cell_size in
  n ← udiv (buf_sz b) (ustride b);
  let resident := to_ulong (n - 1) in
  r ← link_loop (Z.to_nat resident) len l 0 seed;
  l ← set_cell r.1.1 r.1.2 0;
  Ok (l, r.2).
End list.

(** [for (i = 0; i < count; i += LATENCY_CNT_PER_LOOP)] with an [int]. *)
Fixpoint int_loop {A} (fuel : nat) (body : A -> outcome A) (i count : Z) (a : A) : outcome A :=
  match fuel with
  | O => Fault OutOfFuel
  | S fuel =>
    if i <? count then
      a ← body a;
      if INT_MAX <? i + LATENCY_CNT_PER_LOOP then Fault SignedOverflow
      else int_loop fuel body (i + LATENCY_CNT_PER_LOOP) count a
    else Ok a
  end.

(** [pos = list[pos]], [n] times. *)
Fixpoint chase (n : nat) (l : list Z) (pos : Z) : outcome Z :=
  match n with
  | O => Ok pos
  | S n => pos ← cell l pos; chase n l pos
  end.

Definition turns (b : bench) : nat := Z.to_nat (latbench_count b / LATENCY_CNT_PER_LOOP + 2).

Definition walk_circular_list (b : bench) (l : list Z) : outcome Z :=
  int_loop (turns b) (chase (Z.to_nat LATENCY_CNT_PER_LOOP) l) 0 (latbench_count b) 0.

Definition measure_list_walk_overhead (b : bench) : outcome unit :=
  int_loop (turns b) Ok 0 (latbench_count b) tt.

(** ** The streams *)

(** [info->buf_0], [info->buf_1] and [info->buf_2]. *)
Record buffer_info (D : Type) := mk_buffer_info {
  buf_0 : list D;
  buf_1 : list D;
  buf_2 : list D;
}.
Arguments mk_buffer_info {D}.
Arguments buf_0 {D}.
Arguments buf_1 {D}.
Arguments buf_2 {D}.

(** [for (i = 0; i < len; i++)]; the pointers that the loops advance are [i]
    behind the start of their buffers. *)
Fixpoint stream_loop {A} (body : Z -> A -> outcome A) (n : nat) (i : Z) (a : A) : outcome A :=
  match n with
  | O => Ok a
  | S n => a ← body i a; stream_loop body n (i + 1) a
  end.

Section stream.
(** [double] *)
Context {D : Type} (of_int : Z -> D) (fadd fmul : D -> D -> D).
Context (b : bench).

Definition SCALAR : D := of_int 188.

Definition stream_len : nat := Z.to_nat (buf_sz b / cell_size).

Definition init_stream_buffer : buffer_info D -> outcome (buffer_info D) :=
  stream_loop (fun i info =>
    b1 ← set_cell (buf_1 info) i (of_int 1);
    b2 ← set_cell (buf_2 info) i (of_int 2);
    Ok (mk_buffer_info (buf_0 info) b1 b2)) stream_len 0.

Definition set_buf_0 (info : buffer_info D) (i : Z) (x : D) : outcome (buffer_info D) :=
  b0 ← set_cell (buf_0 info) i x; Ok (mk_buffer_info b0 (buf_1 info) (buf_2 info)).

Definition do_stream_copy : buffer_info D -> outcome (buffer_info D) :=
  stream_loop (fun i info => x ← cell (buf_1 info) i; set_buf_0 info i x) stream_len 0.
Definition do_stream_scale : buffer_info D -> outcome (buffer_info D) :=
  stream_loop (fun i info => x ← cell (buf_1 info) i; set_buf_0 info i (fmul SCALAR x)) stream_len 0.
Definition do_stream_add : buffer_info D -> outcome (buffer_info D) :=
  stream_loop (fun i info =>
    x ← cell (buf_1 info) i; y ← cell (buf_2 info) i; set_buf_0 info i (fadd x y)) stream_len 0.
Definition do_stream_triad : buffer_info D -> outcome (buffer_info D) :=
  stream_loop (fun i info =>
    x ← cell (buf_1 info) i; y ← cell (buf_2 info) i;
    set_buf_0 info i (fadd x (fmul SCALAR y))) stream_len 0.
Definition measure_stream_overhead (info : buffer_info D) : outcome (buffer_info D) :=
  stream_loop (fun _ => Ok) stream_len 0 info.
End stream.

(** ** Cells *)

Lemma cell_lookup {A} (a : list A) i x : 0 <= i -> cell a i = Ok x <-> a !! Z.to_nat i = Some x.
Proof.
  intros Hi. unfold cell. destruct (Z.ltb_spec i 0); [lia|].
  destruct (a !! Z.to_nat i); split; congruence.
Qed.

Lemma cell_in {A} (a : list A) i : 0 <= i < Z.of_nat (length a) -> exists x, cell a i = Ok x.
Proof.
  intros Hi. destruct (lookup_lt_is_Some_2 a (Z.to_nat i)) as [x Hx]; [lia|].
  exists x. apply cell_lookup; [lia|done].
Qed.

Lemma set_cell_ok {A} (a : list A) i x :
  0 <= i < Z.of_nat (length a) -> set_cell a i x = Ok (<[Z.to_nat i:=x]> a).
Proof.
  intros Hi. unfold set_cell. destruct (Z.ltb_spec i 0); [lia|]. by rewrite decide_True by lia.
Qed.

Lemma cell_insert {A} (a : list A) i j x :
  0 <= i < Z.of_nat (length a) -> 0 <= j ->
  cell (<[Z.to_nat i:=x]> a) j = if decide (j = i) then Ok x else cell a j.
Proof.
  intros Hi Hj. unfold cell. destruct (Z.ltb_spec j 0); [lia|]. case_decide as E.
  - subst j. by rewrite list_lookup_insert_eq by lia.
  - by rewrite list_lookup_insert_ne by lia.
Qed.

(** ** The list is one cycle *)

(** [l] links the cells [v] to a cycle. *)
Definition cycle (l : list Z) (v : list Z) : Prop :=
  forall i x, v !! i = Some x ->
  exists y, v !! ((i + 1) `mod` length v)%nat = Some y /\ cell l x = Ok y.

Lemma chase_cycle l v m i x :
  cycle l v -> v !! i = Some x ->
  exists y, v !! ((i + m) `mod` length v)%nat = Some y /\ chase m l x = Ok y.
Proof.
  intros Hc. revert i x. induction m as [|m IH]; intros i x Hx; simpl.
  - pose proof (lookup_lt_Some _ _ _ Hx). rewrite Nat.add_0_r, Nat.mod_small by done. eauto.
  - destruct (Hc i x Hx) as (y & Hy & ->). obind.
    destruct (IH _ y Hy) as (z & Hz & ->). exists z. split; [|done].
    rewrite <- Hz. f_equal. rewrite Nat.Div0.add_mod_idemp_l. f_equal. lia.
Qed.

(** A path through the cells [v], the other cells blank. [width] bounds the
    positions. *)
Record path (width : Z) (l v : list Z) : Prop := {
  path_NoDup : NoDup v;
  path_range : Forall (fun x => 0 <= x < width) v;
  path_width : width <= Z.of_nat (length l);
  path_links : forall i x y, v !! i = Some x -> v !! S i = Some y -> cell l x = Ok y;
  path_blank : forall x, 0 <= x < width -> x ∉ v -> cell l x = Ok (-1);
}.

Lemma probe_finds width l v step fuel next seen :
  path width l v -> NoDup seen -> seen ⊆ v -> Forall (fun x => x < next) seen ->
  0 < step -> 0 <= next -> (length v < length seen + fuel)%nat -> width < 2 ^ 63 -> step < 2 ^ 63 ->
  next + Z.of_nat (length v - length seen) * step < width ->
  exists y, probe fuel l step next = Ok y /\ cell l y = Ok (-1) /\ 0 <= y < width /\
    (cell l next = Ok (-1) -> y = next).
Proof.
  intros Hp. revert next seen. induction fuel as [|fuel IH];
    intros next seen Hnd Hsub Hlt Hstep Hnext Hfuel Hw Hs Hend;
    pose proof (submseteq_length _ _ (NoDup_submseteq _ _ Hnd (fun x => Hsub x))) as Hle; [lia|].
  assert (next < width) as Hnw by nia. pose proof (path_width _ _ _ Hp). simpl.
  destruct (cell_in l next ltac:(lia)) as [v0 Hv0]. rewrite Hv0. obind.
  destruct (Z.eqb_spec v0 (-1)) as [->|Hne]; [by exists next|].
  destruct (decide (next ∈ v)) as [Hin|Hni];
    [|by rewrite (path_blank _ _ _ Hp) in Hv0 by (done || lia); simplify_eq].
  assert (NoDup (next :: seen)) as Hnd'.
  { constructor; [|done]. intros Hx. rewrite Forall_forall in Hlt. specialize (Hlt _ Hx). lia. }
  assert (next :: seen ⊆ v) as Hsub' by set_solver.
  pose proof (submseteq_length _ _ (NoDup_submseteq _ _ Hnd' (fun x => Hsub' x))) as Hle'.
  simpl in Hle'. assert (next + step < width) by nia.
  rewrite to_ulong_id by (unfold is_word; lia).
  destruct (IH (next + step) (next :: seen)) as (y & Hy & Hb & Hr & _);
    [done|done| |lia|lia|simpl; lia|lia|lia|simpl; nia|].
  - constructor; [lia|]. eapply Forall_impl; [done|]. simpl. lia.
  - exists y. split; [done|]. split; [done|]. split; [done|]. intros [= ->]. done.
Qed.

Lemma path_last_index (v : list Z) pos i :
  NoDup v -> last v = Some pos -> v !! i = Some pos -> S i = length v.
Proof.
  intros Hnd Hl Hi. rewrite last_lookup in Hl.
  pose proof (NoDup_lookup _ _ _ _ Hnd Hi Hl). pose proof (lookup_lt_Some _ _ _ Hi). lia.
Qed.

(** Only the last cell of a path is blank. *)
Lemma path_blank_last width l v pos x :
  path width l v -> last v = Some pos -> cell l x = Ok (-1) -> x ∈ v -> x = pos.
Proof.
  intros Hp Hl Hx [i Hi]%list_elem_of_lookup.
  destruct (v !! S i) as [y|] eqn:Hy.
  - rewrite (path_links _ _ _ Hp _ _ _ Hi Hy) in Hx. simplify_eq.
    pose proof (path_range _ _ _ Hp) as Hr. rewrite Forall_lookup in Hr.
    specialize (Hr _ _ Hy). simpl in Hr. lia.
  - apply lookup_ge_None in Hy. pose proof (lookup_lt_Some _ _ _ Hi).
    rewrite last_lookup in Hl. replace (pred (length v)) with i in Hl by lia. congruence.
Qed.

Lemma path_last_range width l v pos :
  path width l v -> last v = Some pos -> 0 <= pos < width /\ pos < Z.of_nat (length l).
Proof.
  intros Hp Hl. pose proof (path_width _ _ _ Hp).
  pose proof (path_range _ _ _ Hp) as Hr. rewrite Forall_forall in Hr.
  specialize (Hr pos ltac:(apply last_Some_elem_of; done)). simpl in Hr. lia.
Qed.

(** Writing the last cell changes neither the links nor the blank cells. *)
Lemma path_write width l v pos next :
  path width l v -> last v = Some pos -> path width (<[Z.to_nat pos:=next]> l) v.
Proof.
  intros Hp Hl. destruct (path_last_range _ _ _ _ Hp Hl).
  constructor; try apply Hp; [by rewrite length_insert; apply Hp| |].
  - intros i x y Hx Hy. pose proof (path_range _ _ _ Hp) as Hr. rewrite Forall_lookup in Hr.
    specialize (Hr _ _ Hx) as Hrx. simpl in Hrx. rewrite cell_insert by lia.
    rewrite decide_False; [by apply (path_links _ _ _ Hp i)|].
    intros ->. pose proof (path_last_index v pos i (path_NoDup _ _ _ Hp) Hl Hx).
    pose proof (lookup_lt_Some _ _ _ Hy). lia.
  - intros x Hx Hni. rewrite cell_insert by lia.
    rewrite decide_False; [by apply (path_blank _ _ _ Hp)|].
    intros ->. apply Hni, last_Some_elem_of, Hl.
Qed.

(** A blank cell extends the path. *)
Lemma path_extend width l v pos next :
  path width l v -> last v = Some pos -> 0 <= next < width -> next ∉ v ->
  path width (<[Z.to_nat pos:=next]> l) (v ++ [next]).
Proof.
  intros Hp Hl Hn Hni. destruct (path_last_range _ _ _ _ Hp Hl) as [? ?].
  pose proof (path_write _ _ _ _ next Hp Hl) as Hw. constructor.
  - apply NoDup_app. split; [apply Hp|]. split; [|apply NoDup_singleton]. set_solver.
  - apply Forall_app. split; [apply Hp|by apply Forall_singleton].
  - apply Hw.
  - intros i x y Hx Hy. destruct (decide (S i < length v)%nat) as [Hlt|Hge].
    + rewrite lookup_app_l in Hx, Hy by lia. by apply (path_links _ _ _ Hw i).
    + pose proof (lookup_lt_Some _ _ _ Hy) as Hb. rewrite length_app in Hb. simpl in Hb.
      rewrite lookup_app_l in Hx by lia. rewrite lookup_app_r in Hy by lia.
      replace (S i - length v)%nat with 0%nat in Hy by lia. simplify_eq/=.
      rewrite last_lookup in Hl. replace (pred (length v)) with i in Hl by lia. simplify_eq.
      rewrite cell_insert by lia. by rewrite decide_True.
  - intros x Hx Hxn. apply (path_blank _ _ _ Hw); [done|]. set_solver.
Qed.

Definition grow (v : list Z) (next : Z) : list Z := if decide (next ∈ v) then v else v ++ [next].

Lemma path_link width l v pos next :
  path width l v -> last v = Some pos -> 0 <= next < width -> cell l next = Ok (-1) ->
  path width (<[Z.to_nat pos:=next]> l) (grow v next) /\ last (grow v next) = Some next.
Proof.
  intros Hp Hl Hn Hb. unfold grow. case_decide as Hin.
  - rewrite (path_blank_last _ _ _ _ _ Hp Hl Hb Hin). split; [by apply path_write|done].
  - split; [by apply path_extend|]. apply last_snoc.
Qed.

Lemma grow_hd v next x : v !! 0%nat = Some x -> grow v next !! 0%nat = Some x.
Proof. unfold grow. case_decide; [done|]. by destruct v. Qed.

Lemma length_grow v next : (length (grow v next) <= S (length v))%nat.
Proof. unfold grow. case_decide; rewrite ?length_app; simpl; lia. Qed.

(** Linking the last cell to the first closes the cycle. *)
Lemma path_close width l v pos :
  path width l v -> last v = Some pos -> v !! 0%nat = Some 0 -> cycle (<[Z.to_nat pos:=0]> l) v.
Proof.
  intros Hp Hl H0 i x Hx. pose proof (lookup_lt_Some _ _ _ Hx) as Hi.
  destruct (path_last_range _ _ _ _ Hp Hl) as [? ?].
  destruct (decide (S i < length v)%nat) as [Hlt|Hge].
  - destruct (lookup_lt_is_Some_2 v (S i) Hlt) as [y Hy]. exists y.
    rewrite Nat.add_1_r, Nat.mod_small by done. split; [done|].
    by apply (path_links _ _ _ (path_write _ _ _ _ 0 Hp Hl) i).
  - exists 0. replace (i + 1)%nat with (length v) by lia. rewrite Nat.Div0.mod_same. split; [done|].
    rewrite last_lookup in Hl. replace (pred (length v)) with i in Hl by lia. simplify_eq.
    rewrite cell_insert by lia. by rewrite decide_True.
Qed.

(** The options that the benchmark is meant for. *)
Record list_ok (b : bench) : Prop := {
  ok_stride : 0 < stride b;
  ok_aligned : stride b mod cell_size = 0;
  ok_fits : stride b <= buf_sz b;
  ok_size : buf_sz b < 2 ^ 60;
  ok_page : random_access b = true -> stride b <= page_size b < 2 ^ 60;
}.

(** The number of cells of [buf_0], the cells between two links and the number
    of links. *)
Definition len (b : bench) : Z := buf_sz b / cell_size.
Definition gap (b : bench) : Z := stride b / cell_size.
Definition links (b : bench) : Z := buf_sz b / stride b.

Lemma list_sizes b :
  list_ok b -> 0 < gap b /\ 1 <= links b /\ links b * gap b <= len b /\ len b < 2 ^ 60 /\
  ustride b = stride b /\ stride b = cell_size * gap b.
Proof.
  intros [Hs Ha Hf Hz _]. unfold gap, links, len, ustride, cell_size in *.
  rewrite to_ulong_id by (unfold is_word; lia).
  assert (stride b = 8 * (stride b / 8)) as E by zdm. set (g := stride b / 8) in *.
  split; [lia|]. split; [apply Z.div_le_lower_bound; lia|]. split; [|split; [zdm|done]].
  apply Z.div_le_lower_bound; [lia|]. rewrite E at 1.
  pose proof (Z.mul_div_le (buf_sz b) (8 * g)). lia.
Qed.

(** Every number generator that the options allow returns a number. *)
Lemma prng_ok time b seed :
  list_ok b -> exists r seed', prng time b seed = Ok (r, seed') /\
    (random_access b = false -> r = stride b).
Proof.
  intros Hok. destruct (list_sizes b Hok) as (? & ? & ? & ? & Eu & ?).
  unfold prng, fix_stride, lcg_prng. destruct (random_access b) eqn:Er; simpl.
  - destruct (ok_page b Hok Er). pose proof (ok_stride b Hok). unfold udiv. rewrite Eu.
    destruct (Z.eqb_spec (stride b) 0); [lia|]. obind. unfold umod.
    assert (0 < page_size b / stride b) by (apply Z.div_str_pos; lia).
    destruct (Z.eqb_spec (page_size b / stride b) 0); [lia|]. obind. by eexists _, _.
  - rewrite Eu. by eexists _, _.
Qed.

(** Multiples of the gap. *)
Definition multiples (g n : Z) : list Z := (fun i => i * g) <$> seqZ 0 n.

Lemma multiples_snoc g n : 0 <= n -> multiples g (n + 1) = multiples g n ++ [n * g].
Proof. intros. unfold multiples. by rewrite seqZ_snoc, fmap_app by done. Qed.

Lemma elem_of_multiples g n x :
  x ∈ multiples g n <-> exists i, 0 <= i < n /\ x = i * g.
Proof.
  unfold multiples. rewrite list_elem_of_fmap. setoid_rewrite elem_of_seqZ.
  split; intros (i & ? & ?); exists i; (split; [done || lia|done || lia]).
Qed.

Section cycle.
Context (time : Z) (b : bench) (Hok : list_ok b).

(** One turn of the loop. *)
Lemma link_step l v pos seed :
  path (2 * len b) l v -> last v = Some pos -> Z.of_nat (length v) < links b ->
  exists r target next,
    prng time b seed = Ok r /\
    umod (to_ulong (pos + r.1 / cell_size)) (len b) = Ok target /\
    probe (S (length l)) l (ustride b / cell_size mod len b) target = Ok next /\
    set_cell l pos next = Ok (<[Z.to_nat pos:=next]> l) /\
    path (2 * len b) (<[Z.to_nat pos:=next]> l) (grow v next) /\
    last (grow v next) = Some next /\
    (random_access b = false -> v = multiples (gap b) (Z.of_nat (length v)) ->
     grow v next = multiples (gap b) (Z.of_nat (length v) + 1)).
Proof using Hok.
  intros Hp Hl Hn. destruct (list_sizes b Hok) as (Hg & Hl1 & Hlen & Hsz & Eu & Es).
  destruct (path_last_range _ _ _ _ Hp Hl) as [Hpos Hpl]. pose proof (path_width _ _ _ Hp) as Hw.
  destruct (prng_ok time b seed Hok) as (r & seed' & Hr & Hseq).
  assert (0 < len b) by nia.
  assert (length v <> 0)%nat by (destruct v; [done|simpl; lia]).
  assert (Z.of_nat (length v) * gap b <= len b - gap b) as Hroom by nia.
  set (target := to_ulong (pos + r / cell_size) mod len b).
  assert (0 <= target < len b) as Ht by (apply Z.mod_pos_bound; lia).
  assert (ustride b / cell_size mod len b = gap b) as Estep.
  { rewrite Eu. apply Z.mod_small. fold (gap b). nia. }
  destruct (probe_finds (2 * len b) l v (gap b) (S (length l)) target []) as (next & Hnx & Hb & Hrange & Hfirst);
    [done|constructor|set_solver|constructor|done|lia| |lia|lia|simpl; nia|].
  { simpl. assert (Z.of_nat (length v) < Z.of_nat (length l)) by nia. lia. }
  exists (r, seed'), target, next. rewrite Estep. split; [done|]. split.
  { unfold umod. destruct (Z.eqb_spec (len b) 0); [lia|done]. }
  split; [done|]. split; [by apply set_cell_ok; lia|].
  destruct (path_link _ _ _ _ next Hp Hl Hrange Hb) as [Hp' Hl']. split; [done|]. split; [done|].
  intros Er Ev. specialize (Hseq Er). subst r.
  assert (pos = (Z.of_nat (length v) - 1) * gap b) as Epos.
  { rewrite Ev in Hl. set (k := Z.of_nat (length v)) in *.
    replace k with (k - 1 + 1) in Hl by lia. rewrite multiples_snoc, last_snoc in Hl by lia. congruence. }
  assert (target = Z.of_nat (length v) * gap b) as Et.
  { unfold target. change (stride b / cell_size) with (gap b).
    rewrite to_ulong_id by (unfold is_word; lia). rewrite Z.mod_small; lia. }
  assert (target ∉ v) as Hni.
  { rewrite Ev, Et. intros (i & Hi & Ei)%elem_of_multiples. nia. }
  rewrite Hfirst by (apply (path_blank _ _ _ Hp); [lia|done]).
  unfold grow. rewrite decide_False by done. rewrite multiples_snoc by lia. by rewrite <- Ev, Et.
Qed.

Lemma link_loop_path n l v pos seed :
  path (2 * len b) l v -> last v = Some pos -> v !! 0%nat = Some 0 ->
  Z.of_nat (length v) + Z.of_nat n <= links b ->
  exists l' v' pos' seed',
    link_loop time b n (len b) l pos seed = Ok (l', pos', seed') /\
    path (2 * len b) l' v' /\ last v' = Some pos' /\ v' !! 0%nat = Some 0 /\
    Z.of_nat (length v') <= Z.of_nat (length v) + Z.of_nat n /\
    (random_access b = false -> v = multiples (gap b) (Z.of_nat (length v)) ->
     v' = multiples (gap b) (Z.of_nat (length v) + Z.of_nat n)).
Proof using Hok.
  revert l v pos seed. induction n as [|n IH]; intros l v pos seed Hp Hl H0 Hn.
  - exists l, v, pos, seed. rewrite Z.add_0_r. by repeat (split; [done || lia|]).
  - destruct (link_step l v pos seed) as (r & t & next & Hr & Ht & Hnx & Hset & Hp' & Hl' & Hseq);
      [done|done|lia|]. pose proof (length_grow v next).
    cbn [link_loop]. rewrite Hr. obind. rewrite Ht. obind. rewrite Hnx. obind. rewrite Hset. obind.
    destruct (IH (<[Z.to_nat pos:=next]> l) (grow v next) next r.2)
      as (l' & v' & pos' & seed' & Hrun & ? & ? & ? & ? & Hseq');
      [done|done|by apply grow_hd|lia|].
    exists l', v', pos', seed'. split; [exact Hrun|]. repeat (split; [done || lia|]).
    intros Er Ev. specialize (Hseq Er Ev).
    assert (Z.of_nat (length (grow v next)) = Z.of_nat (length v) + 1) as El.
    { rewrite Hseq. unfold multiples. rewrite length_fmap, length_seqZ. lia. }
    rewrite Hseq' by (done || by rewrite El). f_equal. lia.
Qed.

Lemma init_circular_list_path l seed :
  alloc_buffers true b = Some l ->
  exists l' v seed',
    init_circular_list time b l seed = Ok (l', seed') /\ cycle l' v /\ NoDup v /\
    v !! 0%nat = Some 0 /\ Z.of_nat (length v) <= links b /\
    Forall (fun x => 0 <= x < 2 * len b) v /\
    (random_access b = false -> v = multiples (gap b) (links b)).
Proof using Hok.
  destruct (list_sizes b Hok) as (Hg & Hl1 & Hlen & Hsz & Eu & Es). pose proof (ok_stride b Hok).
  pose proof (ok_fits b Hok). pose proof (ok_size b Hok).
  unfold alloc_buffers, TOTAL_BUFFER_CNT. rewrite to_ulong_id by (unfold is_word; lia). intros [= <-].
  set (l := replicate _ _). assert (path (2 * len b) l [0]) as Hp.
  { assert (2 * len b <= Z.of_nat (length l)) as Hw.
    { unfold l. rewrite length_replicate. unfold len, cell_size in *. zdm. }
    constructor; [apply NoDup_singleton|apply Forall_singleton; nia|done| |].
    - intros [|i] x y; simpl; [done|]. by rewrite lookup_nil.
    - intros x Hx _. apply cell_lookup; [lia|]. unfold l in *. rewrite length_replicate in Hw.
      apply lookup_replicate. split; [done|lia]. }
  unfold init_circular_list, udiv. rewrite Eu. destruct (Z.eqb_spec (stride b) 0); [lia|]. obind.
  fold (links b) (len b). rewrite to_ulong_id by (unfold is_word, links in *; split; [lia|];
    apply Z.le_lt_trans with (buf_sz b); [|lia]; pose proof (Z.div_le_upper_bound (buf_sz b) (stride b) (buf_sz b)); nia).
  destruct (link_loop_path (Z.to_nat (links b - 1)) l [0] 0 seed Hp eq_refl eq_refl ltac:(simpl; lia))
    as (l' & v & pos & seed' & Hrun & Hp' & Hl & Hhd & Hle & Hseq).
  rewrite Hrun. obind. destruct (path_last_range _ _ _ _ Hp' Hl) as [? ?].
  simpl fst. simpl snd. rewrite set_cell_ok by lia. obind.
  eexists _, v, seed'. split; [reflexivity|]. split; [by eapply path_close|].
  split; [apply Hp'|]. split; [done|]. split; [simpl in Hle; lia|]. split; [apply Hp'|].
  intros Er. rewrite Hseq by done. f_equal. simpl. lia.
Qed.

(** C18. Building the circular list succeeds: the links from cell 0 form one cycle
    of distinct cells that returns to cell 0, of at most [buf_sz / stride] cells
    and inside the memory that was allocated; when the walk is not random they are
    the multiples of the stride, all [buf_sz / stride] of them. *)
Theorem init_circular_list_cycle l seed :
  alloc_buffers true b = Some l ->
  exists l' v seed',
    init_circular_list time b l seed = Ok (l', seed') /\ cycle l' v /\ NoDup v /\
    v !! 0%nat = Some 0 /\ Z.of_nat (length v) <= links b /\
    Forall (fun x => 0 <= x < 2 * len b) v /\
    (random_access b = false -> v = multiples (gap b) (links b)).
Proof using Hok. apply init_circular_list_path. Qed.
End cycle.

(** ** The walk *)

(** [body], [n] times. *)
Fixpoint times {A} (n : nat) (body : A -> outcome A) (a : A) : outcome A :=
  match n with
  | O => Ok a
  | S n => a ← body a; times n body a
  end.

Lemma int_loop_times {A} (body : A -> outcome A) n fuel i a :
  (n < fuel)%nat -> i + 16 * Z.of_nat n <= INT_MAX ->
  int_loop fuel body i (i + 16 * Z.of_nat n) a = times n body a.
Proof.
  revert fuel i a. induction n as [|n IH]; intros [|fuel] i a Hf Hi; try lia; cbn [int_loop times].
  - by destruct (Z.ltb_spec i (i + 16 * Z.of_nat 0)); [lia|].
  - destruct (Z.ltb_spec i (i + 16 * Z.of_nat (S n))); [|lia].
    destruct (body a) as [a'|]; [|done]. obind. unfold LATENCY_CNT_PER_LOOP.
    destruct (Z.ltb_spec INT_MAX (i + 16)); [lia|].
    replace (i + 16 * Z.of_nat (S n)) with (i + 16 + 16 * Z.of_nat n) by lia.
    apply IH; lia.
Qed.

(** When the count is too large the index overflows, if nothing else fails. *)
Lemma int_loop_overflow {A} (P : A -> Prop) (body : A -> outcome A) count n fuel i a :
  (forall a, P a -> exists a', body a = Ok a' /\ P a') -> P a ->
  (n < fuel)%nat -> i + 16 * Z.of_nat n = 2 ^ 31 - 16 -> 2 ^ 31 - 16 < count ->
  int_loop fuel body i count a = Fault SignedOverflow.
Proof.
  intros Hbody. revert fuel i a. induction n as [|n IH]; intros [|fuel] i a HP Hf Hi Hc; try lia;
    cbn [int_loop]; destruct (Z.ltb_spec i count); try lia;
    destruct (Hbody a HP) as (a' & -> & HP'); obind; unfold LATENCY_CNT_PER_LOOP, INT_MAX in *.
  - by destruct (Z.ltb_spec (2 ^ 31 - 1) (i + 16)); [|lia].
  - destruct (Z.ltb_spec (2 ^ 31 - 1) (i + 16)); [lia|]. apply IH; (done || lia).
Qed.

Lemma chase_add m n l x : chase (m + n) l x = chase m l x ≫= chase n l.
Proof.
  revert x. induction m as [|m IH]; intros x; simpl; [done|].
  destruct (cell l x); [|done]. obind. apply IH.
Qed.

Lemma times_chase n m l x : times n (chase m l) x = chase (n * m) l x.
Proof.
  revert x. induction n as [|n IH]; intros x; [done|]. cbn [times Nat.mul]. rewrite chase_add.
  destruct (chase m l x); [|done]. obind. apply IH.
Qed.

(** The walk over a cycle stays on it. *)
Lemma walk_cycle b l v n :
  cycle l v -> v !! 0%nat = Some 0 -> latbench_count b = 16 * Z.of_nat n ->
  latbench_count b <= INT_MAX ->
  exists y, walk_circular_list b l = Ok y /\ v !! ((n * 16) `mod` length v)%nat = Some y.
Proof.
  intros Hc H0 En Hn. unfold walk_circular_list, turns, LATENCY_CNT_PER_LOOP. rewrite En in *.
  pose proof (int_loop_times (chase (Z.to_nat 16) l) n
    (Z.to_nat (16 * Z.of_nat n / 16 + 2)) 0 0) as H. rewrite Z.add_0_l in H.
  rewrite H, times_chase by zdm.
  destruct (chase_cycle l v (n * 16) 0 0 Hc H0) as (y & Hy & Hch). exists y. split; [|done].
  exact Hch.
Qed.

Lemma lookup_multiples g n i : 0 <= i < n -> multiples g n !! Z.to_nat i = Some (i * g).
Proof.
  intros Hi. unfold multiples. rewrite list_lookup_fmap, lookup_seqZ_lt by lia. cbn. f_equal. rewrite Z2Nat.id by lia. done.
Qed.

Lemma length_multiples g n : length (multiples g n) = Z.to_nat n.
Proof. unfold multiples. by rewrite length_fmap, length_seqZ. Qed.

(** The walk over the list that was built for sequential access: load [m] is
    from link [m] modulo the number of links, so that each of the [buf_sz / stride]
    links is loaded 16 times, and the walk ends at cell 0 without reading outside
    the buffer. *)
Theorem sequential_walk time b l seed :
  list_ok b -> random_access b = false -> latbench_count b = links b * LATENCY_CNT_PER_LOOP ->
  latbench_count b <= INT_MAX -> alloc_buffers true b = Some l ->
  exists l' seed',
    init_circular_list time b l seed = Ok (l', seed') /\
    walk_circular_list b l' = Ok 0 /\
    forall m, 0 <= m -> chase (Z.to_nat m) l' 0 = Ok (m mod links b * gap b).
Proof.
  intros Hok Er Hcount Hmax Hl. destruct (list_sizes b Hok) as (Hg & Hl1 & _).
  destruct (init_circular_list_path time b Hok l seed Hl)
    as (l' & v & seed' & Hinit & Hc & _ & H0 & _ & _ & Hv). specialize (Hv Er).
  exists l', seed'. split; [done|].
  assert (forall i, 0 <= i -> v !! (Z.to_nat i `mod` length v)%nat = Some (i mod links b * gap b)) as Hat.
  { intros i Hi. rewrite Hv, length_multiples. rewrite <- Z2Nat.inj_mod by lia.
    apply lookup_multiples, Z.mod_pos_bound. lia. }
  split.
  - destruct (walk_cycle b l' v (Z.to_nat (links b)) Hc H0) as (y & -> & Hy);
      [rewrite Hcount; unfold LATENCY_CNT_PER_LOOP; lia|done|].
    replace (Z.to_nat (links b) * 16)%nat with (Z.to_nat (16 * links b)) in Hy by lia.
    rewrite Hat, Z.mod_mul in Hy by lia. by simplify_eq/=.
  - intros m Hm. destruct (chase_cycle l' v (Z.to_nat m) 0 0 Hc H0) as (y & Hy & ->).
    rewrite Nat.add_0_l, Hat in Hy by done. by simplify_eq.
Qed.

(** A list that needs more than 2^31 - 16 loads: the index of the walk overflows. *)
Theorem long_walk_overflows b l v :
  cycle l v -> v !! 0%nat = Some 0 -> 2 ^ 31 - 16 < latbench_count b ->
  walk_circular_list b l = Fault SignedOverflow.
Proof.
  intros Hc H0 Hn. unfold walk_circular_list.
  apply (int_loop_overflow (fun x => exists i, v !! i = Some x) _ _ (Z.to_nat (2 ^ 27 - 1)));
    [|eauto|unfold turns, LATENCY_CNT_PER_LOOP; zdm|lia|done].
  intros a [i Hi]. destruct (chase_cycle l v (Z.to_nat LATENCY_CNT_PER_LOOP) i a Hc Hi) as (y & Hy & Hch).
  eauto.
Qed.

(** ** The streams *)

Section stream_spec.
Context {D : Type} (of_int : Z -> D) (fadd fmul : D -> D -> D) (b : bench).

(** The loops over three buffers that write [buf_0] from the other two. *)
Lemma stream_writes (body : Z -> buffer_info D -> outcome (buffer_info D)) (g : D -> D -> D) b1 b2 :
  length b1 = stream_len b -> length b2 = stream_len b ->
  (forall i b0 x y, b1 !! Z.to_nat i = Some x -> b2 !! Z.to_nat i = Some y -> 0 <= i ->
    body i (mk_buffer_info b0 b1 b2) = set_buf_0 (mk_buffer_info b0 b1 b2) i (g x y)) ->
  forall b0, length b0 = stream_len b ->
  stream_loop body (stream_len b) 0 (mk_buffer_info b0 b1 b2) =
  Ok (mk_buffer_info (zip_with g b1 b2) b1 b2).
Proof.
  intros H1 H2 Hbody b0 H0.
  assert (forall n i b0, (i + n = stream_len b)%nat -> length b0 = stream_len b ->
    stream_loop body n (Z.of_nat i) (mk_buffer_info b0 b1 b2) =
    Ok (mk_buffer_info (take i b0 ++ drop i (zip_with g b1 b2)) b1 b2)) as Hloop.
  { clear b0 H0. intros n. induction n as [|n IH]; intros i b0 Hi H0; cbn [stream_loop].
    - rewrite Nat.add_0_r in Hi. rewrite take_ge, drop_ge by (rewrite ?length_zip_with; lia).
      by rewrite app_nil_r.
    - destruct (lookup_lt_is_Some_2 b1 i) as [x Hx]; [lia|].
      destruct (lookup_lt_is_Some_2 b2 i) as [y Hy]; [lia|].
      rewrite (Hbody _ _ x y) by (rewrite ?Nat2Z.id; done || lia).
      unfold set_buf_0; cbn [buf_0 buf_1 buf_2]. rewrite set_cell_ok by lia. obind. rewrite Nat2Z.id.
      replace (Z.of_nat i + 1) with (Z.of_nat (S i)) by lia.
      rewrite IH by (rewrite ?length_insert; lia). do 2 f_equal.
      rewrite (take_S_r _ _ (g x y)) by (apply list_lookup_insert_eq; lia).
      rewrite take_insert_ge by lia. rewrite <- app_assoc. f_equal. cbn. symmetry. apply drop_S.
      rewrite lookup_zip_with. by rewrite Hx, Hy. }
  exact (Hloop (stream_len b) 0%nat b0 eq_refl H0).
Qed.

(** The four measurements compute what their names say, element by element. *)
Theorem streams_compute info :
  length (buf_0 info) = stream_len b -> length (buf_1 info) = stream_len b ->
  length (buf_2 info) = stream_len b ->
  let result b0 := Ok (mk_buffer_info b0 (buf_1 info) (buf_2 info)) in
  do_stream_copy b info = result (buf_1 info) /\
  do_stream_scale of_int fmul b info = result (fmul (SCALAR of_int) <$> buf_1 info) /\
  do_stream_add fadd b info = result (zip_with fadd (buf_1 info) (buf_2 info)) /\
  do_stream_triad of_int fadd fmul b info =
    result (zip_with (fun x y => fadd x (fmul (SCALAR of_int) y)) (buf_1 info) (buf_2 info)).
Proof.
  destruct info as [b0 b1 b2]. cbn [buf_0 buf_1 buf_2]. intros H0 H1 H2.
  assert (forall i x y, b1 !! Z.to_nat i = Some x -> b2 !! Z.to_nat i = Some y -> 0 <= i ->
    cell b1 i = Ok x /\ cell b2 i = Ok y) as Hcell.
  { intros i x y Hx Hy Hi. by split; apply cell_lookup. }
  assert (forall g : D -> D, zip_with (fun x _ => g x) b1 b2 = g <$> b1) as Hleft.
  { intros g. rewrite <- H2 in H1. clear -H1. revert b2 H1.
    induction b1 as [|x b1 IH]; intros [|y b2] [=]; cbn; [done|]. by rewrite IH. }
  split; [|split; [|split]].
  - unfold do_stream_copy. rewrite (stream_writes _ (fun x _ => x)); try done.
    + rewrite Hleft. by rewrite list_fmap_id.
    + intros i b0' x y Hx Hy Hi. destruct (Hcell i x y) as [E ?]; [done..|]. cbn [buf_1]. by rewrite E.
  - unfold do_stream_scale. rewrite (stream_writes _ (fun x _ => fmul (SCALAR of_int) x)); try done.
    + by rewrite Hleft.
    + intros i b0' x y Hx Hy Hi. destruct (Hcell i x y) as [E ?]; [done..|]. cbn [buf_1]. by rewrite E.
  - unfold do_stream_add. rewrite (stream_writes _ fadd); try done.
    intros i b0' x y Hx Hy Hi. destruct (Hcell i x y) as [E1 E2]; [done..|]. cbn [buf_1 buf_2].
    by rewrite E1, E2.
  - unfold do_stream_triad.
    rewrite (stream_writes _ (fun x y => fadd x (fmul (SCALAR of_int) y))); try done.
    intros i b0' x y Hx Hy Hi. destruct (Hcell i x y) as [E1 E2]; [done..|]. cbn [buf_1 buf_2].
    by rewrite E1, E2.
Qed.
End stream_spec.

(** ** Lists that are not what they should be *)

(** A buffer that is shorter than a link: the search for a free cell does not end. *)
Theorem short_buffer_diverges time b l seed :
  random_access b = false -> 0 < stride b < 2 ^ 31 -> 0 < len b ->
  buf_sz b < stride b -> 0 <= buf_sz b -> gap b mod len b = 0 ->
  alloc_buffers true b = Some l -> init_circular_list time b l seed = Fault OutOfFuel.
Proof.
  intros Er Hs Hlen Hlt Hb0 Hgap.
  unfold alloc_buffers, TOTAL_BUFFER_CNT. rewrite to_ulong_id by (unfold is_word; lia).
  intros [= <-]. set (l := replicate _ _).
  assert (0 < Z.of_nat (length l)) as Hl.
  { unfold l. rewrite length_replicate. unfold len, cell_size in *. zdm. }
  assert (ustride b = stride b) as Eu by (apply to_ulong_id; unfold is_word; lia).
  unfold init_circular_list, udiv. rewrite Eu. destruct (Z.eqb_spec (stride b) 0); [lia|]. obind.
  rewrite Z.div_small by lia. change (to_ulong (0 - 1)) with (Z.succ (Z.succ (2 ^ 64 - 3))).
  rewrite !Z2Nat.inj_succ by lia. fold (len b). cbn [link_loop].
  unfold prng, fix_stride. rewrite Er, Eu. obind. cbn [fst snd]. fold (gap b).
  assert (0 <= gap b < 2 ^ 31) as Hg by (unfold gap, cell_size in *; zdm).
  unfold umod. destruct (Z.eqb_spec (len b) 0); [lia|]. obind. rewrite Z.add_0_l.
  rewrite (to_ulong_id (gap b)) by (unfold is_word; lia). rewrite Hgap.
  assert (cell l 0 = Ok (-1)) as Hc.
  { apply cell_lookup; [lia|]. apply lookup_replicate. unfold l in Hl. rewrite length_replicate in Hl.
    split; [done|lia]. }
  cbn [probe]. rewrite Hc. obind. cbn [Z.eqb Pos.eqb]. obind.
  rewrite set_cell_ok by lia. obind. rewrite Z.add_0_l.
  cbn [fst]. fold (gap b).
  rewrite (to_ulong_id (gap b)) by (unfold is_word; lia). rewrite Hgap.
  rewrite cell_insert by lia. rewrite decide_True by done. obind. cbn [Z.eqb].
  assert (forall fuel, probe fuel (<[Z.to_nat 0:=0]> l) 0 0 = Fault OutOfFuel) as Hp.
  { intros fuel. induction fuel as [|fuel IH]; [done|]. cbn [probe].
    rewrite cell_insert by lia. rewrite decide_True by done. obind. exact IH. }
  change (to_ulong (0 + 0)) with 0. by rewrite Hp.
Qed.

Module SmallBuffer.
Definition bench_of (buf_sz stride : Z) (random : bool) : bench :=
  mk_bench random true true false false buf_sz 4096 (buf_sz / stride * 16) 64 (-1) (-1) 1 1 2 stride.

Definition four_links : bench := bench_of 256 64 false.
Definition eight_cells : bench := bench_of 64 8 true.

Lemma four_links_ok : list_ok four_links.
Proof. by constructor; vm_compute. Qed.
Lemma eight_cells_ok : list_ok eight_cells.
Proof. by constructor; vm_compute. Qed.

Definition blank (b : bench) : list Z := default [] (alloc_buffers true b).

Lemma init_circular_list_cycle_witness :
  exists l' v seed',
    init_circular_list 3 eight_cells (blank eight_cells) 0 = Ok (l', seed') /\ cycle l' v /\ NoDup v /\
    v !! 0%nat = Some 0 /\ Z.of_nat (length v) <= links eight_cells /\
    Forall (fun x => 0 <= x < 2 * len eight_cells) v /\
    (random_access eight_cells = false -> v = multiples (gap eight_cells) (links eight_cells)).
Proof. apply (init_circular_list_cycle 3 eight_cells eight_cells_ok). reflexivity. Defined.

Lemma sequential_walk_witness :
  exists l' seed',
    init_circular_list 3 four_links (blank four_links) 0 = Ok (l', seed') /\
    walk_circular_list four_links l' = Ok 0 /\
    forall m, 0 <= m -> chase (Z.to_nat m) l' 0 = Ok (m mod links four_links * gap four_links).
Proof.
  apply (sequential_walk 3 four_links _ 0 four_links_ok); [reflexivity|reflexivity|by vm_compute|reflexivity].
Defined.

(** The search for a free cell does not wrap around at the end of [buf_0]: cell 8
    of a list of 8 cells is linked, and it lies in [buf_1]. The list has 7 links
    instead of 8, because a cell that is its own successor counts as a turn. *)
Lemma random_list_leaves_buf_0 :
  exists l' seed', init_circular_list 3 eight_cells (blank eight_cells) 0 = Ok (l', seed') /\
    ((fun n => chase n l' 0) <$> seq 1 7) = (Ok <$> [1; 7; 6; 2; 8; 3; 0]) /\
    cell l' (len eight_cells) = Ok 3.
Proof. eexists _, _. split; [vm_compute; reflexivity|]. vm_compute. by split. Qed.

Definition short : bench := bench_of 64 128 false.

Lemma short_buffer_diverges_witness : init_circular_list 3 short (blank short) 0 = Fault OutOfFuel.
Proof. apply short_buffer_diverges; (reflexivity || (vm_compute; repeat split; congruence)). Defined.
End SmallBuffer.
