(* ===== verification/Bench.v ===== *)
(** * Threads of the memory benchmark

    [do_bench] and [bench_thread] of [wayca-memory-bench.c]: a thread that allocates
    the buffers, threads that measure, and the thread that creates them, synchronised
    by the bytes in three pipes and by cancellation. A step is one action of one
    thread; which thread is next is chosen by the environment. The allocation, the
    creation of threads and their binding may fail; the pipes have room for all
    signals, and reads and writes on them do not fail. *)

From S2P Require Import Prelude Bitops BenchBuffer.

(** Where a thread is in [bench_thread]. *)
Inductive tloc :=
  | TNone        (** not created *)
  | TStart       (** binds itself, and allocates or goes on to wait *)
  | TReadyAlloc  (** the buffers are prepared; notifies READY *)
  | TShield      (** disables its cancellation *)
  | TWaitStart
  | TMeasure
  | TReady       (** notifies READY *)
  | TWaitStop
  | TFree        (** frees the buffers and enables its cancellation *)
  | TEnd.

#[export] Instance tloc_eq_dec : EqDecision tloc.
Proof. solve_decision. Defined.

Record thread_info := mk_thread_info {
  ti_loc : tloc;
  ti_cancel : bool;    (** [pthread_cancel] was called *)
  ti_disabled : bool;  (** [PTHREAD_CANCEL_DISABLE] *)
  ti_bound : option Z; (** the CPU of [sched_setaffinity] *)
  ti_overhead : Z;
  ti_total : Z;
}.

Definition calloc_info : thread_info := mk_thread_info TNone false false None 0 0.

Definition at_loc (l : tloc) (t : thread_info) : thread_info :=
  mk_thread_info l (ti_cancel t) (ti_disabled t) (ti_bound t) (ti_overhead t) (ti_total t).
Definition cancelled (t : thread_info) : thread_info :=
  mk_thread_info (ti_loc t) true (ti_disabled t) (ti_bound t) (ti_overhead t) (ti_total t).
Definition shield (d : bool) (t : thread_info) : thread_info :=
  mk_thread_info (ti_loc t) (ti_cancel t) d (ti_bound t) (ti_overhead t) (ti_total t).
Definition bound_to (cpu : option Z) (t : thread_info) : thread_info :=
  mk_thread_info (ti_loc t) (ti_cancel t) (ti_disabled t) cpu (ti_overhead t) (ti_total t).
Definition with_times (overhead total : Z) (t : thread_info) : thread_info :=
  mk_thread_info (ti_loc t) (ti_cancel t) (ti_disabled t) (ti_bound t) overhead total.

(** [buf.buf_0] *)
Inductive buffer := BufNull | BufAlloc | BufFreed.

(** Where the creating thread is in [do_bench] and the functions it calls. *)
Inductive mloc :=
  | MCreate (created : nat)   (** [create_bench_threads] *)
  | MWaitAlloc                (** waits for the first READY *)
  | MStart (left : nat)       (** notifies START to [left] more threads *)
  | MReady (left : nat)       (** waits for READY of [left] more threads *)
  | MStop (left : nat)
  | MResult
  | MDestroy (i num : nat) (joining : bool) (ret : Z)
      (** cancels, or waits for, thread [i] of [num], to return [ret] *)
  | MDone (ret : Z)
  | MFault (f : fault).

(** The first element of [threads_info], the other ones, and the bytes in the
    pipes. *)
Record st := mk_st {
  mgr : mloc;
  alloc : thread_info;
  benchers : list thread_info;
  ready : nat;
  start : nat;
  stop : nat;
  buf : buffer;
  policy : option Z; (** the node of [wayca_sc_mem_bind_node] *)
}.

Definition set_mgr v s := mk_st v (alloc s) (benchers s) (ready s) (start s) (stop s) (buf s) (policy s).
Definition set_alloc v s := mk_st (mgr s) v (benchers s) (ready s) (start s) (stop s) (buf s) (policy s).
Definition set_benchers v s := mk_st (mgr s) (alloc s) v (ready s) (start s) (stop s) (buf s) (policy s).
Definition set_ready v s := mk_st (mgr s) (alloc s) (benchers s) v (start s) (stop s) (buf s) (policy s).
Definition set_start v s := mk_st (mgr s) (alloc s) (benchers s) (ready s) v (stop s) (buf s) (policy s).
Definition set_stop v s := mk_st (mgr s) (alloc s) (benchers s) (ready s) (start s) v (buf s) (policy s).
Definition set_buf v s := mk_st (mgr s) (alloc s) (benchers s) (ready s) (start s) (stop s) v (policy s).
Definition set_policy v s := mk_st (mgr s) (alloc s) (benchers s) (ready s) (start s) (stop s) (buf s) v.

(** Who acts; [Cancel] is a thread that acts on its cancellation. *)
Inductive event := Manager | Thread (i : nat) | Cancel (i : nat).

(** ** The measurement of one thread *)

Definition SAMPLES : nat := 7.
Definition NS_PER_SEC : Z := 10 ^ 9.
Definition LONG_MAX : Z := 2 ^ 63 - 1.

(** The least of the first samples; [t i] is the [i]-th result of
    [measure_execute_time]. *)
Fixpoint least_overhead (t : nat -> Z) (i n : nat) (overhead : Z) : Z :=
  match n with
  | O => overhead
  | S n => least_overhead t (S i) n (Common.min overhead (t i))
  end.

(** [while (info->total < 1 * NS_PER_SEC)]: the sum and the number of samples. *)
Fixpoint sample_loop (fuel : nat) (t : nat -> Z) (i : nat) (total : Z) : outcome (Z * nat) :=
  match fuel with
  | O => Fault OutOfFuel
  | S fuel =>
    if total <? NS_PER_SEC then sample_loop fuel t (S i) (total + t i) else Ok (total, i)
  end.

(** [info->overhead] and [info->total]. *)
Definition measure (fuel : nat) (overheads times : nat -> Z) : outcome (Z * Z) :=
  let overhead := least_overhead overheads 0 SAMPLES LONG_MAX in
  r ← sample_loop fuel times 0 0;
  if Nat.eqb r.2 0 then Fault DivByZero else Ok (overhead, Z.quot r.1 (Z.of_nat r.2)).

(** The samples end when each takes a nanosecond. *)
Lemma sample_loop_ends t fuel i total :
  (forall j, 1 <= t j) -> (0 < fuel)%nat -> NS_PER_SEC - total < Z.of_nat fuel ->
  exists total' n, sample_loop fuel t i total = Ok (total', n) /\ (i <= n)%nat /\
    (total < NS_PER_SEC -> (i < n)%nat).
Proof.
  intros Ht. revert i total. induction fuel as [|fuel IH]; intros i total Hp Hf; [lia|]; cbn [sample_loop].
  destruct (Z.ltb_spec total NS_PER_SEC); [|exists total, i; split_and!; (done || lia)].
  pose proof (Ht i). destruct (IH (S i) (total + t i)) as (total' & n & -> & Hn & _); [lia|lia|].
  exists total', n. split_and!; [done|lia|lia].
Qed.

Lemma measure_ends overheads times :
  (forall j, 1 <= times j) -> exists fuel r, measure fuel overheads times = Ok r.
Proof.
  intros Ht. exists (Z.to_nat (NS_PER_SEC + 1)).
  destruct (sample_loop_ends times (Z.to_nat (NS_PER_SEC + 1)) 0 0 Ht) as (total & n & E & _ & Hn);
    [unfold NS_PER_SEC; lia|lia|].
  unfold measure. rewrite E. obind. cbn [fst snd].
  destruct (Nat.eqb_spec n 0) as [->|]; [|eauto]. specialize (Hn ltac:(unfold NS_PER_SEC; lia)). lia.
Qed.

(** What [do_bench] returns for the times of the first measuring thread. *)
Definition result (overhead total : Z) : Z :=
  if total <? overhead then 0 - EINVAL else total - overhead.

Section protocol.
(** Whether the buffers can be allocated, whether thread [i] can be created and can
    allocate the set it binds itself with, and the times that it measures. *)
Context (mem_ok : bool) (create_ok cpu_ok : nat -> bool) (samples : nat -> Z * Z).
Context (node_id : Z -> Z) (parallel initiator_cpu target_cpu : Z).

(** [threads_info[i].cpu] *)
Definition cpu_of (i : nat) : Z :=
  match i with O => target_cpu | 1%nat => initiator_cpu | _ => -1 end.

(** The elements of [threads_info]. *)
Definition num : nat := Z.to_nat parallel.

Definition init : st :=
  mk_st (MCreate 0) calloc_info (replicate (num - 1) calloc_info) 0 0 0 BufNull None.

Definition thread_at (i : nat) (s : st) : option thread_info :=
  match i with O => Some (alloc s) | S j => benchers s !! j end.

Definition upd_thread (i : nat) (f : thread_info -> thread_info) (s : st) : st :=
  match i with
  | O => set_alloc (f (alloc s)) s
  | S j => set_benchers (alter f j (benchers s)) s
  end.

(** The binding at the beginning of [bench_thread]; [None] when the thread
    returns. [CPU_SET] ignores a CPU outside [cpu_set_t]. *)
Definition bind_self (i : nat) (t : thread_info) : option thread_info :=
  if 0 <=? cpu_of i then
    if cpu_ok i then Some (if cpu_of i <? 1024 then bound_to (Some (cpu_of i)) t else t) else None
  else Some t.

(** One action of thread [i]. *)
Definition thread_step (i : nat) (t : thread_info) (s : st) : option st :=
  match ti_loc t with
  | TNone | TEnd => None
  | TStart =>
    Some (match bind_self i t with
          | None => upd_thread i (at_loc TEnd) s
          | Some t' =>
            if Nat.eqb i 0 then
              set_buf (if mem_ok then BufAlloc else BufNull)
                (upd_thread i (fun _ => at_loc TReadyAlloc t') s)
            else upd_thread i (fun _ => at_loc TWaitStart t') s
          end)
  | TReadyAlloc => Some (set_ready (S (ready s)) (upd_thread i (at_loc TShield) s))
  | TShield => Some (upd_thread i (fun t => at_loc TWaitStop (shield true t)) s)
  | TWaitStart =>
    match start s with
    | O => None
    | S k => Some (set_start k (upd_thread i (at_loc TMeasure) s))
    end
  | TMeasure =>
    Some (upd_thread i (fun t => at_loc TReady (with_times (samples i).1 (samples i).2 t)) s)
  | TReady => Some (set_ready (S (ready s)) (upd_thread i (at_loc TWaitStop) s))
  | TWaitStop =>
    match stop s with
    | O => None
    | S k => Some (set_stop k (upd_thread i (at_loc (if Nat.eqb i 0 then TFree else TEnd)) s))
    end
  | TFree =>
    Some (set_buf (match buf s with BufNull => BufNull | _ => BufFreed end)
      (upd_thread i (fun t => at_loc TEnd (shield false t)) s))
  end.

(** The calls that are cancellation points: [read] and [write] on the pipes. *)
Definition cancellation_point (l : tloc) : bool :=
  match l with TReadyAlloc | TWaitStart | TReady | TWaitStop => true | _ => false end.

Definition cancel_step (i : nat) (t : thread_info) (s : st) : option st :=
  if ti_cancel t && negb (ti_disabled t) && cancellation_point (ti_loc t)
  then Some (upd_thread i (at_loc TEnd) s) else None.

(** One turn of [create_bench_threads], with [i] threads created: the next thread is
    created, or the ones that exist are cancelled, or all exist. *)
Definition create_bench_threads (i : nat) (s : st) : st :=
  let s := if Nat.eqb i 0 then set_policy (Some (node_id target_cpu)) s else s in
  if (Nat.ltb i 2 || Nat.ltb i num)%bool then
    if Nat.ltb i num then
      if create_ok i then set_mgr (MCreate (S i)) (upd_thread i (at_loc TStart) s)
      else set_mgr (MDestroy 0 i false (-1 - 0)) s
    else set_mgr (MFault OutOfBounds) s
  else set_mgr MWaitAlloc s.

(** One call of [destroy_bench_threads], or of the loop of [create_bench_threads]
    after a failure: [pthread_cancel], or [pthread_join] when the thread has ended. *)
Definition destroy_bench_threads (i n : nat) (joining : bool) (ret : Z) (s : st) : option st :=
  if joining then
    match thread_at i s with
    | Some t => if decide (ti_loc t = TEnd) then Some (set_mgr (MDestroy (S i) n false ret) s) else None
    | None => Some (set_mgr (MFault OutOfBounds) s)
    end
  else
    Some (if Nat.ltb i n then set_mgr (MDestroy i n true ret) (upd_thread i cancelled s)
          else set_mgr (MDone ret) s).

(** One action of the creating thread in [do_bench]. *)
Definition manager_step (s : st) : option st :=
  match mgr s with
  | MCreate i => Some (create_bench_threads i s)
  | MWaitAlloc =>
    match ready s with
    | O => None
    | S k =>
      let s := set_ready k s in
      Some (match buf s with
            | BufNull => set_mgr (MDestroy 0 num false (- ENOMEM - 0)) s
            | _ => set_mgr (MStart (num - 1)) s
            end)
    end
  | MStart (S k) => Some (set_start (S (start s)) (set_mgr (MStart k) s))
  | MStart O => Some (set_mgr (MReady (num - 1)) s)
  | MReady (S k) =>
    match ready s with O => None | S r => Some (set_ready r (set_mgr (MReady k) s)) end
  | MReady O => Some (set_mgr (MStop num) s)
  | MStop (S k) => Some (set_stop (S (stop s)) (set_mgr (MStop k) s))
  | MStop O => Some (set_mgr MResult s)
  | MResult =>
    Some (match benchers s with
          | t :: _ => set_mgr (MDestroy 0 num false (result (ti_overhead t) (ti_total t))) s
          | [] => set_mgr (MFault OutOfBounds) s
          end)
  | MDestroy i n joining ret => destroy_bench_threads i n joining ret s
  | MDone _ | MFault _ => None
  end.

Definition step (e : event) (s : st) : option st :=
  match e with
  | Manager => manager_step s
  | Thread i => t ← thread_at i s; thread_step i t s
  | Cancel i => t ← thread_at i s; cancel_step i t s
  end.

(** A schedule; the states that some schedule leads to. *)
Fixpoint run (es : list event) (s : st) : option st :=
  match es with
  | [] => Some s
  | e :: es => s' ← step e s; run es s'
  end.

Definition reachable (s : st) : Prop := exists es, run es init = Some s.
Definition stuck (s : st) : Prop := forall e, step e s = None.
End protocol.
