(* ===== verification/BenchProtocol.v ===== *)
(** * The threads of the memory benchmark never meet a freed buffer

    The invariant of the steps of [Bench]: no thread measures before the buffer is
    allocated or after it is freed. *)

From S2P Require Import Prelude Bitops BenchBuffer Bench.

(** ** Counting threads *)

Definition kind : Type := tloc -> bool.
Definition running : kind := fun l => match l with TMeasure | TReady => true | _ => false end.
Definition waiting : kind := fun l => match l with TWaitStop => true | _ => false end.
Definition ended : kind := fun l => match l with TEnd => true | _ => false end.
Definition early : kind := fun l => negb (running l || waiting l || ended l).

Definition b2n (b : bool) : nat := if b then 1%nat else 0%nat.

Fixpoint count (k : kind) (l : list thread_info) : nat :=
  match l with
  | [] => 0%nat
  | t :: l => (b2n (k (ti_loc t)) + count k l)%nat
  end.

Lemma count_alter k f j l t :
  l !! j = Some t ->
  (count k (alter f j l) + b2n (k (ti_loc t)) = count k l + b2n (k (ti_loc (f t))))%nat.
Proof.
  revert j. induction l as [|x l IH]; intros [|j] H; simplify_eq/=; [lia|].
  specialize (IH j H). unfold alter in *. lia.
Qed.

Lemma count_total l :
  (count early l + count running l + count waiting l + count ended l = length l)%nat.
Proof.
  induction l as [|t l IH]; [done|]. cbn [count length]. unfold early at 1.
  destruct (ti_loc t); cbn; lia.
Qed.

Lemma count_pos k l : (0 < count k l)%nat -> exists j t, l !! j = Some t /\ k (ti_loc t) = true.
Proof.
  induction l as [|x l IH]; cbn [count]; [lia|]. destruct (k (ti_loc x)) eqn:E.
  - intros _. by exists 0%nat, x.
  - intros H. destruct IH as (j & t & Hj & Ht); [cbn in H; lia|]. by exists (S j), t.
Qed.

Lemma count_all k l : count k l = length l -> Forall (fun t => k (ti_loc t) = true) l.
Proof.
  induction l as [|x l IH]; cbn [count length]; [constructor|].
  assert (forall l, count k l <= length l)%nat as Hle.
  { clear. intros l. induction l; cbn [count length]; [done|]. destruct (k _); cbn; lia. }
  specialize (Hle l). destruct (k (ti_loc x)) eqn:E; cbn; intros H; [|lia].
  constructor; [done|]. apply IH. lia.
Qed.

(** ** Reading a thread after an update *)

Lemma thread_at_upd i j f s :
  thread_at j (upd_thread i f s) = if decide (j = i) then f <$> thread_at i s else thread_at j s.
Proof.
  case_decide as E; [subst j|]; destruct i as [|i]; cbn.
  - done.
  - apply list_lookup_alter_eq.
  - by destruct j.
  - destruct j as [|j]; [done|]. apply list_lookup_alter_ne. congruence.
Qed.

Lemma thread_at_set_mgr j v s : thread_at j (set_mgr v s) = thread_at j s.
Proof. by destruct j. Qed.
Lemma thread_at_set_ready j v s : thread_at j (set_ready v s) = thread_at j s.
Proof. by destruct j. Qed.
Lemma thread_at_set_start j v s : thread_at j (set_start v s) = thread_at j s.
Proof. by destruct j. Qed.
Lemma thread_at_set_stop j v s : thread_at j (set_stop v s) = thread_at j s.
Proof. by destruct j. Qed.
Lemma thread_at_set_buf j v s : thread_at j (set_buf v s) = thread_at j s.
Proof. by destruct j. Qed.
Lemma thread_at_set_policy j v s : thread_at j (set_policy v s) = thread_at j s.
Proof. by destruct j. Qed.
Lemma mgr_upd i f s : mgr (upd_thread i f s) = mgr s.
Proof. by destruct i. Qed.

#[export] Hint Rewrite thread_at_set_mgr thread_at_set_ready thread_at_set_start thread_at_set_stop
  thread_at_set_buf thread_at_set_policy mgr_upd : wayca.

Section protocol.
Context (mem_ok : bool) (create_ok cpu_ok : nat -> bool) (samples : nat -> Z * Z).
Context (node_id : Z -> Z) (parallel initiator_cpu target_cpu : Z).

Notation thread_step := (thread_step mem_ok cpu_ok samples initiator_cpu target_cpu).
Notation manager_step := (manager_step create_ok node_id parallel target_cpu).
Notation step := (step mem_ok create_ok cpu_ok samples node_id parallel initiator_cpu target_cpu).
Notation run := (run mem_ok create_ok cpu_ok samples node_id parallel initiator_cpu target_cpu).
Notation reachable :=
  (reachable mem_ok create_ok cpu_ok samples node_id parallel initiator_cpu target_cpu).
Notation stuck := (stuck mem_ok create_ok cpu_ok samples node_id parallel initiator_cpu target_cpu).
Notation init := (init parallel).

(** The number of threads that measure, the buffer after the allocation, and the
    result of the benchmark. *)
Definition others : nat := (num parallel - 1)%nat.
Definition new_buf : buffer := if mem_ok then BufAlloc else BufNull.
Definition expected : Z := result (samples 1%nat).1 (samples 1%nat).2.

(** ** The invariant *)

(** What holds of a thread by itself. *)
Definition thread_ok (i : nat) (t : thread_info) : Prop :=
  match i with
  | O =>
    match ti_loc t with
    | TWaitStart | TMeasure | TReady => False
    | TWaitStop | TFree => ti_disabled t = true
    | _ => ti_disabled t = false
    end
  | S _ =>
    ti_disabled t = false /\
    match ti_loc t with
    | TReadyAlloc | TShield | TFree => False
    | TReady | TWaitStop => ti_overhead t = (samples i).1 /\ ti_total t = (samples i).2
    | _ => True
    end
  end.

(** The allocating thread before its READY is received, and what it has done. *)
Definition first_ready (al : tloc) (bf : buffer) (rd : nat) : Prop :=
  match al with
  | TNone | TStart => bf = BufNull /\ rd = 0%nat
  | TReadyAlloc => bf = new_buf /\ rd = 0%nat
  | TShield | TWaitStop => bf = new_buf /\ rd = 1%nat
  | TEnd => rd = 0%nat
  | _ => False
  end.

(** The allocating thread while the others measure, and after STOP. *)
Definition holds (al : tloc) : Prop := al = TShield \/ al = TWaitStop.
Definition lets_go (al : tloc) (bf : buffer) : Prop :=
  match al with
  | TShield | TWaitStop | TFree => bf = BufAlloc
  | TEnd => bf = BufFreed
  | _ => False
  end.
Definition stopped (al : tloc) : nat := match al with TFree | TEnd => 1%nat | _ => 0%nat end.

(** The bytes in the pipes and the threads that run ([R]), wait for STOP ([W]) or
    have ended ([E]), at each place of the creating thread. *)
Definition counts (mg : mloc) (al : tloc) (bf : buffer) (rd st sp R W E : nat) : Prop :=
  match mg with
  | MCreate _ | MWaitAlloc => st = 0%nat /\ sp = 0%nat /\ R = 0%nat /\ W = 0%nat /\ first_ready al bf rd
  | MStart k =>
    mem_ok = true /\ holds al /\ bf = BufAlloc /\ sp = 0%nat /\
    rd = W /\ (st + R + W + k = others)%nat
  | MReady k =>
    mem_ok = true /\ holds al /\ bf = BufAlloc /\ sp = 0%nat /\
    (rd + others = W + k)%nat /\ (st + R + W = others)%nat
  | MStop k =>
    mem_ok = true /\ lets_go al bf /\ st = 0%nat /\ R = 0%nat /\ (W + E = others)%nat /\
    (sp + stopped al + E + k = S others)%nat
  | MResult =>
    mem_ok = true /\ lets_go al bf /\ st = 0%nat /\ R = 0%nat /\ (W + E = others)%nat /\
    (sp + stopped al + E = S others)%nat
  | MDestroy i n _ _ =>
    (n = S others /\ mem_ok = true /\ lets_go al bf /\ st = 0%nat /\ R = 0%nat /\
     (W + E = others)%nat /\ (S others <= sp + stopped al + E)%nat) \/
    (n = S others /\ mem_ok = false /\ holds al /\ bf = BufNull /\ i = 0%nat /\
     st = 0%nat /\ sp = 0%nat /\ R = 0%nat /\ W = 0%nat) \/
    ((n <= others)%nat /\ create_ok n = false /\ al <> TFree /\
     st = 0%nat /\ sp = 0%nat /\ R = 0%nat /\ W = 0%nat)
  | MDone _ =>
    st = 0%nat /\ R = 0%nat /\ ((mem_ok = true /\ lets_go al bf) \/ exists n, (n <= others)%nat /\ create_ok n = false)
  | MFault _ => False
  end.

Definition counts_of (s : st) : Prop :=
  counts (mgr s) (ti_loc (alloc s)) (buf s) (ready s) (start s) (stop s)
    (count running (benchers s)) (count waiting (benchers s)) (count ended (benchers s)).

(** Which threads exist, which were cancelled and which were joined. *)
Definition lives (mg : mloc) (i : nat) (t : thread_info) : Prop :=
  match mg with
  | MCreate n =>
    ti_cancel t = false /\ (if decide (i < n)%nat then ti_loc t <> TNone else ti_loc t = TNone)
  | MDestroy n k joining _ =>
    ((i < n)%nat -> ti_loc t = TEnd) /\ ((k <= i)%nat -> ti_loc t = TNone) /\
    ((i < k)%nat -> ti_loc t <> TNone) /\ (joining = true -> i = n -> ti_cancel t = true)
  | MDone _ => ti_loc t = TEnd \/ (ti_loc t = TNone /\ exists n, create_ok n = false)
  | MFault _ => True
  | _ => ti_cancel t = false /\ ti_loc t <> TNone
  end.

(** The times that are reported. *)
Definition reports (s : st) : Prop :=
  match mgr s with
  | MStop _ | MResult =>
    forall i t, thread_at (S i) s = Some t -> ti_overhead t = (samples (S i)).1 /\ ti_total t = (samples (S i)).2
  | MDestroy _ n _ ret => mem_ok = true -> n = S others -> ret = expected
  | MDone ret => mem_ok = true -> (forall n, create_ok n = true) -> ret = expected
  | _ => True
  end.

(** Where the loops of the creating thread are. *)
Definition bounded (mg : mloc) : Prop :=
  match mg with
  | MCreate i => (i <= S others)%nat
  | MDestroy i n joining _ => (n <= S others)%nat /\ (if joining : bool then (i < n)%nat else (i <= n)%nat)
  | _ => True
  end.

Record inv (s : st) : Prop := {
  inv_length : length (benchers s) = others;
  inv_threads : forall i t, thread_at i s = Some t -> thread_ok i t;
  inv_counts : counts_of s;
  inv_lives : forall i t, thread_at i s = Some t -> lives (mgr s) i t;
  inv_reports : reports s;
  inv_bounded : bounded (mgr s);
}.

(** ** Steps of the threads *)

Lemma lives_move mg i t t' :
  lives mg i t -> ti_cancel t' = ti_cancel t -> ti_loc t <> TNone -> ti_loc t <> TEnd ->
  ti_loc t' <> TNone -> lives mg i t'.
Proof.
  destruct mg; cbn; intros H Hc Hn He Hn'; rewrite ?Hc; try tauto.
  destruct H as [? H]. split; [done|]. by case_decide.
Qed.

(** What a step of a thread changes: itself. *)
Record frame (i : nat) (t t' : thread_info) (s s' : st) : Prop := {
  fr_mgr : mgr s' = mgr s;
  fr_length : length (benchers s') = length (benchers s);
  fr_threads : forall j, thread_at j s' = if decide (j = i) then Some t' else thread_at j s;
  fr_cancel : ti_cancel t' = ti_cancel t;
  fr_started : ti_loc t <> TNone;
  fr_alive : ti_loc t <> TEnd;
  fr_exists : ti_loc t' <> TNone;
  fr_ok : thread_ok i t -> thread_ok i t';
  fr_times : ti_loc t <> TMeasure -> ti_overhead t' = ti_overhead t /\ ti_total t' = ti_total t;
}.

Lemma length_upd i f s : length (benchers (upd_thread i f s)) = length (benchers s).
Proof. destruct i; cbn; [done|]. apply length_alter. Qed.

Lemma frame_upd i t f s g :
  thread_at i s = Some t -> ti_loc t <> TNone -> ti_loc t <> TEnd ->
  ti_loc (f t) <> TNone -> ti_cancel (f t) = ti_cancel t ->
  (thread_ok i t -> thread_ok i (f t)) ->
  (ti_loc t <> TMeasure -> ti_overhead (f t) = ti_overhead t /\ ti_total (f t) = ti_total t) ->
  (forall s, mgr (g s) = mgr s /\ benchers (g s) = benchers s /\ alloc (g s) = alloc s) ->
  frame i t (f t) s (g (upd_thread i f s)).
Proof using Type.
  intros Ht Hn He Hn' Hc Hok Htm Hg. destruct (Hg (upd_thread i f s)) as (G1 & G2 & G3).
  constructor; try done.
  - by rewrite G1, mgr_upd.
  - by rewrite G2, length_upd.
  - intros j. assert (thread_at j (g (upd_thread i f s)) = thread_at j (upd_thread i f s)) as ->.
    { destruct j; cbn; congruence. }
    rewrite thread_at_upd, Ht. done.
Qed.

Lemma thread_step_frame i t s s' :
  thread_at i s = Some t -> thread_step i t s = Some s' -> exists t', frame i t t' s s'.
Proof using Type.
  clear create_ok node_id parallel. intros Ht. unfold Bench.thread_step. destruct (ti_loc t) eqn:El; try done.
  - unfold bind_self. intros [= <-].
    assert (thread_ok i t -> ti_disabled t = false) as Hdis
      by (destruct i; cbn; rewrite El; [done|by intros [? _]]).
    set (b := match _ with Some _ => _ | None => _ end).
    assert (exists f g, b = g (upd_thread i f s) /\ ti_loc (f t) <> TNone /\ ti_cancel (f t) = ti_cancel t /\
      (thread_ok i t -> thread_ok i (f t)) /\
      (ti_overhead (f t) = ti_overhead t /\ ti_total (f t) = ti_total t) /\
      forall s, mgr (g s) = mgr s /\ benchers (g s) = benchers s /\ alloc (g s) = alloc s)
      as (f & g & -> & ? & ? & ? & ? & ?).
    { unfold b. destruct (0 <=? _); [destruct (cpu_ok i); [destruct (_ <? 1024)|]|];
        destruct i as [|i]; cbn [Nat.eqb];
        first [ eexists _, (set_buf _); split; [reflexivity|]
              | eexists _, (fun s => s); split; [reflexivity|] ];
        split_and!; try done; by intros ?%Hdis. }
    eexists. by apply frame_upd; rewrite ?El.
  - intros [= <-]. eexists. apply frame_upd with (g := set_ready _); rewrite ?El; try done.
    by destruct i; cbn; rewrite El.
  - intros [= <-]. eexists. apply frame_upd with (g := fun s => s); rewrite ?El; try done.
    by destruct i; cbn; rewrite El; intuition.
  - destruct (start s) eqn:Es; [done|]. intros [= <-]. eexists.
    apply frame_upd with (g := set_start _); rewrite ?El; try done.
    by destruct i; cbn; rewrite El.
  - intros [= <-]. eexists. apply frame_upd with (g := fun s => s); rewrite ?El; try done.
    by destruct i; cbn; rewrite El; intuition.
  - intros [= <-]. eexists. apply frame_upd with (g := set_ready _); rewrite ?El; try done.
    by destruct i; cbn; rewrite El.
  - destruct (stop s) eqn:Es; [done|]. intros [= <-]. eexists.
    apply frame_upd with (g := set_stop _); rewrite ?El; try done; try by destruct i.
    by destruct i; cbn; rewrite El; intuition.
  - intros [= <-]. eexists. apply frame_upd with (g := set_buf _); rewrite ?El; try done.
    by destruct i; cbn; rewrite El; intuition.
Qed.

Lemma cancel_step_frame i t s s' :
  thread_at i s = Some t -> cancel_step i t s = Some s' -> frame i t (at_loc TEnd t) s s'.
Proof using Type.
  clear create_ok cpu_ok node_id parallel. intros Ht. unfold cancel_step.
  destruct (ti_cancel t && negb (ti_disabled t) && cancellation_point (ti_loc t)) eqn:E; [|done].
  zbool. intros [= <-].
  assert (ti_loc t <> TNone /\ ti_loc t <> TEnd) as [? ?] by (by destruct (ti_loc t)).
  apply frame_upd with (g := fun s => s); try done.
  destruct i; cbn; [done|]. tauto.
Qed.

(** The counters of the pipes and of the threads after a step of a thread. *)

Ltac conjuncts :=
  repeat match goal with
  | H : _ /\ _ |- _ => destruct H
  | H : _ \/ _ |- _ => destruct H
  | H : exists _, _ |- _ => destruct H
  end.
Ltac all_parts := split_and?; first [done | lia | congruence | by left | by right | by eauto].
Ltac by_place s :=
  destruct (mgr s) eqn:Em; cbn in *; rewrite ?Em in *; cbn in *;
  unfold new_buf, holds, lets_go, first_ready in *; cbn in *; conjuncts; subst; try congruence; try lia;
  first [ solve [all_parts] | left; solve [all_parts] | right; left; solve [all_parts]
        | right; right; solve [all_parts] | idtac ].

Lemma counts_alloc s s' :
  counts_of s -> thread_ok 0 (alloc s) ->
  thread_step 0 (alloc s) s = Some s' -> counts_of s'.
Proof.
  intros Hc Hok. unfold Bench.thread_step. unfold counts_of in *.
  destruct (ti_loc (alloc s)) eqn:El; try done; cbn in Hok; rewrite El in Hok; try done.
  - intros [= <-]. destruct (bind_self _ _ _ _ _); cbn [Nat.eqb].
    + by_place s.
    + by_place s.
  - intros [= <-]. by_place s.
  - intros [= <-]. by_place s.
  - destruct (stop s) eqn:Es; [done|]. intros [= <-]. by_place s.
  - intros [= <-]. destruct (buf s) eqn:Eb; by_place s.
Qed.

(** The counts of the threads when thread [j] goes to another place. *)
Ltac recount Hcnt f :=
  let H0 := fresh in let H1 := fresh in let H2 := fresh in let H3 := fresh in
  pose proof (Hcnt early f) as H0; pose proof (Hcnt running f) as H1; pose proof (Hcnt waiting f) as H2; pose proof (Hcnt ended f) as H3.

Lemma counts_bencher j t s s' :
  length (benchers s) = others -> counts_of s -> thread_ok (S j) t -> benchers s !! j = Some t ->
  thread_step (S j) t s = Some s' -> counts_of s'.
Proof.
  intros Hlen Hc Hok Ht. unfold Bench.thread_step. unfold counts_of in *.
  pose proof (count_total (benchers s)) as Htot. rewrite Hlen in Htot.
  pose proof (fun k f => count_alter k f j _ _ Ht) as Hcnt.
  destruct (ti_loc t) eqn:El; try done; cbn in Hok; rewrite El in Hok; try (by destruct Hok).
  - intros [= <-]. cbn [Nat.eqb]. destruct (bind_self _ _ _ _ _) as [t'|].
    + recount Hcnt (fun _ : thread_info => at_loc TWaitStart t'). clear Hcnt. by_place s.
    + recount Hcnt (at_loc TEnd). clear Hcnt. by_place s.
  - destruct (start s) eqn:Es; [done|]. intros [= <-].
    recount Hcnt (at_loc TMeasure). clear Hcnt. by_place s.
  - intros [= <-].
    recount Hcnt (fun t => at_loc TReady (with_times (samples (S j)).1 (samples (S j)).2 t)).
    clear Hcnt. by_place s.
  - intros [= <-]. recount Hcnt (at_loc TWaitStop). clear Hcnt. by_place s.
  - destruct (stop s) eqn:Es; [done|]. intros [= <-].
    recount Hcnt (at_loc TEnd). clear Hcnt. by_place s.
Qed.

Lemma counts_cancel i t s s' :
  inv s -> thread_at i s = Some t -> cancel_step i t s = Some s' -> counts_of s'.
Proof.
  intros [Hlen Hok Hc Hl _ _] Ht. specialize (Hok i t Ht). specialize (Hl i t Ht).
  unfold cancel_step. destruct (ti_cancel t) eqn:Ec; [|done].
  destruct (ti_disabled t) eqn:Ed; [done|]. cbn [andb negb].
  destruct (cancellation_point (ti_loc t)) eqn:Ep; [|done]. intros [= <-]. unfold counts_of in *.
  destruct i as [|j]; cbn in Ht.
  - simplify_eq. destruct (ti_loc (alloc s)) eqn:El; try done; cbn in Hok; rewrite El in Hok; try (done || congruence).
    by_place s.
  - pose proof (count_total (benchers s)) as Htot. rewrite Hlen in Htot.
    pose proof (fun k f => count_alter k f j _ _ Ht) as Hcnt. recount Hcnt (at_loc TEnd). clear Hcnt.
    destruct (ti_loc t) eqn:El; try done; cbn in Hok; rewrite El in Hok; try (by destruct Hok); by_place s.
Qed.

Lemma frame_inv i t t' s s' :
  inv s -> thread_at i s = Some t -> frame i t t' s s' -> counts_of s' -> inv s'.
Proof.
  intros [Hlen Hok Hc Hl Hr Hb] Ht [Fm Fl Ft Fc Fs Fa Fe Fo Fx] Hc'. constructor.
  - congruence.
  - intros j u. rewrite Ft. case_decide as E; [|apply Hok]. intros [= <-]. subst j. apply Fo, Hok, Ht.
  - done.
  - intros j u. rewrite Fm, Ft. case_decide as E; [|apply Hl]. intros [= <-]. subst j.
    by apply (lives_move _ _ t); [apply Hl| | | |].
  - unfold reports in *. rewrite Fm.
    assert (count running (benchers s) = 0%nat -> forall k u, thread_at (S k) s = Some u -> ti_loc u <> TMeasure) as Hnot.
    { intros H0 k u Hu El. pose proof (count_alter running (at_loc TEnd) k _ _ Hu) as E.
      rewrite H0, El in E. cbn in E. lia. }
    unfold counts_of in Hc. destruct (mgr s) eqn:Em; try done; cbn in Hc;
      intros k u; rewrite Ft; case_decide as E; try apply Hr; intros [= <-]; subst i;
      destruct Fx as [-> ->]; try (by apply Hr); (eapply Hnot; [|done]); tauto.
  - by rewrite Fm.
Qed.

Lemma thread_step_inv i t s s' :
  inv s -> thread_at i s = Some t -> thread_step i t s = Some s' -> inv s'.
Proof.
  intros Hi Ht Hs. destruct (thread_step_frame _ _ _ _ Ht Hs) as [t' Hf].
  apply (frame_inv i t t' s s'); try done.
  pose proof (inv_threads _ Hi _ _ Ht) as Hok. destruct i as [|j]; cbn in Ht.
  - simplify_eq. eapply counts_alloc; [apply Hi|done|done].
  - eapply counts_bencher; [apply Hi|apply Hi|done|done|done].
Qed.

Lemma cancel_step_inv i t s s' :
  inv s -> thread_at i s = Some t -> cancel_step i t s = Some s' -> inv s'.
Proof.
  intros Hi Ht Hs. eapply frame_inv; [done|done|by apply cancel_step_frame|].
  by eapply counts_cancel.
Qed.

(** ** Steps of the creating thread *)

Context (Hpar : 2 <= parallel).

Lemma num_others : num parallel = S others.
Proof using Hpar. unfold others, num. lia. Qed.
Lemma others_pos : (1 <= others)%nat.
Proof using Hpar. unfold others, num. lia. Qed.

Lemma thread_at_lt s i t : length (benchers s) = others -> thread_at i s = Some t -> (i < S others)%nat.
Proof. destruct i as [|i]; cbn; intros Hl H; [lia|]. apply lookup_lt_Some in H. lia. Qed.

(** Steps that only move the creating thread and the bytes. *)
Lemma same_threads_inv s s' :
  inv s -> benchers s' = benchers s -> alloc s' = alloc s -> counts_of s' ->
  (forall i t, thread_at i s = Some t -> (i < S others)%nat -> lives (mgr s) i t -> lives (mgr s') i t) ->
  reports s' -> bounded (mgr s') -> inv s'.
Proof.
  intros [Hlen Hok Hc Hl Hr Hb] Eb Ea Hc' Hl' Hr' Hb'.
  assert (forall i, thread_at i s' = thread_at i s) as Et by (intros [|i]; cbn; congruence).
  constructor; try done; [congruence|intros i t; rewrite Et; apply Hok|].
  intros i t. rewrite Et. intros Hit. apply (Hl' i t Hit); [by eapply thread_at_lt|by apply Hl].
Qed.

(** Steps that also update one thread and leave the places of the others. *)
Lemma upd_thread_inv s i t f v :
  inv s -> thread_at i s = Some t -> (thread_ok i t -> thread_ok i (f t)) ->
  counts_of (set_mgr v (upd_thread i f s)) ->
  (forall j u, thread_at j s = Some u -> j <> i -> (j < S others)%nat -> lives (mgr s) j u -> lives v j u) ->
  lives v i (f t) -> reports (set_mgr v (upd_thread i f s)) -> bounded v ->
  inv (set_mgr v (upd_thread i f s)).
Proof.
  intros [Hlen Hok Hc Hl Hr Hb] Ht Hf Hc' Hl' Hi Hr' Hb'. constructor; try done.
  - cbn. by rewrite length_upd.
  - intros j u. rewrite thread_at_set_mgr, thread_at_upd, Ht. case_decide as E; [|apply Hok].
    intros [= <-]. subst j. by apply Hf, Hok.
  - intros j u. rewrite thread_at_set_mgr, thread_at_upd, Ht. case_decide as E.
    + intros [= <-]. by subst j.
    + intros Hu. apply (Hl' j u); try done; [by eapply thread_at_lt|by apply Hl].
Qed.

Lemma create_inv s i : inv s -> mgr s = MCreate i -> forall s', manager_step s = Some s' -> inv s'.
Proof using All.
  intros Hi Em s'. unfold Bench.manager_step, create_bench_threads, destroy_bench_threads. rewrite Em. pose proof (inv_counts _ Hi) as Hc.
  pose proof (inv_bounded _ Hi) as Hb. unfold counts_of in Hc. rewrite Em in Hc, Hb. cbn in Hc, Hb.
  pose proof num_others as Hn. pose proof others_pos as Ho.
  set (s1 := if Nat.eqb i 0 then _ else _).
  assert (inv s1 /\ mgr s1 = MCreate i /\ alloc s1 = alloc s /\ benchers s1 = benchers s /\
    buf s1 = buf s /\ ready s1 = ready s /\ start s1 = start s /\ stop s1 = stop s)
    as (Hi1 & Em1 & Ea & Eb & Ebf & Er & Est & Esp).
  { unfold s1. destruct (Nat.eqb i 0); [|done]. split; [|done].
    apply (same_threads_inv s); try done; try apply Hi. }
  rewrite <- Ea, <- Eb, <- Ebf, <- Er, <- Est, <- Esp in Hc. clearbody s1. clear Hi Em Ea Eb Ebf Er Est Esp s.
  rename s1 into s. intros [= <-].
  destruct (Nat.ltb_spec i (num parallel)) as [Hlt|Hge].
  - rewrite orb_true_r. destruct (create_ok i) eqn:Eok.
    + destruct (thread_at i s) as [t|] eqn:Ht.
      2: { destruct i as [|j]; [done|]. cbn in Ht. apply lookup_ge_None in Ht.
           rewrite (inv_length _ Hi1) in Ht. lia. }
      pose proof (inv_lives _ Hi1 i t Ht) as Hl. rewrite Em1 in Hl. cbn in Hl.
      rewrite decide_False in Hl by lia. destruct Hl as [Hcan Hnone].
      eapply upd_thread_inv; try done.
      * destruct i; cbn; rewrite Hnone; cbn; tauto.
      * unfold counts_of. cbn. destruct i as [|j]; cbn in Ht |- *.
        -- simplify_eq. rewrite Hnone in Hc. cbn in Hc. tauto.
        -- pose proof (fun k f => count_alter k f j _ _ Ht) as Hcnt. recount Hcnt (at_loc TStart).
           rewrite Hnone in *. cbn in *. conjuncts. split_and!; (done || lia).
      * intros j u Hu Hne Hj. rewrite Em1. cbn. intros [? Hx]. split; [done|].
        repeat case_decide; (done || lia).
      * cbn. rewrite decide_True by lia. done.
      * cbn. lia.
    + apply (same_threads_inv s); try done.
      * unfold counts_of. cbn. right. right. conjuncts. split_and!; try (done || lia).
        intros E. by rewrite E in *.
      * intros j u Hu Hj. rewrite Em1. cbn. intros [? Hx]. case_decide; split_and!; (done || lia).
      * cbn. intros _ ?. lia.
      * cbn. lia.
  - destruct (Nat.ltb_spec i 2); [lia|]. cbn [orb]. apply (same_threads_inv s); try done.
    intros j u Hu Hj. rewrite Em1. cbn. intros [? Hx]. rewrite decide_True in Hx by lia. done.
Qed.

Lemma destroy_inv s i n joining ret :
  inv s -> mgr s = MDestroy i n joining ret -> forall s', manager_step s = Some s' -> inv s'.
Proof using All.
  intros Hi Em s'. unfold Bench.manager_step, create_bench_threads, destroy_bench_threads. rewrite Em. pose proof (inv_counts _ Hi) as Hc.
  pose proof (inv_bounded _ Hi) as Hb. pose proof (inv_reports _ Hi) as Hr.
  unfold counts_of in Hc. unfold reports in Hr. rewrite Em in Hc, Hb, Hr. cbn in Hc, Hb. destruct Hb as [Hn Hb].
  destruct joining.
  - destruct (thread_at i s) as [t|] eqn:Ht.
    2: { destruct i as [|j]; [done|]. cbn in Ht. apply lookup_ge_None in Ht.
         rewrite (inv_length _ Hi) in Ht. lia. }
    case_decide as Ee; [|done]. intros [= <-]. apply (same_threads_inv s); try done.
    + unfold counts_of. cbn. destruct Hc as [Hc|[Hc|Hc]]; [by left| |by right; right].
      destruct Hc as (_ & _ & Ha & _ & -> & _). cbn in Ht. simplify_eq. rewrite Ee in Ha. by destruct Ha.
    + intros j u Hu Hj. rewrite Em. cbn. intros (H1 & H2 & H3 & H4). split_and!; try done.
      intros Hlt. destruct (decide (j = i)) as [->|]; [congruence|]. apply H1. lia.
  - intros [= <-]. destruct (Nat.ltb_spec i n) as [Hlt|Hge].
    + destruct (thread_at i s) as [t|] eqn:Ht.
      2: { destruct i as [|j]; [done|]. cbn in Ht. apply lookup_ge_None in Ht.
           rewrite (inv_length _ Hi) in Ht. lia. }
      pose proof (inv_lives _ Hi i t Ht) as Hl. rewrite Em in Hl. cbn in Hl.
      apply (upd_thread_inv s i t); try done.
      * unfold counts_of. cbn. destruct i as [|j]; [done|]. cbn in Ht |- *.
        pose proof (fun k f => count_alter k f j _ _ Ht) as Hcnt. recount Hcnt cancelled. cbn in *.
        by replace (count running (alter cancelled j (benchers s))) with (count running (benchers s)) by lia;
        replace (count waiting (alter cancelled j (benchers s))) with (count waiting (benchers s)) by lia;
        replace (count ended (alter cancelled j (benchers s))) with (count ended (benchers s)) by lia.
      * intros j u Hu Hne Hj. rewrite Em. cbn. intros (H1 & H2 & H3 & H4). by split_and!.
      * cbn in *. tauto.
    + assert (i = n) as -> by lia. apply (same_threads_inv s); try done.
      * unfold counts_of. cbn. destruct Hc as [Hc|[Hc|Hc]]; conjuncts; split_and!; try done.
        -- by left.
        -- subst n. lia.
        -- right. eauto.
      * intros j u Hu Hj. rewrite Em. cbn. intros (H1 & H2 & H3 & H4).
        destruct (decide (j < n)%nat); [left; auto|right]. split; [apply H2; lia|].
        exists n. destruct Hc as [Hc|[Hc|Hc]]; [lia|lia|tauto].
      * unfold reports. cbn. intros Hm Hall. apply Hr; [done|].
        destruct Hc as [Hc|[Hc|Hc]]; [tauto|tauto|]. destruct Hc as (_ & E & _). by rewrite Hall in E.
Qed.

Lemma wait_alloc_inv s :
  inv s -> mgr s = MWaitAlloc -> forall s', manager_step s = Some s' -> inv s'.
Proof using All.
  intros Hi Em s'. unfold Bench.manager_step, create_bench_threads, destroy_bench_threads. rewrite Em. pose proof (inv_counts _ Hi) as Hc.
  pose proof num_others as Hn. unfold counts_of in Hc. rewrite Em in Hc. cbn in Hc.
  destruct (ready s) as [|k] eqn:Er; [done|]. intros [= <-].
  destruct Hc as (Hst & Hsp & HR & HW & Hf). unfold first_ready in Hf.
  assert (holds (ti_loc (alloc s)) /\ buf s = new_buf /\ k = 0%nat) as (Hh & Eb & ->).
  { unfold holds. destruct (ti_loc (alloc s)); cbn in Hf; try done; destruct Hf; split_and!; (tauto || lia). }
  unfold new_buf in Eb. change (buf (set_ready 0 s)) with (buf s). rewrite Eb.
  destruct mem_ok eqn:Emem; rewrite Hn.
  - apply (same_threads_inv s); try done.
    + unfold counts_of. cbn. split_and!; try (done || lia).
    + intros i t _ _. by rewrite Em.
  - apply (same_threads_inv s); [done|done|done| | |unfold reports; cbn; congruence|].
    + unfold counts_of. cbn. right. left. by split_and!.
    + intros i t _ Hlt. rewrite Em. cbn. intros [? ?]. split_and!; (done || lia).
    + cbn. split; lia.
Qed.

Lemma manager_step_inv s s' : inv s -> manager_step s = Some s' -> inv s'.
Proof using All.
  intros Hi Hs. destruct (mgr s) as [i| |k|k|k| |i n j ret|ret|f] eqn:Em.
  - by eapply create_inv.
  - by eapply wait_alloc_inv.
  - unfold Bench.manager_step, create_bench_threads, destroy_bench_threads in Hs. rewrite Em in Hs. pose proof num_others as Hn.
    pose proof (inv_counts _ Hi) as Hc. unfold counts_of in Hc. rewrite Em in Hc. cbn in Hc.
    destruct k as [|k]; injection Hs as <-; (apply (same_threads_inv s); [done|done|done| | |done|done]);
      first [ intros i t _ _; by rewrite Em | unfold counts_of; cbn; conjuncts; split_and!; (done || lia) ].
  - unfold Bench.manager_step, create_bench_threads, destroy_bench_threads in Hs. rewrite Em in Hs. pose proof num_others as Hn.
    pose proof (inv_counts _ Hi) as Hc. unfold counts_of in Hc. rewrite Em in Hc. cbn in Hc.
    destruct k as [|k].
    + injection Hs as <-. destruct Hc as (Hm & Hh & Hb & Hsp & Hrd & Htot).
      pose proof (count_total (benchers s)) as Hall. rewrite (inv_length _ Hi) in Hall.
      apply (same_threads_inv s); [done|done|done| | | |done].
      * unfold counts_of. cbn. unfold lets_go. destruct Hh as [Ha|Ha]; rewrite Ha; cbn; split_and!; (done || lia).
      * intros i t _ _. by rewrite Em.
      * intros i t Ht. cbn in Ht. pose proof (inv_threads _ Hi (S i) t Ht) as [_ Hok].
        assert (waiting (ti_loc t) = true) as Hw.
        { pose proof (count_all waiting (benchers s)) as Hf. rewrite (inv_length _ Hi), Forall_lookup in Hf.
          apply (Hf ltac:(lia) i t Ht). }
        by destruct (ti_loc t).
    + destruct (ready s) eqn:Er; [done|]. injection Hs as <-.
      apply (same_threads_inv s); [done|done|done| | |done|done];
        first [ intros i t _ _; by rewrite Em | unfold counts_of; cbn; conjuncts; split_and!; (done || lia) ].
  - unfold Bench.manager_step, create_bench_threads, destroy_bench_threads in Hs. rewrite Em in Hs.
    pose proof (inv_counts _ Hi) as Hc. unfold counts_of in Hc. rewrite Em in Hc. cbn in Hc.
    pose proof (inv_reports _ Hi) as Hr. unfold reports in Hr. rewrite Em in Hr.
    destruct k as [|k]; injection Hs as <-; (apply (same_threads_inv s); [done|done|done| | | |done]);
      first [ intros i t _ _; by rewrite Em | unfold counts_of; cbn; conjuncts; split_and!; (done || lia)
            | intros i t; apply Hr ].
  - unfold Bench.manager_step, create_bench_threads, destroy_bench_threads in Hs. rewrite Em in Hs. pose proof num_others as Hn.
    pose proof (inv_counts _ Hi) as Hc. unfold counts_of in Hc. rewrite Em in Hc. cbn in Hc.
    pose proof (inv_reports _ Hi) as Hr. unfold reports in Hr. rewrite Em in Hr.
    destruct (benchers s) as [|t l] eqn:Eb.
    { pose proof (inv_length _ Hi) as Hl. rewrite Eb in Hl. pose proof others_pos. cbn in Hl. lia. }
    injection Hs as <-. rewrite <- Eb in Hc. rewrite Hn.
    apply (same_threads_inv s); [done|done|done| | | |].
    + unfold counts_of. cbn. left. conjuncts. split_and!; (done || lia).
    + intros i u _ Hlt. rewrite Em. cbn. intros [? ?]. split_and!; (done || lia).
    + unfold reports. cbn. intros _ _. destruct (Hr 0%nat t) as [-> ->]; [cbn; by rewrite Eb|done].
    + cbn. split; lia.
  - by eapply destroy_inv.
  - unfold Bench.manager_step, create_bench_threads, destroy_bench_threads in Hs. by rewrite Em in Hs.
  - unfold Bench.manager_step, create_bench_threads, destroy_bench_threads in Hs. by rewrite Em in Hs.
Qed.

Lemma step_inv e s s' : inv s -> step e s = Some s' -> inv s'.
Proof using All.
  intros Hi. destruct e as [|i|i]; cbn [Bench.step].
  - by apply manager_step_inv.
  - intros (t & Ht & Hs)%bind_Some. by eapply thread_step_inv.
  - intros (t & Ht & Hs)%bind_Some. by eapply cancel_step_inv.
Qed.

Lemma init_inv : inv init.
Proof using All.
  pose proof num_others as Hn.
  assert (forall i t, thread_at i init = Some t -> t = calloc_info) as Ht.
  { intros [|i] t; cbn; [by intros [= <-]|]. by intros [-> _]%lookup_replicate. }
  constructor; cbn; try done.
  - apply length_replicate.
  - intros i t ->%Ht. by destruct i.
  - unfold counts_of. cbn. assert (forall k n, k TNone = false -> count k (replicate n calloc_info) = 0%nat) as Hz.
    { intros k n Hk. induction n; cbn; [done|]. by rewrite Hk. }
    by rewrite !Hz.
  - intros i t ->%Ht. done.
  - lia.
Qed.

Lemma run_inv es s s' : inv s -> run es s = Some s' -> inv s'.
Proof using All.
  revert s. induction es as [|e es IH]; cbn [Bench.run]; intros s Hi; [by intros [= <-]|].
  intros (s1 & H1 & H2)%bind_Some. eapply IH; [|done]. by eapply step_inv.
Qed.

Lemma reachable_inv s : reachable s -> inv s.
Proof using All. intros [es Hes]. eapply run_inv; [|done]. apply init_inv. Qed.

(** C17. Whichever allocation, creation or binding of a thread fails and in whatever
    order the threads run (the pipes work): a thread measures
    only while the buffer is allocated, the first thread that measures has
    reported its times before they are read, and when the benchmark returns, and
    frees the data of its threads, none of them is alive. *)
Theorem bench_safe s :
  reachable s ->
  (forall i t, thread_at i s = Some t -> ti_loc t = TMeasure -> buf s = BufAlloc) /\
  (mgr s = MResult -> exists t, thread_at 1 s = Some t /\
    (ti_overhead t, ti_total t) = samples 1%nat) /\
  (forall ret, mgr s = MDone ret -> forall i t, thread_at i s = Some t ->
    ti_loc t = TEnd \/ ti_loc t = TNone).
Proof using Hpar.
  intros Hi%reachable_inv. pose proof (inv_counts _ Hi) as Hc. unfold counts_of in Hc. split_and!.
  - intros [|j] t Ht El; [by pose proof (inv_threads _ Hi _ _ Ht) as Hok; cbn in Hok; rewrite El in Hok|].
    pose proof (count_alter running (at_loc TEnd) j _ _ Ht) as Hn. rewrite El in Hn. cbn in Hn.
    destruct (mgr s); cbn in Hc; conjuncts; (done || lia).
  - intros Em. pose proof (inv_reports _ Hi) as Hr. unfold reports in Hr. rewrite Em in Hr.
    destruct (thread_at 1 s) as [t|] eqn:Ht.
    + exists t. split; [done|]. destruct (Hr 0%nat t Ht) as [-> ->]. by destruct (samples 1%nat).
    + cbn in Ht. apply lookup_ge_None in Ht. rewrite (inv_length _ Hi) in Ht.
      pose proof others_pos. lia.
  - intros ret Em i t Ht. pose proof (inv_lives _ Hi i t Ht) as Hl. rewrite Em in Hl. cbn in Hl. tauto.
Qed.
End protocol.
