(* ===== verification/BenchLiveness.v ===== *)
(** * The benchmark ends, or hangs

    Every schedule of the threads of [Bench] is finite; when all calls succeed it
    ends with the result, and when the buffers cannot be allocated it ends with
    two threads that wait for each other. *)

From S2P Require Import Prelude Bitops BenchBuffer Bench BenchProtocol.

Section liveness.
Context (mem_ok : bool) (create_ok cpu_ok : nat -> bool) (samples : nat -> Z * Z).
Context (node_id : Z -> Z) (parallel initiator_cpu target_cpu : Z).
Context (Hpar : 2 <= parallel).

Notation thread_step := (thread_step mem_ok cpu_ok samples initiator_cpu target_cpu).
Notation manager_step := (manager_step create_ok node_id parallel target_cpu).
Notation step := (step mem_ok create_ok cpu_ok samples node_id parallel initiator_cpu target_cpu).
Notation run := (run mem_ok create_ok cpu_ok samples node_id parallel initiator_cpu target_cpu).
Notation reachable :=
  (reachable mem_ok create_ok cpu_ok samples node_id parallel initiator_cpu target_cpu).
Notation stuck := (stuck mem_ok create_ok cpu_ok samples node_id parallel initiator_cpu target_cpu).
Notation init := (init parallel).
Notation others := (others parallel).
Notation inv := (inv mem_ok create_ok samples parallel).
Notation expected := (expected samples).

(** ** Every schedule ends *)

Definition rank (l : tloc) : nat :=
  match l with
  | TNone => 9 | TStart => 8 | TReadyAlloc => 7 | TShield => 6 | TWaitStart => 7 | TMeasure => 6
  | TReady => 5 | TWaitStop => 4 | TFree => 3 | TEnd => 0
  end%nat.

Definition place (n : nat) (m : mloc) : nat :=
  match m with
  | MCreate i => (5 * n + 7 + (n - i))
  | MWaitAlloc => (5 * n + 6)
  | MStart k => (4 * n + 6 + k)
  | MReady k => (3 * n + 5 + k)
  | MStop k => (2 * n + 4 + k)
  | MResult => (2 * n + 3)
  | MDestroy i k joining _ => (1 + 2 * (k - i) + if joining then 0 else 1)
  | MDone _ | MFault _ => 0
  end%nat.

Fixpoint ranks (l : list thread_info) : nat :=
  match l with [] => 0%nat | t :: l => (rank (ti_loc t) + ranks l)%nat end.

Definition steps_left (s : st) : nat :=
  (place (S others) (mgr s) + rank (ti_loc (alloc s)) + ranks (benchers s))%nat.

Lemma ranks_alter f j l t :
  l !! j = Some t -> (ranks (alter f j l) + rank (ti_loc t) = ranks l + rank (ti_loc (f t)))%nat.
Proof.
  revert j. induction l as [|x l IH]; intros [|j] H; simplify_eq/=; [lia|].
  specialize (IH j H). unfold alter in *. lia.
Qed.

(** The threads of a state after one of them was updated. *)
Lemma steps_left_upd i f s t :
  thread_at i s = Some t ->
  (steps_left (upd_thread i f s) + rank (ti_loc t) = steps_left s + rank (ti_loc (f t)))%nat.
Proof.
  intros Ht. unfold steps_left. destruct i as [|j]; cbn in *; [simplify_eq; lia|].
  pose proof (ranks_alter f j _ _ Ht). lia.
Qed.

Lemma thread_step_left i t s s' :
  thread_at i s = Some t -> thread_step i t s = Some s' -> (steps_left s' < steps_left s)%nat.
Proof.
  intros Ht. unfold Bench.thread_step. pose proof (fun f => steps_left_upd i f s t Ht) as Hu.
  unfold steps_left in *. destruct (ti_loc t) eqn:El; try done.
  - intros [= <-]. destruct (bind_self _ _ _ _ _) as [t'|].
    + specialize (Hu (fun _ => at_loc (if Nat.eqb i 0 then TReadyAlloc else TWaitStart) t')).
      destruct (Nat.eqb i 0); cbn in *; lia.
    + specialize (Hu (at_loc TEnd)). cbn in *. lia.
  - intros [= <-]. specialize (Hu (at_loc TShield)). cbn in *. lia.
  - intros [= <-]. specialize (Hu (fun t => at_loc TWaitStop (shield true t))). cbn in *. lia.
  - destruct (start s); [done|]. intros [= <-]. specialize (Hu (at_loc TMeasure)). cbn in *. lia.
  - intros [= <-].
    specialize (Hu (fun t => at_loc TReady (with_times (samples i).1 (samples i).2 t))). cbn in *. lia.
  - intros [= <-]. specialize (Hu (at_loc TWaitStop)). cbn in *. lia.
  - destruct (stop s); [done|]. intros [= <-].
    specialize (Hu (at_loc (if Nat.eqb i 0 then TFree else TEnd))).
    destruct (Nat.eqb i 0); cbn in *; lia.
  - intros [= <-]. specialize (Hu (fun t => at_loc TEnd (shield false t))). cbn in *. lia.
Qed.

Lemma cancel_step_left i t s s' :
  thread_at i s = Some t -> cancel_step i t s = Some s' -> (steps_left s' < steps_left s)%nat.
Proof.
  intros Ht. unfold cancel_step. pose proof (steps_left_upd i (at_loc TEnd) s t Ht) as Hu.
  destruct (ti_cancel t && negb (ti_disabled t) && cancellation_point (ti_loc t)) eqn:E; [|done].
  zbool. intros [= <-]. unfold steps_left in *. destruct (ti_loc t); cbn in *; (done || lia).
Qed.

Lemma manager_step_left s s' : inv s -> manager_step s = Some s' -> (steps_left s' < steps_left s)%nat.
Proof using Hpar.
  intros Hi. unfold Bench.manager_step, create_bench_threads, destroy_bench_threads. pose proof (num_others _ Hpar) as Hn. rewrite Hn.
  unfold steps_left. destruct (mgr s) as [i| |[|k]|[|k]|[|k]| |i n [] ret|ret|f] eqn:Em; try done.
  - intros [= <-]. set (s1 := if Nat.eqb i 0 then _ else _).
    assert (forall j, thread_at j s1 = thread_at j s) as Et by (unfold s1; by destruct (Nat.eqb i 0), j).
    assert (alloc s1 = alloc s /\ benchers s1 = benchers s) as [Ea Eb] by (unfold s1; by destruct (Nat.eqb i 0)).
    clearbody s1. destruct (Nat.ltb_spec i (S others)).
    + rewrite orb_true_r. destruct (create_ok i); cbn; [|rewrite Ea, Eb; lia].
      destruct (thread_at i s) as [t|] eqn:Ht.
      * pose proof (inv_lives _ _ _ _ _ Hi i t Ht) as Hl. rewrite Em in Hl. cbn in Hl.
        rewrite decide_False in Hl by lia. destruct Hl as [_ Hnone]. rewrite <- Et in Ht.
        pose proof (steps_left_upd i (at_loc TStart) s1 t Ht) as Hu. unfold steps_left in Hu.
        rewrite Hnone, mgr_upd, Ea, Eb in Hu. cbn in Hu. lia.
      * destruct i; [done|]. cbn in Ht. apply lookup_ge_None in Ht.
        rewrite (inv_length _ _ _ _ _ Hi) in Ht. lia.
    + rewrite orb_false_r. destruct (Nat.ltb i 2); cbn; rewrite Ea, Eb; lia.
  - destruct (ready s); [done|]. intros [= <-]. cbn. destruct (buf s); cbn; lia.
  - intros [= <-]. cbn. lia.
  - intros [= <-]. cbn. lia.
  - intros [= <-]. cbn. lia.
  - destruct (ready s); [done|]. intros [= <-]. cbn. lia.
  - intros [= <-]. cbn. lia.
  - intros [= <-]. cbn. lia.
  - intros [= <-]. destruct (benchers s) eqn:Eb; cbn; rewrite ?Eb; cbn; lia.
  - pose proof (inv_bounded _ _ _ _ _ Hi) as Hb. rewrite Em in Hb. cbn in Hb.
    destruct (thread_at i s) as [t|] eqn:Ht; [case_decide; [|done]|]; intros [= <-]; cbn; lia.
  - intros [= <-]. destruct (Nat.ltb_spec i n); [|cbn; lia].
    destruct (thread_at i s) as [t|] eqn:Ht.
    + pose proof (steps_left_upd i cancelled s t Ht) as Hu. unfold steps_left in Hu.
      rewrite mgr_upd, Em in Hu. cbn in *. lia.
    + pose proof (inv_bounded _ _ _ _ _ Hi) as Hb. rewrite Em in Hb. cbn in Hb. destruct i; [done|].
      cbn in Ht. apply lookup_ge_None in Ht. rewrite (inv_length _ _ _ _ _ Hi) in Ht. lia.
Qed.

Lemma run_left es s s' : inv s -> run es s = Some s' -> (length es + steps_left s' <= steps_left s)%nat.
Proof using Hpar.
  revert s. induction es as [|e es IH]; cbn [Bench.run]; intros s Hi; [by intros [= <-]|].
  intros (s1 & H1 & H2)%bind_Some.
  assert (inv s1) as Hi1 by (eapply step_inv; done). specialize (IH s1 Hi1 H2).
  assert (steps_left s1 < steps_left s)%nat; [|cbn; lia].
  destruct e as [|i|i]; cbn [Bench.step] in H1.
  - by apply manager_step_left.
  - apply bind_Some in H1 as (t & Ht & Hs). by eapply thread_step_left.
  - apply bind_Some in H1 as (t & Ht & Hs). by eapply cancel_step_left.
Qed.

(** ** Schedules that cannot go on *)

Context (Hcreate : forall i, create_ok i = true) (Hcpu : forall i, cpu_ok i = true).

(** Before STOP no thread has ended. *)
Definition alive (s : st) : Prop :=
  match mgr s with
  | MCreate _ | MWaitAlloc | MStart _ | MReady _ =>
    forall i t, thread_at i s = Some t -> ti_loc t <> TEnd
  | _ => True
  end.

Lemma alive_thread i t s s' :
  inv s -> alive s -> thread_at i s = Some t -> thread_step i t s = Some s' -> alive s'.
Proof using All.
  intros Hi Ha Ht Hs. destruct (thread_step_frame _ _ _ _ _ _ _ _ _ Ht Hs) as [t' Hf].
  pose proof (inv_counts _ _ _ _ _ Hi) as Hc. pose proof (inv_threads _ _ _ _ _ Hi _ _ Ht) as Hok.
  assert (match mgr s with MCreate _ | MWaitAlloc | MStart _ | MReady _ => ti_loc t' <> TEnd | _ => True end) as Ht'.
  { assert (thread_at i s' = Some t') as Hs' by (rewrite (fr_threads _ _ _ _ _ _ Hf); by case_decide).
    assert (ti_loc t = TFree -> match mgr s with
      MCreate _ | MWaitAlloc | MStart _ | MReady _ => False | _ => True end) as Hfree.
    { intros El. unfold counts_of in Hc. destruct i as [|i]; cbn in Ht, Hok; [simplify_eq|rewrite El in Hok; tauto].
      rewrite El in Hc. destruct (mgr s); cbn in Hc; unfold holds in Hc; try done; naive_solver. }
    assert (stop s <> 0%nat -> match mgr s with
      MCreate _ | MWaitAlloc | MStart _ | MReady _ => False | _ => True end) as Hstop.
    { intros Hne. unfold counts_of in Hc. destruct (mgr s); cbn in Hc; try done; tauto. }
    unfold Bench.thread_step in Hs. destruct (ti_loc t) eqn:El; try done.
    all: try (destruct (mgr s); try done; by destruct (Hfree eq_refl)).
    - unfold bind_self in Hs. rewrite Hcpu in Hs. injection Hs as <-.
      assert (ti_loc t' = if Nat.eqb i 0 then TReadyAlloc else TWaitStart) as ->;
        [|by destruct (mgr s), (Nat.eqb i 0)].
      destruct (0 <=? _); destruct i as [|i]; cbn [Nat.eqb] in *;
        rewrite ?thread_at_set_buf, thread_at_upd, Ht in Hs'; rewrite decide_True in Hs' by done;
        cbn in Hs'; by simplify_eq.
    - injection Hs as <-. rewrite thread_at_set_ready, thread_at_upd, Ht, decide_True in Hs' by done.
      simplify_eq/=. by destruct (mgr s).
    - injection Hs as <-. rewrite thread_at_upd, Ht, decide_True in Hs' by done. simplify_eq/=. by destruct (mgr s).
    - destruct (start s); [done|]. injection Hs as <-.
      rewrite thread_at_set_start, thread_at_upd, Ht, decide_True in Hs' by done. simplify_eq/=. by destruct (mgr s).
    - injection Hs as <-. rewrite thread_at_upd, Ht, decide_True in Hs' by done. simplify_eq/=. by destruct (mgr s).
    - injection Hs as <-. rewrite thread_at_set_ready, thread_at_upd, Ht, decide_True in Hs' by done.
      simplify_eq/=. by destruct (mgr s).
    - destruct (stop s); [done|]. specialize (Hstop ltac:(lia)). by destruct (mgr s). }
  unfold alive in *. rewrite (fr_mgr _ _ _ _ _ _ Hf).
  destruct (mgr s); try done; intros j u; rewrite (fr_threads _ _ _ _ _ _ Hf);
    case_decide; [intros [= <-]; done|apply Ha|intros [= <-]; done|apply Ha|intros [= <-]; done|apply Ha
                 |intros [= <-]; done|apply Ha].
Qed.

Lemma alive_cancel i t s s' :
  inv s -> alive s -> thread_at i s = Some t -> cancel_step i t s = Some s' -> alive s'.
Proof using All.
  intros Hi Ha Ht Hs. pose proof (cancel_step_frame samples _ _ _ _ Ht Hs) as Hf.
  pose proof (inv_lives _ _ _ _ _ Hi _ _ Ht) as Hl.
  unfold cancel_step in Hs. destruct (ti_cancel t) eqn:Ec; [|done].
  unfold alive. rewrite (fr_mgr _ _ _ _ _ _ Hf). destruct (mgr s); cbn in Hl; try done; destruct Hl; congruence.
Qed.

Lemma alive_manager s s' : inv s -> alive s -> manager_step s = Some s' -> alive s'.
Proof using All.
  intros Hi Ha. unfold Bench.manager_step, create_bench_threads, destroy_bench_threads, alive in *.
  destruct (mgr s) as [i| |[|k]|[|k]|[|k]| |i n [] ret|ret|f] eqn:Em; try done.
  - intros [= <-]. set (s1 := if Nat.eqb i 0 then _ else _).
    assert (forall j, thread_at j s1 = thread_at j s) as Et by (unfold s1; by destruct (Nat.eqb i 0), j).
    clearbody s1. destruct (Nat.ltb i 2 || Nat.ltb i _)%bool.
    + destruct (Nat.ltb i _); [|done]. destruct (create_ok i); [|done]. cbn.
      intros j t. rewrite thread_at_set_mgr, thread_at_upd. case_decide.
      * by intros (u & _ & ->)%fmap_Some.
      * rewrite Et. apply Ha.
    + cbn. intros j t. rewrite thread_at_set_mgr, Et. apply Ha.
  - destruct (ready s); [done|]. intros [= <-]. cbn. destruct (buf s); cbn; try done;
    intros j t; rewrite thread_at_set_mgr, thread_at_set_ready; apply Ha.
  - intros [= <-]. cbn. intros j t; rewrite thread_at_set_mgr; apply Ha.
  - intros [= <-]. cbn. intros j t; rewrite thread_at_set_start, thread_at_set_mgr; apply Ha.
  - by intros [= <-].
  - destruct (ready s); [done|]. intros [= <-]. cbn.
    intros j t; rewrite thread_at_set_ready, thread_at_set_mgr; apply Ha.
  - by intros [= <-].
  - by intros [= <-].
  - intros [= <-]. by destruct (benchers s).
  - destruct (thread_at i s); [case_decide; [|done]|]; by intros [= <-].
  - intros [= <-]. by destruct (Nat.ltb i n).
Qed.

Lemma reachable_alive s : reachable s -> alive s.
Proof using All.
  intros [es Hes]. assert (inv init /\ alive init) as [Hi Ha].
  { split; [by apply init_inv|]. cbn. intros [|i] t; cbn; [by intros [= <-]|].
    by intros [-> _]%lookup_replicate. }
  revert Hi Ha Hes. generalize init. induction es as [|e es IH]; cbn [Bench.run]; intros s0 Hi Ha;
    [by intros [= <-]|]. intros (s1 & H1 & H2)%bind_Some.
  assert (inv s1) as Hi1 by (eapply step_inv; done). apply (IH s1 Hi1); [|done].
  destruct e as [|i|i]; cbn [Bench.step] in H1.
  - by apply (alive_manager s0).
  - apply bind_Some in H1 as (t & Ht & Hs). by apply (alive_thread i t s0).
  - apply bind_Some in H1 as (t & Ht & Hs). by apply (alive_cancel i t s0).
Qed.

Lemma stuck_thread i t s : stuck s -> thread_at i s = Some t -> thread_step i t s = None.
Proof using All. intros Hs Ht. specialize (Hs (Thread i)). cbn in Hs. by rewrite Ht in Hs. Qed.

(** A thread that cannot move has not been created, has ended, or waits for a byte. *)
Lemma thread_blocked i t s :
  thread_step i t s = None ->
  ti_loc t = TNone \/ ti_loc t = TEnd \/ (ti_loc t = TWaitStart /\ start s = 0%nat) \/
  (ti_loc t = TWaitStop /\ stop s = 0%nat).
Proof using All.
  unfold Bench.thread_step. destruct (ti_loc t); try done; try tauto.
  - destruct (start s); [tauto|done].
  - destruct (stop s); [tauto|done].
Qed.

(** While READY is awaited some thread can move. *)
Lemma ready_progress s k :
  inv s -> alive s -> mgr s = MReady (S k) -> ready s = 0%nat -> stuck s -> False.
Proof using All.
  intros Hi Ha Em Er Hs. pose proof (inv_counts _ _ _ _ _ Hi) as Hc. unfold counts_of in Hc.
  rewrite Em, Er in Hc. cbn in Hc. destruct Hc as (_ & _ & _ & _ & Hrd & Htot).
  unfold alive in Ha. rewrite Em in Ha.
  pose proof (count_total (benchers s)) as Hall. rewrite (inv_length _ _ _ _ _ Hi) in Hall.
  assert (forall j t, benchers s !! j = Some t ->
    ti_loc t <> TNone /\ ti_loc t <> TEnd /\ (ti_loc t = TWaitStart /\ start s = 0%nat \/ ti_loc t = TWaitStop)) as Hb.
  { intros j t Ht. pose proof (stuck_thread (S j) t s Hs Ht) as Hblock%thread_blocked.
    pose proof (inv_lives _ _ _ _ _ Hi (S j) t Ht) as Hl. rewrite Em in Hl. destruct Hl as [_ Hl].
    specialize (Ha (S j) t Ht). tauto. }
  assert (count running (benchers s) = 0%nat) as HR.
  { destruct (decide (0 < count running (benchers s))%nat) as [(j & t & Ht & Hr)%count_pos|]; [|lia].
    destruct (Hb j t Ht) as (_ & _ & [[El _]|El]); by rewrite El in Hr. }
  assert (0 < count early (benchers s) \/ 0 < count ended (benchers s))%nat as [H|H] by lia;
    apply count_pos in H as (j & t & Ht & Hk);
    destruct (Hb j t Ht) as (_ & _ & [[El ?]|El]); rewrite El in Hk; try done. lia.
Qed.

(** The states in which no thread can move. *)
Lemma stuck_cases s :
  reachable s -> stuck s ->
  (mem_ok = true /\ mgr s = MDone expected) \/
  (mem_ok = false /\ (exists ret, mgr s = MDestroy 0 (num parallel) true ret) /\
   ti_loc (alloc s) = TWaitStop).
Proof using All.
  intros Hreach Hs. pose proof (reachable_alive s Hreach) as Ha.
  assert (inv s) as Hi by (eapply reachable_inv; done).
  pose proof (inv_counts _ _ _ _ _ Hi) as Hc. unfold counts_of in Hc.
  pose proof (inv_bounded _ _ _ _ _ Hi) as Hbd. pose proof (num_others _ Hpar) as Hn.
  pose proof (Hs Manager) as Hm. cbn [Bench.step] in Hm. unfold Bench.manager_step, create_bench_threads, destroy_bench_threads in Hm.
  pose proof (thread_blocked 0 (alloc s) s (stuck_thread 0 (alloc s) s Hs eq_refl)) as Hal.
  pose proof (inv_lives _ _ _ _ _ Hi 0 (alloc s) eq_refl) as Hl.
  pose proof (inv_threads _ _ _ _ _ Hi 0 (alloc s) eq_refl) as Hok0.
  destruct (mgr s) as [i| |[|k]|[|k]|[|k]| |i n [] ret|ret|f] eqn:Em; try done; cbn in Hc.
  - destruct (ready s) eqn:Er; [|done]. destruct Hc as (_ & _ & _ & _ & Hf). unfold alive in Ha. rewrite Em in Ha.
    specialize (Ha 0%nat (alloc s) eq_refl). destruct Hl as [_ Hl].
    destruct Hal as [Hx|[Hx|[[Hx _]|[Hx _]]]]; rewrite Hx in *; try done. cbn in Hf. lia.
  - destruct (ready s) eqn:Er; [|done]. exfalso. by eapply ready_progress.
  - destruct Hbd as [Hb1 Hb2]. destruct Hc as [Hc|[Hc|Hc]].
    + exfalso. destruct Hc as (-> & _ & Hlets & _ & _ & HWE & Hsp).
      pose proof (count_total (benchers s)) as Hall. rewrite (inv_length _ _ _ _ _ Hi) in Hall.
      assert (exists t, thread_at i s = Some t) as [t Ht].
      { destruct i as [|j]; cbn; [eauto|]. apply lookup_lt_is_Some. rewrite (inv_length _ _ _ _ _ Hi). lia. }
      rewrite Ht in Hm. case_decide as Ee; [done|].
      pose proof (inv_lives _ _ _ _ _ Hi i t Ht) as Hli. rewrite Em in Hli. destruct Hli as (_ & _ & Hne & Hcan).
      specialize (Hne Hb2). specialize (Hcan eq_refl eq_refl).
      pose proof (thread_blocked i t s (stuck_thread i t s Hs Ht)) as Hb.
      destruct i as [|j].
      * cbn in Ht. simplify_eq. destruct Hb as [?|[?|[[Hx ?]|[Hx ?]]]]; try done; rewrite Hx in *; cbn in *; [done|lia].
      * pose proof (inv_threads _ _ _ _ _ Hi _ _ Ht) as [Hd _]. pose proof (Hs (Cancel (S j))) as Hcs.
        cbn [Bench.step] in Hcs. rewrite Ht in Hcs. cbn in Hcs. unfold cancel_step in Hcs.
        rewrite Hcan, Hd in Hcs. destruct Hb as [?|[?|[[Hx ?]|[Hx ?]]]]; try done; by rewrite Hx in Hcs.
    + right. destruct Hc as (-> & Hmem & Hh & _ & -> & _). split; [done|]. split; [rewrite Hn; eauto|].
      destruct Hh as [Hx|Hx]; [|done]. rewrite Hx in Hal. naive_solver.
    + destruct Hc as (_ & Hx & _). by rewrite Hcreate in Hx.
  - left. destruct Hc as (_ & _ & [[Hmem _]|(n & _ & Hx)]); [|by rewrite Hcreate in Hx]. split; [done|].
    pose proof (inv_reports _ _ _ _ _ Hi) as Hr. unfold reports in Hr. rewrite Em in Hr. by rewrite Hr.
Qed.

Lemma steps_left_init : Z.of_nat (steps_left init) = 15 * parallel + 7.
Proof using Hpar.
  unfold steps_left, Bench.init. cbn [mgr alloc benchers calloc_info ti_loc rank place].
  assert (forall n, ranks (replicate n calloc_info) = 9 * n)%nat as ->.
  { intros n. induction n; cbn; lia. }
  unfold BenchProtocol.others, num. lia.
Qed.

(** C16. A benchmark whose calls succeed: no schedule of its threads takes more than
    [15 * parallel + 7] steps, and when none of them can go on [do_bench] has
    returned the time that the first measuring thread took, less the overhead, the
    buffer has been freed and all threads have ended. *)
Theorem bench_completes es s :
  mem_ok = true -> run es init = Some s ->
  Z.of_nat (length es) <= 15 * parallel + 7 /\
  (stuck s -> mgr s = MDone expected /\ buf s = BufFreed /\
    forall i t, thread_at i s = Some t -> ti_loc t = TEnd).
Proof using All.
  intros Hmem Hrun. assert (reachable s) as Hreach by (by exists es).
  assert (inv s) as Hi by (eapply reachable_inv; done). split.
  - rewrite <- steps_left_init. pose proof (run_left es init s (init_inv _ _ cpu_ok _ node_id _ 0 0 Hpar) Hrun). lia.
  - intros Hs. destruct (stuck_cases s Hreach Hs) as [[_ Em]|[? _]]; [|congruence].
    pose proof (inv_counts _ _ _ _ _ Hi) as Hc. unfold counts_of in Hc. rewrite Em in Hc. cbn in Hc.
    destruct Hc as (_ & _ & [[_ Hlets]|(n & _ & Hx)]); [|by rewrite Hcreate in Hx].
    assert (ti_loc (alloc s) = TEnd) as Ha.
    { pose proof (inv_lives _ _ _ _ _ Hi 0 _ eq_refl) as Hl. rewrite Em in Hl. cbn in Hl.
      destruct Hl as [|[Hx _]]; [done|]. by rewrite Hx in Hlets. }
    split; [done|]. split; [by rewrite Ha in Hlets|].
    intros i t Ht. pose proof (inv_lives _ _ _ _ _ Hi i t Ht) as Hl. rewrite Em in Hl.
    destruct Hl as [|[_ [n Hx]]]; [done|]. by rewrite Hcreate in Hx.
Qed.

(** C40. When the buffers cannot be allocated the benchmark does not return the
    error that it means to: no schedule makes [do_bench] return, and every one ends,
    after at most [15 * parallel + 7] steps, with [do_bench] waiting for the end of
    the allocating thread, which has disabled its cancellation and waits for the STOP
    that is never sent. *)
Theorem failed_allocation_hangs es s :
  mem_ok = false -> run es init = Some s ->
  Z.of_nat (length es) <= 15 * parallel + 7 /\
  (forall ret, mgr s <> MDone ret) /\
  (stuck s -> (exists ret, mgr s = MDestroy 0 (num parallel) true ret) /\ ti_loc (alloc s) = TWaitStop).
Proof using All.
  intros Hmem Hrun. assert (reachable s) as Hreach by (by exists es).
  assert (inv s) as Hi by (eapply reachable_inv; done). split_and!.
  - rewrite <- steps_left_init. pose proof (run_left es init s (init_inv _ _ cpu_ok _ node_id _ 0 0 Hpar) Hrun). lia.
  - intros ret Em. pose proof (inv_counts _ _ _ _ _ Hi) as Hc. unfold counts_of in Hc. rewrite Em in Hc.
    cbn in Hc. destruct Hc as (_ & _ & [[? _]|(n & _ & Hx)]); [congruence|by rewrite Hcreate in Hx].
  - intros Hs. destruct (stuck_cases s Hreach Hs) as [[? _]|(_ & ? & ?)]; [congruence|done].
Qed.
End liveness.

(** ** Two threads *)

Module TwoThreads.
Definition times (i : nat) : Z * Z := (5, 1005).
Definition yes (i : nat) : bool := true.
Definition node (cpu : Z) : Z := 0.

(** A schedule in which everything succeeds. *)
Definition schedule : list event :=
  [Manager; Manager; Manager; Thread 1; Thread 0; Thread 0; Manager; Manager; Manager; Thread 1; Thread 1;
   Thread 1; Manager; Manager; Thread 0; Manager; Manager; Manager; Thread 1; Manager; Manager; Thread 0;
   Thread 0; Manager; Manager; Manager; Manager].

Definition last_state (mem : bool) (create cpu : nat -> bool) (es : list event) : option st :=
  run mem create cpu times node 2 0 0 es (init 2).

Lemma bench_completes_witness :
  exists s, last_state true yes yes schedule = Some s /\ mgr s = MDone 1000 /\
    Z.of_nat (length schedule) <= 15 * 2 + 7 /\
    (stuck true yes yes times node 2 0 0 s -> mgr s = MDone 1000 /\ buf s = BufFreed /\
      forall i t, thread_at i s = Some t -> ti_loc t = TEnd).
Proof.
  eexists. split; [vm_compute; reflexivity|]. split; [reflexivity|].
  apply (bench_completes true yes yes times node 2 0 0 ltac:(lia) (fun _ => eq_refl) (fun _ => eq_refl) schedule);
    vm_compute; reflexivity.
Defined.

(** The allocation fails. *)
Definition failing : list event :=
  [Manager; Manager; Manager; Thread 1; Thread 0; Thread 0; Thread 0; Manager; Manager].

Lemma failed_allocation_hangs_witness :
  exists s, last_state false yes yes failing = Some s /\
    Z.of_nat (length failing) <= 15 * 2 + 7 /\ (forall ret, mgr s <> MDone ret) /\
    (stuck false yes yes times node 2 0 0 s ->
      (exists ret, mgr s = MDestroy 0 (num 2) true ret) /\ ti_loc (alloc s) = TWaitStop).
Proof.
  eexists. split; [vm_compute; reflexivity|].
  apply (failed_allocation_hangs false yes yes times node 2 0 0 ltac:(lia) (fun _ => eq_refl) (fun _ => eq_refl) failing);
    vm_compute; reflexivity.
Defined.

Definition measuring : list event :=
  [Manager; Manager; Manager; Thread 1; Thread 0; Thread 0; Manager; Manager; Thread 1].

Lemma bench_safe_witness :
  exists s, last_state true yes yes measuring = Some s /\
    (forall i t, thread_at i s = Some t -> ti_loc t = TMeasure -> buf s = BufAlloc) /\
    (mgr s = MResult -> exists t, thread_at 1 s = Some t /\ (ti_overhead t, ti_total t) = times 1) /\
    (forall ret, mgr s = MDone ret -> forall i t, thread_at i s = Some t ->
      ti_loc t = TEnd \/ ti_loc t = TNone).
Proof.
  eexists. split; [vm_compute; reflexivity|].
  apply (bench_safe true yes yes times node 2 0 0 ltac:(lia)). exists measuring. vm_compute. reflexivity.
Defined.

(** The second thread cannot be created after the first has prepared the buffers: the
    threads that exist are cancelled and joined, but the first one has disabled its
    cancellation. *)
Lemma failed_creation_hangs :
  let create i := Nat.eqb i 0 in
  exists s, last_state true create yes [Manager; Thread 0; Thread 0; Thread 0; Manager; Manager] = Some s /\
    stuck true create yes times node 2 0 0 s /\ mgr s = MDestroy 0 1 true (-1).
Proof.
  eexists. split; [vm_compute; reflexivity|]. split; [|reflexivity].
  by intros [|[|[|i]]|[|[|i]]].
Qed.

(** The allocating thread cannot allocate the set that it binds itself with: it
    returns without a READY, and [do_bench] waits for it. *)
Lemma failed_binding_hangs :
  let cpu i := negb (Nat.eqb i 0) in
  exists s, last_state true yes cpu [Manager; Manager; Manager; Thread 0; Thread 1] = Some s /\
    stuck true yes cpu times node 2 0 0 s /\ mgr s = MWaitAlloc /\ ti_loc (alloc s) = TEnd.
Proof.
  eexists. split; [vm_compute; reflexivity|]. split; [|by split].
  by intros [|[|[|i]]|[|[|i]]].
Qed.

(** The same failure with another order: the buffer is allocated and never freed. *)
Lemma failed_creation_leaks :
  let create i := Nat.eqb i 0 in
  exists s, last_state true create yes [Manager; Thread 0; Manager; Manager; Cancel 0; Manager; Manager] = Some s /\
    mgr s = MDone (-1) /\ buf s = BufAlloc.
Proof. eexists. split; [vm_compute; reflexivity|]. by split. Qed.
End TwoThreads.
