(* ===== verification/BenchMain.v ===== *)
(** * The command of the memory benchmark

    [parse_command], [init_bench_parameters], the checks of [do_bench], the
    repetitions of the measurements and [main] of [wayca-memory-bench.c]. What
    [getopt_long] returns is a list of options; what the measurements return comes
    from [Bench]. *)

From Stdlib Require Import Ascii String.
From S2P Require Import Prelude Bitops Cpuset Cstring Dynset TopoState BenchBuffer Bench.

(** An option: a long one without a letter, a letter with its argument, or an error. *)
Inductive option_ :=
  | OptLatency
  | OptBandwidth
  | OptHelp
  | OptVerbose
  | OptLength (optarg : cstring)
  | OptThp
  | OptInitiator (optarg : cstring)
  | OptTarget (optarg : cstring)
  | OptRandom
  | OptStride (optarg : cstring)
  | OptParallel (optarg : cstring)
  | OptIteration (optarg : cstring)
  | OptVersion
  | OptError.

Definition set_random_access v b :=
    mk_bench v (lat_bench b) (bw_bench b) (use_thp b) (verbose b) (buf_sz b) (page_size b)
    (latbench_count b) (cacheline_size b) (initiator_cpu b) (target_cpu b) (total_cpus b)
    (iteration b) (parallel b) (stride b).
Definition set_lat_bench v b :=
    mk_bench (random_access b) v (bw_bench b) (use_thp b) (verbose b) (buf_sz b) (page_size b)
    (latbench_count b) (cacheline_size b) (initiator_cpu b) (target_cpu b) (total_cpus b)
    (iteration b) (parallel b) (stride b).
Definition set_bw_bench v b :=
    mk_bench (random_access b) (lat_bench b) v (use_thp b) (verbose b) (buf_sz b) (page_size b)
    (latbench_count b) (cacheline_size b) (initiator_cpu b) (target_cpu b) (total_cpus b)
    (iteration b) (parallel b) (stride b).
Definition set_use_thp v b :=
    mk_bench (random_access b) (lat_bench b) (bw_bench b) v (verbose b) (buf_sz b) (page_size b)
    (latbench_count b) (cacheline_size b) (initiator_cpu b) (target_cpu b) (total_cpus b)
    (iteration b) (parallel b) (stride b).
Definition set_verbose v b :=
    mk_bench (random_access b) (lat_bench b) (bw_bench b) (use_thp b) v (buf_sz b) (page_size b)
    (latbench_count b) (cacheline_size b) (initiator_cpu b) (target_cpu b) (total_cpus b)
    (iteration b) (parallel b) (stride b).
Definition set_buf_sz v b :=
    mk_bench (random_access b) (lat_bench b) (bw_bench b) (use_thp b) (verbose b) v (page_size
    b) (latbench_count b) (cacheline_size b) (initiator_cpu b) (target_cpu b) (total_cpus b)
    (iteration b) (parallel b) (stride b).
Definition set_page_size v b :=
    mk_bench (random_access b) (lat_bench b) (bw_bench b) (use_thp b) (verbose b) (buf_sz b) v
    (latbench_count b) (cacheline_size b) (initiator_cpu b) (target_cpu b) (total_cpus b)
    (iteration b) (parallel b) (stride b).
Definition set_latbench_count v b :=
    mk_bench (random_access b) (lat_bench b) (bw_bench b) (use_thp b) (verbose b) (buf_sz b)
    (page_size b) v (cacheline_size b) (initiator_cpu b) (target_cpu b) (total_cpus b)
    (iteration b) (parallel b) (stride b).
Definition set_cacheline_size v b :=
    mk_bench (random_access b) (lat_bench b) (bw_bench b) (use_thp b) (verbose b) (buf_sz b)
    (page_size b) (latbench_count b) v (initiator_cpu b) (target_cpu b) (total_cpus b)
    (iteration b) (parallel b) (stride b).
Definition set_initiator_cpu v b :=
    mk_bench (random_access b) (lat_bench b) (bw_bench b) (use_thp b) (verbose b) (buf_sz b)
    (page_size b) (latbench_count b) (cacheline_size b) v (target_cpu b) (total_cpus b)
    (iteration b) (parallel b) (stride b).
Definition set_target_cpu v b :=
    mk_bench (random_access b) (lat_bench b) (bw_bench b) (use_thp b) (verbose b) (buf_sz b)
    (page_size b) (latbench_count b) (cacheline_size b) (initiator_cpu b) v (total_cpus b)
    (iteration b) (parallel b) (stride b).
Definition set_total_cpus v b :=
    mk_bench (random_access b) (lat_bench b) (bw_bench b) (use_thp b) (verbose b) (buf_sz b)
    (page_size b) (latbench_count b) (cacheline_size b) (initiator_cpu b) (target_cpu b) v
    (iteration b) (parallel b) (stride b).
Definition set_iteration v b :=
    mk_bench (random_access b) (lat_bench b) (bw_bench b) (use_thp b) (verbose b) (buf_sz b)
    (page_size b) (latbench_count b) (cacheline_size b) (initiator_cpu b) (target_cpu b)
    (total_cpus b) v (parallel b) (stride b).
Definition set_parallel v b :=
    mk_bench (random_access b) (lat_bench b) (bw_bench b) (use_thp b) (verbose b) (buf_sz b)
    (page_size b) (latbench_count b) (cacheline_size b) (initiator_cpu b) (target_cpu b)
    (total_cpus b) (iteration b) v (stride b).
Definition set_stride v b :=
    mk_bench (random_access b) (lat_bench b) (bw_bench b) (use_thp b) (verbose b) (buf_sz b)
    (page_size b) (latbench_count b) (cacheline_size b) (initiator_cpu b) (target_cpu b)
    (total_cpus b) (iteration b) (parallel b) v.

(** The static variables at the start of the program. *)
Definition default_bench : bench :=
  mk_bench false false false false false (256 * MiB) 4096 0 64 (-1) (-1) 1 1 0 64.

(** [-l]: the size with its suffix; [None] for the value that [strtoul] returns on
    overflow. *)
Definition parse_length (optarg : cstring) : outcome (option Z) :=
  let buf_sz := (strtoul0 optarg).1.1 in
  if buf_sz =? ULONG_MAX then Ok None
  else
    match last optarg with
    | None => Fault OutOfBounds
    | Some c =>
      let c := tolower (code c) in
      Ok (Some (if c =? 107 (* 'k' *) then to_ulong (buf_sz * KiB)
                else if c =? 109 (* 'm' *) then to_ulong (buf_sz * MiB)
                else if c =? 103 (* 'g' *) then to_ulong (buf_sz * GiB) else buf_sz))
    end.

(** One turn of the loop over the options: go on, or return. *)
Definition parse_option (o : option_) (b : bench) : outcome (bench + Z * bench) :=
  match o with
  | OptLatency => Ok (inl (set_lat_bench true b))
  | OptBandwidth => Ok (inl (set_bw_bench true b))
  | OptHelp => Ok (inr (0, b))
  | OptVerbose => Ok (inl (set_verbose true b))
  | OptLength optarg =>
    r ← parse_length optarg;
    Ok (match r with Some v => inl (set_buf_sz v b) | None => inr (-1, set_buf_sz ULONG_MAX b) end)
  | OptThp => Ok (inl (set_use_thp true b))
  | OptInitiator optarg => Ok (inl (set_initiator_cpu (to_int (strtol0 optarg).1.1) b))
  | OptTarget optarg => Ok (inl (set_target_cpu (to_int (strtol0 optarg).1.1) b))
  | OptRandom => Ok (inl (set_random_access true b))
  | OptStride optarg =>
    let b := set_stride (to_int (strtol0 optarg).1.1) b in
    if negb (ustride b mod cell_size =? 0) || (stride b =? 0) then Ok (inr (- EINVAL, b)) else Ok (inl b)
  | OptParallel optarg =>
    let b := set_parallel (strtol0 optarg).1.1 b in
    if (parallel b <? 0) || (parallel b =? LONG_MAX) then Ok (inr (- EINVAL, b)) else Ok (inl b)
  | OptIteration optarg =>
    let b := set_iteration (to_int (strtol0 optarg).1.1) b in
    if (iteration b <=? 0) || (parallel b =? LONG_MAX) then Ok (inr (- EINVAL, b)) else Ok (inl b)
  | OptVersion => Ok (inr (0, b))
  | OptError => Ok (inr (- EINVAL, b))
  end.

Fixpoint parse_options (opts : list option_) (b : bench) : outcome (bench + Z * bench) :=
  match opts with
  | [] => Ok (inl b)
  | o :: opts =>
    r ← parse_option o b;
    match r with inl b => parse_options opts b | inr _ => Ok r end
  end.

Definition parse_command (opts : list option_) (b : bench) : outcome (Z * bench) :=
  r ← parse_options opts b;
  match r with
  | inr (ret, b) => Ok (ret, b)
  | inl b =>
    let b := if negb (lat_bench b) && negb (bw_bench b) then set_bw_bench true (set_lat_bench true b) else b in
    let b := if parallel b =? 0 then set_parallel 1 b else b in
    Ok (0, set_parallel (parallel b + 1) b)
  end.

(** [pagesize] and [nprocs] are the values of [sysconf], [l3_size] and [cpus] those
    of [wayca_sc_get_l3_size(0)] and [wayca_sc_cpus_in_total()]. *)
Definition init_bench_parameters (pagesize l3_size cpus nprocs : Z) (b : bench) : outcome bench :=
  let b := set_page_size (to_ulong pagesize) b in
  let b := if page_size b <=? 0 then set_page_size (4 * KiB) b else b in
  let b := set_cacheline_size l3_size b in
  let b := if cacheline_size b <=? 0 then set_cacheline_size 64 b else b in
  let b := set_total_cpus cpus b in
  let b := if total_cpus b <=? 0 then set_total_cpus (to_int nprocs) b else b in
  let b := if total_cpus b <=? 0 then set_total_cpus 1 b else b in
  n ← udiv (buf_sz b) (ustride b);
  Ok (set_latbench_count (to_ulong (n * LATENCY_CNT_PER_LOOP)) b).

(** The beginning of [do_bench]: an error, or the state in which the threads are
    created. [cpu] is the value of [get_current_cpu()]; [pipes] is the error of
    [create_pipes], or 0. *)
Definition start_bench (cpu pipes : Z) (calloc : bool) (b : bench) : (Z + st) * bench :=
  let b := if initiator_cpu b <? 0 then set_initiator_cpu cpu b else b in
  let b := if target_cpu b <? 0 then set_target_cpu (initiator_cpu b) b else b in
  if (total_cpus b <=? initiator_cpu b) || (total_cpus b <=? target_cpu b) then (inl (- EINVAL), b)
  else if negb (pipes =? 0) then (inl pipes, b)
  else if negb calloc then (inl (- ENOMEM), b)
  else (inr (init (parallel b)), b).

(** The loops over the iterations: the time and the number of measurements that
    count. [ret i] is what call [i] of [do_bench] returns. *)
Fixpoint iterate (ret : nat -> Z) (i n : nat) (time_elapsed iter : Z) : Z * Z :=
  match n with
  | O => (time_elapsed, iter)
  | S n =>
    let time_elapsed := time_elapsed + ret i in
    iterate ret (S i) n time_elapsed (if time_elapsed <=? 0 then iter else iter + 1)
  end.

(** The error, or the time and the number of loads that it is divided by. *)
Definition measure_memory_latency (ret : nat -> Z) (b : bench) : Z + (Z * Z) :=
  let '(time_elapsed, iter) := iterate ret 0 (Z.to_nat (iteration b)) 0 0 in
  if iter =? 0 then inl (- EINVAL) else inr (time_elapsed, iter * (latbench_count b + 1)).

(** The loop over the four streams: the error, or for each stream the bytes that were
    moved and the time they are divided by. The time is that of all streams so far. *)
Fixpoint stream_results (ret : nat -> nat -> Z) (b : bench) (count : list Z) (i : nat)
    (time_elapsed : Z) : Z + list (Z * Z) :=
  match count with
  | [] => inr []
  | c :: count =>
    let '(time_elapsed, iter) := iterate (ret i) 0 (Z.to_nat (iteration b)) time_elapsed 0 in
    if iter =? 0 then inl (- EINVAL)
    else
      match stream_results ret b count (S i) time_elapsed with
      | inl err => inl err
      | inr l => inr ((buf_sz b * c * iter * (parallel b - 1), time_elapsed) :: l)
      end
  end.

Definition measure_memory_bandwidth (ret : nat -> nat -> Z) (b : bench) : Z + list (Z * Z) :=
  stream_results ret b [2; 2; 3; 3] 0 0.

(** The CPU that [getcpu] wrote, unless the call failed. *)
Definition get_current_cpu (failed : bool) (cpu : Z) : Z := if failed then -1 else cpu.

(** The result of the program, and what was printed for the latency and for the
    streams. [lat] and [bw] are what the calls of [do_bench] return with the options
    that were read. *)
Definition bench_main (pagesize l3_size cpus nprocs : Z) (lat : bench -> nat -> Z)
    (bw : bench -> nat -> nat -> Z) (opts : list option_)
    : outcome (Z * option (Z * Z) * option (list (Z * Z))) :=
  r ← parse_command opts default_bench;
  let '(ret, b) := r in
  if negb (ret =? 0) then Ok (ret, None, None)
  else
    b ← init_bench_parameters pagesize l3_size cpus nprocs b;
    let '(ret, latency) :=
      if lat_bench b then
        match measure_memory_latency (lat b) b with inl err => (err, None) | inr x => (0, Some x) end
      else (ret, None) in
    let '(ret, bandwidth) :=
      if bw_bench b && (ret =? 0) then
        match measure_memory_bandwidth (bw b) b with inl err => (err, None) | inr x => (0, Some x) end
      else (ret, None) in
    Ok (ret, latency, bandwidth).

(** ** The options *)

(** The options that [do_bench] relies on. *)
Record options_ok (b : bench) : Prop := {
  oo_stride : stride b <> 0 /\ ustride b mod cell_size = 0;
  oo_parallel : 0 <= parallel b < LONG_MAX;
  oo_iteration : 0 < iteration b;
}.

Lemma strtol_max base s : (strtol base s).1.1 <= LONG_MAX.
Proof.
  unfold strtol, LONG_MAX. repeat case_match; simplify_eq/=; zbool; lia.
Qed.

Lemma strtol0_max s : (strtol0 s).1.1 <= LONG_MAX.
Proof. unfold strtol0, base0. repeat case_match; apply strtol_max. Qed.

Lemma parse_option_ok o b b' : options_ok b -> parse_option o b = Ok (inl b') -> options_ok b'.
Proof.
  intros [[Hs Ha] Hp Hi]. destruct o; cbn; try (by intros [= <-]).
  - destruct (parse_length optarg) as [[v|]|]; cbn; intros [=]; by subst.
  - case_if E; [done|]. intros [= <-]. by split.
  - pose proof (strtol0_max optarg). case_if E; [done|]. intros [= <-].
    split; cbn in *; try done. lia.
  - case_if E; [done|]. intros [= <-]. by split.
Qed.

Lemma parse_command_facts opts b :
  (forall o, o ∈ opts -> o <> OptHelp /\ o <> OptVersion) ->
  parse_command opts default_bench = Ok (0, b) ->
  2 <= parallel b <= LONG_MAX /\ 0 < iteration b /\ stride b <> 0 /\ ustride b mod cell_size = 0 /\
  (lat_bench b = true \/ bw_bench b = true).
Proof.
  intros Hopts. assert (options_ok default_bench) as Hok by (by repeat split).
  revert Hok. generalize default_bench as b0. unfold parse_command.
  induction opts as [|o opts IH]; intros b0 Hok; cbn [parse_options].
  - obind. intros [= <-]. destruct Hok as [[? ?] ? ?].
    assert (exists b1, (if negb (lat_bench b0) && negb (bw_bench b0)
      then set_bw_bench true (set_lat_bench true b0) else b0) = b1 /\ stride b1 = stride b0 /\
      parallel b1 = parallel b0 /\ iteration b1 = iteration b0 /\ (lat_bench b1 = true \/ bw_bench b1 = true))
      as (b1 & -> & Es & Ep & Ei & Hb).
    { destruct (lat_bench b0) eqn:El, (bw_bench b0) eqn:Eb; eexists; split; try reflexivity; cbn; tauto. }
    unfold ustride in *. destruct (Z.eqb_spec (parallel b1) 0); cbn;
      rewrite Es, Ei; rewrite ?Ep in *; split_and!; (done || lia).
  - destruct (parse_option o b0) as [[b1|[ret b1]]|f] eqn:Eo; obind; [|intros [= -> ->]|done].
    + apply IH; [|by eapply parse_option_ok]. intros o' ?. apply Hopts. by constructor.
    + destruct (Hopts o ltac:(constructor)) as [Hh Hv]. destruct o; cbn in Eo; try done.
      * destruct (parse_length optarg) as [[v|]|]; cbn in Eo; simplify_eq.
      * case_if E; simplify_eq.
      * case_if E; simplify_eq.
      * case_if E; simplify_eq.
Qed.

Lemma init_bench_parameters_keeps pagesize l3_size cpus nprocs b :
  ustride b <> 0 ->
  exists b', init_bench_parameters pagesize l3_size cpus nprocs b = Ok b' /\
    lat_bench b' = lat_bench b /\ bw_bench b' = bw_bench b /\ iteration b' = iteration b /\
    0 < total_cpus b' /\ stride b' = stride b /\ buf_sz b' = buf_sz b /\
    random_access b' = random_access b.
Proof.
  intros Hs. unfold init_bench_parameters. cbv zeta.
  set (b1 := if page_size _ <=? 0 then _ else _).
  set (b2 := if cacheline_size _ <=? 0 then _ else _).
  set (b3 := if total_cpus (set_total_cpus cpus b2) <=? 0 then _ else _).
  set (b4 := if total_cpus b3 <=? 0 then _ else _).
  assert (H : lat_bench b4 = lat_bench b /\ bw_bench b4 = bw_bench b /\ iteration b4 = iteration b /\
    stride b4 = stride b /\ buf_sz b4 = buf_sz b /\ random_access b4 = random_access b /\
    0 < total_cpus b4).
  { unfold b4. destruct (Z.leb_spec (total_cpus b3) 0);
      (split; [|split; [|split; [|split; [|split; [|split; [|try done]]]]]]); unfold b3, b2, b1; by repeat case_match. }
  destruct H as (Hl & Hb & Hi & Hst & Hbuf & Hr & Ht). unfold udiv, ustride in *. rewrite Hst.
  destruct (Z.eqb_spec (to_ulong (stride b)) 0); [done|]. cbn. eauto 12.
Qed.

Lemma init_bench_parameters_list pagesize l3_size cpus nprocs b b' :
  init_bench_parameters pagesize l3_size cpus nprocs b = Ok b' -> ustride b <> 0 ->
  stride b' = stride b /\ buf_sz b' = buf_sz b /\ random_access b' = random_access b.
Proof.
  intros H Hs. destruct (init_bench_parameters_keeps pagesize l3_size cpus nprocs b Hs)
    as (b2 & H2 & _ & _ & _ & _ & Hk). rewrite H in H2. by injection H2 as <-.
Qed.

(** C25. When the command line is read to its end, and neither help nor the version
    was asked for, there are at least one measuring thread beside the allocating one,
    at least one iteration, something to measure, and a stride that is not 0 and a
    multiple of the size of a cell. This is what the list of the benchmark needs
    ([list_ok]) as far as the stride is positive and not above the size of the
    buffer, nor above the size of a page with random access: that is not verified,
    and negative strides ([negative_stride_accepted]) and longer ones are accepted. *)
Theorem parse_command_ok opts b :
  (forall o, o ∈ opts -> o <> OptHelp /\ o <> OptVersion) ->
  parse_command opts default_bench = Ok (0, b) ->
  2 <= parallel b <= LONG_MAX /\ 0 < iteration b /\ stride b <> 0 /\ ustride b mod cell_size = 0 /\
  (lat_bench b = true \/ bw_bench b = true) /\
  forall pagesize l3_size cpus nprocs b',
    init_bench_parameters pagesize l3_size cpus nprocs b = Ok b' ->
    0 < stride b -> stride b <= buf_sz b < 2 ^ 60 ->
    (random_access b = true -> stride b <= page_size b' < 2 ^ 60) -> list_ok b'.
Proof.
  intros Ho Hp. destruct (parse_command_facts opts b Ho Hp) as (H1 & H2 & H3 & H4 & H5).
  split; [done|]. split; [done|]. split; [done|]. split; [done|]. split; [done|].
  intros pagesize l3_size cpus nprocs b' Hini Hs Hb Hr. unfold ustride in H4.
  assert (Eu : to_ulong (stride b) = stride b) by (apply to_ulong_id; unfold is_word; lia).
  rewrite Eu in H4. destruct (init_bench_parameters_list _ _ _ _ _ _ Hini) as (Es & Eb & Er).
  { unfold ustride. lia. }
  constructor; rewrite ?Es, ?Eb, ?Er; (done || lia).
Qed.

(** After [--help] the benchmark still runs when it was asked for before, with
    room for no thread: creating the first one writes outside [threads_info]. *)
Theorem help_then_bench cpu_ok samples node_id :
  exists b, parse_command [OptLatency; OptHelp] default_bench = Ok (0, b) /\ lat_bench b = true /\
    exists s, run true (fun _ => true) cpu_ok samples node_id (parallel b) 0 0 [Manager] (init (parallel b)) = Some s /\
      mgr s = MFault OutOfBounds.
Proof. eexists. split; [reflexivity|]. split; [reflexivity|]. eexists. by split. Qed.

(** A stride that is negative is accepted; the list then has room for no link. *)
Lemma negative_stride_accepted :
  exists b, parse_command [OptStride (s2l "-8"%string)] default_bench = Ok (0, b) /\ stride b = -8 /\
    buf_sz b / ustride b = 0.
Proof. eexists. split; [vm_compute; reflexivity|]. vm_compute. by split. Qed.

(** ** The results *)

Lemma iterate_positive ret t n : forall i time iter,
  0 <= time -> 0 < t -> (forall j, ret j = t) ->
  iterate ret i n time iter = (time + Z.of_nat n * t, iter + Z.of_nat n).
Proof.
  induction n as [|n IH]; intros i time iter Ht Hp Hb; cbn [iterate]; [f_equal; lia|].
  rewrite Hb. destruct (Z.leb_spec (time + t) 0); [lia|]. rewrite IH by (done || lia). f_equal; lia.
Qed.

Lemma iterate_failures ret n : forall i time iter,
  (forall j, ret j <= 0) -> time <= 0 ->
  exists time', iterate ret i n time iter = (time', iter) /\ time' <= 0.
Proof.
  induction n as [|n IH]; intros i time iter Hr Ht; cbn [iterate]; [eauto|].
  pose proof (Hr i). destruct (Z.leb_spec (time + ret i) 0); [|lia]. by apply IH.
Qed.

(** The bandwidth of the streams: when every run takes the time [t], the time by
    which the bytes of a stream are divided grows from stream to stream, because it
    is not reset: the last stream is reported at a quarter of its bandwidth. *)
Theorem bandwidth_time_accumulates ret b t :
  0 < t -> 0 < iteration b -> (forall i j, ret i j = t) ->
  let n := iteration b in
  let bytes c := buf_sz b * c * n * (parallel b - 1) in
  measure_memory_bandwidth ret b =
  inr [(bytes 2, n * t); (bytes 2, 2 * (n * t)); (bytes 3, 3 * (n * t)); (bytes 3, 4 * (n * t))].
Proof.
  intros Ht Hi Hb n bytes. unfold measure_memory_bandwidth. cbn [stream_results].
  do 4 (rewrite (iterate_positive _ t) by (done || lia); rewrite Z2Nat.id by lia; fold n;
        rewrite Z.add_0_l; destruct (Z.eqb_spec n 0); [lia|]).
  unfold bytes. repeat f_equal; lia.
Qed.

Lemma iterate_latency ret b t :
  0 < t -> 0 < iteration b -> (forall j, ret j = t) ->
  measure_memory_latency ret b = inr (iteration b * t, iteration b * (latbench_count b + 1)).
Proof.
  intros Ht Hi Hb. unfold measure_memory_latency. rewrite (iterate_positive _ t) by (done || lia).
  rewrite Z2Nat.id by lia. rewrite !Z.add_0_l. by destruct (Z.eqb_spec (iteration b) 0); [lia|].
Qed.

(** The error of a run is added to the times of the others. *)
Lemma error_is_a_time :
  measure_memory_latency (fun i => if Nat.eqb i 0 then 1000 else - ENOMEM) (set_iteration 2 default_bench) =
  inr (988, 2).
Proof. reflexivity. Qed.

(** The parameters of the machine leave the choice of the measurements alone. *)
(** The whole benchmark, when every measurement gives a time: the result is 0, and
    what the options select is measured, both when they select nothing. *)
Theorem bench_main_measures pagesize l3_size cpus nprocs lat bw opts b t :
  (forall o, o ∈ opts -> o <> OptHelp /\ o <> OptVersion) ->
  parse_command opts default_bench = Ok (0, b) -> ustride b <> 0 ->
  0 < t -> (forall b i, lat b i = t) -> (forall b i j, bw b i j = t) ->
  exists latency bandwidth,
    bench_main pagesize l3_size cpus nprocs lat bw opts = Ok (0, latency, bandwidth) /\
    (is_Some latency <-> lat_bench b = true) /\ (is_Some bandwidth <-> bw_bench b = true).
Proof.
  intros Ho Hp Hs Ht Hlat Hbw. destruct (parse_command_facts opts b Ho Hp) as (_ & Hi & _).
  destruct (init_bench_parameters_keeps pagesize l3_size cpus nprocs b Hs)
    as (b' & Hini & Hl & Hb & Hit & _).
  unfold bench_main. rewrite Hp. obind. cbn [negb Z.eqb]. rewrite Hini. obind.
  rewrite (iterate_latency _ _ t), (bandwidth_time_accumulates _ _ t) by (try done; lia).
  rewrite Hl, Hb. destruct (lat_bench b), (bw_bench b); eexists _, _; (split; [reflexivity|]);
    split; split; intros H; (done || by destruct H).
Qed.

(** When the latency cannot be measured its error is returned, and the bandwidth is
    not measured although it was asked for. *)
Theorem bench_main_stops pagesize l3_size cpus nprocs lat bw opts b :
  (forall o, o ∈ opts -> o <> OptHelp /\ o <> OptVersion) ->
  parse_command opts default_bench = Ok (0, b) -> ustride b <> 0 -> lat_bench b = true ->
  (forall b i, lat b i <= 0) ->
  bench_main pagesize l3_size cpus nprocs lat bw opts = Ok (- EINVAL, None, None).
Proof.
  intros Ho Hp Hs Hlb Hlat.
  destruct (init_bench_parameters_keeps pagesize l3_size cpus nprocs b Hs)
    as (b' & Hini & Hl & Hb & _).
  unfold bench_main. rewrite Hp. obind. cbn [negb Z.eqb]. rewrite Hini. obind.
  rewrite Hl, Hlb. unfold measure_memory_latency.
  destruct (iterate_failures (lat b') (Z.to_nat (iteration b')) 0 0 0) as [time [-> _]]; [done|lia|].
  cbn. by rewrite andb_false_r.
Qed.

Module Defaults.
Definition latency_4M : list option_ :=
  [OptLatency; OptLength (s2l "4M"%string); OptStride (s2l "0x80"%string)].

(** With pages of 4096 bytes the list of this benchmark is well formed. *)
Lemma parse_command_ok_witness :
  exists b b', parse_command latency_4M default_bench = Ok (0, b) /\ buf_sz b = 4 * MiB /\
    2 <= parallel b <= LONG_MAX /\
    init_bench_parameters 4096 64 8 8 b = Ok b' /\ list_ok b'.
Proof.
  eexists _, _. split; [vm_compute; reflexivity|]. split; [reflexivity|].
  edestruct (parse_command_ok latency_4M) as (Hp & _ & _ & _ & _ & Hl).
  - intros o Ho. repeat (apply elem_of_cons in Ho as [->|Ho]; [done|]). by apply elem_of_nil in Ho.
  - vm_compute. reflexivity.
  - split; [exact Hp|]. split; [vm_compute; reflexivity|].
    apply (Hl 4096 64 8 8); [vm_compute; reflexivity|done|by vm_compute|done].
Defined.

Lemma bandwidth_time_accumulates_witness :
  let b := set_parallel 2 default_bench in
  measure_memory_bandwidth (fun _ _ => 100) b =
  inr [(buf_sz b * 2 * 1 * (2 - 1), 1 * 100); (buf_sz b * 2 * 1 * (2 - 1), 2 * (1 * 100));
       (buf_sz b * 3 * 1 * (2 - 1), 3 * (1 * 100)); (buf_sz b * 3 * 1 * (2 - 1), 4 * (1 * 100))].
Proof. apply (bandwidth_time_accumulates (fun _ _ => 100) (set_parallel 2 default_bench) 100); (done || lia). Defined.
End Defaults.
