(* ===== verification/BenchPipes.v ===== *)
(** * Pipes and times of the memory benchmark

    [tools/wayca-memory-bench/wayca-memory-bench.c]: the descriptors of the three
    pipes, the transfers of [thread_synchronize], and the time that
    [measure_execute_time] computes in [double]s. *)

From stdpp Require Import gmap.
From S2P Require Import Prelude Spread.

(** ** Descriptors *)

(** struct pipe_info; the pipes are those of [{0}] until they are created. *)
Record pipe_info := mk_pipe_info {
  p_ready : Z * Z;
  p_start : Z * Z;
  p_stop : Z * Z;
}.
Definition no_pipes : pipe_info := mk_pipe_info (0, 0) (0, 0) (0, 0).

(** The open descriptors of the process, and the calls of [pipe] so far. *)
Record fds := mk_fds {
  open_fds : gset Z;
  pipe_calls : nat;
}.

(** [pipe]: an error number or two descriptors. *)
Class Pipes := pipe_result : nat -> gset Z -> Z + (Z * Z).

(** The lowest descriptor that is not open. *)
Definition lowest (open : gset Z) (a : Z) : Prop :=
  0 <= a /\ a ∉ open /\ forall x, 0 <= x < a -> x ∈ open.

(** The manual page of [pipe]. *)
Class PipesOk `{Pipes} : Prop := {
  pipe_error : forall t open e, pipe_result t open = inl e -> 0 < e;
  pipe_lowest : forall t open a b, pipe_result t open = inr (a, b) ->
    lowest open a /\ lowest ({[a]} ∪ open) b;
}.


Definition close (fd : Z) : M fds unit :=
  modify (fun s => mk_fds (open_fds s ∖ {[fd]}) (pipe_calls s)).

Definition close_pipe (p : Z * Z) : M fds unit :=
  when (negb (p.1 =? 0)) (close p.1;; close p.2).

Definition close_pipes (p : pipe_info) : M fds unit :=
  close_pipe (p_ready p);; close_pipe (p_start p);; close_pipe (p_stop p).

(** The six ends. *)
Definition ends (p : pipe_info) : list Z :=
  [(p_ready p).1; (p_ready p).2; (p_start p).1; (p_start p).2; (p_stop p).1; (p_stop p).2].

(** The descriptors that [close_pipe] closes. *)
Definition live (p : Z * Z) : gset Z := if p.1 =? 0 then ∅ else {[p.1; p.2]}.

Lemma close_pipe_ok p s :
  exists s', close_pipe p s = Ok (tt, s') /\ open_fds s' = open_fds s ∖ live p.
Proof.
  unfold close_pipe, live. destruct (p.1 =? 0); eexists; (split; [reflexivity|]); simpl; set_solver.
Qed.

Lemma close_pipes_ok p s :
  exists s', close_pipes p s = Ok (tt, s') /\
    open_fds s' = open_fds s ∖ (live (p_ready p) ∪ live (p_start p) ∪ live (p_stop p)).
Proof.
  destruct (close_pipe_ok (p_ready p) s) as (s1 & E1 & O1).
  destruct (close_pipe_ok (p_start p) s1) as (s2 & E2 & O2).
  destruct (close_pipe_ok (p_stop p) s2) as (s3 & E3 & O3).
  exists s3. unfold close_pipes. rewrite (M_bind_ok _ _ _ _ _ E1), (M_bind_ok _ _ _ _ _ E2).
  split; [done|]. rewrite O3, O2, O1. set_solver.
Qed.

Lemma live_pos a b : 0 < a -> live (a, b) = {[a; b]}.
Proof. intros Ha. unfold live. simpl. destruct (Z.eqb_spec a 0); [lia|done]. Qed.

Lemma live_none : live (0, 0) = ∅.
Proof. done. Qed.

(** What was added is taken away. *)
Lemma union_difference_id (A B C : gset Z) : A = B ∪ C -> B ## C -> A ∖ B = C.
Proof. intros ->. set_solver. Qed.

Section pipes.
Context `{P : Pipes}.

(** 0 or an error number; an error leaves the array alone. *)
Definition pipe (old : Z * Z) : M fds (Z * (Z * Z)) := fun s =>
  let t := S (pipe_calls s) in
  match pipe_result (pipe_calls s) (open_fds s) with
  | inl e => Ok ((e, old), mk_fds (open_fds s) t)
  | inr (a, b) => Ok ((0, (a, b)), mk_fds ({[b]} ∪ ({[a]} ∪ open_fds s)) t)
  end.

(** The result and the structure. *)
Definition create_pipes (p : pipe_info) : M fds (Z * pipe_info) :=
  r ← pipe (p_ready p);
  let p := mk_pipe_info r.2 (p_start p) (p_stop p) in
  if negb (r.1 =? 0) then close_pipes p;; mret (- r.1, p) else
  r ← pipe (p_start p);
  let p := mk_pipe_info (p_ready p) r.2 (p_stop p) in
  if negb (r.1 =? 0) then close_pipes p;; mret (- r.1, p) else
  r ← pipe (p_stop p);
  let p := mk_pipe_info (p_ready p) (p_start p) r.2 in
  if negb (r.1 =? 0) then close_pipes p;; mret (- r.1, p) else
  mret (0, p).

Context {POk : PipesOk}.

(** A pipe that was created while descriptor 0 was open. *)
Lemma pipe_inv old s : 0 ∈ open_fds s ->
  (exists e s', pipe old s = Ok ((e, old), s') /\ 0 < e /\ open_fds s' = open_fds s) \/
  (exists a b s', pipe old s = Ok ((0, (a, b)), s') /\ 0 < a /\ 0 < b /\ a <> b /\
     a ∉ open_fds s /\ b ∉ open_fds s /\ open_fds s' = {[b]} ∪ ({[a]} ∪ open_fds s)).
Proof using All.
  intros H0. unfold pipe. destruct (pipe_result (pipe_calls s) (open_fds s)) as [e|[a b]] eqn:E.
  - left. exists e. eexists. split; [done|]. split; [by eapply pipe_error|done].
  - right. apply pipe_lowest in E as [(Ha & Ha' & _) (Hb & Hb' & _)]. exists a, b. eexists.
    split; [done|]. assert (a <> 0) by (by intros ->). assert (b <> 0) by (intros ->; set_solver).
    split_and!; [lia|lia|set_solver|done|set_solver|done].
Qed.


(** A call of [pipe] fails: the pipes so far are closed. *)
Lemma failed (e : Z) (p : pipe_info) (s s0 : fds) (k : M fds (Z * pipe_info)) (Q : pipe_info -> fds -> Prop) :
  0 < e -> open_fds s ∖ (live (p_ready p) ∪ live (p_start p) ∪ live (p_stop p)) = open_fds s0 ->
  exists r p' s', (if negb (e =? 0) then close_pipes p;; mret (- e, p) else k) s = Ok ((r, p'), s') /\
  ((r < 0 /\ open_fds s' = open_fds s0) \/ (r = 0 /\ Q p' s')).
Proof using.
  intros He Ho. destruct (Z.eqb_spec e 0); [lia|]. destruct (close_pipes_ok p s) as (s1 & E1 & O1).
  exists (- e), p, s1. cbn [negb]. rewrite (M_bind_ok _ _ _ _ _ E1). split; [done|]. left.
  split; [lia|]. by rewrite O1.
Qed.

(** When descriptor 0 is open, [create_pipes] opens six new descriptors and
    [close_pipes] closes them, or it fails and leaves the descriptors as they were. *)
Theorem create_pipes_correct s : 0 ∈ open_fds s ->
  exists r p s', create_pipes no_pipes s = Ok ((r, p), s') /\
  ((r < 0 /\ open_fds s' = open_fds s) \/
   (r = 0 /\ NoDup (ends p) /\ (forall fd, fd ∈ ends p -> fd ∉ open_fds s) /\
    open_fds s' = list_to_set (ends p) ∪ open_fds s /\
    exists s'', close_pipes p s' = Ok (tt, s'') /\ open_fds s'' = open_fds s)).
Proof using All.
  intros H0. unfold create_pipes. cbn [p_ready p_start p_stop no_pipes].
  destruct (pipe_inv (0, 0) s H0)
    as [(e & s1 & E1 & He & O1)|(a & b & s1 & E1 & Ha & Hb & Hab & Na & Nb & O1)];
  rewrite (M_bind_ok _ _ _ _ _ E1); cbn [fst snd p_ready p_start p_stop].
  { apply failed; [done|]. cbn [p_ready p_start p_stop]. rewrite !live_none, O1. set_solver. }
  cbn [Z.eqb negb]. destruct (pipe_inv (0, 0) s1 ltac:(rewrite O1; set_solver))
    as [(e & s2 & E2 & He & O2)|(c & d & s2 & E2 & Hc & Hd & Hcd & Nc & Nd & O2)];
  rewrite (M_bind_ok _ _ _ _ _ E2); cbn [fst snd p_ready p_start p_stop].
  { apply failed; [done|]. cbn [p_ready p_start p_stop]. rewrite (live_pos a b), live_none by done.
    rewrite O2, O1. set_solver. }
  cbn [Z.eqb negb]. destruct (pipe_inv (0, 0) s2 ltac:(rewrite O2, O1; set_solver))
    as [(e & s3 & E3 & He & O3)|(f & g & s3 & E3 & Hf & Hg & Hfg & Nf & Ng & O3)];
  rewrite (M_bind_ok _ _ _ _ _ E3); cbn [fst snd p_ready p_start p_stop].
  { apply failed; [done|]. cbn [p_ready p_start p_stop].
    rewrite (live_pos a b), (live_pos c d), live_none, O3, O2, O1 by done.
    rewrite O1 in Nc, Nd. apply union_difference_id; [clear; set_solver|set_solver]. }
  cbn [Z.eqb negb]. exists 0, (mk_pipe_info (a, b) (c, d) (f, g)), s3. split; [done|]. right.
  rewrite O2 in Nf, Ng. rewrite O1 in Nc, Nd, Nf, Ng. unfold ends. cbn [fst snd p_ready p_start p_stop].
  split_and!; [done| | | |].
  - repeat (apply NoDup_cons; split; [set_solver|]). constructor.
  - set_solver.
  - rewrite O3, O2, O1. clear. set_solver.
  - destruct (close_pipes_ok (mk_pipe_info (a, b) (c, d) (f, g)) s3) as (s4 & E4 & O4).
    exists s4. split; [done|]. rewrite O4. cbn [p_ready p_start p_stop].
    rewrite !live_pos, O3, O2, O1 by done. apply union_difference_id; [clear; set_solver|set_solver].
Qed.

(** When descriptor 0 is free it becomes an end of the first pipe, which
    [close_pipes] takes for a pipe that was not created. *)
Theorem closed_stdin_leaks_pipe s p s' :
  0 ∉ open_fds s -> create_pipes no_pipes s = Ok ((0, p), s') ->
  exists s'', close_pipes p s' = Ok (tt, s'') /\ 0 ∉ open_fds s /\ 0 ∈ open_fds s''.
Proof using All.
  intros H0 H. destruct (close_pipes_ok p s') as (s'' & E & O). exists s''. split; [done|]. split; [done|].
  rewrite O. unfold create_pipes, mbind, M_bind, pipe in H. cbn [p_ready p_start p_stop no_pipes] in H.
  destruct (pipe_result (pipe_calls s) (open_fds s)) as [e|[a b]] eqn:E1.
  { cbn [fst snd] in H. apply pipe_error in E1. destruct (Z.eqb_spec e 0); [lia|]. cbn [negb] in H.
    destruct (close_pipes_ok (mk_pipe_info (0, 0) (0, 0) (0, 0)) (mk_fds (open_fds s) (S (pipe_calls s))))
      as (x & Ex & _). unfold mbind, M_bind in H. rewrite Ex in H. injection H. lia. }
  apply pipe_lowest in E1 as [(Ha & Ha' & Hl) (Hb & Hb' & _)].
  assert (a = 0) as -> by (destruct (decide (a = 0)); [done|]; exfalso; apply H0, Hl; lia).
  cbn [fst snd Z.eqb negb open_fds pipe_calls] in H.
  destruct (pipe_result _ _) as [e|[c d]] eqn:E2.
  { cbn [fst snd] in H. apply pipe_error in E2. destruct (Z.eqb_spec e 0); [lia|]. cbn [negb] in H.
    match type of H with context [close_pipes ?q ?u] => destruct (close_pipes_ok q u) as (x & Ex & _) end.
    rewrite Ex in H. injection H. lia. }
  apply pipe_lowest in E2 as [(_ & Hc & _) (_ & Hd & _)].
  cbn [fst snd Z.eqb negb open_fds pipe_calls] in H.
  destruct (pipe_result _ _) as [e|[f g]] eqn:E3.
  { cbn [fst snd] in H. apply pipe_error in E3. destruct (Z.eqb_spec e 0); [lia|]. cbn [negb] in H.
    match type of H with context [close_pipes ?q ?u] => destruct (close_pipes_ok q u) as (x & Ex & _) end.
    rewrite Ex in H. injection H. lia. }
  apply pipe_lowest in E3 as [(_ & Hf & _) (_ & Hg & _)].
  cbn [fst snd Z.eqb negb open_fds pipe_calls] in H. injection H as <- <-.
  unfold live. cbn [p_ready p_start p_stop fst snd Z.eqb open_fds].
  destruct (c =? 0), (f =? 0); set_solver.
Qed.
End pipes.

(** ** Signals *)

Inductive sync_signals := READY | START | STOP.

Section transfers.
(** What call [i] of [read] or [write] on a descriptor returns. *)
Context (transfer : Z -> nat -> Z).

(** [for (i = 0; i < num; i++)]: the last result, and the descriptors that were used. *)
Fixpoint transfers (fd : Z) (n i : nat) (ret : Z) : Z * list Z :=
  match n with
  | O => (ret, [])
  | S n => let '(ret, used) := transfers fd n (S i) (transfer fd i) in (ret, fd :: used)
  end.

(** The end of a pipe that a signal uses. *)
Definition sync_end (pipes : pipe_info) (sig : sync_signals) (recv : bool) : Z :=
  let ends := match sig with
              | READY => p_ready pipes
              | START => p_start pipes
              | STOP => p_stop pipes
              end in
  if recv then ends.1 else ends.2.

Definition thread_synchronize (pipes : pipe_info) (sig : sync_signals) (recv : bool) (num : Z)
    : Z * list Z :=
  transfers (sync_end pipes sig recv) (Z.to_nat num) 0 (- EINVAL).

Lemma transfers_ok fd n i ret :
  transfers fd n i ret = (if (n =? 0)%nat then ret else transfer fd (i + n - 1), replicate n fd).
Proof using.
  revert i ret. induction n as [|n IH]; intros i ret; [done|]. cbn [transfers]. rewrite IH.
  destruct n as [|m]; cbn [Nat.eqb replicate]; f_equal; f_equal; lia.
Qed.

(** Its place among the six ends. *)
Definition sync_place (sig : sync_signals) (recv : bool) : nat :=
  match sig with READY => 0 | START => 2 | STOP => 4 end + (if recv then 0 else 1).

Lemma sync_end_place pipes sig recv : ends pipes !! sync_place sig recv = Some (sync_end pipes sig recv).
Proof using. by destruct sig, recv. Qed.

Lemma sync_end_inj pipes sig recv sig' recv' :
  NoDup (ends pipes) -> sync_end pipes sig recv = sync_end pipes sig' recv' ->
  sig = sig' /\ recv = recv'.
Proof using.
  intros Hn E. pose proof (sync_end_place pipes sig recv) as H1. rewrite E in H1.
  pose proof (NoDup_lookup _ _ _ _ Hn H1 (sync_end_place pipes sig' recv')) as Hp.
  by destruct sig, recv, sig', recv'.
Qed.

(** A signal to [num] threads is [num] transfers on one end of one pipe, and no other
    signal uses this end. *)
Theorem thread_synchronize_correct pipes sig recv num sig' recv' num' :
  NoDup (ends pipes) ->
  (thread_synchronize pipes sig recv num).2 = replicate (Z.to_nat num) (sync_end pipes sig recv) /\
  (sync_end pipes sig recv ∈ (thread_synchronize pipes sig' recv' num').2 ->
   sig' = sig /\ recv' = recv).
Proof using.
  intros Hn. unfold thread_synchronize. rewrite !transfers_ok. split; [done|]. cbn [snd].
  intros [E _]%elem_of_replicate. destruct (sync_end_inj _ _ _ _ _ Hn E). done.
Qed.
End transfers.

(** ** Times *)

(** struct timespec *)
Record timespec := mk_timespec {
  tv_sec : Z;
  tv_nsec : Z;
}.

(** The double nearest to an integer: the integers below [2 ^ 53] are doubles. *)
Definition dbl (z : Z) : Z :=
  if Z.abs z <=? 2 ^ 53 then z
  else let k := 2 ^ (Z.log2 (Z.abs z) - 52) in Z.sgn z * (rne (Z.abs z) k * k).

(** [begin] and [end] are the answers of [clock_gettime]; NS_PER_SEC is the
    [double] 1e9, so the sum is a [double]. *)
Definition measure_execute_time (begin end_ : timespec) : Z :=
  let s := dbl (dbl (tv_sec end_ - tv_sec begin) * 10 ^ 9) in
  let e := dbl (s + tv_nsec end_) in
  dbl (e - tv_nsec begin).

Definition nanoseconds (t : timespec) : Z := tv_sec t * 10 ^ 9 + tv_nsec t.

Lemma dbl_exact z : Z.abs z <= 2 ^ 53 -> dbl z = z.
Proof. intros H. unfold dbl. by destruct (Z.leb_spec (Z.abs z) (2 ^ 53)); [|lia]. Qed.

(** The time is exact for about a hundred days. *)
Theorem measure_execute_time_exact begin end_ :
  0 <= tv_nsec begin < 10 ^ 9 -> 0 <= tv_nsec end_ < 10 ^ 9 ->
  0 <= tv_sec end_ - tv_sec begin <= 9 * 10 ^ 6 ->
  measure_execute_time begin end_ = nanoseconds end_ - nanoseconds begin.
Proof.
  intros Hb He Hs. unfold measure_execute_time, nanoseconds.
  rewrite (dbl_exact (tv_sec end_ - tv_sec begin)) by lia.
  rewrite (dbl_exact ((tv_sec end_ - tv_sec begin) * 10 ^ 9)) by lia.
  rewrite (dbl_exact (_ + tv_nsec end_)) by lia. rewrite dbl_exact by lia. lia.
Qed.

(** Beyond it nanoseconds are lost. *)
Theorem measure_execute_time_rounds :
  measure_execute_time (mk_timespec 0 0) (mk_timespec 9007200 1) = 9007200 * 10 ^ 9.
Proof. vm_compute. reflexivity. Qed.

(** ** A process with room for descriptors *)

Module Descriptors.
(** The first number that is not in the set. *)
Definition first_free (open : gset Z) : Z :=
  match list_find (fun x => x ∉ open) (seqZ 0 (Z.of_nat (S (size open)))) with
  | Some (_, x) => x
  | None => 0
  end.

Lemma first_free_lowest open : lowest open (first_free open).
Proof.
  unfold first_free. destruct (list_find _ _) as [[i x]|] eqn:E.
  - apply list_find_Some in E as (Hx & Hn & Hmin). rewrite lookup_seqZ in Hx. destruct Hx as [Ex Hi].
    split; [lia|]. split; [done|]. intros y Hy.
    destruct (decide (y ∈ open)) as [|Hno]; [done|]. exfalso.
    apply (Hmin (Z.to_nat y) y); [rewrite lookup_seqZ; lia|lia|done].
  - exfalso. apply list_find_None in E.
    assert (Hs : list_to_set (C := gset Z) (seqZ 0 (Z.of_nat (S (size open)))) ⊆ open).
    { intros x. rewrite elem_of_list_to_set. intros Hx.
      destruct (decide (x ∈ open)) as [|Hno]; [done|]. rewrite Forall_forall in E. by destruct (E x Hx). }
    apply subseteq_size in Hs. rewrite size_list_to_set, length_seqZ in Hs by apply NoDup_seqZ. lia.
Qed.

#[export] Instance first_pipes : Pipes := fun _ open =>
  let a := first_free open in inr (a, first_free ({[a]} ∪ open)).

#[export] Instance first_pipes_ok : PipesOk.
Proof. split; [done|]. intros t open a b [= <- <-]. split; apply first_free_lowest. Qed.

(** With the three standard descriptors open the ends are 3 to 8. *)
Example ends_from_3 :
  match create_pipes no_pipes (mk_fds {[0; 1; 2]} 0) with
  | Ok ((r, p), _) => r = 0 /\ ends p = [3; 4; 5; 6; 7; 8]
  | Fault _ => False
  end.
Proof. vm_compute. done. Qed.
End Descriptors.
